(* ===== verification/_CoqProject ===== *)
-Q . S2P
Prelude.v
Double.v
Model.v
Text.v
Tags.v
TagLine.v
Database.v
CardRepo.v
CardPages.v
Uuid.v
TreeOrder.v
Hierarchy.v
Repair.v
CardReference.v
CardPlacement.v
LinkKindCatalog.v
LinkRepo.v
TagRepo.v
MilestoneRepo.v
ProjectRepo.v
ProjectSyncRepo.v
CardFrontMatter.v
Sync.v
Disk.v
Runs.v
Mutation.v
ReferenceGit.v
Recovery.v
Privacy.v
CardChanges.v
ReferenceYaml.v
Json.v
ReferenceJson.v
CryptoService.v
ProjectKeys.v
AssetEnvelope.v
ReferenceCrypto.v
ProjectKeysTheorems.v
AssetEnvelopeFacts.v
StorageProvider.v
LocalProvider.v
ResourceManifest.v
ResourceRepo.v
LocationRepo.v
ResourceFacts.v
ResourceTheorems.v
RebuildResources.v
RebuildReads.v
RebuildManifests.v
Rebuild.v
RebuildFacts.v
RebuildFiles.v
Store.v
Sealed.v
ResourceStores.v
GitRuns.v
ResourceStoresFacts.v
ResourceStoresTheorems.v
AssetImport.v
AssetImportFacts.v
AssetImportTheorems.v
IndexSafety.v
LineDiff.v
GitHistory.v
CardHistory.v
CardHistoryFacts.v
CardHistoryTheorems.v
GitMerge.v
GitMergeFacts.v
GitMergeTheorems.v
ProjectManifest.v
ProjectPaths.v
ProjectStore.v
ProjectStoreFacts.v
ProjectStoreTheorems.v
StartupRecovery.v
StartupRecoveryTheorems.v
DatabaseRebuild.v
DatabaseRebuildFacts.v
DatabaseRebuildTheorems.v
