(* ===== verification/Prelude.v ===== *)
(** * Holder core: a verification development

    Holder keeps a user's notes as _cards_: Markdown files in a Git repository per project,
    with an SQLite database as an index that can be rebuilt from the files at any time.
    This library models the C++ code under [src/src/] and proves what makes it correct. A
    definition has the name of the function it translates and takes its guards, early
    returns and effects in the order of the source.

    ** How the program is put together, and where each part is modelled

    - _Data_. [model/*.h] is [Model]; a [double] is [Double] (the standard library's
      executable binary64), a [std::string] is a [string] of bytes or, where the code takes
      it apart, a [list ascii] ([Text]). A value of nlohmann::json is [Json].
    - _Text of cards_. [card/TagExtractor.cpp] is [Tags], [card/TagLineEditor.cpp] is
      [TagLine], [card/CardFrontMatter.cpp] is [CardFrontMatter].
    - _Identifiers and paths_. [identity/Uuid.cpp] and [card/CardPaths.cpp] are [Uuid].
    - _The index database_. [schema/schema.sql] and the constraints it declares are
      [Database]: a table is a list of rows, a statement a partial function on the tables.
      The repositories on top of it are [CardRepo] (with the keyset pagination of
      [CardPages]), [LinkRepo], [TagRepo], [MilestoneRepo], [ProjectRepo],
      [ProjectSyncRepo], [ResourceRepo] and [LocationRepo]; [LinkKindCatalog] is the
      vocabulary of links.
    - _The card tree_. [card/CardHierarchy.cpp] is split into [TreeOrder] (sort keys),
      [Hierarchy] (ancestors, trashing, restoring) and [Repair];
      [card/CardPlacementResolver.cpp] is [CardPlacement] and
      [card/CardReferenceResolver.cpp] is [CardReference].
    - _Files and Git_. [platform/Fs.cpp] and the writing half of [git/GitRepo.cpp] are
      [Disk]: a world with a working tree, Git objects, references, an index file, files
      elsewhere, and an environment that decides of every call whether it works, throws,
      falls short, or is the last one of the process. [Runs] and [GitRuns] say what the calls
      do when they work. [GitHistory] is the reading half, pages of commits, and
      [git/RevisionReferenceResolver.cpp]; [GitMerge] is pulling and merging.
    - _Changes that survive a crash_. [card/CardMutation.cpp] is [Mutation], with what its
      recovery promises to later work in [Recovery].
    - _The card store_. [card/CardStore.cpp] is [CardChanges] (the change of several cards:
      files, rows, commit, compensation) and [Store] (every entry point). Its state is a
      [Store] record: the world, the committed tables, and those of an open transaction.
    - _Resources_. [resource/*.cpp]: the manifests are [ResourceManifest], the stores
      [ResourceStores], importing and fetching [AssetImport], the storage of assets the
      interface [StorageProvider] with the local directory [LocalProvider].
    - _Encryption_. [privacy/CryptoService.cpp] is [CryptoService] and
      [resource/AssetEnvelope.cpp] is [AssetEnvelope]. [privacy/ProjectPrivacy.cpp] is
      [Privacy] where it stands between the stores and the files, and [ProjectKeys] where it
      works on the keyring; [Sealed] is the invariant it is there for.
    - _History_. [history/CardHistory.cpp] is [CardHistory], its line difference [LineDiff].
    - _Projects_. [project/ProjectManifest.cpp], [ProjectPaths.cpp], [ProjectStore.cpp] and
      [StartupRecovery.cpp] are the files of these names.
    - _Rebuilding the index_. [project/Rebuilder.cpp] is [Rebuild] and [RebuildResources];
      [RebuildReads], [RebuildManifests], [RebuildFacts] and [RebuildFiles] follow the files
      into the tables.
    - _Replacing the database_. [platform/DatabaseRebuild.cpp] is [DatabaseRebuild]: health,
      audit, reconstruction from the projects, and the swap with the file in place.
    - _Synchronising_. [sync/*.cpp] is [Sync].
    A file [XFacts] holds the lemmas on [X] and [XTheorems] the theorems. The effects are
    explicit: [M S A] is a computation that may throw, in the state-passing style of this
    file, and keeps the state it left behind when it throws. [Repo] is [M] over the tables,
    [IO] over the world, [M Store] over both; creating and recovering projects works on
    records of their own, since they have a keyring or several directories.

    ** Interfaces to code that is not in the repository

    What the program takes from a library is a class of operations with a second class of
    laws that state its documented behaviour; the theorems take the laws as hypotheses and
    an instance shows that they can hold.
    - [SqlEngine] ([reference_engine]): which order a query without a total [ORDER BY] has.
    - [Yaml] ([reference_yaml]): yaml-cpp's nodes, emitter and conversions.
    - [JsonLib] ([reference_json]): nlohmann::json's parser, writer and conversions.
    - [LibGit2], [MsgPack] ([reference_git], [reference_msgpack]): ids, the index file, the
      walk over commits; the journal's encoding. [GitLog]: sorted walks, paths that a commit
      touches, abbreviated ids. [GitRemoteSide]: fetching and checking out.
    - [Sodium], [AssetCrypto], [OpenSsl] ([ReferenceCrypto]): the ciphers, digests and
      encodings; what is random is a function of the number of the call.
    - [Privacy] ([reference_privacy]): the cipher of the stores. Its laws hold of the
      keyring's cipher ([keyring_privacy_correct]).
    - [StorageProvider]: where assets are kept; a directory is one ([local_provider_correct]).
    - [Sqlite]: what opening and checking a database file answers, and a schema's text.
    - [Directory]: the order in which a directory is listed and the times of files.
    - [SyncServices]: the remote side of a sync.
    - md4c is the argument [md_parse]: the callbacks it makes for a body.

    ** What the theorems show

    - Once its journal is written a change of several cards is atomic, over the files, the
      index, the commit and the tables, wherever the process dies and however often recovery
      is interrupted ([card_changes_atomic]); recovery leaves later commits alone
      ([recovery_respects_later_work]).
    - No call of the store ever leaves the text of an encrypted project in the clear
      ([encrypted_stays_encrypted]). The keyring's cipher keeps its promises
      ([keyring_privacy_correct]), an asset's envelope gives back what went in, and nothing
      unverified ([asset_round_trip], [recovery_is_verified]); a recovery token moves a key
      ([recovery_token_moves_key]).
    - The index is a function of the files: a rebuild reads back exactly what was written
      ([rebuild_reads_back]), and fails exactly when a parent is missing or loops; the stores
      never index what HEAD does not have ([index_follows_head], [store_put_commits]).
    - A project is created as a whole ([project_create_correct]), its manifest says what it
      is ([manifest_round_trip]), and the two together with a rebuild bring it back when the
      database is lost ([lost_project_comes_back]). While the database itself is replaced, the
      old file survives whatever fails ([database_survives]).
    - A pull and the merge of a diverged branch lose nothing when no call fails
      ([pull_loses_nothing]).
    - The history of a card is complete, and while no scan is cut short its sessions do not
      depend on its pages ([card_history_complete]); a difference of texts is a shortest edit script
      ([line_diff_correct]).
    - Assets and resources: a new file that is imported is fetched again ([asset_import_round_trip]),
      the tables stay well-formed ([resource_tables_stay_wf], [put_bundle_correct]), the
      manifests round-trip ([manifests_round_trip]), a directory is a storage provider
      ([local_provider_correct]).
    - No operation of the tree hides a card, and each puts cards exactly where it says
      ([placed_card_moves], [promoted_children_take_place], [restored_card_reachable],
      [resolved_move_lands], [hierarchy_repair_correct], [insert_block_into_ordered],
      [reachable_card_parent_correct]).
    - The repositories refine maps and histories: [upsert_links_refines],
      [sync_row_follows_history], [card_writes_preserve_wf], [project_remove_erases];
      pagination visits every row once ([collection_pages_complete]), a reference resolves to
      exactly what it matches ([resolve_correct]).
    - The text functions: the tag scan finds exactly the tags ([tag_scan_complete]), the
      file format round-trips ([card_file_roundtrip]), and any file is read field by field up
      to what does not convert ([parse_card_file_outcomes]).
    - A sync pushes and pulls in the order it promises, records what happened, keeps both
      versions of a card that both sides changed or skips it, and is tried again ([sync_reports_what_it_records], [next_attempt_due],
      [conflicts_never_fail_the_pull]).
    Beside these each file has theorems on the rest of its operations, such as
    [set_tags_replaces], [replace_milestones_correct], [upsert_remove_roundtrip],
    [uuid_v7_time_ordered] and [project_root_is_its_own].

    ** Bounds and fuel

    - Times, counters and the columns that hold them are unbounded integers; that an [int]
      retry counter of a sync overflows after 2^31 failures in a row is not modelled. A count
      of rows is returned as a 32-bit [int]. Integers read from JSON are converted by the
      library ([JsonLib]); the sizes in an asset's envelope are taken modulo 2^32. The limits
      of pages are checked before they are used.
    - [landed_commit] looks at 10000 commits, as the code does; a history looks at as many as
      its service was made with, and a new project's directory is one of 1000 candidates.
    - [insert_rounds] has as much fuel as records, [walk_subtree] one more than cards, and the
      walks over ancestors one more than cards; each round consumes one. The walk of a line
      difference has as much fuel as both texts have lines, and a round takes a line. A page
      of a card's history has a round per commit that is left.
    - The sort keys are rounded after each operation; no contraction to fused operations.
    - [std::sort] is a stable sort; the theorems that depend on it sort distinct keys.

    ** Not modelled

    - Directories, other than through the files below them, and links between files. This
      leaves out the search for projects below a directory and the checks of
      [project/ProjectImport.cpp]; [DefaultProject] makes a project and a card.
    - [capi/]: marshalling of C strings and JSON around the components; no logic of its own.
    - The full-text index ([index/]): statements for SQLite's FTS5 module. The stores
      modelled have none ([fts_] is null).
    - [git/GitOps], credentials, host trust, probing and pushing: calls to libgit2 with
      callbacks; their results are the operations of [SyncServices].
    - [git/RepoLocks]: the locks serialise operations; the operations here run one at a time.
    - [history/ProjectHistory]: all commits of a project with the objects they change.
    - [platform/Migrations]: upgrades of older schemas.
    - [privacy/SecretStore], [PlatformKeyring]: the key stores of the platforms; a keyring is
      a map of secrets.
    - [ai/]: conversations and provider settings beside the cards. A rebuild is modelled for
      repositories without them.

    This file holds what every component shares: errors, the state-and-exception monad and
    its triples, [preserves] and its hints, lists, options and sorting. *)

From stdpp Require Import base list sets strings numbers gmap sorting.
From Stdlib Require Import Ascii.

#[global] Open Scope Z_scope.

(** ** Errors and the state-and-exception monad

    The C++ code reports failure by throwing: [std::runtime_error] and
    [std::invalid_argument] with a message, and [throw_sqlite], whose message is
    a fixed text followed by whatever SQLite reports; [PrivacyError] and [StorageError]
    carry a code. An exception does not undo the effects that came before it, so a
    computation that fails still returns the state it left behind. *)
Inductive PrivacyErrorCode :=
| KeyMaterialMissing | KeyringUnavailable | RecoveryTokenInvalid | EnvelopeInvalid
| EnvelopeMetadataMismatch | CryptMetadataMissing | EncryptionSafetyCheckFailed | PrivacyCryptoFailed.
Inductive StorageErrorCode :=
| Unavailable | Authentication | Permission | Capacity | Integrity | Conflict | InvalidConfiguration
| Transient.
#[export] Instance privacy_code_eq_dec : EqDecision PrivacyErrorCode.
Proof. solve_decision. Defined.
#[export] Instance storage_code_eq_dec : EqDecision StorageErrorCode.
Proof. solve_decision. Defined.

Inductive error :=
| Runtime (msg : string)
| InvalidArgument (msg : string)
| Sqlite (what : string)
| PrivacyError (code : PrivacyErrorCode) (msg : string)
| StorageError (code : StorageErrorCode) (msg : string).

#[export] Instance error_eq_dec : EqDecision error.
Proof. solve_decision. Defined.

(** [what()] *)
Definition error_what (e : error) : string :=
  match e with
  | Runtime msg | InvalidArgument msg | Sqlite msg | PrivacyError _ msg | StorageError _ msg => msg
  end.

Inductive result (A : Type) :=
| Ok (a : A)
| Err (e : error).
Arguments Ok {A} a.
Arguments Err {A} e.

Definition M (S A : Type) : Type := S -> result A * S.

Definition mret {S A} (a : A) : M S A := fun s => (Ok a, s).
Definition throw {S A} (e : error) : M S A := fun s => (Err e, s).
Definition bind {S A B} (m : M S A) (f : A -> M S B) : M S B :=
  fun s =>
    match m s with
    | (Ok a, s') => f a s'
    | (Err e, s') => (Err e, s')
    end.
Definition gets {S A} (f : S -> A) : M S A := fun s => (Ok (f s), s).
Definition modify {S} (f : S -> S) : M S unit := fun s => (Ok tt, f s).
Definition lift {S A} (r : result A) : M S A := fun s => (r, s).
(** [try m catch (const std::exception& e) { h(e) }]. *)
Definition try_catch {S A} (m : M S A) (h : error -> M S A) : M S A :=
  fun s =>
    match m s with
    | (Ok a, s') => (Ok a, s')
    | (Err e, s') => h e s'
    end.

Declare Scope holder_scope.
Delimit Scope holder_scope with holder.
Notation "'let*' x ':=' m 'in' k" := (bind m (fun x => k))
  (at level 10, x pattern, m at level 100, k at level 200) : holder_scope.
Notation "m ';;;' k" := (bind m (fun _ => k))
  (at level 199, right associativity) : holder_scope.
#[global] Open Scope holder_scope.

Definition when {S} (b : bool) (m : M S unit) : M S unit := if b then m else mret tt.

Fixpoint for_each {S A} (l : list A) (f : A -> M S unit) : M S unit :=
  match l with
  | [] => mret tt
  | x :: xs => f x ;;; for_each xs f
  end.

(** The same for computations without state. *)
Definition rbind {A B} (r : result A) (f : A -> result B) : result B :=
  match r with Ok a => f a | Err e => Err e end.
Notation "'let?' x ':=' r 'in' k" := (rbind r (fun x => k))
  (at level 10, x pattern, r at level 100, k at level 200) : holder_scope.

Lemma bind_ok {S A B} (m : M S A) (f : A -> M S B) s b s2 :
  bind m f s = (Ok b, s2) <-> exists a s1, m s = (Ok a, s1) /\ f a s1 = (Ok b, s2).
Proof.
  unfold bind. destruct (m s) as [[a|e] s1]; split.
  - intros H. by exists a, s1.
  - intros (a' & s1' & [= <- <-] & H). done.
  - intros [=].
  - intros (? & ? & [=] & _).
Qed.

Lemma for_each_ok {S A} (f : A -> M S unit) (g : A -> S -> S) (P : S -> Prop) (l : list A) s :
  (forall x s, x ∈ l -> P s -> f x s = (Ok tt, g x s) /\ P (g x s)) -> P s ->
  for_each l f s = (Ok tt, foldl (fun s x => g x s) s l) /\ P (foldl (fun s x => g x s) s l).
Proof.
  revert s. induction l as [|x l IH]; simpl; intros s H Hs; [done|].
  destruct (H x s) as [Hx Hp]; [set_solver|done|]. unfold bind. rewrite Hx.
  apply IH; [|done]. intros y s' Hy. apply H. set_solver.
Qed.

Lemma bind_seq {S A} (m : M S unit) (k : M S A) s s' :
  m s = (Ok tt, s') -> (m ;;; k) s = k s'.
Proof. unfold bind. by intros ->. Qed.

Lemma bind_assoc {S A B C} (m : M S A) (f : A -> M S B) (g : B -> M S C) s :
  bind (bind m f) g s = bind m (fun a => bind (f a) g) s.
Proof. unfold bind. by destruct (m s) as [[a|e] s']. Qed.

(** The loop stops at the first exception, with the effects up to it. *)
Lemma for_each_stop {S A} (f : A -> M S unit) (l1 l2 : list A) x s s1 e s2 :
  for_each l1 f s = (Ok tt, s1) -> f x s1 = (Err e, s2) ->
  for_each (l1 ++ x :: l2) f s = (Err e, s2).
Proof.
  revert s. induction l1 as [|y l1 IH]; simpl; intros s H1 H2.
  - injection H1 as <-. unfold bind. by rewrite H2.
  - unfold bind in *. destruct (f y s) as [[u|e'] s']; [|done]. by apply IH.
Qed.

Lemma for_each_app {S A} (f : A -> M S unit) (l1 l2 : list A) s s1 :
  for_each l1 f s = (Ok tt, s1) -> for_each (l1 ++ l2) f s = for_each l2 f s1.
Proof.
  revert s. induction l1 as [|y l1 IH]; simpl; intros s H1.
  - by injection H1 as <-.
  - unfold bind in *. destruct (f y s) as [[u|e'] s']; [|done]. by apply IH.
Qed.

(** A computation keeps a property of the state whether it returns or throws. *)
Definition preserves {S A} (P : S -> Prop) (m : M S A) : Prop := forall s, P s -> P (snd (m s)).

Create HintDb preserves.

Lemma preserves_mret {S A} (P : S -> Prop) (a : A) : preserves P (mret a).
Proof. by intros s. Qed.
Lemma preserves_throw {S A} (P : S -> Prop) e : preserves P (@throw S A e).
Proof. by intros s. Qed.
Lemma preserves_gets {S A} (P : S -> Prop) (f : S -> A) : preserves P (gets f).
Proof. by intros s. Qed.
Lemma preserves_lift {S A} (P : S -> Prop) (r : result A) : preserves P (lift r).
Proof. by intros s. Qed.
Lemma preserves_modify {S} (P : S -> Prop) f : (forall s, P s -> P (f s)) -> preserves P (modify f).
Proof. intros H s. apply H. Qed.
Lemma preserves_bind {S A B} (P : S -> Prop) (m : M S A) (f : A -> M S B) :
  preserves P m -> (forall a, preserves P (f a)) -> preserves P (bind m f).
Proof.
  intros Hm Hf s Hs. unfold bind. specialize (Hm s Hs). destruct (m s) as [[a|e] s']; [|done].
  by apply Hf.
Qed.
Lemma preserves_try {S A} (P : S -> Prop) (m : M S A) h :
  preserves P m -> (forall e, preserves P (h e)) -> preserves P (try_catch m h).
Proof.
  intros Hm Hh s Hs. unfold try_catch. specialize (Hm s Hs). destruct (m s) as [[a|e] s']; [done|].
  by apply Hh.
Qed.
Lemma preserves_for_each {S A} (P : S -> Prop) (l : list A) f :
  (forall x, preserves P (f x)) -> preserves P (for_each l f).
Proof.
  intros Hf. induction l as [|x l IH]; cbn; [apply preserves_mret|]. by apply preserves_bind.
Qed.
Lemma preserves_when {S} (P : S -> Prop) b m : preserves P m -> preserves P (when b m).
Proof. intros Hm. destruct b; [done|apply preserves_mret]. Qed.

Lemma preserves_bind_lift {S A B} (P : S -> Prop) (r : result A) (f : A -> M S B) :
  (forall a, r = Ok a -> preserves P (f a)) -> preserves P (bind (lift r) f).
Proof. intros H s Hs. unfold bind, lift. destruct r as [a|e]; [by apply H|done]. Qed.

#[export] Hint Resolve preserves_mret preserves_throw preserves_gets preserves_lift preserves_modify
  preserves_bind preserves_try preserves_for_each preserves_when : preserves.

(** ** Triples

    [hoare P m Q F]: run from a state in [P], [m] either returns [a] in a state of [Q a]
    or throws in a state of [F]. *)
Definition hoare {S A} (P : S -> Prop) (m : M S A) (Q : A -> S -> Prop) (F : S -> Prop) : Prop :=
  forall s, P s -> match m s with (Ok a, s') => Q a s' | (Err _, s') => F s' end.

Lemma hoare_bind {S A B} (P : S -> Prop) (m : M S A) (f : A -> M S B) (Q : A -> S -> Prop)
    (R : B -> S -> Prop) (F : S -> Prop) :
  hoare P m Q F -> (forall a, hoare (Q a) (f a) R F) -> hoare P (bind m f) R F.
Proof.
  intros Hm Hf s Hs. unfold bind. specialize (Hm s Hs). destruct (m s) as [[a|e] s']; [|done].
  by apply Hf.
Qed.

Lemma hoare_conseq {S A} (P P' : S -> Prop) (m : M S A) (Q Q' : A -> S -> Prop) (F F' : S -> Prop) :
  hoare P m Q F -> (forall s, P' s -> P s) -> (forall a s, Q a s -> Q' a s) ->
  (forall s, F s -> F' s) -> hoare P' m Q' F'.
Proof.
  intros Hm HP HQ HF s Hs. specialize (Hm s (HP s Hs)). destruct (m s) as [[a|e] s']; [by apply HQ|by apply HF].
Qed.

Lemma hoare_and {S A} (P1 P2 : S -> Prop) (m : M S A) (Q1 Q2 : A -> S -> Prop) (F1 F2 : S -> Prop) :
  hoare P1 m Q1 F1 -> hoare P2 m Q2 F2 ->
  hoare (fun s => P1 s /\ P2 s) m (fun a s => Q1 a s /\ Q2 a s) (fun s => F1 s /\ F2 s).
Proof.
  intros H1 H2 s [Hs1 Hs2]. specialize (H1 s Hs1). specialize (H2 s Hs2).
  by destruct (m s) as [[a|e] s'].
Qed.

(** A case of the precondition at a time, and facts that do not depend on the state. *)
Lemma hoare_or {S A} (P1 P2 : S -> Prop) (m : M S A) (Q : A -> S -> Prop) (F : S -> Prop) :
  hoare P1 m Q F -> hoare P2 m Q F -> hoare (fun s => P1 s \/ P2 s) m Q F.
Proof. intros H1 H2 s [Hs|Hs]; [by apply H1|by apply H2]. Qed.
Lemma hoare_pure {S A} (X : Prop) (P : S -> Prop) (m : M S A) (Q : A -> S -> Prop) (F : S -> Prop) :
  (X -> hoare P m Q F) -> hoare (fun s => X /\ P s) m Q F.
Proof. intros H s [HX Hs]. by apply H. Qed.

Lemma hoare_mret {S A} (a : A) (Q : A -> S -> Prop) (F : S -> Prop) : hoare (Q a) (mret a) Q F.
Proof. by intros s. Qed.
Lemma hoare_gets {S A} (f : S -> A) (P : S -> Prop) (F : S -> Prop) :
  hoare P (gets f) (fun a s => P s /\ a = f s) F.
Proof. by intros s. Qed.
Lemma hoare_modify {S} (f : S -> S) (P : S -> Prop) (Q : S -> Prop) (F : S -> Prop) :
  (forall s, P s -> Q (f s)) -> hoare P (modify f) (fun _ => Q) F.
Proof. intros H s. apply H. Qed.
Lemma hoare_when {S} (b : bool) (m : M S unit) (P : S -> Prop) (Q : S -> Prop) (F : S -> Prop) :
  (b = true -> hoare P m (fun _ => Q) F) -> (b = false -> forall s, P s -> Q s) ->
  hoare P (when b m) (fun _ => Q) F.
Proof. destruct b; cbn; intros H1 H2; [by apply H1|]. intros s Hs. by apply H2. Qed.
Lemma hoare_when_throw {S} (b : bool) (e : error) (P : S -> Prop) (F : S -> Prop) :
  (forall s, P s -> b = false) -> hoare P (when b (throw e)) (fun _ => P) F.
Proof. intros H s Hs. by rewrite (H s Hs). Qed.
Lemma hoare_try {S A} (m : M S A) (h : error -> M S A) (P : S -> Prop) (Q : A -> S -> Prop) (F F' : S -> Prop) :
  hoare P m Q F -> (forall e, hoare F (h e) Q F') -> hoare P (try_catch m h) Q F'.
Proof.
  intros Hm Hh s Hs. unfold try_catch. specialize (Hm s Hs). destruct (m s) as [[a|e] s']; [done|].
  by apply Hh.
Qed.
Lemma hoare_lift {S A B} (r : result A) (a : A) (f : A -> M S B) (P : S -> Prop) (Q : B -> S -> Prop) (F : S -> Prop) :
  r = Ok a -> hoare P (f a) Q F -> hoare P (bind (lift r) f) Q F.
Proof. by intros ->. Qed.
Lemma hoare_for_each {S A} (l : list A) (f : A -> M S unit) (I : list A -> S -> Prop) (F : S -> Prop) :
  (forall pre x rest, l = pre ++ x :: rest -> hoare (I pre) (f x) (fun _ => I (pre ++ [x])) F) ->
  hoare (I []) (for_each l f) (fun _ => I l) F.
Proof.
  intros H. assert (forall rest pre, l = pre ++ rest ->
    hoare (I pre) (for_each rest f) (fun _ => I l) F) as G; [|by apply (G l [])].
  induction rest as [|x rest IH]; intros pre Hl; cbn.
  - rewrite app_nil_r in Hl. subst. by intros s.
  - eapply hoare_bind; [by apply (H pre x rest)|]. intros []. apply IH. by rewrite <- (assoc_L (++)).
Qed.
Lemma hoare_preserves {S A} (P : S -> Prop) (m : M S A) :
  preserves P m -> hoare P m (fun _ => P) P.
Proof. intros H s Hs. specialize (H s Hs). by destruct (m s) as [[a|e] s']. Qed.
Lemma preserves_hoare {S A} (P : S -> Prop) (m : M S A) :
  hoare P m (fun _ => P) P -> preserves P m.
Proof. intros H s Hs. specialize (H s Hs). by destruct (m s) as [[a|e] s']. Qed.

(** ** Three-way comparisons

    Every ordering of the program (a comparator passed to [std::sort], an
    [ORDER BY] clause) is a lexicographic combination of comparisons of single
    columns, some of them reversed. [CmpOrd] is what such a comparison
    satisfies; the combinators below preserve it. *)
Class CmpOrd {A} (cmp : A -> A -> comparison) : Prop := {
  cmp_opp : forall a b, cmp a b = CompOpp (cmp b a);
  cmp_lt_trans : forall a b c, cmp a b = Lt -> cmp b c = Lt -> cmp a c = Lt;
  cmp_eq_l : forall a b c, cmp a b = Eq -> cmp a c = cmp b c
}.
Arguments cmp_opp {A} cmp {_} a b.
Arguments cmp_lt_trans {A} cmp {_} a b c _ _.
Arguments cmp_eq_l {A} cmp {_} a b c _.

Definition cmp_rev {A} (cmp : A -> A -> comparison) (a b : A) : comparison := cmp b a.
Definition cmp_on {A B} (f : A -> B) (cmp : B -> B -> comparison) (a b : A) : comparison :=
  cmp (f a) (f b).
Definition cmp_lex {A} (c1 c2 : A -> A -> comparison) (a b : A) : comparison :=
  match c1 a b with Eq => c2 a b | c => c end.
Definition cmp_true {A} (_ _ : A) : comparison := Eq.

Definition cmp_le {A} (cmp : A -> A -> comparison) (a b : A) : Prop := cmp a b <> Gt.
#[global] Typeclasses Opaque cmp_rev cmp_on cmp_lex cmp_true.

Definition cmp_ltb {A} (cmp : A -> A -> comparison) (a b : A) : bool :=
  match cmp a b with Lt => true | _ => false end.

Section CmpOrd.
Context {A} (cmp : A -> A -> comparison) `{!CmpOrd cmp}.

Lemma cmp_refl a : cmp a a = Eq.
Proof. pose proof (cmp_opp cmp a a) as H. destruct (cmp a a); done. Qed.

Lemma cmp_eq_r a b c : cmp a b = Eq -> cmp c a = cmp c b.
Proof. intros H. rewrite (cmp_opp cmp c a), (cmp_opp cmp c b). by rewrite (cmp_eq_l cmp a b c H). Qed.

Lemma cmp_gt_lt a b : cmp a b = Gt <-> cmp b a = Lt.
Proof. rewrite (cmp_opp cmp a b). destruct (cmp b a); done. Qed.

Lemma cmp_le_trans a b c : cmp_le cmp a b -> cmp_le cmp b c -> cmp_le cmp a c.
Proof.
    unfold cmp_le. intros H1 H2 H3.
    destruct (cmp a b) eqn:E1; [|clear H1|done].
    - apply H2. by rewrite <- (cmp_eq_l cmp a b c E1).
    - destruct (cmp b c) eqn:E2; [| |done].
      + rewrite <- (cmp_eq_r b c a E2) in H3. congruence.
      + rewrite (cmp_lt_trans cmp a b c E1 E2) in H3. done.
Qed.

Lemma cmp_le_total a b : cmp_le cmp a b \/ cmp_le cmp b a.
Proof. unfold cmp_le. rewrite (cmp_opp cmp b a). destruct (cmp a b); [left|left|right]; done. Qed.

Lemma cmp_lt_le_trans a b c : cmp a b = Lt -> cmp_le cmp b c -> cmp a c = Lt.
Proof.
    unfold cmp_le. intros H1 H2. destruct (cmp b c) eqn:E; [| |done].
    - by rewrite <- (cmp_eq_r b c a E).
    - by apply (cmp_lt_trans cmp) with b.
Qed.

Lemma cmp_le_lt_trans a b c : cmp_le cmp a b -> cmp b c = Lt -> cmp a c = Lt.
Proof.
    unfold cmp_le. intros H1 H2. destruct (cmp a b) eqn:E; [| |done].
    - by rewrite (cmp_eq_l cmp a b c E).
    - by apply (cmp_lt_trans cmp) with b.
Qed.

Lemma cmp_lt_gt_false a b : cmp a b = Lt -> cmp_le cmp b a -> False.
Proof. unfold cmp_le. rewrite (cmp_opp cmp b a). by intros ->. Qed.

#[global] Instance cmp_rev_ord : CmpOrd (cmp_rev cmp).
Proof.
    split; unfold cmp_rev.
    - intros a b. apply (cmp_opp cmp).
    - intros a b c H1 H2. by apply (cmp_lt_trans cmp) with b.
    - intros a b c H. symmetry. by apply cmp_eq_r.
Qed.
End CmpOrd.

#[export] Instance cmp_true_ord {A} : CmpOrd (@cmp_true A).
Proof. split; done. Qed.

#[export] Instance cmp_on_ord {A B} (f : A -> B) cmp `{!CmpOrd cmp} : CmpOrd (cmp_on f cmp).
Proof.
  split; unfold cmp_on; intros.
  - apply (cmp_opp cmp).
  - by eapply (cmp_lt_trans cmp).
  - by apply (cmp_eq_l cmp).
Qed.

#[export] Instance cmp_lex_ord {A} (c1 c2 : A -> A -> comparison)
  `{!CmpOrd c1, !CmpOrd c2} : CmpOrd (cmp_lex c1 c2).
Proof.
  split; unfold cmp_lex.
  - intros a b. rewrite (cmp_opp c1 a b), (cmp_opp c2 a b). by destruct (c1 b a).
  - intros a b c H1 H2.
    destruct (c1 a b) eqn:E1; [| |done].
    + rewrite (cmp_eq_l c1 a b c E1). destruct (c1 b c) eqn:E2; [|done|done].
      by apply (cmp_lt_trans c2) with b.
    + destruct (c1 b c) eqn:E2; [| |done].
      * by rewrite <- (cmp_eq_r c1 b c a E2), E1.
      * by rewrite (cmp_lt_trans c1 a b c E1 E2).
  - intros a b c H. destruct (c1 a b) eqn:E1; [|done|done].
    rewrite (cmp_eq_l c1 a b c E1). by rewrite (cmp_eq_l c2 a b c H).
Qed.

#[export] Instance Z_compare_ord : CmpOrd Z.compare.
Proof.
  split.
  - intros a b. by rewrite Z.compare_antisym.
  - intros a b c. rewrite !Z.compare_lt_iff. lia.
  - intros a b c H. by apply Z.compare_eq in H as ->.
Qed.

#[export] Instance N_compare_ord : CmpOrd N.compare.
Proof.
  split.
  - intros a b. by rewrite N.compare_antisym.
  - intros a b c. rewrite !N.compare_lt_iff. lia.
  - intros a b c H. by apply N.compare_eq in H as ->.
Qed.

(** [std::string]'s [operator<] and SQLite's BINARY collation both compare bytes
    as unsigned characters, a proper prefix first: [String.compare]. *)
#[export] Instance string_compare_ord : CmpOrd String.compare.
Proof.
  assert (Heq : forall a b, String.compare a b = Eq -> a = b) by apply String.compare_eq_iff.
  split.
  - apply String.compare_antisym.
  - intros a b c H1 H2.
    assert (Hab : String.leb a b = true) by (unfold String.leb; by rewrite H1).
    assert (Hbc : String.leb b c = true) by (unfold String.leb; by rewrite H2).
    assert (Hac : String.leb a c = true).
    { apply Is_true_true. transitivity b; by apply Is_true_true. }
    unfold String.leb in Hac. destruct (String.compare a c) eqn:E; [|done|done].
    apply Heq in E as <-. rewrite String.compare_antisym, H1 in H2. done.
  - intros a b c H. by apply Heq in H as <-.
Qed.

Lemma string_compare_eq a b : String.compare a b = Eq <-> a = b.
Proof.
  split; [apply String.compare_eq_iff|]. intros ->. apply (cmp_refl String.compare).
Qed.

Definition str_ltb (a b : string) : bool := cmp_ltb String.compare a b.

(** ** Sorting and searching

    [std::sort(first, last, lt)]. The order among equivalent elements is
    unspecified in C++; every list the program sorts this way holds distinct
    cards, which its comparator never considers equivalent. *)
Fixpoint insert_by {A} (lt : A -> A -> bool) (x : A) (l : list A) : list A :=
  match l with
  | [] => [x]
  | y :: ys => if lt y x then y :: insert_by lt x ys else x :: l
  end.

Fixpoint sort_by {A} (lt : A -> A -> bool) (l : list A) : list A :=
  match l with
  | [] => []
  | x :: xs => insert_by lt x (sort_by lt xs)
  end.

(** [std::lower_bound(first, last, x, lt) - first]. *)
Fixpoint lower_bound {A} (lt : A -> A -> bool) (x : A) (l : list A) : nat :=
  match l with
  | [] => 0
  | y :: ys => if lt y x then S (lower_bound lt x ys) else 0
  end.

(** [std::find_if(first, last, p) - first], or [None] for [last]. *)
Fixpoint find_index {A} (p : A -> bool) (l : list A) : option nat :=
  match l with
  | [] => None
  | x :: xs => if p x then Some 0%nat else S <$> find_index p xs
  end.

Definition list_filter {A} (p : A -> bool) (l : list A) : list A := List.filter p l.

Lemma insert_by_perm {A} (lt : A -> A -> bool) x l : insert_by lt x l ≡ₚ x :: l.
Proof.
  induction l as [|y ys IH]; simpl; [done|]. destruct (lt y x); [|done].
  rewrite IH. constructor.
Qed.

Lemma sort_by_perm {A} (lt : A -> A -> bool) l : sort_by lt l ≡ₚ l.
Proof. induction l as [|x xs IH]; simpl; [done|]. by rewrite insert_by_perm, IH. Qed.

Lemma insert_by_ext {A} (lt lt' : A -> A -> bool) x l :
  (forall y, y ∈ l -> lt y x = lt' y x) -> insert_by lt x l = insert_by lt' x l.
Proof.
  induction l as [|y ys IH]; simpl; intros H; [done|].
  rewrite (H y), IH; [done| |]; intros; [apply H|]; set_solver.
Qed.

Lemma sort_by_ext {A} (lt lt' : A -> A -> bool) l :
  (forall x y, x ∈ l -> y ∈ l -> lt x y = lt' x y) -> sort_by lt l = sort_by lt' l.
Proof.
  induction l as [|x xs IH]; simpl; intros H; [done|].
  rewrite IH by set_solver. apply insert_by_ext. intros y Hy. apply H; [|set_solver].
  rewrite sort_by_perm in Hy. set_solver.
Qed.

Lemma lower_bound_le {A} (lt : A -> A -> bool) x l : (lower_bound lt x l <= length l)%nat.
Proof. induction l as [|y ys IH]; simpl; [done|]. destruct (lt y x); lia. Qed.

Lemma find_index_Some {A} (p : A -> bool) l i :
  find_index p l = Some i -> exists x, l !! i = Some x /\ p x = true.
Proof.
  revert i. induction l as [|x xs IH]; simpl; intros i H; [done|].
  destruct (p x) eqn:Hp.
  - injection H as <-. by exists x.
  - apply fmap_Some in H as (j & Hj & ->). by apply IH.
Qed.

Lemma find_index_None {A} (p : A -> bool) l :
  find_index p l = None <-> forall x, x ∈ l -> p x = false.
Proof.
  induction l as [|x xs IH]; simpl; [set_solver|].
  destruct (p x) eqn:Hp.
  - split; [done|]. intros H. specialize (H x). rewrite Hp in H. set_solver.
  - rewrite fmap_None, IH. set_solver.
Qed.

Lemma elem_of_list_filter {A} (p : A -> bool) x (l : list A) :
  x ∈ list_filter p l <-> x ∈ l /\ p x = true.
Proof. unfold list_filter. by rewrite !list_elem_of_In, filter_In. Qed.

Lemma list_filter_perm {A} (p : A -> bool) (l1 l2 : list A) :
  l1 ≡ₚ l2 -> list_filter p l1 ≡ₚ list_filter p l2.
Proof.
  unfold list_filter. induction 1; simpl; repeat case_match; try done.
  - by constructor.
  - constructor.
  - etrans; eauto.
Qed.

#[export] Instance list_filter_proper {A} (p : A -> bool) :
  Proper (Permutation ==> Permutation) (list_filter p).
Proof. intros l1 l2. apply list_filter_perm. Qed.

Lemma elem_of_map_id {A B} (f : A -> B) l y : y ∈ map f l <-> exists x, x ∈ l /\ y = f x.
Proof.
  rewrite list_elem_of_In, in_map_iff.
  split; intros (x & H1 & H2); exists x; rewrite ?list_elem_of_In in *; by rewrite ?list_elem_of_In.
Qed.

Lemma NoDup_map_inj {A B} (f : A -> B) l x y :
  NoDup (map f l) -> x ∈ l -> y ∈ l -> f x = f y -> x = y.
Proof.
  intros Hn. induction l as [|z l IH]; [set_solver|]. simpl in Hn.
  apply NoDup_cons in Hn as [Hz Hn]. rewrite elem_of_map_id in Hz.
  intros [->|Hx]%elem_of_cons [->|Hy]%elem_of_cons Hf; [done| | |auto].
  - destruct Hz. by exists y.
  - destruct Hz. by exists x.
Qed.

Lemma NoDup_map_filter {A B} (f : A -> B) (p : A -> bool) l :
  NoDup (map f l) -> NoDup (map f (list_filter p l)).
Proof.
  unfold list_filter. induction l as [|x l IH]; simpl; [done|]. intros [Hx Hn]%NoDup_cons.
  destruct (p x); simpl; [|auto]. apply NoDup_cons. split; [|auto].
  intros Hin. apply Hx. rewrite elem_of_map_id in *. destruct Hin as (y & Hy & ->).
  exists y. split; [|done]. by apply (elem_of_list_filter p y l) in Hy as [? _].
Qed.

Lemma list_filter_ext_in {A} (p q : A -> bool) (l : list A) :
  (forall x, x ∈ l -> p x = q x) -> list_filter p l = list_filter q l.
Proof. intros H. apply List.filter_ext_in. intros x Hx. by apply H, list_elem_of_In. Qed.

Lemma list_filter_all {A} (p : A -> bool) (l : list A) :
  (forall x, x ∈ l -> p x = true) -> list_filter p l = l.
Proof.
  unfold list_filter. induction l as [|x xs IH]; simpl; intros H; [done|].
  rewrite (H x), IH; set_solver.
Qed.

Section SortBy.
Context {A} (cmp : A -> A -> comparison) `{!CmpOrd cmp}.

Lemma insert_by_sorted x l :
    StronglySorted (cmp_le cmp) l -> StronglySorted (cmp_le cmp) (insert_by (cmp_ltb cmp) x l).
Proof.
    induction 1 as [|y ys Hs IH Hall]; simpl; [repeat constructor|].
    unfold cmp_ltb at 1. destruct (cmp y x) eqn:E.
    1,3: assert (cmp_le cmp x y) as Hxy by (unfold cmp_le; rewrite (cmp_opp cmp x y), E; done);
         constructor; [by constructor|]; constructor; [done|];
         eapply Forall_impl; [exact Hall|]; intros z; by apply cmp_le_trans.
    constructor; [done|]. rewrite insert_by_perm. constructor; [|done].
    unfold cmp_le. by rewrite E.
Qed.

Lemma sort_by_sorted l : StronglySorted (cmp_le cmp) (sort_by (cmp_ltb cmp) l).
Proof. induction l as [|x xs IH]; simpl; [constructor|]. by apply insert_by_sorted. Qed.

  (** Everything before the lower bound is smaller, everything from it on is not. *)
Lemma lower_bound_before x l i y :
    StronglySorted (cmp_le cmp) l -> l !! i = Some y ->
    (i < lower_bound (cmp_ltb cmp) x l)%nat <-> cmp y x = Lt.
Proof.
    intros Hs. revert i. induction Hs as [|z zs Hs IH Hall]; intros i Hi; [done|].
    simpl. unfold cmp_ltb at 1. destruct i as [|i]; simpl in Hi.
    - injection Hi as ->. destruct (cmp y x); split; intros; try done; lia.
    - destruct (cmp z x) eqn:E.
      2: rewrite <- Nat.succ_lt_mono; by apply IH.
      all: split; [lia|]; intros Hy; exfalso; rewrite Forall_forall in Hall;
        assert (cmp_le cmp z y) by (apply Hall, list_elem_of_lookup; eauto);
        pose proof (cmp_le_lt_trans cmp z y x); naive_solver congruence.
Qed.
End SortBy.

Lemma StronglySorted_weaken {A} (R R' : relation A) (l : list A) :
  (forall x y, R x y -> R' x y) -> StronglySorted R l -> StronglySorted R' l.
Proof.
  intros H. induction 1 as [|x l Hs IH Hall]; constructor; [done|].
  eapply Forall_impl; [exact Hall|auto].
Qed.

(** Two sorted permutations of one list agree, when equivalent elements are equal. *)
Lemma StronglySorted_perm_eq {A} (cmp : A -> A -> comparison) `{!CmpOrd cmp} (l1 l2 : list A) :
  (forall x y, x ∈ l1 -> y ∈ l1 -> cmp x y = Eq -> x = y) ->
  StronglySorted (cmp_le cmp) l1 -> StronglySorted (cmp_le cmp) l2 -> l1 ≡ₚ l2 -> l1 = l2.
Proof.
  intros Hinj H1. revert l2.
  induction H1 as [|x xs Hs1 IH Hall1]; intros l2 H2 Hp.
  { by apply Permutation_nil in Hp. }
  destruct H2 as [|y ys Hs2 Hall2].
  { symmetry in Hp. by apply Permutation_nil in Hp. }
  assert (x = y) as <-.
  { rewrite Forall_forall in Hall1, Hall2.
    assert (x ∈ y :: ys) as Hx by (rewrite <- Hp; set_solver).
    assert (y ∈ x :: xs) as Hy by (rewrite Hp; set_solver).
    apply elem_of_cons in Hx as [->|Hx]; [done|].
    apply elem_of_cons in Hy as [->|Hy]; [done|].
    apply Hinj; [set_solver|set_solver|].
    specialize (Hall1 y Hy). specialize (Hall2 x Hx). unfold cmp_le in *.
    rewrite (cmp_opp cmp y x) in Hall2. by destruct (cmp x y). }
  f_equal. apply IH; [|done|by apply Permutation_cons_inv in Hp].
  intros; apply Hinj; set_solver.
Qed.
