(* ===== verification/Double.v ===== *)
(** * IEEE 754 binary64

    A [double] of the program, with the arithmetic of the standard library's
    executable specification of binary64 ([SpecFloat] at precision 53, maximal
    exponent 1024: round to nearest, ties to even), which is what C++ computes on
    the supported targets. The comparison lemmas embed the numbers into
    lexicographically ordered triples of integers. *)

From stdpp Require Import base numbers.
From Stdlib Require Import SpecFloat.
From S2P Require Import Prelude.

Abbreviation double := spec_float.

#[export] Instance double_eq_dec : EqDecision double.
Proof. solve_decision. Defined.

Definition f64_add : double -> double -> double := SFadd 53 1024.
Definition f64_sub : double -> double -> double := SFsub 53 1024.
Definition f64_mul : double -> double -> double := SFmul 53 1024.
Definition f64_div : double -> double -> double := SFdiv 53 1024.
(** [static_cast<double>(n)] for an integer [n]. *)
Definition f64_of_Z (n : Z) : double := binary_normalize 53 1024 n 0 false.
Definition f64_of_nat (n : nat) : double := f64_of_Z (Z.of_nat n).
Definition f64_zero : double := S754_zero false.

(** The built-in [<], [<=], [==], which are false on a NaN, and [std::isfinite]. *)
Definition f64_ltb : double -> double -> bool := SFltb.
Definition f64_leb : double -> double -> bool := SFleb.
Definition f64_eqb : double -> double -> bool := SFeqb.
Definition f64_is_nan (x : double) : bool := match x with S754_nan => true | _ => false end.
Definition f64_is_finite (x : double) : bool :=
  match x with S754_zero _ | S754_finite _ _ _ => true | _ => false end.

(** ** A total comparison

    SQLite compares REAL values numerically and NULL (which is what a NaN is
    stored as) before every number. *)
Definition f64_key (x : double) : Z * Z * Z :=
  match x with
  | S754_nan => (-3, 0, 0)
  | S754_infinity true => (-2, 0, 0)
  | S754_finite true m e => (-1, - e, - Zpos m)
  | S754_zero _ => (0, 0, 0)
  | S754_finite false m e => (1, e, Zpos m)
  | S754_infinity false => (2, 0, 0)
  end.

Definition cmp_key : Z * Z * Z -> Z * Z * Z -> comparison :=
  cmp_lex (cmp_on (fun p : Z * Z * Z => fst (fst p)) Z.compare)
    (cmp_lex (cmp_on (fun p : Z * Z * Z => snd (fst p)) Z.compare)
       (cmp_on (fun p : Z * Z * Z => snd p) Z.compare)).

Definition f64_compare : double -> double -> comparison := cmp_on f64_key cmp_key.

#[export] Instance f64_compare_ord : CmpOrd f64_compare.
Proof. unfold f64_compare, cmp_key. apply _. Qed.

Lemma f64_compare_SFcompare x y :
  f64_is_nan x = false -> f64_is_nan y = false -> SFcompare x y = Some (f64_compare x y).
Proof.
  destruct x as [[]|[]| |[] mx ex], y as [[]|[]| |[] my ey]; simpl; intros Hx Hy; try done;
    unfold f64_compare, cmp_on, cmp_key, cmp_lex, cmp_on; simpl; f_equal.
  rewrite Z.compare_opp, (Z.compare_antisym ex ey).
  change (Pos.compare_cont Eq) with Pos.compare.
  by destruct (ex ?= ey); simpl; rewrite ?(Pos.compare_antisym mx my).
Qed.

Lemma f64_ltb_spec x y :
  f64_is_nan x = false -> f64_is_nan y = false -> f64_ltb x y = cmp_ltb f64_compare x y.
Proof.
  intros Hx Hy. unfold f64_ltb, SFltb, cmp_ltb. by rewrite f64_compare_SFcompare.
Qed.

Lemma f64_ltb_nan x y : f64_ltb x y = true -> f64_is_nan x = false /\ f64_is_nan y = false.
Proof. by destruct x as [[]|[]| |[] ? ?], y as [[]|[]| |[] ? ?]. Qed.

Lemma f64_ltb_lt x y : f64_ltb x y = true -> f64_compare x y = Lt.
Proof.
  intros H. destruct (f64_ltb_nan x y H). rewrite f64_ltb_spec in H by done.
  unfold cmp_ltb in H. by destruct (f64_compare x y).
Qed.

Lemma f64_lt_ltb x y :
  f64_is_nan x = false -> f64_compare x y = Lt -> f64_ltb x y = true.
Proof.
  intros Hx H. rewrite f64_ltb_spec; [unfold cmp_ltb; by rewrite H|done|].
  destruct y; try done.
  destruct x as [[]|[]| |[] ? ?]; first [discriminate Hx|vm_compute in H; discriminate H].
Qed.

Lemma f64_leb_false x y :
  f64_is_nan x = false -> f64_is_nan y = false -> f64_leb x y = false -> f64_compare y x = Lt.
Proof.
  intros Hx Hy. unfold f64_leb, SFleb. rewrite f64_compare_SFcompare by done.
  rewrite (cmp_opp f64_compare y x). by destruct (f64_compare x y).
Qed.

Lemma f64_eqb_spec x y :
  f64_is_nan x = false -> f64_is_nan y = false ->
  f64_eqb x y = match f64_compare x y with Eq => true | _ => false end.
Proof. intros Hx Hy. unfold f64_eqb, SFeqb. by rewrite f64_compare_SFcompare. Qed.

Lemma f64_ltb_trans x y z : f64_ltb x y = true -> f64_ltb y z = true -> f64_ltb x z = true.
Proof.
  intros H1 H2. apply f64_lt_ltb; [by destruct (f64_ltb_nan x y H1)|].
  apply (cmp_lt_trans f64_compare) with y; by apply f64_ltb_lt.
Qed.

Lemma f64_is_finite_not_nan x : f64_is_finite x = true -> f64_is_nan x = false.
Proof. by destruct x. Qed.
