(* ===== verification/Model.v ===== *)
(** * The data model

    The structs of [src/src/model/], field by field. Timestamps are [long long],
    kept as integers; the sort key is a [double]. *)

From stdpp Require Import base strings numbers.
From S2P Require Import Prelude Double.

Inductive CardScope := Live | Trashed | Either.

Record Card := mkCard {
  card_id : string;
  card_project_id : string;
  title : string;
  rel_path : string;
  parent_card_id : option string;
  sort_key : double;
  created_at : Z;
  updated_at : Z;
  deleted_at : option Z
}.

#[export] Instance Card_eq_dec : EqDecision Card.
Proof. solve_decision. Defined.

(** Assignments to one field of a [Card]. *)
Definition set_card_parent (p : option string) (c : Card) : Card :=
  mkCard (card_id c) (card_project_id c) (title c) (rel_path c) p (sort_key c)
    (created_at c) (updated_at c) (deleted_at c).
Definition set_card_sort_key (k : double) (c : Card) : Card :=
  mkCard (card_id c) (card_project_id c) (title c) (rel_path c) (parent_card_id c) k
    (created_at c) (updated_at c) (deleted_at c).
Definition set_card_updated_at (t : Z) (c : Card) : Card :=
  mkCard (card_id c) (card_project_id c) (title c) (rel_path c) (parent_card_id c) (sort_key c)
    (created_at c) t (deleted_at c).
Definition set_card_deleted_at (d : option Z) (c : Card) : Card :=
  mkCard (card_id c) (card_project_id c) (title c) (rel_path c) (parent_card_id c) (sort_key c)
    (created_at c) (updated_at c) d.
Definition set_card_title (s : string) (c : Card) : Card :=
  mkCard (card_id c) (card_project_id c) s (rel_path c) (parent_card_id c) (sort_key c)
    (created_at c) (updated_at c) (deleted_at c).
Definition set_card_rel_path (s : string) (c : Card) : Card :=
  mkCard (card_id c) (card_project_id c) (title c) s (parent_card_id c) (sort_key c)
    (created_at c) (updated_at c) (deleted_at c).

(** [card.deleted_at.has_value()]. *)
Definition card_deleted (c : Card) : bool :=
  match deleted_at c with Some _ => true | None => false end.

Record CardLink := mkCardLink {
  link_project_id : string;
  from_card_id : string;
  to_card_id : string;
  to_type : string;
  link_kind : string;
  link_label : option string;
  link_created_at : Z
}.

#[export] Instance CardLink_eq_dec : EqDecision CardLink.
Proof. solve_decision. Defined.

Record Milestone := mkMilestone {
  milestone_id : string;
  ms_project_id : string;
  ms_card_id : string;
  start_at : Z;
  end_at : option Z;
  all_day : bool;
  ms_kind : option string;
  ms_description : option string;
  ms_created_at : Z;
  ms_updated_at : Z
}.

#[export] Instance Milestone_eq_dec : EqDecision Milestone.
Proof. solve_decision. Defined.

Inductive IdScheme := Uuid4 | Uuid7.

Definition id_scheme_to_string (scheme : IdScheme) : string :=
  match scheme with Uuid4 => "uuid4" | Uuid7 => "uuid7" end.

Definition id_scheme_from_string (value : string) : option IdScheme :=
  if String.eqb value "uuid4" then Some Uuid4
  else if String.eqb value "uuid7" then Some Uuid7
  else None.

Record Project := mkProject {
  project_id : string;
  project_name : string;
  root_path : string;
  git_remote_url : option string;
  git_provider : option string;
  privacy_mode : string;
  project_key_id : option string;
  id_scheme : IdScheme;
  project_created_at : Z;
  project_updated_at : Z
}.

#[export] Instance IdScheme_eq_dec : EqDecision IdScheme.
Proof. solve_decision. Defined.
#[export] Instance Project_eq_dec : EqDecision Project.
Proof. solve_decision. Defined.

Record ProjectSyncState := mkSyncState {
  sync_project_id : string;
  last_commit_at : option Z;
  last_push_at : option Z;
  last_pull_at : option Z;
  uncommitted_changes_count : Z;
  unpushed_commits_count : Z;
  last_push_status : option string;
  last_pull_status : option string;
  last_sync_error : option string;
  last_sync_error_at : option Z;
  retry_count : Z;
  next_retry_at : option Z;
  pull_retry_count : Z;
  next_pull_retry_at : option Z;
  sync_updated_at : Z
}.

(** [ProjectSyncState{}] *)
Definition default_sync_state : ProjectSyncState :=
  mkSyncState "" None None None 0 0 None None None None 0 None 0 None 0.

(** A row of the [card_tags] table of [schema.sql]; the program has no struct for it. *)
Record CardTag := mkCardTag {
  tag_project_id : string;
  tag_card_id : string;
  tag_name : string;
  tag_created_at : Z
}.

#[export] Instance CardTag_eq_dec : EqDecision CardTag.
Proof. solve_decision. Defined.

(** ** Resources: files attached to cards, and where their bytes are stored *)

(** [std::map<std::string, X>]: its pairs in key order. *)
Definition ResourceMetadata : Type := list (string * list string).

Record Placement := mkPlacement {
  placement_id : string;
  pl_asset_id : string;
  pl_location_id : string;
  object_key : string;
  pl_encoding : string;
  stored_byte_size : Z;
  stored_sha256 : string;
  pl_created_at : Z
}.

Record Asset := mkAsset {
  asset_id : string;
  as_resource_id : string;
  original_filename : string;
  media_type : string;
  byte_size : Z;
  plaintext_sha256 : string;
  as_created_at : Z;
  as_updated_at : Z;
  as_placements : list Placement
}.

Record Resource := mkResource {
  resource_id : string;
  re_project_id : string;
  re_type : string;
  re_label : string;
  re_metadata : ResourceMetadata;
  re_created_at : Z;
  re_updated_at : Z
}.

Record ResourceBundle := mkBundle { bu_resource : Resource; bu_assets : list Asset }.

Record Location := mkLocation {
  location_id : string;
  lo_project_id : string;
  lo_name : string;
  lo_provider : string;
  lo_configuration : list (string * string);
  lo_created_at : Z;
  lo_updated_at : Z
}.

#[export] Instance Placement_eq_dec : EqDecision Placement.
Proof. solve_decision. Defined.
#[export] Instance Asset_eq_dec : EqDecision Asset.
Proof. solve_decision. Defined.
#[export] Instance Resource_eq_dec : EqDecision Resource.
Proof. solve_decision. Defined.
#[export] Instance ResourceBundle_eq_dec : EqDecision ResourceBundle.
Proof. solve_decision. Defined.
#[export] Instance Location_eq_dec : EqDecision Location.
Proof. solve_decision. Defined.
