(* ===== verification/Text.v ===== *)
(** * Bytes and character classes

    Text that the program takes apart byte by byte (card bodies, tags, names) is
    a list of [ascii]; identifiers and columns of the database are [string].
    The character classes are those of [<cctype>] in the C locale. *)

From stdpp Require Import base list strings numbers.
From Stdlib Require Import Ascii.
From S2P Require Import Prelude.

Abbreviation bytes := (list ascii).

Definition bytes_of (s : string) : bytes := String.list_ascii_of_string s.
Definition string_of (b : bytes) : string   := String.string_of_list_ascii b.

Definition code (c : ascii) : N := N_of_ascii c.
Definition in_range (lo hi : ascii) (c : ascii) : bool :=
  N.leb (code lo) (code c) && N.leb (code c) (code hi).

Definition is_upper : ascii -> bool := in_range "A" "Z".
Definition is_lower : ascii -> bool := in_range "a" "z".
Definition is_digit : ascii -> bool := in_range "0" "9".
Definition is_alpha (c : ascii) : bool := is_upper c || is_lower c.
Definition is_alnum (c : ascii) : bool := is_alpha c || is_digit c.
(** [std::isspace]: space, and [\t \n \v \f \r], the codes 9 to 13. *)
Definition is_space (c : ascii) : bool :=
  Ascii.eqb c " " || (N.leb 9 (code c) && N.leb (code c) 13).
Definition tolower (c : ascii) : ascii :=
  if is_upper c then ascii_of_N (code c + 32) else c.
Definition is_ascii (c : ascii) : bool := N.ltb (code c) 128.

Definition newline : ascii := "010".
Definition tab : ascii := "009".
Definition carriage_return : ascii := "013".

(** What a C string function sees of a [std::string]: the bytes before the first
    NUL. *)
Fixpoint c_str (s : string) : string :=
  match s with
  | String.EmptyString => String.EmptyString
  | String.String c s' =>
      if Ascii.eqb c "000" then String.EmptyString else String.String c (c_str s')
  end.

Fixpoint take_while {A} (p : A -> bool) (l : list A) : list A :=
  match l with
  | [] => []
  | x :: xs => if p x then x :: take_while p xs else []
  end.

Fixpoint drop_while {A} (p : A -> bool) (l : list A) : list A :=
  match l with
  | [] => []
  | x :: xs => if p x then drop_while p xs else l
  end.

Lemma bytes_of_string_of b : bytes_of (string_of b) = b.
Proof. apply String.list_ascii_of_string_of_list_ascii. Qed.

Lemma string_of_bytes_of s : string_of (bytes_of s) = s.
Proof. apply String.string_of_list_ascii_of_string. Qed.

Lemma c_str_idemp s : c_str (c_str s) = c_str s.
Proof.
  induction s as [|c s IH]; simpl; [done|].
  destruct (Ascii.eqb c "000") eqn:E; simpl; [done|]. by rewrite E, IH.
Qed.

Lemma append_cons c s t : String.String c s +:+ t = String.String c (s +:+ t).
Proof. done. Qed.
Lemma append_nil_r s : s +:+ "" = s.
Proof. induction s as [|c s IH]; [done|]. by rewrite append_cons, IH. Qed.
Lemma append_assoc s t u : s +:+ (t +:+ u) = (s +:+ t) +:+ u.
Proof. induction s as [|c s IH]; [done|]. by rewrite !append_cons, IH. Qed.

Lemma prefix_append s t : String.prefix s (s +:+ t) = true.
Proof.
  induction s as [|c s IH]; [by destruct t|]. rewrite append_cons. cbn [String.prefix].
  by destruct (Ascii.ascii_dec c c).
Qed.
Lemma bytes_of_append s t : bytes_of (s +:+ t) = bytes_of s ++ bytes_of t.
Proof. induction s as [|c s IH]; [done|]. rewrite append_cons. unfold bytes_of in *. cbn. by rewrite IH. Qed.
Lemma append_cancel_r s s' t : s +:+ t = s' +:+ t -> s = s'.
Proof.
  intros H. apply (f_equal bytes_of) in H. rewrite !bytes_of_append in H. apply app_inv_tail in H.
  rewrite <- (string_of_bytes_of s), <- (string_of_bytes_of s'). by f_equal.
Qed.

(** A property of one byte, checked at each of the 256. *)
Lemma ascii_forall (p : ascii -> bool) :
  forallb p (map ascii_of_nat (seq 0 256)) = true -> forall c, p c = true.
Proof.
  rewrite forallb_forall. intros H c. apply H.
  rewrite <- (ascii_nat_embedding c). apply in_map, in_seq.
  pose proof (nat_ascii_bounded c). lia.
Qed.

Ltac by_bytes := apply ascii_forall; vm_compute; reflexivity.

Lemma tolower_alpha c : is_alpha (tolower c) = is_alpha c.
Proof. apply eqb_true_iff. revert c. by_bytes. Qed.
Lemma tolower_alnum c : is_alnum (tolower c) = is_alnum c.
Proof. apply eqb_true_iff. revert c. by_bytes. Qed.
Lemma tolower_idemp c : tolower (tolower c) = tolower c.
Proof. apply Ascii.eqb_eq. revert c. by_bytes. Qed.
Lemma tolower_not_upper c : is_upper (tolower c) = false.
Proof. apply negb_true_iff. revert c. by_bytes. Qed.

Lemma take_while_app {A} (p : A -> bool) l : take_while p l ++ drop_while p l = l.
Proof. induction l as [|x xs IH]; simpl; [done|]. destruct (p x); simpl; congruence. Qed.

Lemma take_while_all {A} (p : A -> bool) l : forallb p (take_while p l) = true.
Proof.
  induction l as [|x xs IH]; simpl; [done|]. destruct (p x) eqn:E; simpl; [|done].
  by rewrite E.
Qed.

Lemma take_while_id {A} (p : A -> bool) l : forallb p l = true -> take_while p l = l.
Proof.
  induction l as [|x xs IH]; simpl; [done|]. rewrite andb_true_iff. intros [-> H].
  by rewrite IH.
Qed.

Lemma forallb_map {A B} (f : A -> B) (p : B -> bool) l :
  forallb p (map f l) = forallb (fun x => p (f x)) l.
Proof. induction l; simpl; congruence. Qed.

Lemma forallb_ext {A} (p q : A -> bool) l :
  (forall x, p x = q x) -> forallb p l = forallb q l.
Proof. intros H. induction l; simpl; congruence. Qed.
