(* ===== verification/Tags.v ===== *)
(** * Tags in Markdown bodies

    [src/src/card/TagExtractor.cpp]: the tag syntax, the scan of one run of text
    for tags, and the callbacks that gather the tags of a whole body. The
    Markdown parser is md4c, a third-party library: it is the parameter
    [md_parse], the list of callbacks it makes for a body. *)

From stdpp Require Import base list gmap strings numbers.
From Stdlib Require Import Ascii.
From S2P Require Import Prelude Text.

Module TagExtractor.

Definition is_hex_digit (c : ascii) : bool :=
  in_range "0" "9" c || in_range "a" "f" c || in_range "A" "F" c.

Definition looks_like_hex_color (candidate : bytes) : bool :=
  let len := length candidate in
  if negb (Nat.eqb len 3) && negb (Nat.eqb len 4) && negb (Nat.eqb len 6) && negb (Nat.eqb len 8)
  then false
  else forallb is_hex_digit candidate.

Definition to_lower (value : bytes) : bytes := map tolower value.

(** The pattern [tag_pattern]: group 1 is the start of the text or one byte that is
    white space or one of the punctuation marks below; then a hash sign; group 2 is
    a letter and the longest run of letters, digits, underscores, slashes and
    hyphens. *)
Definition is_tag_prefix (c : ascii) : bool :=
  is_space c || existsb (Ascii.eqb c) (bytes_of "([{>,.;:!?").
Definition is_tag_char (c : ascii) : bool :=
  is_alnum c || Ascii.eqb c "_" || Ascii.eqb c "/" || Ascii.eqb c "-".

(** Group 2 of the pattern, when it matches at the head of [s]. *)
Definition match_hash (s : bytes) : option bytes :=
  match s with
  | h :: a :: rest =>
      if Ascii.eqb h "#" && is_alpha a then Some (a :: take_while is_tag_char rest) else None
  | _ => None
  end.

(** The pattern at position [pos] of the text: the length of group 1, and group 2. *)
Definition match_at (pos : nat) (s : bytes) : option (nat * bytes) :=
  match (if Nat.eqb pos 0 then match_hash s else None) with
  | Some candidate => Some (0%nat, candidate)
  | None =>
      match s with
      | c :: s' => if is_tag_prefix c then (fun m => (1%nat, m)) <$> match_hash s' else None
      | [] => None
      end
  end.

(** [std::sregex_iterator] over the text: the successive leftmost matches, each
    search starting where the last match ended ([skip] bytes further on), as the
    position and the text of group 2. *)
Fixpoint tag_matches (skip pos : nat) (s : bytes) : list (nat * bytes) :=
  match s with
  | [] => []
  | c :: s' =>
      match skip with
      | S k => tag_matches k (S pos) s'
      | O =>
          match match_at pos s with
          | Some (k, candidate) =>
              (pos + k + 1, candidate)%nat :: tag_matches (k + length candidate) (S pos) s'
          | None => tag_matches 0 (S pos) s'
          end
      end
  end.

Record TagOccurrence := mkOccurrence {
  occ_tag : bytes;
  occ_start : nat;
  occ_end : nat
}.

Record ExtractorState := mkExtractor {
  in_code : bool;
  tags : list bytes;
  seen : gset bytes;
  occurrences : list TagOccurrence
}.

Definition initial_state : ExtractorState := mkExtractor false [] ∅ [].

Definition set_in_code (b : bool) (st : ExtractorState) : ExtractorState :=
  mkExtractor b (tags st) (seen st) (occurrences st).

Definition collect_match (source_offset : option nat) (st : ExtractorState) (m : nat * bytes)
    : ExtractorState :=
  let '(pos, candidate) := m in
  if looks_like_hex_color candidate then st
  else
    let tag := to_lower candidate in
    let occs :=
      match source_offset with
      | Some off =>
          occurrences st ++ [mkOccurrence tag (off + pos - 1) (off + pos + length candidate)]
      | None => occurrences st
      end in
    if bool_decide (tag ∈ seen st)
    then mkExtractor (in_code st) (tags st) (seen st) occs
    else mkExtractor (in_code st) (tags st ++ [tag]) ({[tag]} ∪ seen st) occs.

Definition collect_tags (text : bytes) (st : ExtractorState) (source_offset : option nat)
    : ExtractorState :=
  foldl (collect_match source_offset) st (tag_matches 0 0 text).

(** The callbacks of md4c. A block or span is code or not; a text run is a slice
    of memory whose address is given relative to the start of the body. *)
Inductive MdEvent :=
| EnterBlock (code : bool)
| LeaveBlock (code : bool)
| EnterSpan (code : bool)
| LeaveSpan (code : bool)
| MdText (address : Z) (text : bytes).

Definition on_enter (code : bool) (st : ExtractorState) : ExtractorState :=
  if code then set_in_code true st else st.
Definition on_leave (code : bool) (st : ExtractorState) : ExtractorState :=
  if code then set_in_code false st else st.
Definition on_text (body_size : nat) (address : Z) (text : bytes) (st : ExtractorState)
    : ExtractorState :=
  if in_code st then st
  else
    let source_offset :=
      if Z.leb 0 address && Z.leb (address + Z.of_nat (length text)) (Z.of_nat body_size)
      then Some (Z.to_nat address) else None in
    collect_tags text st source_offset.

Definition on_event (body_size : nat) (st : ExtractorState) (e : MdEvent) : ExtractorState :=
  match e with
  | EnterBlock code | EnterSpan code => on_enter code st
  | LeaveBlock code | LeaveSpan code => on_leave code st
  | MdText address text => on_text body_size address text st
  end.

Section Parser.
Context (md_parse : bytes -> list MdEvent).

Definition parse_tags (markdown_body : bytes) : ExtractorState :=
  foldl (on_event (length markdown_body)) initial_state (md_parse markdown_body).

Definition extract_tags (markdown_body : bytes) : list bytes := tags (parse_tags markdown_body).

Definition extract_tag_occurrences (markdown_body : bytes) : list TagOccurrence :=
  occurrences (parse_tags markdown_body).
End Parser.

Definition is_valid_tag (tag : bytes) : bool :=
  match tag with
  | [] => false
  | c :: _ =>
      is_alpha c
      && forallb (fun c => is_alnum c || Ascii.eqb c "_" || Ascii.eqb c "/" || Ascii.eqb c "-") tag
      && negb (looks_like_hex_color tag)
  end.

Definition normalize_tag (tag : bytes) : bytes := to_lower tag.

End TagExtractor.

Module TagFacts.
Import TagExtractor.

Lemma tag_prefix_not_char c : is_tag_prefix c = true -> is_tag_char c = false.
Proof. intros H. apply negb_true_iff. revert H. apply implb_true_iff. revert c. by_bytes. Qed.
Lemma tag_prefix_not_hash c : is_tag_prefix c = true -> c = "#"%char -> False.
Proof. by intros H ->. Qed.
Lemma alpha_tag_char c : is_alpha c = true -> is_tag_char c = true.
Proof. unfold is_tag_char, is_alnum. by intros ->. Qed.

Lemma match_hash_Some s c :
  match_hash s = Some c ->
  exists a rest, s = "#"%char :: a :: rest /\ is_alpha a = true /\ c = a :: take_while is_tag_char rest.
Proof.
  destruct s as [|h [|a rest]]; simpl; [done..|].
  destruct (Ascii.eqb h "#") eqn:E; simpl; [|done]. apply Ascii.eqb_eq in E as ->.
  destruct (is_alpha a) eqn:Ha; simpl; [|done]. intros [= <-]. by exists a, rest.
Qed.

(** The bytes of a match after its hash sign are all tag characters. *)
Lemma match_hash_chars s c i x :
  match_hash s = Some c -> (1 <= i <= length c)%nat -> s !! i = Some x -> is_tag_char x = true.
Proof.
  intros (a & rest & -> & Ha & ->)%match_hash_Some Hi Hx.
  destruct i as [|i]; [lia|]. simpl in *. destruct i as [|i]; simpl in Hx.
  - injection Hx as <-. by apply alpha_tag_char.
  - pose proof (take_while_app is_tag_char rest) as Happ.
    pose proof (take_while_all is_tag_char rest) as Hall. rewrite forallb_forall in Hall.
    apply Hall. rewrite <- Happ in Hx. rewrite lookup_app_l in Hx by lia.
    apply list_elem_of_In. by apply list_elem_of_lookup_2 in Hx.
Qed.

(** Where the pattern matches: the hash sign is at index [i] of [s]. *)
Definition tag_at (skip pos : nat) (s : bytes) (i : nat) (candidate : bytes) : Prop :=
  match_hash (drop i s) = Some candidate /\
  ((skip = 0 /\ pos = 0 /\ i = 0)%nat \/
   exists j p, i = S j /\ (skip <= j)%nat /\ s !! j = Some p /\ is_tag_prefix p = true).

Lemma tag_at_shift skip pos c s i cand :
  tag_at skip (S pos) s i cand <-> tag_at (S skip) pos (c :: s) (S i) cand.
Proof.
  unfold tag_at. simpl. split; intros [Hm H]; (split; [done|]); right.
  - destruct H as [(_ & [=] & _)|(j & p & -> & Hj & Hp & Hpre)].
    exists (S j), p. simpl. repeat split; [lia|done..].
  - destruct H as [([=] & _)|(j & p & [= ->] & Hj & Hp & Hpre)].
    destruct j as [|j]; [lia|]. exists j, p. simpl in *. repeat split; [lia|done..].
Qed.

(** Within a match there is no other place for the pattern to start. *)
Lemma tag_at_inside pos s i cand k c' :
  tag_at 0 pos s i cand -> tag_at 0 pos s k c' -> (k < i)%nat -> (S (k + length c') < i)%nat.
Proof.
  intros [Hi Hci] [Hk _] Hlt.
  destruct Hci as [(_ & _ & ->)|(j & p & -> & _ & Hp & Hpre)]; [lia|].
  destruct (decide (S (k + length c') < S j)%nat) as [|Hn]; [done|exfalso].
  destruct (decide (j = k)) as [->|].
  - apply match_hash_Some in Hk as (a & rest & Hd & _).
    rewrite <- (Nat.add_0_r k), <- lookup_drop, Hd in Hp. injection Hp as <-. done.
  - assert (is_tag_char p = true) as Hc.
    { apply (match_hash_chars _ _ (j - k) p Hk); [lia|].
      rewrite lookup_drop. by replace (k + (j - k))%nat with j by lia. }
    by rewrite (tag_prefix_not_char p Hpre) in Hc.
Qed.

Lemma match_at_Some pos s k cand :
  match_at pos s = Some (k, cand) -> tag_at 0 pos s k cand /\ (k <= 1)%nat.
Proof.
  unfold match_at, tag_at. destruct (Nat.eqb pos 0) eqn:Epos.
  - apply Nat.eqb_eq in Epos as ->. destruct (match_hash s) eqn:Em.
    { intros [= <- <-]. split; [|lia]. split; [done|]. by left. }
    destruct s as [|c s']; [done|]. destruct (is_tag_prefix c) eqn:Ec; [|done].
    intros (m & Hm & [= -> ->])%fmap_Some. split; [|lia]. split; [done|].
    right. exists 0%nat, c. by repeat split.
  - destruct s as [|c s']; [done|]. destruct (is_tag_prefix c) eqn:Ec; [|done].
    intros (m & Hm & [= -> ->])%fmap_Some. split; [|lia]. split; [done|].
    right. exists 0%nat, c. by repeat split.
Qed.

Lemma match_at_None pos s i cand :
  match_at pos s = None -> tag_at 0 pos s i cand -> (1 < i)%nat.
Proof.
  unfold match_at. intros H [Hm Hc].
  destruct Hc as [(_ & -> & ->)|(j & p & -> & _ & Hp & Hpre)].
  - rewrite drop_0 in Hm. simpl in H. by rewrite Hm in H.
  - destruct j as [|j]; [|lia]. destruct s as [|c s']; [done|].
    change (match_hash s' = Some cand) in Hm.
    simpl in Hp. injection Hp as ->. rewrite Hpre, Hm in H.
    by destruct (if Nat.eqb pos 0 then _ else _).
Qed.

Lemma tag_at_weaken skip skip' pos s i cand :
  (skip <= skip')%nat -> tag_at skip' pos s i cand -> tag_at skip pos s i cand.
Proof.
  intros Hle [Hm H]. split; [done|].
  destruct H as [(-> & -> & ->)|(j & p & -> & Hj & Hp)]; [left; lia|].
  right. exists j, p. repeat split; [lia|apply Hp..].
Qed.

Lemma tag_matches_spec skip pos s P cand :
  (P, cand) ∈ tag_matches skip pos s <->
  exists i, P = (pos + i + 1)%nat /\ tag_at skip pos s i cand.
Proof.
  revert skip pos. induction s as [|c s IH]; intros skip pos.
  { simpl. split; [set_solver|]. intros (i & _ & Hm & _). by rewrite drop_nil in Hm. }
  assert (Hshift : forall k, (P, cand) ∈ tag_matches k (S pos) s <->
    exists i, P = (pos + i + 1)%nat /\ tag_at (S k) pos (c :: s) i cand).
  { intros k. rewrite IH. split.
    - intros (i & -> & H). exists (S i). split; [lia|]. by apply tag_at_shift.
    - intros (i & -> & H). destruct i as [|i].
      + destruct H as [_ [([=] & _)|(? & ? & [=] & _)]].
      + exists i. split; [lia|]. by apply tag_at_shift in H. }
  simpl. destruct skip as [|k]; [|apply Hshift].
  destruct (match_at pos (c :: s)) as [[k cand']|] eqn:Em.
  - apply match_at_Some in Em as [Hk Hle]. rewrite elem_of_cons, Hshift. split.
    + intros [[= -> ->]|(i & -> & H)]; [by exists k|].
      exists i. split; [done|]. apply (tag_at_weaken 0 (S (k + length cand'))); [lia|done].
    + intros (i & -> & H). destruct (decide (i = k)) as [->|Hne].
      { left. destruct H as [H _], Hk as [Hk _]. rewrite H in Hk. by injection Hk as ->. }
      right. exists i. split; [done|].
      assert (k < i)%nat as Hlt.
      { destruct (decide (i < k)%nat); [|lia].
        pose proof (tag_at_inside pos (c :: s) k cand' i cand Hk H ltac:(lia)).
        destruct H as [(? & ? & _ & _ & ->)%match_hash_Some _]. simpl in *. lia. }
      pose proof (tag_at_inside pos (c :: s) i cand k cand' H Hk Hlt) as Hin.
      destruct H as [Hm H]. split; [done|].
      destruct H as [(_ & _ & ->)|(j & p & -> & _ & Hp)]; [lia|].
      right. exists j, p. repeat split; [lia|apply Hp..].
  - rewrite Hshift. split.
    + intros (i & -> & H). exists i. split; [done|]. by apply (tag_at_weaken 0 1); [lia|].
    + intros (i & -> & H). pose proof (match_at_None _ _ _ _ Em H).
      exists i. split; [done|]. destruct H as [Hm H]. split; [done|].
      destruct H as [(_ & _ & ->)|(j & p & -> & _ & Hp)]; [lia|].
      right. exists j, p. repeat split; [lia|apply Hp..].
Qed.

Lemma tag_matches_valid text P cand :
  (P, cand) ∈ tag_matches 0 0 text ->
  match cand with [] => False | a :: _ => is_alpha a = true end /\
  forallb is_tag_char cand = true.
Proof.
  intros (i & _ & (a & rest & _ & Ha & ->)%match_hash_Some & _)%tag_matches_spec.
  split; [done|]. simpl. by rewrite alpha_tag_char, take_while_all.
Qed.

Lemma hex_lower c : is_hex_digit (tolower c) = is_hex_digit c.
Proof. apply eqb_true_iff. revert c. by_bytes. Qed.
Lemma tag_char_lower c : is_tag_char (tolower c) = is_tag_char c.
Proof. apply eqb_true_iff. revert c. by_bytes. Qed.

Lemma looks_like_hex_color_lower t : looks_like_hex_color (to_lower t) = looks_like_hex_color t.
Proof.
  unfold looks_like_hex_color, to_lower. rewrite length_map, forallb_map.
  by rewrite (forallb_ext _ _ _ hex_lower).
Qed.

Lemma to_lower_idemp t : to_lower (to_lower t) = to_lower t.
Proof.
  unfold to_lower. rewrite map_map. apply map_ext. apply tolower_idemp.
Qed.

Lemma is_valid_tag_lower t : is_valid_tag (to_lower t) = is_valid_tag t.
Proof.
  destruct t as [|c t]; [done|].
  change (is_valid_tag (c :: t)) with
    (is_alpha c && forallb is_tag_char (c :: t) && negb (looks_like_hex_color (c :: t))).
  rewrite <- (looks_like_hex_color_lower (c :: t)), <- tolower_alpha.
  rewrite <- (forallb_ext _ _ (c :: t) tag_char_lower), <- forallb_map. done.
Qed.

(** What every state reached while a body is parsed satisfies. *)
Record extractor_wf (st : ExtractorState) : Prop := {
  wf_seen : forall t, t ∈ seen st <-> t ∈ tags st;
  wf_nodup : NoDup (tags st);
  wf_valid : forall t, t ∈ tags st -> is_valid_tag t = true /\ normalize_tag t = t
}.

Lemma collect_match_wf off st m text :
  m ∈ tag_matches 0 0 text -> extractor_wf st -> extractor_wf (collect_match off st m).
Proof.
  destruct m as [pos cand]. intros Hm [Hs Hn Hv]. simpl.
  destruct (looks_like_hex_color cand) eqn:Ehex; [done|].
  case_bool_decide as Hin; split; simpl; try done.
  - set_solver.
  - apply list.NoDup_app. rewrite Hs in Hin. repeat split; [done|set_solver|apply NoDup_singleton].
  - intros t [Ht| ->%list_elem_of_singleton]%elem_of_app; [by apply Hv|].
    unfold normalize_tag. rewrite to_lower_idemp, is_valid_tag_lower. split; [|done].
    apply tag_matches_valid in Hm as [Ha Hc]. destruct cand as [|a cand]; [done|].
    change (is_valid_tag (a :: cand)) with
      (is_alpha a && forallb is_tag_char (a :: cand) && negb (looks_like_hex_color (a :: cand))).
    by rewrite Ha, Hc, Ehex.
Qed.

Lemma foldl_inv {A B} (P : B -> Prop) (f : B -> A -> B) l b :
  (forall b a, a ∈ l -> P b -> P (f b a)) -> P b -> P (foldl f b l).
Proof.
  revert b. induction l as [|a l IH]; intros b H Hb; simpl; [done|].
  apply IH; [intros; apply H; set_solver|]. apply H; set_solver.
Qed.

Lemma collect_tags_wf text st off : extractor_wf st -> extractor_wf (collect_tags text st off).
Proof.
  intros H. apply (foldl_inv extractor_wf); [|done].
  intros b a Ha. by apply collect_match_wf with text.
Qed.

Lemma set_in_code_wf b st : extractor_wf st -> extractor_wf (set_in_code b st).
Proof. intros [??]. by split. Qed.

Lemma on_event_wf n st e : extractor_wf st -> extractor_wf (on_event n st e).
Proof.
  intros H. destruct e as [[]|[]|[]|[]|addr text]; simpl; auto using set_in_code_wf.
  unfold on_text. destruct (in_code st); auto using collect_tags_wf.
Qed.

Lemma parse_tags_wf md_parse body : extractor_wf (parse_tags md_parse body).
Proof.
  apply (foldl_inv extractor_wf); [intros; by apply on_event_wf|].
  split; simpl; [set_solver|constructor|set_solver].
Qed.

(** A text run whose address lies in the body is that slice of the body. *)
Definition md_slices (body : bytes) (events : list MdEvent) : Prop :=
  forall address text, MdText address text ∈ events ->
    (0 <= address)%Z -> (address + Z.of_nat (length text) <= Z.of_nat (length body))%Z ->
    text = take (length text) (drop (Z.to_nat address) body).

Definition occurrence_ok (body : bytes) (o : TagOccurrence) : Prop :=
  (occ_start o < occ_end o <= length body)%nat /\
  body !! occ_start o = Some "#"%char /\
  to_lower (take (occ_end o - S (occ_start o)) (drop (S (occ_start o)) body)) = occ_tag o.

Lemma match_hash_slice s c :
  match_hash s = Some c ->
  s !! 0%nat = Some "#"%char /\ take (length c) (drop 1 s) = c /\ (0 < length c < length s)%nat.
Proof.
  intros (a & rest & -> & _ & ->)%match_hash_Some. simpl.
  pose proof (take_while_app is_tag_char rest) as Happ.
  split; [done|]. split.
  - f_equal. rewrite <- Happ at 2. by rewrite take_app_length.
  - rewrite <- Happ at 3. rewrite length_app. simpl. lia.
Qed.

Lemma collect_match_occ body off text st m :
  m ∈ tag_matches 0 0 text -> (off + length text <= length body)%nat ->
  text = take (length text) (drop off body) ->
  Forall (occurrence_ok body) (occurrences st) ->
  Forall (occurrence_ok body) (occurrences (collect_match (Some off) st m)).
Proof.
  destruct m as [pos cand]. intros (i & -> & Hm & _)%tag_matches_spec Hlen Htext Hst.
  simpl. destruct (looks_like_hex_color cand); [done|].
  assert (occurrence_ok body (mkOccurrence (to_lower cand)
    (off + (0 + i + 1) - 1) (off + (0 + i + 1) + length cand))) as Hok.
  { apply match_hash_slice in Hm as (H0 & Hsl & Hl).
    rewrite length_drop in Hl. rewrite drop_drop in Hsl.
    rewrite lookup_drop, Nat.add_0_r in H0.
    unfold occurrence_ok. simpl.
    replace (off + S (0 + i) - 1)%nat with (off + i)%nat by lia.
    replace (off + (i + 1) - 1)%nat with (off + i)%nat by lia.
    split; [lia|]. split.
    - rewrite Htext, lookup_take in H0. rewrite decide_True in H0 by lia.
      by rewrite lookup_drop in H0.
    - f_equal. rewrite Htext in Hsl. rewrite <- Hsl at 2.
      replace (off + (i + 1) + length cand - S (off + i))%nat with (length cand) by lia.
      rewrite skipn_firstn_comm, firstn_firstn, drop_drop.
      f_equal; [lia|f_equal; lia]. }
  case_bool_decide; simpl; apply Forall_app; split; auto.
Qed.
End TagFacts.

Module TagTheorems.
Import TagExtractor TagFacts.

(** C32: the iterator over [tag_pattern] misses no tag and invents none: a tag is
    reported exactly where a hash sign that starts the text or follows white space
    or opening punctuation is followed by a letter, and it is then the longest run
    of tag characters, although each search starts only where the last match ended. *)
Theorem tag_scan_complete (text : bytes) (P : nat) (cand : bytes) :
  (P, cand) ∈ tag_matches 0 0 text <->
  exists i, P = S i /\ match_hash (drop i text) = Some cand /\
    (i = 0%nat \/ exists j c, i = S j /\ text !! j = Some c /\ is_tag_prefix c = true).
Proof.
  rewrite tag_matches_spec. unfold tag_at. split.
  - intros (i & -> & Hm & H). exists i. split; [lia|]. split; [done|].
    destruct H as [(_ & _ & ->)|(j & c & -> & _ & Hc)]; [by left|right; by exists j, c].
  - intros (i & -> & Hm & H). exists i. split; [lia|]. split; [done|].
    destruct H as [->|(j & c & -> & Hc)]; [by left|right].
    exists j, c. split; [done|]. split; [lia|done].
Qed.

(** whatever md4c reports, the tags of a body are pairwise distinct, each is a
    tag the repositories accept and each is already normalised. *)
Theorem extract_tags_valid (md_parse : bytes -> list MdEvent) (body : bytes) :
  NoDup (extract_tags md_parse body) /\
  forall t, t ∈ extract_tags md_parse body -> is_valid_tag t = true /\ normalize_tag t = t.
Proof. destruct (parse_tags_wf md_parse body) as [_ Hn Hv]. by split. Qed.

(** the recorded occurrences are positions in the body itself: the range lies
    inside the body, starts at a hash sign, and the bytes after it are the tag up to
    case, provided that each run of text md4c takes from the body is the slice of
    the body at its address. *)
Theorem extract_tag_occurrences_in_body (md_parse : bytes -> list MdEvent) (body : bytes) :
  md_slices body (md_parse body) ->
  Forall (occurrence_ok body) (extract_tag_occurrences md_parse body).
Proof.
  intros Hmd. unfold extract_tag_occurrences, parse_tags.
  apply (foldl_inv (fun st => Forall (occurrence_ok body) (occurrences st))); [|constructor].
  intros st e He Hst. destruct e as [[]|[]|[]|[]|addr text]; simpl; try done.
  unfold on_text. destruct (in_code st); [done|].
  destruct (Z.leb_spec 0 addr) as [H0|H0]; simpl.
  2:{ apply (foldl_inv (fun st => Forall (occurrence_ok body) (occurrences st))); [|done].
      intros st' [pos c] _ ?. simpl. by destruct (looks_like_hex_color c); [|case_bool_decide]. }
  destruct (Z.leb_spec (addr + Z.of_nat (length text)) (Z.of_nat (length body))) as [H1|H1].
  2:{ apply (foldl_inv (fun st => Forall (occurrence_ok body) (occurrences st))); [|done].
      intros st' [pos c] _ ?. simpl. by destruct (looks_like_hex_color c); [|case_bool_decide]. }
  apply (foldl_inv (fun st => Forall (occurrence_ok body) (occurrences st))); [|done].
  intros st' m Hm. apply (collect_match_occ body (Z.to_nat addr) text); [done|lia|].
  by apply Hmd.
Qed.

(** A parser that reports the body as one run of text, at its own address. *)
Definition whole_text (body : bytes) : list MdEvent := [MdText 0 body].

Example extract_tag_occurrences_in_body_witness :
  md_slices (bytes_of "See #Plan, #todo") (whole_text (bytes_of "See #Plan, #todo")) /\
  Forall (occurrence_ok (bytes_of "See #Plan, #todo"))
    (extract_tag_occurrences whole_text (bytes_of "See #Plan, #todo")) /\
  extract_tags whole_text (bytes_of "See #Plan, #todo") = [bytes_of "plan"; bytes_of "todo"].
Proof.
  assert (md_slices (bytes_of "See #Plan, #todo") (whole_text (bytes_of "See #Plan, #todo"))) as H.
  { intros a t Ht. apply list_elem_of_singleton in Ht. injection Ht as -> ->. done. }
  split; [exact H|]. split; [|vm_compute; reflexivity].
  exact (extract_tag_occurrences_in_body whole_text _ H).
Defined.
End TagTheorems.
