(* ===== verification/TagLine.v ===== *)
(** * The trailing tag line

    [src/src/card/TagLineEditor.cpp]: the last non-blank line of a body, when it
    holds nothing but tags, is the one place where the program adds and removes
    text on the user's behalf. *)

From stdpp Require Import base list gmap strings numbers.
From Stdlib Require Import Ascii.
From S2P Require Import Prelude Text Tags.
Import TagExtractor.

Module TagLineEditor.

Definition is_line_whitespace (c : ascii) : bool :=
  Ascii.eqb c " " || Ascii.eqb c tab || Ascii.eqb c carriage_return.

Record BodySplit := mkSplit { content : bytes; trailing_ws : bytes }.

(** [while (end > 0 && (body[end - 1] == '\n' || ...)) --end;] *)
Fixpoint trim_end (body : bytes) (end_ : nat) : nat :=
  match end_ with
  | O => O
  | S e =>
      match body !! e with
      | Some c => if Ascii.eqb c newline || is_line_whitespace c then trim_end body e else end_
      | None => end_
      end
  end.

Definition split_trailing_whitespace (body : bytes) : BodySplit :=
  let end_ := trim_end body (length body) in
  mkSplit (take end_ body) (drop end_ body).

(** [content.find_last_of('\n')], plus one, or 0. *)
Fixpoint last_line_start_from (content : bytes) (n : nat) : nat :=
  match n with
  | O => O
  | S k =>
      match content !! k with
      | Some c => if Ascii.eqb c newline then n else last_line_start_from content k
      | None => last_line_start_from content k
      end
  end.
Definition last_line_start (content : bytes) : nat :=
  last_line_start_from content (length content).

(** The loop of [parse_pure_tag_line] from the byte at [i] on; each turn consumes at
    least the hash sign, so [fuel] above the length of the rest is never used up. *)
Fixpoint parse_tags_from (fuel : nat) (rest : bytes) (tags : list bytes) : option (list bytes) :=
  match fuel with
  | O => None
  | S f =>
      match drop_while is_line_whitespace rest with
      | [] => Some tags
      | c :: rest' =>
          if Ascii.eqb c "#" then
            let candidate := take_while (fun c => negb (is_line_whitespace c)) rest' in
            if is_valid_tag candidate then
              parse_tags_from f (drop_while (fun c => negb (is_line_whitespace c)) rest')
                (tags ++ [normalize_tag candidate])
            else None
          else None
      end
  end.

Definition parse_pure_tag_line (line : bytes) : option (list bytes) :=
  match parse_tags_from (S (length line)) line [] with
  | Some [] => None
  | r => r
  end.

Fixpoint join_tag_line (tags : list bytes) : bytes :=
  match tags with
  | [] => []
  | [t] => "#"%char :: t
  | t :: ts => ("#"%char :: t) ++ " "%char :: join_tag_line ts
  end.

Definition upsert_trailing_tag_line (body tag : bytes) : bytes :=
  let split := split_trailing_whitespace body in
  let content := content split in
  match content with
  | [] => "#"%char :: tag
  | _ =>
      let line_start := last_line_start content in
      let last_line := drop line_start content in
      match parse_pure_tag_line last_line with
      | Some existing =>
          if bool_decide (tag ∈ existing) then body
          else take line_start content ++ join_tag_line (existing ++ [tag]) ++ trailing_ws split
      | None => content ++ [newline; newline] ++ ("#"%char :: tag) ++ trailing_ws split
      end
  end.

Inductive RemoveTagLineOutcome := Removed | NotOnTrailingLine.

Record RemoveTagLineResult := mkRemove { new_body : bytes; outcome : RemoveTagLineOutcome }.

(** [existing->erase(it)] at the first element equal to [tag]. *)
Fixpoint erase_first (tag : bytes) (l : list bytes) : list bytes :=
  match l with
  | [] => []
  | x :: xs => if decide (x = tag) then xs else x :: erase_first tag xs
  end.

(** [while (!before.empty() && before.back() == '\n') before.pop_back();] *)
Fixpoint pop_newlines (before : bytes) (n : nat) : bytes :=
  match n with
  | O => []
  | S k =>
      match before !! k with
      | Some c => if Ascii.eqb c newline then pop_newlines before k else take n before
      | None => take n before
      end
  end.

Definition remove_from_trailing_tag_line (body tag : bytes) : RemoveTagLineResult :=
  let split := split_trailing_whitespace body in
  let content := content split in
  match content with
  | [] => mkRemove body NotOnTrailingLine
  | _ =>
      let line_start := last_line_start content in
      let last_line := drop line_start content in
      match parse_pure_tag_line last_line with
      | None => mkRemove body NotOnTrailingLine
      | Some existing =>
          if bool_decide (tag ∈ existing) then
            match erase_first tag existing with
            | [] =>
                let before := take line_start content in
                mkRemove (pop_newlines before (length before) ++ trailing_ws split) Removed
            | rest =>
                mkRemove (take line_start content ++ join_tag_line rest ++ trailing_ws split) Removed
            end
          else mkRemove body NotOnTrailingLine
      end
  end.

Definition tags_on_trailing_line (body : bytes) : list bytes :=
  let split := split_trailing_whitespace body in
  match content split with
  | [] => []
  | c =>
      match parse_pure_tag_line (drop (last_line_start c) c) with
      | Some tags => tags
      | None => []
      end
  end.

End TagLineEditor.

Module TagLineFacts.
Import TagLineEditor.

#[global] Arguments split_trailing_whitespace : simpl never.
#[global] Arguments last_line_start : simpl never.

Definition is_trailing (c : ascii) : bool := Ascii.eqb c newline || is_line_whitespace c.

(** A body that ends in something else than white space, followed by white space. *)
Definition ends_solid (b : bytes) : Prop := exists p c, b = p ++ [c] /\ is_trailing c = false.

Lemma trim_end_app body ws :
  forallb is_trailing ws = true ->
  trim_end (body ++ ws) (length body + length ws) = trim_end (body ++ ws) (length body).
Proof.
  intros Hws. induction ws as [|c ws IH] using rev_ind.
  { simpl. by rewrite Nat.add_0_r. }
  rewrite forallb_app in Hws. apply andb_true_iff in Hws as [Hws Hc]. simpl in Hc.
  rewrite andb_true_r in Hc. unfold is_trailing in Hc.
  rewrite length_app. simpl. rewrite Nat.add_assoc, Nat.add_1_r. simpl.
  rewrite app_assoc.
  rewrite lookup_app_r by (rewrite length_app; lia).
  rewrite length_app, Nat.sub_diag. simpl. rewrite Hc.
  assert (Hpre : forall n l x, (n <= length l)%nat -> trim_end (l ++ [x]) n = trim_end l n).
  { clear. induction n as [|n IH]; intros l x Hn; simpl; [done|].
    rewrite lookup_app_l by lia. rewrite IH by lia. done. }
  rewrite !Hpre by (rewrite length_app; lia). by apply IH.
Qed.

Lemma split_solid b ws :
  ends_solid b -> forallb is_trailing ws = true ->
  split_trailing_whitespace (b ++ ws) = mkSplit b ws.
Proof.
  intros (p & c & -> & Hc) Hws. unfold split_trailing_whitespace.
  rewrite (length_app (p ++ [c]) ws), trim_end_app by done.
  rewrite length_app. simpl. rewrite Nat.add_1_r. simpl.
  rewrite <- app_assoc. rewrite lookup_app_r, Nat.sub_diag by lia. simpl.
  unfold is_trailing in Hc. rewrite Hc.
  change (p ++ c :: ws) with (p ++ [c] ++ ws). rewrite app_assoc.
  replace (S (length p)) with (length (p ++ [c])) by (rewrite length_app; simpl; lia).
  by rewrite take_app_length, drop_app_length.
Qed.

Lemma split_cases body :
  (split_trailing_whitespace body = mkSplit [] body /\ forallb is_trailing body = true) \/
  exists b ws, body = b ++ ws /\ ends_solid b /\ forallb is_trailing ws = true.
Proof.
  induction body as [|c body IH] using rev_ind; [by left|].
  destruct (is_trailing c) eqn:Hc.
  - destruct IH as [[_ IH]|(b & ws & -> & Hb & Hws)].
    + left. rewrite forallb_app, IH. simpl. rewrite Hc. split; [|done].
      assert (Hall : forall ws, forallb is_trailing ws = true ->
        split_trailing_whitespace ws = mkSplit [] ws).
      { clear. intros ws H. unfold split_trailing_whitespace.
        by rewrite (trim_end_app [] ws H : trim_end ws (length ws) = 0%nat). }
      apply Hall. by rewrite forallb_app, IH; simpl; rewrite Hc.
    + right. exists b, (ws ++ [c]). rewrite app_assoc. split; [done|]. split; [done|].
      rewrite forallb_app, Hws. simpl. by rewrite Hc.
  - right. exists (body ++ [c]), []. rewrite app_nil_r. split; [done|]. split; [|done].
    by exists body, c.
Qed.

(** A line: bytes without a newline. *)
Definition no_newline (l : bytes) : bool := forallb (fun c => negb (Ascii.eqb c newline)) l.

Lemma last_line_start_from_app p line n :
  no_newline line = true -> (n <= length line)%nat ->
  last_line_start_from (p ++ line) (length p + n) = last_line_start_from p (length p).
Proof.
  intros Hl. induction n as [|n IH]; intros Hn.
  - rewrite Nat.add_0_r.
    assert (Hpre : forall k l x, (k <= length l)%nat ->
      last_line_start_from (l ++ x) k = last_line_start_from l k).
    { clear. induction k as [|k IH]; intros l x Hk; simpl; [done|].
      rewrite lookup_app_l by lia. by rewrite IH by lia. }
    by apply Hpre.
  - rewrite Nat.add_succ_r. simpl. rewrite lookup_app_r by lia.
    replace (length p + n - length p)%nat with n by lia.
    destruct (line !! n) as [c|] eqn:Hc; [|by apply IH; lia].
    unfold no_newline in Hl. rewrite forallb_forall in Hl.
    assert (In c line) as Hin by (apply list_elem_of_In, list_elem_of_lookup; eauto).
    apply Hl, negb_true_iff in Hin as ->. apply IH. lia.
Qed.

(** The text before the last line: empty, or ending in a newline. *)
Definition at_line_start (p : bytes) : Prop := p = [] \/ exists q, p = q ++ [newline].

Lemma last_line_start_app p line :
  at_line_start p -> no_newline line = true -> last_line_start (p ++ line) = length p.
Proof.
  intros Hp Hl. unfold last_line_start. rewrite length_app, last_line_start_from_app by done.
  destruct Hp as [->|[q ->]]; [done|].
  rewrite length_app. simpl. rewrite Nat.add_1_r. simpl.
  by rewrite lookup_app_r, Nat.sub_diag by lia.
Qed.

Lemma line_split b : exists p line, b = p ++ line /\ at_line_start p /\ no_newline line = true.
Proof.
  induction b as [|c b IH] using rev_ind; [by exists [], []; repeat split; left|].
  destruct (Ascii.eqb c newline) eqn:E.
  - apply Ascii.eqb_eq in E as ->. exists (b ++ [newline]), []. rewrite app_nil_r.
    split; [done|]. split; [right; by exists b|done].
  - destruct IH as (p & line & -> & Hp & Hl). exists p, (line ++ [c]). rewrite app_assoc.
    split; [done|]. split; [done|]. unfold no_newline in *. rewrite forallb_app, Hl. simpl.
    by rewrite E.
Qed.

(** The tags the program stores: valid and already normalised. *)
Definition tag_ok (t : bytes) : Prop := is_valid_tag t = true /\ normalize_tag t = t.

Definition is_line_text (c : ascii) : bool := negb (is_trailing c).

Lemma tag_char_text c : TagExtractor.is_tag_char c = true -> is_line_text c = true.
Proof. apply implb_true_iff. revert c. by_bytes. Qed.

Lemma valid_tag_text t : is_valid_tag t = true -> forallb is_line_text t = true /\ t <> [].
Proof.
  destruct t as [|c t]; [done|]. intros H.
  change (is_alpha c && forallb is_tag_char (c :: t) && negb (looks_like_hex_color (c :: t)) = true) in H.
  apply andb_true_iff in H as [H _]. apply andb_true_iff in H as [_ H]. split; [|done].
  rewrite forallb_forall in *. intros x Hx. by apply tag_char_text, H.
Qed.

Lemma normalized_tag_ok t : is_valid_tag t = true -> tag_ok (normalize_tag t).
Proof.
  intros H. unfold tag_ok, normalize_tag. by rewrite TagFacts.is_valid_tag_lower, TagFacts.to_lower_idemp.
Qed.

Lemma take_drop_text t rest :
  forallb is_line_text t = true -> match rest with [] => True | c :: _ => is_line_whitespace c = true end ->
  take_while (fun c => negb (is_line_whitespace c)) (t ++ rest) = t /\
  drop_while (fun c => negb (is_line_whitespace c)) (t ++ rest) = rest.
Proof.
  intros Ht Hr. induction t as [|c t IH]; simpl.
  - destruct rest as [|c rest]; simpl; [done|]. by rewrite Hr.
  - simpl in Ht. apply andb_true_iff in Ht as [Hc Ht]. destruct (IH Ht) as [-> ->].
    unfold is_line_text, is_trailing in Hc. apply negb_true_iff, orb_false_iff in Hc as [_ ->]. done.
Qed.

Lemma drop_while_app (f : ascii -> bool) sp rest :
  forallb f sp = true -> drop_while f (sp ++ rest) = drop_while f rest.
Proof.
  induction sp as [|c sp IH]; simpl; [done|]. rewrite andb_true_iff. intros [-> H]. by apply IH.
Qed.

Lemma drop_while_length {A} (f : A -> bool) l : (length (drop_while f l) <= length l)%nat.
Proof. induction l as [|x l IH]; simpl; [done|]. destruct (f x); simpl; lia. Qed.

(** Fuel above the length of the rest is never used up: any two such give the same
    result. *)
Lemma parse_tags_from_fuel f1 f2 rest tags :
  (length rest < f1)%nat -> (length rest < f2)%nat ->
  parse_tags_from f1 rest tags = parse_tags_from f2 rest tags.
Proof.
  revert f2 rest tags. induction f1 as [|f1 IH]; intros [|f2] rest tags H1 H2; try lia. simpl.
  pose proof (drop_while_length is_line_whitespace rest).
  destruct (drop_while is_line_whitespace rest) as [|c rest']; [done|]. simpl in *.
  destruct (Ascii.eqb c "#"); [|done]. destruct (is_valid_tag _); [|done].
  pose proof (drop_while_length (fun c => negb (is_line_whitespace c)) rest').
  apply IH; lia.
Qed.

Lemma parse_join sp ts fuel acc :
  forallb is_line_whitespace sp = true -> Forall tag_ok ts ->
  (length (sp ++ join_tag_line ts) < fuel)%nat ->
  parse_tags_from fuel (sp ++ join_tag_line ts) acc = Some (acc ++ ts).
Proof.
  intros Hsp Hts. revert sp fuel acc Hsp.
  induction Hts as [|t ts [Hv Hn] Hts IH]; intros sp fuel acc Hsp Hf;
    (destruct fuel as [|fuel]; [lia|]); cbn [parse_tags_from]; rewrite drop_while_app by done.
  { simpl. by rewrite app_nil_r. }
  destruct (valid_tag_text t Hv) as [Ht _].
  assert (exists rest, join_tag_line (t :: ts) = "#"%char :: t ++ rest /\
    rest = match ts with [] => [] | _ => " "%char :: join_tag_line ts end) as (rest & Hj & Hr).
  { eexists. split; [|done]. destruct ts; simpl; by rewrite ?app_nil_r. }
  rewrite Hj in *. cbn [drop_while].
  change (is_line_whitespace "#") with false. cbv iota.
  destruct (take_drop_text t rest Ht) as [Htk Hdr]; [subst rest; by destruct ts|].
  change (Ascii.eqb "#" "#") with true. cbv iota. rewrite Htk, Hdr, Hv, Hn.
  assert (acc ++ t :: ts = (acc ++ [t]) ++ ts) as -> by (by rewrite <- app_assoc).
  rewrite length_app in Hf. simpl in Hf. rewrite length_app in Hf.
  destruct ts as [|t' ts]; subst rest.
  - destruct fuel; [lia|]. simpl. by rewrite app_nil_r.
  - apply (IH [" "%char]); [done|]. simpl in *. lia.
Qed.

Lemma parse_pure_join ts :
  Forall tag_ok ts -> ts <> [] -> parse_pure_tag_line (join_tag_line ts) = Some ts.
Proof.
  intros H Hne. unfold parse_pure_tag_line.
  rewrite (parse_join [] ts); [|done|done|simpl; lia]. by destruct ts.
Qed.

Lemma parse_tags_from_ok fuel rest tags ts :
  parse_tags_from fuel rest tags = Some ts -> Forall tag_ok tags -> Forall tag_ok ts.
Proof.
  revert rest tags. induction fuel as [|fuel IH]; intros rest tags; simpl; [done|].
  destruct (drop_while _ _) as [|c rest']; [by intros [= <-]|].
  destruct (Ascii.eqb c "#"); [|done]. destruct (is_valid_tag _) eqn:Hv; [|done].
  intros H Ht. apply (IH _ _ H). apply Forall_app. split; [done|].
  constructor; [|done]. by apply normalized_tag_ok.
Qed.

Lemma parse_pure_ok line ts : parse_pure_tag_line line = Some ts -> Forall tag_ok ts /\ ts <> [].
Proof.
  unfold parse_pure_tag_line. destruct (parse_tags_from _ _ _) as [[|t ts']|] eqn:E; [done| |done].
  intros [= <-]. split; [|done]. by apply (parse_tags_from_ok _ _ _ _ E).
Qed.

Lemma join_text ts :
  Forall tag_ok ts -> no_newline (join_tag_line ts) = true /\ (ts <> [] -> ends_solid (join_tag_line ts)).
Proof.
  assert (Hline : forall t, tag_ok t -> no_newline ("#"%char :: t) = true /\ ends_solid ("#"%char :: t)).
  { intros t [Hv _]. destruct (valid_tag_text t Hv) as [Ht Hne]. split.
    - simpl. unfold no_newline. rewrite forallb_forall in *. intros x Hx. specialize (Ht x Hx).
      unfold is_line_text, is_trailing in Ht. rewrite negb_true_iff, orb_false_iff in Ht.
      by destruct Ht as [-> _].
    - destruct t as [|c t _] using rev_ind; [done|]. exists ("#"%char :: t), c. split; [done|].
      rewrite forallb_app in Ht. apply andb_true_iff in Ht as [_ Ht]. simpl in Ht.
      rewrite andb_true_r in Ht. by apply negb_true_iff. }
  induction 1 as [|t ts Ht Hts [IHn IHs]]; [done|].
  destruct (Hline t Ht) as [Hn Hs]. destruct ts as [|t' ts]; [done|].
  change (join_tag_line (t :: t' :: ts)) with (("#"%char :: t) ++ [" "%char] ++ join_tag_line (t' :: ts)).
  split.
  - unfold no_newline in *. rewrite !forallb_app, Hn, IHn. done.
  - intros _. destruct IHs as (q & c & -> & Hc); [done|].
    exists (("#"%char :: t) ++ [" "%char] ++ q), c. split; [by rewrite <- !app_assoc|done].
Qed.

Lemma ends_solid_app p b : ends_solid b -> ends_solid (p ++ b).
Proof. intros (q & c & -> & Hc). exists (p ++ q), c. by rewrite app_assoc. Qed.

(** A body with content: the text before its last line, that line, and the white
    space that ends the body. *)
Record shaped (body p line ws : bytes) : Prop := {
  sh_body : body = (p ++ line) ++ ws;
  sh_solid : ends_solid (p ++ line);
  sh_start : at_line_start p;
  sh_line : no_newline line = true;
  sh_ws : forallb is_trailing ws = true
}.

Lemma body_shape body :
  (split_trailing_whitespace body = mkSplit [] body) \/
  exists p line ws, shaped body p line ws.
Proof.
  destruct (split_cases body) as [[H _]|(b & ws & -> & Hb & Hws)]; [by left|right].
  destruct (line_split b) as (p & line & -> & Hp & Hl). by exists p, line, ws.
Qed.

Section Shaped.
Context {body p line ws : bytes} (H : shaped body p line ws).

Lemma shaped_split : split_trailing_whitespace body = mkSplit (p ++ line) ws.
Proof. destruct H as [-> ? ? ? ?]. by apply split_solid. Qed.

Lemma shaped_start : last_line_start (p ++ line) = length p.
Proof. destruct H. by apply last_line_start_app. Qed.

Lemma shaped_content_ne {A} (a b : A) :
    match p ++ line with [] => a | _ => b end = b.
Proof. destruct H as [_ (q & c & -> & _) _ _ _]. by destruct q. Qed.

Lemma shaped_tags :
    tags_on_trailing_line body = match parse_pure_tag_line line with Some ts => ts | None => [] end.
Proof.
    unfold tags_on_trailing_line. rewrite shaped_split. simpl.
    pose proof (shaped_content_ne (0%nat) 1%nat) as Hne.
    destruct (p ++ line) as [|c b] eqn:E; [done|]. rewrite <- E.
    by rewrite shaped_start, drop_app_length.
Qed.

Lemma shaped_upsert t :
    upsert_trailing_tag_line body t =
    match parse_pure_tag_line line with
    | Some ex => if bool_decide (t ∈ ex) then body else p ++ join_tag_line (ex ++ [t]) ++ ws
    | None => (p ++ line) ++ [newline; newline] ++ ("#"%char :: t) ++ ws
    end.
Proof.
    unfold upsert_trailing_tag_line. rewrite shaped_split. cbn [content trailing_ws].
    pose proof (shaped_content_ne (0%nat) 1%nat) as Hne.
    destruct (p ++ line) as [|c b] eqn:E; [done|]. rewrite <- E.
    by rewrite shaped_start, drop_app_length, take_app_length.
Qed.

Lemma shaped_remove t :
    remove_from_trailing_tag_line body t =
    match parse_pure_tag_line line with
    | Some ex =>
        if bool_decide (t ∈ ex) then
          match erase_first t ex with
          | [] => mkRemove (pop_newlines p (length p) ++ ws) Removed
          | rest => mkRemove (p ++ join_tag_line rest ++ ws) Removed
          end
        else mkRemove body NotOnTrailingLine
    | None => mkRemove body NotOnTrailingLine
    end.
Proof.
    unfold remove_from_trailing_tag_line. rewrite shaped_split. cbn [content trailing_ws].
    pose proof (shaped_content_ne (0%nat) 1%nat) as Hne.
    destruct (p ++ line) as [|c b] eqn:E; [done|]. rewrite <- E.
    by rewrite shaped_start, drop_app_length, take_app_length.
Qed.

  (** Replacing the last line by a line of tags. *)
Lemma shaped_join ts :
    Forall tag_ok ts -> ts <> [] -> shaped (p ++ join_tag_line ts ++ ws) p (join_tag_line ts) ws.
Proof.
    intros Hts Hne. destruct H. destruct (join_text ts Hts) as [Hn Hs].
    split; [by rewrite app_assoc|by apply ends_solid_app, Hs|done|done|done].
Qed.

  (** Adding a line of tags after a blank line. *)
Lemma shaped_append ts :
    Forall tag_ok ts -> ts <> [] ->
    shaped ((p ++ line) ++ [newline; newline] ++ join_tag_line ts ++ ws)
      ((p ++ line) ++ [newline; newline]) (join_tag_line ts) ws.
Proof.
    intros Hts Hne. destruct H. destruct (join_text ts Hts) as [Hn Hs].
    split; [by rewrite <- !app_assoc|by apply ends_solid_app, Hs| |done|done].
    right. exists ((p ++ line) ++ [newline]). by rewrite <- !app_assoc.
Qed.
End Shaped.

Lemma pop_newlines_solid b :
  ends_solid b -> forall nls, forallb (Ascii.eqb newline) nls = true ->
  pop_newlines (b ++ nls) (length (b ++ nls)) = b.
Proof.
  intros (q & c & -> & Hc) nls Hn.
  assert (Hnl : Ascii.eqb c newline = false).
  { unfold is_trailing in Hc. by apply orb_false_iff in Hc as [? _]. }
  assert (Hgen : forall n, (n <= length nls)%nat ->
    pop_newlines ((q ++ [c]) ++ nls) (S (length q) + n) = q ++ [c]).
  { induction n as [|n IH]; intros Hle.
    - rewrite Nat.add_0_r. simpl. rewrite <- app_assoc, lookup_app_r, Nat.sub_diag by lia.
      simpl. rewrite Hnl. change (q ++ c :: nls) with (q ++ [c] ++ nls).
      rewrite app_assoc. replace (S (length q)) with (length (q ++ [c])) by (rewrite length_app; simpl; lia).
      by rewrite take_app_length.
    - rewrite Nat.add_succ_r. simpl pop_newlines.
      rewrite lookup_app_r by (rewrite length_app; simpl; lia). rewrite length_app. simpl length.
      replace (S (length q + n) - (length q + 1))%nat with n by lia.
      destruct (nls !! n) as [x|] eqn:Hx.
      2:{ apply lookup_ge_None in Hx. lia. }
      rewrite forallb_forall in Hn.
      assert (In x nls) as Hin by (apply list_elem_of_In, list_elem_of_lookup; eauto).
      apply Hn, Ascii.eqb_eq in Hin as <-. apply IH. lia. }
  rewrite !length_app. simpl. rewrite Nat.add_1_r. by apply Hgen.
Qed.

Lemma erase_first_ok t ts : Forall tag_ok ts -> Forall tag_ok (erase_first t ts).
Proof.
  induction 1; simpl; [constructor|]. case_decide; [done|]. by constructor.
Qed.
End TagLineFacts.

Module TagLineTheorems.
Import TagLineEditor TagLineFacts.

(** adding a tag: afterwards the trailing tag line lists what it listed before,
    in the same order, with the tag appended if it was missing; a tag already there
    leaves the body untouched; and unless the body was blank, the white space that
    ends the body is kept byte for byte, and so is the text before the tag line, a
    new line being set off by exactly one blank line. *)
Theorem upsert_trailing_tag_line_spec (body t : bytes) :
  tag_ok t ->
  let body' := upsert_trailing_tag_line body t in
  let s := split_trailing_whitespace body in
  let s' := split_trailing_whitespace body' in
  tags_on_trailing_line body' =
    (if bool_decide (t ∈ tags_on_trailing_line body) then tags_on_trailing_line body
     else tags_on_trailing_line body ++ [t]) /\
  (t ∈ tags_on_trailing_line body -> body' = body) /\
  (content s <> [] ->
    trailing_ws s' = trailing_ws s /\
    take (last_line_start (content s')) (content s') =
      match parse_pure_tag_line (drop (last_line_start (content s)) (content s)) with
      | Some _ => take (last_line_start (content s)) (content s)
      | None => content s ++ [newline; newline]
      end).
Proof.
  intros Ht. cbv zeta.
  assert (H1 : Forall tag_ok [t]) by (by constructor).
  destruct (body_shape body) as [Hs|(p & line & ws & H)].
  - assert (upsert_trailing_tag_line body t = [] ++ join_tag_line [t] ++ []) as Hu.
    { unfold upsert_trailing_tag_line. rewrite Hs. simpl. by rewrite app_nil_r. }
    assert (tags_on_trailing_line body = []) as Hb by (unfold tags_on_trailing_line; by rewrite Hs).
    assert (shaped ([] ++ join_tag_line [t] ++ []) [] (join_tag_line [t]) []) as Hsh.
    { destruct (join_text [t] H1) as [Hn He].
      split; [done|by apply He|by left|done|done]. }
    rewrite Hu, Hb, (shaped_tags Hsh), parse_pure_join, Hs by done. simpl.
    split; [done|]. split; [set_solver|done].
  - rewrite (shaped_upsert H), (shaped_tags H), (shaped_split H). cbn [content trailing_ws].
    rewrite (shaped_start H), drop_app_length, take_app_length.
    destruct (parse_pure_tag_line line) as [ex|] eqn:Hp.
    + destruct (parse_pure_ok _ _ Hp) as [Hok Hne]. case_bool_decide as Hin.
      * rewrite (shaped_tags H), Hp, (shaped_split H). simpl.
        rewrite (shaped_start H), take_app_length. done.
      * assert (Forall tag_ok (ex ++ [t])) as Hex by (by apply Forall_app).
        assert (ex ++ [t] <> []) as Hex' by (by destruct ex).
        pose proof (shaped_join H _ Hex Hex') as Hsh.
        rewrite (shaped_tags Hsh), (parse_pure_join _ Hex Hex'), (shaped_split Hsh). simpl.
        by rewrite (shaped_start Hsh), take_app_length.
    + pose proof (shaped_append H _ H1 ltac:(done)) as Hsh. simpl join_tag_line in Hsh.
      rewrite bool_decide_eq_false_2 by set_solver.
      rewrite (shaped_tags Hsh), (shaped_split Hsh). cbn [content trailing_ws].
      rewrite (parse_pure_join [t] H1 ltac:(done) : parse_pure_tag_line ("#"%char :: t) = Some [t]).
      rewrite (shaped_start Hsh), take_app_length. simpl. split; [done|]. split; [set_solver|done].
Qed.

(** removing a tag succeeds exactly for the tags [tags_on_trailing_line] lists;
    otherwise the body is unchanged; and while other tags remain, the line then
    lists them in their order, the white space that ends the body being kept. *)
Theorem remove_from_trailing_tag_line_spec (body t : bytes) :
  let r := remove_from_trailing_tag_line body t in
  (outcome r = Removed <-> t ∈ tags_on_trailing_line body) /\
  (outcome r = NotOnTrailingLine -> new_body r = body) /\
  (outcome r = Removed -> erase_first t (tags_on_trailing_line body) <> [] ->
    tags_on_trailing_line (new_body r) = erase_first t (tags_on_trailing_line body) /\
    trailing_ws (split_trailing_whitespace (new_body r)) =
      trailing_ws (split_trailing_whitespace body)).
Proof.
  cbv zeta. destruct (body_shape body) as [Hs|(p & line & ws & H)].
  - assert (remove_from_trailing_tag_line body t = mkRemove body NotOnTrailingLine) as ->.
    { unfold remove_from_trailing_tag_line. by rewrite Hs. }
    assert (tags_on_trailing_line body = []) as -> by (unfold tags_on_trailing_line; by rewrite Hs).
    simpl. split; [split; [done|set_solver]|done].
  - rewrite (shaped_remove H), (shaped_tags H).
    destruct (parse_pure_tag_line line) as [ex|] eqn:Hp; [|simpl; split; [split; [done|set_solver]|done]].
    destruct (parse_pure_ok _ _ Hp) as [Hok Hne].
    case_bool_decide as Hin; [|simpl; naive_solver].
    pose proof (erase_first_ok t ex Hok) as Her.
    destruct (erase_first t ex) as [|t' ts] eqn:Ee; cbn [outcome new_body]; [naive_solver|].
    split; [done|]. split; [done|]. intros _ Hne'.
    pose proof (shaped_join H _ Her Hne') as Hsh.
    by rewrite (shaped_tags Hsh), (parse_pure_join _ Her Hne'), (shaped_split Hsh), (shaped_split H).
Qed.

(** adding a tag to a body with text and no tag line, then removing it, gives
    back the body byte for byte. *)
Theorem upsert_remove_roundtrip (body t : bytes) :
  tag_ok t -> content (split_trailing_whitespace body) <> [] -> tags_on_trailing_line body = [] ->
  remove_from_trailing_tag_line (upsert_trailing_tag_line body t) t = mkRemove body Removed.
Proof.
  intros Ht Hc Hn. destruct (body_shape body) as [Hs|(p & line & ws & H)]; [by rewrite Hs in Hc|].
  assert (H1 : Forall tag_ok [t]) by (by constructor).
  rewrite (shaped_upsert H). rewrite (shaped_tags H) in Hn.
  destruct (parse_pure_tag_line line) as [ex|] eqn:Hp.
  { by destruct (parse_pure_ok _ _ Hp) as [_ Hne]. }
  pose proof (shaped_append H _ H1 ltac:(done)) as Hsh.
  rewrite (shaped_remove Hsh), (parse_pure_join [t] H1) by done.
  rewrite bool_decide_eq_true_2 by set_solver. simpl erase_first. rewrite decide_True by done.
  destruct H as [Hb Hsolid _ _ _]. f_equal. rewrite pop_newlines_solid by done. done.
Qed.

Example upsert_trailing_tag_line_spec_witness :
  tag_ok (bytes_of "todo") /\
  tags_on_trailing_line (upsert_trailing_tag_line (bytes_of "Text #a") (bytes_of "todo")) =
    [bytes_of "todo"].
Proof.
  assert (tag_ok (bytes_of "todo")) as H by (split; vm_compute; reflexivity).
  split; [exact H|].
  exact (eq_trans (proj1 (upsert_trailing_tag_line_spec (bytes_of "Text #a") _ H)) eq_refl).
Defined.

Example upsert_remove_roundtrip_witness :
  tag_ok (bytes_of "todo") /\
  remove_from_trailing_tag_line
    (upsert_trailing_tag_line (bytes_of "Text #a ") (bytes_of "todo")) (bytes_of "todo") =
    mkRemove (bytes_of "Text #a ") Removed.
Proof.
  assert (tag_ok (bytes_of "todo")) as H by (split; vm_compute; reflexivity).
  split; [exact H|]. apply upsert_remove_roundtrip; [exact H|vm_compute; discriminate|reflexivity].
Defined.

(** Removal takes away one occurrence only: a tag written twice on the line is
    still on it after a removal that reports success. *)
Lemma remove_leaves_duplicate :
  let r := remove_from_trailing_tag_line (bytes_of "Text" ++ newline :: bytes_of "#a #a") (bytes_of "a") in
  outcome r = Removed /\ bytes_of "a" ∈ tags_on_trailing_line (new_body r).
Proof. cbv zeta. split; [vm_compute; reflexivity|]. vm_compute. constructor. Qed.
End TagLineTheorems.
