(* ===== verification/Database.v ===== *)
(** * The database

    The repositories talk to SQLite. A table is the list of its rows in storage
    order; a statement is a function on the tables that follows its SQL text and
    the constraints [schema/schema.sql] declares. SQLite itself is the class
    [SqlEngine]: it chooses the order of the rows that a query's [ORDER BY] leaves
    open, and it compares text prefixes by characters. [SqlEngineLaws] is what its
    documentation promises; [reference_engine] is an instance that keeps storage
    order. *)

From stdpp Require Import base list sets strings numbers sorting.
From Stdlib Require Import Ascii.
From S2P Require Import Prelude Double Model Text.

Class SqlEngine := {
  (** [SELECT ... WHERE p ORDER BY cmp]. *)
  sql_select : forall {A : Type}, (A -> bool) -> (A -> A -> comparison) -> list A -> list A;
  (** [substr(s, 1, length(prefix)) = prefix]. *)
  sql_starts_with : string -> string -> bool
}.

Definition ascii_string (s : string) : bool := forallb is_ascii (bytes_of s).

Class SqlEngineLaws (E : SqlEngine) : Prop := {
  sql_select_perm : forall A (p : A -> bool) cmp (t : list A),
    sql_select p cmp t ≡ₚ list_filter p t;
  sql_select_sorted : forall A (p : A -> bool) cmp (t : list A),
    CmpOrd cmp -> StronglySorted (cmp_le cmp) (sql_select p cmp t);
  sql_starts_with_ascii : forall prefix s,
    ascii_string prefix = true -> sql_starts_with prefix s = String.prefix prefix s
}.

Lemma sql_select_elem {E : SqlEngine} `{!SqlEngineLaws E} {A} (p : A -> bool) cmp t x :
  x ∈ sql_select p cmp t <-> x ∈ t /\ p x = true.
Proof. by rewrite sql_select_perm, elem_of_list_filter. Qed.

Definition reference_engine : SqlEngine := {|
  sql_select A p cmp t := sort_by (cmp_ltb cmp) (list_filter p t);
  sql_starts_with := String.prefix
|}.

#[export] Instance reference_engine_laws : SqlEngineLaws reference_engine.
Proof.
  split; simpl.
  - intros. apply sort_by_perm.
  - intros. by apply sort_by_sorted.
  - done.
Qed.

(** [LIMIT n]. *)
Definition sql_limit {A} (n : Z) (l : list A) : list A := take (Z.to_nat n) l.

(** [COUNT] of the rows, read by [sqlite3_column_int], which keeps the low 32 bits. *)
Definition wrap_int (w n : Z) : Z := (n + 2 ^ (w - 1)) mod 2 ^ w - 2 ^ (w - 1).
Definition sql_count {A} (p : A -> bool) (t : list A) : Z :=
  wrap_int 32 (Z.of_nat (length (list_filter p t))).

(** ** Binding

    [sqlite3_bind_text(stmt, idx, value.c_str(), -1, ...)] stores the bytes up to
    the first NUL; [sqlite3_bind_double] stores a NaN as NULL. *)
Definition bind_text (value : string) : string := c_str value.
Definition bind_text_optional (value : option string) : option string := bind_text <$> value.
Definition bind_double (value : double) : option double :=
  if f64_is_nan value then None else Some value.

(** What [CardRepo::create] binds to the columns of a row. *)
Definition bind_card (c : Card) : Card :=
  mkCard (bind_text (card_id c)) (bind_text (card_project_id c)) (bind_text (title c))
    (bind_text (rel_path c)) (bind_text_optional (parent_card_id c)) (sort_key c)
    (created_at c) (updated_at c) (deleted_at c).

Definition opt_eqb (a b : option string) : bool := bool_decide (a = b).
(** [column = ?] on a nullable column: false when the column is NULL. *)
Definition sql_eq_opt (column : option string) (value : string) : bool :=
  match column with Some s => String.eqb s value | None => false end.

(** ** Tables *)

Record ResourceRow := mkResourceRow {
  rr_id : string;
  rr_project_id : string;
  rr_type : string;
  rr_label : string;
  rr_created_at : Z;
  rr_updated_at : Z
}.
Record MetadataRow := mkMetadataRow {
  md_resource_id : string;
  md_property : string;
  md_value_index : Z;
  md_value : string
}.
Record AssetRow := mkAssetRow {
  ar_id : string;
  ar_resource_id : string;
  ar_project_id : string;
  ar_original_filename : string;
  ar_media_type : string;
  ar_byte_size : Z;
  ar_plaintext_sha256 : string;
  ar_created_at : Z;
  ar_updated_at : Z
}.
Record LocationRow := mkLocationRow {
  lr_id : string;
  lr_project_id : string;
  lr_name : string;
  lr_provider : string;
  lr_config_json : string;
  lr_created_at : Z;
  lr_updated_at : Z
}.
(** The tables of resources; a row of [asset_placements] is a [Placement]. *)
Record ResourceTables := mkResourceTables {
  resources : list ResourceRow;
  resource_metadata : list MetadataRow;
  assets : list AssetRow;
  asset_placements : list Placement;
  storage_locations : list LocationRow
}.
Definition no_resources : ResourceTables := mkResourceTables [] [] [] [] [].

Record Db := mkDb {
  projects : list Project;
  cards : list Card;
  card_links : list CardLink;
  card_tags : list CardTag;
  milestones : list Milestone;
  project_sync_state : list ProjectSyncState;
  resource_tables : ResourceTables
}.
(** The tables of a store without resources. *)
Definition core_db p c l t m s : Db := mkDb p c l t m s no_resources.

Definition set_projects t db :=
  mkDb t (cards db) (card_links db) (card_tags db) (milestones db) (project_sync_state db)
    (resource_tables db).
Definition set_cards t db :=
  mkDb (projects db) t (card_links db) (card_tags db) (milestones db) (project_sync_state db)
    (resource_tables db).
Definition set_card_links t db :=
  mkDb (projects db) (cards db) t (card_tags db) (milestones db) (project_sync_state db)
    (resource_tables db).
Definition set_card_tags t db :=
  mkDb (projects db) (cards db) (card_links db) t (milestones db) (project_sync_state db)
    (resource_tables db).
Definition set_milestones t db :=
  mkDb (projects db) (cards db) (card_links db) (card_tags db) t (project_sync_state db)
    (resource_tables db).
Definition set_sync_state t db :=
  mkDb (projects db) (cards db) (card_links db) (card_tags db) (milestones db) t (resource_tables db).
Definition set_resource_tables t db :=
  mkDb (projects db) (cards db) (card_links db) (card_tags db) (milestones db) (project_sync_state db) t.

Definition Repo (A : Type) : Type := M Db A.

(** A statement that either changes the tables or, when a constraint refuses it,
    leaves them as they were and makes the caller throw. *)
Definition exec (what : string) (stmt : Db -> option Db) : Repo unit :=
  fun db => match stmt db with Some db' => (Ok tt, db') | None => (Err (Sqlite what), db) end.

(** [Tx]: the destructor rolls back unless [commit] was reached. *)
Definition transaction {A} (m : Repo A) : Repo A :=
  fun db => match m db with (Ok a, db') => (Ok a, db') | (Err e, _) => (Err e, db) end.

Definition project_exists (id : string) (db : Db) : bool :=
  existsb (fun p => String.eqb (project_id p) id) (projects db).
Definition card_exists (id : string) (t : list Card) : bool :=
  existsb (fun c => String.eqb (card_id c) id) t.

(** ** The constraints of the [cards] table: [card_id] is the primary key,
    [(project_id, rel_path)] is unique, [project_id] and [parent_card_id] are
    foreign keys. [parent_card_id] refers to the same table and is checked when
    the statement ends, so a row may refer to itself. *)
Definition cards_parent_ok (t : list Card) (c : Card) : bool :=
  match parent_card_id c with Some p => card_exists p t | None => true end.

Definition insert_card (c : Card) (db : Db) : option Db :=
  match bind_double (sort_key c) with
  | None => None
  | Some _ =>
      let t := cards db ++ [c] in
      if negb (card_exists (card_id c) (cards db))
         && negb (existsb (fun d => String.eqb (card_project_id d) (card_project_id c)
                                    && String.eqb (rel_path d) (rel_path c)) (cards db))
         && project_exists (card_project_id c) db
         && cards_parent_ok t c
      then Some (set_cards t db) else None
  end.

(** [UPDATE cards SET ... WHERE card_id = id]: [f] is the assignment to the row. *)
Definition update_card (id : string) (f : Card -> Card) (db : Db) : option Db :=
  let t := map (fun c => if String.eqb (card_id c) id then f c else c) (cards db) in
  let ok c d :=
    if String.eqb (card_id c) id
    then match bind_double (sort_key d) with Some _ => true | None => false end
         && cards_parent_ok t d
         && negb (existsb (fun e => negb (String.eqb (card_id e) id)
                                    && String.eqb (card_project_id e) (card_project_id d)
                                    && String.eqb (rel_path e) (rel_path d)) (cards db))
    else true in
  if forallb (fun c => ok c (f c)) (cards db) then Some (set_cards t db) else None.

(** [DELETE FROM cards WHERE card_id = id]: children lose their parent
    ([ON DELETE SET NULL]); tags and milestones of the card go ([ON DELETE CASCADE]). *)
Definition delete_card_row (id : string) (db : Db) : Db :=
  let kept := list_filter (fun c => negb (String.eqb (card_id c) id)) (cards db) in
  let t := map (fun c => if sql_eq_opt (parent_card_id c) id && card_exists id (cards db)
                         then set_card_parent None c else c) kept in
  if card_exists id (cards db) then
    set_milestones (list_filter (fun m => negb (String.eqb (ms_card_id m) id)) (milestones db))
      (set_card_tags (list_filter (fun g => negb (String.eqb (tag_card_id g) id)) (card_tags db))
         (set_cards t db))
  else db.

(** ** Deletions from the tables of resources

    [DELETE FROM assets], [DELETE FROM resources] and what goes with the rows that [p]
    selects ([ON DELETE CASCADE]). *)
Definition delete_asset_rows (p : AssetRow -> bool) (t : ResourceTables) : ResourceTables :=
  let gone id := existsb (fun a => p a && String.eqb (ar_id a) id) (assets t) in
  mkResourceTables (resources t) (resource_metadata t)
    (list_filter (fun a => negb (p a)) (assets t))
    (list_filter (fun x => negb (gone (pl_asset_id x))) (asset_placements t))
    (storage_locations t).
Definition delete_resource_rows (p : ResourceRow -> bool) (t : ResourceTables) : ResourceTables :=
  let gone id := existsb (fun r => p r && String.eqb (rr_id r) id) (resources t) in
  let t' := delete_asset_rows (fun a => gone (ar_resource_id a)) t in
  mkResourceTables (list_filter (fun r => negb (p r)) (resources t))
    (list_filter (fun m => negb (gone (md_resource_id m))) (resource_metadata t))
    (assets t') (asset_placements t') (storage_locations t').
(** A placement keeps its location from being deleted ([ON DELETE RESTRICT]). *)
Definition delete_location_rows (p : LocationRow -> bool) (t : ResourceTables) : option ResourceTables :=
  let gone id := existsb (fun l => p l && String.eqb (lr_id l) id) (storage_locations t) in
  if existsb (fun x => gone (pl_location_id x)) (asset_placements t) then None
  else Some (mkResourceTables (resources t) (resource_metadata t) (assets t) (asset_placements t)
               (list_filter (fun l => negb (p l)) (storage_locations t))).
(** What goes with a project: its assets, its locations and its resources. The order in
    which the cascades run matters only to [ON DELETE RESTRICT]; SQLite takes the tables
    that were created later first. *)
Definition delete_project_resources (id : string) (t : ResourceTables) : option ResourceTables :=
  match delete_location_rows (fun l => String.eqb (lr_project_id l) id)
          (delete_asset_rows (fun a => String.eqb (ar_project_id a) id) t) with
  | None => None
  | Some t => Some (delete_resource_rows (fun r => String.eqb (rr_project_id r) id) t)
  end.

(** ** Well-formed tables *)
Record cards_wf (db : Db) : Prop := {
  wf_ids : NoDup (map card_id (cards db));
  wf_text : forall c, c ∈ cards db -> bind_card c = c;
  wf_keys : forall c, c ∈ cards db -> f64_is_nan (sort_key c) = false;
  wf_parents : forall c, c ∈ cards db -> cards_parent_ok (cards db) c = true;
  wf_projects : forall c, c ∈ cards db -> project_exists (card_project_id c) db = true;
  wf_rel_paths : NoDup (map (fun c => (card_project_id c, rel_path c)) (cards db))
}.

(** The primary key of [card_tags]. *)
Definition card_tags_wf (db : Db) : Prop :=
  NoDup (map (fun t => (tag_project_id t, tag_card_id t, tag_name t)) (card_tags db)).

(** [FROM t JOIN cards c ON c.card_id = t.card_id WHERE c.deleted_at IS NULL]: a row of
    [t] comes once for each card it meets. *)
Definition live_card_row (id : string) (c : Card) : bool :=
  String.eqb (card_id c) id && negb (card_deleted c).
Definition join_live_cards {A} (key : A -> string) (db : Db) (t : list A) : list A :=
  flat_map (fun x => map (fun _ => x) (list_filter (live_card_row (key x)) (cards db))) t.

Definition card_is_live (db : Db) (id : string) : bool := existsb (live_card_row id) (cards db).

Lemma card_is_live_spec db id :
  card_is_live db id = true <-> exists c, c ∈ cards db /\ card_id c = id /\ deleted_at c = None.
Proof.
  unfold card_is_live. rewrite existsb_exists. unfold live_card_row, card_deleted.
  split; intros (c & Hc & H); exists c; rewrite list_elem_of_In in *.
  - apply andb_true_iff in H as [->%String.eqb_eq H]. by destruct (deleted_at c).
  - destruct H as [-> ->]. by rewrite String.eqb_refl.
Qed.

Lemma join_live_cards_filter {A} (key : A -> string) db t :
  NoDup (map card_id (cards db)) ->
  join_live_cards key db t = list_filter (fun x => card_is_live db (key x)) t.
Proof.
  intros Hn. unfold join_live_cards, card_is_live, list_filter.
  induction t as [|x t IH]; simpl; [done|]. rewrite IH. clear IH.
  assert (List.filter (live_card_row (key x)) (cards db) = [] \/
          exists c, List.filter (live_card_row (key x)) (cards db) = [c]) as [He|[c He]].
  { clear -Hn. induction (cards db) as [|c l IH]; simpl in *; [by left|].
    apply NoDup_cons in Hn as [Hc Hn].
    destruct (live_card_row (key x) c) eqn:Hr; [|by apply IH]. right. exists c. f_equal.
    apply andb_true_iff in Hr as [Hk%String.eqb_eq _].
    destruct (List.filter _ l) as [|d k] eqn:Ef; [done|]. exfalso. assert (d ∈ List.filter (live_card_row (key x)) l) as Hd by (rewrite Ef; set_solver). unfold live_card_row in Hd.
      apply list_elem_of_In, filter_In in Hd as [Hd [Hi%String.eqb_eq _]%andb_true_iff].
      apply Hc. rewrite Hk, <- Hi. apply elem_of_map_id. exists d. by rewrite list_elem_of_In. }
  - rewrite He. simpl. destruct (existsb _ (cards db)) eqn:Ex; [|done].
    apply existsb_exists in Ex as (c & Hc & Hl).
    assert (c ∈ List.filter (live_card_row (key x)) (cards db)) as H
      by (by apply list_elem_of_In, filter_In).
    rewrite He in H. set_solver.
  - rewrite He. simpl. assert (existsb (live_card_row (key x)) (cards db) = true) as ->; [|done].
    assert (c ∈ List.filter (live_card_row (key x)) (cards db)) as H by (rewrite He; set_solver).
    apply list_elem_of_In, filter_In in H. apply existsb_exists. by exists c.
Qed.

(** Replacing the rows of one owner: the statement that lists the owner's rows then
    finds the new ones, a statement that lists other rows finds what it found before. *)
Lemma filter_replaced {A} (p : A -> bool) (l r : list A) :
  (forall x, x ∈ r -> p x = true) ->
  list_filter p (list_filter (fun x => negb (p x)) l ++ r) = r.
Proof.
  intros Hr. unfold list_filter. rewrite List.filter_app.
  change (List.filter p r) with (list_filter p r). rewrite (list_filter_all p r) by done.
  replace (List.filter p (List.filter _ l)) with (@nil A); [done|].
  induction l as [|x l IH]; cbn; [done|]. destruct (p x) eqn:Ep; cbn; [done|]. by rewrite Ep.
Qed.

Lemma filter_not_replaced {A} (p q : A -> bool) (l r : list A) :
  (forall x, q x = true -> p x = false) -> (forall x, x ∈ r -> p x = true) ->
  list_filter q (list_filter (fun x => negb (p x)) l ++ r) = list_filter q l.
Proof.
  intros Hd Hr. unfold list_filter. rewrite List.filter_app.
  replace (List.filter q r) with (@nil A).
  - rewrite app_nil_r. induction l as [|x l IH]; cbn; [done|]. specialize (Hd x).
    destruct (p x) eqn:E1; cbn; destruct (q x) eqn:E2; rewrite ?IH; try done.
    by specialize (Hd eq_refl).
  - symmetry. destruct (List.filter q r) as [|x k] eqn:Ef; [done|]. exfalso.
    assert (x ∈ List.filter q r) as Hx by (rewrite Ef; set_solver).
    apply list_elem_of_In, filter_In in Hx as [Hx Hq]. apply list_elem_of_In in Hx.
    specialize (Hd x Hq). specialize (Hr x Hx). congruence.
Qed.

(** ** The first row of a query by primary key *)

Section ByKey.
Context {E : SqlEngine} `{!SqlEngineLaws E} {A : Type} (key : A -> string).

Lemma head_by_key_Some (t : list A) k x :
  NoDup (map key t) ->
  head (sql_select (fun y => String.eqb (key y) k) cmp_true t) = Some x <-> x ∈ t /\ key x = k.
Proof.
  intros Hn.
  pose proof (fun y => sql_select_elem (fun y => String.eqb (key y) k) cmp_true t y) as Hs.
  destruct (sql_select _ _ _) as [|d l]; simpl; split.
  - done.
  - intros [Hc He]. exfalso. apply (not_elem_of_nil x), Hs. by rewrite He, String.eqb_refl.
  - intros [= ->]. destruct (Hs x) as [H _]. destruct H as [H1 H2%String.eqb_eq]; [set_solver|done].
  - intros [Hc He]. destruct (Hs d) as [H _]. destruct H as [H1 H2%String.eqb_eq]; [set_solver|].
    f_equal. apply (NoDup_map_inj key t); [done|done|done|congruence].
Qed.

Lemma head_by_key_None (t : list A) k :
  head (sql_select (fun y => String.eqb (key y) k) cmp_true t) = None <->
  forall x, x ∈ t -> key x <> k.
Proof.
  pose proof (fun y => sql_select_elem (fun y => String.eqb (key y) k) cmp_true t y) as Hs.
  destruct (sql_select _ _ _) as [|d l]; simpl; split; try done.
  - intros _ x Hx He. apply (not_elem_of_nil x), Hs. by rewrite He, String.eqb_refl.
  - intros H. destruct (Hs d) as [H1 _]. destruct H1 as [H1 H2%String.eqb_eq]; [set_solver|].
    by destruct (H d).
Qed.
End ByKey.
