(* ===== verification/CardRepo.v ===== *)
(** * The card table

    [src/src/card/CardRepo.cpp]: one definition per method. Queries are functions
    of the tables; methods that write are computations in [Repo]. *)

From stdpp Require Import base list sets strings numbers sorting.
From S2P Require Import Prelude Double Model Text Tags Database.

Module CardRepo.

Inductive CardPageOrder := CardIdAsc | UpdatedDesc.

Record CardPageCursor := mkCursor {
  cursor_card_id : string;
  cursor_updated_at : option Z
}.

Inductive CardPageParent := PageAll | PageRoots | PageChildrenOf (parent : string).

Record CardPageQuery := mkPageQuery {
  query_tag : option string;
  query_parent : CardPageParent;
  query_order : CardPageOrder;
  query_cursor : option CardPageCursor
}.

(** [CardPageQuery{}] *)
Definition default_query : CardPageQuery := mkPageQuery None PageAll CardIdAsc None.

(** The condition [deletion_scope_clause] adds. *)
Definition deletion_scope_clause (scope : CardScope) (c : Card) : bool :=
  match scope with
  | Live => negb (card_deleted c)
  | Trashed => card_deleted c
  | Either => true
  end.

(** [ORDER BY sort_key ASC, updated_at DESC] *)
Definition by_sort_key : Card -> Card -> comparison :=
  cmp_lex (cmp_on sort_key f64_compare) (cmp_rev (cmp_on updated_at Z.compare)).
(** [ORDER BY card_id ASC] *)
Definition by_card_id : Card -> Card -> comparison := cmp_on card_id String.compare.
(** [ORDER BY updated_at DESC, card_id DESC] *)
Definition by_recency : Card -> Card -> comparison :=
  cmp_lex (cmp_rev (cmp_on updated_at Z.compare)) (cmp_rev (cmp_on card_id String.compare)).

Definition create (card : Card) : Repo unit :=
  exec "insert card failed" (insert_card (bind_card card)).

Section Queries.
Context {E : SqlEngine}.

(** The first row of a query by primary key. *)
Definition get (db : Db) (id : string) : option Card :=
  head (sql_select (fun c => String.eqb (card_id c) (bind_text id)) cmp_true (cards db)).

Definition find_by_id (db : Db) (project_id id : string) (scope : CardScope) : option Card :=
  head (sql_select
          (fun c => String.eqb (card_project_id c) (bind_text project_id)
                    && String.eqb (card_id c) (bind_text id)
                    && deletion_scope_clause scope c) cmp_true (cards db)).

Definition find_by_id_prefix (db : Db) (project_id prefix : string) (scope : CardScope)
    (limit : Z) : list Card :=
  if Z.leb limit 0 then []
  else
    let p := bind_text prefix in
    sql_limit limit
      (sql_select
         (fun c => String.eqb (card_project_id c) (bind_text project_id)
                   && negb (str_ltb (card_id c) p)
                   && str_ltb (card_id c) (p +:+ "~")
                   && sql_starts_with p (card_id c)
                   && deletion_scope_clause scope c) by_card_id (cards db)).

Definition find_by_exact_title (db : Db) (project_id title_ : string) (scope : CardScope)
    (limit : Z) : list Card :=
  if Z.leb limit 0 then []
  else
    sql_limit limit
      (sql_select
         (fun c => String.eqb (card_project_id c) (bind_text project_id)
                   && String.eqb (title c) (bind_text title_)
                   && deletion_scope_clause scope c) cmp_true (cards db)).

Definition list_roots (db : Db) (project_id : string) : list Card :=
  sql_select (fun c => String.eqb (card_project_id c) (bind_text project_id)
                       && bool_decide (parent_card_id c = None)) by_sort_key (cards db).

Definition list_children (db : Db) (project_id parent : string) : list Card :=
  sql_select (fun c => String.eqb (card_project_id c) (bind_text project_id)
                       && sql_eq_opt (parent_card_id c) (bind_text parent)) by_sort_key (cards db).

Definition list_all (db : Db) (project_id : string) : list Card :=
  sql_select (fun c => String.eqb (card_project_id c) (bind_text project_id)) by_sort_key (cards db).

(** The rows [card_tags t JOIN cards c ON c.card_id = t.card_id], or the cards. *)
Definition page_rows (tag : option string) (project_id : string) (db : Db) : list Card :=
  match tag with
  | Some tg =>
      flat_map (fun t =>
        if String.eqb (tag_project_id t) (bind_text project_id)
           && String.eqb (tag_name t)
                (bind_text (string_of (TagExtractor.normalize_tag (bytes_of tg))))
        then list_filter (fun c => String.eqb (card_id c) (tag_card_id t)) (cards db)
        else []) (card_tags db)
  | None => cards db
  end.

Definition page_parent_clause (parent : CardPageParent) (c : Card) : bool :=
  match parent with
  | PageAll => true
  | PageRoots => bool_decide (parent_card_id c = None)
  | PageChildrenOf p => sql_eq_opt (parent_card_id c) (bind_text p)
  end.

Definition page_cursor_clause (order : CardPageOrder) (cursor : option CardPageCursor) (c : Card)
    : bool :=
  match cursor with
  | None => true
  | Some cur =>
      match order with
      | CardIdAsc => str_ltb (bind_text (cursor_card_id cur)) (card_id c)
      | UpdatedDesc =>
          match cursor_updated_at cur with
          | Some u =>
              Z.ltb (updated_at c) u
              || (Z.eqb (updated_at c) u && str_ltb (card_id c) (bind_text (cursor_card_id cur)))
          | None => false
          end
      end
  end.

Definition page_order (order : CardPageOrder) : Card -> Card -> comparison :=
  match order with CardIdAsc => by_card_id | UpdatedDesc => by_recency end.

(** The checks that come before the query. *)
Definition check_page_query (query : CardPageQuery) (limit : Z) : result unit :=
  if Z.leb limit 0 then Err (InvalidArgument "limit must be positive")
  else if match query_parent query with PageChildrenOf p => String.eqb p "" | _ => false end
  then Err (InvalidArgument "children parent card_id must not be empty")
  else if match query_cursor query with Some c => String.eqb (cursor_card_id c) "" | None => false end
  then Err (InvalidArgument "cursor card_id must not be empty")
  else if match query_cursor query, query_order query with
          | Some c, UpdatedDesc => bool_decide (cursor_updated_at c = None)
          | _, _ => false
          end
  then Err (InvalidArgument "updated-order cursor must include updated_at")
  else if match query_tag query with
          | Some t => negb (TagExtractor.is_valid_tag (bytes_of t))
          | None => false
          end
  then Err (InvalidArgument "Invalid tag.")
  else Ok tt.

Definition page_filter (project_id : string) (query : CardPageQuery) (c : Card) : bool :=
  String.eqb (card_project_id c) (bind_text project_id)
  && negb (card_deleted c)
  && page_parent_clause (query_parent query) c
  && page_cursor_clause (query_order query) (query_cursor query) c.

Definition list_collection_page (db : Db) (project_id : string) (query : CardPageQuery)
    (limit : Z) : result (list Card) :=
  let? _ := check_page_query query limit in
  Ok (sql_limit limit
        (sql_select (page_filter project_id query) (page_order (query_order query))
           (page_rows (query_tag query) project_id db))).

Definition list_page_by_card_id (db : Db) (project_id : string) (after_card_id : option string)
    (limit : Z) : result (list Card) :=
  let cursor :=
    match after_card_id with
    | Some a => if String.eqb a "" then None else Some (mkCursor a None)
    | None => None
    end in
  list_collection_page db project_id (mkPageQuery None PageAll CardIdAsc cursor) limit.

Definition list_recent_page (db : Db) (project_id : string) (before_updated_at : option Z)
    (before_card_id : option string) (limit : Z) : result (list Card) :=
  match before_updated_at with
  | None => list_collection_page db project_id (mkPageQuery None PageAll UpdatedDesc None) limit
  | Some u =>
      match before_card_id with
      | Some id =>
          if String.eqb id ""
          then Err (InvalidArgument "before_card_id is required with before_updated_at")
          else list_collection_page db project_id
                 (mkPageQuery None PageAll UpdatedDesc (Some (mkCursor id (Some u)))) limit
      | None => Err (InvalidArgument "before_card_id is required with before_updated_at")
      end
  end.

End Queries.

Definition count_all_not_deleted (db : Db) (project_id : string) : Z :=
  sql_count (fun c => String.eqb (card_project_id c) (bind_text project_id)
                      && negb (card_deleted c)) (cards db).

Definition count_roots_not_deleted (db : Db) (project_id : string) : Z :=
  sql_count (fun c => String.eqb (card_project_id c) (bind_text project_id)
                      && bool_decide (parent_card_id c = None)
                      && negb (card_deleted c)) (cards db).

Definition count_children_not_deleted (db : Db) (project_id parent : string) : Z :=
  sql_count (fun c => String.eqb (card_project_id c) (bind_text project_id)
                      && sql_eq_opt (parent_card_id c) (bind_text parent)
                      && negb (card_deleted c)) (cards db).

(** [MAX(sort_key)] over the rows, NULL when there is none. *)
Definition max_sort_key (l : list Card) : option double :=
  foldl (fun acc c =>
    match acc with
    | None => Some (sort_key c)
    | Some m => if f64_ltb m (sort_key c) then Some (sort_key c) else Some m
    end) None l.

Definition next_sort_key (db : Db) (project_id : string) (parent : option string) : double :=
  let live := list_filter
    (fun c => String.eqb (card_project_id c) (bind_text project_id)
              && match parent with
                 | Some p => sql_eq_opt (parent_card_id c) (bind_text p)
                 | None => bool_decide (parent_card_id c = None)
                 end
              && negb (card_deleted c)) (cards db) in
  f64_add (match max_sort_key live with Some m => m | None => f64_of_Z (-1) end) (f64_of_Z 1).

Definition update_title (id title_ : string) (updated_at_ : Z) : Repo unit :=
  exec "update card title failed"
    (update_card (bind_text id)
       (fun c => set_card_title (bind_text title_) (set_card_updated_at updated_at_ c))).

Definition touch_updated (id : string) (updated_at_ : Z) : Repo unit :=
  exec "touch card failed" (update_card (bind_text id) (set_card_updated_at updated_at_)).

Definition soft_delete (id : string) (deleted_at_ updated_at_ : Z) : Repo unit :=
  exec "soft delete card failed"
    (update_card (bind_text id)
       (fun c => set_card_deleted_at (Some deleted_at_) (set_card_updated_at updated_at_ c))).

Definition restore (id : string) (updated_at_ : Z) : Repo unit :=
  exec "restore card failed"
    (update_card (bind_text id)
       (fun c => set_card_deleted_at None (set_card_updated_at updated_at_ c))).

(** The assignment of [restore_snapshot]: everything but the ids and [created_at]. *)
Definition snapshot_row (card c : Card) : Card :=
  mkCard (card_id c) (card_project_id c) (bind_text (title card)) (bind_text (rel_path card))
    (bind_text_optional (parent_card_id card)) (sort_key card) (created_at c)
    (updated_at card) (deleted_at card).

Definition restore_snapshot (card : Card) : Repo unit :=
  exec "restore card snapshot failed"
    (update_card (bind_text (card_id card)) (snapshot_row card)).

Definition remove (id : string) : Repo unit :=
  exec "delete card failed" (fun db => Some (delete_card_row (bind_text id) db)).

Definition move_row (parent : option string) (key : double) (updated_at_ : Z) (c : Card) : Card :=
  set_card_parent (bind_text_optional parent)
    (set_card_sort_key key (set_card_updated_at updated_at_ c)).

Definition move (id : string) (parent : option string) (key : double) (updated_at_ : Z)
    : Repo unit :=
  exec "move card failed" (update_card (bind_text id) (move_row parent key updated_at_)).

End CardRepo.

Module CardRepoFacts.
Import CardRepo.

Lemma card_exists_spec id t : card_exists id t = true <-> id ∈ map card_id t.
Proof.
  unfold card_exists. rewrite existsb_exists, list_elem_of_In, in_map_iff. split.
  - intros (c & Hc & <-%String.eqb_eq). by exists c.
  - intros (c & <- & Hc). exists c. by rewrite String.eqb_refl.
Qed.

Lemma card_exists_mono id t t' :
  (forall i, i ∈ map card_id t -> i ∈ map card_id t') -> card_exists id t = true -> card_exists id t' = true.
Proof. rewrite !card_exists_spec. auto. Qed.

Lemma insert_card_spec c db db' :
  insert_card c db = Some db' <->
  db' = set_cards (cards db ++ [c]) db /\
  f64_is_nan (sort_key c) = false /\ card_id c ∉ map card_id (cards db) /\
  (card_project_id c, rel_path c) ∉ map (fun d => (card_project_id d, rel_path d)) (cards db) /\
  project_exists (card_project_id c) db = true /\
  cards_parent_ok (cards db ++ [c]) c = true.
Proof.
  unfold insert_card, bind_double.
  assert (Hrel : existsb (fun d => String.eqb (card_project_id d) (card_project_id c)
                                    && String.eqb (rel_path d) (rel_path c)) (cards db) = true <->
    (card_project_id c, rel_path c) ∈ map (fun d => (card_project_id d, rel_path d)) (cards db)).
  { rewrite existsb_exists, elem_of_map_id. split.
    - intros (d & Hd & [H1%String.eqb_eq H2%String.eqb_eq]%andb_true_iff).
      exists d. rewrite list_elem_of_In. by rewrite H1, H2.
    - intros (d & Hd & [= -> ->]). exists d. rewrite !String.eqb_refl, <- list_elem_of_In. done. }
  pose proof (card_exists_spec (card_id c) (cards db)) as Hid.
  destruct (f64_is_nan (sort_key c)); [naive_solver|].
  destruct (card_exists (card_id c) (cards db)); [naive_solver|].
  destruct (existsb _ (cards db)); [naive_solver|]. simpl.
  destruct (project_exists _ db); [|naive_solver]. simpl.
  destruct (cards_parent_ok _ c); naive_solver.
Qed.

Lemma cards_wf_insert c db db' : bind_card c = c -> insert_card c db = Some db' -> cards_wf db -> cards_wf db'.
Proof.
  intros Htext (-> & Hnan & Hid & Hrel & Hproj & Hpar)%insert_card_spec [W1 W0 W2 W3 W4 W5].
  split; simpl.
  - rewrite map_app. apply list.NoDup_app. repeat split; [done| |apply NoDup_singleton].
    intros x Hx Hc. apply list_elem_of_singleton in Hc as ->. done.
  - intros d [Hd| ->%list_elem_of_singleton]%elem_of_app; [by apply W0|done].
  - intros d [Hd| ->%list_elem_of_singleton]%elem_of_app; auto.
  - intros d [Hd| ->%list_elem_of_singleton]%elem_of_app; [|done].
    specialize (W3 d Hd). unfold cards_parent_ok in *. destruct (parent_card_id d); [|done].
    eapply card_exists_mono; [|done]. intros i Hi. rewrite map_app. set_solver.
  - intros d [Hd| ->%list_elem_of_singleton]%elem_of_app; [by apply W4|exact Hproj].
  - rewrite map_app. apply list.NoDup_app. repeat split; [done| |apply NoDup_singleton].
    intros x Hx Hc. apply list_elem_of_singleton in Hc as ->. done.
Qed.

(** A row is one whose text columns hold no NUL. *)
Lemma bind_card_id c :
  bind_card c = c <->
  bind_text (card_id c) = card_id c /\ bind_text (card_project_id c) = card_project_id c /\
  bind_text (title c) = title c /\ bind_text (rel_path c) = rel_path c /\
  bind_text_optional (parent_card_id c) = parent_card_id c.
Proof.
  destruct c. unfold bind_card. cbn. split; [by intros [= -> -> -> -> ->]|].
  by intros (-> & -> & -> & -> & ->).
Qed.

Lemma bind_text_idemp s : bind_text (bind_text s) = bind_text s.
Proof. apply c_str_idemp. Qed.

Lemma bind_text_optional_idemp o :
  bind_text_optional (bind_text_optional o) = bind_text_optional o.
Proof. destruct o; simpl; [|done]. by rewrite bind_text_idemp. Qed.

Lemma bind_card_idemp c : bind_card (bind_card c) = bind_card c.
Proof. unfold bind_card. cbn. by rewrite !bind_text_idemp, bind_text_optional_idemp. Qed.

Lemma bind_card_set_parent p c :
  bind_text_optional p = p -> bind_card c = c ->
  bind_card (set_card_parent p c) = set_card_parent p c.
Proof. rewrite !bind_card_id. cbn. naive_solver. Qed.

(** An assignment that keeps the identity of the row. *)
Definition keeps_identity (f : Card -> Card) : Prop :=
  forall c, card_id (f c) = card_id c /\ card_project_id (f c) = card_project_id c /\
            (bind_card c = c -> bind_card (f c) = f c).

Definition updated_rows (id : string) (f : Card -> Card) (db : Db) : list Card :=
  map (fun c => if String.eqb (card_id c) id then f c else c) (cards db).

Lemma updated_rows_ids id f db :
  keeps_identity f -> map card_id (updated_rows id f db) = map card_id (cards db).
Proof.
  intros Hf. unfold updated_rows. rewrite map_map. apply map_ext. intros c.
  destruct (String.eqb _ _); [apply Hf|done].
Qed.

Lemma update_card_spec id f db db' :
  update_card id f db = Some db' <->
  db' = set_cards (updated_rows id f db) db /\
  forall c, c ∈ cards db -> card_id c = id ->
    f64_is_nan (sort_key (f c)) = false /\
    cards_parent_ok (updated_rows id f db) (f c) = true /\
    forall e, e ∈ cards db -> card_id e <> id ->
      (card_project_id e, rel_path e) <> (card_project_id (f c), rel_path (f c)).
Proof.
  unfold update_card. fold (updated_rows id f db).
  match goal with |- context [forallb ?g _] => set (ok := g) end.
  destruct (forallb ok (cards db)) eqn:E.
  - split; [|intros [-> _]; done]. intros [= <-]. split; [done|]. rewrite forallb_forall in E.
    intros c Hc Hid. apply list_elem_of_In in Hc. specialize (E c Hc). subst ok. simpl in E.
    rewrite (proj2 (String.eqb_eq _ _) Hid) in E.
    apply andb_true_iff in E as [[H1 H2]%andb_true_iff H3]. split; [|split; [done|]].
    { unfold bind_double in H1. by destruct (f64_is_nan _). }
    intros e He Hne [= Hp Hr]. apply negb_true_iff in H3.
    enough (existsb (fun e => negb (String.eqb (card_id e) id)
              && String.eqb (card_project_id e) (card_project_id (f c))
              && String.eqb (rel_path e) (rel_path (f c))) (cards db) = true) by congruence.
    apply existsb_exists. exists e. split; [by apply list_elem_of_In|].
    rewrite Hp, Hr, !String.eqb_refl. apply String.eqb_neq in Hne as ->. done.
  - split; [done|]. intros [_ H]. exfalso. apply not_true_iff_false in E. apply E.
    apply forallb_forall. intros c Hc. subst ok. simpl.
    destruct (String.eqb (card_id c) id) eqn:Hid; [|done]. apply String.eqb_eq in Hid.
    destruct (H c) as (H1 & H2 & H3); [by apply list_elem_of_In|done|].
    unfold bind_double. rewrite H1, H2. simpl. apply negb_true_iff, not_true_iff_false.
    intros (e & He & [[Hn%negb_true_iff%String.eqb_neq Hp%String.eqb_eq]%andb_true_iff
      Hr%String.eqb_eq]%andb_true_iff)%existsb_exists.
    apply (H3 e); [by apply list_elem_of_In|done|]. by rewrite Hp, Hr.
Qed.

Lemma elem_of_updated_rows id f db d :
  d ∈ updated_rows id f db <->
  exists c, c ∈ cards db /\ d = if String.eqb (card_id c) id then f c else c.
Proof. unfold updated_rows. by rewrite elem_of_map_id. Qed.

Lemma NoDup_map_update {B} `{!EqDecision B} (g : Card -> B) id f l :
  NoDup (map card_id l) -> NoDup (map g l) ->
  (forall c e, c ∈ l -> e ∈ l -> card_id c = id -> card_id e <> id -> g e <> g (f c)) ->
  NoDup (map g (map (fun c => if String.eqb (card_id c) id then f c else c) l)).
Proof.
  induction l as [|x l IH]; simpl; intros Hi Hn H; [done|].
  apply NoDup_cons in Hi as [Hix Hi], Hn as [Hx Hn]. apply NoDup_cons. split.
  - rewrite !elem_of_map_id. setoid_rewrite elem_of_map_id. intros (y & (z & Hz & ->) & Hg).
    assert (card_id z <> card_id x) as Hne.
    { intros He. apply Hix. rewrite elem_of_map_id. by exists z. }
    destruct (String.eqb_spec (card_id x) id) as [Hxi|Hxi];
      destruct (String.eqb_spec (card_id z) id) as [Hzi|Hzi].
    + congruence.
    + by apply (H x z ltac:(set_solver) ltac:(set_solver) Hxi Hzi).
    + by apply (H z x ltac:(set_solver) ltac:(set_solver) Hzi Hxi).
    + apply Hx. rewrite elem_of_map_id. by exists z.
  - apply IH; [done|done|]. intros c e Hc He. apply H; set_solver.
Qed.

Lemma cards_wf_update id f db db' :
  keeps_identity f -> update_card id f db = Some db' -> cards_wf db -> cards_wf db'.
Proof.
  intros Hf [-> H]%update_card_spec [W1 W0 W2 W3 W4 W5].
  pose proof (updated_rows_ids id f db Hf) as Hids. split; simpl.
  - by rewrite Hids.
  - intros d (c & Hc & ->)%elem_of_updated_rows.
    destruct (String.eqb _ _); [apply Hf|]; by apply W0.
  - intros d (c & Hc & ->)%elem_of_updated_rows.
    destruct (String.eqb_spec (card_id c) id) as [Hi|Hi]; [by apply H|auto].
  - intros d (c & Hc & ->)%elem_of_updated_rows.
    destruct (String.eqb_spec (card_id c) id) as [Hi|Hi]; [by apply H|].
    specialize (W3 c Hc). unfold cards_parent_ok in *. destruct (parent_card_id c); [|done].
    rewrite card_exists_spec in *. by rewrite Hids.
  - intros d (c & Hc & ->)%elem_of_updated_rows.
    change (project_exists ?x (set_cards _ db)) with (project_exists x db).
    destruct (String.eqb _ _); [|by apply W4]. rewrite (proj1 (proj2 (Hf c))). by apply W4.
  - unfold updated_rows. apply NoDup_map_update; [done|done|].
    intros c e Hc He Hci Hei. by apply (H c Hc Hci).
Qed.

Lemma cards_wf_delete id db : cards_wf db -> cards_wf (delete_card_row id db).
Proof.
  intros W. unfold delete_card_row. destruct (card_exists id (cards db)) eqn:Ex; [|done].
  set (p := fun c => negb (String.eqb (card_id c) id)).
  set (g := fun c => if sql_eq_opt (parent_card_id c) id && true then set_card_parent None c else c).
  assert (Hg : forall c, card_id (g c) = card_id c /\ card_project_id (g c) = card_project_id c
     /\ rel_path (g c) = rel_path c /\ sort_key (g c) = sort_key c).
  { intros c. unfold g. by destruct (_ && _). }
  assert (Hin : forall d, d ∈ map g (list_filter p (cards db)) ->
    exists c, c ∈ cards db /\ card_id c <> id /\ d = g c).
  { intros d (c & [Hc Hp]%elem_of_list_filter & ->)%elem_of_map_id. exists c. repeat split; [done|].
    unfold p in Hp. by apply negb_true_iff, String.eqb_neq in Hp. }
  destruct W as [W1 W0 W2 W3 W4 W5]. split; simpl.
  - rewrite map_map, (map_ext _ card_id) by apply Hg. by apply NoDup_map_filter.
  - intros d (c & Hc & _ & ->)%Hin. specialize (W0 c Hc). unfold g.
    destruct (_ && _); [|done]. by apply bind_card_set_parent.
  - intros d (c & Hc & _ & ->)%Hin. rewrite (proj2 (proj2 (proj2 (Hg c)))). by apply W2.
  - intros d (c & Hc & _ & ->)%Hin. specialize (W3 c Hc). unfold cards_parent_ok in *. unfold g.
    destruct (parent_card_id c) as [q|] eqn:Hq; simpl; [|by rewrite Hq].
    destruct (String.eqb_spec q id) as [->|Hne]; simpl; [done|]. rewrite Hq.
    rewrite card_exists_spec in *. rewrite map_map, (map_ext _ card_id) by apply Hg.
    rewrite elem_of_map_id in *. destruct W3 as (e & He & ->). exists e. split; [|done].
    apply elem_of_list_filter. split; [done|]. unfold p. by apply negb_true_iff, String.eqb_neq.
  - intros d (c & Hc & _ & ->)%Hin. rewrite (proj1 (proj2 (Hg c))). by apply W4.
  - rewrite map_map, (map_ext _ (fun c => (card_project_id c, rel_path c))).
    + by apply NoDup_map_filter.
    + intros c. destruct (Hg c) as (_ & -> & -> & _). done.
Qed.


(** ** Rows selected by the primary key *)

Section Get.
Context `{!SqlEngineLaws E}.

Lemma get_Some db id c :
  cards_wf db ->
  get db id = Some c <-> c ∈ cards db /\ card_id c = bind_text id.
Proof. intros W. apply head_by_key_Some, W. Qed.

Lemma get_None db id :
  cards_wf db -> get db id = None <-> forall c, c ∈ cards db -> card_id c <> bind_text id.
Proof. intros _. apply head_by_key_None. Qed.
End Get.

(** The methods that write to the table. *)
Inductive card_write :=
| WCreate (card : Card)
| WUpdateTitle (id title_ : string) (updated_at_ : Z)
| WTouch (id : string) (updated_at_ : Z)
| WSoftDelete (id : string) (deleted_at_ updated_at_ : Z)
| WRestore (id : string) (updated_at_ : Z)
| WRestoreSnapshot (card : Card)
| WRemove (id : string)
| WMove (id : string) (parent : option string) (key : double) (updated_at_ : Z).

Definition run_write (w : card_write) : Repo unit :=
  match w with
  | WCreate card => create card
  | WUpdateTitle id t u => update_title id t u
  | WTouch id u => touch_updated id u
  | WSoftDelete id d u => soft_delete id d u
  | WRestore id u => restore id u
  | WRestoreSnapshot card => restore_snapshot card
  | WRemove id => remove id
  | WMove id p k u => move id p k u
  end.

(** The tables after a list of writes, whether or not each one succeeds. *)
Definition run_writes (ws : list card_write) (db : Db) : Db :=
  foldl (fun db w => snd (run_write w db)) db ws.

Lemma exec_wf what stmt db :
  (forall db', stmt db = Some db' -> cards_wf db') -> cards_wf db -> cards_wf (snd (exec what stmt db)).
Proof. intros H W. unfold exec. destruct (stmt db); [by apply H|done]. Qed.

Lemma run_write_wf w db : cards_wf db -> cards_wf (snd (run_write w db)).
Proof.
  intros W. destruct w; apply exec_wf; try done; intros db' H.
  1: apply (cards_wf_insert (bind_card card) db); [apply bind_card_idemp|done|done].
  6: injection H as <-; by apply cards_wf_delete.
  all: refine (cards_wf_update _ _ _ _ _ H W); intros c; split; [done|]; split; [done|];
    rewrite !bind_card_id; cbn; rewrite ?bind_text_idemp, ?bind_text_optional_idemp; naive_solver.
Qed.
End CardRepoFacts.

Module CardRepoTheorems.
Import CardRepo CardRepoFacts.

(** C30: no sequence of writes to the card table, succeeding or refused, breaks its
    integrity: ids stay unique and NUL-free, sort keys are numbers, every parent and
    project a row names exists, and no two cards of a project share a file. *)
Theorem card_writes_preserve_wf (ws : list card_write) (db : Db) :
  cards_wf db -> cards_wf (run_writes ws db).
Proof.
  unfold run_writes. revert db. induction ws as [|w ws IH]; intros db W; simpl; [done|].
  by apply IH, run_write_wf.
Qed.

(** [create] succeeds exactly when no constraint of the table refuses the card;
    then the new card reads back under its id with every other card unchanged, and a
    refused card leaves the tables as they were. *)
Theorem create_get (E : SqlEngine) (c : Card) (db : Db) :
  SqlEngineLaws E -> cards_wf db ->
  let r := create c db in
  let b := bind_card c in
  (fst r = Ok tt <->
     f64_is_nan (sort_key c) = false /\ card_id b ∉ map card_id (cards db) /\
     (card_project_id b, rel_path b) ∉ map (fun d => (card_project_id d, rel_path d)) (cards db) /\
     project_exists (card_project_id b) db = true /\
     cards_parent_ok (cards db ++ [b]) b = true) /\
  (fst r = Ok tt ->
     get (snd r) (card_id c) = Some b /\
     forall id, bind_text id <> card_id b -> get (snd r) id = get db id) /\
  (fst r <> Ok tt -> snd r = db).
Proof.
  intros L W. cbv zeta. unfold create, exec.
  pose proof (insert_card_spec (bind_card c) db) as Hspec.
  destruct (insert_card (bind_card c) db) as [db'|] eqn:Ei; simpl.
  - destruct (proj1 (Hspec db') eq_refl) as (Hdb & Hrest).
    pose proof (cards_wf_insert (bind_card c) db db' (bind_card_idemp _) Ei W) as W'.
    split; [done|]. split; [|done]. intros _. split.
    + apply get_Some; [done|]. subst db'. simpl. split; [set_solver|done].
    + intros id Hid. destruct (get db id) as [d|] eqn:Eg.
      * apply get_Some in Eg as [Hd He]; [|done]. apply get_Some; [done|].
        subst db'. simpl. split; [set_solver|done].
      * apply get_None; [done|]. rewrite get_None in Eg by done. subst db'. simpl.
        intros d [Hd| ->%list_elem_of_singleton]%elem_of_app; [by apply Eg|].
        intros He. by apply Hid.
  - split; [|done]. split; [done|]. intros H.
    discriminate (proj2 (Hspec _) (conj eq_refl H)).
Qed.

(** One project, two cards, the second under the first. *)
Definition sample_project : Project :=
  mkProject "p" "Notes" "/p" None None "plain" None Uuid4 0 0.
Definition sample_card (id : string) (parent : option string) (key : Z) : Card :=
  mkCard id "p" id id parent (f64_of_Z key) 1 1 None.
Definition sample_db : Db :=
  core_db [sample_project] [sample_card "aaaa" None 1; sample_card "bbbb" (Some "aaaa") 1] [] [] [] [].

Lemma sample_db_wf : cards_wf sample_db.
Proof.
  split; simpl.
  - repeat constructor; set_solver.
  - intros c Hc. repeat (apply elem_of_cons in Hc as [->|Hc]; [done|]). set_solver.
  - intros c Hc. repeat (apply elem_of_cons in Hc as [->|Hc]; [done|]). set_solver.
  - intros c Hc. repeat (apply elem_of_cons in Hc as [->|Hc]; [done|]). set_solver.
  - intros c Hc. repeat (apply elem_of_cons in Hc as [->|Hc]; [done|]). set_solver.
  - repeat constructor; set_solver.
Qed.

Example card_writes_preserve_wf_witness :
  cards_wf (run_writes [WCreate (sample_card "cccc" None 2); WRemove "aaaa";
                        WMove "bbbb" (Some "zzzz") (f64_of_Z 1) 2] sample_db).
Proof. exact (card_writes_preserve_wf _ _ sample_db_wf). Defined.

Example create_get_witness :
  get (E:=reference_engine) (snd (create (sample_card "cccc" (Some "bbbb") 2) sample_db)) "cccc" =
    Some (sample_card "cccc" (Some "bbbb") 2).
Proof.
  destruct (create_get reference_engine (sample_card "cccc" (Some "bbbb") 2) sample_db
    reference_engine_laws sample_db_wf) as (_ & H & _).
  apply H. vm_compute. reflexivity.
Defined.
End CardRepoTheorems.
