(* ===== verification/CardPages.v ===== *)
(** * Collection pages

    [CardStore::list_collection_page] without bodies: the keyset pagination that
    clients of the card table run, one page per call. *)

From stdpp Require Import base list sets strings numbers sorting.
From S2P Require Import Prelude Double Model Text Tags Database CardRepo.
Import CardRepo CardRepoFacts.

Module CollectionPages.

Record CollectionCardPage := mkPage {
  page_cards : list Card;
  next_cursor : option CardPageCursor
}.

Section Pages.
Context {E : SqlEngine}.

(** One row more than the page holds tells whether another page follows. *)
Definition list_collection_page (db : Db) (project_id : string) (query : CardPageQuery)
    (limit : Z) : result CollectionCardPage :=
  if Z.leb limit 0 || Z.ltb 1000 limit
  then Err (InvalidArgument "limit must be between 1 and 1000")
  else
    let? metadata := CardRepo.list_collection_page db project_id query (limit + 1) in
    if Z.ltb limit (Z.of_nat (length metadata)) then
      let page := take (Z.to_nat limit) metadata in
      Ok (mkPage page ((fun c => mkCursor (card_id c) (Some (updated_at c))) <$> last page))
    else Ok (mkPage metadata None).

(** A client that follows [next_cursor] until there is none. *)
Definition with_cursor (cursor : option CardPageCursor) (q : CardPageQuery) : CardPageQuery :=
  mkPageQuery (query_tag q) (query_parent q) (query_order q) cursor.

Fixpoint all_pages (fuel : nat) (db : Db) (project_id : string) (query : CardPageQuery)
    (limit : Z) : result (list (list Card)) :=
  match fuel with
  | O => Ok []
  | S f =>
      let? page := list_collection_page db project_id query limit in
      match next_cursor page with
      | None => Ok [page_cards page]
      | Some cur =>
          let? rest := all_pages f db project_id (with_cursor (Some cur) query) limit in
          Ok (page_cards page :: rest)
      end
  end.
End Pages.
End CollectionPages.

Module CollectionPageFacts.
Import CollectionPages.

(** In a sorted list without equivalent elements, the elements after [r] are those
    greater than [r]. *)
Lemma filter_after {A} (cmp : A -> A -> comparison) `{!CmpOrd cmp} l1 r l2 :
  StronglySorted (cmp_le cmp) (l1 ++ r :: l2) -> NoDup (l1 ++ r :: l2) ->
  (forall x y, x ∈ l1 ++ r :: l2 -> y ∈ l1 ++ r :: l2 -> cmp x y = Eq -> x = y) ->
  list_filter (cmp_ltb cmp r) (l1 ++ r :: l2) = l2.
Proof.
  intros Hs Hn Hinj. unfold list_filter. rewrite List.filter_app. simpl.
  assert (cmp_ltb cmp r r = false) as ->.
  { unfold cmp_ltb. by rewrite (cmp_refl cmp). }
  assert (Hpos : forall y, y ∈ l2 -> cmp_ltb cmp r y = true).
  { intros y Hy. apply StronglySorted_app in Hs as (_ & _ & Hs).
    apply StronglySorted_inv in Hs as [_ Hall]. rewrite Forall_forall in Hall.
    specialize (Hall y Hy). unfold cmp_ltb, cmp_le in *. destruct (cmp r y) eqn:Ec; [|done|done].
    assert (r = y) as -> by (apply Hinj; [set_solver|set_solver|done]).
    apply list.NoDup_app in Hn as (_ & _ & Hn). apply NoDup_cons in Hn as [Hn _]. done. }
  assert (Hneg : forall y, y ∈ l1 -> cmp_ltb cmp r y = false).
  { intros y Hy. apply StronglySorted_app in Hs as (Hall & _ & _).
    specialize (Hall y r Hy ltac:(set_solver)). unfold cmp_ltb, cmp_le in *.
    rewrite (cmp_opp cmp r y). by destruct (cmp y r). }
  assert (Hf : forall (p : A -> bool) l, (forall y, y ∈ l -> p y = false) -> List.filter p l = []).
  { clear. intros p l. induction l as [|x l IH]; simpl; intros H; [done|].
    rewrite (H x), IH; set_solver. }
  rewrite Hf by done. simpl. by apply (list_filter_all (cmp_ltb cmp r)).
Qed.

Lemma take_S_drop {A} (l : list A) k n :
  (k + n < length l)%nat ->
  exists r, last (take (S n) (drop k l)) = Some r /\ drop k l = take (S n) (drop k l) ++ drop (k + S n) l /\
    l = take (k + n) l ++ r :: drop (k + S n) l.
Proof.
  intros H. destruct (lookup_lt_is_Some_2 l (k + n)%nat H) as [r Hr]. exists r. split; [|split].
  - rewrite last_lookup, length_take, length_drop. rewrite lookup_take.
    replace (Init.Nat.pred (S n `min` (length l - k))) with n by lia.
    rewrite decide_True by lia. by rewrite lookup_drop.
  - rewrite <- drop_drop. by rewrite take_drop.
  - rewrite Nat.add_succ_r. symmetry. by apply take_drop_middle.
Qed.

Lemma list_filter_sorted {A} (R : A -> A -> Prop) (p : A -> bool) l :
  StronglySorted R l -> StronglySorted R (list_filter p l).
Proof.
  unfold list_filter. induction 1 as [|x l Hs IH Hall]; simpl; [constructor|].
  destruct (p x); [|done]. constructor; [done|].
  rewrite Forall_forall in *. intros y [Hy _]%(elem_of_list_filter p y l). by apply Hall.
Qed.

Lemma list_filter_and {A} (p q : A -> bool) l :
  list_filter p (list_filter q l) = list_filter (fun x => q x && p x) l.
Proof.
  unfold list_filter. induction l as [|x l IH]; simpl; [done|].
  destruct (q x); simpl; [|done]. destruct (p x); by rewrite IH.
Qed.

(** The tag a query asks for, as it is bound. *)
Definition bound_tag (tg : string) : string :=
  bind_text (string_of (TagExtractor.normalize_tag (bytes_of tg))).

Lemma page_rows_elem tag pid db c :
  c ∈ page_rows tag pid db <->
  c ∈ cards db /\
  match tag with
  | None => True
  | Some tg => exists g, g ∈ card_tags db /\ tag_project_id g = bind_text pid /\
                 tag_card_id g = card_id c /\ tag_name g = bound_tag tg
  end.
Proof.
  destruct tag as [tg|]; simpl; [|naive_solver]. fold (bound_tag tg).
  rewrite list_elem_of_In, in_flat_map. split.
  - intros (g & Hg & Hc). destruct (String.eqb_spec (tag_project_id g) (bind_text pid)) as [Hp|]; [|done].
    destruct (String.eqb_spec (tag_name g) (bound_tag tg)) as [Hn|]; [|done]. simpl in Hc.
    apply list_elem_of_In, elem_of_list_filter in Hc as [Hc He%String.eqb_eq].
    split; [done|]. exists g. rewrite list_elem_of_In. by repeat split.
  - intros (Hc & g & Hg & Hp & Hi & Hn). exists g. rewrite <- list_elem_of_In. split; [done|].
    rewrite Hp, Hn, !String.eqb_refl. simpl. rewrite <- list_elem_of_In.
    apply elem_of_list_filter. by rewrite Hi, String.eqb_refl.
Qed.

Lemma page_rows_nodup tag pid db :
  cards_wf db -> card_tags_wf db -> NoDup (map card_id (page_rows tag pid db)).
Proof.
  intros W. destruct tag as [tg|]; simpl; [|intros; apply W].
  unfold card_tags_wf. fold (bound_tag tg). induction (card_tags db) as [|g gs IH]; simpl; [constructor|].
  intros [Hg Hn]%NoDup_cons. specialize (IH Hn).
  destruct (String.eqb_spec (tag_project_id g) (bind_text pid)) as [Hp|]; [|done].
  destruct (String.eqb_spec (tag_name g) (bound_tag tg)) as [Ht|]; [|done]. simpl.
  rewrite map_app. apply list.NoDup_app. split; [apply NoDup_map_filter, W|]. split; [|done].
  intros i (c & [_ Hi%String.eqb_eq]%elem_of_list_filter & ->)%elem_of_map_id (d & Hd & He)%elem_of_map_id.
  apply list_elem_of_In, in_flat_map in Hd as (g' & Hg' & Hd).
  destruct (String.eqb_spec (tag_project_id g') (bind_text pid)) as [Hp'|]; [|done].
  destruct (String.eqb_spec (tag_name g') (bound_tag tg)) as [Ht'|]; [|done]. simpl in Hd.
  apply list_elem_of_In, elem_of_list_filter in Hd as [_ Hd%String.eqb_eq].
  apply Hg, elem_of_map_id. exists g'. rewrite list_elem_of_In. split; [done|].
  congruence.
Qed.

#[export] Instance page_order_ord order : CmpOrd (page_order order).
Proof. destruct order; simpl; unfold by_card_id, by_recency; apply _. Qed.

Lemma page_order_eq order c d : page_order order c d = Eq -> card_id c = card_id d.
Proof.
  destruct order; simpl; unfold by_card_id, by_recency, cmp_lex, cmp_rev, cmp_on.
  - apply string_compare_eq.
  - destruct (_ ?= _); [|done|done]. intros ->%string_compare_eq. done.
Qed.

Section PageSection.
Context `{!SqlEngineLaws E} (db : Db) (pid : string) (q : CardPageQuery).
Context (W : cards_wf db) (WT : card_tags_wf db)
    (Hne : forall c, c ∈ cards db -> card_id c <> ""%string).

Let rows := page_rows (query_tag q) pid db.
Let cmp := page_order (query_order q).
Let base := page_filter pid (with_cursor None q).
Let full := sql_select base cmp rows.

Definition cursor_at (c : Card) : CardPageCursor := mkCursor (card_id c) (Some (updated_at c)).

Lemma rows_inj x y : x ∈ rows -> y ∈ rows -> cmp x y = Eq -> x = y.
Proof.
    intros Hx Hy He%page_order_eq. apply (NoDup_map_inj card_id rows); [|done..].
    by apply page_rows_nodup.
Qed.

Lemma full_sorted : StronglySorted (cmp_le cmp) full.
Proof. apply sql_select_sorted. apply _. Qed.

Lemma full_nodup : NoDup full.
Proof.
    unfold full. rewrite sql_select_perm. apply (NoDup_fmap_1 card_id).
    apply NoDup_map_filter. by apply page_rows_nodup.
Qed.

Lemma full_rows x : x ∈ full -> x ∈ rows.
Proof. unfold full. by intros [? _]%sql_select_elem. Qed.

Lemma cursor_clause r c :
    r ∈ rows ->
    page_cursor_clause (query_order q) (Some (cursor_at r)) c = cmp_ltb cmp r c.
Proof.
    intros Hr. apply page_rows_elem in Hr as [Hr _]. destruct (proj1 (bind_card_id r) (wf_text db W r Hr)) as [Ht _].
    unfold cmp. destruct (query_order q); simpl; rewrite Ht.
    - done.
    - unfold cmp_ltb, by_recency, cmp_lex, cmp_rev, cmp_on, str_ltb, cmp_ltb.
      destruct (updated_at c ?= updated_at r) eqn:Ec.
      + apply Z.compare_eq in Ec as ->. by rewrite Z.ltb_irrefl, Z.eqb_refl.
      + apply Z.compare_lt_iff, Z.ltb_lt in Ec as ->. done.
      + apply Z.compare_gt_iff in Ec. rewrite (proj2 (Z.ltb_ge _ _)), (proj2 (Z.eqb_neq _ _)) by lia. done.
Qed.

  (** The query after a row selects exactly what follows it in the whole list. *)
Lemma select_after l1 r l2 :
    full = l1 ++ r :: l2 ->
    sql_select (page_filter pid (with_cursor (Some (cursor_at r)) q)) cmp rows = l2.
Proof.
    intros Hf. pose proof full_sorted as Hs. pose proof full_nodup as Hn.
    assert (Hinj : forall x y, x ∈ full -> y ∈ full -> cmp x y = Eq -> x = y).
    { intros x y Hx%full_rows Hy%full_rows. by apply rows_inj. }
    assert (Hr : r ∈ rows) by (apply full_rows; rewrite Hf; set_solver).
    rewrite Hf in Hs, Hn, Hinj. rewrite <- (filter_after cmp l1 r l2 Hs Hn Hinj), <- Hf.
    apply (StronglySorted_perm_eq cmp).
    - intros x y [Hx _]%sql_select_elem [Hy _]%sql_select_elem. by apply rows_inj.
    - apply sql_select_sorted. apply _.
    - apply list_filter_sorted, full_sorted.
    - unfold full. rewrite !sql_select_perm, list_filter_and.
      apply reflexive_eq, List.filter_ext. intros c. unfold base, page_filter.
      cbn [with_cursor query_parent query_order query_cursor].
      by rewrite (cursor_clause r c Hr), andb_true_r.
Qed.

Lemma all_pages_from fuel : forall k cur n,
    (n <= 999)%nat -> (length full - k < fuel)%nat -> (k <= length full)%nat ->
    (forall cur', check_page_query (with_cursor None q) 1 = Ok tt ->
      match cur' with Some c => exists r, c = cursor_at r /\ r ∈ rows | None => True end ->
      check_page_query (with_cursor cur' q) (Z.of_nat (S n) + 1) = Ok tt) ->
    check_page_query (with_cursor None q) 1 = Ok tt ->
    match cur with Some c => exists r, c = cursor_at r /\ r ∈ rows | None => True end ->
    sql_select (page_filter pid (with_cursor cur q)) cmp rows = drop k full ->
    exists pages, all_pages fuel db pid (with_cursor cur q) (Z.of_nat (S n)) = Ok pages /\
      concat pages = drop k full /\ Forall (fun p => (length p <= S n)%nat) pages.
Proof.
    induction fuel as [|fuel IH]; intros k cur n Hn Hf Hk Hchk Hc0 Hcur Hsel; [lia|].
    assert (list_collection_page db pid (with_cursor cur q) (Z.of_nat (S n)) =
      let metadata := take (S (S n)) (drop k full) in
      if Z.ltb (Z.of_nat (S n)) (Z.of_nat (length metadata)) then
        Ok (mkPage (take (S n) (drop k full)) (cursor_at <$> last (take (S n) (drop k full))))
      else Ok (mkPage metadata None)) as Hpage.
    { unfold list_collection_page. rewrite (proj2 (Z.leb_gt _ _)), (proj2 (Z.ltb_ge _ _)) by lia.
      simpl orb. cbv iota. unfold CardRepo.list_collection_page.
      rewrite (Hchk cur Hc0 Hcur). cbn [rbind with_cursor query_order query_tag]. fold rows cmp.
      change (page_order (query_order q)) with cmp. rewrite Hsel. unfold sql_limit.
      replace (Z.to_nat (Z.of_nat (S n) + 1)) with (S (S n)) by lia. rewrite Nat2Z.id.
      cbv zeta. destruct (Z.ltb _ _); [|done]. rewrite take_take.
      by replace (S n `min` S (S n))%nat with (S n) by lia. }
    cbn [all_pages]. rewrite Hpage. cbv zeta. rewrite length_take, length_drop.
    destruct (Z.ltb_spec (Z.of_nat (S n)) (Z.of_nat (S (S n) `min` (length full - k)))) as [Hlt|Hge].
    - destruct (take_S_drop full k n) as (r & Hlast & Hsplit & Hfull); [lia|].
      rewrite Hlast. cbn [rbind next_cursor page_cards fmap option_fmap option_map].
      assert (Hr : r ∈ rows) by (apply full_rows; rewrite Hfull; set_solver).
      destruct (IH (k + S n)%nat (Some (cursor_at r)) n) as (pages & Hp & Hconcat & Hlen);
        [done|lia|lia|done|done|by exists r| |].
      { apply (select_after (take (k + n) full)). done. }
      change (with_cursor (Some (cursor_at r)) (with_cursor cur q))
        with (with_cursor (Some (cursor_at r)) q).
      rewrite Hp. exists (take (S n) (drop k full) :: pages). split; [done|]. split.
      + simpl concat. by rewrite Hconcat, <- Hsplit.
      + constructor; [rewrite length_take; lia|done].
    - exists [take (S (S n)) (drop k full)]. split; [done|]. simpl concat. rewrite app_nil_r.
      rewrite take_ge by (rewrite length_drop; lia). split; [done|].
      constructor; [rewrite length_drop; lia|constructor].
Qed.
End PageSection.
End CollectionPageFacts.

Module CollectionPageTheorems.
Import CollectionPages CollectionPageFacts.

(** C31: following the cursors from the first page visits every live card the query
    selects exactly once, in the order asked for, on pages of at most [limit] cards,
    and stops: no page repeats, skips or reorders a card, for either order, with or
    without a tag, whatever order the engine picks among equal rows. *)
Theorem collection_pages_complete (E : SqlEngine) (db : Db) (pid : string) (q : CardPageQuery)
    (limit : Z) :
  SqlEngineLaws E -> cards_wf db -> card_tags_wf db ->
  (forall c, c ∈ cards db -> card_id c <> ""%string) ->
  (0 < limit <= 1000)%Z -> query_cursor q = None -> check_page_query q limit = Ok tt ->
  exists pages,
    all_pages (S (length (page_rows (query_tag q) pid db))) db pid q limit = Ok pages /\
    StronglySorted (cmp_le (page_order (query_order q))) (concat pages) /\
    NoDup (concat pages) /\
    Forall (fun p => (Z.of_nat (length p) <= limit)%Z) pages /\
    forall c, c ∈ concat pages <->
      c ∈ cards db /\ page_filter pid q c = true /\
      match query_tag q with
      | None => True
      | Some tg => exists g, g ∈ card_tags db /\ tag_project_id g = bind_text pid /\
                     tag_card_id g = card_id c /\ tag_name g = bound_tag tg
      end.
Proof.
  intros L W WT Hne Hl Hcur Hchk.
  assert (with_cursor None q = q) as Hq by (destruct q; simpl in *; by subst).
  assert (exists n, limit = Z.of_nat (S n) /\ (n <= 999)%nat) as (n & -> & Hn).
  { exists (Z.to_nat limit - 1)%nat. lia. }
  assert (Hpos : forall m, (0 < m)%Z -> check_page_query q m = Ok tt).
  { intros m Hm. unfold check_page_query in *.
    rewrite (proj2 (Z.leb_gt _ _)) in Hchk by lia. rewrite (proj2 (Z.leb_gt _ _)) by lia. done. }
  destruct (all_pages_from db pid q W WT Hne (S (length (page_rows (query_tag q) pid db))) 0 None n)
    as (pages & Hp & Hconcat & Hlen); try done.
  - rewrite sql_select_perm. unfold list_filter. pose proof (List.filter_length_le
      (page_filter pid (with_cursor None q)) (page_rows (query_tag q) pid db)). lia.
  - lia.
  - intros cur' Hc0 Hc. destruct cur' as [c|]; [|rewrite Hq; apply Hpos; lia].
    destruct Hc as (r & -> & Hr). rewrite Hq in Hc0. unfold check_page_query in *.
    rewrite (proj2 (Z.leb_gt _ _)) in * by lia. rewrite Hcur in Hc0.
    cbn [with_cursor query_parent query_cursor query_order query_tag cursor_card_id cursor_at cursor_updated_at].
    apply page_rows_elem in Hr as [Hr _]. apply Hne, String.eqb_neq in Hr as ->.
    destruct (match query_parent q with PageChildrenOf p => String.eqb p "" | _ => false end); [done|].
    destruct (query_order q); done.
  - rewrite Hq. apply Hpos. lia.
  - pose proof (full_sorted db pid q) as Hs. pose proof (full_nodup db pid q W WT) as Hn'.
    rewrite Hq in *. exists pages. split; [done|]. rewrite Hconcat, drop_0.
    split; [done|]. split; [done|]. split; [eapply Forall_impl; [done|]; simpl; lia|].
    intros c. rewrite sql_select_elem, page_rows_elem. naive_solver.
Qed.

(** Five cards of one project, two of them tagged, read two at a time. *)
Definition paged_db : Db :=
  core_db [CardRepoTheorems.sample_project]
    (map (fun id => CardRepoTheorems.sample_card id None 1) ["aaaa"; "bbbb"; "cccc"; "dddd"; "eeee"]%string)
    [] [mkCardTag "p" "dddd" "plan" 1; mkCardTag "p" "bbbb" "plan" 1] [] [].

Lemma paged_db_wf : cards_wf paged_db /\ card_tags_wf paged_db /\
  forall c, c ∈ cards paged_db -> card_id c <> ""%string.
Proof.
  split; [|split].
  - split; simpl.
    all: try (intros c Hc; repeat (apply elem_of_cons in Hc as [->|Hc]; [done|]); set_solver).
    all: repeat constructor; set_solver.
  - unfold card_tags_wf. simpl. repeat constructor; set_solver.
  - intros c Hc. simpl in Hc. repeat (apply elem_of_cons in Hc as [->|Hc]; [done|]). set_solver.
Qed.

Definition tagged_query : CardPageQuery := mkPageQuery (Some "Plan"%string) PageAll CardIdAsc None.

Example collection_pages_complete_witness :
  exists pages, all_pages (E:=reference_engine) 3 paged_db "p" tagged_query 1 = Ok pages /\
    map card_id (concat pages) = ["bbbb"; "dddd"]%string.
Proof.
  destruct paged_db_wf as (W & WT & Hne).
  destruct (collection_pages_complete reference_engine paged_db "p" tagged_query 1
    reference_engine_laws W WT Hne ltac:(lia) eq_refl eq_refl) as (pages & Hp & _).
  exists pages. split; [exact Hp|]. vm_compute in Hp. injection Hp as <-. reflexivity.
Defined.
End CollectionPageTheorems.
