(* ===== verification/Uuid.v ===== *)
(** * Card and project identifiers

    [src/src/identity/Uuid.cpp] and [src/src/card/CardPaths.cpp]. The random bytes
    come from libsodium and the time from the system clock; both are arguments. A
    byte is an integer from 0 to 255. *)

From stdpp Require Import base list strings numbers.
From Stdlib Require Import Ascii.
From S2P Require Import Prelude Model Text.

Module Uuid.

Definition is_hex_digit (value : ascii) : bool :=
  in_range "0" "9" value || in_range "a" "f" value || in_range "A" "F" value.

Definition kHex : bytes := bytes_of "0123456789abcdef".
Definition hex_char (n : Z) : ascii := nth (Z.to_nat n) kHex "0"%char.

(** The loop body: two digits, and a hyphen after bytes 3, 5, 7 and 9. *)
Definition format_byte (i : nat) (b : Z) : bytes :=
  hex_char (Z.shiftr b 4) :: hex_char (Z.land b 15) ::
  (if Nat.eqb i 3 || Nat.eqb i 5 || Nat.eqb i 7 || Nat.eqb i 9 then ["-"%char] else []).

Fixpoint format_from (i : nat) (bs : list Z) : bytes :=
  match bs with
  | [] => []
  | b :: bs' => format_byte i b ++ format_from (S i) bs'
  end.
Definition format_uuid (bs : list Z) : bytes := format_from 0 bs.

(** [bytes[i] = f(bytes[i])]. *)
Definition set_byte (i : nat) (b : Z) (bs : list Z) : list Z := <[i := b]> bs.
Definition byte_at (i : nat) (bs : list Z) : Z := nth i bs 0%Z.

(** The version in byte 6 and the variant in byte 8. *)
Definition stamp (version : Z) (bs : list Z) : list Z :=
  let bs := set_byte 6 (Z.lor (Z.land (byte_at 6 bs) 15) version) bs in
  set_byte 8 (Z.lor (Z.land (byte_at 8 bs) 63) 128) bs.

Definition uuid_v4 (random : list Z) : bytes := format_uuid (stamp 64 random).

Definition uuid_v7 (random : list Z) (now_ms : Z) : result bytes :=
  if Z.ltb now_ms 0 || Z.ltb 281474976710655 now_ms
  then Err (Runtime "system clock outside UUIDv7 range")
  else
    let bs := set_byte 0 (Z.land (Z.shiftr now_ms 40) 255) random in
    let bs := set_byte 1 (Z.land (Z.shiftr now_ms 32) 255) bs in
    let bs := set_byte 2 (Z.land (Z.shiftr now_ms 24) 255) bs in
    let bs := set_byte 3 (Z.land (Z.shiftr now_ms 16) 255) bs in
    let bs := set_byte 4 (Z.land (Z.shiftr now_ms 8) 255) bs in
    let bs := set_byte 5 (Z.land now_ms 255) bs in
    Ok (format_uuid (stamp 112 bs)).

Definition generate_id (scheme : IdScheme) (random : list Z) (now_ms : Z) : result bytes :=
  match scheme with
  | Uuid4 => Ok (uuid_v4 random)
  | Uuid7 => uuid_v7 random now_ms
  end.

Definition is_hyphen_position (index : nat) : bool :=
  Nat.eqb index 8 || Nat.eqb index 13 || Nat.eqb index 18 || Nat.eqb index 23.

Fixpoint check_digits (index : nat) (value : bytes) : bool :=
  match value with
  | [] => true
  | c :: rest =>
      (if is_hyphen_position index then Ascii.eqb c "-" else is_hex_digit c)
      && check_digits (S index) rest
  end.

Definition is_valid_uuid (value : bytes) : bool :=
  if negb (Nat.eqb (length value) 36) then false
  else if negb (check_digits 0 value) then false
  else
    let version := nth 14 value "000"%char in
    if negb (Ascii.eqb version "4") && negb (Ascii.eqb version "7") then false
    else
      let variant := nth 19 value "000"%char in
      existsb (Ascii.eqb variant) (bytes_of "89aAbB").

End Uuid.

Module CardPaths.

Definition card_rel_path (card_id : string) : result string :=
  if Nat.ltb (String.length card_id) 4
  then Err (Runtime "card_id too short for path sharding")
  else
    let first := String.substring 0 2 card_id in
    let second := String.substring 2 2 card_id in
    Ok ("cards/" +:+ first +:+ "/" +:+ second +:+ "/" +:+ card_id +:+ ".md")%string.

Definition card_trash_rel_path (card_id : string) : result string :=
  let? p := card_rel_path card_id in Ok ("trash/" +:+ p)%string.

End CardPaths.

Module UuidFacts.
Import Uuid.

Definition is_byte (b : Z) : Prop := (0 <= b < 256)%Z.

(** A property of one byte, checked at each of the 256. *)
Lemma byte_forall (p : Z -> bool) :
  forallb p (map Z.of_nat (seq 0 256)) = true -> forall b, is_byte b -> p b = true.
Proof.
  rewrite forallb_forall. intros H b Hb. apply H. apply in_map_iff.
  exists (Z.to_nat b). unfold is_byte in Hb. split; [lia|]. apply in_seq. lia.
Qed.

Lemma format_byte_hex b :
  is_byte b ->
  is_hex_digit (hex_char (Z.shiftr b 4)) = true /\ is_hex_digit (hex_char (Z.land b 15)) = true.
Proof.
  intros Hb. apply andb_true_iff. revert b Hb.
  apply (byte_forall (fun b => _ && _)). vm_compute. reflexivity.
Qed.

Lemma land_byte x : is_byte (Z.land x 255).
Proof.
  unfold is_byte. replace (Z.land x 255) with (x mod 2 ^ 8)%Z.
  - apply Z.mod_pos_bound. lia.
  - change 255%Z with (Z.ones 8). by rewrite Z.land_ones by lia.
Qed.

Lemma version_byte v b :
  is_byte b -> v = 64%Z \/ v = 112%Z ->
  is_byte (Z.lor (Z.land b 15) v) /\
  (Ascii.eqb (hex_char (Z.shiftr (Z.lor (Z.land b 15) v) 4)) "4"
   || Ascii.eqb (hex_char (Z.shiftr (Z.lor (Z.land b 15) v) 4)) "7") = true.
Proof.
  intros Hb Hv.
  assert (Hall : forall b, is_byte b ->
    (Z.leb 0 (Z.lor (Z.land b 15) v) && Z.ltb (Z.lor (Z.land b 15) v) 256
     && (Ascii.eqb (hex_char (Z.shiftr (Z.lor (Z.land b 15) v) 4)) "4"
         || Ascii.eqb (hex_char (Z.shiftr (Z.lor (Z.land b 15) v) 4)) "7")) = true).
  { destruct Hv as [->| ->]; apply (byte_forall (fun b => _ && _ && _)); vm_compute; reflexivity. }
  specialize (Hall b Hb). apply andb_true_iff in Hall as [[H1%Z.leb_le H2%Z.ltb_lt]%andb_true_iff H3].
  by split.
Qed.

Lemma variant_byte b :
  is_byte b ->
  is_byte (Z.lor (Z.land b 63) 128) /\
  existsb (Ascii.eqb (hex_char (Z.shiftr (Z.lor (Z.land b 63) 128) 4))) (bytes_of "89aAbB") = true.
Proof.
  intros Hb.
  assert (Hall : forall b, is_byte b ->
    (Z.leb 0 (Z.lor (Z.land b 63) 128) && Z.ltb (Z.lor (Z.land b 63) 128) 256
     && existsb (Ascii.eqb (hex_char (Z.shiftr (Z.lor (Z.land b 63) 128) 4))) (bytes_of "89aAbB")) = true).
  { apply (byte_forall (fun b => _ && _ && _)); vm_compute; reflexivity. }
  specialize (Hall b Hb). apply andb_true_iff in Hall as [[H1%Z.leb_le H2%Z.ltb_lt]%andb_true_iff H3].
  by split.
Qed.

(** A list of sixteen, spelled out. *)
Lemma list16 {A} (l : list A) :
  length l = 16%nat ->
  exists a b c d e f g h i j k m n o p q, l = [a; b; c; d; e; f; g; h; i; j; k; m; n; o; p; q].
Proof.
  intros H. do 16 (destruct l as [|? l]; [done|]). destruct l; [|done].
  repeat eexists.
Qed.

Lemma stamped_valid v bs :
  length bs = 16%nat -> Forall is_byte bs -> v = 64%Z \/ v = 112%Z ->
  is_valid_uuid (format_uuid (stamp v bs)) = true.
Proof.
  intros Hlen Hb Hv.
  destruct (list16 bs Hlen) as (a & b & c & d & e & f & g & h & i & j & k & m & n & o & p & q & ->).
  rewrite !list.Forall_cons in Hb.
  destruct Hb as (Ha & Hb & Hc & Hd & He & Hf & Hg & Hh & Hi & Hj & Hk & Hm & Hn & Ho & Hp & Hq & _).
  destruct (version_byte v g Hg Hv) as [Hg' Hver]. destruct (variant_byte i Hi) as [Hi' Hvar].
  unfold stamp, set_byte, byte_at. cbn [nth insert list_insert].
  set (g' := Z.lor (Z.land g 15) v) in *. set (i' := Z.lor (Z.land i 63) 128) in *.
  unfold is_valid_uuid.
  assert (check_digits 0 (format_uuid [a; b; c; d; e; f; g'; h; i'; j; k; m; n; o; p; q]) = true) as ->.
  { unfold format_uuid. cbn -[is_hex_digit hex_char Z.shiftr Z.land].
    by repeat match goal with Hx : is_byte ?x |- context [hex_char (Z.shiftr ?x 4)] =>
      destruct (format_byte_hex x Hx) as [-> ->]; clear Hx end. }
  cbn -[hex_char Z.shiftr Z.land Ascii.eqb bytes_of existsb].
  rewrite Hvar. apply orb_true_iff in Hver as [-> | ->]; [done|].
  by rewrite andb_false_r.
Qed.

(** ** Order of formatted identifiers *)

Definition bcmp (l1 l2 : bytes) : comparison := String.compare (string_of l1) (string_of l2).

Lemma bcmp_cons_eq c l1 l2 : bcmp (c :: l1) (c :: l2) = bcmp l1 l2.
Proof.
  unfold bcmp, string_of. simpl. unfold Ascii.compare. by rewrite N.compare_refl.
Qed.

Lemma bcmp_app_eq p l1 l2 : bcmp (p ++ l1) (p ++ l2) = bcmp l1 l2.
Proof. induction p as [|c p IH]; simpl; [done|]. by rewrite bcmp_cons_eq. Qed.

Lemma bcmp_cons_lt c1 c2 l1 l2 : Ascii.compare c1 c2 = Lt -> bcmp (c1 :: l1) (c2 :: l2) = Lt.
Proof. intros H. unfold bcmp, string_of. simpl. by rewrite H. Qed.

Lemma hex_char_lt n m : (0 <= n < m)%Z -> (m < 16)%Z -> Ascii.compare (hex_char n) (hex_char m) = Lt.
Proof.
  intros Hn Hm.
  assert (forallb (fun m => forallb (fun n => match Ascii.compare (hex_char (Z.of_nat n)) (hex_char (Z.of_nat m))
            with Lt => true | _ => false end) (seq 0 m)) (seq 0 16) = true) as Hall
    by (vm_compute; reflexivity).
  assert (In (Z.to_nat m) (seq 0 16)) as Im by (apply in_seq; lia).
  assert (In (Z.to_nat n) (seq 0 (Z.to_nat m))) as In' by (apply in_seq; lia).
  rewrite forallb_forall in Hall. specialize (Hall _ Im).
  rewrite forallb_forall in Hall. specialize (Hall _ In').
  rewrite !Z2Nat.id in Hall by lia. by destruct (Ascii.compare _ _).
Qed.

Lemma nibbles b : is_byte b -> Z.shiftr b 4 = (b / 16)%Z /\ Z.land b 15 = (b mod 16)%Z.
Proof.
  intros _. split; [by rewrite Z.shiftr_div_pow2 by lia|].
  change 15%Z with (Z.ones 4). by rewrite Z.land_ones by lia.
Qed.

Lemma format_byte_lt i b1 b2 l1 l2 :
  is_byte b1 -> is_byte b2 -> (b1 < b2)%Z ->
  bcmp (format_byte i b1 ++ l1) (format_byte i b2 ++ l2) = Lt.
Proof.
  intros H1 H2 Hlt. unfold format_byte.
  destruct (nibbles b1 H1) as [-> ->], (nibbles b2 H2) as [-> ->]. unfold is_byte in *.
  pose proof (Z.div_mod b1 16 ltac:(lia)). pose proof (Z.div_mod b2 16 ltac:(lia)).
  pose proof (Z.mod_pos_bound b1 16 ltac:(lia)). pose proof (Z.mod_pos_bound b2 16 ltac:(lia)).
  destruct (decide (b1 / 16 = b2 / 16)%Z) as [He|Hne].
  - rewrite He. simpl. rewrite bcmp_cons_eq. apply bcmp_cons_lt, hex_char_lt; lia.
  - simpl. apply bcmp_cons_lt, hex_char_lt; lia.
Qed.

(** Identifiers of different lists of bytes compare as the lists do. *)
Fixpoint bytes_lt (bs1 bs2 : list Z) : Prop :=
  match bs1, bs2 with
  | b1 :: bs1', b2 :: bs2' => (b1 < b2)%Z \/ (b1 = b2 /\ bytes_lt bs1' bs2')
  | _, _ => False
  end.

Lemma format_from_lt bs1 bs2 i :
  Forall is_byte bs1 -> Forall is_byte bs2 -> bytes_lt bs1 bs2 ->
  bcmp (format_from i bs1) (format_from i bs2) = Lt.
Proof.
  intros H1. revert bs2 i. induction H1 as [|b1 bs1 Hb1 H1 IH]; intros bs2 i H2 Hlt; [done|].
  destruct H2 as [|b2 bs2 Hb2 H2]; [done|]. cbn [format_from bytes_lt] in *.
  destruct Hlt as [Hlt|[-> Hlt]]; [by apply format_byte_lt|]. rewrite bcmp_app_eq. by apply IH.
Qed.

(** The bytes [uuid_v7] formats. *)
Definition v7_bytes (random : list Z) (t : Z) : list Z :=
  [Z.land (Z.shiftr t 40) 255; Z.land (Z.shiftr t 32) 255; Z.land (Z.shiftr t 24) 255;
   Z.land (Z.shiftr t 16) 255; Z.land (Z.shiftr t 8) 255; Z.land t 255] ++ drop 6 random.

Lemma uuid_v7_bytes random t :
  length random = 16%nat -> (0 <= t <= 281474976710655)%Z ->
  uuid_v7 random t = Ok (format_uuid (stamp 112 (v7_bytes random t))).
Proof.
  intros Hlen Ht. unfold uuid_v7.
  rewrite (proj2 (Z.ltb_ge _ _)), (proj2 (Z.ltb_ge _ _)) by lia. simpl orb. cbv iota zeta.
  destruct (list16 random Hlen) as (? & ? & ? & ? & ? & ? & ? & ? & ? & ? & ? & ? & ? & ? & ? & ? & ->).
  done.
Qed.

Lemma v7_bytes_ok random t :
  length random = 16%nat -> Forall is_byte random ->
  length (v7_bytes random t) = 16%nat /\ Forall is_byte (v7_bytes random t).
Proof.
  intros Hlen Hb. unfold v7_bytes. split.
  - rewrite length_app, length_drop. simpl. lia.
  - apply Forall_app. split; [|by apply Forall_drop]. repeat constructor; apply land_byte.
Qed.

Lemma stamp_bytes v bs :
  length bs = 16%nat -> Forall is_byte bs -> v = 64%Z \/ v = 112%Z ->
  take 6 (stamp v bs) = take 6 bs /\ Forall is_byte (stamp v bs).
Proof.
  intros Hlen Hb Hv.
  destruct (list16 bs Hlen) as (a & b & c & d & e & f & g & h & i & j & k & m & n & o & p & q & ->).
  rewrite !list.Forall_cons in Hb.
  destruct Hb as (Ha & Hb & Hc & Hd & He & Hf & Hg & Hh & Hi & Hj & Hk & Hm & Hn & Ho & Hp & Hq & _).
  split; [done|]. unfold stamp, set_byte, byte_at. cbn [nth insert list_insert].
  repeat (apply Forall_cons; [|try done]).
  all: try done.
  - by apply version_byte.
  - by apply variant_byte.
Qed.

Lemma bytes_lt_app_l p1 p2 l1 l2 : bytes_lt p1 p2 -> bytes_lt (p1 ++ l1) (p2 ++ l2).
Proof.
  revert p2. induction p1 as [|b1 p1 IH]; intros [|b2 p2]; simpl; try done.
  intros [H|[H1 H2]]; [by left|right]. split; [done|]. by apply IH.
Qed.

(** The six base-256 digits of a 48-bit number, by repeated division. *)
Lemma digits48 t :
  (0 <= t <= 281474976710655)%Z ->
  exists a1 a2 a3 a4 a5,
    v7_bytes [] t = [a5; a4 - 256 * a5; a3 - 256 * a4; a2 - 256 * a3; a1 - 256 * a2; t - 256 * a1]%Z /\
    (0 <= t - 256 * a1 < 256 /\ 0 <= a1 - 256 * a2 < 256 /\ 0 <= a2 - 256 * a3 < 256 /\
     0 <= a3 - 256 * a4 < 256 /\ 0 <= a4 - 256 * a5 < 256 /\ 0 <= a5 < 256)%Z.
Proof.
  intros Ht.
  assert (Hd : forall x, Z.land x 255 = (x - 256 * (x / 256))%Z).
  { intros x. change 255%Z with (Z.ones 8). rewrite Z.land_ones by lia. change (2 ^ 8)%Z with 256%Z.
    pose proof (Z.div_mod x 256 ltac:(lia)). lia. }
  assert (Hm : forall x, (0 <= x - 256 * (x / 256) < 256)%Z).
  { intros x. pose proof (Z.div_mod x 256 ltac:(lia)). pose proof (Z.mod_pos_bound x 256 ltac:(lia)). lia. }
  assert (Hs : forall k, (0 <= k)%Z -> Z.shiftr t (8 * (k + 1)) = (Z.shiftr t (8 * k) / 256)%Z).
  { intros k Hk. rewrite !Z.shiftr_div_pow2, Z.div_div by (try apply Z.pow_pos_nonneg; lia).
    f_equal. rewrite Z.mul_add_distr_l, Z.pow_add_r by lia. done. }
  pose proof (Hs 0 ltac:(lia)) as S1. pose proof (Hs 1 ltac:(lia)) as S2. pose proof (Hs 2 ltac:(lia)) as S3.
  pose proof (Hs 3 ltac:(lia)) as S4. pose proof (Hs 4 ltac:(lia)) as S5.
  change (8 * (0 + 1))%Z with 8%Z in S1. change (8 * 0)%Z with 0%Z in S1. rewrite Z.shiftr_0_r in S1.
  change (8 * (1 + 1))%Z with 16%Z in S2. change (8 * 1)%Z with 8%Z in S2.
  change (8 * (2 + 1))%Z with 24%Z in S3. change (8 * 2)%Z with 16%Z in S3.
  change (8 * (3 + 1))%Z with 32%Z in S4. change (8 * 3)%Z with 24%Z in S4.
  change (8 * (4 + 1))%Z with 40%Z in S5. change (8 * 4)%Z with 32%Z in S5.
  exists (t / 256)%Z, (t / 256 / 256)%Z, (t / 256 / 256 / 256)%Z, (t / 256 / 256 / 256 / 256)%Z,
    (t / 256 / 256 / 256 / 256 / 256)%Z.
  unfold v7_bytes. rewrite S5, S4, S3, S2, S1, !Hd.
  assert (t / 256 / 256 / 256 / 256 / 256 / 256 = 0)%Z as ->.
  { rewrite !Z.div_div by lia. apply Z.div_small. lia. }
  split; [simpl; do 2 f_equal; lia|]. repeat (split; [apply Hm|]).
  rewrite !Z.div_div by lia. split; [apply Z.div_pos; lia|apply Z.div_lt_upper_bound; lia].
Qed.

(** Big-endian digits to base 256 order 48-bit numbers. *)
Lemma timestamp_lt r1 r2 t1 t2 :
  (0 <= t1)%Z -> (t1 < t2)%Z -> (t2 <= 281474976710655)%Z ->
  bytes_lt (take 6 (v7_bytes r1 t1)) (take 6 (v7_bytes r2 t2)).
Proof.
  intros H0 Hlt Hmax.
  assert (Ht : forall r t, take 6 (v7_bytes r t) = v7_bytes [] t) by (intros; unfold v7_bytes; simpl; done).
  rewrite !Ht.
  destruct (digits48 t1) as (a1 & a2 & a3 & a4 & a5 & -> & HA); [lia|].
  destruct (digits48 t2) as (b1 & b2 & b3 & b4 & b5 & -> & HB); [lia|].
  simpl. lia.
Qed.
End UuidFacts.

Module UuidTheorems.
Import Uuid UuidFacts CardPaths.

(** every identifier the generator makes is one the validator accepts: sixteen
    arbitrary random bytes give a valid version-4 identifier, and a valid version-7
    one at every time of the 48-bit range, outside which it fails. *)
Theorem generated_id_valid (scheme : IdScheme) (random : list Z) (now_ms : Z) :
  length random = 16%nat -> Forall is_byte random ->
  match generate_id scheme random now_ms with
  | Ok id => is_valid_uuid id = true
  | Err e => scheme = Uuid7 /\ ~ (0 <= now_ms <= 281474976710655)%Z /\
             e = Runtime "system clock outside UUIDv7 range"
  end.
Proof.
  intros Hlen Hb. destruct scheme; simpl.
  - apply stamped_valid; auto.
  - destruct (decide (0 <= now_ms <= 281474976710655)%Z) as [Ht|Ht].
    + rewrite uuid_v7_bytes by done.
      destruct (v7_bytes_ok random now_ms Hlen Hb). apply stamped_valid; auto.
    + unfold uuid_v7. destruct (Z.ltb_spec now_ms 0); simpl; [done|].
      destruct (Z.ltb_spec 281474976710655 now_ms); [done|lia].
Qed.

(** version-7 identifiers sort by creation time: of two made at different
    milliseconds, the earlier one is the smaller string, whatever the random bytes. *)
Theorem uuid_v7_time_ordered (r1 r2 : list Z) (t1 t2 : Z) (id1 id2 : bytes) :
  length r1 = 16%nat -> Forall is_byte r1 -> length r2 = 16%nat -> Forall is_byte r2 ->
  uuid_v7 r1 t1 = Ok id1 -> uuid_v7 r2 t2 = Ok id2 -> (t1 < t2)%Z ->
  str_ltb (string_of id1) (string_of id2) = true.
Proof.
  intros L1 B1 L2 B2 E1 E2 Hlt.
  assert (Hr : forall r t id, uuid_v7 r t = Ok id -> (0 <= t <= 281474976710655)%Z).
  { intros r t id. unfold uuid_v7. destruct (Z.ltb_spec t 0); [done|].
    destruct (Z.ltb_spec 281474976710655 t); [done|]. lia. }
  pose proof (Hr _ _ _ E1) as R1. pose proof (Hr _ _ _ E2) as R2.
  rewrite uuid_v7_bytes in E1, E2 by done. injection E1 as <-. injection E2 as <-.
  destruct (v7_bytes_ok r1 t1 L1 B1) as [L1' B1'], (v7_bytes_ok r2 t2 L2 B2) as [L2' B2'].
  destruct (stamp_bytes 112 _ L1' B1' (or_intror eq_refl)) as [S1 F1].
  destruct (stamp_bytes 112 _ L2' B2' (or_intror eq_refl)) as [S2 F2].
  unfold str_ltb, cmp_ltb, format_uuid.
  change (String.compare (string_of ?a) (string_of ?b)) with (bcmp a b).
  rewrite format_from_lt; [done|done|done|].
  rewrite <- (take_drop 6 (stamp 112 (v7_bytes r1 t1))), <- (take_drop 6 (stamp 112 (v7_bytes r2 t2))).
  rewrite S1, S2. apply bytes_lt_app_l. apply timestamp_lt; lia.
Qed.

Definition zero_bytes : list Z := replicate 16 0%Z.
Lemma zero_bytes_ok : length zero_bytes = 16%nat /\ Forall is_byte zero_bytes.
Proof. split; [done|]. unfold zero_bytes. apply Forall_replicate. unfold is_byte. lia. Qed.

Example generated_id_valid_witness :
  generate_id Uuid7 zero_bytes 1 = Ok (bytes_of "00000000-0001-7000-8000-000000000000") /\
  is_valid_uuid (bytes_of "00000000-0001-7000-8000-000000000000") = true.
Proof.
  split; [vm_compute; reflexivity|].
  exact (generated_id_valid Uuid7 zero_bytes 1 (proj1 zero_bytes_ok) (proj2 zero_bytes_ok)).
Defined.

Example uuid_v7_time_ordered_witness :
  str_ltb "00000000-0001-7000-8000-000000000000" "00000000-0100-7000-8000-000000000000" = true.
Proof.
  exact (uuid_v7_time_ordered zero_bytes zero_bytes 1 256
    (bytes_of "00000000-0001-7000-8000-000000000000") (bytes_of "00000000-0100-7000-8000-000000000000")
    (proj1 zero_bytes_ok) (proj2 zero_bytes_ok) (proj1 zero_bytes_ok) (proj2 zero_bytes_ok)
    eq_refl eq_refl eq_refl).
Defined.
End UuidTheorems.
