(* ===== verification/TreeOrder.v ===== *)
(** * Manual tree order

    The part of [card/CardHierarchy.cpp] that orders siblings: the comparison
    [card_tree_less], the sibling list, and the choice of sort keys for a block of
    cards that is inserted among its new siblings ([insert_block_into],
    [placed_card_changes]). Double arithmetic is rounded after each operation. *)

From stdpp Require Import base list sets strings numbers sorting.
From Stdlib Require Import Ascii SpecFloat.
From S2P Require Import Prelude Double Model Text Database CardRepo.
Import CardRepo CardRepoFacts CardRepoTheorems.

Module TreeOrder.

Definition lower (title_ : string) : string := string_of (map tolower (bytes_of title_)).

Definition card_tree_less (a b : Card) : bool :=
  if f64_ltb (sort_key a) (sort_key b) then true
  else if f64_ltb (sort_key b) (sort_key a) then false
  else if negb (Z.eqb (updated_at a) (updated_at b)) then Z.ltb (updated_at b) (updated_at a)
  else
    let lhs := lower (title a) in
    let rhs := lower (title b) in
    if negb (String.eqb lhs rhs) then str_ltb lhs rhs else str_ltb (card_id a) (card_id b).

(** The live cards under the parent of [card], in tree order. *)
Definition siblings {E : SqlEngine} (db : Db) (card : Card) : list Card :=
  let rows :=
    match parent_card_id card with
    | Some p => list_children db (card_project_id card) p
    | None => list_roots db (card_project_id card)
    end in
  sort_by card_tree_less (list_filter (fun c => negb (card_deleted c)) rows).

(** [destination.erase(remove_if(... c.card_id == id))] *)
Definition without (id : string) (l : list Card) : list Card :=
  list_filter (fun c => negb (String.eqb (card_id c) id)) l.

(** The loop of [spaced_keys] from index [i], with [todo] keys to go. *)
Fixpoint spaced_from (low high n : double) (i todo : nat) (previous : double)
    : option (list double) :=
  match todo with
  | O => Some []
  | S todo' =>
      let fraction := f64_div (f64_of_nat (i + 1)) (f64_add n (f64_of_Z 1)) in
      let key := f64_add (f64_mul low (f64_sub (f64_of_Z 1) fraction)) (f64_mul high fraction) in
      if negb (f64_is_finite key) || f64_leb key previous || f64_leb high key then None
      else cons key <$> spaced_from low high n (i + 1) todo' key
  end.

Definition spaced_keys (left right : option double) (count : nat) : option (list double) :=
  let n := f64_of_nat count in
  let bounds :=
    match left, right with
    | Some l, Some r => (l, r)
    | Some l, None => (l, f64_add (f64_add l n) (f64_of_Z 1))
    | None, Some r => (f64_sub (f64_sub r n) (f64_of_Z 1), r)
    | None, None => (f64_zero, f64_add (f64_add f64_zero n) (f64_of_Z 1))
    end in
  spaced_from (fst bounds) (snd bounds) n 0 count (fst bounds).

(** The loop over [destination[low, high)] that assigns the new keys: the new
    contents of the window and the cards that changed. *)
Fixpoint respace (at_ block_end i : nat) (updated_at_ : Z) (keys : list double)
    (window : list Card) : list Card * list Card :=
  match keys, window with
  | key :: keys', card :: window' =>
      let rest := respace at_ block_end (S i) updated_at_ keys' window' in
      if (Nat.leb at_ i && Nat.ltb i block_end) || negb (f64_eqb (sort_key card) key) then
        let card' := set_card_updated_at updated_at_ (set_card_sort_key key card) in
        (card' :: fst rest, card' :: snd rest)
      else (card :: fst rest, snd rest)
  | _, _ => (window, [])
  end.

(** The sort key of the element at [i]. *)
Definition key_at (l : list Card) (i : nat) : option double := sort_key <$> (l !! i).

(** [for (radius = 0;; radius = radius ? radius * 2 : 1)]. [None] means that [fuel]
    ran out; [insert_block_into] gives enough of it. The result is the changed
    cards and the new sibling list. *)
Fixpoint try_windows (fuel radius at_ block_end : nat) (updated_at_ : Z) (destination : list Card)
    : option (result (list Card * list Card)) :=
  match fuel with
  | O => None
  | S fuel' =>
      let low := (at_ - radius)%nat in
      let high := Nat.min (length destination) (block_end + radius) in
      let left := if Nat.eqb low 0 then None else key_at destination (low - 1) in
      let right := if Nat.ltb high (length destination) then key_at destination high else None in
      match spaced_keys left right (high - low) with
      | None =>
          if Nat.eqb low 0 && Nat.eqb high (length destination)
          then Some (Err (Runtime "no sort keys available for card placement"))
          else try_windows fuel' (if Nat.eqb radius 0 then 1 else radius * 2)
                 at_ block_end updated_at_ destination
      | Some keys =>
          let '(window, changed) :=
            respace at_ block_end low updated_at_ keys (take (high - low) (drop low destination)) in
          Some (Ok (changed, take low destination ++ window ++ drop high destination))
      end
  end.

Definition insert_block_into (destination : list Card) (at_ : nat) (block : list Card)
    (parent : option string) (updated_at_ : Z) : result (list Card * list Card) :=
  match block with
  | [] => Ok ([], destination)
  | _ =>
      let block := map (set_card_parent parent) block in
      let destination := take at_ destination ++ block ++ drop at_ destination in
      default (Err (Runtime "out of fuel"))
        (try_windows (length destination + 2) 0 at_ (at_ + length block) updated_at_ destination)
  end.

Definition insert_block (destination : list Card) (at_ : nat) (block : list Card)
    (parent : option string) (updated_at_ : Z) : result (list Card) :=
  let? r := insert_block_into destination at_ block parent updated_at_ in Ok (fst r).

Definition placed_card_changes (destination : list Card) (at_ : nat) (card : Card)
    (parent : option string) (updated_at_ : Z) : result (list Card) :=
  insert_block destination at_ [card] parent updated_at_.

End TreeOrder.

Module TreeOrderFacts.
Import TreeOrder.

(** ** The comparison *)

Definition tree_cmp : Card -> Card -> comparison :=
  cmp_lex (cmp_on sort_key f64_compare)
    (cmp_lex (cmp_rev (cmp_on updated_at Z.compare))
       (cmp_lex (cmp_on (fun c => lower (title c)) String.compare)
          (cmp_on card_id String.compare))).

#[export] Instance tree_cmp_ord : CmpOrd tree_cmp.
Proof. unfold tree_cmp. apply _. Qed.

Lemma tree_cmp_eq a b : tree_cmp a b = Eq -> card_id a = card_id b.
Proof.
  unfold tree_cmp, cmp_lex, cmp_on, cmp_rev. repeat case_match; try done.
  apply string_compare_eq.
Qed.

Lemma card_tree_less_cmp a b :
  f64_is_nan (sort_key a) = false -> f64_is_nan (sort_key b) = false ->
  card_tree_less a b = cmp_ltb tree_cmp a b.
Proof.
  intros Ha Hb. unfold card_tree_less, cmp_ltb, tree_cmp, cmp_lex, cmp_on, cmp_rev.
  rewrite !f64_ltb_spec by done. unfold cmp_ltb.
  rewrite (cmp_opp f64_compare (sort_key b) (sort_key a)).
  destruct (f64_compare (sort_key a) (sort_key b)) eqn:Ek; simpl; [|done|done].
  destruct (Z.eqb_spec (updated_at a) (updated_at b)) as [->|Hu]; simpl.
  2: { unfold Z.ltb. destruct (Z.compare_spec (updated_at b) (updated_at a)); congruence. }
  rewrite Z.compare_refl.
  destruct (String.eqb_spec (lower (title a)) (lower (title b))) as [->|Ht]; simpl.
  - by rewrite (cmp_refl String.compare).
  - unfold str_ltb, cmp_ltb.
    destruct (String.compare _ _) eqn:Et; [by apply string_compare_eq in Et|done|done].
Qed.

(** Keys in strictly increasing order. *)
Definition key_lt (x y : double) : Prop := f64_compare x y = Lt.

#[export] Instance key_lt_trans : Transitive key_lt.
Proof. intros x y z. apply (cmp_lt_trans f64_compare). Qed.

Lemma key_lt_tree a b : key_lt (sort_key a) (sort_key b) -> tree_cmp a b = Lt.
Proof. unfold key_lt, tree_cmp, cmp_lex, cmp_on. by intros ->. Qed.

(** ** Spaced keys *)

Lemma f64_nan_mul_l y : f64_mul S754_nan y = S754_nan.
Proof. by destruct y. Qed.
Lemma f64_nan_add_l y : f64_add S754_nan y = S754_nan.
Proof. by destruct y. Qed.
Lemma f64_nan_add_r x : f64_add x S754_nan = S754_nan.
Proof. by destruct x. Qed.

Lemma f64_leb_lt x y :
  f64_is_nan x = false -> f64_is_nan y = false -> f64_leb x y = false -> key_lt y x.
Proof. apply f64_leb_false. Qed.

Lemma spaced_from_spec low high n todo : forall i previous keys,
  f64_is_nan low = false -> f64_is_nan high = false -> f64_is_nan previous = false ->
  spaced_from low high n i todo previous = Some keys ->
  length keys = todo /\ Forall (fun k => f64_is_finite k = true /\ key_lt k high) keys /\
  StronglySorted key_lt (previous :: keys).
Proof.
  induction todo as [|todo IH]; intros i previous keys Hl Hh Hp H; simpl in H.
  { injection H as <-. repeat constructor. }
  set (key := f64_add _ _) in H.
  destruct (f64_is_finite key) eqn:Hf; simpl in H; [|done].
  pose proof (f64_is_finite_not_nan key Hf) as Hk.
  destruct (f64_leb key previous) eqn:H1; simpl in H; [done|].
  destruct (f64_leb high key) eqn:H2; [done|].
  apply fmap_Some in H as (ks & H & ->).
  apply IH in H as (Hlen & Hall & Hs); [|done..].
  apply f64_leb_lt in H1; [|done..]. apply f64_leb_lt in H2; [|done..].
  split; [simpl; lia|]. split; [by constructor|].
  constructor; [done|]. constructor; [done|].
  apply StronglySorted_inv in Hs as [_ Hs]. eapply Forall_impl; [exact Hs|].
  intros k Hk'. by transitivity key.
Qed.

(** A bound that is not a number leaves no room. *)
Lemma spaced_from_nan low high n i todo previous :
  f64_is_nan low = true \/ f64_is_nan high = true ->
  spaced_from low high n i (S todo) previous = None.
Proof.
  intros H. cbn [spaced_from].
  assert (Hk : f64_add (f64_mul low (f64_sub (f64_of_Z 1) (f64_div (f64_of_nat (i + 1))
      (f64_add n (f64_of_Z 1))))) (f64_mul high (f64_div (f64_of_nat (i + 1))
      (f64_add n (f64_of_Z 1)))) = S754_nan).
  { destruct H as [H|H]; [destruct low|destruct high]; try discriminate H;
      rewrite f64_nan_mul_l; [apply f64_nan_add_l|apply f64_nan_add_r]. }
  by rewrite Hk.
Qed.

Lemma spaced_keys_spec left right n keys :
  spaced_keys left right (S n) = Some keys ->
  length keys = S n /\ StronglySorted key_lt keys /\
  Forall (fun k => f64_is_finite k = true) keys /\
  (forall l, left = Some l -> Forall (key_lt l) keys) /\
  (forall r, right = Some r -> Forall (fun k => key_lt k r) keys).
Proof.
  unfold spaced_keys. set (bounds := match left with Some _ => _ | None => _ end).
  intros H.
  destruct (f64_is_nan (fst bounds)) eqn:Hl; [by rewrite spaced_from_nan in H by auto|].
  destruct (f64_is_nan (snd bounds)) eqn:Hh; [by rewrite spaced_from_nan in H by auto|].
  apply spaced_from_spec in H as (Hlen & Hall & Hs); [|done..].
  apply StronglySorted_inv in Hs as [Hs Hlow].
  split; [done|]. split; [done|]. split; [by eapply Forall_impl; [exact Hall|]; intros ? []|].
  split; intros x ->; subst bounds.
  - by destruct right.
  - destruct left; eapply Forall_impl; try exact Hall; by intros ? [].
Qed.

(** ** Re-spacing a window *)

(** [c'] is [c] with, at most, another sort key and update time. *)
Definition rekeyed (c c' : Card) : Prop :=
  c' = set_card_updated_at (updated_at c') (set_card_sort_key (sort_key c') c).

Lemma rekeyed_refl c : rekeyed c c.
Proof. by destruct c. Qed.

Lemma rekeyed_id c c' : rekeyed c c' -> card_id c' = card_id c.
Proof. by intros ->. Qed.

Lemma Forall2_rekeyed_ids l l' : Forall2 rekeyed l l' -> map card_id l' = map card_id l.
Proof. induction 1 as [|c c' l l' Hc _ IH]; simpl; [done|]. by rewrite IH, (rekeyed_id c c' Hc). Qed.

(** What [respace] returns, card by card. *)
Lemma respace_spec at_ be i u keys window :
  length keys = length window -> Forall (fun k => f64_is_finite k = true) keys ->
  Forall (fun c => f64_is_nan (sort_key c) = false) window ->
  let r := respace at_ be i u keys window in
  Forall2 rekeyed window (fst r) /\
  Forall2 (fun k c => f64_compare (sort_key c) k = Eq) keys (fst r) /\
  sublist (snd r) (fst r) /\
  Forall (fun c => updated_at c = u /\ f64_is_finite (sort_key c) = true) (snd r) /\
  (forall j c, fst r !! j = Some c -> c ∈ snd r \/ (window !! j = Some c /\ ~ (at_ <= i + j < be)%nat)).
Proof.
  revert i window. induction keys as [|k ks IH]; intros i [|c w] Hlen Hk Hw; try done.
  injection Hlen as Hlen. apply Forall_cons in Hk as [Hk Hks], Hw as [Hc Hw].
  destruct (IH (S i) w Hlen Hks Hw) as (R1 & R2 & R3 & R4 & R5). cbv zeta. cbn [respace].
  destruct (_ || _) eqn:Hm; cbn [fst snd].
  - repeat split; try (constructor; [|done]); try done.
    + apply (cmp_refl f64_compare).
    + by constructor.
    + intros [|j] c' Hj; simpl in Hj.
      * injection Hj as <-. left. left.
      * destruct (R5 j c' Hj) as [H|[H Hn]]; [left; by right|right].
        split; [done|]. by replace (i + S j)%nat with (S i + j)%nat by lia.
  - apply orb_false_iff in Hm as [Hblk Heq%negb_false_iff].
    repeat split; try done.
    + constructor; [apply rekeyed_refl|done].
    + constructor; [|done]. rewrite f64_eqb_spec in Heq by (auto using f64_is_finite_not_nan).
      by destruct (f64_compare (sort_key c) k).
    + by constructor.
    + intros [|j] c' Hj; simpl in Hj.
      * injection Hj as <-. right. split; [done|]. rewrite Nat.add_0_r.
        intros [H1 H2]. apply Nat.leb_le in H1. apply Nat.ltb_lt in H2.
        by rewrite H1, H2 in Hblk.
      * destruct (R5 j c' Hj) as [H|[H Hn]]; [by left|right].
        split; [done|]. by replace (i + S j)%nat with (S i + j)%nat by lia.
Qed.

(** Cards whose keys are strictly increasing are strictly sorted in tree order. *)
Lemma keys_sorted keys l :
  StronglySorted key_lt keys -> Forall2 (fun k c => f64_compare (sort_key c) k = Eq) keys l ->
  StronglySorted (fun a b => tree_cmp a b = Lt) l.
Proof.
  intros Hs H. induction H as [|k c ks l Hk H IH]; [constructor|].
  apply StronglySorted_inv in Hs as [Hs Hall]. constructor; [auto|].
  apply Forall_forall. intros d Hd. apply list_elem_of_lookup in Hd as [j Hj].
  apply (Forall2_lookup_r _ _ _ _ _ H) in Hj as (k' & Hk' & He).
  apply key_lt_tree. rewrite Forall_forall in Hall.
  assert (key_lt k k') as Hlt by (apply Hall, list_elem_of_lookup; eauto).
  unfold key_lt in *. by rewrite (cmp_eq_l f64_compare _ _ _ Hk), (cmp_eq_r f64_compare _ _ _ He).
Qed.

Lemma Forall2_keys_elem keys l c (P : double -> Prop) :
  Forall2 (fun k c => f64_compare (sort_key c) k = Eq) keys l -> Forall P keys -> c ∈ l ->
  exists k, f64_compare (sort_key c) k = Eq /\ P k.
Proof.
  intros H Hall Hc. apply list_elem_of_lookup in Hc as [j Hj].
  apply (Forall2_lookup_r _ _ _ _ _ H) in Hj as (k & Hk & He).
  exists k. split; [done|]. by eapply Forall_lookup_1.
Qed.

(** ** The windows are enough *)

Lemma try_windows_fuel at_ be u l : forall fuel radius,
  (at_ <= be <= length l)%nat -> (1 <= fuel)%nat -> (length l < radius + fuel)%nat ->
  exists r, try_windows fuel radius at_ be u l = Some r.
Proof.
  induction fuel as [|fuel IH]; intros radius Hat Hf Hlen; [lia|]. simpl.
  case_match; [destruct (respace _ _ _ _ _ _); eauto|].
  destruct (Nat.eqb_spec (at_ - radius) 0) as [E1|E1];
    destruct (Nat.eqb_spec (Nat.min (length l) (be + radius)) (length l)) as [E2|E2]; simpl;
    [eauto| | |]; apply IH; destruct (Nat.eqb_spec radius 0); lia.
Qed.

(** ** Inserting a block *)

Definition tree_lt (a b : Card) : Prop := tree_cmp a b = Lt.

Lemma tree_le_key a b :
  cmp_le tree_cmp a b -> cmp_le f64_compare (sort_key a) (sort_key b).
Proof. unfold cmp_le, tree_cmp, cmp_lex, cmp_on. by destruct (f64_compare _ _). Qed.

Lemma tree_lt_le a b : tree_lt a b -> cmp_le tree_cmp a b.
Proof. unfold tree_lt, cmp_le. by intros ->. Qed.

(** Sorted siblings with distinct ids are strictly sorted. *)
Lemma sorted_strict l :
  NoDup (map card_id l) -> StronglySorted (cmp_le tree_cmp) l -> StronglySorted tree_lt l.
Proof.
  intros Hn Hs. induction Hs as [|a l Hs IH Hall]; [constructor|].
  simpl in Hn. apply NoDup_cons in Hn as [Ha Hn]. constructor; [auto|].
  rewrite Forall_forall in *. intros b Hb. specialize (Hall b Hb). unfold cmp_le, tree_lt in *.
  destruct (tree_cmp a b) eqn:E; [|done|done]. apply tree_cmp_eq in E. destruct Ha.
  rewrite E. apply elem_of_map_id. by exists b.
Qed.

Definition window_left (l : list Card) (low : nat) : option double :=
  if Nat.eqb low 0 then None else key_at l (low - 1).
Definition window_right (l : list Card) (high : nat) : option double :=
  if Nat.ltb high (length l) then key_at l high else None.

Lemma before_window l low keys c :
  StronglySorted tree_lt (take low l) -> (low <= length l)%nat ->
  (forall x, window_left l low = Some x -> Forall (key_lt x) keys) ->
  c ∈ take low l -> Forall (key_lt (sort_key c)) keys.
Proof.
  intros Hs Hlen Hk Hc. destruct low as [|low]; [by apply not_elem_of_nil in Hc|].
  destruct (lookup_lt_is_Some_2 l low ltac:(lia)) as [a Ha].
  rewrite (take_S_r l low a Ha) in Hs, Hc. unfold window_left, key_at in Hk. simpl in Hk.
  rewrite Nat.sub_0_r, Ha in Hk. specialize (Hk _ eq_refl).
  apply elem_of_app in Hc as [Hc| ->%list_elem_of_singleton]; [|done].
  pose proof (StronglySorted_app_1_elem_of _ _ _ c a Hs Hc ltac:(set_solver)) as Hca.
  eapply Forall_impl; [exact Hk|]. intros k Hak. unfold key_lt in *.
  by apply (cmp_le_lt_trans f64_compare) with (sort_key a); [apply tree_le_key, tree_lt_le|].
Qed.

Lemma after_window l high keys c :
  StronglySorted tree_lt (drop high l) ->
  (forall x, window_right l high = Some x -> Forall (fun k => key_lt k x) keys) ->
  c ∈ drop high l -> Forall (fun k => key_lt k (sort_key c)) keys.
Proof.
  intros Hs Hk Hc. unfold window_right in Hk.
  destruct (Nat.ltb_spec high (length l)) as [Hh|Hh];
    [|rewrite drop_ge in Hc by lia; by apply not_elem_of_nil in Hc].
  destruct (lookup_lt_is_Some_2 l high Hh) as [b Hb]. unfold key_at in Hk. rewrite Hb in Hk.
  specialize (Hk _ eq_refl). rewrite (drop_S l b high Hb) in Hs, Hc.
  apply StronglySorted_inv in Hs as [_ Hall]. rewrite Forall_forall in Hall.
  apply elem_of_cons in Hc as [->|Hc]; [done|]. specialize (Hall c Hc).
  eapply Forall_impl; [exact Hk|]. intros k Hkb. unfold key_lt in *.
  by apply (cmp_lt_le_trans f64_compare) with (sort_key b); [|apply tree_le_key, tree_lt_le].
Qed.

(** What an insertion promises: [l'] is [l] with cards re-keyed at most, strictly
    sorted when the cards outside the block were; the changed cards are the cards of [l'] outside of which nothing
    changed, they carry the new time and finite keys, and the block is among them. *)
Record respaced (at_ be : nat) (u : Z) (l l' changed : list Card) : Prop := {
  rs_cards : Forall2 rekeyed l l';
  rs_sorted : StronglySorted tree_lt (take at_ l ++ drop be l) -> StronglySorted tree_lt l';
  rs_sublist : sublist changed l';
  rs_changed : Forall (fun c => updated_at c = u /\ f64_is_finite (sort_key c) = true) changed;
  rs_kept : forall j c, l' !! j = Some c ->
    c ∈ changed \/ (l !! j = Some c /\ ~ (at_ <= j < be)%nat)
}.

Section Window.
Context (at_ be : nat) (u : Z) (l : list Card).
Hypothesis Hat : (at_ <= be)%nat.
Hypothesis Hbe : (be <= length l)%nat.
Hypothesis Hnan : Forall (fun c => f64_is_nan (sort_key c) = false) l.

Lemma window_outside low high :
  (low <= at_)%nat -> (be <= high)%nat ->
  StronglySorted tree_lt (take at_ l ++ drop be l) ->
  StronglySorted tree_lt (take low l ++ drop high l).
Proof.
  intros Hl Hh Hout. replace (take low l) with (take low (take at_ l)) by (rewrite take_take; f_equal; lia).
  replace (drop high l) with (drop (high - be) (drop be l)) by (rewrite drop_drop; f_equal; lia).
  rewrite <- (take_drop low (take at_ l)) in Hout.
  rewrite <- (take_drop (high - be) (drop be l)) in Hout.
  rewrite !StronglySorted_app in Hout. rewrite StronglySorted_app.
  set_solver by naive_solver.
Qed.

Lemma respace_window low high keys :
  (low <= at_)%nat -> (be <= high <= length l)%nat -> (low < high)%nat ->
  spaced_keys (window_left l low) (window_right l high) (high - low) = Some keys ->
  let r := respace at_ be low u keys (take (high - low) (drop low l)) in
  respaced at_ be u l (take low l ++ fst r ++ drop high l) (snd r).
Proof.
  intros Hl Hh Hlh Hk. cbv zeta. set (W := take (high - low) (drop low l)).
  assert (HlenW : length W = (high - low)%nat) by (subst W; rewrite length_take, length_drop; lia).
  assert (Hdec : l = take low l ++ W ++ drop high l).
  { subst W. replace (drop high l) with (drop (high - low) (drop low l))
      by (rewrite drop_drop; f_equal; lia). by rewrite !take_drop. }
  assert (HlenA : length (take low l) = low) by (rewrite length_take; lia).
  destruct (high - low)%nat as [|n] eqn:En; [lia|].
  apply spaced_keys_spec in Hk as (Hlen & Hks & Hfin & Hleft & Hright).
  destruct (respace_spec at_ be low u keys W) as (R1 & R2 & R3 & R4 & R5); [lia|done| |].
  { rewrite Hdec, !Forall_app in Hnan. tauto. }
  pose proof (Forall2_length _ _ _ R1) as HlenR. set (r := respace _ _ _ _ _ _) in *.
  split.
  - rewrite Hdec at 1. apply Forall2_app; [apply Forall_Forall2_diag, Forall_true; apply rekeyed_refl|].
    apply Forall2_app; [done|]. apply Forall_Forall2_diag, Forall_true; apply rekeyed_refl.
  - intros Hout. pose proof (window_outside low high Hl ltac:(lia) Hout) as Ho.
    apply StronglySorted_app in Ho as (HAC & HA & HC).
    apply StronglySorted_app_2; [|done|apply StronglySorted_app_2; [|by apply (keys_sorted keys)|done]].
    + intros a c Ha [Hc|Hc]%elem_of_app; [|by apply HAC].
      assert (Forall (key_lt (sort_key a)) keys) as Hall by (apply (before_window l low); auto; lia).
      destruct (Forall2_keys_elem _ _ _ _ R2 Hall Hc) as (k & He & Hlt). apply key_lt_tree.
      unfold key_lt in *. by rewrite (cmp_eq_r f64_compare _ _ _ He).
    + intros c b Hc Hb.
      assert (Forall (fun k => key_lt k (sort_key b)) keys) as Hall by (apply (after_window l high); auto).
      destruct (Forall2_keys_elem _ _ _ _ R2 Hall Hc) as (k & He & Hlt). apply key_lt_tree.
      unfold key_lt in *. by rewrite (cmp_eq_l f64_compare _ _ _ He).
  - apply sublist_inserts_l, sublist_inserts_r. done.
  - done.
  - intros j c Hj. destruct (decide (j < low)%nat) as [Hjl|Hjl].
    { right. rewrite lookup_app_l, lookup_take_lt in Hj by lia. split; [done|lia]. }
    rewrite lookup_app_r, HlenA in Hj by lia.
    destruct (decide (j < high)%nat) as [Hjh|Hjh].
    + rewrite lookup_app_l in Hj by lia. apply R5 in Hj as [Hj|[Hj Hn]]; [by left|right].
      subst W. rewrite lookup_take_lt, lookup_drop in Hj by lia.
      replace (low + (j - low))%nat with j in * by lia. done.
    + right. rewrite lookup_app_r, lookup_drop in Hj by lia. split; [|lia].
      by replace (high + (j - low - length (fst r)))%nat with j in Hj by lia.
Qed.

Lemma try_windows_spec fuel : forall radius changed l',
  (at_ < be)%nat -> try_windows fuel radius at_ be u l = Some (Ok (changed, l')) ->
  respaced at_ be u l l' changed.
Proof.
  induction fuel as [|fuel IH]; intros radius changed l' Hlt H; [done|]. simpl in H.
  fold (window_left l (at_ - radius)) in H.
  fold (window_right l (Nat.min (length l) (be + radius))) in H.
  destruct (spaced_keys _ _ _) as [keys|] eqn:Hk.
  - destruct (respace _ _ _ _ _ _) as [w ch] eqn:Hr. injection H as <- <-.
    pose proof (respace_window (at_ - radius) (Nat.min (length l) (be + radius)) keys
      ltac:(lia) ltac:(lia) ltac:(lia) Hk) as HR.
    by rewrite Hr in HR.
  - destruct (_ && _); [done|]. by apply IH in H.
Qed.
End Window.

(** The sibling list an insertion starts from: the block is in place. *)
Definition placed (destination : list Card) (at_ : nat) (block : list Card)
    (parent : option string) : list Card :=
  take at_ destination ++ map (set_card_parent parent) block ++ drop at_ destination.

Lemma placed_elem destination at_ block parent c :
  c ∈ placed destination at_ block parent <->
  c ∈ destination \/ exists b, b ∈ block /\ c = set_card_parent parent b.
Proof.
  unfold placed. rewrite !elem_of_app, elem_of_map_id.
  rewrite <- (take_drop at_ destination) at 3. rewrite elem_of_app. naive_solver.
Qed.

Lemma placed_length destination at_ block parent :
  length (placed destination at_ block parent) = (length destination + length block)%nat.
Proof.
  unfold placed. rewrite !length_app, length_map, length_take, length_drop. lia.
Qed.

(** Around the block there is the destination. *)
Lemma placed_outside destination at_ block parent :
  (at_ <= length destination)%nat ->
  take at_ (placed destination at_ block parent)
    ++ drop (at_ + length block) (placed destination at_ block parent) = destination.
Proof.
  intros Hat. assert (Hlt : length (take at_ destination) = at_) by (rewrite length_take; lia).
  unfold placed. rewrite (take_app_length' _ _ at_) by done. rewrite (assoc_L (++)).
  rewrite (drop_app_length' (_ ++ _)); [by rewrite take_drop|].
  by rewrite length_app, length_map, Hlt.
Qed.

Lemma insert_block_into_eq destination at_ block parent u :
  block <> [] ->
  insert_block_into destination at_ block parent u =
  default (Err (Runtime "out of fuel"))
    (try_windows (length (placed destination at_ block parent) + 2) 0 at_ (at_ + length block) u
       (placed destination at_ block parent)).
Proof. destruct block; [done|]. intros _. unfold insert_block_into. by rewrite !length_map. Qed.

Lemma insert_block_into_fuel destination at_ block parent u :
  (at_ <= length destination)%nat -> block <> [] ->
  exists r, try_windows (length (placed destination at_ block parent) + 2) 0 at_
    (at_ + length block) u (placed destination at_ block parent) = Some r /\
  insert_block_into destination at_ block parent u = r.
Proof.
  intros Hat Hne. destruct (try_windows_fuel at_ (at_ + length block) u
    (placed destination at_ block parent) (length (placed destination at_ block parent) + 2) 0)
    as [r Hr]; [rewrite placed_length; lia|lia|lia|].
  exists r. split; [done|]. by rewrite insert_block_into_eq, Hr.
Qed.

Lemma respaced_nothing destination at_ parent u :
  respaced at_ (at_ + 0) u (placed destination at_ [] parent) destination [].
Proof.
  assert (placed destination at_ [] parent = destination) as ->
    by (unfold placed; simpl; apply take_drop).
  split; [|by rewrite Nat.add_0_r, take_drop|apply sublist_nil_l|done|].
  - apply Forall_Forall2_diag, Forall_true, rekeyed_refl.
  - intros j c Hj. right. split; [done|lia].
Qed.

Lemma insert_block_into_spec destination at_ block parent u changed result_ :
  (at_ <= length destination)%nat ->
  Forall (fun c => f64_is_nan (sort_key c) = false) (destination ++ block) ->
  insert_block_into destination at_ block parent u = Ok (changed, result_) ->
  respaced at_ (at_ + length block) u (placed destination at_ block parent) result_ changed.
Proof.
  intros Hat Hnan H. destruct (decide (block = [])) as [->|Hne].
  { injection H as <- <-. by apply respaced_nothing. }
  assert (length block <> 0%nat) by (destruct block; [done|simpl; lia]).
  destruct (insert_block_into_fuel destination at_ block parent u Hat Hne) as (r & Hr & Heq).
  rewrite H in Heq. subst r.
  eapply try_windows_spec; [| | | |exact Hr]; try lia.
  - rewrite placed_length. lia.
  - rewrite Forall_app, !Forall_forall in Hnan. destruct Hnan as [Hd Hb].
    apply Forall_forall. intros c [Hc|(b & Hc & ->)]%placed_elem; [by apply Hd|exact (Hb b Hc)].
Qed.

(** The only failure is that a list of that many siblings, re-keyed from scratch,
    has no room. *)
Lemma try_windows_error fuel : forall radius at_ be u l e,
  (at_ <= be <= length l)%nat ->
  try_windows fuel radius at_ be u l = Some (Err e) ->
  e = Runtime "no sort keys available for card placement" /\
  spaced_keys None None (length l) = None.
Proof.
  induction fuel as [|fuel IH]; intros radius at_ be u l e Hl H; [done|]. simpl in H.
  destruct (spaced_keys _ _ _) as [keys|] eqn:Hk; [by destruct (respace _ _ _ _ _ _)|].
  destruct (_ && _) eqn:Hw; [|by eapply IH].
  apply andb_true_iff in Hw as [H1%Nat.eqb_eq H2%Nat.eqb_eq].
  injection H as <-. split; [done|].
  rewrite H1, H2 in Hk. simpl in Hk. rewrite Nat.ltb_irrefl, Nat.sub_0_r in Hk. done.
Qed.

Lemma siblings_elem `{!SqlEngineLaws E} db card c :
  c ∈ siblings db card <->
  c ∈ cards db /\ card_project_id c = bind_text (card_project_id card) /\
  parent_card_id c = bind_text_optional (parent_card_id card) /\ card_deleted c = false.
Proof.
  unfold siblings. rewrite sort_by_perm, elem_of_list_filter, negb_true_iff.
  destruct (parent_card_id card) as [p|]; unfold list_children, list_roots;
    rewrite sql_select_elem, andb_true_iff, String.eqb_eq.
  - assert (sql_eq_opt (parent_card_id c) (bind_text p) = true <->
            parent_card_id c = bind_text_optional (Some p)) as ->; [|tauto].
    unfold sql_eq_opt. simpl. destruct (parent_card_id c); [|naive_solver].
    rewrite String.eqb_eq. naive_solver.
  - rewrite bool_decide_eq_true. simpl. tauto.
Qed.

Lemma siblings_nodup `{!SqlEngineLaws E} db card :
  cards_wf db -> NoDup (map card_id (siblings db card)).
Proof.
  intros W. unfold siblings. rewrite sort_by_perm.
  apply NoDup_map_filter. destruct (parent_card_id card); unfold list_children, list_roots;
    rewrite sql_select_perm; apply NoDup_map_filter, W.
Qed.

Lemma siblings_nan `{!SqlEngineLaws E} db card c :
  cards_wf db -> c ∈ siblings db card -> f64_is_nan (sort_key c) = false.
Proof. intros W [Hc _]%siblings_elem. by apply (wf_keys db W). Qed.

Lemma siblings_sorted `{!SqlEngineLaws E} db card :
  cards_wf db -> StronglySorted tree_lt (siblings db card).
Proof.
  intros W. apply sorted_strict; [by apply siblings_nodup|].
  pose proof (fun c => siblings_nan db card c W) as Hn. unfold siblings in *.
  match goal with |- context [sort_by _ ?l] => set (rows := l) in * end.
  rewrite (sort_by_ext _ (cmp_ltb tree_cmp)); [apply (sort_by_sorted tree_cmp)|].
  intros x y Hx Hy. apply card_tree_less_cmp; apply Hn; by rewrite sort_by_perm.
Qed.

Lemma list_filter_strongly_sorted {A} (R : relation A) p (l : list A) :
  StronglySorted R l -> StronglySorted R (list_filter p l).
Proof.
  unfold list_filter. induction 1 as [|x l Hs IH Hall]; simpl; [constructor|].
  destruct (p x); [|done]. constructor; [done|]. rewrite Forall_forall in *.
  intros y Hy. apply Hall. by apply (elem_of_list_filter p y l) in Hy as [? _].
Qed.

Lemma without_elem id l c : c ∈ without id l <-> c ∈ l /\ card_id c <> id.
Proof.
  unfold without. by rewrite elem_of_list_filter, negb_true_iff, String.eqb_neq.
Qed.
Lemma tree_lt_less l :
  Forall (fun c => f64_is_nan (sort_key c) = false) l ->
  StronglySorted tree_lt l <-> StronglySorted (fun a b => card_tree_less a b = true) l.
Proof.
  intros Hn. induction l as [|a l IH]; [split; constructor|].
  apply Forall_cons in Hn as [Ha Hn]. specialize (IH Hn). rewrite Forall_forall in Hn.
  split; intros [Hs Hall]%StronglySorted_inv; (constructor; [by apply IH|]);
    rewrite Forall_forall in *; intros b Hb; specialize (Hall b Hb); specialize (Hn b Hb);
    rewrite card_tree_less_cmp in * by done; unfold cmp_ltb, tree_lt in *;
    by destruct (tree_cmp a b).
Qed.

Section Inserted.
Context {destination block : list Card} {at_ : nat} {parent : option string} {u : Z}
  {after changed : list Card}.
Hypothesis Hat : (at_ <= length destination)%nat.
Hypothesis R : respaced at_ (at_ + length block) u (placed destination at_ block parent) after changed.

Lemma inserted_ids :
  map card_id after =
    map card_id (take at_ destination) ++ map card_id block ++ map card_id (drop at_ destination).
Proof.
  rewrite (Forall2_rekeyed_ids _ _ (rs_cards _ _ _ _ _ _ R)). unfold placed.
  by rewrite !map_app, map_map.
Qed.

Lemma inserted_kept c : c ∈ after -> c ∈ changed \/ c ∈ destination.
Proof.
  intros Hc. apply list_elem_of_lookup in Hc as [j Hj].
  destruct (rs_kept _ _ _ _ _ _ R j c Hj) as [Hc|[Hc Hn]]; [by left|right].
  unfold placed in Hc. assert (length (take at_ destination) = at_) by (rewrite length_take; lia).
  apply lookup_app_Some in Hc as [Hc|[Hge [Hc|[_ Hc]]%lookup_app_Some]].
  - apply list_elem_of_lookup. exists j. by apply lookup_take_Some in Hc as [? _].
  - apply lookup_lt_Some in Hc. rewrite length_map in Hc. lia.
  - rewrite lookup_drop in Hc. apply list_elem_of_lookup. eauto.
Qed.

Lemma inserted_block b :
  b ∈ block -> exists c, c ∈ changed /\ rekeyed (set_card_parent parent b) c.
Proof.
  intros Hb. apply list_elem_of_lookup in Hb as [i Hi].
  assert (length (take at_ destination) = at_) as Hl by (rewrite length_take; lia).
  assert (placed destination at_ block parent !! (at_ + i)%nat = Some (set_card_parent parent b)) as Hp.
  { unfold placed. rewrite lookup_app_r, Hl by lia. replace (at_ + i - at_)%nat with i by lia.
    rewrite lookup_app_l by (rewrite length_map; by eapply lookup_lt_Some).
    by rewrite list_lookup_fmap, Hi. }
  destruct (Forall2_lookup_l _ _ _ _ _ (rs_cards _ _ _ _ _ _ R) Hp) as (c & Hc & Hr).
  exists c. split; [|done]. destruct (rs_kept _ _ _ _ _ _ R _ _ Hc) as [?|[_ Hn]]; [done|].
  apply lookup_lt_Some in Hi. lia.
Qed.

Lemma inserted_changed c :
  c ∈ changed -> c ∈ after /\ updated_at c = u /\ f64_is_finite (sort_key c) = true.
Proof.
  intros Hc. pose proof (rs_changed _ _ _ _ _ _ R) as H. rewrite Forall_forall in H.
  split; [|by apply H]. apply (elem_of_submseteq changed); [done|]. apply sublist_submseteq, R.
Qed.

(** Where each card of the result comes from. *)
Lemma inserted_origin c' :
  c' ∈ after -> (exists c, c ∈ destination /\ rekeyed c c') \/
                (exists b, b ∈ block /\ rekeyed (set_card_parent parent b) c').
Proof.
  intros Hc. apply list_elem_of_lookup in Hc as [j Hj].
  destruct (Forall2_lookup_r _ _ _ _ _ (rs_cards _ _ _ _ _ _ R) Hj) as (c & Hc & Hr).
  assert (c ∈ placed destination at_ block parent) as Hp by (apply list_elem_of_lookup; eauto).
  apply placed_elem in Hp as [Hp|(b & Hb & ->)]; eauto.
Qed.

Lemma inserted_nan :
  Forall (fun c => f64_is_nan (sort_key c) = false) (destination ++ block) ->
  Forall (fun c => f64_is_nan (sort_key c) = false) after.
Proof.
  rewrite Forall_app, !Forall_forall. intros [Hd _] c Hc.
  destruct (inserted_kept c Hc) as [Hc'|Hc']; [|by apply Hd].
  by apply f64_is_finite_not_nan, inserted_changed.
Qed.
End Inserted.
(** ** Where a card belongs among its siblings *)

Lemma lower_bound_split {A} (lt : A -> A -> bool) y l1 l2 :
  (forall x, x ∈ l1 -> lt x y = true) -> (forall x, x ∈ l2 -> lt x y = false) ->
  lower_bound lt y (l1 ++ l2) = length l1.
Proof.
  intros H1 H2. induction l1 as [|x l1 IH]; simpl.
  - destruct l2 as [|x l2]; simpl; [done|]. by rewrite (H2 x ltac:(set_solver)).
  - rewrite (H1 x ltac:(set_solver)), IH; [done|]. intros z Hz. apply H1. set_solver.
Qed.

Lemma without_app id l1 l2 : without id (l1 ++ l2) = without id l1 ++ without id l2.
Proof. apply List.filter_app. Qed.

Lemma without_fresh id l : id ∉ map card_id l -> without id l = l.
Proof.
  intros H. apply list_filter_all. intros x Hx. apply negb_true_iff, String.eqb_neq.
  intros <-. apply H, elem_of_map_id. eauto.
Qed.

(** Taking a card out of a list without duplicates. *)
Lemma without_split l c :
  NoDup (map card_id l) -> c ∈ l ->
  exists l1 l2, l = l1 ++ c :: l2 /\ without (card_id c) l = l1 ++ l2.
Proof.
  intros Hn (l1 & l2 & ->)%list_elem_of_split. exists l1, l2. split; [done|].
  rewrite map_app in Hn. simpl in Hn. apply list.NoDup_app in Hn as (_ & Hd & Hn).
  apply NoDup_cons in Hn as [Hc _].
  rewrite without_app, (without_fresh _ l1) by (intros H; apply (Hd _ H); set_solver).
  change (c :: l2) with ([c] ++ l2). rewrite without_app, (without_fresh _ l2) by done.
  unfold without, list_filter. simpl. by rewrite String.eqb_refl.
Qed.

(** The position of a card that was taken out is found again. *)
Lemma lower_bound_without l1 c l2 :
  StronglySorted tree_lt (l1 ++ c :: l2) ->
  Forall (fun d => f64_is_nan (sort_key d) = false) (l1 ++ c :: l2) ->
  lower_bound card_tree_less c (l1 ++ l2) = length l1.
Proof.
  intros (H1 & _ & H2)%StronglySorted_app. rewrite Forall_forall. intros Hn.
  apply StronglySorted_inv in H2 as [_ H2]. rewrite Forall_forall in H2.
  apply lower_bound_split; intros x Hx; rewrite card_tree_less_cmp by (apply Hn; set_solver);
    unfold cmp_ltb.
  - by rewrite (H1 x c Hx ltac:(set_solver) : tree_cmp x c = Lt).
  - rewrite (cmp_opp tree_cmp x c), (H2 x Hx : tree_cmp c x = Lt). done.
Qed.

(** Putting a new card at its lower bound keeps the list sorted. *)
Lemma lower_bound_insert l c :
  StronglySorted tree_lt l -> card_id c ∉ map card_id l ->
  Forall (fun d => f64_is_nan (sort_key d) = false) (c :: l) ->
  let at_ := lower_bound card_tree_less c l in
  StronglySorted tree_lt (take at_ l ++ c :: drop at_ l).
Proof.
  intros Hs Hid [Hc Hn]%Forall_cons. cbv zeta. induction Hs as [|x l Hs IH Hall]; simpl.
  { repeat constructor. }
  apply Forall_cons in Hn as [Hx Hn]. rewrite card_tree_less_cmp by done. unfold cmp_ltb at 1 2.
  assert (tree_cmp x c <> Eq) as Hne.
  { intros He%tree_cmp_eq. apply Hid. simpl. rewrite He. set_solver. }
  rewrite Forall_forall in Hall.
  destruct (tree_cmp x c) eqn:Hxc; [done| |]; simpl.
  - constructor; [apply IH; [set_solver|done]|]. apply Forall_forall. intros y Hy.
    rewrite elem_of_app, elem_of_cons in Hy.
    assert (y = c \/ y ∈ l) as [->|Hyl]; [|done|by apply Hall].
    rewrite <- (take_drop (lower_bound card_tree_less c l) l), elem_of_app. tauto.
  - assert (tree_cmp c x = Lt) as Hcx by (rewrite (cmp_opp tree_cmp), Hxc; done).
    constructor; [constructor; [done|by apply Forall_forall]|]. constructor; [done|].
    apply Forall_forall. intros y Hy. apply (cmp_lt_trans tree_cmp) with x; [done|]. by apply Hall.
Qed.
End TreeOrderFacts.

Module TreeOrderTheorems.
Import TreeOrder TreeOrderFacts.

(** Up to this many siblings the last resort, keys 1, 2, 3, ..., is known to fit. *)
Definition checked_siblings : nat := 60.

Lemma spaced_keys_open n : (1 <= n <= checked_siblings)%nat -> spaced_keys None None n <> None.
Proof.
  assert (H : forallb (fun n => match spaced_keys None None n with Some _ => true | None => false end)
    (seq 1 checked_siblings) = true) by (vm_compute; reflexivity).
  rewrite forallb_forall in H. intros Hn Hk. specialize (H n).
  rewrite Hk in H. discriminate H. apply in_seq. lia.
Qed.

(** inserting a block of cards among ordered siblings puts it, in its own order,
    exactly at the requested index: afterwards the list is strictly ordered by
    [card_tree_less], only cards it reports as changed differ from before, every
    changed card carries the new time and a finite key, and every card of the block
    is among them, under the new parent. The widening of the window always stops,
    and the only failure is the one where even fresh keys for all the siblings do
    not fit, which cannot happen up to [checked_siblings] of them. *)
Theorem insert_block_into_ordered (destination block : list Card) (at_ : nat)
    (parent : option string) (u : Z) :
  (at_ <= length destination)%nat -> block <> [] ->
  StronglySorted (fun a b => card_tree_less a b = true) destination ->
  Forall (fun c => f64_is_nan (sort_key c) = false) (destination ++ block) ->
  let r := insert_block_into destination at_ block parent u in
  (forall e, r = Err e -> e = Runtime "no sort keys available for card placement" /\
     (checked_siblings < length destination + length block)%nat) /\
  (forall changed after, r = Ok (changed, after) ->
     map card_id after =
       map card_id (take at_ destination) ++ map card_id block ++ map card_id (drop at_ destination) /\
     StronglySorted (fun a b => card_tree_less a b = true) after /\
     (forall c, c ∈ after -> c ∈ changed \/ c ∈ destination) /\
     (forall c, c ∈ changed -> c ∈ after /\ updated_at c = u /\ f64_is_finite (sort_key c) = true) /\
     (forall b, b ∈ block -> exists c, c ∈ changed /\ card_id c = card_id b /\ parent_card_id c = parent)).
Proof.
  intros Hat Hne Hs Hnan. cbv zeta. split.
  { intros e He. destruct (insert_block_into_fuel destination at_ block parent u Hat Hne)
      as (r & Hr & Heq). rewrite He in Heq. subst r.
    apply try_windows_error in Hr as [-> Hk]; [|rewrite placed_length; lia].
    split; [done|]. rewrite placed_length in Hk.
    destruct (decide (length destination + length block <= checked_siblings)%nat); [|lia].
    exfalso. revert Hk. apply spaced_keys_open. destruct block; [done|simpl in *; lia]. }
  intros changed after H.
  assert (Hlt : StronglySorted tree_lt destination).
  { apply tree_lt_less; [|done]. by apply Forall_app in Hnan as [? _]. }
  pose proof (insert_block_into_spec _ _ _ _ _ _ _ Hat Hnan H) as R.
  split; [exact (inserted_ids R)|]. split.
  { apply tree_lt_less; [exact (inserted_nan Hat R Hnan)|].
    apply (rs_sorted _ _ _ _ _ _ R). by rewrite placed_outside. }
  split; [exact (inserted_kept Hat R)|]. split; [exact (inserted_changed R)|].
  intros b Hb. destruct (inserted_block Hat R b Hb) as (c & Hc & Hr).
  exists c. split; [done|]. by rewrite Hr.
Qed.

(** Three siblings, two of them with the same key, and a block of two for the
    middle: no key fits between the tied ones, so the neighbours are re-keyed. *)
Definition tied_siblings : list Card :=
  [sample_card "aaaa" None 1; sample_card "bbbb" None 1; sample_card "cccc" None 2].
Definition block_cards : list Card := [sample_card "dddd" (Some "x") 7; sample_card "eeee" None 7].

Example insert_block_into_ordered_witness :
  match insert_block_into tied_siblings 1 block_cards None 9 with
  | Ok (changed, after) =>
      map card_id after = ["aaaa"; "dddd"; "eeee"; "bbbb"; "cccc"] /\
      StronglySorted (fun a b => card_tree_less a b = true) after /\
      map card_id changed = ["aaaa"; "dddd"; "eeee"; "bbbb"]
  | Err _ => False
  end.
Proof.
  destruct (insert_block_into_ordered tied_siblings block_cards 1 None 9) as [_ H].
  - vm_compute. lia.
  - done.
  - repeat constructor.
  - repeat constructor.
  - destruct (insert_block_into _ _ _ _ _) as [[changed after]|e] eqn:E; [|vm_compute in E; done].
    destruct (H changed after eq_refl) as (Hi & Hs & _).
    split; [exact Hi|]. split; [exact Hs|]. vm_compute in E. by injection E as <- _.
Defined.
End TreeOrderTheorems.
