(* ===== verification/Hierarchy.v ===== *)
(** * Card hierarchy

    The rest of [card/CardHierarchy.cpp]: the walk over a card's ancestors
    ([reachable_card_parent], [validate_card_parent]), where the children of a
    trashed card go ([promoted_card_children]) and where a restored card goes
    ([restored_card_placement]). Placements take effect when
    [CardStore::apply_card_changes] writes them with [restore_snapshot]; the
    theorems are about the table after those writes. *)

From stdpp Require Import base list sets strings numbers gmap sorting.
From S2P Require Import Prelude Double Model Text Database CardRepo TreeOrder.
Import CardRepo CardRepoFacts TreeOrder TreeOrderFacts.

Module CardHierarchy.

Section Walk.
Context {E : SqlEngine}.

(** The loop of [reachable_card_parent]. Every step but the last visits another
    card of the table, so [fuel] is one more than there are cards. *)
Fixpoint ancestor_walk (fuel : nat) (db : Db) (project : string) (visited : gset string)
    (next candidate : option string) : option (result (option string)) :=
  match fuel with
  | O => None
  | S fuel' =>
      match next with
      | None => Some (Ok candidate)
      | Some id =>
          if bool_decide (id ∈ visited) then Some (Err (Runtime "move_would_create_cycle"))
          else
            match get db id with
            | None => Some (Ok None)
            | Some ancestor =>
                if negb (String.eqb (card_project_id ancestor) project) then Some (Ok None)
                else
                  ancestor_walk fuel' db project ({[id]} ∪ visited) (parent_card_id ancestor)
                    (if card_deleted ancestor then None
                     else match candidate with None => Some (card_id ancestor) | c => c end)
            end
      end
  end.

Definition reachable_card_parent (db : Db) (card : Card) : result (option string) :=
  default (Err (Runtime "out of fuel"))
    (ancestor_walk (length (cards db) + 1) db (card_project_id card) {[card_id card]}
       (parent_card_id card) None).

Definition validate_card_parent (db : Db) (card : Card) : result unit :=
  let? p := reachable_card_parent db card in
  if opt_eqb p (parent_card_id card) then Ok tt else Err (Runtime "target_not_found").

Definition promoted_card_children (db : Db) (parent : Card) (updated_at_ : Z)
    : result (list Card) :=
  let? destination_parent := reachable_card_parent db parent in
  let source := set_card_parent (Some (card_id parent)) parent in
  let children := siblings db source in
  match children with
  | [] => Ok []
  | _ =>
      let anchor := set_card_parent destination_parent parent in
      let destination := without (card_id parent) (siblings db anchor) in
      let at_ := lower_bound card_tree_less anchor destination in
      insert_block destination at_ children destination_parent updated_at_
  end.

(** The restored card as the caller's reference holds it afterwards, and the other
    changes. *)
Definition restored_card_placement (db : Db) (restored : Card) (updated_at_ : Z)
    : result (Card * list Card) :=
  let? p := reachable_card_parent db restored in
  let restored := set_card_parent p restored in
  let destination := without (card_id restored) (siblings db restored) in
  let collision :=
    negb (f64_is_finite (sort_key restored))
    || existsb (fun c => f64_eqb (sort_key c) (sort_key restored)) destination in
  if negb collision then Ok (restored, [])
  else
    let at_ := lower_bound card_tree_less restored destination in
    let? changes := insert_block destination at_ [restored] (parent_card_id restored) updated_at_ in
    let restored' :=
      foldl (fun r c => if String.eqb (card_id c) (card_id r)
                        then set_card_sort_key (sort_key c) r else r) restored changes in
    Ok (restored', without (card_id restored) changes).

End Walk.

(** The card rows [apply_card_changes] writes. *)
Definition write_snapshots (changes : list Card) : Repo unit := for_each changes restore_snapshot.

End CardHierarchy.

Module CardHierarchyFacts.
Import CardHierarchy.

(** ** Lineages

    The ancestors of a card in the table, nearest first: up to a root ([None]), or
    to a parent [id] that the project does not have ([Some id]). A card on or under
    a cycle has no lineage. *)
Inductive lineage (t : list Card) (pid : string)
    : option string -> list Card -> option string -> Prop :=
| lineage_root : lineage t pid None [] None
| lineage_broken id :
    (forall c, c ∈ t -> card_id c = id -> card_project_id c <> pid) ->
    lineage t pid (Some id) [] (Some id)
| lineage_step c l b :
    c ∈ t -> card_project_id c = pid -> lineage t pid (parent_card_id c) l b ->
    lineage t pid (Some (card_id c)) (c :: l) b.

(** The nearest ancestor from which everything up to the root is live. *)
Definition nearest_live (candidate : option string) (l : list Card) : option string :=
  foldl (fun cand a => if card_deleted a then None
                       else match cand with None => Some (card_id a) | c => c end) candidate l.

Section Lineage.
Context (t : list Card) (Hids : NoDup (map card_id t)) (pid : string).

Lemma lineage_fun o l1 b1 l2 b2 :
  lineage t pid o l1 b1 -> lineage t pid o l2 b2 -> l1 = l2 /\ b1 = b2.
Proof.
  intros H1. revert l2 b2.
  induction H1 as [|id Hn|c l b Hc Hp H IH]; intros l2 b2 H2; inversion H2; subst; try done.
  - by destruct (Hn c).
  - by match goal with Hn : forall c, c ∈ t -> _ |- _ => destruct (Hn c) end.
  - match goal with Hl : lineage _ _ (parent_card_id ?c0) _ _, He : card_id ?c0 = card_id c |- _ =>
      assert (c0 = c) as -> by (by apply (NoDup_map_inj card_id t));
      by destruct (IH _ _ Hl) as [-> ->] end.
Qed.

Lemma lineage_cards o l b : lineage t pid o l b -> forall c, c ∈ l -> c ∈ t /\ card_project_id c = pid.
Proof. induction 1; intros d Hd; [set_solver..|]. apply elem_of_cons in Hd as [->|Hd]; auto. Qed.

Lemma lineage_suffix o l1 c l2 b :
  lineage t pid o (l1 ++ c :: l2) b -> lineage t pid (parent_card_id c) l2 b.
Proof.
  revert o. induction l1 as [|d l1 IH]; intros o H; inversion H; subst; [done|]. by eapply IH.
Qed.

Lemma lineage_nodup o l b : lineage t pid o l b -> NoDup (map card_id l).
Proof.
  induction 1 as [| |c l b Hc Hp H IH]; simpl; [constructor..|]. apply NoDup_cons. split; [|done].
  intros (d & Hd & He)%elem_of_map_id.
  assert (d = c) as -> by (apply (NoDup_map_inj card_id t); [done| |done|done];
    by apply (lineage_cards _ _ _ H d)).
  apply list_elem_of_split in Hd as (l1 & l2 & ->).
  pose proof (lineage_suffix _ _ _ _ _ H) as H2.
  destruct (lineage_fun _ _ _ _ _ H H2) as [Heq _]. apply (f_equal length) in Heq.
  rewrite length_app in Heq. simpl in Heq. lia.
Qed.
End Lineage.

(** The missing parent of a broken lineage is not a card of the project. *)
Lemma lineage_missing t pid o l m :
  lineage t pid o l (Some m) -> forall c, c ∈ t -> card_id c = m -> card_project_id c = pid -> False.
Proof.
  intros Hl. remember (Some m) as e. induction Hl as [|id Hno|c l b Hc Hp Hl IH]; [done| |by apply IH].
  injection Heqe as ->. intros c Hc He Hp. by apply (Hno c).
Qed.

Lemma nearest_live_all cand l :
  Forall (fun a => card_deleted a = false) l ->
  nearest_live cand l =
    match cand with Some c => Some c | None => card_id <$> head l end.
Proof.
  revert cand. induction l as [|a l IH]; intros cand Hall; simpl; [by destruct cand|].
  apply Forall_cons in Hall as [-> Hall].
  unfold nearest_live in IH. rewrite IH by done. by destruct cand.
Qed.

Lemma nearest_live_snoc l a :
  nearest_live None (l ++ [a]) =
    if card_deleted a then None
    else match nearest_live None l with None => Some (card_id a) | c => c end.
Proof.
  unfold nearest_live. rewrite foldl_app. cbn. by destruct (foldl _ _ l), (card_deleted a).
Qed.

(** The answer heads the longest live suffix of the ancestors. *)
Lemma nearest_live_spec l :
  match nearest_live None l with
  | Some id => exists l1 a l2, l = l1 ++ a :: l2 /\ card_id a = id /\
      Forall (fun a => card_deleted a = false) (a :: l2) /\
      match last l1 with Some b => card_deleted b = true | None => True end
  | None => l = [] \/ exists a, last l = Some a /\ card_deleted a = true
  end.
Proof.
  induction l as [|a l IH] using rev_ind; [by left|]. rewrite nearest_live_snoc.
  destruct (card_deleted a) eqn:Ha; [right; exists a; by rewrite last_snoc|].
  destruct (nearest_live None l) as [id|].
  - destruct IH as (l1 & b & l2 & -> & Hb & Hall & Hlast).
    exists l1, b, (l2 ++ [a]). rewrite <- (assoc_L (++)). split; [done|]. split; [done|].
    split; [|done]. rewrite app_comm_cons. apply Forall_app. split; [done|].
    by constructor.
  - exists l, a, []. split; [done|]. split; [done|]. split; [by constructor|].
    destruct IH as [->|(b & -> & Hb)]; done.
Qed.

Lemma nearest_live_suffix l :
  match nearest_live None l with
  | Some id => exists l1 a l2, l = l1 ++ a :: l2 /\ card_id a = id /\
                 Forall (fun a => card_deleted a = false) (a :: l2)
  | None => True
  end.
Proof. pose proof (nearest_live_spec l). destruct (nearest_live None l); naive_solver. Qed.

(** The ids a walk along a lineage looks up. *)
Definition path_ids (l : list Card) (missing : option string) : list string :=
  map card_id l ++ match missing with Some id => [id] | None => [] end.

(** The cards whose id is not in [visited]. *)
Definition unvisited (visited : gset string) (t : list Card) : list Card :=
  list_filter (fun c => negb (bool_decide (card_id c ∈ visited))) t.

Definition project_cards (pid : string) (t : list Card) : list Card :=
  list_filter (fun c => String.eqb (card_project_id c) pid) t.

Lemma unvisited_visit visited c t :
  c ∈ t -> card_id c ∉ visited ->
  (length (unvisited ({[card_id c]} ∪ visited) t) < length (unvisited visited t))%nat.
Proof.
  unfold unvisited, list_filter. intros Hc Hv.
  assert (Hle : forall t, (length (List.filter (fun d => negb (bool_decide (card_id d ∈ {[card_id c]} ∪ visited))) t)
     <= length (List.filter (fun d => negb (bool_decide (card_id d ∈ visited))) t))%nat).
  { intros t0; induction t0 as [|d s IH]; simpl; [done|].
    destruct (decide (card_id d ∈ visited)).
    - rewrite !bool_decide_eq_true_2 by set_solver. simpl. lia.
    - rewrite (bool_decide_eq_false_2 (card_id d ∈ visited)) by done. simpl. case_match; simpl; lia. }
  induction t as [|d s IH]; [set_solver|]. simpl.
  apply elem_of_cons in Hc as [<-|Hc].
  - rewrite bool_decide_eq_true_2, bool_decide_eq_false_2 by set_solver. simpl.
    specialize (Hle s). lia.
  - specialize (IH Hc). destruct (decide (card_id d ∈ visited)).
    + rewrite !bool_decide_eq_true_2 by set_solver. simpl. lia.
    + rewrite (bool_decide_eq_false_2 (card_id d ∈ visited)) by done. simpl. case_match; simpl; lia.
Qed.

Section Walk.
Context `{!SqlEngineLaws E} (db : Db) (W : cards_wf db).

Lemma bind_parent c : c ∈ cards db -> bind_text_optional (parent_card_id c) = parent_card_id c.
Proof. intros Hc. apply (wf_text db W), bind_card_id in Hc. tauto. Qed.

(** The walk stops, and finds the lineage unless it meets a visited id. *)
Lemma ancestor_walk_spec pid fuel : forall visited next cand,
  bind_text_optional next = next ->
  (length (unvisited visited (project_cards pid (cards db))) < fuel)%nat ->
  exists r, ancestor_walk fuel db pid visited next cand = Some r /\
  match r with
  | Ok p => exists l e, lineage (cards db) pid next l e /\
      (forall id, id ∈ path_ids l e -> id ∉ visited) /\
      p = match e with None => nearest_live cand l | Some _ => None end
  | Err err => err = Runtime "move_would_create_cycle" /\
      forall l e, lineage (cards db) pid next l e -> exists id, id ∈ path_ids l e /\ id ∈ visited
  end.
Proof.
  induction fuel as [|fuel IH]; intros visited next cand Hb Hf; [lia|]. simpl.
  destruct next as [id|].
  2: { eexists. split; [done|]. exists [], None. split; [constructor|]. split; [set_solver|done]. }
  simpl in Hb. injection Hb as Hb.
  destruct (bool_decide (id ∈ visited)) eqn:Hv.
  { apply bool_decide_eq_true in Hv. eexists. split; [done|]. split; [done|].
    intros l e H. exists id. split; [|done]. unfold path_ids. inversion H; subst; set_solver. }
  apply bool_decide_eq_false in Hv. destruct (get db id) as [a|] eqn:Hg.
  2: { rewrite get_None, Hb in Hg by done. eexists. split; [done|]. exists [], (Some id).
    split; [constructor; naive_solver|]. split; [set_solver|done]. }
  apply get_Some in Hg as [Ha He]; [|done]. rewrite Hb in He. subst id.
  destruct (String.eqb_spec (card_project_id a) pid) as [Hp|Hp]; simpl.
  2: { eexists. split; [done|]. exists [], (Some (card_id a)). split; [constructor|set_solver].
    intros c Hc Hca. assert (c = a) as ->; [|done]. apply (NoDup_map_inj card_id (cards db)); [apply W|done..]. }
  destruct (IH ({[card_id a]} ∪ visited) (parent_card_id a)
    (if card_deleted a then None else match cand with None => Some (card_id a) | c => c end))
    as (r & Hr & Hspec); [by apply bind_parent| |].
  { pose proof (unvisited_visit visited a (project_cards pid (cards db))) as Hlt.
    enough (a ∈ project_cards pid (cards db)) by (specialize (Hlt ltac:(done) Hv); lia).
    apply elem_of_list_filter. by rewrite Hp, String.eqb_refl. }
  exists r. split; [done|]. destruct r as [p|err].
  - destruct Hspec as (l & e & Hl & Hpath & Hpe). exists (a :: l), e. split; [by constructor|].
    split; [|done]. intros id Hid. unfold path_ids in *. simpl in Hid.
    apply elem_of_cons in Hid as [->|Hid]; [done|]. specialize (Hpath id Hid). set_solver.
  - destruct Hspec as [-> Hspec]. split; [done|]. intros l e H.
    inversion H as [|? Hno|c l' b Hc Hcp Hl]; subst; [exfalso; by apply (Hno a)|].
    assert (c = a) as -> by (apply (NoDup_map_inj card_id (cards db)); [apply W|done..]).
    destruct (Hspec l' e Hl) as (id & Hid & Hin). unfold path_ids in *. simpl.
    apply elem_of_union in Hin as [->%elem_of_singleton|Hin].
    2: { exists id. split; [by right|done]. }
    exfalso. pose proof (lineage_nodup (cards db) (wf_ids db W) _ _ _ _ H) as Hn.
    simpl in Hn. apply NoDup_cons in Hn as [Hn _].
    apply elem_of_app in Hid as [Hid|Hid]; [done|]. destruct e as [m|]; [|set_solver].
    apply list_elem_of_singleton in Hid as <-. clear Hspec Hr IH.
    by apply (lineage_missing _ _ _ _ _ Hl a).
Qed.

Lemma reachable_card_parent_spec card :
  bind_text_optional (parent_card_id card) = parent_card_id card ->
  match reachable_card_parent db card with
  | Ok p => exists l e, lineage (cards db) (card_project_id card) (parent_card_id card) l e /\
      card_id card ∉ path_ids l e /\
      p = match e with None => nearest_live None l | Some _ => None end
  | Err err => err = Runtime "move_would_create_cycle" /\
      forall l e, lineage (cards db) (card_project_id card) (parent_card_id card) l e ->
        card_id card ∈ path_ids l e
  end.
Proof.
  intros Hb. unfold reachable_card_parent.
  destruct (ancestor_walk_spec (card_project_id card) (length (cards db) + 1) {[card_id card]}
    (parent_card_id card) None Hb) as (r & -> & H).
  { unfold unvisited, project_cards, list_filter.
    pose proof (filter_length_le (fun c => String.eqb (card_project_id c) (card_project_id card)) (cards db)).
    pose proof (filter_length_le (fun c => negb (bool_decide (card_id c ∈ ({[card_id card]} : gset string))))
      (List.filter (fun c => String.eqb (card_project_id c) (card_project_id card)) (cards db))). lia. }
  simpl. destruct r as [p|err].
  - destruct H as (l & e & Hl & Hp & ->). exists l, e. split; [done|]. split; [|done].
    intros Hin. apply (Hp _ Hin). set_solver.
  - destruct H as [-> H]. split; [done|]. intros l e Hl. destruct (H l e Hl) as (id & Hid & Hv).
    apply elem_of_singleton in Hv as ->. done.
Qed.

(** ** Cards that browsing from the roots reaches *)
Definition live_chain (l : list Card) : Prop := Forall (fun a => card_deleted a = false) l.

Definition rooted (t : list Card) (pid : string) (o : option string) : Prop :=
  exists l, lineage t pid o l None /\ live_chain l.

Definition visible (t : list Card) (c : Card) : Prop :=
  card_deleted c = false /\ rooted t (card_project_id c) (parent_card_id c).

Lemma lineage_suffix_start t pid o l1 a l2 e :
  lineage t pid o (l1 ++ a :: l2) e -> lineage t pid (Some (card_id a)) (a :: l2) e.
Proof.
  revert o. induction l1 as [|d l1 IH]; intros o H; inversion H; subst; [done|]. by eapply IH.
Qed.

Lemma nearest_live_rooted t pid o l id :
  lineage t pid o l None -> nearest_live None l = Some id -> rooted t pid (Some id).
Proof.
  intros Hl Hn. pose proof (nearest_live_suffix l) as H. rewrite Hn in H.
  destruct H as (l1 & a & l2 & -> & <- & Hall).
  exists (a :: l2). split; [|done]. by eapply lineage_suffix_start.
Qed.

Lemma rooted_none t pid : rooted t pid None.
Proof. exists []. split; constructor. Qed.

Lemma reachable_rooted card p :
  bind_text_optional (parent_card_id card) = parent_card_id card ->
  reachable_card_parent db card = Ok p ->
  rooted (cards db) (card_project_id card) p.
Proof.
  intros Hb H. pose proof (reachable_card_parent_spec card Hb) as Hs. rewrite H in Hs.
  destruct Hs as (l & e & Hl & _ & ->). destruct e; [apply rooted_none|].
  destruct (nearest_live None l) as [id|] eqn:Hn; [|apply rooted_none].
  by eapply nearest_live_rooted.
Qed.

Lemma validate_card_parent_spec card :
  bind_text_optional (parent_card_id card) = parent_card_id card ->
  validate_card_parent db card = Ok tt <->
  exists l, lineage (cards db) (card_project_id card) (parent_card_id card) l None /\
    live_chain l /\ card_id card ∉ map card_id l.
Proof.
  intros Hb. unfold validate_card_parent. pose proof (reachable_card_parent_spec card Hb) as Hs.
  destruct (reachable_card_parent db card) as [p|err]; simpl.
  - destruct Hs as (l & e & Hl & Hid & ->). unfold opt_eqb. split.
    + case_bool_decide as Hp; [|done]. intros _. destruct e as [m|].
      { rewrite <- Hp in Hl. inversion Hl. }
      exists l. unfold path_ids in Hid. rewrite app_nil_r in Hid. split; [done|]. split; [|done].
      destruct l as [|c l]; [constructor|]. pose proof (nearest_live_suffix (c :: l)) as Hsuf.
      inversion Hl as [| |c' l' b Hc Hcp Hl' Hco]; subst. rewrite Hp, <- Hco in Hsuf.
      destruct Hsuf as (l1 & a & l2 & Heq & Ha & Hall). destruct l1 as [|d l1].
      { by injection Heq as -> ->. }
      exfalso. injection Heq as -> ->. pose proof (lineage_nodup (cards db) (wf_ids db W) _ _ _ _ Hl) as Hn.
      simpl in Hn. apply NoDup_cons in Hn as [Hn _]. apply Hn. rewrite map_app. simpl. set_solver.
    + intros (l' & Hl' & Hlive & _).
      destruct (lineage_fun (cards db) (wf_ids db W) _ _ _ _ _ _ Hl Hl') as [-> ->].
      rewrite nearest_live_all by done. rewrite bool_decide_eq_true_2; [done|].
      inversion Hl'; by subst.
  - destruct Hs as [-> Hs]. split; [done|]. intros (l & Hl & _ & Hid). destruct Hid.
    specialize (Hs l None Hl). unfold path_ids in Hs. by rewrite app_nil_r in Hs.
Qed.

Lemma reachable_error card e :
  bind_text_optional (parent_card_id card) = parent_card_id card ->
  reachable_card_parent db card = Err e -> e = Runtime "move_would_create_cycle".
Proof.
  intros Hb H. pose proof (reachable_card_parent_spec card Hb) as Hs. rewrite H in Hs. tauto.
Qed.
End Walk.

(** ** Writing the changed rows *)

(** The rows of [t], with the ones [changes] names replaced. *)
Definition changed_row (changes : list Card) (c : Card) : Card :=
  default c (List.find (fun d => String.eqb (card_id d) (card_id c)) changes).
Definition override (changes : list Card) (t : list Card) : list Card :=
  map (changed_row changes) t.

(** [c'] is the row [c] with another placement, update time or deletion. *)
Definition row_edit (c c' : Card) : Prop :=
  c' = mkCard (card_id c) (card_project_id c) (title c) (rel_path c) (parent_card_id c')
         (sort_key c') (created_at c) (updated_at c') (deleted_at c').

Lemma row_edit_id c c' : row_edit c c' -> card_id c' = card_id c.
Proof. by intros ->. Qed.

Lemma changed_row_in changes c c' :
  NoDup (map card_id changes) -> c' ∈ changes -> card_id c' = card_id c -> changed_row changes c = c'.
Proof.
  intros Hn Hc Hid. unfold changed_row. destruct (List.find _ changes) as [d|] eqn:Hf; simpl.
  - apply find_some in Hf as [Hd Hde%String.eqb_eq]. apply list_elem_of_In in Hd.
    apply (NoDup_map_inj card_id changes); [done..|congruence].
  - pose proof (find_none _ _ Hf c') as H. simpl in H. rewrite Hid, String.eqb_refl in H.
    discriminate H. by apply list_elem_of_In.
Qed.

Lemma changed_row_out changes c : card_id c ∉ map card_id changes -> changed_row changes c = c.
Proof.
  intros Hn. unfold changed_row. destruct (List.find _ changes) as [d|] eqn:Hf; simpl; [|done].
  apply find_some in Hf as [Hd Hde%String.eqb_eq]. destruct Hn. apply elem_of_map_id.
  exists d. by rewrite list_elem_of_In.
Qed.

Lemma changed_row_cases changes c :
  (changed_row changes c ∈ changes /\ card_id (changed_row changes c) = card_id c) \/
  (changed_row changes c = c /\ card_id c ∉ map card_id changes).
Proof.
  unfold changed_row. destruct (List.find _ changes) as [d|] eqn:Hf; simpl.
  - apply find_some in Hf as [Hd Hde%String.eqb_eq]. left. by rewrite list_elem_of_In.
  - right. split; [done|]. intros (d & Hd & He)%elem_of_map_id. apply list_elem_of_In in Hd.
    pose proof (find_none _ _ Hf d Hd) as H. simpl in H. by rewrite He, String.eqb_refl in H.
Qed.

Lemma changed_row_id changes c : card_id (changed_row changes c) = card_id c.
Proof. destruct (changed_row_cases changes c) as [[_ H]|[H _]]; [done|by rewrite H]. Qed.

Lemma override_ids changes t : map card_id (override changes t) = map card_id t.
Proof. unfold override. rewrite map_map. apply map_ext, changed_row_id. Qed.

Lemma override_elem changes t c' :
  c' ∈ override changes t <-> exists c, c ∈ t /\ c' = changed_row changes c.
Proof. apply elem_of_map_id. Qed.

Lemma override_cons c' changes t :
  card_id c' ∉ map card_id changes ->
  override (c' :: changes) t = override changes (override [c'] t).
Proof.
  intros Hn. unfold override. rewrite map_map. apply map_ext. intros c.
  unfold changed_row at 1. simpl. unfold changed_row at 2. simpl.
  destruct (String.eqb_spec (card_id c') (card_id c)) as [He|He]; simpl; [|done].
  by rewrite changed_row_out.
Qed.

Lemma changed_row_nil c : changed_row [] c = c.
Proof. done. Qed.

Lemma override_nil t : override [] t = t.
Proof. unfold override. rewrite (map_ext _ id); [apply map_id|done]. Qed.

(** Changes that the table accepts: one per card, of existing cards. *)
Definition valid_changes (t changes : list Card) : Prop :=
  NoDup (map card_id changes) /\
  forall c', c' ∈ changes -> (exists c, c ∈ t /\ row_edit c c') /\
    f64_is_nan (sort_key c') = false /\ cards_parent_ok t c' = true.

Lemma parent_ok_bound db c :
  cards_wf db -> cards_parent_ok (cards db) c = true ->
  bind_text_optional (parent_card_id c) = parent_card_id c.
Proof.
  intros W. unfold cards_parent_ok. destruct (parent_card_id c) as [p|]; [|done].
  rewrite card_exists_spec. intros (d & Hd & ->)%elem_of_map_id.
  apply (wf_text db W), bind_card_id in Hd. simpl. f_equal. tauto.
Qed.

Lemma cards_parent_ok_ids t t' c :
  map card_id t = map card_id t' -> cards_parent_ok t c = cards_parent_ok t' c.
Proof.
  intros H. unfold cards_parent_ok. destruct (parent_card_id c) as [p|]; [|done].
  apply eq_true_iff_eq. by rewrite !card_exists_spec, H.
Qed.

Lemma restore_snapshot_spec db c c' :
  cards_wf db -> c ∈ cards db -> row_edit c c' -> f64_is_nan (sort_key c') = false ->
  cards_parent_ok (cards db) c' = true ->
  restore_snapshot c' db = (Ok tt, set_cards (override [c'] (cards db)) db).
Proof.
  intros W Hc He Hk Hp. pose proof (wf_text db W c Hc) as Hb. apply bind_card_id in Hb.
  assert (Hid : bind_text (card_id c') = card_id c) by (rewrite (row_edit_id c c' He); tauto).
  assert (Hrow : snapshot_row c' c = c').
  { unfold snapshot_row. rewrite (parent_ok_bound db c' W Hp).
    destruct Hb as (H1 & H2 & H3 & H4 & H5). rewrite He. cbn -[bind_text]. by rewrite H3, H4. }
  assert (Hrows : updated_rows (card_id c) (snapshot_row c') db = override [c'] (cards db)).
  { unfold updated_rows, override. apply map_ext_in. intros d Hd. unfold changed_row. simpl.
    rewrite (row_edit_id c c' He), String.eqb_sym.
    destruct (String.eqb_spec (card_id c) (card_id d)) as [Hcd|]; [|done].
    assert (d = c) as ->; [|done]. apply (NoDup_map_inj card_id (cards db)); [apply W| |done|done].
    by apply list_elem_of_In. }
  unfold restore_snapshot, exec. rewrite Hid.
  destruct (update_card _ _ db) as [db'|] eqn:Hu.
  - apply update_card_spec in Hu as [-> _]. by rewrite Hrows.
  - exfalso. enough (update_card (card_id c) (snapshot_row c') db =
      Some (set_cards (override [c'] (cards db)) db)) by congruence.
    apply update_card_spec. rewrite Hrows. split; [done|]. intros d Hd Hdc.
    assert (d = c) as -> by (apply (NoDup_map_inj card_id (cards db)); [apply W|done..]).
    rewrite Hrow. split; [done|]. split.
    { by rewrite <- (cards_parent_ok_ids (cards db)) by (by rewrite override_ids). }
    intros e Hee Hne Heq. apply Hne. f_equal. rewrite He in Heq. cbn in Heq.
    by apply (NoDup_map_inj (fun c => (card_project_id c, rel_path c)) (cards db)); [apply W|..].
Qed.

Lemma override_wf db changes :
  cards_wf db -> valid_changes (cards db) changes -> cards_wf (set_cards (override changes (cards db)) db).
Proof.
  intros W [Hn Hv].
  assert (Hrow : forall c', c' ∈ override changes (cards db) ->
    (exists c, c ∈ cards db /\ row_edit c c') /\ f64_is_nan (sort_key c') = false /\
    cards_parent_ok (cards db) c' = true).
  { intros c' (c & Hc & ->)%override_elem.
    destruct (changed_row_cases changes c) as [[Hin _]|[-> _]]; [by apply Hv|].
    split; [exists c; split; [done|by destruct c]|]. split; by apply W. }
  split; cbn [cards set_cards].
  - rewrite override_ids. apply W.
  - intros c' Hc'. destruct (Hrow c' Hc') as ((c & Hc & He) & _ & Hp).
    apply (wf_text db W), bind_card_id in Hc. apply bind_card_id.
    apply (parent_ok_bound db c' W) in Hp. rewrite He. cbn. rewrite He in Hp. cbn in Hp. tauto.
  - intros c' Hc'. by apply Hrow.
  - intros c' Hc'. rewrite (cards_parent_ok_ids _ (cards db)) by apply override_ids. by apply Hrow.
  - intros c' Hc'. destruct (Hrow c' Hc') as ((c & Hc & He) & _). rewrite He. exact (wf_projects db W c Hc).
  - unfold override. rewrite map_map, (map_ext_in _ (fun c => (card_project_id c, rel_path c))).
    { apply W. }
    intros c Hc. apply list_elem_of_In in Hc.
    destruct (changed_row_cases changes c) as [[Hin Hid]|[-> _]]; [|done].
    destruct (Hv _ Hin) as ((d & Hd & He) & _).
    assert (d = c) as ->.
    { apply (NoDup_map_inj card_id (cards db)); [apply W|done|done|]. rewrite <- Hid. symmetry. by apply row_edit_id. }
    by rewrite He.
Qed.

Lemma valid_changes_cons t c' changes :
  valid_changes t (c' :: changes) -> valid_changes t [c'] /\ valid_changes (override [c'] t) changes.
Proof.
  intros [Hn Hv]. simpl in Hn. apply NoDup_cons in Hn as [Hc Hn]. split.
  - split; [repeat constructor; set_solver|]. intros d ->%list_elem_of_singleton. apply Hv. by left.
  - split; [done|]. intros d Hd. destruct (Hv d) as ((c & Hct & He) & Hk & Hp); [by right|].
    split; [|split; [done|]].
    + exists c. split; [|done]. apply override_elem. exists c. split; [done|].
      rewrite changed_row_out; [done|]. simpl. intros Hin%list_elem_of_singleton. apply Hc.
      apply elem_of_map_id. exists d. by rewrite (row_edit_id c d He).
    + by rewrite (cards_parent_ok_ids _ t) by apply override_ids.
Qed.

Lemma write_snapshots_spec changes : forall db,
  cards_wf db -> valid_changes (cards db) changes ->
  write_snapshots changes db = (Ok tt, set_cards (override changes (cards db)) db).
Proof.
  induction changes as [|c' changes IH]; intros db W V.
  { unfold write_snapshots. simpl. rewrite override_nil. by destruct db. }
  destruct (valid_changes_cons _ _ _ V) as [V1 V2].
  destruct (proj2 V1 c') as ((c & Hc & He) & Hk & Hp); [by left|].
  unfold write_snapshots. cbn [for_each]. unfold bind.
  rewrite (restore_snapshot_spec db c c' W Hc He Hk Hp).
  pose proof (IH (set_cards (override [c'] (cards db)) db) (override_wf db [c'] W V1) V2) as H.
  unfold write_snapshots in H. rewrite H.
  cbn [cards set_cards]. rewrite <- override_cons; [done|].
  destruct V as [Hn _]. simpl in Hn. by apply NoDup_cons in Hn as [? _].
Qed.

(** ** Keeping cards reachable

    [still] are the ids of live cards that stay live in [t']: if each of them either
    hangs from a rooted parent in [t'], or keeps a parent that is still there, then
    whatever was rooted at one of them stays rooted. *)
Lemma rooted_transfer t t' pid (still : string -> Prop) :
  (forall a, a ∈ t -> card_project_id a = pid -> card_deleted a = false -> still (card_id a) ->
     exists a', a' ∈ t' /\ card_id a' = card_id a /\ card_project_id a' = pid /\
       card_deleted a' = false /\
       (rooted t' pid (parent_card_id a') \/
        (parent_card_id a' = parent_card_id a /\
         forall p, parent_card_id a = Some p -> still p))) ->
  forall o, rooted t pid o -> (forall id, o = Some id -> still id) -> rooted t' pid o.
Proof.
  intros H o (l & Hl & Hlive) Hs. remember (None : option string) as e eqn:He.
  induction Hl as [|id Hno|c l b Hc Hp Hl IH]; [apply rooted_none|done|].
  apply Forall_cons in Hlive as [Hcl Hlive].
  destruct (H c Hc Hp Hcl (Hs _ eq_refl)) as (c' & Hc' & Hid & Hp' & Hd' & Hroot).
  assert (rooted t' pid (parent_card_id c')) as (l' & Hl' & Hlive').
  { destruct Hroot as [Hr|[-> Hst]]; [done|]. by apply IH. }
  exists (c' :: l'). rewrite <- Hid. split; [by constructor|by constructor].
Qed.

Lemma rooted_parent t pid c :
  NoDup (map card_id t) -> c ∈ t -> rooted t pid (Some (card_id c)) ->
  card_project_id c = pid /\ card_deleted c = false /\ rooted t pid (parent_card_id c).
Proof.
  intros Hn Hc (l & Hl & Hlive). inversion Hl as [| |d l' b Hd Hp Hl' He]; subst.
  assert (d = c) as -> by (by apply (NoDup_map_inj card_id t)).
  apply Forall_cons in Hlive as [Hcl Hlive]. split_and!; [done..|]. by exists l'.
Qed.

Lemma changed_row_perm ws changes c :
  NoDup (map card_id changes) -> ws ≡ₚ changes -> changed_row ws c = changed_row changes c.
Proof.
  intros Hn Hp. destruct (changed_row_cases changes c) as [[Hin Hid]|[-> Hout]].
  - apply changed_row_in; [by rewrite Hp|by rewrite Hp|done].
  - apply changed_row_out. by rewrite Hp.
Qed.

Lemma override_perm ws changes t :
  NoDup (map card_id changes) -> ws ≡ₚ changes -> override ws t = override changes t.
Proof. intros Hn Hp. apply map_ext. intros c. by apply changed_row_perm. Qed.

Lemma valid_changes_perm t ws changes :
  ws ≡ₚ changes -> valid_changes t changes -> valid_changes t ws.
Proof. intros Hp [Hn H]. split; [by rewrite Hp|]. intros c'. rewrite Hp. apply H. Qed.

(** ** Writing an insertion

    A block of rows goes under the parent [p] of project [pid], among [destination];
    [extra] are further rows written with it, none of which is a live card there. *)
Section Insertion.
Context `{!SqlEngineLaws E} (db : Db) (W : cards_wf db) (pid : string) (p : option string).
Context (destination block after changed : list Card) (at_ : nat) (u : Z).
Hypothesis Hat : (at_ <= length destination)%nat.
Hypothesis Hparent : forall id, p = Some id -> card_exists id (cards db) = true.
Hypothesis Hdest : forall c, c ∈ destination ->
  c ∈ cards db /\ card_project_id c = pid /\ parent_card_id c = p /\ card_deleted c = false.
Hypothesis Hblock : forall b, b ∈ block ->
  (exists c, c ∈ cards db /\ row_edit c b) /\ card_project_id b = pid /\
  card_deleted b = false /\ f64_is_nan (sort_key b) = false.
Hypothesis Hnodup : NoDup (map card_id (destination ++ block)).
Hypothesis HR :
  respaced at_ (at_ + length block) u (placed destination at_ block p) after changed.

Lemma insertion_nan :
  Forall (fun c => f64_is_nan (sort_key c) = false) (destination ++ block).
Proof.
  apply Forall_app. split; apply Forall_forall; intros c Hc; [|by apply Hblock].
  apply (wf_keys db W). by apply Hdest.
Qed.

Lemma insertion_after c :
  c ∈ after -> (exists r, r ∈ cards db /\ row_edit r c) /\ card_project_id c = pid /\
    parent_card_id c = p /\ card_deleted c = false /\ f64_is_nan (sort_key c) = false.
Proof.
  intros Hc. assert (f64_is_nan (sort_key c) = false) as Hk.
  { pose proof (inserted_nan Hat HR insertion_nan) as H.
    rewrite Forall_forall in H. by apply H. }
  destruct (inserted_origin HR c Hc) as [(d & Hd & Hr)|(b & Hb & Hr)].
  - destruct (Hdest d Hd) as (H1 & H2 & H3 & H4). rewrite Hr in *. cbn in *.
    split_and!; try done. exists d. split; [done|]. by destruct d.
  - destruct (Hblock b Hb) as ((r & Hrow & He) & H2 & H3 & H4). rewrite Hr in *. cbn in *.
    split_and!; try done. exists r. split; [done|]. rewrite He in *. by destruct r.
Qed.

Lemma insertion_ids_perm : map card_id after ≡ₚ map card_id (destination ++ block).
Proof.
  rewrite (inserted_ids HR), map_app.
  rewrite <- (take_drop at_ destination) at 3. rewrite map_app, <- !(assoc_L (++)).
  apply Permutation_app_head, Permutation_app_comm.
Qed.

Lemma insertion_after_nodup : NoDup (map card_id after).
Proof. by rewrite insertion_ids_perm. Qed.

Lemma insertion_changed_nodup : NoDup (map card_id changed).
Proof.
  eapply sublist_NoDup; [apply insertion_after_nodup|].
  apply (fmap_sublist card_id), (rs_sublist _ _ _ _ _ _ HR).
Qed.

Lemma insertion_changed c :
  c ∈ changed -> c ∈ after.
Proof. intros Hc. by apply (inserted_changed HR). Qed.

Lemma insertion_parent_ok c : parent_card_id c = p -> cards_parent_ok (cards db) c = true.
Proof. unfold cards_parent_ok. intros ->. destruct p as [id|]; [by apply Hparent|done]. Qed.

Lemma insertion_valid : valid_changes (cards db) changed.
Proof.
  split; [apply insertion_changed_nodup|]. intros c Hc.
  destruct (insertion_after c (insertion_changed c Hc)) as (Hr & _ & Hp & _ & Hk).
  split_and!; [done|done|by apply insertion_parent_ok].
Qed.

(** Every row is unchanged, is one of the extra rows, or is live under [p]. *)
Lemma insertion_row ws extra c :
  ws ≡ₚ extra ++ changed -> c ∈ cards db ->
  changed_row ws c = c \/ changed_row ws c ∈ extra \/
  (card_deleted (changed_row ws c) = false /\ parent_card_id (changed_row ws c) = p /\
   (c ∈ destination \/ card_id c ∈ map card_id block)).
Proof.
  intros Hws Hc. destruct (changed_row_cases ws c) as [[Hin Hid]|[-> _]]; [|by left].
  assert (changed_row ws c ∈ extra ++ changed) as Hin' by (by rewrite <- Hws).
  apply elem_of_app in Hin' as [H|H]; [auto|]. right. right.
  apply insertion_changed in H. destruct (insertion_after _ H) as (_ & _ & Hp & Hd & _).
  split; [done|]. split; [done|].
  destruct (inserted_origin HR _ H) as [(d & Hd1 & Hr)|(b & Hb & Hr)].
  - left. assert (c = d) as ->; [|done].
    apply (NoDup_map_inj card_id (cards db)); [apply W|done|by apply Hdest|].
    apply rekeyed_id in Hr. congruence.
  - right. apply elem_of_map_id. exists b. split; [done|]. apply rekeyed_id in Hr. cbn in Hr. congruence.
Qed.

(** The siblings after the write are the list the insertion computed. *)
Context (ws extra : list Card) (q : Card).
Hypothesis Hws : ws ≡ₚ extra ++ changed.
Hypothesis Hvalid : valid_changes (cards db) ws.
Hypothesis Hsorted : StronglySorted tree_lt destination.
Hypothesis Hextra : forall e, e ∈ extra ->
  card_id e ∉ map card_id (destination ++ block) /\ card_deleted e = true.
Hypothesis Hall : forall c, c ∈ cards db -> card_project_id c = pid -> parent_card_id c = p ->
  card_deleted c = false ->
  card_id c ∈ map card_id (extra ++ destination ++ block).
Hypothesis Hqp : bind_text (card_project_id q) = pid.
Hypothesis Hqq : bind_text_optional (parent_card_id q) = p.

Lemma insertion_siblings :
  siblings (set_cards (override ws (cards db)) db) q = after.
Proof.
  set (db' := set_cards _ db). assert (W' : cards_wf db') by (by apply override_wf).
  assert (Hn : NoDup (map card_id ws)) by apply Hvalid.
  assert (Hwse : forall x, x ∈ ws <-> x ∈ extra ++ changed) by (intros x; by rewrite Hws).
  apply (StronglySorted_perm_eq tree_cmp).
  - intros x y Hx Hy He. apply (NoDup_map_inj card_id (siblings db' q)); [by apply siblings_nodup|done|done|].
    by apply tree_cmp_eq.
  - eapply StronglySorted_weaken; [|by apply siblings_sorted]. apply tree_lt_le.
  - eapply StronglySorted_weaken; [apply tree_lt_le|].
    apply (rs_sorted _ _ _ _ _ _ HR). by rewrite placed_outside.
  - apply NoDup_Permutation; [eapply NoDup_fmap_1, siblings_nodup; done|eapply NoDup_fmap_1, insertion_after_nodup|].
    intros y. rewrite siblings_elem, Hqp, Hqq. unfold db'. cbn [cards set_cards].
    rewrite override_elem. split.
    + intros ((c & Hc & ->) & Hp & Hpar & Hd).
      destruct (changed_row_cases ws c) as [[Hin _]|[Heq Hout]].
      * apply Hwse, elem_of_app in Hin as [Hin|Hin]; [|by apply insertion_changed].
        destruct (Hextra _ Hin) as [_ Hdel]. congruence.
      * rewrite Heq in *. rewrite Hws, map_app in Hout.
        specialize (Hall c Hc Hp Hpar Hd). rewrite map_app in Hall.
        apply elem_of_app in Hall as [H|Hin]; [set_solver|].
        rewrite <- insertion_ids_perm in Hin. apply elem_of_map_id in Hin as (c2 & Hc2 & Hid).
        destruct (inserted_kept Hat HR c2 Hc2) as [Hch|Hd2].
        { exfalso. apply Hout, elem_of_app. right. rewrite Hid. apply elem_of_map_id. eauto. }
        assert (c = c2) as ->; [|done].
        apply (NoDup_map_inj card_id (cards db)); [apply W|done|by apply Hdest|done].
    + intros Hy. destruct (insertion_after y Hy) as ((r & Hr & He) & Hp & Hpar & Hd & _).
      split; [|done]. exists r. split; [done|].
      destruct (decide (y ∈ changed)) as [Hch|Hch].
      { symmetry. apply changed_row_in; [done| |by apply row_edit_id]. apply Hwse. set_solver. }
      destruct (inserted_kept Hat HR y Hy) as [?|Hyd]; [done|].
      assert (r = y) as ->.
      { apply (NoDup_map_inj card_id (cards db)); [apply W|done|by apply Hdest|].
        symmetry. by apply row_edit_id. }
      symmetry. apply changed_row_out. rewrite Hws, map_app. intros [H|H]%elem_of_app.
      * apply elem_of_map_id in H as (e & He1 & He2). destruct (Hextra e He1) as [Hex _].
        apply Hex. rewrite <- insertion_ids_perm, <- He2. apply elem_of_map_id. eauto.
      * apply elem_of_map_id in H as (e & He1 & He2). apply Hch.
        assert (y = e) as ->; [|done].
        apply (NoDup_map_inj card_id after); [apply insertion_after_nodup|done|by apply insertion_changed|done].
Qed.
End Insertion.

(** ** Reachability after a write *)

Lemma lineage_parent_in t pid o l a x :
  lineage t pid o l None -> a ∈ l -> parent_card_id a = Some x -> x ∈ map card_id l.
Proof.
  intros Hl Ha Hx. apply list_elem_of_split in Ha as (l1 & l2 & ->).
  pose proof (lineage_suffix _ _ _ _ _ _ _ Hl) as H. rewrite Hx in H.
  inversion H as [| |c l' b Hc Hp Hl' He]; subst. rewrite map_app. simpl. set_solver.
Qed.

Lemma lineage_bound db (W : cards_wf db) pid p l :
  lineage (cards db) pid p l None -> bind_text_optional p = p.
Proof.
  inversion 1 as [| |c k b Hc Hcp Hk He]; subst; [done|].
  apply (wf_text db W), bind_card_id in Hc. simpl. f_equal. tauto.
Qed.

(** What the client of [reachable_card_parent] relies on: a live chain to a root
    that avoids the card. *)
Lemma reachable_chain `{!SqlEngineLaws E} db (W : cards_wf db) card p :
  bind_text_optional (parent_card_id card) = parent_card_id card ->
  reachable_card_parent db card = Ok p ->
  exists l, lineage (cards db) (card_project_id card) p l None /\ live_chain l /\
    card_id card ∉ map card_id l /\ p <> Some (card_id card) /\
    parent_card_id card <> Some (card_id card).
Proof.
  intros Hb H. pose proof (reachable_card_parent_spec db W card Hb) as Hs. rewrite H in Hs.
  destruct Hs as (l & e & Hl & Hid & ->).
  assert (Hself : parent_card_id card <> Some (card_id card)).
  { intros He. rewrite He in Hl. apply Hid. unfold path_ids. inversion Hl; subst; simpl; set_solver. }
  destruct e as [m|]; [exists []; split_and!; [constructor..|set_solver|done|done]|].
  pose proof (nearest_live_suffix l) as Hsuf. destruct (nearest_live None l) as [id|].
  2: { exists []. split_and!; [constructor..|set_solver|done|done]. }
  destruct Hsuf as (l1 & a & l2 & -> & <- & Hall).
  unfold path_ids in Hid. rewrite app_nil_r, map_app in Hid.
  exists (a :: l2). split; [by eapply lineage_suffix_start|]. split; [done|].
  split; [set_solver|]. split; [|done]. intros [= He]. apply Hid. rewrite <- He. set_solver.
Qed.

Lemma validate_reachable `{E : SqlEngine} db card :
  validate_card_parent db card = Ok tt -> reachable_card_parent db card = Ok (parent_card_id card).
Proof.
  unfold validate_card_parent, opt_eqb. destruct (reachable_card_parent db card) as [p|]; [|done].
  simpl. case_bool_decide; [|done]. by intros _; subst.
Qed.

Lemma changed_row_edit t changes c :
  NoDup (map card_id t) -> valid_changes t changes -> c ∈ t -> row_edit c (changed_row changes c).
Proof.
  intros Hn [_ Hv] Hc. destruct (changed_row_cases changes c) as [[Hin Hid]|[-> _]]; [|by destruct c].
  destruct (Hv _ Hin) as ((d & Hd & He) & _).
  assert (d = c) as <-; [|done]. apply (NoDup_map_inj card_id t); [done..|].
  rewrite <- Hid. symmetry. by apply row_edit_id.
Qed.

(** [p] is the destination, with its chain [l] to a root; [gone] is the card that
    the write takes away, if any. *)
Section Reach.
Context (t changes : list Card) (Hn : NoDup (map card_id t)) (Hv : valid_changes t changes).
Context (pid : string) (p gone : option string) (l : list Card).
Hypothesis Hl : lineage t pid p l None.
Hypothesis Hchain : forall a, a ∈ l ->
  card_deleted (changed_row changes a) = false /\
  parent_card_id (changed_row changes a) = parent_card_id a.

Lemma row_project c : c ∈ t -> card_project_id (changed_row changes c) = card_project_id c.
Proof. intros Hc. by rewrite (changed_row_edit t changes c Hn Hv Hc). Qed.

Lemma override_rooted : rooted (override changes t) pid p.
Proof.
  revert Hl Hchain. generalize p. remember (None : option string) as e.
  intros o Hlin. induction Hlin as [| |c k b Hc Hp Hlin IH]; [|done|].
  { intros _. apply rooted_none. }
  intros Hch. destruct (Hch c) as [Hd Hpar]; [by left|].
  destruct IH as (k' & Hk' & Hlive); [done|set_solver|].
  exists (changed_row changes c :: k'). split; [|by constructor].
  rewrite <- (changed_row_id changes c). constructor.
  - apply override_elem. eauto.
  - by rewrite row_project.
  - by rewrite Hpar.
Qed.

Hypothesis Hrows : forall c, c ∈ t -> card_project_id c = pid -> card_deleted c = false ->
  Some (card_id c) <> gone ->
  card_deleted (changed_row changes c) = false /\
  (parent_card_id (changed_row changes c) = p \/
   (parent_card_id (changed_row changes c) = parent_card_id c /\
    forall x, parent_card_id c = Some x -> Some x <> gone)).

Lemma override_visible c :
  c ∈ t -> card_project_id c = pid -> Some (card_id c) <> gone -> visible t c ->
  visible (override changes t) (changed_row changes c).
Proof.
  intros Hc Hp Hg [Hd Hr]. destruct (Hrows c Hc Hp Hd Hg) as [Hd' Hpar].
  split; [done|]. rewrite row_project, Hp by done. rewrite Hp in Hr.
  destruct Hpar as [->|[-> Hx]]; [apply override_rooted|].
  apply (rooted_transfer t _ pid (fun x => Some x <> gone)); [|done|done].
  intros a Ha Hap Had Hag. destruct (Hrows a Ha Hap Had Hag) as [Hd2 Hpar2].
  exists (changed_row changes a). rewrite changed_row_id, row_project by done.
  split_and!; try done; [apply override_elem; eauto|].
  destruct Hpar2 as [->|H]; [left; apply override_rooted|by right].
Qed.
End Reach.
(** Everything the callers need to know about a written insertion. *)
Section Outcome.
Context `{!SqlEngineLaws E} (db : Db) (W : cards_wf db) (pid : string) (p gone : option string).
Context (destination block after changed ws extra l : list Card) (at_ : nat) (u : Z) (q : Card).
Hypothesis Hat : (at_ <= length destination)%nat.
Hypothesis Hl : lineage (cards db) pid p l None.
Hypothesis Hlive : live_chain l.
Hypothesis Hout : forall a, a ∈ l -> card_id a ∉ map card_id (extra ++ block).
Hypothesis Hdest : forall c, c ∈ destination ->
  c ∈ cards db /\ card_project_id c = pid /\ parent_card_id c = p /\ card_deleted c = false.
Hypothesis Hblock : forall b, b ∈ block ->
  (exists c, c ∈ cards db /\ row_edit c b) /\ card_project_id b = pid /\
  card_deleted b = false /\ f64_is_nan (sort_key b) = false.
Hypothesis Hnodup : NoDup (map card_id (destination ++ block)).
Hypothesis HR :
  respaced at_ (at_ + length block) u (placed destination at_ block p) after changed.
Hypothesis Hsorted : StronglySorted tree_lt destination.
Hypothesis Hws : ws ≡ₚ extra ++ changed.
Hypothesis Hextra : forall e, e ∈ extra ->
  (card_id e ∉ map card_id (destination ++ block) /\ card_deleted e = true) /\
  (exists c, c ∈ cards db /\ row_edit c e) /\ f64_is_nan (sort_key e) = false /\
  cards_parent_ok (cards db) e = true /\ Some (card_id e) = gone.
Hypothesis Hextra_nodup : NoDup (map card_id extra).
Hypothesis Hall : forall c, c ∈ cards db -> card_project_id c = pid -> parent_card_id c = p ->
  card_deleted c = false -> card_id c ∈ map card_id (extra ++ destination ++ block).
Hypothesis Hgone : forall c, c ∈ cards db -> card_project_id c = pid -> card_deleted c = false ->
  parent_card_id c <> None -> parent_card_id c = gone -> card_id c ∈ map card_id block.
Hypothesis Hqp : bind_text (card_project_id q) = pid.
Hypothesis Hqq : bind_text_optional (parent_card_id q) = p.

Lemma outcome_parent id : p = Some id -> card_exists id (cards db) = true.
Proof.
  intros ->. apply card_exists_spec. inversion Hl as [| |c k b Hc Hp Hk He]; subst.
  apply elem_of_map_id. eauto.
Qed.

Lemma outcome_valid : valid_changes (cards db) ws.
Proof.
  apply (valid_changes_perm _ _ _ Hws).
  pose proof (insertion_valid db W pid p destination block after changed at_ u Hat outcome_parent
    Hdest Hblock Hnodup HR) as [Hn Hv].
  split.
  - rewrite map_app. apply list.NoDup_app. split_and!; [done| |done].
    intros id (e & He & ->)%elem_of_map_id (c & Hc & Hid)%elem_of_map_id.
    destruct (Hextra e He) as [[Hno _] _]. apply Hno. rewrite Hid.
    pose proof (insertion_ids_perm p destination block after changed at_ u HR) as Hp.
    rewrite <- Hp. apply elem_of_map_id. exists c. split; [|done].
    by apply (insertion_changed p destination block after changed at_ u HR).
  - intros c [Hc|Hc]%elem_of_app; [|by apply Hv]. destruct (Hextra c Hc) as (_ & ? & ? & ? & _).
    by split_and!.
Qed.

Lemma outcome_block c :
  c ∈ cards db -> card_id c ∈ map card_id block ->
  card_deleted (changed_row ws c) = false /\ parent_card_id (changed_row ws c) = p.
Proof.
  intros Hc (b & Hb & Hid)%elem_of_map_id.
  destruct (inserted_block Hat HR b Hb) as (c' & Hc' & Hr).
  assert (changed_row ws c = c') as ->.
  { apply changed_row_in; [apply outcome_valid| |apply rekeyed_id in Hr; cbn in Hr; congruence].
    rewrite Hws. apply elem_of_app. by right. }
  pose proof (insertion_changed p destination block after changed at_ u HR c' Hc') as Ha.
  pose proof (insertion_after db W pid p destination block after changed at_ u Hat Hdest Hblock HR c' Ha).
  tauto.
Qed.

Lemma outcome_chain a :
  a ∈ l -> card_deleted (changed_row ws a) = false /\
           parent_card_id (changed_row ws a) = parent_card_id a.
Proof.
  intros Ha. destruct (lineage_cards (cards db) (wf_ids db W) pid p l None Hl a Ha) as [Hat' _]. specialize (Hout a Ha).
  rewrite map_app, not_elem_of_app in Hout. destruct Hout as [Ho1 Ho2].
  destruct (insertion_row db W pid p destination block after changed at_ u Hat Hdest Hblock HR
    ws extra a Hws Hat') as [->|[Hin|(Hd & Hpar & [Hin|Hin])]].
  - split; [|done]. unfold live_chain in Hlive. rewrite Forall_forall in Hlive. by apply Hlive.
  - destruct Ho1. apply elem_of_map_id. exists (changed_row ws a). by rewrite changed_row_id.
  - split; [done|]. rewrite Hpar. symmetry. by apply Hdest.
  - done.
Qed.

Lemma insertion_outcome :
  let t' := override ws (cards db) in
  write_snapshots ws db = (Ok tt, set_cards t' db) /\ cards_wf (set_cards t' db) /\
  siblings (set_cards t' db) q = after /\ rooted t' pid p /\
  (forall c, c ∈ cards db -> card_project_id c = pid -> Some (card_id c) <> gone ->
     visible (cards db) c -> visible t' (changed_row ws c)).
Proof.
  cbv zeta. pose proof outcome_valid as V. split; [by apply write_snapshots_spec|].
  split; [by apply override_wf|]. split.
  { apply (insertion_siblings db W pid p destination block after changed at_ u Hat outcome_parent
      Hdest Hblock Hnodup HR ws extra q Hws V Hsorted); [|done..]. intros e He. by apply Hextra. }
  assert (Hr : rooted (override ws (cards db)) pid p).
  { by apply (override_rooted _ ws (wf_ids db W) V pid p l Hl outcome_chain). }
  split; [done|]. intros c Hc Hp Hg Hv.
  apply (override_visible _ ws (wf_ids db W) V pid p gone l Hl outcome_chain); [|done..].
  clear c Hc Hp Hg Hv. intros c Hc Hp Hd Hg.
  destruct (decide (card_id c ∈ map card_id block)) as [Hb|Hb].
  { destruct (outcome_block c Hc Hb). auto. }
  destruct (insertion_row db W pid p destination block after changed at_ u Hat Hdest Hblock HR
    ws extra c Hws Hc) as [->|[Hin|(Hd' & Hpar & _)]].
  - split; [done|]. right. split; [done|]. intros x Hx Hxg. apply Hb, Hgone; try done; congruence.
  - exfalso. destruct (Hextra _ Hin) as (_ & _ & _ & _ & He). by rewrite changed_row_id in He.
  - auto.
Qed.
End Outcome.
(** The siblings of a row, or of a row given another parent. *)
Section RowSiblings.
Context `{!SqlEngineLaws E} (db : Db) (W : cards_wf db) (card : Card) (p : option string).
Hypothesis Hc : card ∈ cards db.
Hypothesis Hb : bind_text_optional p = p.

Lemma row_project_bound : bind_text (card_project_id card) = card_project_id card.
Proof. apply (wf_text db W), bind_card_id in Hc. tauto. Qed.

Lemma row_siblings_elem q c :
  card_project_id q = card_project_id card -> parent_card_id q = p ->
  c ∈ siblings db q <->
  c ∈ cards db /\ card_project_id c = card_project_id card /\ parent_card_id c = p /\
  card_deleted c = false.
Proof. intros Hq Hp. by rewrite siblings_elem, Hq, Hp, Hb, row_project_bound. Qed.

Lemma rows_cover q id c :
  card_project_id q = card_project_id card -> parent_card_id q = p ->
  c ∈ cards db -> card_project_id c = card_project_id card -> parent_card_id c = p ->
  card_deleted c = false -> card_id c <> id ->
  card_id c ∈ map card_id (without id (siblings db q)).
Proof.
  intros Hq Hp H1 H2 H3 H4 H5. apply elem_of_map_id. exists c. split; [|done].
  apply without_elem. split; [|done]. by apply row_siblings_elem.
Qed.

Lemma without_siblings q :
  card_project_id q = card_project_id card -> parent_card_id q = p ->
  let d := without (card_id card) (siblings db q) in
  (forall c, c ∈ d -> c ∈ cards db /\ card_project_id c = card_project_id card /\
     parent_card_id c = p /\ card_deleted c = false) /\
  card_id card ∉ map card_id d /\ NoDup (map card_id d) /\ StronglySorted tree_lt d.
Proof.
  intros Hq Hp. cbv zeta. split; [|split; [|split]].
  - intros c [Hs _]%without_elem. by apply row_siblings_elem in Hs.
  - intros (d & [_ Hd]%without_elem & He)%elem_of_map_id. done.
  - apply NoDup_map_filter. by apply siblings_nodup.
  - apply list_filter_strongly_sorted. by apply siblings_sorted.
Qed.
End RowSiblings.

Lemma validate_rooted `{!SqlEngineLaws E} db (W : cards_wf db) card p :
  bind_text_optional (parent_card_id card) = parent_card_id card ->
  reachable_card_parent db card = Ok p ->
  rooted (cards db) (card_project_id card) (parent_card_id card) -> p = parent_card_id card.
Proof.
  intros Hb H (l & Hl & Hlive). pose proof (reachable_card_parent_spec db W card Hb) as Hs.
  rewrite H in Hs. destruct Hs as (l' & e & Hl' & Hid & _).
  destruct (lineage_fun _ (wf_ids db W) _ _ _ _ _ _ Hl Hl') as [<- <-].
  assert (validate_card_parent db card = Ok tt) as Hv.
  { apply validate_card_parent_spec; [done|done|]. exists l. split_and!; [done|done|].
    unfold path_ids in Hid. by rewrite app_nil_r in Hid. }
  apply validate_reachable in Hv. congruence.
Qed.
(** ** One card under another parent

    [c] is a live edit of the row [card]; it goes among the other live cards under
    [p], whose chain [l] to a root avoids the card. *)
Section Single.
Context `{!SqlEngineLaws E} (db : Db) (W : cards_wf db) (card c : Card) (p : option string).
Context (l after changes ws : list Card) (at_ : nat) (u : Z).
Hypothesis Hcard : card ∈ cards db.
Hypothesis Hl : lineage (cards db) (card_project_id card) p l None.
Hypothesis Hlive : live_chain l.
Hypothesis Hid : card_id card ∉ map card_id l.
Hypothesis Hedit : row_edit card c.
Hypothesis Hlivec : card_deleted c = false.
Hypothesis Hkey : f64_is_nan (sort_key c) = false.

Definition others : list Card := without (card_id card) (siblings db (set_card_parent p card)).

Lemma single_bound : bind_text_optional p = p.
Proof. by apply (lineage_bound db W (card_project_id card) p l). Qed.

Lemma single_others :
  (forall d, d ∈ others -> d ∈ cards db /\ card_project_id d = card_project_id card /\
     parent_card_id d = p /\ card_deleted d = false) /\
  card_id card ∉ map card_id others /\ NoDup (map card_id others) /\ StronglySorted tree_lt others.
Proof. by apply (without_siblings db W card p Hcard single_bound (set_card_parent p card)). Qed.

Lemma single_block b :
  b ∈ [c] -> (exists r, r ∈ cards db /\ row_edit r b) /\ card_project_id b = card_project_id card /\
  card_deleted b = false /\ f64_is_nan (sort_key b) = false.
Proof.
  intros ->%list_elem_of_singleton. split; [by exists card|]. split_and!; [by rewrite Hedit|done|done].
Qed.

Lemma single_nodup : NoDup (map card_id (others ++ [c])).
Proof.
  destruct single_others as (_ & Hn & Hd & _). rewrite map_app. apply list.NoDup_app.
  split_and!; [done| |apply NoDup_singleton].
  intros x Hx Hx2%list_elem_of_singleton. rewrite (row_edit_id card c Hedit) in Hx2. congruence.
Qed.

Lemma single_nan : Forall (fun d => f64_is_nan (sort_key d) = false) (others ++ [c]).
Proof.
  apply (insertion_nan db W (card_project_id card) p); [apply single_others|apply single_block].
Qed.

(** A card that is not live is not among the siblings anyway. *)
Lemma others_deleted :
  card_deleted card = true -> siblings db (set_card_parent p card) = others.
Proof.
  intros Hdel. symmetry. apply list_filter_all. intros x Hx. apply negb_true_iff, String.eqb_neq.
  intros He. apply (row_siblings_elem db W card p Hcard single_bound) in Hx as (Hx & _ & _ & Hxd);
    [|done..].
  assert (x = card) as -> by (apply (NoDup_map_inj card_id (cards db)); [apply W|done..]). congruence.
Qed.

Hypothesis Hat : (at_ <= length others)%nat.
Hypothesis HR : respaced at_ (at_ + length [c]) u (placed others at_ [c] p) after changes.
Hypothesis Hws : ws ≡ₚ changes.

Lemma single_outcome q :
  card_project_id q = card_project_id card -> parent_card_id q = p ->
  let t' := override ws (cards db) in
  write_snapshots ws db = (Ok tt, set_cards t' db) /\ cards_wf (set_cards t' db) /\
  siblings (set_cards t' db) q = after /\ rooted t' (card_project_id card) p /\
  (forall d, d ∈ cards db -> card_project_id d = card_project_id card -> visible (cards db) d ->
     exists d', d' ∈ t' /\ card_id d' = card_id d /\ visible t' d').
Proof.
  intros Hqp Hqq. cbv zeta. destruct single_others as (Hdest & _ & _ & Hds).
  pose proof (insertion_outcome db W (card_project_id card) p None others [c] after changes
    ws [] l at_ u q Hat Hl Hlive) as Ho.
  destruct Ho as (Hw & W' & Hsib & Hroot & Hvis); try done.
  - intros a Ha. simpl. intros He%list_elem_of_singleton. apply Hid.
    rewrite (row_edit_id card c Hedit) in He. rewrite <- He. apply elem_of_map_id. eauto.
  - apply single_block.
  - apply single_nodup.
  - intros e He. by apply not_elem_of_nil in He.
  - constructor.
  - intros d Hd Hdp Hpar Hdd. simpl. rewrite map_app. apply elem_of_app.
    destruct (decide (card_id d = card_id card)) as [He|];
      [right; simpl; rewrite (row_edit_id card c Hedit); set_solver|left].
    by apply (rows_cover db W card p Hcard single_bound (set_card_parent p card)).
  - rewrite Hqp. by apply (row_project_bound db W card).
  - rewrite Hqq. apply single_bound.
  - split_and!; try done. intros d Hd Hdp Hvd. exists (changed_row ws d). rewrite changed_row_id.
    split; [apply override_elem; eauto|]. split; [done|]. by apply Hvis.
Qed.

(** The card itself is among the changes, under [p], and can be reached. *)
Lemma single_card :
  exists c', c' ∈ changes /\ rekeyed (set_card_parent p c) c' /\ updated_at c' = u /\
    f64_is_finite (sort_key c') = true /\ c' ∈ override ws (cards db) /\
    visible (override ws (cards db)) c'.
Proof.
  destruct (inserted_block Hat HR c) as (c' & Hc' & Hr); [by left|].
  destruct (inserted_changed HR c' Hc') as (Ha & Hu & Hf).
  destruct (single_outcome (set_card_parent p card) eq_refl eq_refl) as (_ & _ & Hsib & Hroot & _).
  destruct (insertion_after db W (card_project_id card) p _ _ _ _ _ _ Hat (proj1 single_others)
    single_block HR c' Ha) as (_ & Hp & Hpar & Hd & _).
  exists c'. split_and!; try done.
  - rewrite <- Hsib in Ha. apply siblings_elem in Ha. tauto.
  - split; [done|]. by rewrite Hp, Hpar.
Qed.

Lemma single_untouched d :
  d ∈ cards db -> card_id d ∉ card_id card :: map card_id others -> d ∈ override ws (cards db).
Proof.
  intros Hd Hn. apply override_elem. exists d. split; [done|]. symmetry.
  apply changed_row_out. rewrite Hws. intros (e & He & Hde)%elem_of_map_id.
  pose proof (insertion_changed p _ _ _ _ _ _ HR e He) as Hea.
  assert (card_id d ∈ map card_id after) as Hin by (apply elem_of_map_id; eauto).
  rewrite (insertion_ids_perm p others [c] after changes at_ u HR), map_app in Hin.
  simpl in Hin. rewrite (row_edit_id card c Hedit) in Hin. set_solver.
Qed.
End Single.
(** ** The children of a card under another parent

    All live children of [P] go among the other live cards under [p], whose chain
    [l] to a root avoids [P], while [P] itself goes to the trash. *)
Definition trashed (deleted_at_ : Z) (c : Card) : Card :=
  set_card_deleted_at (Some deleted_at_) (set_card_updated_at deleted_at_ c).

Section Promoted.
Context `{!SqlEngineLaws E} (db : Db) (W : cards_wf db) (P : Card) (p : option string).
Context (l after changes ws : list Card) (at_ : nat) (u : Z).
Hypothesis HP : P ∈ cards db.
Hypothesis Hlive : card_deleted P = false.
Hypothesis Hl : lineage (cards db) (card_project_id P) p l None.
Hypothesis Hll : live_chain l.
Hypothesis Hid : card_id P ∉ map card_id l.
Hypothesis Hpself : p <> Some (card_id P).
Hypothesis Hself : parent_card_id P <> Some (card_id P).

Definition children : list Card := siblings db (set_card_parent (Some (card_id P)) P).

Lemma children_elem c :
  c ∈ children <-> c ∈ cards db /\ card_project_id c = card_project_id P /\
    parent_card_id c = Some (card_id P) /\ card_deleted c = false.
Proof.
  apply (row_siblings_elem db W P); [done| |done|done].
  apply (wf_text db W), bind_card_id in HP. simpl. f_equal. tauto.
Qed.

Lemma children_rows b :
  b ∈ children -> (exists c, c ∈ cards db /\ row_edit c b) /\
    card_project_id b = card_project_id P /\ card_deleted b = false /\ f64_is_nan (sort_key b) = false.
Proof.
  intros (Hb & Hp & _ & Hd)%children_elem. split; [exists b; split; [done|by destruct b]|].
  split_and!; [done..|]. by apply (wf_keys db W).
Qed.

(** A child of [P] is neither [P], nor under [p], nor an ancestor of [p]. *)
Lemma not_child c :
  c ∈ cards db -> c = P \/ parent_card_id c = p \/ c ∈ l -> card_id c ∉ map card_id children.
Proof.
  intros Hc H (d & Hd & He)%elem_of_map_id. apply children_elem in Hd as (Hd & _ & Hdp & _).
  assert (c = d) as -> by (apply (NoDup_map_inj card_id (cards db)); [apply W|done..]).
  destruct H as [->|[H|H]]; [done|congruence|].
  apply Hid. by apply (lineage_parent_in _ _ _ _ d _ Hl).
Qed.

Lemma promoted_nodup : NoDup (map card_id (others db P p ++ children)).
Proof.
  destruct (single_others db W P p l HP Hl) as (Hdest & _ & Hn & _).
  rewrite map_app. apply list.NoDup_app. split_and!; [done| |by apply siblings_nodup].
  intros x (d & Hd & ->)%elem_of_map_id. destruct (Hdest d Hd) as (H1 & _ & H3 & _).
  by apply not_child; auto.
Qed.

Hypothesis Hat : (at_ <= length (others db P p))%nat.
Hypothesis HR :
  respaced at_ (at_ + length children) u (placed (others db P p) at_ children p) after changes.
Hypothesis Hws : ws ≡ₚ trashed u P :: changes.

Lemma promoted_outcome q :
  card_project_id q = card_project_id P -> parent_card_id q = p ->
  let t' := override ws (cards db) in
  write_snapshots ws db = (Ok tt, set_cards t' db) /\ cards_wf (set_cards t' db) /\
  siblings (set_cards t' db) q = after /\
  (forall c, c ∈ cards db -> card_project_id c = card_project_id P -> card_id c <> card_id P ->
     visible (cards db) c -> exists c', c' ∈ t' /\ card_id c' = card_id c /\ visible t' c').
Proof.
  intros Hqp Hqq. cbv zeta.
  destruct (single_others db W P p l HP Hl) as (Hdest & Hnid & _ & Hds).
  pose proof (insertion_outcome db W (card_project_id P) p (Some (card_id P)) (others db P p) children
    after changes ws [trashed u P] l at_ u q Hat Hl Hll) as Ho.
  destruct Ho as (Hw & W' & Hsib & _ & Hvis); try done.
  - intros a Ha. rewrite map_app. apply not_elem_of_app. split.
    + intros He%list_elem_of_singleton. apply Hid, elem_of_map_id. exists a. by rewrite He.
    + apply not_child; [|auto]. by apply (lineage_cards _ (wf_ids db W) _ _ _ _ Hl a).
  - apply children_rows.
  - apply promoted_nodup.
  - intros e ->%list_elem_of_singleton. split; [split; [|done]|].
    + rewrite map_app. apply not_elem_of_app. split; [done|]. by apply (not_child P); auto.
    + split; [exists P; split; [done|by destruct P]|]. split; [exact (wf_keys db W P HP)|].
      split; [exact (wf_parents db W P HP)|done].
  - apply NoDup_singleton.
  - intros c Hc Hcp Hpar Hd. simpl. destruct (decide (card_id c = card_id P)) as [->|]; [by left|right].
    rewrite map_app. apply elem_of_app. left.
    by apply (rows_cover db W P p HP (single_bound db W P p l Hl) (set_card_parent p P)).
  - intros c Hc Hcp Hd _ Hpar. apply elem_of_map_id. exists c. split; [|done]. by apply children_elem.
  - rewrite Hqp. by apply (row_project_bound db W P).
  - rewrite Hqq. by apply (single_bound db W P p l).
  - split_and!; try done. intros c Hc Hcp Hne Hv. exists (changed_row ws c).
    rewrite changed_row_id. split; [apply override_elem; eauto|]. split; [done|].
    apply Hvis; [done|done|congruence|done].
Qed.
End Promoted.
End CardHierarchyFacts.

Module CardHierarchyTheorems.
Import CardHierarchy CardHierarchyFacts CardRepoTheorems.

Lemma insert_block_Ok dest at_ block p u changes :
  insert_block dest at_ block p u = Ok changes ->
  exists after, insert_block_into dest at_ block p u = Ok (changes, after).
Proof.
  unfold insert_block. destruct (insert_block_into _ _ _ _ _) as [[ch af]|]; simpl; [|done].
  intros [= <-]. by exists af.
Qed.

Lemma map_take {A B} (f : A -> B) n l : map f (take n l) = take n (map f l).
Proof. revert l. induction n as [|n IH]; intros [|x l]; simpl; [done..|by rewrite IH]. Qed.
Lemma map_drop {A B} (f : A -> B) n l : map f (drop n l) = drop n (map f l).
Proof. revert l. induction n as [|n IH]; intros [|x l]; simpl; [done..|by rewrite IH]. Qed.

(** C28: the ancestor walk always ends. It answers the nearest ancestor above which
    every card is live, or the top level when there is none or the chain is broken,
    and fails exactly when the chain runs into a loop or into the card itself; and
    [validate_card_parent] accepts exactly the parents that are live, in the card's
    own project, with live ancestors up to a root and none of them the card. *)
Theorem reachable_card_parent_correct (E : SqlEngine) (db : Db) (card : Card) :
  SqlEngineLaws E -> cards_wf db ->
  bind_text_optional (parent_card_id card) = parent_card_id card ->
  let t := cards db in
  let pid := card_project_id card in
  match reachable_card_parent db card with
  | Ok p =>
      exists l missing, lineage t pid (parent_card_id card) l missing /\
        card_id card ∉ path_ids l missing /\
        match p with
        | Some id => missing = None /\
            exists l1 a l2, l = l1 ++ a :: l2 /\ card_id a = id /\
              Forall (fun a => card_deleted a = false) (a :: l2) /\
              match last l1 with Some b => card_deleted b = true | None => True end
        | None => missing <> None \/ l = [] \/ exists a, last l = Some a /\ card_deleted a = true
        end
  | Err e => e = Runtime "move_would_create_cycle" /\
      forall l missing, lineage t pid (parent_card_id card) l missing ->
        card_id card ∈ path_ids l missing
  end /\
  (validate_card_parent db card = Ok tt <->
   exists l, lineage t pid (parent_card_id card) l None /\
     Forall (fun a => card_deleted a = false) l /\ card_id card ∉ map card_id l).
Proof.
  intros L W Hb. cbv zeta. split; [|by apply validate_card_parent_spec].
  pose proof (reachable_card_parent_spec db W card Hb) as H.
  destruct (reachable_card_parent db card) as [p|err]; [|done].
  destruct H as (l & e & Hl & Hid & ->). exists l, e. split; [done|]. split; [done|].
  destruct e as [m|]; [by left|]. pose proof (nearest_live_spec l) as Hs.
  destruct (nearest_live None l); [by split|by right].
Qed.

(** C23: moving a card: when [validate_card_parent] accepts the new parent and
    [placed_card_changes] finds keys, writing the changed rows, in any order,
    succeeds and keeps the table well formed. Afterwards the children of the new
    parent, listed in tree order, are the ones it had with the card at the requested
    index; the card and every other card of the project that could be reached from
    the roots can be reached; and rows outside the destination are untouched. *)
Theorem placed_card_moves (E : SqlEngine) (db : Db) (card : Card) (p : option string) (at_ : nat)
    (u : Z) (changes ws : list Card) :
  SqlEngineLaws E -> cards_wf db -> card ∈ cards db -> card_deleted card = false ->
  bind_text_optional p = p ->
  let q := set_card_parent p card in
  let destination := without (card_id card) (siblings db q) in
  validate_card_parent db q = Ok tt -> (at_ <= length destination)%nat ->
  placed_card_changes destination at_ card p u = Ok changes -> ws ≡ₚ changes ->
  exists db', write_snapshots ws db = (Ok tt, db') /\ cards_wf db' /\
    map card_id (siblings db' q) =
      take at_ (map card_id destination) ++ card_id card :: drop at_ (map card_id destination) /\
    (exists c, c ∈ cards db' /\ card_id c = card_id card /\ parent_card_id c = p /\
       updated_at c = u /\ visible (cards db') c) /\
    (forall c, c ∈ cards db -> card_project_id c = card_project_id card -> visible (cards db) c ->
       exists c', c' ∈ cards db' /\ card_id c' = card_id c /\ visible (cards db') c') /\
    (forall c, c ∈ cards db -> card_id c ∉ card_id card :: map card_id destination -> c ∈ cards db').
Proof.
  intros L W Hc Hlive Hb q destination Hv Hat H Hws.
  apply insert_block_Ok in H as [after Hi].
  apply validate_card_parent_spec in Hv as (l & Hl & Hll & Hid); [|done|done].
  change (card_id card ∉ map card_id l) in Hid.
  assert (Hedit : row_edit card card) by (by destruct card).
  pose proof (wf_keys db W card Hc) as Hk.
  destruct (single_others db W card p l Hc Hl) as (_ & _ & _ & Hs).
  pose proof (single_nan db W card card p l Hc Hl Hedit Hlive Hk) as Hnan.
  assert (HR : respaced at_ (at_ + length [card]) u (placed destination at_ [card] p) after changes)
    by (by apply insert_block_into_spec).
  destruct (single_outcome db W card card p l after changes ws at_ u Hc Hl Hll Hid Hedit Hlive Hk
    Hat HR Hws q eq_refl eq_refl) as (Hw & W' & Hsib & _ & Hvis).
  exists (set_cards (override ws (cards db)) db). split; [done|]. split; [done|].
  split; [rewrite Hsib, (inserted_ids HR), map_take, map_drop; done|]. split; [|split; [done|]].
  - destruct (single_card db W card card p l after changes ws at_ u Hc Hl Hll Hid Hedit Hlive Hk
      Hat HR Hws) as (c & _ & Hr & Hu & _ & Hin & Hvc).
    exists c. split_and!; [done|by apply rekeyed_id in Hr|by rewrite Hr|done|done].
  - intros c Hcc Hn. by eapply (single_untouched db W card card).
Qed.

(** C24: trashing a card and promoting its children hides nothing else: the changed
    rows and the trashed row can be written together, and then every other card that
    could be reached from the roots still can. If the trashed card could be reached
    itself, its live children take its place among its siblings, in their own tree
    order, between the same neighbours. *)
Theorem promoted_children_take_place (E : SqlEngine) (db : Db) (P : Card) (u : Z)
    (placements ws : list Card) :
  SqlEngineLaws E -> cards_wf db -> P ∈ cards db -> card_deleted P = false ->
  promoted_card_children db P u = Ok placements -> ws ≡ₚ trashed u P :: placements ->
  exists db', write_snapshots ws db = (Ok tt, db') /\ cards_wf db' /\
    (forall c, c ∈ cards db -> card_project_id c = card_project_id P -> card_id c <> card_id P ->
       visible (cards db) c -> exists c', c' ∈ cards db' /\ card_id c' = card_id c /\ visible (cards db') c') /\
    (visible (cards db) P -> exists before after,
       map card_id (siblings db P) = before ++ card_id P :: after /\
       map card_id (siblings db' P) =
         before ++ map card_id (siblings db (set_card_parent (Some (card_id P)) P)) ++ after).
Proof.
  intros L W HP Hlive H Hws. unfold promoted_card_children in H.
  destruct (reachable_card_parent db P) as [p|] eqn:Hreach; [|done]. cbn [rbind] in H.
  change (siblings db (set_card_parent (Some (card_id P)) P)) with (children db P) in H.
  change (without (card_id P) (siblings db (set_card_parent p P))) with (others db P p) in H.
  set (at_ := lower_bound card_tree_less (set_card_parent p P) (others db P p)) in *.
  assert (H' : insert_block (others db P p) at_ (children db P) p u = Ok placements)
    by (by destruct (children db P)).
  apply insert_block_Ok in H' as [after Hi]. clear H.
  destruct (reachable_chain db W P p (bind_parent db W P HP) Hreach) as (l & Hl & Hll & Hid & Hpself & Hself).
  destruct (single_others db W P p l HP Hl) as (Hdest & _ & _ & Hds).
  assert (Hat : (at_ <= length (others db P p))%nat) by apply lower_bound_le.
  assert (HR : respaced at_ (at_ + length (children db P)) u
      (placed (others db P p) at_ (children db P) p) after placements).
  { apply insert_block_into_spec; [done| |done].
    apply (insertion_nan db W (card_project_id P) p); [done|by apply children_rows]. }
  destruct (promoted_outcome db W P p l after placements ws at_ u HP Hlive Hl Hll Hid Hpself Hself
    Hat HR Hws (set_card_parent p P) eq_refl eq_refl) as (Hw & W' & Hsib & Hvis).
  exists (set_cards (override ws (cards db)) db). split; [done|]. split; [done|]. split; [done|].
  intros [_ Hr]. pose proof (validate_rooted db W P p (bind_parent db W P HP) Hreach Hr) as ->.
  assert (set_card_parent (parent_card_id P) P = P) as Hq by (by destruct P).
  assert (HPs : P ∈ siblings db P).
  { by apply (row_siblings_elem db W P _ HP (bind_parent db W P HP) P). }
  destruct (without_split (siblings db P) P) as (l1 & l2 & Hs & Hwo); [by apply siblings_nodup|done|].
  assert (Hoth : others db P (parent_card_id P) = l1 ++ l2) by (unfold others; by rewrite Hq).
  assert (at_ = length l1) as Hpos.
  { unfold at_. rewrite Hoth, Hq. apply lower_bound_without; rewrite <- Hs.
    - by apply siblings_sorted.
    - apply Forall_forall. intros c. by apply siblings_nan. }
  rewrite Hq in Hsib. exists (map card_id l1), (map card_id l2).
  rewrite Hsib, (inserted_ids HR), Hs, map_app. split; [done|].
  by rewrite Hpos, Hoth, take_app_length, drop_app_length.
Qed.

(** The row of a trashed card that [CardStore::restore] starts from. *)
Definition undeleted (updated_at_ : Z) (c : Card) : Card :=
  set_card_deleted_at None (set_card_updated_at updated_at_ c).

(** A single card at its lower bound needs no other change when its key fits. *)
Lemma respaced_single destination c p u :
  StronglySorted tree_lt destination -> card_id c ∉ map card_id destination ->
  Forall (fun d => f64_is_nan (sort_key d) = false) destination ->
  f64_is_finite (sort_key c) = true -> updated_at c = u -> parent_card_id c = p ->
  let at_ := lower_bound card_tree_less c destination in
  respaced at_ (at_ + 1) u (placed destination at_ [c] p)
    (take at_ destination ++ c :: drop at_ destination) [c].
Proof.
  intros Hs Hid Hn Hf Hu Hp. cbv zeta. set (at_ := lower_bound _ _ _).
  assert (length (take at_ destination) = at_) as Hl
    by (rewrite length_take; pose proof (lower_bound_le card_tree_less c destination); lia).
  assert (placed destination at_ [c] p = take at_ destination ++ c :: drop at_ destination) as ->.
  { unfold placed. simpl. assert (set_card_parent p c = c) as ->; [|done]. subst p. by destruct c. }
  split.
  - apply Forall_Forall2_diag, Forall_true, rekeyed_refl.
  - intros _. apply lower_bound_insert; [done|done|]. constructor; [by apply f64_is_finite_not_nan|done].
  - apply sublist_inserts_l, sublist_skip, sublist_nil_l.
  - by repeat constructor.
  - intros j d Hj. destruct (decide (j = at_)) as [->|Hne]; [left|right; split; [done|lia]].
    rewrite lookup_app_r, Hl, Nat.sub_diag in Hj by lia. injection Hj as ->. by left.
Qed.

Lemma foldl_rekey r c changes :
  NoDup (map card_id changes) -> c ∈ changes -> card_id c = card_id r ->
  foldl (fun r c => if String.eqb (card_id c) (card_id r) then set_card_sort_key (sort_key c) r else r)
    r changes = set_card_sort_key (sort_key c) r.
Proof.
  intros Hn Hc Hid. apply list_elem_of_split in Hc as (l1 & l2 & ->).
  rewrite map_app in Hn. simpl in Hn. apply list.NoDup_app in Hn as (_ & H1 & H2).
  apply NoDup_cons in H2 as [H2 _].
  assert (Hskip : forall l r', card_id r' = card_id c -> card_id c ∉ map card_id l ->
    foldl (fun r c => if String.eqb (card_id c) (card_id r) then set_card_sort_key (sort_key c) r else r)
      r' l = r').
  { induction l as [|d l IH]; intros r' Hr Hl; simpl in *; [done|].
    rewrite not_elem_of_cons in Hl. destruct Hl as [Hd Hl]. rewrite Hr.
    destruct (String.eqb_spec (card_id d) (card_id c)); [congruence|]. by apply IH. }
  rewrite foldl_app, (Hskip l1 r); [|by symmetry|].
  - simpl. rewrite Hid, String.eqb_refl. by rewrite Hskip by done.
  - intros Hin. apply (H1 _ Hin). set_solver.
Qed.

(** Whether or not a key collides, a restored card is inserted at its lower bound. *)
Lemma restored_respaced (E : SqlEngine) db restored p u r' others :
  reachable_card_parent db restored = Ok p ->
  let c := set_card_parent p restored in
  let destination := without (card_id restored) (siblings db c) in
  let at_ := lower_bound card_tree_less c destination in
  StronglySorted tree_lt destination -> card_id c ∉ map card_id destination ->
  NoDup (map card_id destination) ->
  Forall (fun d => f64_is_nan (sort_key d) = false) (destination ++ [c]) ->
  updated_at restored = u ->
  restored_card_placement db restored u = Ok (r', others) ->
  card_id r' = card_id restored /\ parent_card_id r' = p /\ exists after changes,
    changes ≡ₚ r' :: others /\
    respaced at_ (at_ + length [c]) u (placed destination at_ [c] p) after changes.
Proof.
  intros Hreach c destination at_ Hs Hid Hnd Hn Hu H. unfold restored_card_placement in H.
  rewrite Hreach in H. cbn [rbind] in H. fold c in H.
  change (without (card_id c) (siblings db c)) with destination in H. fold at_ in H.
  rewrite Forall_app in Hn. destruct Hn as [Hn Hnc].
  destruct (negb (_ || _)) eqn:Hcol.
  - injection H as <- <-. split; [done|]. split; [done|].
    exists (take at_ destination ++ c :: drop at_ destination), [c]. split; [done|].
    apply negb_true_iff, orb_false_iff in Hcol as [Hf%negb_false_iff _].
    by apply respaced_single.
  - destruct (insert_block _ _ _ _ _) as [changes|] eqn:Hi; [|done]. cbn [rbind] in H.
    injection H as <- <-. apply insert_block_Ok in Hi as [after Hi].
    assert (Hat : (at_ <= length destination)%nat) by apply lower_bound_le.
    assert (HR : respaced at_ (at_ + length [c]) u (placed destination at_ [c] p) after changes).
    { apply insert_block_into_spec; [done|by apply Forall_app|done]. }
    assert (Hnch : NoDup (map card_id changes)).
    { eapply sublist_NoDup; [|apply (fmap_sublist card_id), (rs_sublist _ _ _ _ _ _ HR)].
      change (NoDup (map card_id after)).
      rewrite (insertion_ids_perm p destination [c] after changes at_ u HR), map_app.
      apply list.NoDup_app. split_and!; [done| |apply NoDup_singleton].
      intros x Hx Hx2%list_elem_of_singleton. congruence. }
    destruct (inserted_block Hat HR c) as (d & Hd & Hr); [by left|].
    destruct (inserted_changed HR d Hd) as (_ & Hdu & _).
    assert (Hdid : card_id d = card_id c) by (by apply rekeyed_id in Hr).
    rewrite (foldl_rekey c d changes Hnch Hd Hdid).
    assert (set_card_sort_key (sort_key d) c = d) as ->.
    { rewrite Hr, Hdu. cbn. rewrite <- Hu. by destruct restored. }
    split; [done|]. split; [by rewrite Hr|]. exists after, changes. split; [|done].
    destruct (without_split changes d Hnch Hd) as (l1 & l2 & Heq & Hwo).
    change (changes ≡ₚ d :: without (card_id c) changes). rewrite <- Hdid, Hwo, Heq. symmetry. apply Permutation_middle.
Qed.

(** C25: restoring a trashed card: it goes under its nearest reachable live ancestor,
    among the live cards there after exactly those that come before it in the order of
    the tree (its own sort key, then the latest change, the title and the id), with that
    key if it is finite and free, and with a fresh key otherwise; the rows can be written
    together, afterwards the card can be reached from the roots, every card that could be
    reached still can, and the order of the other siblings is unchanged. *)
Theorem restored_card_reachable (E : SqlEngine) (db : Db) (R r' : Card) (u : Z)
    (others0 ws : list Card) :
  SqlEngineLaws E -> cards_wf db -> R ∈ cards db -> card_deleted R = true ->
  restored_card_placement db (undeleted u R) u = Ok (r', others0) -> ws ≡ₚ r' :: others0 ->
  exists db' p, reachable_card_parent db R = Ok p /\ parent_card_id r' = p /\
    write_snapshots ws db = (Ok tt, db') /\ cards_wf db' /\
    r' ∈ cards db' /\ card_id r' = card_id R /\ visible (cards db') r' /\
    f64_is_finite (sort_key r') = true /\
    (exists before after, siblings db (set_card_parent p R) = before ++ after /\
       Forall (fun s => tree_lt s (set_card_parent p (undeleted u R))) before /\
       Forall (tree_lt (set_card_parent p (undeleted u R))) after /\
       map card_id (siblings db' r') = map card_id before ++ card_id R :: map card_id after) /\
    (f64_is_finite (sort_key R) = true ->
     (forall s, s ∈ siblings db (set_card_parent p R) -> f64_eqb (sort_key s) (sort_key R) = false) ->
     r' = set_card_parent p (undeleted u R) /\ others0 = []) /\
    (forall c, c ∈ cards db -> card_project_id c = card_project_id R -> visible (cards db) c ->
       exists c', c' ∈ cards db' /\ card_id c' = card_id c /\ visible (cards db') c').
Proof.
  intros L W HRin Hdel H Hws.
  destruct (reachable_card_parent db R) as [p|] eqn:Hreach.
  2: { unfold restored_card_placement in H.
       change (reachable_card_parent db (undeleted u R)) with (reachable_card_parent db R) in H.
       by rewrite Hreach in H. }
  destruct (reachable_chain db W R p (bind_parent db W R HRin) Hreach) as (l & Hl & Hll & Hid & _).
  set (c := set_card_parent p (undeleted u R)).
  assert (Hedit : row_edit R c) by (by destruct R). pose proof (wf_keys db W R HRin) as Hk.
  destruct (single_others db W R p l HRin Hl) as (_ & Hnid & Hdn & Hds).
  pose proof (single_nan db W R c p l HRin Hl Hedit eq_refl Hk) as Hnan.
  set (destination := others db R p) in *.
  destruct (restored_respaced E db (undeleted u R) p u r' others0 Hreach Hds Hnid Hdn Hnan eq_refl H)
    as (Hrid & Hrp & after & changes & Hch & HR).
  set (at_ := lower_bound card_tree_less _ _) in HR.
  assert (Hat : (at_ <= length destination)%nat) by apply lower_bound_le.
  assert (Hws' : ws ≡ₚ changes) by (by rewrite Hws, Hch).
  destruct (single_card db W R c p l after changes ws at_ u HRin Hl Hll Hid Hedit eq_refl Hk
    Hat HR Hws') as (c' & Hc' & Hr & _ & Hf & Hin & Hvc).
  assert (c' = r') as <-.
  { apply (NoDup_map_inj card_id changes); [|done|rewrite Hch; left|].
    - by apply (insertion_changed_nodup p destination [c] after changes at_ u
        (single_nodup db W R c p l HRin Hl Hedit) HR).
    - rewrite Hrid. by apply rekeyed_id in Hr. }
  assert (Hrproj : card_project_id c' = card_project_id R) by (by rewrite Hr).
  destruct (single_outcome db W R c p l after changes ws at_ u HRin Hl Hll Hid Hedit eq_refl Hk
    Hat HR Hws' c' Hrproj Hrp) as (Hw & W' & Hsib & _ & Hvis).
  exists (set_cards (override ws (cards db)) db), p. split_and!; try done.
  - exists (take at_ destination), (drop at_ destination).
    rewrite take_drop, (others_deleted db W R p l) by done. split; [done|].
    assert (StronglySorted tree_lt (take at_ destination ++ c :: drop at_ destination)) as Hplace.
    { apply Forall_app in Hnan as [Hn1 Hn2]. apply lower_bound_insert; [done|done|].
      constructor; [by apply Forall_inv in Hn2|exact Hn1]. }
    apply StronglySorted_app in Hplace as (Hbefore & _ & [_ Hafter]%StronglySorted_inv).
    split; [apply Forall_forall; intros s Hs; apply Hbefore; [done|left]|]. split; [exact Hafter|].
    by rewrite Hsib, (inserted_ids HR).
  - rewrite (others_deleted db W R p l) by done. intros Hfin Hfree. unfold restored_card_placement in H.
    change (reachable_card_parent db (undeleted u R)) with (reachable_card_parent db R) in H. rewrite Hreach in H.
    cbn [rbind] in H. fold c in H. change (sort_key c) with (sort_key R) in H. rewrite Hfin in H.
    change (without (card_id c) (siblings db c)) with destination in H.
    assert (existsb (fun s => f64_eqb (sort_key s) (sort_key R)) destination = false) as Hno.
    { apply not_true_iff_false. intros (s & Hs & He)%existsb_exists. rewrite <- list_elem_of_In in Hs. by rewrite Hfree in He. }
    rewrite Hno in H. by injection H.
Qed.

(** A root with two children; the first child has two children of its own, and a
    third one in the trash whose key a live sibling has taken. *)
Definition trashed_card : Card := trashed 5 (sample_card "ffff" (Some "bbbb") 2).
Definition tree_db : Db :=
  core_db [sample_project]
    [sample_card "aaaa" None 1; sample_card "bbbb" (Some "aaaa") 1;
     sample_card "cccc" (Some "aaaa") 2; sample_card "dddd" (Some "bbbb") 1;
     sample_card "eeee" (Some "bbbb") 2; trashed_card] [] [] [] [].

Lemma tree_db_wf : cards_wf tree_db.
Proof.
  split; simpl.
  1, 6: repeat constructor; set_solver.
  all: intros c Hc; repeat (apply elem_of_cons in Hc as [->|Hc]; [done|]); set_solver.
Qed.

Ltac in_tree := unfold tree_db; simpl; repeat (first [left; done | right]).

Example reachable_card_parent_correct_witness :
  exists l, lineage (cards tree_db) "p" (Some "bbbb") l None /\
    Forall (fun a => card_deleted a = false) l /\ "dddd" ∉ map card_id l.
Proof.
  destruct (reachable_card_parent_correct reference_engine tree_db (sample_card "dddd" (Some "bbbb") 1)
    reference_engine_laws tree_db_wf eq_refl) as [_ H].
  apply H. vm_compute. reflexivity.
Defined.

Example placed_card_moves_witness :
  exists changes db', write_snapshots changes tree_db = (Ok tt, db') /\
    map card_id (siblings (E:=reference_engine) db' (sample_card "" (Some "bbbb") 0)) =
      ["dddd"; "cccc"; "eeee"].
Proof.
  destruct (placed_card_changes
    (without "cccc" (siblings (E:=reference_engine) tree_db (sample_card "" (Some "bbbb") 0))) 1
    (sample_card "cccc" (Some "aaaa") 2) (Some "bbbb") 9) as [changes|] eqn:Hc; [|vm_compute in Hc; done].
  destruct (placed_card_moves reference_engine tree_db (sample_card "cccc" (Some "aaaa") 2)
    (Some "bbbb") 1 9 changes changes reference_engine_laws tree_db_wf) as (db' & Hw & _ & Hs & _).
  - in_tree.
  - done.
  - done.
  - vm_compute. reflexivity.
  - vm_compute. lia.
  - exact Hc.
  - done.
  - exists changes, db'. split; [exact Hw|exact Hs].
Defined.

Example promoted_children_take_place_witness :
  exists placements db', write_snapshots (trashed 9 (sample_card "bbbb" (Some "aaaa") 1) :: placements) tree_db
      = (Ok tt, db') /\ cards_wf db' /\
    exists c', c' ∈ cards db' /\ card_id c' = "dddd" /\ visible (cards db') c'.
Proof.
  destruct (promoted_card_children (E:=reference_engine) tree_db (sample_card "bbbb" (Some "aaaa") 1) 9)
    as [placements|] eqn:Hc; [|vm_compute in Hc; done].
  destruct (promoted_children_take_place reference_engine tree_db (sample_card "bbbb" (Some "aaaa") 1) 9
    placements _ reference_engine_laws tree_db_wf ltac:(in_tree) eq_refl Hc (reflexivity _))
    as (db' & Hw & W' & Hvis & _).
  exists placements, db'. split; [exact Hw|]. split; [exact W'|].
  apply (Hvis (sample_card "dddd" (Some "bbbb") 1)); [in_tree|done|done|].
  destruct reachable_card_parent_correct_witness as (l & Hl & Hlive & _).
  split; [done|]. exists l. split; [exact Hl|exact Hlive].
Defined.

Example restored_card_reachable_witness :
  exists r' db', parent_card_id r' = Some "bbbb" /\ r' ∈ cards db' /\ visible (cards db') r'.
Proof.
  destruct (restored_card_placement (E:=reference_engine) tree_db (undeleted 9 trashed_card) 9)
    as [[r' others]|] eqn:Hc; [|vm_compute in Hc; done].
  destruct (restored_card_reachable reference_engine tree_db trashed_card r' 9 others _
    reference_engine_laws tree_db_wf ltac:(in_tree) eq_refl Hc (reflexivity _))
    as (db' & p & Hr & Hp & _ & _ & Hin & _ & Hv & _).
  exists r', db'. split; [|split; [exact Hin|exact Hv]]. rewrite Hp. vm_compute in Hr. congruence.
Defined.
End CardHierarchyTheorems.
