(* ===== verification/Repair.v ===== *)
(** * Hierarchy repair

    [plan_hierarchy_repair] of [card/CardHierarchy.cpp]: the live cards that
    browsing from the roots cannot reach, and the placements that make them
    reachable. A [std::map] is the list of its values (or pairs) in key order. *)

From stdpp Require Import base list sets strings numbers gmap sorting.
From S2P Require Import Prelude Double Model Text Database CardRepo TreeOrder Hierarchy.
Import CardRepo CardRepoFacts CardRepoTheorems TreeOrder TreeOrderFacts.
Import CardHierarchy CardHierarchyFacts CardHierarchyTheorems.

Module HierarchyRepair.

Record HierarchyRepairPlan := mkPlan {
  placements : list Card;
  moved_card_ids : list string;
  cycle_card_ids : list string
}.

Record Head := mkHead {
  head_card : Card;
  head_destination : option string;
  head_anchor : option Card
}.

(** [m.emplace(card.card_id, card)]: an existing entry stays. *)
Fixpoint emplace (c : Card) (m : list Card) : list Card :=
  match m with
  | [] => [c]
  | d :: m' =>
      match String.compare (card_id c) (card_id d) with
      | Lt => c :: m
      | Eq => m
      | Gt => d :: emplace c m'
      end
  end.

(** [m[card.card_id] = card]. *)
Fixpoint assign (c : Card) (m : list Card) : list Card :=
  match m with
  | [] => [c]
  | d :: m' =>
      match String.compare (card_id c) (card_id d) with
      | Lt => c :: m
      | Eq => c :: m'
      | Gt => d :: assign c m'
      end
  end.

(** [m[k].push_back(a)]. *)
Fixpoint push_back {K A} (cmp : K -> K -> comparison) (k : K) (a : A) (m : list (K * list A))
    : list (K * list A) :=
  match m with
  | [] => [(k, [a])]
  | (k', l) :: m' =>
      match cmp k k' with
      | Lt => (k, [a]) :: m
      | Eq => (k', l ++ [a]) :: m'
      | Gt => (k', l) :: push_back cmp k a m'
      end
  end.

(** [operator<] of [std::optional<std::string>]: nothing comes first. *)
Definition opt_compare (a b : option string) : comparison :=
  match a, b with
  | None, None => Eq
  | None, Some _ => Lt
  | Some _, None => Gt
  | Some x, Some y => String.compare x y
  end.

(** The lambda [find]. *)
Definition find (by_id : list Card) (id : option string) : option Card :=
  match id with
  | None => None
  | Some i => List.find (fun c => String.eqb (card_id c) i) by_id
  end.

Inductive WalkResult := WalkCycle | WalkTo (destination : option string).

(** The walk over the ancestors of one card. *)
Fixpoint repair_walk (fuel : nat) (by_id : list Card) (visited : gset string)
    (next destination : option string) : option WalkResult :=
  match fuel with
  | O => None
  | S fuel' =>
      match next with
      | None => Some (WalkTo destination)
      | Some id =>
          if bool_decide (id ∈ visited) then Some WalkCycle
          else
            match find by_id next with
            | None => Some (WalkTo None)
            | Some ancestor =>
                repair_walk fuel' by_id ({[id]} ∪ visited) (parent_card_id ancestor)
                  (if card_deleted ancestor then None
                   else match destination with None => Some (card_id ancestor) | d => d end)
            end
      end
  end.

(** The loop that looks for the anchor, from [a] upwards. *)
Fixpoint find_anchor (fuel : nat) (by_id : list Card) (destination : option string)
    (a : option Card) : option Card :=
  match fuel, a with
  | S fuel', Some c =>
      if opt_eqb (parent_card_id c) destination then Some c
      else find_anchor fuel' by_id destination (find by_id (parent_card_id c))
  | _, _ => None
  end.

(** One turn of the loop over [by_id]: the cycle ids and the heads so far. *)
Definition classify (by_id : list Card) (acc : list string * list Head) (card : Card)
    : list string * list Head :=
  if card_deleted card || bool_decide (parent_card_id card = None) then acc
  else
    match repair_walk (length by_id + 1) by_id {[card_id card]} (parent_card_id card) None with
    | Some (WalkTo destination) =>
        let parent := find by_id (parent_card_id card) in
        if match parent with Some p => negb (card_deleted p) | None => false end then acc
        else
          let anchor := find_anchor (length by_id + 1) by_id destination parent in
          (fst acc, snd acc ++ [mkHead card destination anchor])
    | _ => (fst acc ++ [card_id card], snd acc)
    end.

(** The lambda [place]: the siblings and the changed cards before and after. *)
Definition place (destination : option string) (updated_at_ : Z) (block : list Card) (at_ : nat)
    (st : list Card * list Card) : result (list Card * list Card) :=
  let? r := insert_block_into (fst st) at_ (sort_by card_tree_less block) destination updated_at_ in
  Ok (snd r, foldl (fun m c => assign c m) (snd st) (fst r)).

(** The anchored groups of one destination, in the order of the anchors' ids. *)
Fixpoint place_anchored (destination : option string) (updated_at_ : Z) (anchors : list Card)
    (anchored : list (string * list Card)) (st : list Card * list Card)
    : result (list Card * list Card) :=
  match anchored with
  | [] => Ok st
  | (anchor_id, block) :: rest =>
      match find anchors (Some anchor_id) with
      | None => Err (Runtime "map::at")
      | Some anchor =>
          let? st := place destination updated_at_ block
                       (lower_bound card_tree_less anchor (fst st)) st in
          place_anchored destination updated_at_ anchors rest st
      end
  end.

Definition group_anchored (group : list Head) : list (string * list Card) :=
  foldl (fun m h => match head_anchor h with
                    | Some a => push_back String.compare (card_id a) (head_card h) m
                    | None => m
                    end) [] group.
Definition group_anchors (group : list Head) : list Card :=
  foldl (fun m h => match head_anchor h with Some a => emplace a m | None => m end) [] group.
Definition group_unanchored (group : list Head) : list Card :=
  map head_card (list_filter (fun h => bool_decide (head_anchor h = None)) group).

(** One destination. *)
Definition place_group (by_id : list Card) (updated_at_ : Z) (destination : option string)
    (group : list Head) (changed : list Card) : result (list Card) :=
  let siblings :=
    sort_by card_tree_less
      (list_filter (fun c => negb (card_deleted c) && opt_eqb (parent_card_id c) destination) by_id) in
  let? st := place_anchored destination updated_at_ (group_anchors group) (group_anchored group)
               (siblings, changed) in
  match group_unanchored group with
  | [] => Ok (snd st)
  | unanchored =>
      let? st := place destination updated_at_ unanchored (length (fst st)) st in
      Ok (snd st)
  end.

Fixpoint place_groups (by_id : list Card) (updated_at_ : Z)
    (groups : list (option string * list Head)) (changed : list Card) : result (list Card) :=
  match groups with
  | [] => Ok changed
  | (destination, group) :: rest =>
      let? changed := place_group by_id updated_at_ destination group changed in
      place_groups by_id updated_at_ rest changed
  end.

Definition plan_hierarchy_repair {E : SqlEngine} (db : Db) (project_id : string) (updated_at_ : Z)
    : result HierarchyRepairPlan :=
  let by_id := foldl (fun m c => emplace c m) [] (list_all db project_id) in
  let '(cycles, heads) := foldl (classify by_id) ([], []) by_id in
  let by_destination :=
    foldl (fun m h => push_back opt_compare (head_destination h) h m) [] heads in
  let? changed := place_groups by_id updated_at_ by_destination [] in
  Ok (mkPlan changed
        (sort_by str_ltb (concat (map (fun g => map (fun h => card_id (head_card h)) (snd g))
                                    by_destination)))
        cycles).

End HierarchyRepair.

Module HierarchyRepairFacts.
Import HierarchyRepair.

(** ** Maps as sorted lists *)

Lemma emplace_perm c m : card_id c ∉ map card_id m -> emplace c m ≡ₚ c :: m.
Proof.
  induction m as [|d m IH]; simpl; [done|]. rewrite not_elem_of_cons. intros [Hd Hm].
  destruct (String.compare (card_id c) (card_id d)) eqn:E; [by apply string_compare_eq in E|done|].
  rewrite IH by done. constructor.
Qed.

Lemma emplace_all_perm l : forall m,
  NoDup (map card_id (l ++ m)) -> foldl (fun m c => emplace c m) m l ≡ₚ l ++ m.
Proof.
  induction l as [|c l IH]; intros m Hn; simpl; [done|]. simpl in Hn.
  apply NoDup_cons in Hn as [Hc Hn].
  assert (Hp : emplace c m ≡ₚ c :: m).
  { apply emplace_perm. intros H. apply Hc. rewrite map_app. set_solver. }
  rewrite IH; [rewrite Hp; symmetry; apply Permutation_middle|].
  rewrite Hp, <- (Permutation_middle l m c). simpl. by apply NoDup_cons.
Qed.

Lemma assign_elem c m x : x ∈ assign c m -> x = c \/ x ∈ m.
Proof.
  induction m as [|d m IH]; simpl; [set_solver|]. destruct (String.compare _ _); set_solver.
Qed.

Lemma assign_in c m : c ∈ assign c m.
Proof. induction m as [|d m IH]; simpl; [set_solver|]. destruct (String.compare _ _); set_solver. Qed.

Lemma assign_keeps c m x : x ∈ m -> card_id x <> card_id c -> x ∈ assign c m.
Proof.
  induction m as [|d m IH]; simpl; [set_solver|]. intros Hx Hne.
  destruct (String.compare _ _) eqn:E; [|set_solver|set_solver].
  apply string_compare_eq in E. apply elem_of_cons in Hx as [->|Hx]; [congruence|set_solver].
Qed.

Definition id_sorted (m : list Card) : Prop :=
  StronglySorted (fun a b => String.compare (card_id a) (card_id b) = Lt) m.

Lemma assign_sorted c m : id_sorted m -> id_sorted (assign c m).
Proof.
  unfold id_sorted. induction 1 as [|d m Hs IH Hall]; simpl; [repeat constructor|].
  rewrite Forall_forall in Hall. destruct (String.compare (card_id c) (card_id d)) eqn:E.
  - apply string_compare_eq in E. constructor; [done|]. apply Forall_forall. rewrite E. done.
  - constructor; [by constructor; [|apply Forall_forall]|]. constructor; [done|].
    apply Forall_forall. intros x Hx. eapply (cmp_lt_trans String.compare); [exact E|by apply Hall].
  - constructor; [done|]. apply Forall_forall. intros x [->|Hx]%assign_elem; [|by apply Hall].
    by apply (cmp_gt_lt String.compare).
Qed.

Lemma id_sorted_nodup m : id_sorted m -> NoDup (map card_id m).
Proof.
  induction 1 as [|d m Hs IH Hall]; simpl; constructor; [|done].
  intros (x & Hx & He)%elem_of_map_id. rewrite Forall_forall in Hall. specialize (Hall x Hx).
  rewrite He, (cmp_refl String.compare) in Hall. done.
Qed.

Lemma push_back_elem {K A} (cmp : K -> K -> comparison) k (a : A) m k' l x :
  (forall a b, cmp a b = Eq -> a = b) ->
  (k', l) ∈ push_back cmp k a m -> x ∈ l -> (k' = k /\ x = a) \/ exists l', (k', l') ∈ m /\ x ∈ l'.
Proof.
  intros Heq. induction m as [|[k1 l1] m IH]; simpl.
  { intros [= -> ->]%list_elem_of_singleton Hx. set_solver. }
  destruct (cmp k k1) eqn:E; rewrite elem_of_cons.
  - apply Heq in E as ->. intros [[= -> ->]|H] Hx; [|set_solver].
    apply elem_of_app in Hx as [Hx|Hx]; set_solver.
  - intros [[= -> ->]|H] Hx; [set_solver|set_solver].
  - intros [[= -> ->]|H] Hx; [set_solver|]. destruct (IH H Hx); set_solver.
Qed.

Lemma push_back_perm {K A} (cmp : K -> K -> comparison) k (a : A) m :
  concat (map snd (push_back cmp k a m)) ≡ₚ a :: concat (map snd m).
Proof.
  induction m as [|[k1 l1] m IH]; simpl; [done|]. destruct (cmp k k1); simpl.
  - rewrite <- (assoc_L (++)). simpl. symmetry. apply Permutation_middle.
  - done.
  - rewrite IH. symmetry. apply Permutation_middle.
Qed.

Lemma opt_compare_eq a b : opt_compare a b = Eq -> a = b.
Proof. destruct a, b; simpl; try done. by intros ->%string_compare_eq. Qed.

Lemma assign_all_elem l : forall m x, x ∈ foldl (fun m c => assign c m) m l -> x ∈ l \/ x ∈ m.
Proof.
  induction l as [|c l IH]; intros m x; simpl; [auto|].
  intros [H|H]%IH; [set_solver|]. apply assign_elem in H. set_solver.
Qed.

Lemma assign_all_ids l : forall m id,
  id ∈ map card_id l \/ id ∈ map card_id m ->
  id ∈ map card_id (foldl (fun m c => assign c m) m l).
Proof.
  induction l as [|c l IH]; intros m id; simpl; [set_solver|]. intros H. apply IH.
  rewrite !elem_of_map_id. destruct (decide (id = card_id c)) as [->|Hne].
  { right. exists c. split; [apply assign_in|done]. }
  rewrite elem_of_cons, !elem_of_map_id in H. destruct H as [[?|H]|(d & Hd & ->)]; [done|auto|].
  right. exists d. split; [by apply assign_keeps|done].
Qed.

Lemma assign_all_sorted l : forall m, id_sorted m -> id_sorted (foldl (fun m c => assign c m) m l).
Proof. induction l as [|c l IH]; intros m Hm; simpl; [done|]. by apply IH, assign_sorted. Qed.

Lemma elem_of_concat_map {A B} (f : A -> list B) l x :
  x ∈ concat (map f l) <-> exists a, a ∈ l /\ x ∈ f a.
Proof.
  induction l as [|a l IH]; simpl; [set_solver|]. rewrite elem_of_app, IH. set_solver.
Qed.

(** ** The cards of the project *)
Section Repair.
Context `{!SqlEngineLaws E} (db : Db) (W : cards_wf db) (pid : string).
Hypothesis Hpid : bind_text pid = pid.

Definition by_id : list Card := foldl (fun m c => emplace c m) [] (list_all db pid).

Lemma by_id_perm : by_id ≡ₚ project_cards pid (cards db).
Proof.
  assert (list_all db pid ≡ₚ project_cards pid (cards db)) as Hp.
  { unfold list_all. by rewrite sql_select_perm, Hpid. }
  unfold by_id. rewrite emplace_all_perm; [by rewrite app_nil_r|].
  rewrite app_nil_r, Hp. apply NoDup_map_filter, W.
Qed.

Lemma by_id_elem c : c ∈ by_id <-> c ∈ cards db /\ card_project_id c = pid.
Proof. rewrite by_id_perm. unfold project_cards. by rewrite elem_of_list_filter, String.eqb_eq. Qed.

Lemma by_id_nodup : NoDup (map card_id by_id).
Proof. rewrite by_id_perm. apply NoDup_map_filter, W. Qed.

Lemma find_Some i c : find by_id (Some i) = Some c <-> c ∈ by_id /\ card_id c = i.
Proof.
  simpl. split.
  - intros [Hc He%String.eqb_eq]%find_some. by rewrite list_elem_of_In.
  - intros [Hc <-]. destruct (List.find _ by_id) as [d|] eqn:Hf.
    + apply find_some in Hf as [Hd He%String.eqb_eq]. f_equal.
      apply (NoDup_map_inj card_id by_id); [apply by_id_nodup|by apply list_elem_of_In|done|done].
    + apply list_elem_of_In in Hc. pose proof (find_none _ _ Hf c Hc) as H. simpl in H.
      by rewrite String.eqb_refl in H.
Qed.

Lemma find_None i : find by_id (Some i) = None <-> forall c, c ∈ cards db -> card_id c = i -> card_project_id c <> pid.
Proof.
  split.
  - intros Hf c Hc Hi Hp. assert (find by_id (Some i) = Some c) by (by apply find_Some; rewrite by_id_elem).
    congruence.
  - intros H. destruct (find by_id (Some i)) as [c|] eqn:Hf; [|done].
    apply find_Some in Hf as [[Hc Hp]%by_id_elem Hi]. by destruct (H c).
Qed.

(** The walk without queries agrees with [ancestor_walk]. *)
Definition to_walk_result (r : result (option string)) : WalkResult :=
  match r with Ok p => WalkTo p | Err _ => WalkCycle end.

Lemma repair_walk_eq fuel : forall visited next destination,
  bind_text_optional next = next ->
  repair_walk fuel by_id visited next destination =
    to_walk_result <$> ancestor_walk fuel db pid visited next destination.
Proof.
  induction fuel as [|fuel IH]; intros visited next destination Hb; [done|].
  cbn [repair_walk ancestor_walk]. destruct next as [id|]; [|done].
  simpl in Hb. injection Hb as Hb. case_bool_decide; [done|].
  destruct (find by_id (Some id)) as [a|] eqn:Hf.
  - apply find_Some in Hf as [[Ha Hp]%by_id_elem He].
    assert (get db id = Some a) as -> by (apply get_Some; [done|]; by rewrite Hb).
    rewrite Hp, String.eqb_refl. simpl. apply IH. by apply (bind_parent db W).
  - rewrite find_None in Hf. destruct (get db id) as [a|] eqn:Hg; [|done].
    apply get_Some in Hg as [Ha He]; [|done]. rewrite Hb in He.
    destruct (String.eqb_spec (card_project_id a) pid) as [Hp|]; [|done].
    by destruct (Hf a Ha He).
Qed.

Definition has_lineage (c : Card) : Prop :=
  exists l e, lineage (cards db) pid (parent_card_id c) l e.

Lemma repair_walk_spec c :
  c ∈ by_id ->
  match repair_walk (length by_id + 1) by_id {[card_id c]} (parent_card_id c) None with
  | Some (WalkTo d) => has_lineage c /\ d <> Some (card_id c) /\ rooted (cards db) pid d
  | Some WalkCycle => ~ has_lineage c
  | None => False
  end.
Proof.
  intros Hc. pose proof Hc as [Hct Hcp]%by_id_elem. pose proof (bind_parent db W c Hct) as Hb.
  rewrite repair_walk_eq by done.
  destruct (ancestor_walk_spec db W pid (length by_id + 1) {[card_id c]} (parent_card_id c) None Hb)
    as (r & -> & H).
  { rewrite by_id_perm. unfold unvisited, list_filter.
    pose proof (filter_length_le (fun d => negb (bool_decide (card_id d ∈ ({[card_id c]} : gset string))))
      (project_cards pid (cards db))). lia. }
  simpl. destruct r as [p|err]; simpl.
  - destruct H as (l & e & Hl & Hid & ->). split; [by exists l, e|].
    destruct e as [m|]; [split; [done|apply rooted_none]|].
    destruct (nearest_live None l) as [id|] eqn:Hn; [|split; [done|apply rooted_none]].
    split; [|by eapply nearest_live_rooted].
    intros [= ->]. pose proof (nearest_live_suffix l) as Hs. rewrite Hn in Hs.
    destruct Hs as (l1 & a & l2 & -> & He & _). apply (Hid (card_id c)); [|set_solver].
    unfold path_ids. rewrite map_app, <- He. set_solver.
  - destruct H as [_ H]. intros (l & e & Hl). destruct (H l e Hl) as (id & Hid & Hv).
    apply elem_of_singleton in Hv as ->.
    pose proof (lineage_step _ _ c l e Hct Hcp Hl) as Hcl.
    pose proof (lineage_nodup (cards db) (wf_ids db W) _ _ _ _ Hcl) as Hn.
    simpl in Hn. apply NoDup_cons in Hn as [Hn _]. unfold path_ids in Hid.
    apply elem_of_app in Hid as [Hid|Hid]; [done|]. destruct e as [m|]; [|set_solver].
    apply list_elem_of_singleton in Hid as <-. by apply (lineage_missing _ _ _ _ _ Hl c).
Qed.
(** ** Which cards are heads, which are on a cycle *)

Definition parent_live (c : Card) : bool :=
  match find by_id (parent_card_id c) with Some p => negb (card_deleted p) | None => false end.

(** A card whose parent is not the reason for its being hidden. *)
Definition attached (c : Card) : Prop := parent_card_id c = None \/ parent_live c = true.

Definition is_head (c : Card) : Prop :=
  c ∈ by_id /\ card_deleted c = false /\ has_lineage c /\ ~ attached c.
Definition on_cycle (c : Card) : Prop :=
  c ∈ by_id /\ card_deleted c = false /\ ~ has_lineage c.

Definition classified (c : Card) : list string * list Head := classify by_id ([], []) c.

Lemma classify_acc acc c :
  classify by_id acc c = (fst acc ++ fst (classified c), snd acc ++ snd (classified c)).
Proof.
  unfold classified, classify. destruct (_ || _); simpl; [by rewrite !app_nil_r; destruct acc|].
  destruct (repair_walk _ _ _ _ _) as [[|d]|]; simpl; rewrite ?app_nil_r; [done| |done].
  fold (parent_live c). destruct (parent_live c); simpl; rewrite ?app_nil_r; [by destruct acc|done].
Qed.

Lemma has_lineage_root c : parent_card_id c = None -> has_lineage c.
Proof. unfold has_lineage. intros ->. exists [], None. constructor. Qed.

Lemma classified_spec c :
  c ∈ by_id ->
  (forall x, x ∈ fst (classified c) <-> x = card_id c /\ on_cycle c) /\
  (forall h, h ∈ snd (classified c) -> head_card h = c /\ is_head c /\
     rooted (cards db) pid (head_destination h)) /\
  (is_head c -> exists h, h ∈ snd (classified c)).
Proof.
  intros Hc. unfold classified, classify, is_head, on_cycle, attached.
  pose proof (repair_walk_spec c Hc) as Hw. pose proof (has_lineage_root c) as Hroot.
  destruct (card_deleted c) eqn:Hd; simpl; [set_solver|].
  case_bool_decide as Hp; simpl.
  { split; [|split]; [|set_solver|naive_solver]. intros x. split; [set_solver|naive_solver]. }
  destruct (repair_walk _ _ _ _ _) as [[|d]|]; [| |done]; simpl.
  - split; [|split]; [|set_solver|naive_solver]. intros x. rewrite list_elem_of_singleton. tauto.
  - destruct Hw as (Hl & Hdc & Hr). fold (parent_live c).
    destruct (parent_live c) eqn:Hpl; simpl.
    { split; [|split]; [|set_solver|naive_solver]. intros x. split; [set_solver|naive_solver]. }
    split; [|split].
    + intros x. split; [set_solver|naive_solver].
    + intros h ->%list_elem_of_singleton. simpl. naive_solver.
    + intros _. eexists. by apply list_elem_of_singleton.
Qed.

Lemma classify_all l : forall acc,
  foldl (classify by_id) acc l =
    (fst acc ++ concat (map (fun c => fst (classified c)) l),
     snd acc ++ concat (map (fun c => snd (classified c)) l)).
Proof.
  induction l as [|c l IH]; intros acc; simpl; [rewrite !app_nil_r; by destruct acc|].
  rewrite IH, classify_acc. simpl. by rewrite !(assoc_L (++)).
Qed.

Definition all_heads : list Head := concat (map (fun c => snd (classified c)) by_id).
Definition all_cycles : list string := concat (map (fun c => fst (classified c)) by_id).

Lemma all_cycles_elem x : x ∈ all_cycles <-> exists c, on_cycle c /\ x = card_id c.
Proof.
  unfold all_cycles. rewrite elem_of_concat_map. split.
  - intros (c & Hc & Hx). apply (proj1 (classified_spec c Hc)) in Hx. naive_solver.
  - intros (c & Hcy & ->). exists c. split; [apply Hcy|].
    apply (proj1 (classified_spec c (proj1 Hcy))). done.
Qed.

Lemma all_heads_elem h :
  h ∈ all_heads -> is_head (head_card h) /\ rooted (cards db) pid (head_destination h).
Proof.
  unfold all_heads. rewrite elem_of_concat_map. intros (c & Hc & Hx).
  destruct (proj1 (proj2 (classified_spec c Hc)) h Hx) as (-> & H1 & H2). done.
Qed.

Lemma is_head_elem c : is_head c -> exists h, h ∈ all_heads /\ head_card h = c.
Proof.
  intros Hh. destruct Hh as (Hc & Hrest). destruct (classified_spec c Hc) as (_ & H2 & H3).
  destruct (H3 (conj Hc Hrest)) as (h & Hin). exists h. split; [|by apply H2].
  unfold all_heads. rewrite elem_of_concat_map. eauto.
Qed.

(** ** Placements

    The card [c'] is a row of the project with a new placement: under the
    destination of one of the heads, or re-keyed under the parent it has. *)
Definition planned (c' : Card) : Prop :=
  exists r, r ∈ by_id /\ row_edit r c' /\ card_deleted r = false /\ card_deleted c' = false /\
    f64_is_nan (sort_key c') = false /\
    ((attached r /\ parent_card_id c' = parent_card_id r) \/
     exists h, h ∈ all_heads /\ head_card h = r /\ parent_card_id c' = head_destination h).

Lemma planned_rekeyed c c' :
  planned c -> rekeyed c c' -> f64_is_nan (sort_key c') = false -> planned c'.
Proof.
  intros (r & Hr & He & Hd & Hd' & _ & Hp) Hk Hn. exists r. rewrite Hk in *. cbn in *.
  split_and!; try done. rewrite He. by destruct r.
Qed.

Lemma planned_head h c' :
  h ∈ all_heads -> rekeyed (set_card_parent (head_destination h) (head_card h)) c' ->
  f64_is_nan (sort_key c') = false -> planned c'.
Proof.
  intros Hh Hk Hn. destruct (all_heads_elem h Hh) as ((Hc & Hd & _) & _). exists (head_card h).
  rewrite Hk in *. cbn in *. split_and!; try done.
  right. by exists h.
Qed.

Definition place_inv (destination : option string) (st : list Card * list Card) : Prop :=
  (forall s, s ∈ fst st -> planned s /\ parent_card_id s = destination) /\
  (forall c, c ∈ snd st -> planned c) /\ id_sorted (snd st).

Lemma place_spec destination u block at_ st st' :
  place_inv destination st -> (at_ <= length (fst st))%nat ->
  (forall b, b ∈ block -> exists h, h ∈ all_heads /\ head_card h = b /\ head_destination h = destination) ->
  place destination u block at_ st = Ok st' ->
  place_inv destination st' /\
  (forall id, id ∈ map card_id block \/ id ∈ map card_id (snd st) -> id ∈ map card_id (snd st')).
Proof.
  intros (H1 & H2 & H3) Hat Hb H. unfold place in H.
  destruct (insert_block_into _ _ _ _ _) as [[changed after]|] eqn:Hi; [|done].
  injection H as <-. cbn [fst snd].
  assert (Hb' : forall b, b ∈ sort_by card_tree_less block <-> b ∈ block)
    by (intros b; by rewrite sort_by_perm).
  apply insert_block_into_spec in Hi as R; [|done|].
  2: { apply Forall_app. split; apply Forall_forall.
       - intros s Hs. destruct (H1 s Hs) as [(r & _ & _ & _ & _ & Hn & _) _]. done.
       - intros b Hin%Hb'. destruct (Hb b Hin) as (h & Hh & <- & _).
         destruct (all_heads_elem h Hh) as ((Hc & _) & _). apply (wf_keys db W). by apply by_id_elem in Hc as [? _]. }
  assert (Hafter : forall s, s ∈ after -> planned s /\ parent_card_id s = destination).
  { intros s Hs. assert (f64_is_nan (sort_key s) = false) as Hn.
    { destruct (inserted_kept Hat R s Hs) as [Hc|Hc].
      - by apply f64_is_finite_not_nan, (inserted_changed R).
      - by destruct (H1 s Hc) as [(r & _ & _ & _ & _ & Hn & _) _]. }
    destruct (inserted_origin R s Hs) as [(d & Hd & Hr)|(b & Hin & Hr)].
    - destruct (H1 d Hd) as [Hpl Hpar]. split; [by apply (planned_rekeyed d)|]. by rewrite Hr.
    - apply Hb' in Hin. destruct (Hb b Hin) as (h & Hh & <- & Hdest).
      split; [apply (planned_head h); [done|by rewrite Hdest|done]|]. by rewrite Hr. }
  split; [split; [exact Hafter|split]|].
  - intros c [Hc|Hc]%assign_all_elem; [|by apply H2]. apply Hafter. by apply (inserted_changed R).
  - by apply assign_all_sorted.
  - intros id Hid. apply assign_all_ids. destruct Hid as [Hid|Hid]; [left|by right].
    apply elem_of_map_id in Hid as (b & Hin & ->). apply Hb' in Hin.
    destruct (inserted_block Hat R b Hin) as (c & Hc & Hr). apply elem_of_map_id. exists c.
    apply rekeyed_id in Hr. split; [done|]. by rewrite Hr.
Qed.
Definition heads_of (destination : option string) (b : Card) : Prop :=
  exists h, h ∈ all_heads /\ head_card h = b /\ head_destination h = destination.

Lemma place_anchored_spec destination u anchors anchored : forall st st',
  place_inv destination st ->
  (forall b, b ∈ concat (map snd anchored) -> heads_of destination b) ->
  place_anchored destination u anchors anchored st = Ok st' ->
  place_inv destination st' /\
  (forall id, id ∈ map card_id (concat (map snd anchored)) \/ id ∈ map card_id (snd st) ->
     id ∈ map card_id (snd st')).
Proof.
  induction anchored as [|[k block] rest IH]; intros st st' Hinv Hb H; cbn [place_anchored] in H.
  { injection H as <-. split; [done|]. simpl. set_solver. }
  destruct (find anchors (Some k)) as [anchor|]; [|done].
  destruct (place _ _ _ _ _) as [st1|] eqn:Hp; [|done]. cbn [rbind] in H. simpl in Hb.
  destruct (place_spec destination u block _ st st1 Hinv (lower_bound_le card_tree_less anchor _))
    as [Hinv1 Hids1]; [intros b Hin; apply Hb; set_solver|done|].
  destruct (IH st1 st' Hinv1) as [Hinv' Hids']; [intros b Hin; apply Hb; set_solver|done|].
  split; [done|]. intros id Hid. apply Hids'. simpl in Hid. rewrite map_app, elem_of_app in Hid.
  destruct Hid as [[Hid|Hid]|Hid]; auto.
Qed.

Lemma group_anchored_perm group :
  concat (map snd (group_anchored group)) ≡ₚ
    map head_card (list_filter (fun h => negb (bool_decide (head_anchor h = None))) group).
Proof.
  unfold group_anchored.
  enough (forall m, concat (map snd (foldl (fun m h => match head_anchor h with
      | Some a => push_back String.compare (card_id a) (head_card h) m | None => m end) m group)) ≡ₚ
    map head_card (list_filter (fun h => negb (bool_decide (head_anchor h = None))) group)
      ++ concat (map snd m)) as H by (rewrite H; simpl; by rewrite app_nil_r).
  unfold list_filter. induction group as [|h group IH]; intros m; simpl; [done|].
  rewrite IH. destruct (head_anchor h) as [a|]; simpl; [|done].
  rewrite push_back_perm. symmetry. apply Permutation_middle.
Qed.

Lemma group_cards group b :
  b ∈ concat (map snd (group_anchored group)) \/ b ∈ group_unanchored group <->
  exists h, h ∈ group /\ head_card h = b.
Proof.
  rewrite group_anchored_perm. unfold group_unanchored. rewrite !elem_of_map_id.
  setoid_rewrite elem_of_list_filter. setoid_rewrite negb_true_iff.
  setoid_rewrite bool_decide_eq_true. setoid_rewrite bool_decide_eq_false. split.
  - naive_solver.
  - intros (h & Hh & <-). destruct (decide (head_anchor h = None)); [right|left]; by exists h.
Qed.

(** The changed cards collected so far. *)
Definition changed_inv (changed : list Card) : Prop :=
  (forall c, c ∈ changed -> planned c) /\ id_sorted changed.

Lemma rooted_live destination c :
  rooted (cards db) pid destination -> c ∈ by_id -> parent_card_id c = destination -> attached c.
Proof.
  intros (l & Hl & Hlive) Hc <-. unfold attached, parent_live.
  inversion Hl as [|?|a k e Ha Hap Hk Ho]; subst; [by left|right].
  assert (find by_id (Some (card_id a)) = Some a) as -> by (by apply find_Some; rewrite by_id_elem).
  apply Forall_cons in Hlive as [-> _]. done.
Qed.

Lemma place_group_spec u destination group changed changed' :
  changed_inv changed ->
  (forall h, h ∈ group -> h ∈ all_heads /\ head_destination h = destination) ->
  place_group by_id u destination group changed = Ok changed' ->
  changed_inv changed' /\
  (forall id, (exists h, h ∈ group /\ card_id (head_card h) = id) \/ id ∈ map card_id changed ->
     id ∈ map card_id changed').
Proof.
  intros [Hc1 Hc2] Hg H. destruct group as [|h0 group0].
  { injection H as <-. split; [done|]. set_solver. }
  set (group := h0 :: group0) in *. unfold place_group in H.
  set (sibs := sort_by _ _) in H.
  assert (Hroot : rooted (cards db) pid destination).
  { destruct (Hg h0) as [Hh <-]; [by left|]. by apply all_heads_elem. }
  assert (Hinv : place_inv destination (sibs, changed)).
  { split; [|done]. intros s Hs. unfold sibs in Hs. cbn [fst] in Hs.
    rewrite sort_by_perm, elem_of_list_filter in Hs.
    destruct Hs as [Hs [Hd%negb_true_iff Hp]%andb_true_iff]. apply bool_decide_eq_true in Hp.
    split; [|done]. exists s. split_and!; try done; [by destruct s| |].
    - apply by_id_elem in Hs as [Hs _]. by apply (wf_keys db W).
    - left. split; [by apply (rooted_live destination)|done]. }
  assert (Hof : forall b, (exists h, h ∈ group /\ head_card h = b) -> heads_of destination b).
  { intros b (h & Hh & <-). exists h. destruct (Hg h Hh). done. }
  destruct (place_anchored _ _ _ _ _) as [st1|] eqn:H1; [|done]. cbn [rbind] in H.
  edestruct place_anchored_spec as [Hinv1 Hids1]; [exact Hinv| |exact H1|].
  { intros b Hb. apply Hof, group_cards. by left. }
  assert (Hfinal : exists st2, place_inv destination st2 /\ changed' = snd st2 /\
    forall id, id ∈ map card_id (group_unanchored group) \/ id ∈ map card_id (snd st1) ->
      id ∈ map card_id (snd st2)).
  { destruct (group_unanchored group) as [|b bs] eqn:Hun.
    { injection H as <-. exists st1. split; [done|]. split; [done|]. set_solver. }
    destruct (place _ _ _ _ _) as [st2|] eqn:H2; [|done]. injection H as <-.
    destruct (place_spec destination u (b :: bs) _ st1 st2 Hinv1 (Nat.le_refl _)) as [Hinv2 Hids2];
      [|exact H2|by exists st2].
    intros x Hx. apply Hof, group_cards. right. by rewrite Hun. }
  destruct Hfinal as (st2 & (_ & Hp & Hs) & -> & Hids2). split; [done|].
  intros id [(h & Hh & <-)|Hid]; apply Hids2; [|right; apply Hids1; by right].
  destruct (proj2 (group_cards group (head_card h)) (ex_intro _ h (conj Hh eq_refl))) as [Hb|Hb].
  - right. apply Hids1. left. apply elem_of_map_id. by exists (head_card h).
  - left. apply elem_of_map_id. by exists (head_card h).
Qed.

Lemma place_groups_spec u groups : forall changed changed',
  changed_inv changed ->
  (forall d g, (d, g) ∈ groups -> forall h, h ∈ g -> h ∈ all_heads /\ head_destination h = d) ->
  place_groups by_id u groups changed = Ok changed' ->
  changed_inv changed' /\
  (forall id, (exists h, h ∈ concat (map snd groups) /\ card_id (head_card h) = id) \/
              id ∈ map card_id changed -> id ∈ map card_id changed').
Proof.
  induction groups as [|[d g] groups IH]; intros changed changed' Hinv Hg H; cbn [place_groups] in H.
  { injection H as <-. split; [done|]. simpl. set_solver. }
  destruct (place_group _ _ _ _ _) as [ch1|] eqn:H1; [|done]. cbn [rbind] in H.
  destruct (place_group_spec u d g changed ch1 Hinv) as [Hinv1 Hids1];
    [intros h Hh; apply (Hg d g); [left|done]|done|].
  destruct (IH ch1 changed' Hinv1) as [Hinv' Hids']; [intros; eapply Hg; [right|]; done|done|].
  split; [done|]. simpl. intros id [(h & Hh & Hid)|Hid]; apply Hids'; [|right; apply Hids1; by right].
  apply elem_of_app in Hh as [Hh|Hh]; [right; apply Hids1; left|left]; by exists h.
Qed.

Lemma by_destination_spec hs : forall m : list (option string * list Head),
  (forall d g, (d, g) ∈ m -> forall h, h ∈ g -> head_destination h = d) ->
  let m' := foldl (fun m h => push_back opt_compare (head_destination h) h m) m hs in
  (forall d g, (d, g) ∈ m' -> forall h, h ∈ g -> head_destination h = d) /\
  concat (map snd m') ≡ₚ hs ++ concat (map snd m).
Proof.
  induction hs as [|h hs IH]; intros m Hm; simpl; [done|].
  destruct (IH (push_back opt_compare (head_destination h) h m)) as [H1 H2].
  - intros d g Hdg x Hx. destruct (push_back_elem opt_compare _ _ _ _ _ _ opt_compare_eq Hdg Hx)
      as [[-> ->]|(g' & Hg' & Hx')]; [done|by eapply Hm].
  - split; [done|]. rewrite H2, push_back_perm. symmetry. apply Permutation_middle.
Qed.
(** ** The table after the placements are written *)
Section Written.
Context (changed : list Card).
Hypothesis Hinv : changed_inv changed.
Hypothesis Hheads : forall h, h ∈ all_heads -> card_id (head_card h) ∈ map card_id changed.

Lemma destination_exists h c' :
  h ∈ all_heads -> parent_card_id c' = head_destination h -> cards_parent_ok (cards db) c' = true.
Proof.
  intros [_ (l & Hl & _)]%all_heads_elem Hp. unfold cards_parent_ok. rewrite Hp.
  inversion Hl as [|?|a k e Ha Hap Hk Ho]; [done|subst].
  apply card_exists_spec, elem_of_map_id. eauto.
Qed.

Lemma repair_valid : valid_changes (cards db) changed.
Proof.
  destruct Hinv as [Hp Hs]. split; [by apply id_sorted_nodup|]. intros c' Hc'.
  destruct (Hp c' Hc') as (r & [Hr Hrp]%by_id_elem & He & _ & _ & Hn & Hpar).
  split; [by exists r|]. split; [done|].
  destruct Hpar as [[_ Hpar]|(h & Hh & _ & Hpar)]; [|by eapply destination_exists].
  unfold cards_parent_ok. rewrite Hpar. by apply (wf_parents db W r).
Qed.

(** What happens to each row of the project. *)
Lemma repaired_row c :
  c ∈ by_id ->
  card_deleted (changed_row changed c) = card_deleted c /\
  ((is_head c /\ exists h, h ∈ all_heads /\ head_card h = c /\
      parent_card_id (changed_row changed c) = head_destination h) \/
   (~ is_head c /\ parent_card_id (changed_row changed c) = parent_card_id c)).
Proof.
  intros Hc. destruct (changed_row_cases changed c) as [[Hin Hid]|[-> Hout]].
  - destruct (proj1 Hinv _ Hin) as (r & Hr & He & Hd & Hd' & _ & Hpar).
    assert (r = c) as ->.
    { apply (NoDup_map_inj card_id by_id); [apply by_id_nodup|done|done|].
      rewrite <- Hid. symmetry. by apply row_edit_id. }
    split; [congruence|]. destruct Hpar as [[Hatt Hpar]|(h & Hh & Hhc & Hpar)]; [right|left].
    + split; [|done]. intros (_ & _ & _ & Hn). done.
    + split; [|by exists h]. rewrite <- Hhc. by apply all_heads_elem.
  - split; [done|]. right. split; [|done]. intros Hh.
    destruct (is_head_elem c Hh) as (h & Hin & <-). by apply Hout, Hheads.
Qed.

Lemma repaired_keeps_chain l d :
  lineage (cards db) pid d l None -> live_chain l ->
  forall a, a ∈ l -> card_deleted (changed_row changed a) = false /\
                     parent_card_id (changed_row changed a) = parent_card_id a.
Proof.
  intros Hl Hlive a Ha. pose proof Ha as Ha'.
  apply list_elem_of_split in Ha' as (l1 & l2 & ->).
  destruct (lineage_cards _ (wf_ids db W) _ _ _ _ Hl a Ha) as [Hac Hap].
  assert (Haid : a ∈ by_id) by (by apply by_id_elem).
  destruct (repaired_row a Haid) as [-> Hpar]. unfold live_chain in Hlive.
  rewrite Forall_forall in Hlive. split; [by apply Hlive|].
  destruct Hpar as [[(_ & _ & _ & Hn) _]|[_ ->]]; [|done]. exfalso. apply Hn.
  apply (rooted_live (parent_card_id a)); [|done|done]. exists l2.
  split; [by eapply lineage_suffix|]. apply Forall_forall. intros x Hx. apply Hlive. set_solver.
Qed.

Lemma repaired_rooted d :
  rooted (cards db) pid d -> rooted (override changed (cards db)) pid d.
Proof.
  intros (l & Hl & Hlive).
  apply (override_rooted _ changed (wf_ids db W) repair_valid pid d l Hl).
  by apply (repaired_keeps_chain l d).
Qed.

(** Every live card that is not under a cycle can be reached afterwards. *)
Lemma repaired_visible c :
  c ∈ by_id -> card_deleted c = false -> has_lineage c ->
  visible (override changed (cards db)) (changed_row changed c).
Proof.
  intros Hc Hd (l & e & Hl). revert c Hc Hd Hl.
  induction l as [|a l IH]; intros c Hc Hd Hl;
    destruct (repaired_row c Hc) as [Hd' Hpar]; (split; [congruence|]);
    pose proof Hc as [Hct Hcp]%by_id_elem;
    rewrite (row_project _ changed (wf_ids db W) repair_valid c Hct), Hcp;
    destruct Hpar as [[_ (h & Hh & _ & ->)]|[Hn ->]];
    try (apply repaired_rooted; by apply all_heads_elem).
  - destruct (parent_card_id c) as [p|] eqn:Hp; [|apply rooted_none]. exfalso. apply Hn.
    split; [done|]. split; [done|]. split; [exists [], e; by rewrite Hp|].
    intros [H|H]; [congruence|]. unfold parent_live in H. rewrite Hp in H.
    inversion Hl as [|? Hno|]; subst. by rewrite (proj2 (find_None p) Hno) in H.
  - inversion Hl as [| |? ? ? Ha Hap Hl' Ho]; subst.
    assert (Haid : a ∈ by_id) by (by apply by_id_elem).
    destruct (card_deleted a) eqn:Had.
    { exfalso. apply Hn. split; [done|]. split; [done|]. split; [by exists (a :: l), e|].
      unfold attached, parent_live. rewrite <- Ho.
      assert (find by_id (Some (card_id a)) = Some a) as -> by (by apply find_Some).
      rewrite Had. intros [?|?]; done. }
    destruct (IH a Haid Had Hl') as [Hva (k & Hk & Hklive)].
    exists (changed_row changed a :: k). rewrite <- (changed_row_id changed a). split.
    + constructor; [apply override_elem; eauto| |].
      * by rewrite (row_project _ changed (wf_ids db W) repair_valid a Ha).
      * rewrite (row_project _ changed (wf_ids db W) repair_valid a Ha), ?Hap in Hk. exact Hk.
    + by constructor.
Qed.
(** Writing the placements creates no new loop-free ancestors out of thin air. *)
Lemma lineage_back o l e :
  lineage (override changed (cards db)) pid o l e -> exists l' e', lineage (cards db) pid o l' e'.
Proof.
  induction 1 as [|id Hno|c' l e Hc' Hp Hl (l' & e' & IH)].
  - exists [], None. constructor.
  - exists [], (Some id). constructor. intros c Hc Hid Hcp. apply (Hno (changed_row changed c)).
    + apply override_elem. eauto.
    + by rewrite changed_row_id.
    + by rewrite (row_project _ changed (wf_ids db W) repair_valid c Hc).
  - apply override_elem in Hc' as (c & Hc & ->). rewrite changed_row_id.
    rewrite (row_project _ changed (wf_ids db W) repair_valid c Hc) in Hp.
    destruct (repaired_row c) as [_ [[(_ & _ & (k & f & Hk) & _) _]|[_ Hpar]]]; [by apply by_id_elem| |].
    + exists (c :: k), f. by constructor.
    + rewrite Hpar in IH. exists (c :: l'), e'. by constructor.
Qed.
End Written.
End Repair.

(** After the repair nothing is left to do. *)
Lemma repaired_no_heads `{!SqlEngineLaws E} db (W : cards_wf db) pid changed :
  bind_text pid = pid -> changed_inv db pid changed ->
  (forall h, h ∈ all_heads db pid -> card_id (head_card h) ∈ map card_id changed) ->
  all_heads (set_cards (override changed (cards db)) db) pid = [].
Proof.
  intros Hpid Hinv Hheads. set (db' := set_cards _ db).
  assert (W' : cards_wf db') by (by apply override_wf, (repair_valid db W pid)).
  apply elem_of_nil_inv. intros h Hh.
  apply (all_heads_elem db' W' pid Hpid) in Hh as [(Hc' & Hd' & (l & e & Hl) & Hatt) _].
  apply Hatt. clear Hatt. pose proof Hc' as [Hin Hp]%(by_id_elem db' W' pid Hpid).
  unfold db' in Hin. cbn [cards set_cards] in Hin. apply override_elem in Hin as (c & Hc & Heq).
  rewrite Heq in *. clear Heq h.
  rewrite (row_project _ changed (wf_ids db W) (repair_valid db W pid Hpid changed Hinv) c Hc) in Hp.
  assert (Hcid : c ∈ by_id db pid) by (by apply by_id_elem).
  destruct (repaired_row db W pid Hpid changed Hinv Hheads c Hcid) as [Hd Hpar].
  assert (has_lineage db pid c) as Hlin.
  { destruct Hpar as [[(_ & _ & Hlin & _) _]|[_ Hpar]]; [done|]. rewrite Hpar in Hl.
    by apply (lineage_back db W pid Hpid changed Hinv Hheads) in Hl. }
  destruct (repaired_visible db W pid Hpid changed Hinv Hheads c Hcid ltac:(congruence) Hlin) as [_ Hr].
  rewrite (row_project _ changed (wf_ids db W) (repair_valid db W pid Hpid changed Hinv) c Hc), Hp in Hr.
  by apply (rooted_live db' W' pid Hpid (parent_card_id (changed_row changed c))).
Qed.
End HierarchyRepairFacts.

Module HierarchyRepairTheorems.
Import HierarchyRepair HierarchyRepairFacts.

(** What a successful plan consists of. *)
Lemma plan_Ok `{!SqlEngineLaws E} db (W : cards_wf db) pid u plan :
  bind_text pid = pid -> plan_hierarchy_repair db pid u = Ok plan ->
  changed_inv db pid (placements plan) /\
  (forall h, h ∈ all_heads db pid -> card_id (head_card h) ∈ map card_id (placements plan)) /\
  cycle_card_ids plan = all_cycles db pid /\
  moved_card_ids plan ≡ₚ map (fun h => card_id (head_card h)) (all_heads db pid).
Proof.
  intros Hpid H. unfold plan_hierarchy_repair in H. fold (by_id db pid) in H.
  rewrite classify_all in H. cbn [fst snd app] in H.
  fold (all_heads db pid) (all_cycles db pid) in H.
  set (groups := foldl _ [] (all_heads db pid)) in H.
  destruct (by_destination_spec (all_heads db pid) []) as [Hg Hperm]; [intros; set_solver|].
  change (foldl _ [] (all_heads db pid)) with groups in Hg, Hperm.
  cbn [map concat] in Hperm. rewrite app_nil_r in Hperm.
  destruct (place_groups _ _ _ _) as [changed|] eqn:Hp; [|done]. injection H as <-.
  cbn [placements cycle_card_ids moved_card_ids].
  destruct (place_groups_spec db W pid Hpid u groups [] changed) as [Hinv Hids]; [|  |done|].
  { split; [intros c Hc; by apply not_elem_of_nil in Hc|constructor]. }
  { intros d g Hdg h Hh. split; [|by eapply Hg].
    assert (h ∈ concat (map snd groups)) as Hin; [|by rewrite Hperm in Hin].
    rewrite elem_of_concat_map. by exists (d, g). }
  split; [done|]. split; [|split; [done|]].
  - intros h Hh. apply Hids. left. exists h. by rewrite Hperm.
  - rewrite sort_by_perm, <- Hperm, concat_map, map_map. done.
Qed.

Lemma hidden_spec `{!SqlEngineLaws E} db (W : cards_wf db) pid c :
  bind_text pid = pid ->
  (~ attached db pid c) <->
  exists p, parent_card_id c = Some p /\
    forall d, d ∈ cards db -> card_project_id d = pid -> card_id d = p -> card_deleted d = true.
Proof.
  intros Hpid. unfold attached, parent_live. destruct (parent_card_id c) as [p|] eqn:Hp.
  2: { split; [intros H; exfalso; auto|]. intros (p & [=] & _). }
  destruct (find (by_id db pid) (Some p)) as [d|] eqn:Hf.
  - pose proof Hf as [[Hd Hdp]%by_id_elem Hid]%find_Some; [|done..]. split.
    + intros H. exists p. split; [done|]. intros x Hx Hxp Hxid.
      assert (x = d) as -> by (apply (NoDup_map_inj card_id (cards db)); [apply W|done|done|congruence]).
      destruct (card_deleted d); [done|]. exfalso. auto.
    + intros (p' & [= <-] & H) [?|Hl]; [done|]. by rewrite (H d Hd Hdp Hid) in Hl.
  - pose proof (proj1 (find_None db W pid Hpid p) Hf) as Hno. split.
    + intros _. exists p. split; [done|]. intros d Hd Hdp Hid. by destruct (Hno d Hd Hid).
    + intros _ [?|?]; done.
Qed.

Lemma moved_elem `{!SqlEngineLaws E} db (W : cards_wf db) pid u plan id :
  bind_text pid = pid -> plan_hierarchy_repair db pid u = Ok plan ->
  id ∈ moved_card_ids plan <-> exists c, is_head db pid c /\ id = card_id c.
Proof.
  intros Hpid H. destruct (plan_Ok db W pid u plan Hpid H) as (_ & _ & _ & ->).
  rewrite elem_of_map_id. split.
  - intros (h & Hh & ->). exists (head_card h). split; [|done]. by apply all_heads_elem.
  - intros (c & Hc & ->). destruct (is_head_elem db W pid Hpid c Hc) as (h & Hh & <-). by exists h.
Qed.

(** C26: repairing the hierarchy: the plan names exactly the live cards whose parent
    chain loops, which it leaves alone, and moves exactly the other live cards whose
    parent is missing or trashed. Its placements can be written together; then every
    live card of the project that is not under a loop can be reached from the roots,
    cards that did not move keep their parents, rows of other projects and of the
    trash are untouched, and repairing again finds nothing to do. *)
Theorem hierarchy_repair_correct (E : SqlEngine) (db : Db) (pid : string) (u : Z)
    (plan : HierarchyRepairPlan) :
  SqlEngineLaws E -> cards_wf db -> bind_text pid = pid ->
  plan_hierarchy_repair db pid u = Ok plan ->
  let t := cards db in
  let ends c := exists l missing, lineage t pid (parent_card_id c) l missing in
  let hidden c := exists p, parent_card_id c = Some p /\
    forall d, d ∈ t -> card_project_id d = pid -> card_id d = p -> card_deleted d = true in
  let live c := c ∈ t /\ card_project_id c = pid /\ card_deleted c = false in
  (forall id, id ∈ cycle_card_ids plan <-> exists c, live c /\ ~ ends c /\ id = card_id c) /\
  (forall id, id ∈ moved_card_ids plan <-> exists c, live c /\ ends c /\ hidden c /\ id = card_id c) /\
  exists db', write_snapshots (placements plan) db = (Ok tt, db') /\ cards_wf db' /\
    (forall c, live c -> ends c -> exists c', c' ∈ cards db' /\ card_id c' = card_id c /\
       visible (cards db') c' /\ (card_id c ∉ moved_card_ids plan -> parent_card_id c' = parent_card_id c)) /\
    (forall c, c ∈ t -> card_project_id c <> pid \/ card_deleted c = true -> c ∈ cards db') /\
    (forall u', exists plan', plan_hierarchy_repair db' pid u' = Ok plan' /\
       placements plan' = [] /\ moved_card_ids plan' = []).
Proof.
  intros L W Hpid H. cbv zeta.
  destruct (plan_Ok db W pid u plan Hpid H) as (Hinv & Hheads & Hcyc & _).
  pose proof (by_id_elem db W pid Hpid) as Hby.
  pose proof (fun id => moved_elem db W pid u plan id Hpid H) as Hmoved.
  set (ch := placements plan) in *. pose proof (repair_valid db W pid Hpid ch Hinv) as V.
  split; [|split].
  - intros id. rewrite Hcyc, all_cycles_elem by done. unfold on_cycle, has_lineage.
    split; intros (c & Hc & He); exists c; rewrite Hby in *; tauto.
  - intros id. rewrite Hmoved. unfold is_head, has_lineage.
    split; intros (c & Hc & He); exists c; rewrite Hby, hidden_spec in * by done; tauto.
  - exists (set_cards (override ch (cards db)) db). split; [by apply write_snapshots_spec|].
    split; [by apply override_wf|]. split; [|split].
    + intros c (Hc & Hp & Hd) Hl. exists (changed_row ch c). rewrite changed_row_id.
      assert (Hcid : c ∈ by_id db pid) by (by apply Hby).
      split; [apply override_elem; eauto|]. split; [done|].
      split; [by apply (repaired_visible db W pid)|]. intros Hnm.
      destruct (repaired_row db W pid Hpid ch Hinv Hheads c Hcid) as [_ [[Hh _]|[_ Hpar]]]; [|done].
      exfalso. apply Hnm, Hmoved. eauto.
    + intros c Hc Hout. apply override_elem. exists c. split; [done|].
      destruct (changed_row_cases ch c) as [[Hin Hid]|[-> _]]; [|done]. exfalso.
      destruct (proj1 Hinv _ Hin) as (r & [Hr Hrp]%Hby & He & Hrd & _).
      assert (r = c) as ->; [|naive_solver congruence].
      apply (NoDup_map_inj card_id (cards db)); [apply W|done|done|].
      rewrite <- Hid. symmetry. by apply row_edit_id.
    + intros u'. pose proof (repaired_no_heads db W pid ch Hpid Hinv Hheads) as Hno.
      unfold plan_hierarchy_repair. set (db' := set_cards _ db) in *. fold (by_id db' pid).
      rewrite classify_all. cbn [fst snd app]. fold (all_heads db' pid) (all_cycles db' pid).
      rewrite Hno. eexists. done.
Qed.

(** A root, a trashed card under it with a live child that has a child of its own,
    and two cards that are each other's parent. *)
Definition broken_db : Db :=
  core_db [sample_project]
    [sample_card "aaaa" None 1; trashed 5 (sample_card "bbbb" (Some "aaaa") 1);
     sample_card "cccc" (Some "bbbb") 2; sample_card "dddd" (Some "cccc") 1;
     sample_card "eeee" (Some "ffff") 1; sample_card "ffff" (Some "eeee") 1] [] [] [] [].

Lemma broken_db_wf : cards_wf broken_db.
Proof.
  split; simpl.
  1, 6: repeat constructor; set_solver.
  all: intros c Hc; repeat (apply elem_of_cons in Hc as [->|Hc]; [done|]); set_solver.
Qed.

Example hierarchy_repair_correct_witness :
  exists plan db', plan_hierarchy_repair (E:=reference_engine) broken_db "p" 9 = Ok plan /\
    moved_card_ids plan = ["cccc"] /\ cycle_card_ids plan = ["eeee"; "ffff"] /\
    write_snapshots (placements plan) broken_db = (Ok tt, db') /\
    exists plan', plan_hierarchy_repair (E:=reference_engine) db' "p" 10 = Ok plan' /\
      placements plan' = [].
Proof.
  destruct (plan_hierarchy_repair (E:=reference_engine) broken_db "p" 9) as [plan|] eqn:H;
    [|vm_compute in H; discriminate H].
  destruct (hierarchy_repair_correct reference_engine broken_db "p" 9 plan reference_engine_laws
    broken_db_wf eq_refl H) as (_ & _ & db' & Hw & _ & _ & _ & Hagain).
  exists plan, db'. split; [reflexivity|].
  split; [vm_compute in H; by injection H as <-|]. split; [vm_compute in H; by injection H as <-|].
  split; [exact Hw|]. destruct (Hagain 10%Z) as (plan' & Hp & Hnil & _). exists plan'. by split.
Defined.
End HierarchyRepairTheorems.
