(* ===== verification/CardReference.v ===== *)
(** * Card references

    [card/CardReferenceResolver.cpp]: what a user's text refers to, a full
    identifier, a prefix of one, or an exact title. *)

From stdpp Require Import base list sets strings numbers sorting.
From Stdlib Require Import Ascii.
From S2P Require Import Prelude Double Model Text Database CardRepo Uuid.
Import CardRepo CardRepoFacts CardRepoTheorems.

Module CardReferenceResolver.

Inductive CardReferenceStatus := Resolved | Ambiguous | NotFound.
Inductive CardReferenceMatchKind := FullId | IdPrefix | ExactTitle.

Record CardReferenceResult := mkReference {
  status : CardReferenceStatus;
  match_kind : option CardReferenceMatchKind;
  card : option Card;
  candidates : list Card
}.

(** [CardReferenceResult{}] *)
Definition not_found : CardReferenceResult := mkReference NotFound None None [].

Definition kUniquenessLimit : Z := 2.

Definition is_hex_digit (value : ascii) : bool :=
  in_range "0" "9" value || in_range "a" "f" value || in_range "A" "F" value.

Definition lowercase_hex (value : ascii) : ascii :=
  if in_range "A" "F" value then ascii_of_N (code value - code "A" + code "a") else value.

Definition is_uuid_hyphen_position (index : nat) : bool :=
  Nat.eqb index 8 || Nat.eqb index 13 || Nat.eqb index 18 || Nat.eqb index 23.

Definition has_uuid_version (value : ascii) : bool := Ascii.eqb value "4" || Ascii.eqb value "7".

Definition has_uuid_variant (value : ascii) : bool :=
  let normalized := lowercase_hex value in
  existsb (Ascii.eqb normalized) (bytes_of "89ab").

Definition lowercase_uuid (value : bytes) : bytes := map lowercase_hex value.

(** The loop of [normalize_uuid_prefix]: the normalised bytes and the number of
    hexadecimal digits. *)
Fixpoint normalize_digits (index : nat) (reference : bytes) : option (bytes * nat) :=
  match reference with
  | [] => Some ([], 0%nat)
  | character :: rest =>
      if is_uuid_hyphen_position index then
        if Ascii.eqb character "-"
        then (fun r => (character :: fst r, snd r)) <$> normalize_digits (S index) rest
        else None
      else if is_hex_digit character
      then (fun r => (lowercase_hex character :: fst r, S (snd r)))
             <$> normalize_digits (S index) rest
      else None
  end.

Definition normalize_uuid_prefix (reference : bytes) : option bytes :=
  if Nat.leb 36 (length reference) then None
  else
    match normalize_digits 0 reference with
    | None => None
    | Some (normalized, hex_digits) =>
        if Nat.ltb hex_digits 8 then None
        else if match normalized !! 14%nat with Some c => negb (has_uuid_version c) | None => false end
        then None
        else if match normalized !! 19%nat with Some c => negb (has_uuid_variant c) | None => false end
        then None
        else Some normalized
    end.

Definition resolved (c : Card) (kind : CardReferenceMatchKind) : CardReferenceResult :=
  mkReference Resolved (Some kind) (Some c) [].
Definition ambiguous (cs : list Card) (kind : CardReferenceMatchKind) : CardReferenceResult :=
  mkReference Ambiguous (Some kind) None cs.

Definition from_candidates (cs : list Card) (kind : CardReferenceMatchKind) : CardReferenceResult :=
  match cs with
  | [] => not_found
  | [c] => resolved c kind
  | _ => ambiguous cs kind
  end.

Definition resolve {E : SqlEngine} (db : Db) (project_id reference : string) (scope : CardScope)
    : CardReferenceResult :=
  if Uuid.is_valid_uuid (bytes_of reference) then
    match find_by_id db project_id (string_of (lowercase_uuid (bytes_of reference))) scope with
    | Some c => resolved c FullId
    | None => not_found
    end
  else
    let prefix_result :=
      match normalize_uuid_prefix (bytes_of reference) with
      | Some prefix =>
          from_candidates (find_by_id_prefix db project_id (string_of prefix) scope kUniquenessLimit)
            IdPrefix
      | None => not_found
      end in
    match status prefix_result with
    | NotFound =>
        from_candidates (find_by_exact_title db project_id reference scope kUniquenessLimit) ExactTitle
    | _ => prefix_result
    end.

End CardReferenceResolver.

Module CardReferenceFacts.
Import CardReferenceResolver.

(** ** The range that stands for a prefix *)

(** Every byte is below a tilde: true of canonical identifiers. *)
Definition below_tilde (s : string) : bool := forallb (fun c => N.ltb (code c) 126) (bytes_of s).

Lemma str_ltb_cons a s b t :
  str_ltb (String.String a s) (String.String b t) =
    match N.compare (code a) (code b) with Lt => true | Eq => str_ltb s t | Gt => false end.
Proof.
  unfold str_ltb, cmp_ltb. simpl. unfold Ascii.compare, code.
  by destruct (N.compare _ _).
Qed.

Lemma prefix_range p s :
  below_tilde s = true -> String.prefix p s = true ->
  str_ltb s p = false /\ str_ltb s (p +:+ "~") = true.
Proof.
  revert s. induction p as [|a p IH]; intros s Hs Hp.
  - split; [by destruct s|]. destruct s as [|b s]; [done|].
    change ("" +:+ "~") with "~". rewrite str_ltb_cons.
    cbn in Hs. apply andb_true_iff in Hs as [Hb _]. apply N.ltb_lt in Hb.
    change (code "~") with 126%N. by apply N.compare_lt_iff in Hb as ->.
  - destruct s as [|b s]; [done|]. simpl in Hp. destruct (ascii_dec a b) as [<-|]; [|done].
    cbn in Hs. apply andb_true_iff in Hs as [_ Hs].
    change (String.String a p +:+ "~") with (String.String a (p +:+ "~")).
    rewrite !str_ltb_cons, N.compare_refl. by apply IH.
Qed.

Lemma normalize_digits_ascii index reference n k :
  normalize_digits index reference = Some (n, k) ->
  forallb (fun c => is_ascii c && negb (Ascii.eqb c "000")) n = true.
Proof.
  revert index n k. induction reference as [|c rest IH]; intros index n k H; simpl in H.
  { by injection H as <- _. }
  destruct (is_uuid_hyphen_position index).
  - destruct (Ascii.eqb_spec c "-") as [->|]; [|done].
    apply fmap_Some in H as ([n' k'] & H & [= -> ->]). simpl. by apply (IH _ _ _ H).
  - destruct (is_hex_digit c) eqn:Hc; [|done].
    apply fmap_Some in H as ([n' k'] & H & [= -> ->]). simpl. rewrite (IH _ _ _ H), andb_true_r.
    pose proof (ascii_forall (fun c => implb (is_hex_digit c)
      (is_ascii (lowercase_hex c) && negb (Ascii.eqb (lowercase_hex c) "000"))) eq_refl c) as Hi.
    cbv beta in Hi. by rewrite Hc in Hi.
Qed.

Lemma c_str_no_nul b : forallb (fun c => negb (Ascii.eqb c "000")) b = true -> bind_text (string_of b) = string_of b.
Proof.
  induction b as [|c b IH]; [done|]. cbn. intros [Hc%negb_true_iff Hb]%andb_true_iff.
  rewrite Hc. f_equal. by apply IH.
Qed.

Lemma normalized_prefix_plain reference p :
  normalize_uuid_prefix reference = Some p ->
  ascii_string (string_of p) = true /\ bind_text (string_of p) = string_of p.
Proof.
  unfold normalize_uuid_prefix. destruct (Nat.leb _ _); [done|].
  destruct (normalize_digits 0 reference) as [[n k]|] eqn:Hn; [|done].
  apply normalize_digits_ascii in Hn. repeat (case_match; try done).
  all: intros [= <-]; split; [unfold ascii_string; rewrite bytes_of_string_of|apply c_str_no_nul];
    rewrite forallb_forall in *; intros c Hc; specialize (Hn c Hc);
    by destruct (is_ascii c), (Ascii.eqb c "000").
Qed.

Lemma valid_uuid_plain value :
  Uuid.is_valid_uuid value = true ->
  bind_text (string_of (lowercase_uuid value)) = string_of (lowercase_uuid value).
Proof.
  unfold Uuid.is_valid_uuid. intros H. apply c_str_no_nul.
  assert (Hd : Uuid.check_digits 0 value = true).
  { destruct (negb _); [done|]. by destruct (Uuid.check_digits 0 value). }
  clear H. revert Hd. generalize 0%nat. induction value as [|c value IH]; intros i; [done|].
  cbn [Uuid.check_digits lowercase_uuid map forallb].
  intros [Hc Hv]%andb_true_iff. apply andb_true_iff. split; [|by eapply IH].
  destruct (Uuid.is_hyphen_position i); [by apply Ascii.eqb_eq in Hc as ->|].
  pose proof (ascii_forall (fun c => implb (Uuid.is_hex_digit c)
    (negb (Ascii.eqb (lowercase_hex c) "000"))) eq_refl c) as Hi.
  cbv beta in Hi. by rewrite Hc in Hi.
Qed.

(** Limiting a query to two rows is enough to tell none, one and several apart. *)
Definition describes (kind : CardReferenceMatchKind) (l : list Card) (r : CardReferenceResult) : Prop :=
  match l with
  | [] => r = not_found
  | [c] => r = resolved c kind
  | _ => exists c d, r = ambiguous [c; d] kind /\ c <> d /\ c ∈ l /\ d ∈ l
  end.

Lemma from_candidates_describes kind l l' :
  NoDup l -> l' ≡ₚ l -> describes kind l (from_candidates (sql_limit kUniquenessLimit l') kind).
Proof.
  intros Hn Hp. unfold sql_limit. change (Z.to_nat kUniquenessLimit) with 2%nat.
  pose proof (Permutation_length Hp) as Hlen.
  destruct l' as [|c [|d l'']], l as [|x [|y l]]; simpl in Hlen; try lia; simpl.
  - done.
  - by apply Permutation_singleton_r in Hp as [= ->].
  - exists c, d. split; [done|]. rewrite <- Hp in Hn |- *.
    apply NoDup_cons in Hn as [Hn _]. split; [set_solver|]. split; set_solver.
Qed.

Section Resolve.
Context `{!SqlEngineLaws E} (db : Db) (W : cards_wf db) (pid : string) (scope : CardScope).

(** The cards of the project in scope that satisfy [p]. *)
Definition matching (p : Card -> bool) : list Card :=
  list_filter (fun c => String.eqb (card_project_id c) (bind_text pid)
                        && deletion_scope_clause scope c && p c) (cards db).

Lemma matching_nodup p : NoDup (matching p).
Proof.
  unfold matching.
  eapply (NoDup_fmap_1 card_id). apply NoDup_map_filter, W.
Qed.


Lemma prefix_query p limit :
  (0 < limit)%Z -> ascii_string p = true -> bind_text p = p ->
  (forall c, c ∈ cards db -> below_tilde (card_id c) = true) ->
  exists l, find_by_id_prefix db pid p scope limit = sql_limit limit l /\
    l ≡ₚ matching (fun c => String.prefix p (card_id c)).
Proof.
  intros Hl Ha Hb Hplain. unfold find_by_id_prefix. destruct (Z.leb_spec limit 0); [lia|].
  rewrite Hb. eexists. split; [done|]. rewrite sql_select_perm. unfold matching.
  erewrite list_filter_ext_in; [done|]. intros c Hc. rewrite sql_starts_with_ascii by done.
  destruct (String.prefix p (card_id c)) eqn:Hp; [|by rewrite !andb_false_r].
  destruct (prefix_range p (card_id c) (Hplain c Hc) Hp) as [-> ->].
  simpl. by rewrite !andb_true_r.
Qed.

Lemma title_query title_ limit :
  (0 < limit)%Z ->
  exists l, find_by_exact_title db pid title_ scope limit = sql_limit limit l /\
    l ≡ₚ matching (fun c => String.eqb (title c) (bind_text title_)).
Proof.
  intros Hl. unfold find_by_exact_title. destruct (Z.leb_spec limit 0); [lia|].
  eexists. split; [done|]. rewrite sql_select_perm. unfold matching.
  erewrite list_filter_ext_in; [done|]. intros c Hc. cbv beta.
  by rewrite <- !andb_assoc, (andb_comm (String.eqb (title c) _)).
Qed.

Lemma id_query id :
  match find_by_id db pid id scope with
  | Some c => matching (fun c => String.eqb (card_id c) (bind_text id)) = [c]
  | None => matching (fun c => String.eqb (card_id c) (bind_text id)) = []
  end.
Proof.
  unfold find_by_id. match goal with |- context [sql_select ?p cmp_true _] => set (q := p) end.
  assert (Hm : sql_select q cmp_true (cards db) ≡ₚ matching (fun c => String.eqb (card_id c) (bind_text id))).
  { rewrite sql_select_perm. unfold matching. erewrite list_filter_ext_in; [done|]. intros c Hc.
    unfold q. by rewrite <- !andb_assoc, (andb_comm (String.eqb (card_id c) _)). }
  pose proof (matching_nodup (fun c => String.eqb (card_id c) (bind_text id))) as Hn.
  rewrite <- Hm in Hn. destruct (sql_select q cmp_true (cards db)) as [|c [|d l]]; simpl.
  - by apply Permutation_nil in Hm.
  - by apply Permutation_singleton_l in Hm.
  - exfalso. assert (forall x, x ∈ c :: d :: l -> x ∈ cards db /\ card_id x = bind_text id) as Hx.
    { intros x. rewrite Hm. unfold matching. rewrite elem_of_list_filter.
      intros [Hx [_ He%String.eqb_eq]%andb_true_iff]. done. }
    destruct (Hx c) as [H1 H2], (Hx d) as [H3 H4]; [set_solver..|].
    assert (c = d) as -> by (apply (NoDup_map_inj card_id (cards db)); [apply W|done|done|congruence]).
    apply NoDup_cons in Hn as [Hn _]. set_solver.
Qed.
End Resolve.
End CardReferenceFacts.

Module CardReferenceTheorems.
Import CardReferenceResolver CardReferenceFacts.

(** C29: resolving a reference: the answer is Resolved exactly when one card of the
    project and scope matches, Ambiguous with two different matches when several do,
    and NotFound when none does. What counts as a match is decided in order: the
    lower-cased identifier for a complete one, the normalised prefix if it matches
    anything, and the exact title otherwise; the index range the query uses loses no
    identifier of the canonical alphabet, and two rows are enough to decide. *)
Theorem resolve_correct (E : SqlEngine) (db : Db) (pid reference : string) (scope : CardScope) :
  SqlEngineLaws E -> cards_wf db -> (forall c, c ∈ cards db -> below_tilde (card_id c) = true) ->
  let r := resolve db pid reference scope in
  let by_id := matching db pid scope
    (fun c => String.eqb (card_id c) (string_of (lowercase_uuid (bytes_of reference)))) in
  let by_prefix := match normalize_uuid_prefix (bytes_of reference) with
    | Some p => matching db pid scope (fun c => String.prefix (string_of p) (card_id c))
    | None => [] end in
  let by_title := matching db pid scope (fun c => String.eqb (title c) (bind_text reference)) in
  if Uuid.is_valid_uuid (bytes_of reference) then describes FullId by_id r
  else match by_prefix with
       | [] => describes ExactTitle by_title r
       | _ => describes IdPrefix by_prefix r
       end.
Proof.
  intros L W Hplain. cbv zeta. unfold resolve.
  destruct (Uuid.is_valid_uuid (bytes_of reference)) eqn:Hv.
  { pose proof (id_query db W pid scope (string_of (lowercase_uuid (bytes_of reference)))) as Hq.
    rewrite (valid_uuid_plain _ Hv) in Hq. by destruct (find_by_id _ _ _ _); rewrite Hq. }
  destruct (title_query db pid scope reference kUniquenessLimit eq_refl) as (lt & Ht & Hpt).
  pose proof (from_candidates_describes ExactTitle _ _ (matching_nodup db W pid scope _) Hpt) as Hdt.
  rewrite <- Ht in Hdt.
  destruct (normalize_uuid_prefix (bytes_of reference)) as [p|] eqn:Hp; [|exact Hdt].
  destruct (normalized_prefix_plain _ _ Hp) as [Ha Hb].
  destruct (prefix_query db pid scope (string_of p) kUniquenessLimit eq_refl Ha Hb Hplain)
    as (lp & Hlp & Hpp).
  pose proof (from_candidates_describes IdPrefix _ _ (matching_nodup db W pid scope _) Hpp) as Hdp.
  rewrite <- Hlp in Hdp. destruct (matching db pid scope (fun c => String.prefix (string_of p) (card_id c)))
    as [|c [|d l]]; cbn [describes] in Hdp.
  - by rewrite Hdp.
  - by rewrite Hdp.
  - destruct Hdp as (x & y & -> & Hrest). simpl. by exists x, y.
Qed.

(** Two cards whose identifiers share the first eight digits. *)
Definition reference_db : Db :=
  core_db [sample_project]
    [mkCard "0123abcd-0000-4000-8000-000000000001" "p" "One" "a" None f64_zero 1 1 None;
     mkCard "0123abcd-0000-4000-8000-000000000002" "p" "Two" "b" None f64_zero 1 1 None] [] [] [] [].

Lemma reference_db_wf : cards_wf reference_db.
Proof.
  split; simpl.
  1, 6: repeat constructor; set_solver.
  all: intros c Hc; repeat (apply elem_of_cons in Hc as [->|Hc]; [done|]); set_solver.
Qed.

Example resolve_correct_witness :
  (exists c d, resolve (E:=reference_engine) reference_db "p" "0123ABCD" Live = ambiguous [c; d] IdPrefix
     /\ c <> d) /\
  (exists c, resolve (E:=reference_engine) reference_db "p" "Two" Live = resolved c ExactTitle).
Proof.
  assert (Hplain : forall c, c ∈ cards reference_db -> below_tilde (card_id c) = true).
  { intros c Hc. repeat (apply elem_of_cons in Hc as [->|Hc]; [done|]). set_solver. }
  pose proof (resolve_correct reference_engine reference_db "p" "0123ABCD" Live reference_engine_laws
    reference_db_wf Hplain) as H1.
  pose proof (resolve_correct reference_engine reference_db "p" "Two" Live reference_engine_laws
    reference_db_wf Hplain) as H2.
  split.
  - vm_compute in H1. destruct H1 as (c & d & H1 & Hne & _). exists c, d. split; [exact H1|exact Hne].
  - vm_compute in H2. eexists. exact H2.
Defined.
End CardReferenceTheorems.
