(* ===== verification/CardPlacement.v ===== *)
(** * Relative placement of a card

    [card/CardPlacementResolver.cpp]: where a card lands for one of eight relative
    intents. The theorems follow the result through [CardStore::move_to]: what the
    sibling order is once the moved card and the re-keyed siblings are written. *)

From stdpp Require Import base list sets strings numbers sorting.
From Stdlib Require Import Ascii.
From S2P Require Import Prelude Double Model Text Database CardRepo TreeOrder Hierarchy.
Import CardRepo CardRepoFacts CardRepoTheorems TreeOrder TreeOrderFacts.
Import CardHierarchy CardHierarchyFacts CardHierarchyTheorems.

Module CardPlacementResolver.

Inductive CardPlacementIntent := Into | Before | After | ToStart | ToEnd | Left | Right | UpLevel.

Record CardPlacementRequest := mkRequest {
  intent : CardPlacementIntent;
  target_card_id : option string;
  has_parent_card_id : bool;
  request_parent : option string
}.

Record CardPlacementResult := mkPlacement {
  result_parent : option string;
  result_sort_key : double;
  moved_into_title : option string;
  sibling_changes : list Card
}.

Definition is_trimmed (c : ascii) : bool := existsb (Ascii.eqb c) [" "%char; tab; carriage_return; newline].

(** [find_first_not_of], [find_last_not_of] and [substr]. *)
Definition trim (raw : bytes) : bytes :=
  rev (drop_while is_trimmed (rev (drop_while is_trimmed raw))).

Definition normalize_parent_id (parent : option string) : option string :=
  match parent with
  | None => None
  | Some raw =>
      match trim (bytes_of raw) with
      | [] => None
      | trimmed => Some (string_of trimmed)
      end
  end.

(** [cards_by_id]: later cards overwrite earlier ones. *)
Definition lookup_by_id (cards : list Card) (id : string) : option Card :=
  List.find (fun c => String.eqb (card_id c) id) (rev cards).

Fixpoint descend (guard : nat) (cards : list Card) (candidate : option string) (id : string) : bool :=
  match guard, candidate with
  | S guard', Some p =>
      if String.eqb p id then true
      else
        match lookup_by_id cards p with
        | None => false
        | Some c => descend guard' cards (normalize_parent_id (parent_card_id c)) id
        end
  | _, _ => false
  end.

Definition is_descendant_of : list Card -> option string -> string -> bool := descend 1024.

(** The lambda [siblings_for_parent]. *)
Definition siblings_for_parent (cards : list Card) (parent : option string) (exclude : string)
    : list Card :=
  sort_by card_tree_less
    (list_filter (fun c => negb (card_deleted c) && negb (String.eqb (card_id c) exclude)
       && opt_eqb (normalize_parent_id (parent_card_id c)) (normalize_parent_id parent)) cards).

(** What the switch assigns. *)
Record Target := mkTarget {
  next_parent : option string;
  target_title : option string;
  destination : list Card;
  insert_at : option nat
}.

Definition live_card (cards : list Card) (id : string) : option Card :=
  match lookup_by_id cards id with
  | Some c => if card_deleted c then None else Some c
  | None => None
  end.

Definition resolve_relative (cards : list Card) (source : Card) (request : CardPlacementRequest)
    : result Target :=
  match target_card_id request with
  | None => Err (Runtime "missing_target_card_id")
  | Some id =>
      match live_card cards id with
      | None => Err (Runtime "target_not_found")
      | Some target =>
          match intent request with
          | Into =>
              let next := Some (card_id target) in
              if is_descendant_of cards next (card_id source)
              then Err (Runtime "move_would_create_cycle")
              else
                let destination := siblings_for_parent cards next (card_id source) in
                Ok (mkTarget next (Some (title target)) destination (Some (length destination)))
          | i =>
              let next := normalize_parent_id (parent_card_id target) in
              let destination := siblings_for_parent cards next (card_id source) in
              match find_index (fun c => String.eqb (card_id c) (card_id target)) destination with
              | None => Err (Runtime "invalid_target")
              | Some index =>
                  let at_ := (index + match i with After => 1 | _ => 0 end)%nat in
                  Ok (mkTarget next None destination (Some at_))
              end
          end
      end
  end.

Definition resolve_in_parent (cards : list Card) (source : Card) (request : CardPlacementRequest)
    : result Target :=
  let original_parent := normalize_parent_id (parent_card_id source) in
  let next :=
    if has_parent_card_id request || bool_decide (request_parent request <> None)
    then normalize_parent_id (request_parent request) else original_parent in
  if match next with
     | Some p => bool_decide (live_card cards p = None)
     | None => false
     end
  then Err (Runtime "target_not_found")
  else
    let destination := siblings_for_parent cards next (card_id source) in
    match intent request with
    | ToStart | ToEnd =>
        let stay := bool_decide (destination = []) && opt_eqb next original_parent in
        Ok (mkTarget next None destination
              (if stay then None
               else match intent request with
                    | ToStart => Some 0%nat
                    | _ => Some (length destination)
                    end))
    | i =>
        let with_source := siblings_for_parent cards next "" in
        let at_ :=
          match find_index (fun c => String.eqb (card_id c) (card_id source)) with_source with
          | None => None
          | Some index =>
              match i with
              | Left => if Nat.ltb 0 index then Some (index - 1)%nat else None
              | _ => if Nat.ltb (index + 1) (length with_source) then Some (index + 1)%nat else None
              end
          end in
        Ok (mkTarget next None destination at_)
    end.

Definition resolve_up_level (cards : list Card) (source : Card) : result Target :=
  match normalize_parent_id (parent_card_id source) with
  | None => Err (Runtime "already_at_project_root")
  | Some p =>
      let next :=
        match live_card cards p with
        | None => None
        | Some parent => normalize_parent_id (parent_card_id parent)
        end in
      let moved_into :=
        match next with
        | Some n => title <$> live_card cards n
        | None => None
        end in
      let destination := siblings_for_parent cards next (card_id source) in
      Ok (mkTarget next moved_into destination (Some (length destination)))
  end.

Definition resolve_target (cards : list Card) (source : Card) (request : CardPlacementRequest)
    : result Target :=
  match intent request with
  | Into | Before | After => resolve_relative cards source request
  | ToStart | ToEnd | Left | Right => resolve_in_parent cards source request
  | UpLevel => resolve_up_level cards source
  end.

Definition resolve {E : SqlEngine} (db : Db) (project_id id : string)
    (request : CardPlacementRequest) (updated_at_ : Z) : result CardPlacementResult :=
  match get db id with
  | None => Err (Runtime "card_not_found")
  | Some source =>
      if card_deleted source then Err (Runtime "card_not_found")
      else if negb (String.eqb (card_project_id source) project_id)
      then Err (Runtime "cross_project_move_forbidden")
      else
        let? t := resolve_target (list_all db project_id) source request in
        match insert_at t with
        | None =>
            Ok (mkPlacement (normalize_parent_id (parent_card_id source)) (sort_key source)
                  (target_title t) [])
        | Some at_ =>
            let? changes := placed_card_changes (destination t) at_ source (next_parent t) updated_at_ in
            let key := foldl (fun k c => if String.eqb (card_id c) (card_id source)
                                         then sort_key c else k) f64_zero changes in
            Ok (mkPlacement (next_parent t) key (target_title t) (without (card_id source) changes))
        end
  end.

End CardPlacementResolver.

Module CardPlacementFacts.
Import CardPlacementResolver.

Lemma drop_while_idemp {A} (p : A -> bool) l : drop_while p (drop_while p l) = drop_while p l.
Proof. induction l as [|x l IH]; simpl; [done|]. destruct (p x) eqn:Hx; simpl; [done|by rewrite Hx]. Qed.

Lemma drop_while_head {A} (p : A -> bool) l :
  match drop_while p l with x :: _ => p x = false | [] => True end.
Proof. induction l as [|x l IH]; simpl; [done|]. destruct (p x) eqn:Hx; [done|by rewrite Hx]. Qed.

Lemma drop_while_stop {A} (p : A -> bool) l :
  match l with x :: _ => p x = false | [] => True end -> drop_while p l = l.
Proof. destruct l as [|x l]; simpl; [done|]. by intros ->. Qed.

(** Trimming keeps the first byte that is not white space. *)
Lemma trim_idemp raw : trim (trim raw) = trim raw.
Proof.
  unfold trim. set (l := drop_while is_trimmed raw). pose proof (drop_while_head is_trimmed raw) as Hh.
  fold l in Hh. set (r := drop_while is_trimmed (rev l)).
  assert (drop_while is_trimmed (rev r) = rev r) as ->.
  { apply drop_while_stop. pose proof (take_while_app is_trimmed (rev l)) as Hsplit. fold r in Hsplit.
    apply (f_equal (@rev _)) in Hsplit. rewrite rev_involutive, rev_app_distr in Hsplit.
    destruct (rev r) as [|x k]; [done|]. rewrite <- Hsplit in Hh. done. }
  rewrite rev_involutive. unfold r. by rewrite drop_while_idemp.
Qed.

(** Identifiers without surrounding white space: what the application generates. *)
Definition trimmed_ids (db : Db) : Prop :=
  forall c, c ∈ cards db -> normalize_parent_id (Some (card_id c)) = Some (card_id c) /\
    normalize_parent_id (parent_card_id c) = parent_card_id c.

Lemma trimmed_parents db (W : cards_wf db) :
  (forall c, c ∈ cards db -> normalize_parent_id (Some (card_id c)) = Some (card_id c)) -> trimmed_ids db.
Proof.
  intros H c Hc. split; [by apply H|]. pose proof (wf_parents db W c Hc) as Hp.
  unfold cards_parent_ok in Hp. destruct (parent_card_id c) as [p|]; [|done].
  apply card_exists_spec, elem_of_map_id in Hp as (d & Hd & ->). by apply H.
Qed.

Section Siblings.
Context `{!SqlEngineLaws E} (db : Db) (W : cards_wf db) (T : trimmed_ids db).
Context (source : Card) (Hsource : source ∈ cards db).

Definition project_list : list Card := list_all db (card_project_id source).

Lemma project_list_elem c :
  c ∈ project_list <-> c ∈ cards db /\ card_project_id c = card_project_id source.
Proof.
  unfold project_list, list_all. rewrite sql_select_elem, String.eqb_eq.
  by rewrite (row_project_bound db W source Hsource).
Qed.

Lemma project_list_nodup : NoDup (map card_id project_list).
Proof.
  unfold project_list, list_all. rewrite sql_select_perm. apply NoDup_map_filter, W.
Qed.

Lemma lookup_by_id_Some id c :
  lookup_by_id project_list id = Some c <-> c ∈ project_list /\ card_id c = id.
Proof.
  unfold lookup_by_id. split.
  - intros [Hc He%String.eqb_eq]%find_some. rewrite <- in_rev, <- list_elem_of_In in Hc. done.
  - intros [Hc <-]. destruct (List.find _ _) as [d|] eqn:Hf.
    + apply find_some in Hf as [Hd He%String.eqb_eq]. rewrite <- in_rev, <- list_elem_of_In in Hd.
      f_equal. by apply (NoDup_map_inj card_id project_list); [apply project_list_nodup|..].
    + apply list_elem_of_In, in_rev in Hc. pose proof (find_none _ _ Hf c Hc) as H. simpl in H.
      by rewrite String.eqb_refl in H.
Qed.

Lemma live_card_Some id c :
  live_card project_list id = Some c <->
  c ∈ cards db /\ card_project_id c = card_project_id source /\ card_id c = id /\ card_deleted c = false.
Proof.
  unfold live_card. destruct (lookup_by_id project_list id) as [d|] eqn:Hl.
  - apply lookup_by_id_Some in Hl as [[Hd Hdp]%project_list_elem Hid].
    destruct (card_deleted d) eqn:Hdel; split; try done.
    + intros (Hc & _ & Hcid & Hcd).
      assert (c = d) as -> by (apply (NoDup_map_inj card_id (cards db)); [apply W|done|done|congruence]).
      congruence.
    + by intros [= <-].
    + intros (Hc & _ & Hcid & Hcd). f_equal.
      apply (NoDup_map_inj card_id (cards db)); [apply W|done|done|congruence].
  - split; [done|]. intros (Hc & Hp & Hid & _).
    assert (lookup_by_id project_list id = Some c); [|congruence].
    apply lookup_by_id_Some. split; [by apply project_list_elem|done].
Qed.

(** The resolver's sibling lists are those of the hierarchy. *)
Lemma siblings_for_parent_eq p exclude :
  bind_text_optional p = p -> normalize_parent_id p = p ->
  siblings_for_parent project_list p exclude = without exclude (siblings db (set_card_parent p source)).
Proof.
  intros Hb Hp. set (q := set_card_parent p source).
  assert (Hel : forall c, c ∈ siblings_for_parent project_list p exclude <-> c ∈ without exclude (siblings db q)).
  { intros c. unfold siblings_for_parent. rewrite sort_by_perm, elem_of_list_filter, without_elem.
    rewrite (row_siblings_elem db W source p Hsource Hb q) by done. rewrite project_list_elem, Hp.
    unfold opt_eqb. rewrite !andb_true_iff, !negb_true_iff, String.eqb_neq, bool_decide_eq_true.
    split.
    - intros ((Hc & Hcp) & (Hd & Hne) & He). rewrite (proj2 (T c Hc)) in He. done.
    - intros ((Hc & Hcp & Hpar & Hd) & Hne). by rewrite (proj2 (T c Hc)). }
  assert (Hn1 : NoDup (map card_id (siblings_for_parent project_list p exclude))).
  { unfold siblings_for_parent. rewrite sort_by_perm. apply NoDup_map_filter, project_list_nodup. }
  assert (Hk : forall c, c ∈ siblings_for_parent project_list p exclude -> f64_is_nan (sort_key c) = false).
  { intros c Hc. apply Hel, without_elem in Hc as [Hc _]. by eapply siblings_nan. }
  apply (StronglySorted_perm_eq tree_cmp).
  - intros x y Hx Hy He. by apply (NoDup_map_inj card_id _ x y Hn1); [..|apply tree_cmp_eq].
  - unfold siblings_for_parent in *. match goal with |- context [sort_by _ ?l] => set (rows := l) in * end.
    rewrite (sort_by_ext _ (cmp_ltb tree_cmp)); [apply (sort_by_sorted tree_cmp)|].
    intros x y Hx Hy. apply card_tree_less_cmp; apply Hk; by rewrite sort_by_perm.
  - eapply StronglySorted_weaken; [apply tree_lt_le|].
    apply list_filter_strongly_sorted. by apply siblings_sorted.
  - apply NoDup_Permutation; [by eapply NoDup_fmap_1|eapply (NoDup_fmap_1 card_id)|exact Hel].
    apply NoDup_map_filter. by apply siblings_nodup.
Qed.
End Siblings.

(** ** Where each intent lands

    [rest] are the ids of the new siblings without the card, [old] with it, if it
    was there, and [new] is their order after the move. *)
Definition landed (i : CardPlacementIntent) (target : option string) (id : string)
    (old rest new : list string) : Prop :=
  match i with
  | Into | ToEnd | UpLevel => new = rest ++ [id]
  | ToStart => new = id :: rest
  | Before => exists t a b, target = Some t /\ rest = a ++ t :: b /\ new = a ++ id :: t :: b
  | After => exists t a b, target = Some t /\ rest = a ++ t :: b /\ new = a ++ t :: id :: b
  | Left => exists a x b, old = a ++ x :: id :: b /\ new = a ++ id :: x :: b
  | Right => exists a x b, old = a ++ id :: x :: b /\ new = a ++ x :: id :: b
  end.

(** The parent that a request asks for. *)
Definition requested_parent (request : CardPlacementRequest) (source : Card) : option string :=
  if has_parent_card_id request || bool_decide (request_parent request <> None)
  then normalize_parent_id (request_parent request) else parent_card_id source.

(** The parent [p] that each intent leads to. *)
Definition goes_under (db : Db) (source : Card) (request : CardPlacementRequest) (p : option string) : Prop :=
  let live c := c ∈ cards db /\ card_project_id c = card_project_id source /\ card_deleted c = false in
  match intent request with
  | Into => exists target, live target /\ target_card_id request = Some (card_id target) /\ p = Some (card_id target)
  | Before | After => exists target, live target /\ target_card_id request = Some (card_id target) /\ p = parent_card_id target
  | ToStart | ToEnd | Left | Right => p = requested_parent request source
  | UpLevel => exists above, parent_card_id source = Some above /\
      ((exists c, live c /\ card_id c = above /\ p = parent_card_id c) \/
       ((forall c, live c -> card_id c <> above) /\ p = None))
  end.

(** When there is nothing to move past: the card is alone at its own parent, or it is the
    first (the last) there, or another parent is named. *)
Definition stays {E : SqlEngine} (db : Db) (source : Card) (request : CardPlacementRequest) : Prop :=
  let own := requested_parent request source = parent_card_id source in
  match intent request with
  | Into | Before | After | UpLevel => False
  | ToStart | ToEnd => own /\ without (card_id source) (siblings db source) = []
  | Left => own -> exists after, map card_id (siblings db source) = card_id source :: after
  | Right => own -> exists before, map card_id (siblings db source) = before ++ [card_id source]
  end.

Lemma find_index_split {A} (f : A -> bool) l i :
  find_index f l = Some i -> exists a x b, l = a ++ x :: b /\ f x = true /\ length a = i.
Proof.
  intros H. apply find_index_Some in H as (x & Hx & Hf).
  exists (take i l), x, (drop (S i) l). split; [by rewrite take_drop_middle|]. split; [done|].
  rewrite length_take. apply lookup_lt_Some in Hx. lia.
Qed.

Lemma without_middle a c b :
  NoDup (map card_id (a ++ c :: b)) -> without (card_id c) (a ++ c :: b) = a ++ b.
Proof.
  intros Hn. rewrite map_app in Hn. simpl in Hn. apply list.NoDup_app in Hn as (_ & H1 & H2).
  apply NoDup_cons in H2 as [H2 _]. change (c :: b) with ([c] ++ b).
  rewrite !without_app, (without_fresh _ a) by (intros H; apply (H1 _ H); set_solver).
  rewrite (without_fresh _ b) by done. unfold without, list_filter. simpl. by rewrite String.eqb_refl.
Qed.

Section Target.
Context `{!SqlEngineLaws E} (db : Db) (W : cards_wf db) (T : trimmed_ids db).
Context (source : Card) (Hsource : source ∈ cards db).

(** What the switch leaves behind when something moves. *)
Definition target_ok (request : CardPlacementRequest) (t : Target) : Prop :=
  forall at_, insert_at t = Some at_ ->
  bind_text_optional (next_parent t) = next_parent t /\
  destination t = others db source (next_parent t) /\ (at_ <= length (destination t))%nat /\
  landed (intent request) (target_card_id request) (card_id source)
    (map card_id (siblings db (set_card_parent (next_parent t) source)))
    (map card_id (destination t))
    (take at_ (map card_id (destination t)) ++ card_id source :: drop at_ (map card_id (destination t))).

Lemma bound_id c : c ∈ cards db -> bind_text_optional (Some (card_id c)) = Some (card_id c).
Proof. intros Hc. apply (wf_text db W), bind_card_id in Hc. simpl. f_equal. tauto. Qed.

Lemma others_eq p :
  bind_text_optional p = p -> normalize_parent_id p = p ->
  siblings_for_parent (project_list db source) p (card_id source) = others db source p.
Proof. intros. by apply siblings_for_parent_eq. Qed.

Lemma with_source_eq p :
  bind_text_optional p = p -> normalize_parent_id p = p ->
  siblings_for_parent (project_list db source) p "" = siblings db (set_card_parent p source).
Proof.
  intros Hb Hp. rewrite siblings_for_parent_eq by done. apply without_fresh.
  intros (c & Hc & He)%elem_of_map_id.
  apply (row_siblings_elem db W source p Hsource Hb) in Hc as [Hc _]; [|done..].
  destruct (T c Hc) as [Hid _]. by rewrite <- He in Hid.
Qed.

Lemma at_end p i request title_ :
  intent request = i -> match i with Into | ToEnd | UpLevel => True | _ => False end ->
  bind_text_optional p = p -> normalize_parent_id p = p ->
  let d := siblings_for_parent (project_list db source) p (card_id source) in
  target_ok request (mkTarget p title_ d (Some (length d))).
Proof.
  intros Hi Hcase Hb Hp d at_ [= <-]. cbn. split; [done|]. split; [by apply others_eq|].
  split; [done|]. rewrite Hi, take_ge, drop_ge by (by rewrite length_map). by destruct i.
Qed.

Lemma resolve_relative_ok request t :
  match intent request with Into | Before | After => True | _ => False end ->
  resolve_relative (project_list db source) source request = Ok t -> target_ok request t.
Proof.
  intros Hcase H. unfold resolve_relative in H.
  destruct (target_card_id request) as [id|] eqn:Ht; [|done].
  destruct (live_card _ id) as [target|] eqn:Hl; [|done].
  apply (live_card_Some db W source Hsource) in Hl as (Hc & _ & Hid & _).
  set (p := normalize_parent_id (parent_card_id target)) in H.
  assert (Hp : p = parent_card_id target) by apply (T target Hc).
  assert (Hbp : bind_text_optional p = p) by (rewrite Hp; by apply (bind_parent db W)).
  assert (Hnp : normalize_parent_id p = p) by (rewrite Hp; by apply (T target Hc)).
  destruct (intent request) eqn:Hi; try done.
  { destruct (is_descendant_of _ _ _); [done|]. injection H as <-.
    by apply (at_end _ Into); [|..|apply bound_id|apply T]. }
  all: destruct (find_index _ _) as [i|] eqn:Hf; [|done]; injection H as <-;
    intros at_ [= <-]; cbn; rewrite (others_eq p Hbp Hnp) in *;
    apply find_index_split in Hf as (a & x & b & Heq & Hx%String.eqb_eq & Hlen);
    rewrite Heq, Hi, Ht, map_app; split; [done|]; split; [done|];
    (split; [rewrite length_app; simpl; lia|]); exists id, (map card_id a), (map card_id b); simpl;
    rewrite Hx, Hid; (split; [done|]); (split; [done|]).
  - rewrite Nat.add_0_r, <- Hlen, <- (length_map card_id a), take_app_length, drop_app_length. done.
  - rewrite <- Hlen, <- (length_map card_id a), take_app_add, drop_app_add. simpl.
    by rewrite <- (assoc_L (++)).
Qed.
(** A parent that the resolver looked up, or none. *)
Lemma known_parent p :
  match p with Some i => live_card (project_list db source) i <> None | None => True end ->
  normalize_parent_id p = p -> bind_text_optional p = p.
Proof.
  destruct p as [i|]; [|done]. intros Hl _.
  destruct (live_card _ i) as [c|] eqn:Hc; [|done].
  apply (live_card_Some db W source Hsource) in Hc as (Hc & _ & <- & _). by apply bound_id.
Qed.

Lemma normalize_idemp parent :
  normalize_parent_id (normalize_parent_id parent) = normalize_parent_id parent.
Proof.
  destruct parent as [raw|]; [|done]. cbn [normalize_parent_id].
  destruct (trim (bytes_of raw)) as [|c k] eqn:Ht; [done|]. cbn [normalize_parent_id].
  rewrite bytes_of_string_of, <- Ht, trim_idemp, Ht. done.
Qed.

Lemma landed_left l i :
  NoDup (map card_id l) -> find_index (fun c => String.eqb (card_id c) (card_id source)) l = Some i ->
  (0 < i)%nat ->
  let d := without (card_id source) l in
  (i - 1 <= length d)%nat /\
  landed Left None (card_id source) (map card_id l) (map card_id d)
    (take (i - 1) (map card_id d) ++ card_id source :: drop (i - 1) (map card_id d)).
Proof.
  intros Hn (a & c & b & -> & Hc%String.eqb_eq & Hlen)%find_index_split Hi. cbv zeta.
  rewrite <- Hc, without_middle by done.
  destruct a as [|x a _] using rev_ind; [simpl in Hlen; lia|].
  rewrite length_app in Hlen. simpl in Hlen. replace (i - 1)%nat with (length (map card_id a))
    by (rewrite length_map; lia).
  rewrite !map_app, <- !(assoc_L (++)), take_app_length, drop_app_length. simpl.
  split; [rewrite !length_app, length_map; lia|]. by exists (map card_id a), (card_id x), (map card_id b).
Qed.

Lemma landed_right l i :
  NoDup (map card_id l) -> find_index (fun c => String.eqb (card_id c) (card_id source)) l = Some i ->
  (i + 1 < length l)%nat ->
  let d := without (card_id source) l in
  (i + 1 <= length d)%nat /\
  landed Right None (card_id source) (map card_id l) (map card_id d)
    (take (i + 1) (map card_id d) ++ card_id source :: drop (i + 1) (map card_id d)).
Proof.
  intros Hn (a & c & b & -> & Hc%String.eqb_eq & Hlen)%find_index_split Hi. cbv zeta.
  rewrite <- Hc, without_middle by done. rewrite length_app in Hi. simpl in Hi.
  destruct b as [|x b]; [simpl in Hi; lia|].
  rewrite !map_app, <- Hlen, <- (length_map card_id a), take_app_add, drop_app_add. simpl.
  split; [rewrite length_map, length_app; simpl; lia|].
  exists (map card_id a), (card_id x), (map card_id b). by rewrite <- (assoc_L (++)).
Qed.

Lemma resolve_in_parent_ok request t :
  match intent request with ToStart | ToEnd | Left | Right => True | _ => False end ->
  resolve_in_parent (project_list db source) source request = Ok t -> target_ok request t.
Proof.
  intros Hcase H. unfold resolve_in_parent in H.
  set (p := if _ || _ then _ else _) in H.
  assert (Hnp : normalize_parent_id p = p) by (unfold p; destruct (_ || _); apply normalize_idemp).
  destruct (match p with Some _ => _ | None => _ end) eqn:Hl; [done|].
  assert (Hbp : bind_text_optional p = p).
  { apply known_parent; [|done]. destruct p; [by apply bool_decide_eq_false in Hl|done]. }
  pose proof (siblings_nodup db (set_card_parent p source) W) as Hn.
  destruct (intent request) eqn:Hi; try done; injection H as <-.
  - destruct (_ && _); intros at_; [done|]. intros [= <-]. cbn. rewrite others_eq, Hi by done.
    split; [done|]. split; [done|]. split; [lia|]. done.
  - destruct (_ && _); [intros at_ [=]|]. by apply (at_end p ToEnd).
  - intros at_. cbn [insert_at next_parent destination].
    rewrite others_eq, with_source_eq, Hi by done.
    destruct (find_index _ _) as [i|] eqn:Hf; [|done].
    destruct (Nat.ltb_spec 0 i); [|done]. intros [= <-].
    split; [done|]. split; [done|]. by apply landed_left.
  - intros at_. cbn [insert_at next_parent destination].
    rewrite others_eq, with_source_eq, Hi by done.
    destruct (find_index _ _) as [i|] eqn:Hf; [|done].
    destruct (Nat.ltb_spec (i + 1) (length (siblings db (set_card_parent p source)))); [|done].
    intros [= <-]. split; [done|]. split; [done|]. by apply landed_right.
Qed.

Lemma resolve_up_level_ok request t :
  intent request = UpLevel ->
  resolve_up_level (project_list db source) source = Ok t -> target_ok request t.
Proof.
  intros Hi H. unfold resolve_up_level in H.
  destruct (normalize_parent_id (parent_card_id source)) as [i|]; [|done]. injection H as <-.
  apply (at_end _ UpLevel); try done.
  - destruct (live_card _ i) as [c|] eqn:Hc; [|done].
    apply (live_card_Some db W source Hsource) in Hc as (Hc & _). rewrite (proj2 (T c Hc)).
    by apply (bind_parent db W).
  - destruct (live_card _ i) as [c|]; [|done]. apply normalize_idemp.
Qed.

(** ** Which parent, and whether anything moves *)

Lemma relative_goes request t :
  match intent request with Into | Before | After => True | _ => False end ->
  resolve_relative (project_list db source) source request = Ok t ->
  goes_under db source request (next_parent t) /\ insert_at t <> None.
Proof.
  intros Hcase H. unfold resolve_relative in H. unfold goes_under.
  destruct (target_card_id request) as [id|] eqn:Ht; [|done].
  destruct (live_card _ id) as [target|] eqn:Hl; [|done].
  apply (live_card_Some db W source Hsource) in Hl as (Hc & Hp & Hid & Hd).
  destruct (intent request) eqn:Hi; try done.
  { destruct (is_descendant_of _ _ _); [done|]. injection H as <-. split; [|done]. exists target. by rewrite Hid. }
  all: destruct (find_index _ _) as [i|]; [|done]; injection H as <-; (split; [|done]); exists target;
    rewrite Hid; (split; [done|]); (split; [done|]); apply (T target Hc).
Qed.

Lemma own_siblings : card_deleted source = false ->
  exists i, find_index (fun c => String.eqb (card_id c) (card_id source)) (siblings db source) = Some i.
Proof.
  intros Hlive. destruct (find_index _ _) as [i|] eqn:Hf; [by exists i|]. exfalso.
  rewrite find_index_None in Hf. specialize (Hf source). rewrite String.eqb_refl in Hf. discriminate Hf.
  apply (row_siblings_elem db W source (parent_card_id source) Hsource (bind_parent db W source Hsource)); done.
Qed.

Lemma in_parent_goes request t : card_deleted source = false ->
  match intent request with ToStart | ToEnd | Left | Right => True | _ => False end ->
  resolve_in_parent (project_list db source) source request = Ok t ->
  next_parent t = requested_parent request source /\ (insert_at t = None -> stays db source request).
Proof.
  intros Hlive Hcase H. unfold resolve_in_parent in H.
  assert (normalize_parent_id (parent_card_id source) = parent_card_id source) as Hown by apply (T source Hsource).
  rewrite Hown in H. fold (requested_parent request source) in H. set (p := requested_parent request source) in *.
  assert (Hnp : normalize_parent_id p = p).
  { unfold p, requested_parent. destruct (_ || _); [apply normalize_idemp|done]. }
  destruct (match p with Some _ => _ | None => _ end) eqn:Hl; [done|].
  assert (Hbp : bind_text_optional p = p).
  { apply known_parent; [|done]. destruct p; [by apply bool_decide_eq_false in Hl|done]. }
  assert (p = parent_card_id source -> siblings db (set_card_parent p source) = siblings db source) as Hsame.
  { intros ->. by destruct source. }
  destruct (own_siblings Hlive) as [i0 Hi0]. unfold stays. cbn zeta. fold p.
  destruct (intent request) eqn:Hi; try done; injection H as <-; (split; [done|]); cbn [insert_at].
  - destruct (_ && _) eqn:Hstay; [|done]. intros _. apply andb_true_iff in Hstay as [He Ho].
    apply bool_decide_eq_true in He, Ho. rewrite others_eq in He by done. unfold others in He. rewrite Hsame in He by done. done.
  - destruct (_ && _) eqn:Hstay; [|done]. intros _. apply andb_true_iff in Hstay as [He Ho].
    apply bool_decide_eq_true in He, Ho. rewrite others_eq in He by done. unfold others in He. rewrite Hsame in He by done. done.
  - rewrite with_source_eq by done. intros Hnone Hp. rewrite Hsame, Hi0 in Hnone by done.
    destruct (Nat.ltb_spec 0 i0); [done|]. apply find_index_split in Hi0 as (a & x & b & -> & Hx%String.eqb_eq & Hlen).
    destruct a; [|cbn in Hlen; lia]. exists (map card_id b). cbn. by rewrite Hx.
  - rewrite with_source_eq by done. intros Hnone Hp. rewrite Hsame, Hi0 in Hnone by done.
    destruct (Nat.ltb_spec (i0 + 1) (length (siblings db source))) as [|Hge]; [done|].
    apply find_index_split in Hi0 as (a & x & b & Heq & Hx%String.eqb_eq & Hlen). rewrite Heq in *.
    rewrite length_app in Hge. cbn in Hge. destruct b; [|cbn in Hge; lia].
    exists (map card_id a). by rewrite map_app, <- Hx.
Qed.

Lemma up_level_goes request t :
  intent request = UpLevel -> resolve_up_level (project_list db source) source = Ok t ->
  goes_under db source request (next_parent t) /\ insert_at t <> None.
Proof.
  intros Hi H. unfold resolve_up_level in H. unfold goes_under. rewrite Hi.
  rewrite (proj2 (T source Hsource)) in H. destruct (parent_card_id source) as [above|]; [|done]. injection H as <-.
  split; [|done]. exists above. split; [done|]. cbn [next_parent]. destruct (live_card _ above) as [c|] eqn:Hc.
  - apply (live_card_Some db W source Hsource) in Hc as (Hc & Hp & Hid & Hd). left. exists c.
    split; [done|]. split; [done|]. apply (T c Hc).
  - right. split; [|done]. intros c (Hcin & Hp & Hd) He.
    assert (live_card (project_list db source) above = Some c); [|congruence]. by apply (live_card_Some db W source Hsource).
Qed.

Lemma resolve_target_goes request t : card_deleted source = false ->
  resolve_target (project_list db source) source request = Ok t ->
  goes_under db source request (next_parent t) /\ (insert_at t = None -> stays db source request).
Proof.
  intros Hlive. unfold resolve_target. destruct (intent request) eqn:Hi; intros H.
  1-3: destruct (relative_goes request t) as [H1 H2]; [by rewrite Hi|done|]; by split.
  1-4: destruct (in_parent_goes request t Hlive) as [H1 H2]; [by rewrite Hi|done|]; unfold goes_under; by rewrite Hi.
  destruct (up_level_goes request t Hi H) as [H1 H2]. by split.
Qed.

Lemma resolve_target_ok request t :
  resolve_target (project_list db source) source request = Ok t -> target_ok request t.
Proof.
  unfold resolve_target. destruct (intent request) eqn:Hi; intros H;
    first [apply resolve_relative_ok; [by rewrite Hi|done]
          |apply resolve_in_parent_ok; [by rewrite Hi|done]
          |by apply resolve_up_level_ok].
Qed.
End Target.
End CardPlacementFacts.

Module CardPlacementTheorems.
Import CardPlacementResolver CardPlacementFacts.

(** The key the loop over the changes keeps for the moved card. *)
Lemma foldl_key id c changes k :
  NoDup (map card_id changes) -> c ∈ changes -> card_id c = id ->
  foldl (fun k c => if String.eqb (card_id c) id then sort_key c else k) k changes = sort_key c.
Proof.
  intros Hn (l1 & l2 & ->)%list_elem_of_split Hid. rewrite foldl_app. simpl.
  rewrite map_app in Hn. simpl in Hn. apply list.NoDup_app in Hn as (_ & _ & Hn).
  apply NoDup_cons in Hn as [Hn _]. rewrite Hid in *. rewrite String.eqb_refl.
  revert Hn. generalize (sort_key c). induction l2 as [|d l2 IH]; intros x Hn; simpl in *; [done|].
  apply not_elem_of_cons in Hn as [Hd Hn]. destruct (String.eqb_spec (card_id d) id); [congruence|].
  by apply IH.
Qed.

(** The card as [CardStore::move_to] writes it. *)
Definition moved_card (u : Z) (res : CardPlacementResult) (source : Card) : Card :=
  set_card_updated_at u (set_card_sort_key (result_sort_key res)
    (set_card_parent (result_parent res) source)).

(** The resolver's answer is the insertion, split into the card and the others. *)
Lemma resolve_changes `{!SqlEngineLaws E} db (W : cards_wf db) source p l at_ u changes after :
  source ∈ cards db -> card_deleted source = false ->
  lineage (cards db) (card_project_id source) p l None -> live_chain l -> card_id source ∉ map card_id l ->
  (at_ <= length (others db source p))%nat ->
  insert_block_into (others db source p) at_ [source] p u = Ok (changes, after) ->
  let key := foldl (fun k c => if String.eqb (card_id c) (card_id source) then sort_key c else k)
               f64_zero changes in
  let ws := set_card_updated_at u (set_card_sort_key key (set_card_parent p source))
              :: without (card_id source) changes in
  let t' := override ws (cards db) in
  write_snapshots ws db = (Ok tt, set_cards t' db) /\ cards_wf (set_cards t' db) /\
  map card_id (siblings (set_cards t' db) (set_card_parent p source)) =
    take at_ (map card_id (others db source p))
      ++ card_id source :: drop at_ (map card_id (others db source p)).
Proof.
  intros Hs Hlive Hl Hll Hid Hat Hi. cbv zeta.
  assert (Hedit : row_edit source source) by (by destruct source).
  pose proof (wf_keys db W source Hs) as Hk.
  pose proof (single_nan db W source source p l Hs Hl Hedit Hlive Hk) as Hnan.
  assert (HR : respaced at_ (at_ + length [source]) u (placed (others db source p) at_ [source] p)
      after changes) by (by apply insert_block_into_spec).
  pose proof (insertion_changed_nodup p _ [source] after changes at_ u
    (single_nodup db W source source p l Hs Hl Hedit) HR) as Hn.
  destruct (inserted_block Hat HR source) as (c & Hc & Hr); [by left|].
  destruct (inserted_changed HR c Hc) as (_ & Hu & _).
  assert (Hcid : card_id c = card_id source) by (by apply rekeyed_id in Hr).
  rewrite (foldl_key (card_id source) c changes f64_zero Hn Hc Hcid).
  assert (set_card_updated_at u (set_card_sort_key (sort_key c) (set_card_parent p source)) = c) as ->.
  { by rewrite <- Hu, <- Hr. }
  destruct (without_split changes c Hn Hc) as (l1 & l2 & Heq & Hwo). rewrite Hcid in Hwo.
  assert (Hws : c :: without (card_id source) changes ≡ₚ changes)
    by (rewrite Hwo, Heq; apply Permutation_middle).
  destruct (single_outcome db W source source p l after changes _ at_ u Hs Hl Hll Hid Hedit Hlive Hk
    Hat HR Hws (set_card_parent p source) eq_refl eq_refl) as (Hw & W' & Hsib & _).
  split; [done|]. split; [done|]. by rewrite Hsib, (inserted_ids HR), map_take, map_drop.
Qed.

(** C27: a relative move does what its intent says. It leads under the target (Into), beside
    it (Before, After), to the requested parent, or the card's own if none is named (ToStart,
    ToEnd, Left, Right), or to the parent of the parent (UpLevel). If that parent is valid,
    writing the card with the answered parent and key together with the answered siblings
    puts it last there (Into, ToEnd, UpLevel), first (ToStart), immediately before or after
    the target (Before, After), or makes it change places with its previous or next sibling
    (Left, Right), and leaves the order of all other siblings as it was. Only a card that has
    nothing to move past stays: one that is alone at its parent (ToStart, ToEnd), or that is
    the first (Left) or the last (Right) there, or not there; then its own parent and key
    are repeated. *)
Theorem resolved_move_lands (E : SqlEngine) (db : Db) (source : Card)
    (request : CardPlacementRequest) (u : Z) (res : CardPlacementResult) :
  SqlEngineLaws E -> cards_wf db -> trimmed_ids db -> source ∈ cards db ->
  resolve db (card_project_id source) (card_id source) request u = Ok res ->
  let q := set_card_parent (result_parent res) source in
  (stays db source request /\
   result_parent res = parent_card_id source /\ result_sort_key res = sort_key source /\
   sibling_changes res = []) \/
  (goes_under db source request (result_parent res) /\
   (validate_card_parent db q = Ok tt ->
   exists db', write_snapshots (moved_card u res source :: sibling_changes res) db = (Ok tt, db') /\
     cards_wf db' /\
     landed (intent request) (target_card_id request) (card_id source)
       (map card_id (siblings db q)) (map card_id (without (card_id source) (siblings db q)))
       (map card_id (siblings db' q)))).
Proof.
  intros L W T Hs H q. unfold resolve in H.
  assert (get db (card_id source) = Some source) as Hg.
  { apply get_Some; [done|]. split; [done|]. by pose proof (bound_id db W source Hs) as [= ->]. }
  rewrite Hg in H. destruct (card_deleted source) eqn:Hlive; [done|].
  rewrite String.eqb_refl in H. cbn [negb] in H.
  destruct (resolve_target _ _ _) as [t|] eqn:Ht; [|done]. cbn [rbind] in H.
  destruct (resolve_target_goes db W T source Hs request t Hlive Ht) as [Hgoes Hstays].
  apply (resolve_target_ok db W T source Hs) in Ht.
  destruct (insert_at t) as [at_|] eqn:Hat; [right|left].
  2: { injection H as <-. split; [by apply Hstays|]. cbn. split; [by apply T|done]. }
  destruct (Ht at_ Hat) as (Hb & Hd & Hlen & Hland). rewrite Hd in *.
  destruct (placed_card_changes _ _ _ _ _) as [changes|] eqn:Hp; [|done].
  injection H as <-. cbn [result_parent] in *. split; [exact Hgoes|]. intros Hv.
  apply insert_block_Ok in Hp as [after Hi].
  apply validate_card_parent_spec in Hv as (l & Hl & Hll & Hid); [|done|done].
  destruct (resolve_changes db W source (next_parent t) l at_ u changes after Hs Hlive Hl Hll Hid Hlen Hi)
    as (Hw & W' & Hsib).
  eexists. split; [exact Hw|]. split; [exact W'|]. unfold q. cbn [result_parent]. rewrite Hsib. exact Hland.
Qed.

Lemma tree_db_trimmed : trimmed_ids tree_db.
Proof.
  apply trimmed_parents; [exact tree_db_wf|]. intros c Hc. unfold tree_db in Hc. cbn [cards] in Hc.
  repeat (apply elem_of_cons in Hc as [->|Hc]; [vm_compute; reflexivity|]).
  by apply not_elem_of_nil in Hc.
Qed.

Example resolved_move_lands_witness :
  exists res db', resolve (E:=reference_engine) tree_db "p" "cccc" (mkRequest After (Some "dddd") false None) 9
      = Ok res /\
    write_snapshots (moved_card 9 res (sample_card "cccc" (Some "aaaa") 2) :: sibling_changes res) tree_db
      = (Ok tt, db') /\
    exists a b, map card_id (siblings (E:=reference_engine) db' (sample_card "" (Some "bbbb") 0)) =
      a ++ "dddd" :: "cccc" :: b.
Proof.
  destruct (resolve (E:=reference_engine) tree_db "p" "cccc" (mkRequest After (Some "dddd") false None) 9)
    as [res|] eqn:Hr; [|vm_compute in Hr; discriminate Hr].
  destruct (resolved_move_lands reference_engine tree_db (sample_card "cccc" (Some "aaaa") 2)
    (mkRequest After (Some "dddd") false None) 9 res reference_engine_laws tree_db_wf tree_db_trimmed ltac:(in_tree) Hr)
    as [[[] _]|[_ H]].
  assert (Hp : result_parent res = Some "bbbb") by (vm_compute in Hr; by injection Hr as <-).
  destruct H as (db' & Hw & _ & t & a & b & Ht & _ & Hn).
  { vm_compute in Hr. injection Hr as <-. vm_compute. reflexivity. }
  exists res, db'. split; [reflexivity|]. split; [exact Hw|]. exists a, b.
  injection Ht as <-. rewrite Hp in Hn. exact Hn.
Defined.
End CardPlacementTheorems.
