(* ===== verification/LinkKindCatalog.v ===== *)
(** * The built-in link kinds

    [src/src/card/LinkKindCatalog.cpp]: the vocabulary of [card_links.kind] with its
    labels, and what its header promises of it. *)

From stdpp Require Import base list strings.
From S2P Require Import Prelude.

Module LinkKindCatalog.

Record LinkKindInfo := mkKind {
  kind_id : string;
  forward_label : string;
  reverse_label : string
}.

Definition link_kind_catalog : list LinkKindInfo := [
  (** General / symmetric *)
  mkKind "related_to" "Related to" "Related to";
  mkKind "similar_to" "Similar to" "Similar to";
  mkKind "opposite_of" "Opposite of" "Opposite of";
  mkKind "alternative_to" "Alternative to" "Alternative to";
  mkKind "compatible_with" "Compatible with" "Compatible with";
  mkKind "incompatible_with" "Incompatible with" "Incompatible with";
  mkKind "conflicts_with" "Conflicts with" "Conflicts with";
  mkKind "agrees_with" "Agrees with" "Agrees with";
  mkKind "disagrees_with" "Disagrees with" "Disagrees with";
  (** Dependency & blocking *)
  mkKind "requires" "Requires" "Required by";
  mkKind "depends_on" "Depends on" "Required by";
  mkKind "needs" "Needs" "Needed by";
  mkKind "blocks" "Blocks" "Blocked by";
  mkKind "unblocks" "Unblocks" "Unblocked by";
  mkKind "prevents" "Prevents" "Prevented by";
  mkKind "enables" "Enables" "Enabled by";
  mkKind "waiting_for" "Waiting for" "Awaited by";
  (** Sequence & causality *)
  mkKind "precedes" "Precedes" "Follows";
  mkKind "before" "Before" "After";
  mkKind "during" "During" "Contains event";
  mkKind "causes" "Causes" "Caused by";
  mkKind "caused_by" "Caused by" "Causes";
  mkKind "resolves" "Resolves" "Resolved by";
  (** Evidence & argument *)
  mkKind "supports" "Supports" "Supported by";
  mkKind "contradicts" "Contradicts" "Contradicted by";
  mkKind "explains" "Explains" "Explained by";
  mkKind "motivates" "Motivates" "Motivated by";
  mkKind "justifies" "Justifies" "Justified by";
  mkKind "challenges" "Challenges" "Challenged by";
  mkKind "invalidates" "Invalidates" "Invalidated by";
  mkKind "verifies" "Verifies" "Verified by";
  mkKind "tests" "Tests" "Tested by";
  (** Documentation & reference *)
  mkKind "ref" "References" "Referenced by";
  mkKind "describes" "Describes" "Described by";
  mkKind "defines" "Defines" "Defined by";
  mkKind "summarises" "Summarises" "Summarised by";
  mkKind "quotes" "Quotes" "Quoted by";
  mkKind "cites" "Cites" "Cited by";
  mkKind "mentions" "Mentions" "Mentioned by";
  mkKind "about" "About" "Subject of";
  mkKind "answers" "Answers" "Answered by";
  mkKind "asks" "Asks" "Asked by";
  mkKind "documents" "Documents" "Documented by";
  mkKind "authored_by" "Authored by" "Authored";
  (** Composition & taxonomy *)
  mkKind "example_of" "Example of" "Has example";
  mkKind "instance_of" "Instance of" "Has instance";
  mkKind "type_of" "Type of" "Has type";
  mkKind "part_of" "Part of" "Has part";
  mkKind "contains" "Contains" "Contained by";
  mkKind "includes" "Includes" "Included in";
  mkKind "belongs_to" "Belongs to" "Has member";
  mkKind "duplicates" "Duplicates" "Duplicated by";
  mkKind "replaces" "Replaces" "Replaced by";
  mkKind "supersedes" "Supersedes" "Superseded by";
  mkKind "extends" "Extends" "Extended by";
  mkKind "implements" "Implements" "Implemented by";
  mkKind "inside_of" "Inside of" "Outside of";
  mkKind "merges_into" "Merges into" "Merge of";
  (** Process (input/output) *)
  mkKind "produces" "Produces" "Produced by";
  mkKind "creates" "Creates" "Created by";
  mkKind "transforms" "Transforms" "Transformed by";
  mkKind "consumes" "Consumes" "Consumed by";
  mkKind "input_to" "Input to" "Has input";
  mkKind "output_of" "Output of" "Has output";
  mkKind "configures" "Configures" "Configured by";
  (** Provenance & inspiration *)
  mkKind "derived_from" "Derived from" "Source of";
  mkKind "originates_from" "Originates from" "Origin of";
  mkKind "inspired_by" "Inspired by" "Inspired";
  mkKind "based_on" "Based on" "Basis for";
  mkKind "adapted_from" "Adapted from" "Adapted as";
  (** Ownership & workflow *)
  mkKind "owned_by" "Owned by" "Owns";
  mkKind "assigned_to" "Assigned to" "Assigned";
  mkKind "requested_by" "Requested by" "Requested";
  mkKind "reported_by" "Reported by" "Reported";
  mkKind "reviewed_by" "Reviewed by" "Reviewed";
  mkKind "approved_by" "Approved by" "Approved";
  mkKind "authorized_by" "Authorized by" "Authorizes";
  mkKind "subtask_of" "Subtask of" "Has subtask";
  mkKind "milestone_for" "Milestone for" "Has milestone";
  mkKind "goal_of" "Goal of" "Has goal";
  mkKind "contributes_to" "Contributes to" "Has contribution";
  mkKind "uses" "Uses" "Used by";
  mkKind "fixes" "Fixes" "Fixed by";
  mkKind "regresses" "Regresses" "Regressed by";
  mkKind "deprecates" "Deprecates" "Deprecated by";
  mkKind "mitigates" "Mitigates" "Mitigated by";
  mkKind "tracks" "Tracks" "Tracked by";
  mkKind "escalates" "Escalates" "Escalated by";
  mkKind "scheduled_for" "Scheduled for" "Has schedule";
  mkKind "triggers" "Triggers" "Triggered by";
  (** Risk, security & governance *)
  mkKind "threatens" "Threatens" "Threatened by";
  mkKind "protects" "Protects" "Protected by";
  mkKind "funds" "Funds" "Funded by";
  mkKind "competes_with" "Competes with" "Competes with";
  (** Spatial, social & personal *)
  mkKind "located_at" "Located at" "Location of";
  mkKind "attends" "Attends" "Attended by";
  mkKind "organizes" "Organizes" "Organized by";
  mkKind "participates_in" "Participates in" "Has participant";
  mkKind "teaches" "Teaches" "Taught by";
  mkKind "reminds_of" "Reminds of" "Reminds of"
].

End LinkKindCatalog.

Module LinkKindTheorems.
Import LinkKindCatalog.

(** every id of the catalog is unique, so an id selects one entry, and no label is
    empty. *)
Theorem catalog_ids_unique_labels_nonempty :
  NoDup (map kind_id link_kind_catalog) /\
  Forall (fun k => kind_id k <> "" /\ forward_label k <> "" /\ reverse_label k <> "") link_kind_catalog /\
  forall i j a b, link_kind_catalog !! i = Some a -> link_kind_catalog !! j = Some b ->
    kind_id a = kind_id b -> i = j.
Proof.
  assert (NoDup (map kind_id link_kind_catalog)) as Hn
    by (apply (bool_decide_unpack _); vm_compute; exact I).
  split; [done|]. split; [apply (bool_decide_unpack _); vm_compute; exact I|].
  intros i j a b Ha Hb Hk. apply (NoDup_lookup (kind_id <$> link_kind_catalog) i j (kind_id a) Hn).
  - by rewrite list_lookup_fmap, Ha.
  - by rewrite list_lookup_fmap, Hb, Hk.
Qed.

End LinkKindTheorems.
