(* ===== verification/LinkRepo.v ===== *)
(** * Card links

    [src/src/card/LinkRepo.cpp]: the directed edges between items. The table is keyed
    by everything but the label and the time, so it is a finite map; [link_map] is that
    map and the theorems say what each method does to it. *)

From stdpp Require Import base list sets strings numbers gmap sorting.
From S2P Require Import Prelude Double Model Text Database.

Module LinkRepo.

(** [PRIMARY KEY(project_id, from_card_id, to_card_id, to_type, kind)] *)
Definition LinkKey : Type := string * string * string * string * string.
Definition link_key (l : CardLink) : LinkKey :=
  (link_project_id l, from_card_id l, to_card_id l, to_type l, link_kind l).
Definition same_link (a b : CardLink) : bool := bool_decide (link_key a = link_key b).

(** What [upsert_links] binds: a link without a target type is to a card. *)
Definition bind_link (link : CardLink) : CardLink :=
  mkCardLink (bind_text (link_project_id link)) (bind_text (from_card_id link))
    (bind_text (to_card_id link))
    (bind_text (if String.eqb (to_type link) "" then "card" else to_type link))
    (bind_text (link_kind link)) (bind_text_optional (link_label link)) (link_created_at link).

(** [INSERT ... ON CONFLICT(key) DO UPDATE SET label=excluded.label,
    created_at=excluded.created_at]. *)
Definition upsert_link_row (l : CardLink) (db : Db) : option Db :=
  if existsb (same_link l) (card_links db) then
    Some (set_card_links
      (map (fun d => if same_link l d
                     then mkCardLink (link_project_id d) (from_card_id d) (to_card_id d) (to_type d)
                            (link_kind d) (link_label l) (link_created_at l)
                     else d) (card_links db)) db)
  else if project_exists (link_project_id l) db
  then Some (set_card_links (card_links db ++ [l]) db)
  else None.

Definition upsert_links (project_id from : string) (links : list CardLink) : Repo unit :=
  for_each links (fun link =>
    if negb (String.eqb (link_project_id link) project_id)
       || negb (String.eqb (from_card_id link) from)
    then throw (Runtime "link project_id/from_card_id mismatch")
    else exec "upsert link failed" (upsert_link_row (bind_link link))).

(** [ORDER BY created_at DESC] and [ORDER BY to_card_id ASC, created_at DESC]. *)
Definition newest_first : CardLink -> CardLink -> comparison :=
  cmp_rev (cmp_on link_created_at Z.compare).
Definition by_target : CardLink -> CardLink -> comparison :=
  cmp_lex (cmp_on to_card_id String.compare) newest_first.

(** The [WHERE] clauses. *)
Definition outgoing_of (project_id from : string) (l : CardLink) : bool :=
  String.eqb (link_project_id l) (bind_text project_id)
  && String.eqb (from_card_id l) (bind_text from).
Definition backlink_of (project_id to : string) (l : CardLink) : bool :=
  String.eqb (link_project_id l) (bind_text project_id)
  && String.eqb (to_card_id l) (bind_text to).
Definition backlink_typed_of (project_id to type : string) (l : CardLink) : bool :=
  backlink_of project_id to l && String.eqb (to_type l) (bind_text type).
Definition incoming_typed (project_id type : string) (l : CardLink) : bool :=
  String.eqb (link_project_id l) (bind_text project_id)
  && String.eqb (to_type l) (bind_text type).

Section Queries.
Context {E : SqlEngine}.

Definition list_outgoing (db : Db) (project_id from : string) : list CardLink :=
  sql_select (outgoing_of project_id from) newest_first (card_links db).

Definition list_backlinks (db : Db) (project_id to : string) : list CardLink :=
  sql_select (backlink_of project_id to) newest_first (card_links db).

Definition list_backlinks_typed (db : Db) (project_id to type : string) : list CardLink :=
  sql_select (backlink_typed_of project_id to type) newest_first (card_links db).

Definition list_incoming_typed (db : Db) (project_id type : string) : list CardLink :=
  sql_select (incoming_typed project_id type) by_target (card_links db).

End Queries.

Definition delete_where (p : CardLink -> bool) (db : Db) : option Db :=
  Some (set_card_links (list_filter (fun l => negb (p l)) (card_links db)) db).

(** The four statements of [delete_link], chosen by the filters that are given. *)
Definition delete_link_clause (project_id from to : string) (type kind : option string)
    (l : CardLink) : bool :=
  outgoing_of project_id from l && String.eqb (to_card_id l) (bind_text to)
  && match kind, type with
     | Some k, Some t => String.eqb (to_type l) (bind_text t) && String.eqb (link_kind l) (bind_text k)
     | Some k, None => String.eqb (link_kind l) (bind_text k)
     | None, Some t => String.eqb (to_type l) (bind_text t)
     | None, None => true
     end.

Definition delete_link (project_id from to : string) (type kind : option string) : Repo unit :=
  exec "delete link failed" (delete_where (delete_link_clause project_id from to type kind)).

Definition delete_links_to_typed (project_id to type : string) : Repo unit :=
  exec "delete links to failed" (delete_where (backlink_typed_of project_id to type)).

Definition delete_links_from (project_id from : string) : Repo unit :=
  exec "delete links failed" (delete_where (outgoing_of project_id from)).

End LinkRepo.

Module LinkRepoFacts.
Import LinkRepo.

(** The abstraction: what the table says of each key. *)
Definition link_value (l : CardLink) : option string * Z := (link_label l, link_created_at l).
Definition link_map (t : list CardLink) : gmap LinkKey (option string * Z) :=
  list_to_map (map (fun l => (link_key l, link_value l)) t).

Record links_wf (db : Db) : Prop := {
  wf_link_keys : NoDup (map link_key (card_links db));
  wf_link_projects : forall l, l ∈ card_links db -> project_exists (link_project_id l) db = true
}.

Lemma link_key_value_inj a b : link_key a = link_key b -> link_value a = link_value b -> a = b.
Proof. destruct a, b. unfold link_key, link_value. cbn. by intros [= -> -> -> -> ->] [= -> ->]. Qed.

Lemma link_map_lookup t k v :
  NoDup (map link_key t) ->
  link_map t !! k = Some v <-> exists l, l ∈ t /\ link_key l = k /\ link_value l = v.
Proof.
  intros Hn. unfold link_map. rewrite <- elem_of_list_to_map.
  - rewrite elem_of_map_id. split; intros (l & Hl & H); exists l; [by injection H as -> ->|].
    by destruct H as [-> ->].
  - by rewrite map_map.
Qed.

Lemma link_map_elem t l :
  NoDup (map link_key t) -> l ∈ t <-> link_map t !! link_key l = Some (link_value l).
Proof.
  intros Hn. rewrite link_map_lookup by done. split; [by exists l|].
  intros (l' & Hl' & Hk & Hv). by rewrite (link_key_value_inj l l').
Qed.

Lemma same_link_spec a b : same_link a b = true <-> link_key a = link_key b.
Proof. unfold same_link. by rewrite bool_decide_eq_true. Qed.

Lemma same_link_exists l t : existsb (same_link l) t = true <-> link_key l ∈ map link_key t.
Proof.
  rewrite existsb_exists, elem_of_map_id. setoid_rewrite same_link_spec.
  by setoid_rewrite list_elem_of_In.
Qed.

Definition relabel (l d : CardLink) : CardLink :=
  if same_link l d
  then mkCardLink (link_project_id d) (from_card_id d) (to_card_id d) (to_type d)
         (link_kind d) (link_label l) (link_created_at l)
  else d.

Lemma relabel_key l d : link_key (relabel l d) = link_key d.
Proof. unfold relabel. by destruct (same_link l d). Qed.

Lemma relabel_keys l t : map link_key (map (relabel l) t) = map link_key t.
Proof. rewrite map_map. apply map_ext, relabel_key. Qed.

Lemma link_map_relabel l t :
  NoDup (map link_key t) -> link_key l ∈ map link_key t ->
  link_map (map (relabel l) t) = <[link_key l := link_value l]> (link_map t).
Proof.
  intros Hn (d & Hd & Hk)%elem_of_map_id. apply map_eq. intros k. apply option_eq. intros v.
  rewrite link_map_lookup by by rewrite relabel_keys.
  setoid_rewrite elem_of_map_id. destruct (decide (k = link_key l)) as [->|Hne].
  - rewrite lookup_insert_eq. split.
    + intros (r & (e & He & ->) & Hke & <-). rewrite relabel_key in Hke. unfold relabel.
      by rewrite (proj2 (same_link_spec l e)).
    + intros [= <-]. exists (relabel l d). split; [by exists d|]. rewrite relabel_key. split; [done|].
      unfold relabel. by rewrite (proj2 (same_link_spec l d)).
  - rewrite lookup_insert_ne, link_map_lookup by done.
    assert (forall e, link_key e = k -> relabel l e = e) as Hid.
    { intros e He. unfold relabel. destruct (same_link l e) eqn:Es; [|done].
      apply same_link_spec in Es. congruence. }
    split.
    + intros (r & (e & He & ->) & Hke & <-). rewrite relabel_key in Hke. exists e. by rewrite Hid.
    + intros (e & He & Hke & <-). exists e. split; [exists e; by rewrite Hid|done].
Qed.

Lemma link_map_snoc l t :
  link_key l ∉ map link_key t ->
  link_map (t ++ [l]) = <[link_key l := link_value l]> (link_map t).
Proof.
  intros Hk. unfold link_map. rewrite map_app, list_to_map_app. simpl.
  rewrite insert_empty, <- insert_union_singleton_r; [done|].
  apply not_elem_of_list_to_map_1. by rewrite map_map.
Qed.

(** One statement of [upsert_links]: it is refused exactly when it would add a row to
    a project that does not exist. *)
Lemma upsert_link_row_spec l db :
  links_wf db -> project_exists (link_project_id l) db = true ->
  exists db', upsert_link_row l db = Some db' /\ links_wf db' /\
    db' = set_card_links (card_links db') db /\
    link_map (card_links db') = <[link_key l := link_value l]> (link_map (card_links db)).
Proof.
  intros [Hn Hp] Hl. unfold upsert_link_row. fold (relabel l).
  destruct (existsb (same_link l) (card_links db)) eqn:Ex.
  - apply same_link_exists in Ex. eexists. split; [done|]. cbn. repeat split; cbn.
    + by rewrite relabel_keys.
    + intros r (d & Hd & ->)%elem_of_map_id. specialize (Hp d Hd).
      pose proof (relabel_key l d) as Hk. injection Hk as -> _ _ _ _. done.
    + by apply link_map_relabel.
  - rewrite Hl. eexists. split; [done|]. cbn.
    assert (link_key l ∉ map link_key (card_links db)) as Hk
      by (rewrite <- same_link_exists; congruence).
    repeat split; cbn.
    + rewrite map_app. apply list.NoDup_app. cbn. repeat split; [done| |apply NoDup_singleton].
      intros k Hin ->%list_elem_of_singleton. done.
    + intros r [Hr| ->%list_elem_of_singleton]%elem_of_app; [by apply Hp|done].
    + by apply link_map_snoc.
Qed.

Lemma link_map_filter (p : CardLink -> bool) (q : LinkKey -> bool) t :
  NoDup (map link_key t) -> (forall l, p l = q (link_key l)) ->
  link_map (list_filter p t) = filter (fun kv => q (kv.1) = true) (link_map t).
Proof.
  intros Hn Hq. apply map_eq. intros k. apply option_eq. intros v.
  rewrite map_lookup_filter_Some, !link_map_lookup by (try apply NoDup_map_filter; done).
  setoid_rewrite elem_of_list_filter. setoid_rewrite Hq. naive_solver.
Qed.

Lemma delete_where_wf p db : links_wf db ->
  links_wf (set_card_links (list_filter p (card_links db)) db).
Proof.
  intros [Hn Hp]. split; cbn; [by apply NoDup_map_filter|].
  intros l [Hl _]%elem_of_list_filter. by apply Hp.
Qed.

(** The link names the card that [upsert_links] is called for. *)
Definition belongs (project_id from : string) (l : CardLink) : Prop :=
  link_project_id l = project_id /\ from_card_id l = from.

(** The map after the links are entered one by one, a later link over an earlier one
    with the same key. *)
Definition upsert_all (links : list CardLink) (m : gmap LinkKey (option string * Z)) :=
  foldl (fun m l => <[link_key (bind_link l) := link_value (bind_link l)]> m) m links.

Definition mismatch : error := Runtime "link project_id/from_card_id mismatch".

Lemma upsert_links_good pid from links db :
  links_wf db -> project_exists (bind_text pid) db = true -> Forall (belongs pid from) links ->
  exists db', upsert_links pid from links db = (Ok tt, db') /\ links_wf db' /\
    db' = set_card_links (card_links db') db /\
    link_map (card_links db') = upsert_all links (link_map (card_links db)).
Proof.
  intros W Hp Hall. revert db W Hp.
  induction Hall as [|l links [Hl1 Hl2] _ IH]; intros db W Hp.
  - exists db. repeat split; try done; [apply W|apply W|by destruct db].
  - unfold upsert_links. cbn [for_each]. unfold bind.
    rewrite Hl1, Hl2, !String.eqb_refl. cbn [negb orb].
    destruct (upsert_link_row_spec (bind_link l) db W) as (db1 & Hr & W1 & He & Hm).
    { cbn. by rewrite Hl1. }
    unfold exec. rewrite Hr.
    destruct (IH db1) as (db2 & Hr2 & W2 & He2 & Hm2); [done|by rewrite He|].
    exists db2. split; [exact Hr2|]. split; [done|]. split.
    + rewrite He2, He. done.
    + rewrite Hm2, Hm. done.
Qed.

Lemma upsert_links_bad pid from bad more db :
  ~ belongs pid from bad -> upsert_links pid from (bad :: more) db = (Err mismatch, db).
Proof.
  intros Hb. unfold upsert_links. cbn [for_each]. unfold bind.
  destruct (String.eqb_spec (link_project_id bad) pid); [|done].
  destruct (String.eqb_spec (from_card_id bad) from); [|done]. by destruct Hb.
Qed.

End LinkRepoFacts.

Module LinkRepoTheorems.
Import LinkRepo LinkRepoFacts.

(** C35: [upsert_links] enters its links into the map of the table one after the other,
    overwriting label and time of a key that is there, and touches no other table. At
    the first link of another card it throws, with exactly the links before it written;
    inside a transaction nothing is. For a project that does not exist it throws and
    writes nothing. *)
Theorem upsert_links_refines (pid from : string) (good rest : list CardLink) (db : Db) :
  links_wf db -> Forall (belongs pid from) good ->
  match rest with [] => True | bad :: _ => ~ belongs pid from bad end ->
  let outcome := match rest with [] => Ok tt | _ => Err mismatch end in
  if project_exists (bind_text pid) db then
    (exists db', upsert_links pid from (good ++ rest) db = (outcome, db') /\ links_wf db' /\
       db' = set_card_links (card_links db') db /\
       link_map (card_links db') = upsert_all good (link_map (card_links db))) /\
    (rest <> [] -> transaction (upsert_links pid from (good ++ rest)) db = (Err mismatch, db))
  else
    good <> [] ->
    upsert_links pid from (good ++ rest) db = (Err (Sqlite "upsert link failed"), db).
Proof.
  intros W Hg Hrest. cbv zeta. destruct (project_exists _ db) eqn:Hp.
  - destruct (upsert_links_good pid from good db W Hp Hg) as (db' & Hr & W' & He & Hm).
    assert (upsert_links pid from (good ++ rest) db =
            (match rest with [] => Ok tt | _ => Err mismatch end, db')) as Hrun.
    { unfold upsert_links in *. rewrite (for_each_app _ _ _ _ _ Hr).
      destruct rest as [|bad more]; [done|]. by apply upsert_links_bad. }
    split; [by exists db'|]. intros Hne. unfold transaction. rewrite Hrun. by destruct rest.
  - intros Hne. destruct Hg as [|l good [Hl1 Hl2] _]; [done|].
    unfold upsert_links. cbn [for_each app]. unfold bind.
    rewrite Hl1, Hl2, !String.eqb_refl. cbn [negb orb]. unfold exec, upsert_link_row.
    destruct (existsb _ (card_links db)) eqn:Ex.
    + apply same_link_exists, elem_of_map_id in Ex as (d & Hd & Hk).
      injection Hk as Hk _ _ _ _. destruct W as [_ Wp]. specialize (Wp d Hd).
      rewrite <- Hk, Hl1 in Wp. congruence.
    + cbn. by rewrite Hl1, Hp.
Qed.

(** the delete methods remove from the map exactly the keys that meet their
    arguments, whichever of the four statements of [delete_link] is used, never fail,
    and keep the table well-formed. *)
Theorem delete_links_refine (pid from to : string) (type kind : option string) (db : Db) :
  links_wf db ->
  let opt_is (o : option string) (s : string) := match o with Some v => s = bind_text v | None => True end in
  let deletes (m : Repo unit) (gone : LinkKey -> Prop) :=
    exists db', m db = (Ok tt, db') /\ links_wf db' /\ db' = set_card_links (card_links db') db /\
      forall k v, link_map (card_links db') !! k = Some v <->
                  link_map (card_links db) !! k = Some v /\ ~ gone k in
  deletes (delete_link pid from to type kind)
    (fun '(p, f, t, ty, kd) => p = bind_text pid /\ f = bind_text from /\ t = bind_text to /\
                               opt_is type ty /\ opt_is kind kd) /\
  deletes (delete_links_from pid from)
    (fun '(p, f, _, _, _) => p = bind_text pid /\ f = bind_text from) /\
  forall ty0, deletes (delete_links_to_typed pid to ty0)
    (fun '(p, _, t, ty, _) => p = bind_text pid /\ t = bind_text to /\ ty = bind_text ty0).
Proof.
  intros W opt_is deletes.
  assert (forall what p gone,
    (forall l, p l = true <-> gone (link_key l)) ->
    deletes (exec what (delete_where p)) gone) as Hdel.
  { intros what p gone Hg. eexists. split; [done|]. split; [by apply delete_where_wf|].
    split; [done|]. intros k v. cbn [card_links set_card_links]. destruct W as [Wn _].
    rewrite !link_map_lookup by (try apply NoDup_map_filter; done).
    setoid_rewrite elem_of_list_filter. setoid_rewrite negb_true_iff.
    setoid_rewrite <- not_true_iff_false. setoid_rewrite Hg. naive_solver. }
  split; [|split; [|intros ty0]]; apply Hdel; intros l; unfold link_key, delete_link_clause,
    outgoing_of, backlink_typed_of, backlink_of; rewrite ?andb_true_iff, ?String.eqb_eq; [|tauto..].
  destruct kind, type; cbn; rewrite ?andb_true_iff, ?String.eqb_eq; tauto.
Qed.

(** the four list methods agree with the table: each returns the rows that meet its
    arguments, every row once, newest first (incoming links grouped by target). So a
    link is among the outgoing links of its source exactly when it is among the
    backlinks of its target. *)
Theorem link_lists_correct (E : SqlEngine) (db : Db) (pid a ty : string) :
  SqlEngineLaws E -> links_wf db ->
  let lists (l : list CardLink) (p : LinkKey -> Prop) (cmp : CardLink -> CardLink -> comparison) :=
    NoDup l /\ StronglySorted (cmp_le cmp) l /\
    forall x, x ∈ l <-> p (link_key x) /\ link_map (card_links db) !! link_key x = Some (link_value x) in
  lists (list_outgoing db pid a)
    (fun '(p, f, _, _, _) => p = bind_text pid /\ f = bind_text a) newest_first /\
  lists (list_backlinks db pid a)
    (fun '(p, _, t, _, _) => p = bind_text pid /\ t = bind_text a) newest_first /\
  lists (list_backlinks_typed db pid a ty)
    (fun '(p, _, t, y, _) => p = bind_text pid /\ t = bind_text a /\ y = bind_text ty) newest_first /\
  lists (list_incoming_typed db pid ty)
    (fun '(p, _, _, y, _) => p = bind_text pid /\ y = bind_text ty) by_target /\
  forall x, bind_text (link_project_id x) = link_project_id x ->
    bind_text (from_card_id x) = from_card_id x -> bind_text (to_card_id x) = to_card_id x ->
    x ∈ list_outgoing db (link_project_id x) (from_card_id x) <->
    x ∈ list_backlinks db (link_project_id x) (to_card_id x).
Proof.
  intros L [Wn _] lists.
  assert (forall p q cmp, CmpOrd cmp -> (forall l, p l = true <-> q (link_key l)) ->
    lists (sql_select p cmp (card_links db)) q cmp) as Hl.
  { intros p q cmp Hc Hq. split; [|split; [by apply sql_select_sorted|]].
    - rewrite sql_select_perm. apply (NoDup_fmap_1 link_key). by apply (NoDup_map_filter link_key).
    - intros x. rewrite sql_select_elem, Hq, link_map_elem by done. tauto. }
  split; [|split; [|split; [|split]]].
  1-4: apply Hl; [apply _|]; intros l; unfold outgoing_of, backlink_of, backlink_typed_of,
    incoming_typed, link_key; rewrite ?andb_true_iff, ?String.eqb_eq; unfold backlink_of;
    rewrite ?andb_true_iff, ?String.eqb_eq; tauto.
  intros x H1 H2 H3. unfold list_outgoing, list_backlinks. rewrite !sql_select_elem.
  unfold outgoing_of, backlink_of. by rewrite H1, H2, H3, !String.eqb_refl.
Qed.

Definition link_project : Project := mkProject "p" "Notes" "/p" None None "plain" None Uuid4 0 0.
Definition sample_link (from to kind : string) (label : option string) (at_ : Z) : CardLink :=
  mkCardLink "p" from to "card" kind label at_.
Definition link_db : Db :=
  core_db [link_project] [] [sample_link "a" "b" "ref" None 1; sample_link "a" "c" "blocks" None 2] [] [] [].

Lemma link_db_wf : links_wf link_db.
Proof.
  split; simpl.
  - repeat constructor; set_solver.
  - intros l Hl. repeat (apply elem_of_cons in Hl as [->|Hl]; [done|]). set_solver.
Qed.

Example upsert_links_refines_witness :
  exists db', upsert_links "p" "a" [sample_link "a" "b" "ref" (Some "see") 5;
                                    sample_link "x" "b" "ref" None 6] link_db = (Err mismatch, db') /\
    links_wf db' /\ db' = set_card_links (card_links db') link_db /\
    link_map (card_links db') =
      upsert_all [sample_link "a" "b" "ref" (Some "see") 5] (link_map (card_links link_db)).
Proof.
  apply (upsert_links_refines "p" "a" [sample_link "a" "b" "ref" (Some "see") 5]
           [sample_link "x" "b" "ref" None 6] link_db link_db_wf).
  - repeat constructor.
  - intros [_ H]. discriminate H.
Defined.

Example delete_links_refine_witness :
  exists db', delete_link "p" "a" "b" None (Some "ref") link_db = (Ok tt, db') /\ links_wf db' /\
    db' = set_card_links (card_links db') link_db /\
    forall k v, link_map (card_links db') !! k = Some v <->
      link_map (card_links link_db) !! k = Some v /\
      ~ (let '(p, f, t, ty, kd) := k in p = "p" /\ f = "a" /\ t = "b" /\ True /\ kd = "ref").
Proof. exact (proj1 (delete_links_refine "p" "a" "b" None (Some "ref") link_db link_db_wf)). Defined.

Example link_lists_correct_witness :
  NoDup (@list_outgoing reference_engine link_db "p" "a").
Proof.
  exact (proj1 (proj1 (link_lists_correct reference_engine link_db "p" "a" "card" _ link_db_wf))).
Defined.

End LinkRepoTheorems.
