(* ===== verification/TagRepo.v ===== *)
(** * Card tags

    [src/src/card/TagRepo.cpp]: the index over the tags of the card bodies. A card's
    set of tags is replaced as a whole; the searches join the cards so that trashed
    ones never turn up. *)

From stdpp Require Import base list sets strings numbers sorting.
From Stdlib Require Import Ascii.
From S2P Require Import Prelude Double Model Text Tags Database.

Module TagRepo.

(** [PRIMARY KEY(project_id, card_id, tag)] *)
Definition tag_key (t : CardTag) : string * string * string :=
  (tag_project_id t, tag_card_id t, tag_name t).

(** The [WHERE project_id = ? AND card_id = ?] of the statements. *)
Definition tag_of_card (project_id card : string) (t : CardTag) : bool :=
  String.eqb (tag_project_id t) (bind_text project_id)
  && String.eqb (tag_card_id t) (bind_text card).

Definition delete_tag_rows (project_id card : string) (db : Db) : option Db :=
  Some (set_card_tags
    (list_filter (fun t => negb (tag_of_card project_id card t)) (card_tags db)) db).

Definition insert_tag_row (t : CardTag) (db : Db) : option Db :=
  if negb (existsb (fun d => bool_decide (tag_key d = tag_key t)) (card_tags db))
     && project_exists (tag_project_id t) db && card_exists (tag_card_id t) (cards db)
  then Some (set_card_tags (card_tags db ++ [t]) db) else None.

Definition set_tags_for_card (project_id card : string) (tags : list string) (now : Z)
    : Repo unit :=
  exec "delete tags failed" (delete_tag_rows project_id card) ;;;
  for_each tags (fun tag =>
    exec "insert tag failed"
      (insert_tag_row (mkCardTag (bind_text project_id) (bind_text card) (bind_text tag) now))).

Definition delete_tags_for_card (project_id card : string) : Repo unit :=
  exec "delete tags failed" (delete_tag_rows project_id card).

(** [ORDER BY ct.created_at DESC] *)
Definition newest_tag : CardTag -> CardTag -> comparison :=
  cmp_rev (cmp_on tag_created_at Z.compare).
(** [ORDER BY c DESC, ct.tag ASC] *)
Definition by_count : string * Z -> string * Z -> comparison :=
  cmp_lex (cmp_rev (cmp_on snd Z.compare)) (cmp_on fst String.compare).

(** The groups of [GROUP BY ct.tag], each with its [COUNT( * )]. *)
Fixpoint group_tags (rows : list CardTag) : list (string * Z) :=
  match rows with
  | [] => []
  | t :: rest =>
      let groups := group_tags rest in
      if existsb (fun g => String.eqb g.1 (tag_name t)) groups
      then map (fun g => if String.eqb g.1 (tag_name t) then (g.1, g.2 + 1) else g) groups
      else (tag_name t, 1) :: groups
  end.

Section Queries.
Context {E : SqlEngine}.

Definition list_tags_for_card (db : Db) (project_id card : string) : list string :=
  map tag_name
    (sql_select (tag_of_card project_id card) (cmp_on tag_name String.compare) (card_tags db)).

Definition list_card_ids_with_tag (db : Db) (project_id tag : string) : list string :=
  map tag_card_id
    (sql_select
       (fun t => String.eqb (tag_project_id t) (bind_text project_id)
                 && String.eqb (tag_name t) (bind_text tag)) newest_tag
       (join_live_cards tag_card_id db (card_tags db))).

(** The count is read by [sqlite3_column_int]. *)
Definition list_project_tags (db : Db) (project_id : string) : list (string * Z) :=
  map (fun g => (g.1, wrap_int 32 g.2))
    (sql_select (fun _ => true) by_count
       (group_tags
          (list_filter (fun t => String.eqb (tag_project_id t) (bind_text project_id))
             (join_live_cards tag_card_id db (card_tags db))))).

End Queries.
End TagRepo.

Module TagRepoFacts.
Import TagRepo.

Lemma insert_tag_row_spec t db db' :
  insert_tag_row t db = Some db' <->
  db' = set_card_tags (card_tags db ++ [t]) db /\ tag_key t ∉ map tag_key (card_tags db) /\
  project_exists (tag_project_id t) db = true /\ card_exists (tag_card_id t) (cards db) = true.
Proof.
  unfold insert_tag_row.
  assert (existsb (fun d => bool_decide (tag_key d = tag_key t)) (card_tags db) = true <->
          tag_key t ∈ map tag_key (card_tags db)) as Hk.
  { rewrite existsb_exists, elem_of_map_id. setoid_rewrite bool_decide_eq_true.
    setoid_rewrite list_elem_of_In. split; intros (x & Hx & He); by exists x. }
  destruct (existsb _ (card_tags db)); [naive_solver|].
  destruct (project_exists (tag_project_id t) db), (card_exists (tag_card_id t) (cards db)); cbn;
    naive_solver.
Qed.

(** The rows [set_tags_for_card] adds. *)
Definition tag_rows (pid card : string) (tags : list string) (now : Z) : list CardTag :=
  map (fun tag => mkCardTag (bind_text pid) (bind_text card) (bind_text tag) now) tags.
Definition other_tags (pid card : string) (db : Db) : list CardTag :=
  list_filter (fun t => negb (tag_of_card pid card t)) (card_tags db).

Lemma insert_tags_ok pid card tags now db :
  project_exists (bind_text pid) db = true -> card_exists (bind_text card) (cards db) = true ->
  NoDup (map bind_text tags) ->
  (forall t, t ∈ card_tags db -> tag_of_card pid card t = true -> tag_name t ∉ map bind_text tags) ->
  for_each tags (fun tag =>
    exec "insert tag failed"
      (insert_tag_row (mkCardTag (bind_text pid) (bind_text card) (bind_text tag) now))) db =
  (Ok tt, set_card_tags (card_tags db ++ tag_rows pid card tags now) db).
Proof.
  revert db. induction tags as [|g tags IH]; intros db Hp Hc Hn Hfree; cbn [for_each].
  { cbn. rewrite app_nil_r. by destruct db. }
  cbn in Hn. apply NoDup_cons in Hn as [Hg Hn].
  set (row := mkCardTag (bind_text pid) (bind_text card) (bind_text g) now).
  assert (insert_tag_row row db = Some (set_card_tags (card_tags db ++ [row]) db)) as Hr.
  { apply insert_tag_row_spec. split; [done|]. split; [|done].
    intros (d & Hd & Hk)%elem_of_map_id. injection Hk as H1 H2 H3.
    apply (Hfree d Hd); [|rewrite <- H3; set_solver].
    unfold tag_of_card. by rewrite <- H1, <- H2, !String.eqb_refl. }
  unfold bind at 1. unfold exec at 1. rewrite Hr. rewrite IH; [|done|done|done|].
  - cbn. by rewrite <- app_assoc.
  - cbn. intros t [Ht| ->%list_elem_of_singleton]%elem_of_app Hof; [|done].
    intros Hin. apply (Hfree t Ht Hof). set_solver.
Qed.

Lemma set_tags_ok pid card tags now db :
  project_exists (bind_text pid) db = true -> card_exists (bind_text card) (cards db) = true ->
  NoDup (map bind_text tags) ->
  set_tags_for_card pid card tags now db =
  (Ok tt, set_card_tags (other_tags pid card db ++ tag_rows pid card tags now) db).
Proof.
  intros Hp Hc Hn. unfold set_tags_for_card, bind at 1, exec at 1. cbn [delete_tag_rows].
  rewrite insert_tags_ok; [done|done|done|done|].
  cbn. intros t [_ Ht]%elem_of_list_filter Hof. by rewrite Hof in Ht.
Qed.

Lemma tag_rows_of_card pid card tags now t :
  t ∈ tag_rows pid card tags now -> tag_of_card pid card t = true.
Proof.
  intros (g & _ & ->)%elem_of_map_id. unfold tag_of_card. cbn. by rewrite !String.eqb_refl.
Qed.

Lemma set_tags_wf pid card tags now db :
  NoDup (map bind_text tags) -> card_tags_wf db ->
  card_tags_wf (set_card_tags (other_tags pid card db ++ tag_rows pid card tags now) db).
Proof.
  unfold card_tags_wf. cbn. intros Hn W. change (NoDup (map tag_key (card_tags db))) in W.
  change (NoDup (map tag_key (other_tags pid card db ++ tag_rows pid card tags now))).
  rewrite map_app. apply list.NoDup_app. repeat split.
  - by apply NoDup_map_filter.
  - intros k (a & [_ Ha]%elem_of_list_filter & ->)%elem_of_map_id
      (b & (g & _ & ->)%elem_of_map_id & Hk)%elem_of_map_id.
    injection Hk as H1 H2 _. unfold tag_of_card in Ha. cbn in H1, H2.
    by rewrite H1, H2, !String.eqb_refl in Ha.
  - unfold tag_rows. rewrite map_map. cbn.
    rewrite <- (map_map bind_text (fun s => (bind_text pid, bind_text card, s))).
    assert (Inj (=) (=) (fun s : string => (bind_text pid, bind_text card, s))) by by intros ?? [= ->].
    by apply (NoDup_fmap_2 (fun s => (bind_text pid, bind_text card, s))).
Qed.

(** ** Grouping *)

Lemma group_tags_nodup rows : NoDup (map fst (group_tags rows)).
Proof.
  induction rows as [|r rows IH]; cbn; [constructor|]. destruct (existsb _ _) eqn:Ex.
  - rewrite map_map, (map_ext _ fst); [done|]. intros g. by destruct (String.eqb _ _).
  - cbn. apply NoDup_cons. split; [|done]. intros (g & Hg & He)%elem_of_map_id.
    enough (existsb (fun g => String.eqb g.1 (tag_name r)) (group_tags rows) = true) by congruence.
    apply existsb_exists. exists g. rewrite <- list_elem_of_In, He. by rewrite String.eqb_refl.
Qed.

(** Each group counts the rows of its tag. *)
Lemma group_tags_count rows t n :
  (t, n) ∈ group_tags rows <->
  n = Z.of_nat (length (list_filter (fun r => String.eqb (tag_name r) t) rows)) /\ 0 < n.
Proof.
  revert n. induction rows as [|r rows IH]; intros n; cbn.
  { split; [set_solver|]. intros [-> ?]. lia. }
  assert (existsb (fun g => String.eqb g.1 (tag_name r)) (group_tags rows) = true <->
          exists m, (tag_name r, m) ∈ group_tags rows) as Hex.
  { rewrite existsb_exists. split.
    - intros ([a m] & Hg & <-%String.eqb_eq). exists m. by apply list_elem_of_In.
    - intros (m & Hm). exists (tag_name r, m). rewrite <- list_elem_of_In, String.eqb_refl. done. }
  unfold list_filter in *.
  destruct (existsb _ _) eqn:Ex.
  - rewrite elem_of_map_id. destruct (String.eqb_spec (tag_name r) t) as [Ht|Ht]; cbn [length].
    + split.
      * intros ([a m] & Hg & He). cbn in He. destruct (String.eqb_spec a (tag_name r)); [|congruence].
        injection He as -> ->. apply IH in Hg as [-> ?]. lia.
      * intros [Hn Hpos]. destruct (proj1 Hex eq_refl) as (m & Hm). rewrite Ht in Hm.
        pose proof (proj1 (IH m) Hm) as [Hm1 Hm2]. exists (t, m). cbn. split; [done|].
        rewrite Ht, String.eqb_refl. f_equal. lia.
    + rewrite <- IH. split.
      * intros ([a m] & Hg & He). cbn in He. destruct (String.eqb_spec a (tag_name r)); [congruence|].
        by injection He as -> ->.
      * intros Hg. exists (t, n). cbn. destruct (String.eqb_spec t (tag_name r)); [congruence|done].
  - rewrite elem_of_cons. destruct (String.eqb_spec (tag_name r) t) as [Ht|Ht]; cbn [length].
    + assert (length (List.filter (fun r => String.eqb (tag_name r) t) rows) = 0%nat) as Hz.
      { destruct (length _) eqn:El; [done|]. exfalso.
        assert ((t, Z.of_nat (S n0)) ∈ group_tags rows) as Hin by (apply IH; lia).
        rewrite <- Ht in Hin. assert (false = true) by (apply Hex; by exists (Z.of_nat (S n0))). done. }
      rewrite Hz. split.
      * intros [Heq|Hg]; [injection Heq as _ ->; lia|]. apply IH in Hg. lia.
      * intros [-> _]. left. by rewrite Ht.
    + rewrite <- IH. split; [|by right]. intros [Heq|Hg]; [congruence|done].
Qed.

(** When the loop succeeds, no insertion met a constraint. *)
Lemma insert_tags_inv pid card tags now db db' :
  for_each tags (fun tag =>
    exec "insert tag failed"
      (insert_tag_row (mkCardTag (bind_text pid) (bind_text card) (bind_text tag) now))) db =
  (Ok tt, db') ->
  tags = [] \/
  project_exists (bind_text pid) db = true /\ card_exists (bind_text card) (cards db) = true /\
  NoDup (map bind_text tags) /\
  forall s, s ∈ map bind_text tags -> (bind_text pid, bind_text card, s) ∉ map tag_key (card_tags db).
Proof.
  revert db. induction tags as [|g tags IH]; intros db; [by left|]. right. revert H. cbn [for_each].
  unfold bind at 1. unfold exec at 1. destruct (insert_tag_row _ db) as [d|] eqn:Hr; [|done].
  apply insert_tag_row_spec in Hr as (-> & Hk & Hp & Hc). cbn in Hk, Hp, Hc.
  intros [->|(_ & _ & Hn & Hf)]%IH; cbn; (split; [done|]); (split; [done|]).
  - split; [apply NoDup_singleton|]. by intros s ->%list_elem_of_singleton.
  - cbn in Hf. split.
    + apply NoDup_cons. split; [|done]. intros Hin. apply (Hf _ Hin).
      rewrite map_app. apply elem_of_app. right. by apply list_elem_of_singleton.
    + intros s [->|Hs]%elem_of_cons; [done|]. specialize (Hf s Hs).
      rewrite map_app in Hf. set_solver.
Qed.

Lemma set_tags_inv pid card tags now db db' :
  set_tags_for_card pid card tags now db = (Ok tt, db') ->
  tags = [] \/
  project_exists (bind_text pid) db = true /\ card_exists (bind_text card) (cards db) = true /\
  NoDup (map bind_text tags).
Proof.
  unfold set_tags_for_card, bind at 1, exec at 1. cbn [delete_tag_rows].
  intros [->|(Hp & Hc & Hn & _)]%insert_tags_inv; [by left|by right].
Qed.

Lemma valid_tag_bound (b : bytes) :
  TagExtractor.is_valid_tag b = true -> bind_text (string_of b) = string_of b.
Proof.
  destruct b as [|c b]; [done|]. unfold TagExtractor.is_valid_tag.
  intros [[_ Hall]%andb_true_iff _]%andb_true_iff. revert Hall.
  generalize (c :: b). clear. unfold bind_text, string_of.
  induction l as [|a l IH]; cbn [forallb]; [done|]. intros [Ha Hl]%andb_true_iff.
  cbn. destruct (Ascii.eqb a "000"%char) eqn:E; [|by rewrite IH].
  apply Ascii.eqb_eq in E as ->. by vm_compute in Ha.
Qed.

(** The rows of a live card. *)
Definition live_tag_row (pid tag : string) (db : Db) (id : string) : Prop :=
  exists t, t ∈ card_tags db /\ tag_project_id t = bind_text pid /\ tag_name t = tag /\ tag_card_id t = id.

Section Lists.
Context `{!SqlEngineLaws E}.

(** [ORDER BY tag] leaves nothing open. *)
Lemma list_tags_sorted db pid card :
  list_tags_for_card db pid card =
  sort_by str_ltb (map tag_name (list_filter (tag_of_card pid card) (card_tags db))).
Proof.
  apply (StronglySorted_perm_eq String.compare).
  - intros x y _ _. apply string_compare_eq.
  - unfold list_tags_for_card.
    pose proof (sql_select_sorted _ (tag_of_card pid card) (cmp_on tag_name String.compare)
      (card_tags db) _) as Hs.
    induction Hs as [|x l Hs IH Hall]; cbn; constructor; [done|].
    apply Forall_forall. intros s (t & Ht & ->)%elem_of_map_id.
    exact (proj1 (Forall_forall _ _) Hall t Ht).
  - apply (sort_by_sorted String.compare).
  - unfold str_ltb. rewrite sort_by_perm. unfold list_tags_for_card.
    apply Permutation_map. by rewrite sql_select_perm.
Qed.

Lemma list_ids_elem db pid tag id :
  NoDup (map card_id (cards db)) ->
  id ∈ list_card_ids_with_tag db pid tag <->
  live_tag_row pid (bind_text tag) db id /\ card_is_live db id = true.
Proof.
  intros Hn. unfold list_card_ids_with_tag. rewrite elem_of_map_id.
  setoid_rewrite sql_select_elem. rewrite join_live_cards_filter by done.
  setoid_rewrite elem_of_list_filter. setoid_rewrite andb_true_iff.
  setoid_rewrite String.eqb_eq. unfold live_tag_row. split.
  - intros (t & [[Ht Hl] [Hp Hg]] & ->). split; [by exists t|done].
  - intros [(t & Ht & Hp & Hg & <-) Hl]. exists t. naive_solver.
Qed.
End Lists.

Lemma filter_of_card_set pid card tags now db :
  list_filter (tag_of_card pid card) (other_tags pid card db ++ tag_rows pid card tags now) =
  tag_rows pid card tags now.
Proof. apply filter_replaced. intros t. apply tag_rows_of_card. Qed.

Lemma filter_other_card_set pid card tags now db p c :
  (bind_text p, bind_text c) <> (bind_text pid, bind_text card) ->
  list_filter (tag_of_card p c) (other_tags pid card db ++ tag_rows pid card tags now) =
  list_filter (tag_of_card p c) (card_tags db).
Proof.
  intros Hne. apply filter_not_replaced; [|intros t; apply tag_rows_of_card].
  intros t. unfold tag_of_card. intros [->%String.eqb_eq ->%String.eqb_eq]%andb_true_iff.
  apply not_true_iff_false. intros [H1%String.eqb_eq H2%String.eqb_eq]%andb_true_iff. congruence.
Qed.

(** ** Counting the cards of a tag *)

Definition carries (pid tag : string) (db : Db) (c : Card) : bool :=
  existsb (fun t => String.eqb (tag_project_id t) (bind_text pid) && String.eqb (tag_name t) tag
                    && String.eqb (tag_card_id t) (card_id c)) (card_tags db).

Definition project_rows (pid : string) (db : Db) : list CardTag :=
  list_filter (fun t => String.eqb (tag_project_id t) (bind_text pid))
    (join_live_cards tag_card_id db (card_tags db)).

Lemma count_rows_cards pid tag db :
  cards_wf db -> card_tags_wf db ->
  length (list_filter (fun r => String.eqb (tag_name r) tag) (project_rows pid db)) =
  length (list_filter (fun c => negb (card_deleted c) && carries pid tag db c) (cards db)).
Proof.
  intros W Wt. unfold project_rows. rewrite join_live_cards_filter by apply W.
  set (rows := list_filter (fun r => String.eqb (tag_name r) tag) _).
  set (cs := list_filter (fun c => negb (card_deleted c) && carries pid tag db c) _).
  assert (Hrow : forall t, t ∈ rows <-> t ∈ card_tags db /\ tag_project_id t = bind_text pid /\
    tag_name t = tag /\ card_is_live db (tag_card_id t) = true).
  { intros t. unfold rows. rewrite !elem_of_list_filter, !String.eqb_eq. naive_solver. }
  enough (map tag_card_id rows ≡ₚ map card_id cs) as Hp
    by (apply Permutation_length in Hp; by rewrite !length_map in Hp).
  apply NoDup_Permutation.
  - assert (NoDup (map tag_key rows)) as Hn by (by do 3 apply NoDup_map_filter).
    apply (NoDup_fmap_1 (fun id => (bind_text pid, id, tag))).
    assert (map tag_key rows = (fun id => (bind_text pid, id, tag)) <$> map tag_card_id rows) as <-;
      [|done].
    unfold fmap. rewrite <- list_fmap_compose. apply map_ext_in. intros t Ht%list_elem_of_In%Hrow.
    unfold tag_key, compose. naive_solver congruence.
  - apply NoDup_map_filter, W.
  - intros id. rewrite !elem_of_map_id. unfold cs. setoid_rewrite elem_of_list_filter.
    setoid_rewrite Hrow. setoid_rewrite card_is_live_spec.
    unfold carries. setoid_rewrite andb_true_iff. setoid_rewrite existsb_exists.
    setoid_rewrite andb_true_iff. setoid_rewrite andb_true_iff. setoid_rewrite String.eqb_eq.
    setoid_rewrite <- list_elem_of_In. unfold card_deleted. split.
    + intros (t & (Ht & Hp & Hg & c & Hc & Hi & Hd) & ->). exists c.
      rewrite Hd. split; [|done]. split; [done|]. split; [done|]. by exists t.
    + intros (c & (Hc & Hd & t & Ht & [Hp Hg] & Hi) & ->). exists t. split; [|done].
      repeat split; try done. exists c. by destruct (deleted_at c).
Qed.

End TagRepoFacts.

Module TagRepoTheorems.
Import TagRepo TagRepoFacts.

(** [set_tags_for_card] replaces the tags of a card: it succeeds exactly when the
    list is empty, or the card and project exist and no tag comes twice; then the tags
    of the card read back as that list, sorted, the tags of every other card read back
    as before, and no other table changed. When it fails inside a transaction, the
    tags the card had are still there. *)
Theorem set_tags_replaces (E : SqlEngine) (pid card : string) (tags : list string) (now : Z) (db : Db) :
  SqlEngineLaws E -> card_tags_wf db ->
  let r := set_tags_for_card pid card tags now db in
  (fst r = Ok tt <->
     tags = [] \/
     project_exists (bind_text pid) db = true /\ card_exists (bind_text card) (cards db) = true /\
     NoDup (map bind_text tags)) /\
  (fst r = Ok tt ->
     card_tags_wf (snd r) /\ snd r = set_card_tags (card_tags (snd r)) db /\
     list_tags_for_card (snd r) pid card = sort_by str_ltb (map bind_text tags) /\
     forall p c, (bind_text p, bind_text c) <> (bind_text pid, bind_text card) ->
       list_tags_for_card (snd r) p c = list_tags_for_card db p c) /\
  (fst r <> Ok tt -> transaction (set_tags_for_card pid card tags now) db = (fst r, db)).
Proof.
  intros L W. cbv zeta.
  assert (Hok : tags = [] \/ project_exists (bind_text pid) db = true /\
      card_exists (bind_text card) (cards db) = true /\ NoDup (map bind_text tags) ->
    set_tags_for_card pid card tags now db =
      (Ok tt, set_card_tags (other_tags pid card db ++ tag_rows pid card tags now) db) /\
    NoDup (map bind_text tags)).
  { intros [->|(Hp & Hc & Hn)]; [|by split; [apply set_tags_ok|]].
    split; [|constructor]. cbn. by rewrite app_nil_r. }
  split; [|split].
  - split; [|by intros [-> _]%Hok].
    destruct (set_tags_for_card _ _ _ _ db) as [res db'] eqn:Er. cbn. intros ->.
    by apply set_tags_inv in Er.
  - destruct (set_tags_for_card _ _ _ _ db) as [res db'] eqn:Er. cbn. intros ->.
    apply set_tags_inv in Er as Hc. destruct (Hok Hc) as [[= ->] Hn]. clear Hok Hc.
    split; [by apply set_tags_wf|]. split; [done|].
    split; [|intros p c Hne]; rewrite !list_tags_sorted; cbn [card_tags set_card_tags].
    + rewrite filter_of_card_set. unfold tag_rows. by rewrite map_map.
    + by rewrite filter_other_card_set.
  - unfold transaction. destruct (set_tags_for_card _ _ _ _ db) as [[[]|e] db']; [done|]. done.
Qed.

(** the index a card's body gives: writing the tags [extract_tags] finds never
    fails for a card of the database, and then the card turns up in the search for a
    tag exactly when the tag is one of them and the card is not in the trash, whatever
    rows the table held before. *)
Theorem extracted_tags_searchable (E : SqlEngine) (md_parse : bytes -> list TagExtractor.MdEvent)
    (body : bytes) (pid card : string) (now : Z) (db : Db) (tag : bytes) :
  SqlEngineLaws E -> cards_wf db ->
  project_exists (bind_text pid) db = true -> card_exists (bind_text card) (cards db) = true ->
  TagExtractor.is_valid_tag tag = true ->
  let found := TagExtractor.extract_tags md_parse body in
  exists db', set_tags_for_card pid card (map string_of found) now db = (Ok tt, db') /\
    (bind_text card ∈ list_card_ids_with_tag db' pid (string_of tag) <->
     tag ∈ found /\ card_is_live db (bind_text card) = true).
Proof.
  intros L W Hp Hc Htag found.
  assert (NoDup found /\ forall t, t ∈ found -> TagExtractor.is_valid_tag t = true) as [Hn Hv].
  { destruct (TagFacts.parse_tags_wf md_parse body) as [_ Hn Hv]. split; [done|]. intros t. apply Hv. }
  assert (map bind_text (map string_of found) = map string_of found) as Hb.
  { rewrite map_map. apply map_ext_in. intros t Ht%list_elem_of_In. by apply valid_tag_bound, Hv. }
  eexists. split.
  { apply set_tags_ok; [done|done|]. rewrite Hb.
    assert (Inj (=) (=) string_of) as Hi.
    { intros x y Hxy. by rewrite <- (bytes_of_string_of x), Hxy, bytes_of_string_of. }
    by apply (NoDup_fmap_2 string_of). }
  rewrite list_ids_elem by apply W. cbn [cards set_card_tags].
  change (card_is_live (set_card_tags ?t db)) with (card_is_live db).
  apply and_iff_compat_r. unfold live_tag_row. cbn [card_tags set_card_tags].
  setoid_rewrite elem_of_app. rewrite (valid_tag_bound tag Htag). split.
  - intros (t & [Ht|Ht] & H1 & H2 & H3).
    + apply elem_of_list_filter in Ht as [_ Ht]. unfold tag_of_card in Ht.
      by rewrite H1, H3, !String.eqb_refl in Ht.
    + unfold tag_rows in Ht. rewrite <- (map_map bind_text (fun s => mkCardTag _ _ s now)), Hb in Ht.
      apply elem_of_map_id in Ht as (s & (u & Hu & ->)%elem_of_map_id & ->). cbn in H2.
      rewrite <- (bytes_of_string_of tag), <- H2, bytes_of_string_of. done.
  - intros Hin. exists (mkCardTag (bind_text pid) (bind_text card) (string_of tag) now).
    split; [|done]. right. unfold tag_rows.
    rewrite <- (map_map bind_text (fun s => mkCardTag _ _ s now)), Hb. apply elem_of_map_id.
    exists (string_of tag). split; [|done]. apply elem_of_map_id. by exists tag.
Qed.

(** [list_project_tags] lists every tag some live card of the project carries,
    once, with the number of live cards that carry it, most used first and ties by
    name; rows of trashed cards do not count. *)
Theorem project_tags_count_live_cards (E : SqlEngine) (db : Db) (pid : string) :
  SqlEngineLaws E -> cards_wf db -> card_tags_wf db ->
  Z.of_nat (length (cards db)) < 2 ^ 31 ->
  let l := list_project_tags db pid in
  NoDup (map fst l) /\ StronglySorted (cmp_le by_count) l /\
  forall t n, (t, n) ∈ l <->
    0 < n /\
    n = Z.of_nat (length (list_filter (fun c => negb (card_deleted c) && carries pid t db c) (cards db))).
Proof.
  intros L W Wt Hlen l.
  set (g := group_tags (project_rows pid db)).
  assert (Hcount : forall t n, (t, n) ∈ g <-> 0 < n /\
    n = Z.of_nat (length (list_filter (fun c => negb (card_deleted c) && carries pid t db c) (cards db)))).
  { intros t n. unfold g. rewrite group_tags_count, count_rows_cards by done. tauto. }
  assert (l = sql_select (fun _ => true) by_count g) as ->.
  { unfold l, list_project_tags. fold (project_rows pid db) g.
    rewrite <- (map_id (sql_select _ _ g)) at 2. apply map_ext_in.
    intros [t n] [Hin _]%list_elem_of_In%sql_select_elem. cbn [fst snd]. f_equal.
    apply Hcount in Hin as [Hpos ->]. unfold wrap_int.
    assert (length (list_filter (fun c => negb (card_deleted c) && carries pid t db c) (cards db))
            <= length (cards db))%nat as Hle by apply List.filter_length_le.
    rewrite Z.mod_small; lia. }
  split; [|split; [by apply sql_select_sorted; apply _|]].
  - rewrite sql_select_perm, list_filter_all by done. apply group_tags_nodup.
  - intros t n. rewrite sql_select_elem, <- Hcount. naive_solver.
Qed.

(** Two cards, one of them in the trash, that carry the same tag. *)
Definition tag_card (id : string) (deleted : option Z) : Card :=
  mkCard id "p" id id None (f64_of_Z 1) 1 1 deleted.
Definition tag_db : Db :=
  core_db [mkProject "p" "Notes" "/p" None None "plain" None Uuid4 0 0]
    [tag_card "a" None; tag_card "b" (Some 3)] []
    [mkCardTag "p" "a" "todo" 1; mkCardTag "p" "b" "todo" 2] [] [].

Lemma tag_db_wf : cards_wf tag_db.
Proof.
  split; cbn [tag_db cards map].
  1, 6: apply (bool_decide_unpack _); vm_compute; exact I.
  all: intros c Hc; repeat (apply elem_of_cons in Hc as [->|Hc]; [by vm_compute|]); set_solver.
Qed.

Lemma tag_db_tags_wf : card_tags_wf tag_db.
Proof. apply (bool_decide_unpack _). vm_compute. exact I. Qed.

Example set_tags_replaces_witness :
  @list_tags_for_card reference_engine
    (snd (set_tags_for_card "p" "a" ["work"; "idea"] 5 tag_db)) "p" "a" =
  sort_by str_ltb (map bind_text ["work"; "idea"]).
Proof.
  refine (proj1 (proj2 (proj2 (proj1 (proj2
    (set_tags_replaces reference_engine "p" "a" ["work"; "idea"] 5 tag_db _ tag_db_tags_wf)) _)))).
  vm_compute. reflexivity.
Defined.

Example extracted_tags_searchable_witness :
  let found := TagExtractor.extract_tags TagTheorems.whole_text (bytes_of "Ship it #Todo now") in
  exists db', set_tags_for_card "p" "a" (map string_of found) 9 tag_db = (Ok tt, db') /\
    (bind_text "a" ∈ @list_card_ids_with_tag reference_engine db' "p" (string_of (bytes_of "todo")) <->
     bytes_of "todo" ∈ found /\ card_is_live tag_db (bind_text "a") = true).
Proof.
  apply (extracted_tags_searchable reference_engine TagTheorems.whole_text
    (bytes_of "Ship it #Todo now") "p" "a" 9 tag_db (bytes_of "todo") _ tag_db_wf);
    vm_compute; reflexivity.
Defined.

Example project_tags_count_live_cards_witness :
  ("todo", 1) ∈ @list_project_tags reference_engine tag_db "p".
Proof.
  apply (project_tags_count_live_cards reference_engine tag_db "p" _ tag_db_wf tag_db_tags_wf);
    vm_compute; [reflexivity|split; reflexivity].
Defined.

End TagRepoTheorems.
