(* ===== verification/MilestoneRepo.v ===== *)
(** * Milestones

    [src/src/card/MilestoneRepo.cpp]: the index over the milestones of the cards,
    replaced as a whole for one card and searched by time. *)

From stdpp Require Import base list sets strings numbers sorting.
From S2P Require Import Prelude Double Model Text Database.

Module MilestoneRepo.

Definition bind_milestone (m : Milestone) : Milestone :=
  mkMilestone (bind_text (milestone_id m)) (bind_text (ms_project_id m)) (bind_text (ms_card_id m))
    (start_at m) (end_at m) (all_day m) (bind_text_optional (ms_kind m))
    (bind_text_optional (ms_description m)) (ms_created_at m) (ms_updated_at m).

(** The [WHERE project_id = ? AND card_id = ?] of the statements. *)
Definition milestone_of_card (project_id card : string) (m : Milestone) : bool :=
  String.eqb (ms_project_id m) (bind_text project_id)
  && String.eqb (ms_card_id m) (bind_text card).

Definition delete_milestone_rows (project_id card : string) (db : Db) : option Db :=
  Some (set_milestones
    (list_filter (fun m => negb (milestone_of_card project_id card m)) (milestones db)) db).

(** [milestone_id] is the primary key of the whole table. *)
Definition insert_milestone_row (m : Milestone) (db : Db) : option Db :=
  if negb (existsb (fun d => String.eqb (milestone_id d) (milestone_id m)) (milestones db))
     && project_exists (ms_project_id m) db && card_exists (ms_card_id m) (cards db)
  then Some (set_milestones (milestones db ++ [m]) db) else None.

Definition replace_for_card (project_id card : string) (ms : list Milestone) : Repo unit :=
  exec "delete milestones failed" (delete_milestone_rows project_id card) ;;;
  for_each ms (fun m =>
    if negb (String.eqb (ms_project_id m) project_id) || negb (String.eqb (ms_card_id m) card)
    then throw (Runtime "milestone project_id/card_id mismatch")
    else exec "insert milestone failed" (insert_milestone_row (bind_milestone m))).

Definition delete_for_card (project_id card : string) : Repo unit :=
  exec "delete milestones failed" (delete_milestone_rows project_id card).

(** [ORDER BY start_at ASC] *)
Definition by_start : Milestone -> Milestone -> comparison := cmp_on start_at Z.compare.

Definition range_clause (project_id : string) (from to : Z) (m : Milestone) : bool :=
  String.eqb (ms_project_id m) (bind_text project_id)
  && Z.leb from (start_at m) && Z.leb (start_at m) to.

Section Queries.
Context {E : SqlEngine}.

Definition list_for_card (db : Db) (project_id card : string) : list Milestone :=
  sql_select (milestone_of_card project_id card) by_start (milestones db).

Definition list_in_range (db : Db) (project_id : string) (from to : Z) : list Milestone :=
  sql_select (range_clause project_id from to) by_start
    (join_live_cards ms_card_id db (milestones db)).

End Queries.
End MilestoneRepo.

Module MilestoneFacts.
Import MilestoneRepo.

Definition milestones_wf (db : Db) : Prop := NoDup (map milestone_id (milestones db)).

Definition other_milestones (pid card : string) (db : Db) : list Milestone :=
  list_filter (fun m => negb (milestone_of_card pid card m)) (milestones db).

(** What a list of milestones must be to replace those of a card: each names the card,
    the card exists, and no id is used twice or by another card. *)
Record replaceable (pid card : string) (ms : list Milestone) (db : Db) : Prop := {
  rp_owner : Forall (fun m => ms_project_id m = pid /\ ms_card_id m = card) ms;
  rp_card : ms <> [] -> project_exists (bind_text pid) db = true /\
                        card_exists (bind_text card) (cards db) = true;
  rp_ids : NoDup (map (fun m => bind_text (milestone_id m)) ms);
  rp_fresh : forall m d, m ∈ ms -> d ∈ milestones db -> milestone_id d <> bind_text (milestone_id m)
}.

Lemma insert_milestone_row_spec m db db' :
  insert_milestone_row m db = Some db' <->
  db' = set_milestones (milestones db ++ [m]) db /\ milestone_id m ∉ map milestone_id (milestones db) /\
  project_exists (ms_project_id m) db = true /\ card_exists (ms_card_id m) (cards db) = true.
Proof.
  unfold insert_milestone_row.
  assert (existsb (fun d => String.eqb (milestone_id d) (milestone_id m)) (milestones db) = true <->
          milestone_id m ∈ map milestone_id (milestones db)) as Hk.
  { rewrite existsb_exists, elem_of_map_id. setoid_rewrite String.eqb_eq.
    setoid_rewrite list_elem_of_In. split; intros (x & Hx & He); by exists x. }
  destruct (existsb _ (milestones db)); [naive_solver|].
  destruct (project_exists (ms_project_id m) db), (card_exists (ms_card_id m) (cards db)); cbn;
    naive_solver.
Qed.

(** The loop of [replace_for_card]. *)
Definition insert_milestones (pid card : string) (ms : list Milestone) : Repo unit :=
  for_each ms (fun m =>
    if negb (String.eqb (ms_project_id m) pid) || negb (String.eqb (ms_card_id m) card)
    then throw (Runtime "milestone project_id/card_id mismatch")
    else exec "insert milestone failed" (insert_milestone_row (bind_milestone m))).

Lemma insert_milestones_spec pid card ms db db' :
  insert_milestones pid card ms db = (Ok tt, db') <->
  db' = set_milestones (milestones db ++ map bind_milestone ms) db /\ replaceable pid card ms db.
Proof.
  revert db. induction ms as [|m ms IH]; intros db; unfold insert_milestones; cbn [for_each].
  - cbn. rewrite app_nil_r. split.
    + intros [= <-]. split; [by destruct db|]. split; try done; try constructor. set_solver.
    + intros [-> _]. by destruct db.
  - unfold bind at 1. fold (insert_milestones pid card ms).
    destruct (String.eqb_spec (ms_project_id m) pid) as [Hp|Hp].
    2: { split; [done|]. intros [_ [Ho _ _ _]]. apply Forall_cons_1 in Ho. naive_solver. }
    destruct (String.eqb_spec (ms_card_id m) card) as [Hc|Hc].
    2: { split; [done|]. intros [_ [Ho _ _ _]]. apply Forall_cons_1 in Ho. naive_solver. }
    cbn [negb orb]. unfold exec at 1.
    pose proof (insert_milestone_row_spec (bind_milestone m) db) as Hrow. cbn in Hrow.
    rewrite Hp, Hc in Hrow.
    destruct (insert_milestone_row _ db) as [db1|].
    + destruct (proj1 (Hrow db1) eq_refl) as (-> & Hid & Hpe & Hce). rewrite IH. cbn.
      rewrite <- app_assoc. apply and_iff_compat_l. split; intros [Ho He Hn Hf]; split.
      * by constructor.
      * done.
      * cbn. apply NoDup_cons. split; [|done]. intros (x & Hx & Hxe)%elem_of_map_id.
        apply (Hf x (bind_milestone m) Hx); [set_solver|]. cbn. congruence.
      * intros x d [->|Hx]%elem_of_cons Hd; [|apply Hf; [done|set_solver]].
        intros Hde. apply Hid, elem_of_map_id. by exists d.
      * by apply Forall_cons_1 in Ho as [_ ?].
      * done.
      * cbn in Hn. by apply NoDup_cons in Hn as [_ ?].
      * intros x d Hx [Hd| ->%list_elem_of_singleton]%elem_of_app; [apply Hf; set_solver|].
        cbn in *. apply NoDup_cons in Hn as [Hn _]. intros Hxe. apply Hn, elem_of_map_id.
        exists x. by rewrite Hxe.
    + split; [done|]. intros [_ [Ho He Hn Hf]]. exfalso.
      enough (None = Some (set_milestones (milestones db ++ [bind_milestone m]) db)) by done.
      apply Hrow. split; [done|]. split; [|by apply He].
      intros (d & Hd & Hde)%elem_of_map_id. apply (Hf m d); [set_solver|done|done].
Qed.

Lemma of_card_bound pid card m :
  ms_project_id m = pid -> ms_card_id m = card -> milestone_of_card pid card (bind_milestone m) = true.
Proof. intros <- <-. unfold milestone_of_card. cbn. by rewrite !String.eqb_refl. Qed.

(** The rows the statements select after a replacement. *)
Lemma filter_milestones_set pid card ms db :
  Forall (fun m => ms_project_id m = pid /\ ms_card_id m = card) ms ->
  list_filter (milestone_of_card pid card) (other_milestones pid card db ++ map bind_milestone ms) =
  map bind_milestone ms.
Proof.
  intros Ho. apply filter_replaced. intros x (m & Hm & ->)%elem_of_map_id.
  rewrite Forall_forall in Ho. destruct (Ho m Hm). by apply of_card_bound.
Qed.

Lemma filter_other_milestones_set pid card ms db p c :
  Forall (fun m => ms_project_id m = pid /\ ms_card_id m = card) ms ->
  (bind_text p, bind_text c) <> (bind_text pid, bind_text card) ->
  list_filter (milestone_of_card p c) (other_milestones pid card db ++ map bind_milestone ms) =
  list_filter (milestone_of_card p c) (milestones db).
Proof.
  intros Ho Hne. apply filter_not_replaced.
  - intros t. unfold milestone_of_card. intros [->%String.eqb_eq ->%String.eqb_eq]%andb_true_iff.
    apply not_true_iff_false. intros [H1%String.eqb_eq H2%String.eqb_eq]%andb_true_iff. congruence.
  - intros x (m & Hm & ->)%elem_of_map_id. rewrite Forall_forall in Ho.
    destruct (Ho m Hm). by apply of_card_bound.
Qed.

End MilestoneFacts.

Module MilestoneTheorems.
Import MilestoneRepo MilestoneFacts.

(** [replace_for_card] succeeds exactly for a replaceable list of milestones; then
    the milestones of the card read back as that list ordered by start, those of every
    other card as before, and no other table changed. Otherwise it throws, and inside a
    transaction the card keeps the milestones it had. *)
Theorem replace_milestones_correct (E : SqlEngine) (pid card : string) (ms : list Milestone) (db : Db) :
  SqlEngineLaws E -> milestones_wf db ->
  let r := replace_for_card pid card ms db in
  (fst r = Ok tt <->
     replaceable pid card ms (set_milestones (other_milestones pid card db) db)) /\
  (fst r = Ok tt ->
     milestones_wf (snd r) /\ snd r = set_milestones (milestones (snd r)) db /\
     list_for_card (snd r) pid card ≡ₚ map bind_milestone ms /\
     StronglySorted (cmp_le by_start) (list_for_card (snd r) pid card) /\
     forall p c, (bind_text p, bind_text c) <> (bind_text pid, bind_text card) ->
       list_for_card (snd r) p c ≡ₚ list_for_card db p c) /\
  (fst r <> Ok tt -> transaction (replace_for_card pid card ms) db = (fst r, db)).
Proof.
  intros L W. cbv zeta.
  pose proof (insert_milestones_spec pid card ms
    (set_milestones (other_milestones pid card db) db)) as Hspec.
  assert (replace_for_card pid card ms db =
    insert_milestones pid card ms (set_milestones (other_milestones pid card db) db)) as -> by done.
  split; [|split].
  - destruct (insert_milestones _ _ _ _) as [res db'] eqn:Er. cbn. split.
    + intros ->. by apply (Hspec db').
    + intros Hr. pose proof (proj2 (Hspec _) (conj eq_refl Hr)) as [= -> _]. done.
  - destruct (insert_milestones _ _ _ _) as [res db'] eqn:Er. cbn. intros ->.
    destruct (proj1 (Hspec db') eq_refl) as [-> [Ho He Hn Hf]]. cbn in Hf. cbn.
    split; [|split; [done|]].
    + unfold milestones_wf. cbn. rewrite map_app. apply list.NoDup_app. repeat split.
      * by apply NoDup_map_filter.
      * intros i (d & Hd & ->)%elem_of_map_id (b & (m & Hm & ->)%elem_of_map_id & Hi)%elem_of_map_id.
        by apply (Hf m d).
      * by rewrite map_map.
    + unfold list_for_card. cbn [milestones set_milestones].
      split; [by rewrite sql_select_perm, filter_milestones_set|].
      split; [apply sql_select_sorted, _|]. intros p c Hne.
      by rewrite !sql_select_perm, filter_other_milestones_set.
  - unfold transaction, replace_for_card, bind at 1, exec at 1. cbn [delete_milestone_rows].
    fold (other_milestones pid card db). fold (insert_milestones pid card ms).
    destruct (insert_milestones _ _ _ _) as [[[]|e] db']; [done|]. done.
Qed.

(** [list_in_range] returns, by start, each milestone of the project that starts
    inside the closed interval and belongs to a card that is not in the trash, once. *)
Theorem milestones_in_range_correct (E : SqlEngine) (db : Db) (pid : string) (from to : Z) :
  SqlEngineLaws E -> cards_wf db -> milestones_wf db ->
  let l := list_in_range db pid from to in
  NoDup l /\ StronglySorted (cmp_le by_start) l /\
  forall m, m ∈ l <->
    m ∈ milestones db /\ ms_project_id m = bind_text pid /\ from <= start_at m <= to /\
    exists c, c ∈ cards db /\ card_id c = ms_card_id m /\ deleted_at c = None.
Proof.
  intros L W Wm l. unfold l, list_in_range.
  split; [|split; [apply sql_select_sorted, _|]].
  - rewrite sql_select_perm, join_live_cards_filter by apply W.
    apply (NoDup_fmap_1 milestone_id). by do 2 apply (NoDup_map_filter milestone_id).
  - intros m. rewrite sql_select_elem, join_live_cards_filter, elem_of_list_filter by apply W.
    rewrite card_is_live_spec. unfold range_clause.
    rewrite !andb_true_iff, String.eqb_eq, !Z.leb_le. tauto.
Qed.

Definition ms_card (id : string) (deleted : option Z) : Card :=
  mkCard id "p" id id None (f64_of_Z 1) 1 1 deleted.
Definition sample_milestone (id card : string) (start : Z) : Milestone :=
  mkMilestone id "p" card start None false (Some "Deadline") None 1 1.
Definition ms_db : Db :=
  core_db [mkProject "p" "Notes" "/p" None None "plain" None Uuid4 0 0]
    [ms_card "a" None; ms_card "b" (Some 3)] [] []
    [sample_milestone "m1" "a" 10; sample_milestone "m2" "b" 11] [].

Lemma ms_db_wf : cards_wf ms_db.
Proof.
  split; cbn [ms_db cards map].
  1, 6: apply (bool_decide_unpack _); vm_compute; exact I.
  all: intros c Hc; repeat (apply elem_of_cons in Hc as [->|Hc]; [by vm_compute|]); set_solver.
Qed.

Lemma ms_db_ids : milestones_wf ms_db.
Proof. apply (bool_decide_unpack _). vm_compute. exact I. Qed.

Example replace_milestones_correct_witness :
  @list_for_card reference_engine
    (snd (replace_for_card "p" "a" [sample_milestone "m4" "a" 9; sample_milestone "m3" "a" 2] ms_db))
    "p" "a" ≡ₚ map bind_milestone [sample_milestone "m4" "a" 9; sample_milestone "m3" "a" 2].
Proof.
  refine (proj1 (proj2 (proj2 (proj1 (proj2 (replace_milestones_correct reference_engine "p" "a"
    [sample_milestone "m4" "a" 9; sample_milestone "m3" "a" 2] ms_db _ ms_db_ids)) _)))).
  vm_compute. reflexivity.
Defined.

Example milestones_in_range_correct_witness :
  sample_milestone "m1" "a" 10 ∈ @list_in_range reference_engine ms_db "p" 10 12.
Proof.
  apply (milestones_in_range_correct reference_engine ms_db "p" 10 12 _ ms_db_wf ms_db_ids).
  split; [left|]. split; [reflexivity|]. split; [split; discriminate|].
  exists (ms_card "a" None). split; [left|split; reflexivity].
Defined.

End MilestoneTheorems.
