(* ===== verification/ProjectRepo.v ===== *)
(** * Projects

    [src/src/project/ProjectRepo.cpp]: the rows everything else belongs to. Removing a
    project removes what belongs to it through the foreign keys of [schema.sql]; the
    invariant [db_wf] is the referential integrity of the tables modelled here. *)

From stdpp Require Import base list sets strings numbers sorting.
From S2P Require Import Prelude Double Model Text Database CardRepo LinkRepo.

Module ProjectRepo.

Definition bind_project (p : Project) : Project :=
  mkProject (bind_text (project_id p)) (bind_text (project_name p)) (bind_text (root_path p))
    (bind_text_optional (git_remote_url p)) (bind_text_optional (git_provider p))
    (bind_text (privacy_mode p)) (bind_text_optional (project_key_id p)) (id_scheme p)
    (project_created_at p) (project_updated_at p).

(** [CHECK(privacy_mode IN ('encrypted_git', 'plain'))]. The id scheme of a row is the
    text of one of the two schemes, which is the other check. *)
Definition privacy_mode_ok (mode : string) : bool :=
  String.eqb mode "encrypted_git" || String.eqb mode "plain".

Definition insert_project (p : Project) (db : Db) : option Db :=
  if negb (project_exists (project_id p) db) && privacy_mode_ok (privacy_mode p)
  then Some (set_projects (projects db ++ [p]) db) else None.

(** [UPDATE projects SET ... WHERE project_id = id]. *)
Definition update_project (id : string) (f : Project -> Project) (db : Db) : option Db :=
  let t := map (fun p => if String.eqb (project_id p) id then f p else p) (projects db) in
  if forallb (fun p => if String.eqb (project_id p) id then privacy_mode_ok (privacy_mode (f p))
                       else true) (projects db)
  then Some (set_projects t db) else None.

(** [DELETE FROM projects WHERE project_id = id] with [ON DELETE CASCADE]: the rows of
    every table that name the project go, and with its cards their tags and milestones;
    a card elsewhere whose parent goes loses it ([ON DELETE SET NULL]). *)
Definition delete_project_row (id : string) (db : Db) : Db :=
  if negb (project_exists id db) then db
  else
    let gone card := existsb (fun c => String.eqb (card_project_id c) id
                                       && String.eqb (card_id c) card) (cards db) in
    let orphan c := match parent_card_id c with
                    | Some p => if gone p then set_card_parent None c else c
                    | None => c
                    end in
    mkDb
      (list_filter (fun p => negb (String.eqb (project_id p) id)) (projects db))
      (map orphan (list_filter (fun c => negb (String.eqb (card_project_id c) id)) (cards db)))
      (list_filter (fun l => negb (String.eqb (link_project_id l) id)) (card_links db))
      (list_filter (fun t => negb (String.eqb (tag_project_id t) id) && negb (gone (tag_card_id t)))
         (card_tags db))
      (list_filter (fun m => negb (String.eqb (ms_project_id m) id) && negb (gone (ms_card_id m)))
         (milestones db))
      (list_filter (fun s => negb (String.eqb (sync_project_id s) id)) (project_sync_state db))
    (resource_tables db).

(** The whole statement; a placement elsewhere of an asset in a location of the project
    stands in its way. *)
Definition delete_project (id : string) (db : Db) : option Db :=
  if negb (project_exists id db) then Some db
  else match delete_project_resources id (resource_tables db) with
       | None => None
       | Some t => Some (set_resource_tables t (delete_project_row id db))
       end.

Definition create (project : Project) : Repo unit :=
  exec "insert project failed" (insert_project (bind_project project)).

Section Queries.
Context {E : SqlEngine}.

Definition get (db : Db) (id : string) : option Project :=
  head (sql_select (fun p => String.eqb (project_id p) (bind_text id)) cmp_true (projects db)).

(** [ORDER BY updated_at DESC] *)
Definition list_projects (db : Db) : list Project :=
  sql_select (fun _ => true) (cmp_rev (cmp_on project_updated_at Z.compare)) (projects db).

End Queries.

(** The assignments of the update methods. *)
Definition with_name (name : string) (at_ : Z) (p : Project) : Project :=
  mkProject (project_id p) (bind_text name) (root_path p) (git_remote_url p) (git_provider p)
    (privacy_mode p) (project_key_id p) (id_scheme p) (project_created_at p) at_.
Definition with_root_path (path : string) (at_ : Z) (p : Project) : Project :=
  mkProject (project_id p) (project_name p) (bind_text path) (git_remote_url p) (git_provider p)
    (privacy_mode p) (project_key_id p) (id_scheme p) (project_created_at p) at_.
Definition with_git_remote (url : option string) (at_ : Z) (p : Project) : Project :=
  mkProject (project_id p) (project_name p) (root_path p) (bind_text_optional url) (git_provider p)
    (privacy_mode p) (project_key_id p) (id_scheme p) (project_created_at p) at_.
Definition with_git_provider (provider : option string) (at_ : Z) (p : Project) : Project :=
  mkProject (project_id p) (project_name p) (root_path p) (git_remote_url p)
    (bind_text_optional provider) (privacy_mode p) (project_key_id p) (id_scheme p)
    (project_created_at p) at_.
Definition with_privacy_mode (mode : string) (at_ : Z) (p : Project) : Project :=
  mkProject (project_id p) (project_name p) (root_path p) (git_remote_url p) (git_provider p)
    (bind_text mode) (project_key_id p) (id_scheme p) (project_created_at p) at_.
Definition with_key_id (key : option string) (at_ : Z) (p : Project) : Project :=
  mkProject (project_id p) (project_name p) (root_path p) (git_remote_url p) (git_provider p)
    (privacy_mode p) (bind_text_optional key) (id_scheme p) (project_created_at p) at_.
Definition with_id_scheme (scheme : IdScheme) (at_ : Z) (p : Project) : Project :=
  mkProject (project_id p) (project_name p) (root_path p) (git_remote_url p) (git_provider p)
    (privacy_mode p) (project_key_id p) scheme (project_created_at p) at_.
Definition with_updated_at (at_ : Z) (p : Project) : Project :=
  mkProject (project_id p) (project_name p) (root_path p) (git_remote_url p) (git_provider p)
    (privacy_mode p) (project_key_id p) (id_scheme p) (project_created_at p) at_.

Definition update_name (id name : string) (at_ : Z) : Repo unit :=
  exec "update project name failed" (update_project (bind_text id) (with_name name at_)).
Definition update_root_path (id path : string) (at_ : Z) : Repo unit :=
  exec "update project root failed" (update_project (bind_text id) (with_root_path path at_)).
Definition update_git_remote (id : string) (url : option string) (at_ : Z) : Repo unit :=
  exec "update git remote failed" (update_project (bind_text id) (with_git_remote url at_)).
Definition update_git_provider (id : string) (provider : option string) (at_ : Z) : Repo unit :=
  exec "update git provider failed" (update_project (bind_text id) (with_git_provider provider at_)).
Definition update_privacy_mode (id mode : string) (at_ : Z) : Repo unit :=
  exec "update privacy mode failed" (update_project (bind_text id) (with_privacy_mode mode at_)).
Definition update_project_key_id (id : string) (key : option string) (at_ : Z) : Repo unit :=
  exec "update project key id failed" (update_project (bind_text id) (with_key_id key at_)).
Definition update_id_scheme (id : string) (scheme : IdScheme) (at_ : Z) : Repo unit :=
  exec "update project id scheme failed" (update_project (bind_text id) (with_id_scheme scheme at_)).
Definition touch_updated (id : string) (at_ : Z) : Repo unit :=
  exec "touch project failed" (update_project (bind_text id) (with_updated_at at_)).

Definition remove (id : string) : Repo unit :=
  exec "delete project failed" (delete_project (bind_text id)).

End ProjectRepo.

Module ProjectRepoFacts.
Import ProjectRepo.

(** The integrity of the tables: the constraints [schema.sql] declares. *)
Record db_wf (db : Db) : Prop := {
  wf_project_ids : NoDup (map project_id (projects db));
  wf_privacy : forall p, p ∈ projects db -> privacy_mode_ok (privacy_mode p) = true;
  wf_cards : cards_wf db;
  wf_links : LinkRepoFacts.links_wf db;
  wf_tag_keys : card_tags_wf db;
  wf_tag_refs : forall t, t ∈ card_tags db ->
    project_exists (tag_project_id t) db = true /\ card_exists (tag_card_id t) (cards db) = true;
  wf_ms_ids : NoDup (map milestone_id (milestones db));
  wf_ms_refs : forall m, m ∈ milestones db ->
    project_exists (ms_project_id m) db = true /\ card_exists (ms_card_id m) (cards db) = true;
  wf_sync_ids : NoDup (map sync_project_id (project_sync_state db));
  wf_sync_refs : forall s, s ∈ project_sync_state db -> project_exists (sync_project_id s) db = true
}.

Lemma project_exists_spec id db : project_exists id db = true <-> id ∈ map project_id (projects db).
Proof.
  unfold project_exists. rewrite existsb_exists, elem_of_map_id. setoid_rewrite String.eqb_eq.
  setoid_rewrite list_elem_of_In. split; intros (p & Hp & He); by exists p.
Qed.

(** What a change of the projects alone must keep. *)
Lemma db_wf_set_projects t db :
  NoDup (map project_id t) -> (forall p, p ∈ t -> privacy_mode_ok (privacy_mode p) = true) ->
  (forall i, i ∈ map project_id (projects db) -> i ∈ map project_id t) ->
  db_wf db -> db_wf (set_projects t db).
Proof.
  intros Hn Hm Hsub [W1 W2 [C1 C2 C3 C4 C5 C6] [L1 L2] W5 W6 W7 W8 W9 W10].
  assert (forall i, project_exists i db = true -> project_exists i (set_projects t db) = true) as Hp.
  { intros i. rewrite !project_exists_spec. apply Hsub. }
  constructor; [done|done|constructor; try done| |done| |done| |done|]; cbn.
  - intros c Hc. by apply Hp, C5.
  - constructor; [done|]. intros l Hl. by apply Hp, L2.
  - intros g Hg. split; [by apply Hp, W6|by apply W6].
  - intros m Hg. split; [by apply Hp, W8|by apply W8].
  - intros s Hs. by apply Hp, W10.
Qed.

Lemma insert_project_spec p db db' :
  insert_project p db = Some db' <->
  db' = set_projects (projects db ++ [p]) db /\ project_id p ∉ map project_id (projects db) /\
  privacy_mode_ok (privacy_mode p) = true.
Proof.
  unfold insert_project. pose proof (project_exists_spec (project_id p) db) as Hid.
  destruct (project_exists _ db); [naive_solver|]. destruct (privacy_mode_ok _); naive_solver.
Qed.

Lemma db_wf_insert_project p db db' : insert_project p db = Some db' -> db_wf db -> db_wf db'.
Proof.
  intros (-> & Hid & Hm)%insert_project_spec W. apply db_wf_set_projects; [| | |done].
  - rewrite map_app. apply list.NoDup_app. repeat split; [apply W| |apply NoDup_singleton].
    intros x Hx ->%list_elem_of_singleton. done.
  - intros q [Hq| ->%list_elem_of_singleton]%elem_of_app; [by apply W|done].
  - intros i Hi. rewrite map_app. set_solver.
Qed.

Lemma update_project_spec id f db db' :
  update_project id f db = Some db' <->
  db' = set_projects (map (fun p => if String.eqb (project_id p) id then f p else p) (projects db)) db /\
  forall p, p ∈ projects db -> project_id p = id -> privacy_mode_ok (privacy_mode (f p)) = true.
Proof.
  unfold update_project. destruct (forallb _ (projects db)) eqn:Ef.
  - rewrite forallb_forall in Ef. split; [|by intros [-> _]]. intros [= <-]. split; [done|].
    intros p Hp%list_elem_of_In He. specialize (Ef p Hp). by rewrite (proj2 (String.eqb_eq _ _) He) in Ef.
  - split; [done|]. intros [_ H]. exfalso. apply not_true_iff_false in Ef. apply Ef, forallb_forall.
    intros p Hp%list_elem_of_In. destruct (String.eqb_spec (project_id p) id); [by apply H|done].
Qed.

Lemma db_wf_update_project id f db db' :
  (forall p, project_id (f p) = project_id p) -> update_project id f db = Some db' ->
  db_wf db -> db_wf db'.
Proof.
  intros Hf [-> Hm]%update_project_spec W.
  assert (map project_id (map (fun p => if String.eqb (project_id p) id then f p else p) (projects db))
          = map project_id (projects db)) as Hids.
  { rewrite map_map. apply map_ext. intros p. destruct (String.eqb _ _); [apply Hf|done]. }
  apply db_wf_set_projects; [by rewrite Hids; apply W| |by rewrite Hids|done].
  intros q (p & Hp & ->)%elem_of_map_id.
  destruct (String.eqb_spec (project_id p) id); [by apply Hm|by apply W].
Qed.

(** ** Removing a project *)

Section Delete.
Context (id : string) (db : Db).

Definition gone_card (card : string) : bool :=
  existsb (fun c => String.eqb (card_project_id c) id && String.eqb (card_id c) card) (cards db).

Definition orphaned (c : Card) : Card :=
  match parent_card_id c with
  | Some p => if gone_card p then set_card_parent None c else c
  | None => c
  end.

Lemma gone_card_spec i :
  gone_card i = true <-> exists c, c ∈ cards db /\ card_project_id c = id /\ card_id c = i.
Proof.
  unfold gone_card. rewrite existsb_exists. setoid_rewrite andb_true_iff.
  setoid_rewrite String.eqb_eq. setoid_rewrite list_elem_of_In. done.
Qed.

Lemma orphaned_same c :
  card_id (orphaned c) = card_id c /\ card_project_id (orphaned c) = card_project_id c /\
  rel_path (orphaned c) = rel_path c /\ sort_key (orphaned c) = sort_key c.
Proof. unfold orphaned. destruct (parent_card_id c) as [q|]; [destruct (gone_card q)|]; done. Qed.

Definition kept_cards : list Card :=
  list_filter (fun c => negb (String.eqb (card_project_id c) id)) (cards db).

Lemma elem_of_kept c : c ∈ kept_cards <-> c ∈ cards db /\ card_project_id c <> id.
Proof. unfold kept_cards. by rewrite elem_of_list_filter, negb_true_iff, String.eqb_neq. Qed.

Lemma kept_exists (W : cards_wf db) i :
  card_exists i (cards db) = true -> gone_card i = false ->
  card_exists i (map orphaned kept_cards) = true.
Proof.
  rewrite !CardRepoFacts.card_exists_spec, map_map.
  rewrite (map_ext (fun c => card_id (orphaned c)) card_id) by apply orphaned_same.
  rewrite !elem_of_map_id. intros (c & Hc & ->) Hg. exists c. split; [|done]. apply elem_of_kept.
  split; [done|]. intros He. apply not_true_iff_false in Hg. apply Hg, gone_card_spec. by exists c.
Qed.

Lemma kept_cards_wf :
  cards_wf db ->
  (forall c, c ∈ kept_cards ->
     project_exists (card_project_id c) (delete_project_row id db) = true) ->
  cards (delete_project_row id db) = map orphaned kept_cards ->
  cards_wf (delete_project_row id db).
Proof.
  intros W Hp Hc. pose proof W as [W1 W0 W2 W3 W4 W5].
  assert (Hin : forall d, d ∈ cards (delete_project_row id db) ->
    exists c, d = orphaned c /\ c ∈ cards db /\ c ∈ kept_cards).
  { rewrite Hc. intros d (c & Hk & ->)%elem_of_map_id. exists c. split; [done|]. split; [|done].
    by apply elem_of_kept in Hk as [? _]. }
  constructor.
  - rewrite Hc, map_map, (map_ext (fun c => card_id (orphaned c)) card_id) by apply orphaned_same. by apply NoDup_map_filter.
  - intros d (c & -> & Hk & _)%Hin. unfold orphaned.
    destruct (parent_card_id c) as [q|]; [destruct (gone_card q)|]; auto.
    by apply CardRepoFacts.bind_card_set_parent, W0.
  - intros d (c & -> & Hk & _)%Hin. rewrite (proj2 (proj2 (proj2 (orphaned_same c)))). by apply W2.
  - intros d (c & -> & Hk & Hkk)%Hin. specialize (W3 c Hk). rewrite Hc. unfold cards_parent_ok in *.
    unfold orphaned at 1. destruct (parent_card_id c) as [q|] eqn:Hq; [|by rewrite Hq].
    destruct (gone_card q) eqn:Hg; [done|]. rewrite Hq. by apply kept_exists.
  - intros d (c & -> & Hk & Hkk)%Hin. rewrite (proj1 (proj2 (orphaned_same c))). by apply Hp.
  - rewrite Hc, map_map, (map_ext _ (fun c => (card_project_id c, rel_path c))).
    + by apply NoDup_map_filter.
    + intros c. by destruct (orphaned_same c) as (_ & -> & -> & _).
Qed.

Lemma delete_project_row_eq :
  project_exists id db = true ->
  delete_project_row id db =
  mkDb (list_filter (fun p => negb (String.eqb (project_id p) id)) (projects db))
    (map orphaned kept_cards)
    (list_filter (fun l => negb (String.eqb (link_project_id l) id)) (card_links db))
    (list_filter (fun t => negb (String.eqb (tag_project_id t) id) && negb (gone_card (tag_card_id t)))
       (card_tags db))
    (list_filter (fun m => negb (String.eqb (ms_project_id m) id) && negb (gone_card (ms_card_id m)))
       (milestones db))
    (list_filter (fun s => negb (String.eqb (sync_project_id s) id)) (project_sync_state db))
    (resource_tables db).
Proof. unfold delete_project_row. by intros ->. Qed.

Lemma project_exists_deleted i :
  project_exists i (delete_project_row id db) = true <-> project_exists i db = true /\ i <> id.
Proof.
  destruct (project_exists id db) eqn:Hid.
  - rewrite !project_exists_spec, delete_project_row_eq by done. cbn. rewrite !elem_of_map_id.
    setoid_rewrite elem_of_list_filter. setoid_rewrite negb_true_iff. setoid_rewrite String.eqb_neq.
    naive_solver.
  - unfold delete_project_row. rewrite Hid. cbn. split; [|by intros [? _]].
    intros Hi. split; [done|]. intros ->. congruence.
Qed.

Lemma db_wf_delete_project : db_wf db -> db_wf (delete_project_row id db).
Proof.
  intros W. pose proof W as [W1 W2 C [L1 L2] W5 W6 W7 W8 W9 W10].
  pose proof project_exists_deleted as Hpe.
  destruct (project_exists id db) eqn:Hid; [|unfold delete_project_row; by rewrite Hid].
  pose proof (delete_project_row_eq Hid) as Heq.
  constructor; [rewrite Heq; by apply NoDup_map_filter|
    rewrite Heq; intros p [Hp _]%elem_of_list_filter; by apply W2|
    |constructor|rewrite Heq; by apply NoDup_map_filter| |
    rewrite Heq; by apply NoDup_map_filter| |rewrite Heq; by apply NoDup_map_filter|].
  - apply kept_cards_wf; [done| |by rewrite Heq]. intros c [Hc Hne]%elem_of_kept. apply Hpe.
    split; [by apply C|done].
  - rewrite Heq. by apply NoDup_map_filter.
  - intros l. rewrite Heq at 1. cbn. intros [Hl Hne%negb_true_iff%String.eqb_neq]%elem_of_list_filter.
    apply Hpe. split; [by apply L2|done].
  - intros t. rewrite Heq at 1. cbn.
    intros [Ht [Hne%negb_true_iff%String.eqb_neq Hg%negb_true_iff]%andb_true_iff]%elem_of_list_filter.
    destruct (W6 t Ht). split; [by apply Hpe|]. rewrite Heq. by apply kept_exists.
  - intros t. rewrite Heq at 1. cbn.
    intros [Ht [Hne%negb_true_iff%String.eqb_neq Hg%negb_true_iff]%andb_true_iff]%elem_of_list_filter.
    destruct (W8 t Ht). split; [by apply Hpe|]. rewrite Heq. by apply kept_exists.
  - intros l. rewrite Heq at 1. cbn. intros [Hl Hne%negb_true_iff%String.eqb_neq]%elem_of_list_filter.
    apply Hpe. split; [by apply W10|done].
Qed.

Lemma elem_of_projects_deleted p :
  p ∈ projects (delete_project_row id db) <-> p ∈ projects db /\ project_id p <> id.
Proof.
  unfold delete_project_row. destruct (project_exists id db) eqn:He; cbn.
  - by rewrite elem_of_list_filter, negb_true_iff, String.eqb_neq.
  - split; [|by intros [? _]]. intros Hp. split; [done|]. intros <-.
    apply not_true_iff_false in He. apply He, project_exists_spec, elem_of_map_id. by exists p.
Qed.

Lemma elem_of_orphaned c' :
  c' ∈ map orphaned kept_cards <->
  exists c, c ∈ cards db /\ card_project_id c <> id /\
    ((exists p, parent_card_id c = Some p /\ gone_card p = true /\ c' = set_card_parent None c) \/
     ((forall p, parent_card_id c = Some p -> gone_card p = false) /\ c' = c)).
Proof.
  rewrite elem_of_map_id. setoid_rewrite elem_of_kept. split.
  - intros (c & [Hc Hne] & ->). exists c. split; [done|]. split; [done|]. unfold orphaned.
    destruct (parent_card_id c) as [p|]; [|by right].
    destruct (gone_card p) eqn:Hg; [left; by exists p|]. right. split; [|done]. by intros ? [= <-].
  - intros (c & Hc & Hne & Hor). exists c. split; [done|]. unfold orphaned.
    destruct Hor as [(p & -> & -> & ->)|[Hp ->]]; [done|].
    destruct (parent_card_id c) as [p|]; [|done]. by rewrite (Hp p eq_refl).
Qed.

Lemma nothing_gone card : cards_wf db -> project_exists id db = false -> gone_card card = false.
Proof.
  intros W He. apply not_true_iff_false. intros (c & Hc & Hp & _)%gone_card_spec.
  apply not_true_iff_false in He. apply He. rewrite <- Hp. by apply W.
Qed.
End Delete.

(** ** The resources of a project *)

Lemma db_wf_set_resources t db : db_wf db -> db_wf (set_resource_tables t db).
Proof. intros [W1 W2 C C2 W5 W6 W7 W8 W9 W10]. destruct C, C2. split; [done|done|split; done|split; done|done..]. Qed.

(** The rows that are left of the tables of resources. *)
Record project_resources_gone (id : string) (t t' : ResourceTables) : Prop := {
  gone_resources : forall r, r ∈ resources t' <-> r ∈ resources t /\ rr_project_id r <> id;
  gone_metadata : forall m, m ∈ resource_metadata t' <-> m ∈ resource_metadata t /\
    forall r, r ∈ resources t -> rr_id r = md_resource_id m -> rr_project_id r <> id;
  gone_assets : forall a, a ∈ assets t' <-> a ∈ assets t /\ ar_project_id a <> id /\
    forall r, r ∈ resources t -> rr_id r = ar_resource_id a -> rr_project_id r <> id;
  gone_placements : forall x, x ∈ asset_placements t' <-> x ∈ asset_placements t /\
    forall a, a ∈ assets t -> ar_id a = pl_asset_id x -> ar_project_id a <> id /\
      forall r, r ∈ resources t -> rr_id r = ar_resource_id a -> rr_project_id r <> id;
  gone_locations : forall l, l ∈ storage_locations t' <-> l ∈ storage_locations t /\ lr_project_id l <> id
}.

Lemma existsb_false {A} (p : A -> bool) l : existsb p l = false <-> forall x, x ∈ l -> p x = false.
Proof.
  rewrite <- not_true_iff_false, existsb_exists. setoid_rewrite <- list_elem_of_In. split.
  - intros H x Hx. apply not_true_iff_false. intros Hp. apply H. by exists x.
  - intros H (x & Hx & Hp). by rewrite H in Hp.
Qed.

Lemma owned_false {A} (owner key : A -> string) i k l :
  existsb (fun x => String.eqb (owner x) i && String.eqb (key x) k) l = false <->
  forall x, x ∈ l -> key x = k -> owner x <> i.
Proof.
  rewrite existsb_false. split; intros H x Hx.
  - intros <- <-. specialize (H x Hx). by rewrite !String.eqb_refl in H.
  - destruct (String.eqb_spec (owner x) i); [|done]. destruct (String.eqb_spec (key x) k); [|done]. by destruct (H x Hx).
Qed.

Lemma delete_project_resources_Some id t t' : delete_project_resources id t = Some t' ->
  (forall x l, x ∈ asset_placements t -> l ∈ storage_locations t -> lr_project_id l = id ->
     lr_id l = pl_location_id x -> ~ forall a, a ∈ assets t -> ar_id a = pl_asset_id x -> ar_project_id a <> id) /\
  project_resources_gone id t t'.
Proof.
  unfold delete_project_resources, delete_location_rows. cbn. destruct (existsb _ _) eqn:Hx; [done|].
  intros [= <-]. rewrite existsb_false in Hx. split.
  - intros x l Hin Hl Hp Hxl Ha. specialize (Hx x). rewrite owned_false in Hx.
    refine (Hx _ l Hl Hxl Hp). apply elem_of_list_filter. split; [done|]. apply negb_true_iff, owned_false, Ha.
  - constructor; cbn; intros x; rewrite ?elem_of_list_filter, ?negb_true_iff, ?String.eqb_neq, ?owned_false; [tauto|tauto|tauto| |tauto].
    rewrite existsb_false. setoid_rewrite elem_of_list_filter. setoid_rewrite negb_true_iff.
    setoid_rewrite String.eqb_neq. split.
    + intros [[Hx1 H1] H2]. split; [done|]. intros a Ha Hid. split; [by apply H1|].
      specialize (H2 a (conj Ha (H1 a Ha Hid))). rewrite Hid, String.eqb_refl, andb_true_r in H2.
      by apply owned_false.
    + intros [Hx1 H1]. split; [split; [done|]|].
      * intros a Ha Hid. by apply H1.
      * intros a [Ha Hne]. destruct (String.eqb_spec (ar_id a) (pl_asset_id x)) as [Hid|]; [|by rewrite andb_false_r].
        rewrite andb_true_r. apply owned_false. by apply H1.
Qed.
Lemma delete_project_resources_None id t : delete_project_resources id t = None ->
  exists x l, x ∈ asset_placements t /\ l ∈ storage_locations t /\ lr_project_id l = id /\
    lr_id l = pl_location_id x /\ forall a, a ∈ assets t -> ar_id a = pl_asset_id x -> ar_project_id a <> id.
Proof.
  unfold delete_project_resources, delete_location_rows. cbn. destruct (existsb _ _) eqn:Hx; [|done]. intros _.
  apply existsb_exists in Hx as (x & Hx%list_elem_of_In & Hl).
  apply elem_of_list_filter in Hx as [Hin Ha%negb_true_iff]. rewrite owned_false in Ha.
  apply existsb_exists in Hl as (l & Hl%list_elem_of_In & [Hp%String.eqb_eq Hxl%String.eqb_eq]%andb_true_iff).
  by exists x, l.
Qed.

(** ** Rows by primary key *)

Section Get.
Context `{!SqlEngineLaws E}.

Lemma get_project_Some db id p :
  NoDup (map project_id (projects db)) ->
  get db id = Some p <-> p ∈ projects db /\ project_id p = bind_text id.
Proof. apply head_by_key_Some. Qed.

Lemma get_project_None db id :
  get db id = None <-> forall p, p ∈ projects db -> project_id p <> bind_text id.
Proof. apply head_by_key_None. Qed.

Lemma get_project_ext db db' id :
  NoDup (map project_id (projects db)) -> NoDup (map project_id (projects db')) ->
  (forall p, project_id p = bind_text id -> p ∈ projects db <-> p ∈ projects db') ->
  get db id = get db' id.
Proof.
  intros W W' H. destruct (get db id) as [p|] eqn:Eg.
  - apply get_project_Some in Eg as [Hp He]; [|done]. symmetry. apply get_project_Some; [done|].
    split; [|done]. by apply H.
  - symmetry. rewrite get_project_None in *. intros p Hp He. apply (Eg p); [by apply H|done].
Qed.

Lemma created_row_reads_back p db db' :
  db_wf db -> insert_project p db = Some db' ->
  db_wf db' /\ (forall q, bind_text q = project_id p -> get db' q = Some p) /\
  forall q, bind_text q <> project_id p -> get db' q = get db q.
Proof.
  intros W Ei. pose proof (db_wf_insert_project _ _ _ Ei W) as W'.
  apply insert_project_spec in Ei as (-> & _). split; [done|]. split.
  - intros q Hb. apply get_project_Some; [apply W'|]. cbn. split; [set_solver|done].
  - intros q Hq. apply get_project_ext; [apply W'|apply W|]. cbn. intros r Hr.
    rewrite elem_of_app, list_elem_of_singleton. split; [|by left].
    intros [?| ->]; [done|]. congruence.
Qed.

Lemma updated_row_reads_back id f db db' :
  db_wf db -> (forall q, project_id (f q) = project_id q) ->
  update_project (bind_text id) f db = Some db' ->
  db_wf db' /\ get db' id = f <$> get db id /\
  forall q, bind_text q <> bind_text id -> get db' q = get db q.
Proof.
  intros W Hf Eu. pose proof (db_wf_update_project _ _ _ _ Hf Eu W) as W'.
  apply update_project_spec in Eu as [-> _]. split; [done|]. split.
  - destruct (get db id) as [q|] eqn:Eg; cbn.
    + apply get_project_Some in Eg as [Hq Hqi]; [|apply W].
      apply get_project_Some; [apply W'|]. cbn. rewrite Hf. split; [|done].
      apply elem_of_map_id. exists q. by rewrite Hqi, String.eqb_refl.
    + rewrite get_project_None in *. cbn. intros r (q & Hq & ->)%elem_of_map_id.
      destruct (String.eqb _ _); rewrite ?Hf; by apply Eg.
  - intros q Hq. apply get_project_ext; [apply W'|apply W|]. cbn. intros r Hr.
    rewrite elem_of_map_id. split.
    + intros (s & Hs & ->). destruct (String.eqb_spec (project_id s) (bind_text id)); [|done].
      rewrite Hf in Hr. congruence.
    + intros Hin. exists r. split; [done|].
      destruct (String.eqb_spec (project_id r) (bind_text id)); [congruence|done].
Qed.
(** ** Deleting a project *)

Lemma nothing_to_delete (id : string) db :
  let i := bind_text id in
  let lost card := exists c, c ∈ cards db /\ card_project_id c = i /\ card_id c = card in
  db_wf db -> project_exists i db = false ->
  db_wf db /\ get db id = None /\ (forall q, bind_text q <> i -> get db q = get db q) /\
  (forall c', c' ∈ cards db <-> exists c, c ∈ cards db /\ card_project_id c <> i /\
     ((exists p, parent_card_id c = Some p /\ lost p /\ c' = set_card_parent None c) \/
      ((forall p, parent_card_id c = Some p -> ~ lost p) /\ c' = c))) /\
  (forall l, l ∈ card_links db <-> l ∈ card_links db /\ link_project_id l <> i) /\
  (forall t, t ∈ card_tags db <-> t ∈ card_tags db /\ tag_project_id t <> i /\ ~ lost (tag_card_id t)) /\
  (forall m, m ∈ milestones db <-> m ∈ milestones db /\ ms_project_id m <> i /\ ~ lost (ms_card_id m)) /\
  (forall s, s ∈ project_sync_state db <-> s ∈ project_sync_state db /\ sync_project_id s <> i) /\
  (false = true -> project_resources_gone i (resource_tables db) (resource_tables db)) /\
  (false = false -> db = db).
Proof.
  intros i lost W He. pose proof W as [_ _ C [_ L2] _ W6 _ W8 _ W10].
  assert (forall j, project_exists j db = true -> j <> i) as Hne by (intros j Hj ->; congruence).
  assert (forall card, ~ lost card) as Hnone.
  { intros card Hl. apply gone_card_spec in Hl. by rewrite nothing_gone in Hl. }
  split; [done|]. split.
  { apply get_project_None. intros p Hp Hi. apply (Hne i); [|done].
    apply project_exists_spec, elem_of_map_id. by exists p. }
  split; [done|]. split; [|split; [|split; [|split; [|split; [|by split]]]]]; intros x; (split; [|try tauto]).
  - intros Hc. exists x. split; [done|]. split; [by apply Hne, C|]. right. split; [|done].
    intros p _. apply Hnone.
  - intros (c & Hc & _ & [(p & _ & Hl & _)|[_ ->]]); [by destruct (Hnone p)|done].
  - intros Hl. split; [done|]. by apply Hne, L2.
  - intros Ht. split; [done|]. split; [by apply Hne, W6|apply Hnone].
  - intros Ht. split; [done|]. split; [by apply Hne, W8|apply Hnone].
  - intros Ht. split; [done|]. by apply Hne, W10.
Qed.

Lemma project_row_deleted (id : string) db t :
  let i := bind_text id in
  let db' := set_resource_tables t (delete_project_row i db) in
  let lost card := exists c, c ∈ cards db /\ card_project_id c = i /\ card_id c = card in
  db_wf db -> project_exists i db = true -> project_resources_gone i (resource_tables db) t ->
  db_wf db' /\ get db' id = None /\ (forall q, bind_text q <> i -> get db' q = get db q) /\
  (forall c', c' ∈ cards db' <-> exists c, c ∈ cards db /\ card_project_id c <> i /\
     ((exists p, parent_card_id c = Some p /\ lost p /\ c' = set_card_parent None c) \/
      ((forall p, parent_card_id c = Some p -> ~ lost p) /\ c' = c))) /\
  (forall l, l ∈ card_links db' <-> l ∈ card_links db /\ link_project_id l <> i) /\
  (forall t, t ∈ card_tags db' <-> t ∈ card_tags db /\ tag_project_id t <> i /\ ~ lost (tag_card_id t)) /\
  (forall m, m ∈ milestones db' <-> m ∈ milestones db /\ ms_project_id m <> i /\ ~ lost (ms_card_id m)) /\
  (forall s, s ∈ project_sync_state db' <-> s ∈ project_sync_state db /\ sync_project_id s <> i) /\
  (true = true -> project_resources_gone i (resource_tables db) (resource_tables db')) /\
  (true = false -> db' = db).
Proof.
  intros i db' lost W He Hgone.
  pose proof (db_wf_delete_project i db W) as W'. pose proof (db_wf_set_resources t _ W') as W2. fold db' in W2.
  assert (Hlost : forall card, lost card <-> gone_card i db card = true).
  { intros card. by rewrite gone_card_spec. }
  assert (Hnot : forall card, ~ lost card <-> gone_card i db card = false).
  { intros card. by rewrite Hlost, not_true_iff_false. }
  split; [exact W2|].
  split; [apply get_project_None; intros p [_ Hp]%elem_of_projects_deleted; done|].
  split.
  { intros q Hq. apply get_project_ext; [apply W2|apply W|]. intros p Hp. unfold db'. cbn [projects set_resource_tables].
    rewrite elem_of_projects_deleted, Hp. tauto. }
  unfold db'. rewrite delete_project_row_eq by done. cbn.
  split; [|split; [|split; [|split; [|split; [|by split]]]]]; intros x;
    [|rewrite elem_of_list_filter, ?andb_true_iff, !negb_true_iff, String.eqb_neq, ?Hnot; tauto..].
  rewrite elem_of_orphaned. setoid_rewrite Hnot. setoid_rewrite Hlost. done.
Qed.
End Get.

End ProjectRepoFacts.

Module ProjectRepoTheorems.
Import ProjectRepo ProjectRepoFacts.

(** C34: [remove] leaves no row that names the project in any table, and keeps everything
    else: the other projects, their links and sync states, their resources and locations,
    and their cards, tags and milestones, except that a card whose parent was removed
    becomes a root and a tag or milestone of a removed card goes with it. The tables stay
    well-formed. It fails, and then changes nothing, exactly when an asset of another
    project is placed in a location of this one. *)
Theorem project_remove_erases (E : SqlEngine) (id : string) (db : Db) :
  SqlEngineLaws E -> db_wf db ->
  let i := bind_text id in
  let rt := resource_tables db in
  let lost card := exists c, c ∈ cards db /\ card_project_id c = i /\ card_id c = card in
  let stuck := project_exists i db = true /\ exists x l, x ∈ asset_placements rt /\
    l ∈ storage_locations rt /\ lr_project_id l = i /\ lr_id l = pl_location_id x /\
    forall a, a ∈ assets rt -> ar_id a = pl_asset_id x -> ar_project_id a <> i in
  (stuck -> remove id db = (Err (Sqlite "delete project failed"), db)) /\
  (~ stuck -> exists db', remove id db = (Ok tt, db') /\ db_wf db' /\
    get db' id = None /\ (forall q, bind_text q <> i -> get db' q = get db q) /\
    (forall c', c' ∈ cards db' <->
       exists c, c ∈ cards db /\ card_project_id c <> i /\
         ((exists p, parent_card_id c = Some p /\ lost p /\ c' = set_card_parent None c) \/
          ((forall p, parent_card_id c = Some p -> ~ lost p) /\ c' = c))) /\
    (forall l, l ∈ card_links db' <-> l ∈ card_links db /\ link_project_id l <> i) /\
    (forall t, t ∈ card_tags db' <-> t ∈ card_tags db /\ tag_project_id t <> i /\ ~ lost (tag_card_id t)) /\
    (forall m, m ∈ milestones db' <-> m ∈ milestones db /\ ms_project_id m <> i /\ ~ lost (ms_card_id m)) /\
    (forall s, s ∈ project_sync_state db' <-> s ∈ project_sync_state db /\ sync_project_id s <> i) /\
    (project_exists i db = true -> project_resources_gone i rt (resource_tables db')) /\
    (project_exists i db = false -> db' = db)).
Proof.
  intros L W i rt lost stuck. unfold remove, exec, delete_project. fold i.
  destruct (project_exists i db) eqn:He; cbn [negb].
  2: { split; [by intros [? _]|]. intros _. exists db. split; [done|]. by apply nothing_to_delete. }
  destruct (delete_project_resources i (resource_tables db)) as [t|] eqn:Hd.
  - apply delete_project_resources_Some in Hd as [Hfree Hgone].
    split; [intros [_ (x & l & Hx & Hl & Hp & Hxl & Ha)]; by destruct (Hfree x l Hx Hl Hp Hxl Ha)|].
    intros _. exists (set_resource_tables t (delete_project_row i db)). split; [done|].
    by apply project_row_deleted.
  - split; [done|]. intros Hn. exfalso. apply Hn. split; [done|]. by apply delete_project_resources_None.
Qed.

(** [create] succeeds exactly for a new id and one of the two privacy modes, and then
    the project reads back; an update method succeeds unless it asks for an unknown
    privacy mode of a project that exists, and then exactly the row with that id reads
    back with the new values. A refused write changes nothing. *)
Theorem project_writes_read_back (E : SqlEngine) (db : Db) (p : Project) (id : string)
    (f : Project -> Project) (what : string) :
  SqlEngineLaws E -> db_wf db -> (forall q, project_id (f q) = project_id q) ->
  let same_elsewhere (i : string) (db' : Db) := forall q, bind_text q <> i -> get db' q = get db q in
  let c := create p db in
  let u := exec what (update_project (bind_text id) f) db in
  (fst c = Ok tt <-> get db (project_id p) = None /\ privacy_mode_ok (bind_text (privacy_mode p)) = true) /\
  (fst c = Ok tt -> db_wf (snd c) /\ get (snd c) (project_id p) = Some (bind_project p) /\
                    same_elsewhere (bind_text (project_id p)) (snd c)) /\
  (fst c <> Ok tt -> snd c = db) /\
  (fst u = Ok tt <-> forall q, get db id = Some q -> privacy_mode_ok (privacy_mode (f q)) = true) /\
  (fst u = Ok tt -> db_wf (snd u) /\ get (snd u) id = f <$> get db id /\
                    same_elsewhere (bind_text id) (snd u)) /\
  (fst u <> Ok tt -> snd u = db).
Proof.
  intros L W Hf same_elsewhere c u.
  pose proof (insert_project_spec (bind_project p) db) as Hi.
  pose proof (update_project_spec (bind_text id) f db) as Hu.
  assert (Hb : get db (project_id p) = None <-> project_id (bind_project p) ∉ map project_id (projects db)).
  { rewrite get_project_None, elem_of_map_id. cbn. naive_solver. }
  split; [|split; [|split]].
  - unfold c, create, exec. destruct (insert_project _ db) as [db'|]; cbn.
    + destruct (proj1 (Hi db') eq_refl) as (_ & Hid & Hm). rewrite Hb. done.
    + split; [done|]. intros [Hid Hm].
      discriminate (proj2 (Hi _) (conj eq_refl (conj (proj1 Hb Hid) Hm))).
  - unfold c, create, exec. destruct (insert_project _ db) as [db'|] eqn:Ei; cbn; [|done]. intros _.
    apply created_row_reads_back in Ei as (W' & Hr & Ho); [|done]. split; [done|].
    split; [|exact Ho]. by apply Hr.
  - unfold c, create, exec. by destruct (insert_project _ db).
  - split; [|split].
    + unfold u, exec. destruct (update_project _ _ db) as [db'|]; cbn.
      * destruct (proj1 (Hu db') eq_refl) as [_ Hm]. split; [|done]. intros _ q Hq.
        apply get_project_Some in Hq as [Hq Hqi]; [|apply W]. by apply Hm.
      * split; [done|]. intros H.
        assert (None = Some (set_projects (map (fun p => if String.eqb (project_id p) (bind_text id)
          then f p else p) (projects db)) db)) as Hc; [|discriminate Hc].
        apply Hu. split; [done|]. intros q Hq Hqi. apply H, get_project_Some; [apply W|done].
    + unfold u, exec. destruct (update_project _ _ db) as [db'|] eqn:Eu; cbn; [|done]. intros _.
      exact (updated_row_reads_back _ _ _ _ W Hf Eu).
    + unfold u, exec. by destruct (update_project _ _ db).
Qed.

(** Two projects; a card of the second under a card of the first. *)
Definition two_projects (s : ProjectSyncState) : Db :=
  core_db [mkProject "p" "Notes" "/p" None None "plain" None Uuid4 0 0;
        mkProject "q" "Work" "/q" None None "encrypted_git" (Some "k") Uuid7 0 0]
    [mkCard "a" "p" "A" "a.md" None (f64_of_Z 1) 1 1 None;
     mkCard "b" "q" "B" "b.md" (Some "a") (f64_of_Z 1) 1 1 None]
    [mkCardLink "p" "a" "b" "card" "ref" None 1; mkCardLink "q" "b" "a" "card" "ref" None 1]
    [mkCardTag "p" "a" "todo" 1] [] [s].
Definition project_db : Db :=
  two_projects (mkSyncState "p" None None None 0 0 None None None None 0 None 0 None 0).

Lemma project_db_wf : db_wf project_db.
Proof.
  constructor; [..| | | | | | |];
    try (apply (bool_decide_unpack _); vm_compute; exact I);
    try (intros x Hx; repeat (apply elem_of_cons in Hx as [->|Hx]; [by vm_compute|]); set_solver).
  - split; try (apply (bool_decide_unpack _); vm_compute; exact I);
    intros x Hx; repeat (apply elem_of_cons in Hx as [->|Hx]; [by vm_compute|]); set_solver.
  - split; try (apply (bool_decide_unpack _); vm_compute; exact I);
    intros x Hx; repeat (apply elem_of_cons in Hx as [->|Hx]; [by vm_compute|]); set_solver.
Qed.

Example project_remove_erases_witness :
  exists db', remove "p" project_db = (Ok tt, db') /\ db_wf db' /\
    @get reference_engine db' "p" = None.
Proof.
  destruct (project_remove_erases reference_engine "p" project_db _ project_db_wf) as [_ H].
  destruct H as (db' & H1 & H2 & H3 & _); [intros [_ (x & l & Hx & _)]; by inversion Hx|].
  exists db'. exact (conj H1 (conj H2 H3)).
Defined.

Example project_writes_read_back_witness :
  let u := update_privacy_mode "p" "encrypted_git" 7 project_db in
  @get reference_engine (snd u) "p" =
  with_privacy_mode "encrypted_git" 7 <$> @get reference_engine project_db "p".
Proof.
  refine (proj1 (proj2 (proj1 (proj2 (proj2 (proj2 (proj2
    (project_writes_read_back reference_engine project_db
       (mkProject "r" "New" "/r" None None "plain" None Uuid4 0 0) "p"
       (with_privacy_mode "encrypted_git" 7) "update privacy mode failed" _ project_db_wf
       (fun q => eq_refl)))))) _))).
  vm_compute. reflexivity.
Defined.

End ProjectRepoTheorems.
