(* ===== verification/ProjectSyncRepo.v ===== *)
(** * The synchronisation state of a project

    [src/src/project/ProjectSyncRepo.cpp]: one row per project that remembers the last
    pushes and pulls and when a failed one may be tried again. The abstract
    specification is the history of the events recorded for the project; the row is a
    function of that history. *)

From stdpp Require Import base list sets strings numbers sorting.
From S2P Require Import Prelude Double Model Text Database CardRepo.

Module ProjectSyncRepo.

(** [kSchedule] and [backoff_seconds_for_retry]. *)
Definition backoff_schedule : list Z := [60; 300; 900; 1800].
Definition backoff_seconds_for_retry (retry_count : Z) : Z :=
  if Z.leb retry_count 0 then 0
  else match backoff_schedule !! Z.to_nat (retry_count - 1) with
       | Some seconds => seconds
       | None => 1800
       end.

Definition bind_sync_state (s : ProjectSyncState) : ProjectSyncState :=
  mkSyncState (bind_text (sync_project_id s)) (last_commit_at s) (last_push_at s) (last_pull_at s)
    (uncommitted_changes_count s) (unpushed_commits_count s)
    (bind_text_optional (last_push_status s)) (bind_text_optional (last_pull_status s))
    (bind_text_optional (last_sync_error s)) (last_sync_error_at s) (retry_count s)
    (next_retry_at s) (pull_retry_count s) (next_pull_retry_at s) (sync_updated_at s).

(** [INSERT ... ON CONFLICT(project_id) DO UPDATE SET] every other column. *)
Definition upsert_sync_row (s : ProjectSyncState) (db : Db) : option Db :=
  if existsb (fun r => String.eqb (sync_project_id r) (sync_project_id s)) (project_sync_state db)
  then Some (set_sync_state
         (map (fun r => if String.eqb (sync_project_id r) (sync_project_id s) then s else r)
            (project_sync_state db)) db)
  else if project_exists (sync_project_id s) db
  then Some (set_sync_state (project_sync_state db ++ [s]) db)
  else None.

Definition upsert (s : ProjectSyncState) : Repo unit :=
  exec "upsert project sync state failed" (upsert_sync_row (bind_sync_state s)).

Record ProjectSyncActivityUpdate := mkActivity {
  activity_uncommitted : Z;
  activity_unpushed : Z;
  activity_updated_at : Z
}.

Definition remove (id : string) : Repo unit :=
  exec "delete project sync state failed"
    (fun db => Some (set_sync_state
       (list_filter (fun s => negb (String.eqb (sync_project_id s) (bind_text id)))
          (project_sync_state db)) db)).

Section Queries.
Context {E : SqlEngine}.

Definition get (db : Db) (id : string) : option ProjectSyncState :=
  head (sql_select (fun s => String.eqb (sync_project_id s) (bind_text id)) cmp_true
          (project_sync_state db)).

(** [get(project_id).value_or(ProjectSyncState{})] *)
Definition current (db : Db) (id : string) : ProjectSyncState :=
  match get db id with Some s => s | None => default_sync_state end.

Definition update_activity_counts (id : string) (u : ProjectSyncActivityUpdate) : Repo unit :=
  let* s := gets (fun db => current db id) in
  upsert (mkSyncState id (last_commit_at s) (last_push_at s) (last_pull_at s)
            (activity_uncommitted u) (activity_unpushed u)
            (last_push_status s) (last_pull_status s) (last_sync_error s) (last_sync_error_at s)
            (retry_count s) (next_retry_at s) (pull_retry_count s) (next_pull_retry_at s)
            (activity_updated_at u)).

(** [error_message.has_value() && !error_message->empty() ? error_message : fallback] *)
Definition error_or (message : option string) (fallback : string) : option string :=
  match message with
  | Some m => if String.eqb m "" then Some fallback else message
  | None => Some fallback
  end.

Definition push_recorded (id status : string) (success : bool) (message : option string) (now : Z)
    (s : ProjectSyncState) : ProjectSyncState :=
  if success then
    mkSyncState id (last_commit_at s) (Some now) (last_pull_at s)
      (uncommitted_changes_count s) (unpushed_commits_count s)
      (Some status) (last_pull_status s) None None
      0 None (pull_retry_count s) (next_pull_retry_at s) now
  else
    let n := retry_count s + 1 in
    mkSyncState id (last_commit_at s) (last_push_at s) (last_pull_at s)
      (uncommitted_changes_count s) (unpushed_commits_count s)
      (Some status) (last_pull_status s) (error_or message "push failed") (Some now)
      n (Some (now + backoff_seconds_for_retry n)) (pull_retry_count s) (next_pull_retry_at s) now.

Definition record_push_result (id status : string) (success : bool) (message : option string)
    (now : Z) : Repo unit :=
  let* s := gets (fun db => current db id) in
  upsert (push_recorded id status success message now s).

Definition pull_recorded (id status : string) (success : bool) (message : option string) (now : Z)
    (s : ProjectSyncState) : ProjectSyncState :=
  if success then
    mkSyncState id (last_commit_at s) (last_push_at s) (Some now)
      (uncommitted_changes_count s) (unpushed_commits_count s)
      (last_push_status s) (Some status) None None
      (retry_count s) (next_retry_at s) 0 None now
  else
    let n := pull_retry_count s + 1 in
    mkSyncState id (last_commit_at s) (last_push_at s) (last_pull_at s)
      (uncommitted_changes_count s) (unpushed_commits_count s)
      (last_push_status s) (Some status) (error_or message "pull failed") (Some now)
      (retry_count s) (next_retry_at s) n (Some (now + backoff_seconds_for_retry n)) now.

Definition record_pull_result (id status : string) (success : bool) (message : option string)
    (now : Z) : Repo unit :=
  let* s := gets (fun db => current db id) in
  upsert (pull_recorded id status success message now s).

End Queries.
End ProjectSyncRepo.

Module ProjectSyncFacts.
Import ProjectSyncRepo.

Record sync_wf (db : Db) : Prop := {
  sync_ids : NoDup (map sync_project_id (project_sync_state db));
  sync_text : forall s, s ∈ project_sync_state db -> bind_sync_state s = s;
  sync_refs : forall s, s ∈ project_sync_state db -> project_exists (sync_project_id s) db = true
}.

Lemma bind_sync_idemp s : bind_sync_state (bind_sync_state s) = bind_sync_state s.
Proof.
  unfold bind_sync_state. cbn -[bind_text bind_text_optional].
  by rewrite CardRepoFacts.bind_text_idemp, !CardRepoFacts.bind_text_optional_idemp.
Qed.

Section Rows.
Context `{!SqlEngineLaws E}.

Lemma get_sync_Some db id s :
  sync_wf db ->
  get db id = Some s <-> s ∈ project_sync_state db /\ sync_project_id s = bind_text id.
Proof. intros W. apply head_by_key_Some, W. Qed.

Lemma get_sync_None db id :
  get db id = None <-> forall s, s ∈ project_sync_state db -> sync_project_id s <> bind_text id.
Proof. apply head_by_key_None. Qed.

Lemma get_sync_ext db db' id :
  sync_wf db -> sync_wf db' ->
  (forall s, sync_project_id s = bind_text id ->
     s ∈ project_sync_state db <-> s ∈ project_sync_state db') ->
  get db id = get db' id.
Proof.
  intros W W' H. destruct (get db id) as [p|] eqn:Eg.
  - apply get_sync_Some in Eg as [Hp He]; [|done]. symmetry. apply get_sync_Some; [done|].
    split; [|done]. by apply H.
  - symmetry. rewrite get_sync_None in *. intros p Hp He. apply (Eg p); [by apply H|done].
Qed.

(** [upsert] enters the row of its project and no other. *)
Lemma upsert_spec s db :
  sync_wf db -> project_exists (bind_text (sync_project_id s)) db = true ->
  exists db', upsert s db = (Ok tt, db') /\ sync_wf db' /\
    db' = set_sync_state (project_sync_state db') db /\
    get db' (sync_project_id s) = Some (bind_sync_state s) /\
    forall q, bind_text q <> bind_text (sync_project_id s) -> get db' q = get db q.
Proof.
  intros W Hp. pose proof W as [Wn Wt Wp]. unfold upsert, exec, upsert_sync_row.
  set (b := bind_sync_state s). assert (sync_project_id b = bind_text (sync_project_id s)) as Hb by done.
  set (f r := if String.eqb (sync_project_id r) (sync_project_id b) then b else r).
  assert (Hf : forall r, sync_project_id (f r) = sync_project_id r).
  { intros r. unfold f. destruct (String.eqb_spec (sync_project_id r) (sync_project_id b)); congruence. }
  rewrite <- Hb in Hp.
  destruct (existsb _ (project_sync_state db)) eqn:Ex; [|rewrite Hp].
  - apply existsb_exists in Ex as (r & Hr & Hre%String.eqb_eq). rewrite <- list_elem_of_In in Hr.
    eexists. split; [done|].
    match goal with |- sync_wf ?d /\ _ => assert (sync_wf d) as W' end.
    { split; cbn [project_sync_state set_sync_state].
      - by rewrite map_map, (map_ext (fun r => sync_project_id (f r)) sync_project_id) by done.
      - intros x (y & Hy & ->)%elem_of_map_id. unfold f. destruct (String.eqb _ _); [|by apply Wt].
        apply bind_sync_idemp.
      - intros x (y & Hy & ->)%elem_of_map_id. rewrite Hf. by apply Wp. }
    split; [done|]. split; [done|]. split.
    + apply get_sync_Some; [done|]. split; [|done]. apply elem_of_map_id. exists r.
      split; [done|]. unfold f. by rewrite Hre, String.eqb_refl.
    + intros q Hq. apply get_sync_ext; [done|done|]. cbn [project_sync_state set_sync_state]. intros x Hx. rewrite elem_of_map_id. split.
      * intros (y & Hy & ->). rewrite Hf in Hx. unfold f.
        destruct (String.eqb_spec (sync_project_id y) (sync_project_id b)); [congruence|done].
      * intros Hin. exists x. split; [done|]. unfold f.
        destruct (String.eqb_spec (sync_project_id x) (sync_project_id b)); [congruence|done].
  - eexists. split; [done|].
    match goal with |- sync_wf ?d /\ _ => assert (sync_wf d) as W' end.
    { split; cbn.
      - rewrite map_app. apply list.NoDup_app. repeat split; [done| |apply NoDup_singleton].
        intros i (r & Hr & ->)%elem_of_map_id He%list_elem_of_singleton.
        apply not_true_iff_false in Ex. apply Ex, existsb_exists. exists r.
        split; [by apply list_elem_of_In|]. cbn in He |- *. by rewrite He, String.eqb_refl.
      - intros x [Hx| ->%list_elem_of_singleton]%elem_of_app; [by apply Wt|apply bind_sync_idemp].
      - intros x [Hx| ->%list_elem_of_singleton]%elem_of_app; [by apply Wp|done]. }
    split; [done|]. split; [done|]. split.
    + apply get_sync_Some; [done|]. cbn. split; [set_solver|done].
    + intros q Hq. apply get_sync_ext; [done|done|]. cbn. intros x Hx.
      rewrite elem_of_app, list_elem_of_singleton. split; [|by left].
      intros [?| ->]; [done|congruence].
Qed.

Lemma current_bound db id : sync_wf db -> bind_sync_state (current db id) = current db id.
Proof.
  intros W. unfold current. destruct (get db id) as [s|] eqn:Eg; [|done].
  apply get_sync_Some in Eg as [Hs _]; [|done]. by apply W.
Qed.

Lemma current_same db db' id :
  project_sync_state db = project_sync_state db' -> current db id = current db' id.
Proof. unfold current, get. by intros ->. Qed.
End Rows.

(** ** Histories *)

(** What a push or a pull reports. *)
Record Attempt := mkAttempt {
  at_status : string;
  at_ok : bool;
  at_message : option string;
  at_time : Z
}.

Inductive SyncEvent :=
| PushEvent (a : Attempt)
| PullEvent (a : Attempt)
| ActivityEvent (u : ProjectSyncActivityUpdate).

Definition pushes (evs : list SyncEvent) : list Attempt :=
  omap (fun e => match e with PushEvent a => Some a | _ => None end) evs.
Definition pulls (evs : list SyncEvent) : list Attempt :=
  omap (fun e => match e with PullEvent a => Some a | _ => None end) evs.
Definition activities (evs : list SyncEvent) : list ProjectSyncActivityUpdate :=
  omap (fun e => match e with ActivityEvent u => Some u | _ => None end) evs.

(** The failures since the last success. *)
Definition failures (l : list Attempt) : Z :=
  Z.of_nat (length (take_while (fun a => negb (at_ok a)) (reverse l))).
Definition last_success (l : list Attempt) : option Z :=
  at_time <$> last (list_filter at_ok l).
Definition retry_at (l : list Attempt) : option Z :=
  if Z.eqb (failures l) 0 then None
  else (fun a => at_time a + backoff_seconds_for_retry (failures l)) <$> last l.

(** The error of the last push or pull, if it failed. *)
Definition history_error (evs : list SyncEvent) : option string :=
  foldl (fun err e =>
    match e with
    | PushEvent a => if at_ok a then None else error_or (at_message a) "push failed"
    | PullEvent a => if at_ok a then None else error_or (at_message a) "pull failed"
    | ActivityEvent _ => err
    end) None evs.

(** What the row of a project says of its history. *)
Record follows (evs : list SyncEvent) (s : ProjectSyncState) : Prop := {
  fw_retry : retry_count s = failures (pushes evs);
  fw_next : next_retry_at s = retry_at (pushes evs);
  fw_push_at : last_push_at s = last_success (pushes evs);
  fw_push_status : last_push_status s = bind_text_optional (at_status <$> last (pushes evs));
  fw_pull_retry : pull_retry_count s = failures (pulls evs);
  fw_pull_next : next_pull_retry_at s = retry_at (pulls evs);
  fw_pull_at : last_pull_at s = last_success (pulls evs);
  fw_pull_status : last_pull_status s = bind_text_optional (at_status <$> last (pulls evs));
  fw_error : last_sync_error s = bind_text_optional (history_error evs);
  fw_uncommitted :
    uncommitted_changes_count s = from_option activity_uncommitted 0 (last (activities evs));
  fw_unpushed : unpushed_commits_count s = from_option activity_unpushed 0 (last (activities evs))
}.

Lemma failures_snoc l a : failures (l ++ [a]) = if at_ok a then 0 else failures l + 1.
Proof.
  unfold failures. rewrite reverse_snoc. cbn [take_while]. destruct (at_ok a); cbn [negb length]; lia.
Qed.

Lemma failures_nonneg l : 0 <= failures l.
Proof. unfold failures. lia. Qed.

Lemma failures_le l : failures l <= Z.of_nat (length l).
Proof.
  induction l as [|a l IH] using rev_ind; [done|]. rewrite failures_snoc, length_app. cbn [length].
  destruct (at_ok a); lia.
Qed.

Lemma retry_at_snoc l a :
  retry_at (l ++ [a]) =
  if at_ok a then None else Some (at_time a + backoff_seconds_for_retry (failures l + 1)).
Proof.
  unfold retry_at. rewrite failures_snoc, last_snoc. destruct (at_ok a); [done|].
  pose proof (failures_nonneg l). by rewrite (proj2 (Z.eqb_neq (failures l + 1) 0)) by lia.
Qed.

Lemma last_success_snoc l a :
  last_success (l ++ [a]) = if at_ok a then Some (at_time a) else last_success l.
Proof.
  unfold last_success, list_filter. rewrite List.filter_app. cbn. destruct (at_ok a).
  - by rewrite last_snoc.
  - by rewrite app_nil_r.
Qed.

Lemma backoff_bounds n : 1 <= n -> 60 <= backoff_seconds_for_retry n <= 1800.
Proof.
  intros Hn. unfold backoff_seconds_for_retry, backoff_schedule. rewrite (proj2 (Z.leb_gt n 0)) by lia.
  destruct (Z.to_nat (n - 1)) as [|[|[|[|k]]]]; try (vm_compute; split; discriminate).
Qed.

Section Record.
Context `{!SqlEngineLaws E}.

Definition record_event (id : string) (e : SyncEvent) : Repo unit :=
  match e with
  | PushEvent a => record_push_result id (at_status a) (at_ok a) (at_message a) (at_time a)
  | PullEvent a => record_pull_result id (at_status a) (at_ok a) (at_message a) (at_time a)
  | ActivityEvent u => update_activity_counts id u
  end.

Definition event_row (id : string) (e : SyncEvent) (s : ProjectSyncState) : ProjectSyncState :=
  match e with
  | PushEvent a => push_recorded id (at_status a) (at_ok a) (at_message a) (at_time a) s
  | PullEvent a => pull_recorded id (at_status a) (at_ok a) (at_message a) (at_time a) s
  | ActivityEvent u =>
      mkSyncState id (last_commit_at s) (last_push_at s) (last_pull_at s)
        (activity_uncommitted u) (activity_unpushed u)
        (last_push_status s) (last_pull_status s) (last_sync_error s) (last_sync_error_at s)
        (retry_count s) (next_retry_at s) (pull_retry_count s) (next_pull_retry_at s)
        (activity_updated_at u)
  end.

Lemma event_row_id id e s : sync_project_id (event_row id e s) = id.
Proof. destruct e as [a|a|u]; cbn; [unfold push_recorded|unfold pull_recorded|]; by try destruct (at_ok a). Qed.

Lemma record_event_spec id e db :
  sync_wf db -> project_exists (bind_text id) db = true ->
  exists db', record_event id e db = (Ok tt, db') /\ sync_wf db' /\
    db' = set_sync_state (project_sync_state db') db /\
    get db' id = Some (bind_sync_state (event_row id e (current db id))) /\
    forall q, bind_text q <> bind_text id -> get db' q = get db q.
Proof.
  intros W Hp.
  assert (record_event id e db = upsert (event_row id e (current db id)) db) as -> by by destruct e.
  pose proof (upsert_spec (event_row id e (current db id)) db W) as H. rewrite event_row_id in H.
  by apply H.
Qed.

Lemma omap_snoc {A B} (f : A -> option B) l x :
  omap f (l ++ [x]) = omap f l ++ match f x with Some y => [y] | None => [] end.
Proof. rewrite omap_app. cbn. by destruct (f x). Qed.

Lemma omap_length_bound {A B} (f : A -> option B) l : (length (omap f l) <= length l)%nat.
Proof. induction l as [|x l IH]; cbn; [done|]. destruct (f x); cbn; lia. Qed.

Lemma follows_snoc evs id e s :
  follows evs s -> follows (evs ++ [e]) (bind_sync_state (event_row id e s)).
Proof.
  intros [F1 F2 F3 F4 F5 F6 F7 F8 F9 F10 F11].
  pose proof CardRepoFacts.bind_text_optional_idemp as Hi.
  unfold bind_sync_state.
  destruct e as [a|a|u]; constructor; unfold pushes, pulls, activities, history_error;
    rewrite ?omap_snoc, ?foldl_snoc, ?app_nil_r; fold (pushes evs) (pulls evs) (activities evs)
    (history_error evs); rewrite ?failures_snoc, ?retry_at_snoc, ?last_success_snoc, ?last_snoc;
    cbn -[bind_text bind_text_optional]; unfold push_recorded, pull_recorded;
    try destruct (at_ok a); cbn -[bind_text bind_text_optional];
    rewrite ?F1, ?F2, ?F3, ?F4, ?F5, ?F6, ?F7, ?F8, ?F9, ?F10, ?F11, ?Hi; done.
Qed.
End Record.

End ProjectSyncFacts.

Module ProjectSyncTheorems.
Import ProjectSyncRepo ProjectSyncFacts.

(** C33: the row of a project is the history of what was recorded for it: after any
    sequence of pushes, pulls and activity updates, each retry counter is the number of
    failures since the last success of its own kind, the time of the next try follows
    the last failure by the backoff of that count, and statuses, times, error and
    activity are those of the last events. Recording never fails for a project that
    exists, the counters stay within the number of events, and no other project's row
    changes. *)
Theorem sync_row_follows_history (E : SqlEngine) (id : string) (evs : list SyncEvent) (db : Db) :
  SqlEngineLaws E -> sync_wf db -> project_exists (bind_text id) db = true -> get db id = None ->
  exists db', for_each evs (record_event id) db = (Ok tt, db') /\ sync_wf db' /\
    db' = set_sync_state (project_sync_state db') db /\
    (forall q, bind_text q <> bind_text id -> get db' q = get db q) /\
    follows evs (current db' id) /\
    (get db' id = None <-> evs = []) /\
    0 <= retry_count (current db' id) <= Z.of_nat (length evs) /\
    0 <= pull_retry_count (current db' id) <= Z.of_nat (length evs).
Proof.
  intros L W Hp Hnone.
  enough (exists db', for_each evs (record_event id) db = (Ok tt, db') /\ sync_wf db' /\
    db' = set_sync_state (project_sync_state db') db /\
    (forall q, bind_text q <> bind_text id -> get db' q = get db q) /\
    follows evs (current db' id) /\ (get db' id = None <-> evs = []))
    as (db' & H1 & H2 & H3 & H4 & H5 & H6).
  { exists db'. do 6 (split; [done|]). rewrite (fw_retry _ _ H5), (fw_pull_retry _ _ H5).
    assert (length (pushes evs) <= length evs)%nat by apply omap_length_bound.
    assert (length (pulls evs) <= length evs)%nat by apply omap_length_bound.
    pose proof (failures_le (pushes evs)). pose proof (failures_le (pulls evs)).
    pose proof (failures_nonneg (pushes evs)). pose proof (failures_nonneg (pulls evs)). lia. }
  induction evs as [|e evs IH] using rev_ind.
  - exists db. split; [done|]. split; [done|]. split; [by destruct db|]. split; [done|].
    unfold current. rewrite Hnone. split; [by constructor|done].
  - destruct IH as (db1 & H1 & H2 & H3 & H4 & H5 & H6).
    destruct (record_event_spec id e db1 H2) as (db2 & R1 & R2 & R3 & R4 & R5).
    { by rewrite H3. }
    exists db2. rewrite (for_each_app _ _ _ _ _ H1). split.
    { cbn [for_each]. unfold bind. by rewrite R1. }
    split; [done|]. split; [by rewrite R3, H3|]. split.
    { intros q Hq. by rewrite R5, H4. }
    assert (current db2 id = bind_sync_state (event_row id e (current db1 id))) as ->
      by (unfold current at 1; by rewrite R4).
    split; [by apply follows_snoc|]. rewrite R4. split; [done|]. by destruct evs.
Qed.

Definition sync_db : Db :=
  core_db [mkProject "p" "Notes" "/p" (Some "git@host:n.git") None "plain" None Uuid4 0 0]
    [] [] [] [] [].

Lemma sync_db_wf : sync_wf sync_db.
Proof. split; cbn; [constructor|set_solver|set_solver]. Qed.

Example sync_row_follows_history_witness :
  exists db', for_each [PushEvent (mkAttempt "auth_failed" false None 100);
                        PullEvent (mkAttempt "succeeded" true None 150);
                        PushEvent (mkAttempt "auth_failed" false (Some "denied") 200)]
    (@record_event reference_engine "p") sync_db = (Ok tt, db') /\
  next_retry_at (@current reference_engine db' "p") = Some 500.
Proof.
  destruct (sync_row_follows_history reference_engine "p"
    [PushEvent (mkAttempt "auth_failed" false None 100);
     PullEvent (mkAttempt "succeeded" true None 150);
     PushEvent (mkAttempt "auth_failed" false (Some "denied") 200)] sync_db _ sync_db_wf
    eq_refl eq_refl) as (db' & H1 & _ & _ & _ & H5 & _).
  exists db'. split; [exact H1|]. rewrite (fw_next _ _ H5). reflexivity.
Defined.

End ProjectSyncTheorems.
