(* ===== verification/CardFrontMatter.v ===== *)
(** * The card file format

    [src/src/card/CardFrontMatter.cpp]: a card is a Markdown file that opens with its
    metadata as YAML between two lines of dashes. The YAML library is the class [Yaml]:
    its data model is [YNode], what the program hands to its emitter is [YValue], and
    the conversions [as<T>()] are partial functions. *)

From stdpp Require Import base list strings numbers.
From Stdlib Require Import Ascii.
From S2P Require Import Prelude Double Model Text.

Module CardFrontMatter.

(** [YAML::Node] *)
Inductive YNode :=
| YNull
| YScalar (s : string)
| YSeq (l : list YNode)
| YMap (l : list (string * YNode)).

(** What is written to a [YAML::Emitter]. *)
Inductive YValue :=
| VNull
| VString (s : string)
| VInt (z : Z)
| VDouble (d : double)
| VBool (b : bool)
| VSeq (l : list YValue)
| VMap (l : list (string * YValue)).

(** yaml-cpp: [YAML::Load] (a failure to parse and an undefined document are [None]),
    [as<T>()] (a failed conversion is [None]) and the text an [Emitter] has written. *)
Class Yaml := {
  yaml_load : string -> option YNode;
  as_string : YNode -> option string;
  as_int64 : YNode -> option Z;
  as_double : YNode -> option double;
  as_bool : YNode -> option bool;
  yaml_emit : YValue -> string
}.

Record ParsedCardFile := mkParsed {
  pf_card : Card;
  pf_links : list CardLink;
  pf_milestones : list Milestone;
  pf_body : string;
  has_front_matter : bool
}.

(** [Card{}], [CardLink{}] and [Milestone{}] *)
Definition empty_card : Card := mkCard "" "" "" "" None f64_zero 0 0 None.

Definition set_pf_card (c : Card) (p : ParsedCardFile) : ParsedCardFile :=
  mkParsed c (pf_links p) (pf_milestones p) (pf_body p) (has_front_matter p).

Definition opt_value {A} (f : A -> YValue) (o : option A) : YValue :=
  match o with Some a => f a | None => VNull end.

Definition link_value (link : CardLink) : YValue :=
  VMap [("to", VString (to_card_id link));
        ("to_type", VString (if String.eqb (to_type link) "" then "card" else to_type link));
        ("kind", VString (link_kind link));
        ("created_at", VInt (link_created_at link));
        ("label", opt_value VString (link_label link))].

Definition milestone_value (m : Milestone) : YValue :=
  VMap [("milestone_id", VString (milestone_id m));
        ("start_at", VInt (start_at m));
        ("end_at", opt_value VInt (end_at m));
        ("all_day", VBool (all_day m));
        ("kind", opt_value VString (ms_kind m));
        ("description", opt_value VString (ms_description m));
        ("created_at", VInt (ms_created_at m));
        ("updated_at", VInt (ms_updated_at m))].

Definition front_matter_value (card : Card) (links : list CardLink) (ms : list Milestone) : YValue :=
  VMap [("card_id", VString (card_id card));
        ("project_id", VString (card_project_id card));
        ("title", VString (title card));
        ("created_at", VInt (created_at card));
        ("updated_at", VInt (updated_at card));
        ("parent_card_id", opt_value VString (parent_card_id card));
        ("sort_key", VDouble (sort_key card));
        ("rel_path", VString (rel_path card));
        ("deleted_at", opt_value VInt (deleted_at card));
        ("links", VSeq (map link_value links));
        ("milestones", VSeq (map milestone_value ms))].

Definition lf : string := String newline EmptyString.
Definition crlf : string := String carriage_return lf.
Definition kLfOpeningDelimiter : string := "---" +:+ lf.
Definition kLfClosingDelimiter : string := lf +:+ "---" +:+ lf.
Definition kCrlfOpeningDelimiter : string := "---" +:+ crlf.
Definition kCrlfClosingDelimiter : string := crlf +:+ "---" +:+ crlf.

(** [raw.rfind(prefix, 0) == 0], and what follows the prefix. *)
Fixpoint drop_prefix (prefix raw : string) : option string :=
  match prefix, raw with
  | EmptyString, _ => Some raw
  | String c p, String d r => if Ascii.eqb c d then drop_prefix p r else None
  | String _ _, EmptyString => None
  end.

(** [raw.find(needle)]: the text before the first occurrence and the text after it. *)
Fixpoint split_at (needle raw : string) : option (string * string) :=
  match drop_prefix needle raw with
  | Some rest => Some (EmptyString, rest)
  | None =>
      match raw with
      | EmptyString => None
      | String c raw' =>
          match split_at needle raw' with
          | Some (before, after) => Some (String c before, after)
          | None => None
          end
      end
  end.

(** The YAML text between the delimiters and the body after them. *)
Definition split_front_matter (raw : string) : option (string * string) :=
  match drop_prefix kCrlfOpeningDelimiter raw with
  | Some rest => split_at kCrlfClosingDelimiter rest
  | None =>
      match drop_prefix kLfOpeningDelimiter raw with
      | Some rest => split_at kLfClosingDelimiter rest
      | None => None
      end
  end.

(** [node[key]] of a map: the first entry, or [None] for an undefined node. *)
Fixpoint field (l : list (string * YNode)) (key : string) : option YNode :=
  match l with
  | [] => None
  | (k, v) :: rest => if String.eqb k key then Some v else field rest key
  end.

Definition is_null (n : YNode) : bool := match n with YNull => true | _ => false end.

Section Yaml.
Context {Y : Yaml}.

Definition bad_conversion : error := Runtime "yaml-cpp: error: bad conversion".

(** [as<T>()], which throws. *)
Definition conv {A} (f : YNode -> option A) (n : YNode) : result A :=
  match f n with Some a => Ok a | None => Err bad_conversion end.

(** [if (node[key]) x = node[key].as<T>();] *)
Definition read {A} (f : YNode -> option A) (l : list (string * YNode)) (key : string) (x : A)
    : result A :=
  match field l key with Some n => conv f n | None => Ok x end.

(** [if (node[key] && !node[key].IsNull()) x = node[key].as<T>();] *)
Definition read_optional {A} (f : YNode -> option A) (l : list (string * YNode)) (key : string)
    (x : option A) : result (option A) :=
  match field l key with
  | Some n => if is_null n then Ok x else let? a := conv f n in Ok (Some a)
  | None => Ok x
  end.

(** One item of the [links] sequence: the link it adds, if any. *)
Definition parse_link (card : Card) (item : YNode) : result (option CardLink) :=
  match item with
  | YMap l =>
      let? to := read as_string l "to" "" in
      let? type := read as_string l "to_type" "" in
      let? kind := read as_string l "kind" "" in
      let type := if String.eqb type "" then "card" else type in
      let kind := if String.eqb kind "" then "ref" else kind in
      let? label := read_optional as_string l "label" None in
      let? created := read as_int64 l "created_at" 0 in
      Ok (if String.eqb to "" then None
          else Some (mkCardLink (card_project_id card) (card_id card) to type kind label created))
  | _ => Ok None
  end.

Definition parse_milestone (card : Card) (item : YNode) : result (option Milestone) :=
  match item with
  | YMap l =>
      let? id := read as_string l "milestone_id" "" in
      let? start := read as_int64 l "start_at" 0 in
      let? end_ := read_optional as_int64 l "end_at" None in
      let? all := read as_bool l "all_day" false in
      let? kind := read_optional as_string l "kind" None in
      let? description := read_optional as_string l "description" None in
      let? created := read as_int64 l "created_at" 0 in
      let? updated := read as_int64 l "updated_at" 0 in
      Ok (if String.eqb id "" then None
          else Some (mkMilestone id (card_project_id card) (card_id card) start end_ all kind
                       description created updated))
  | _ => Ok None
  end.

(** The assignments to [parsed] up to the first conversion that throws. *)
Definition Parsing (A : Type) : Type := M ParsedCardFile A.

Definition update_card_field {A} (r : Card -> result A) (set : A -> Card -> Card) : Parsing unit :=
  let* c := gets pf_card in
  let* a := lift (r c) in
  modify (fun p => set_pf_card (set a c) p).

Definition set_card_id (id : string) (c : Card) : Card :=
  mkCard id (card_project_id c) (title c) (rel_path c) (parent_card_id c) (sort_key c)
    (created_at c) (updated_at c) (deleted_at c).
Definition set_card_project (id : string) (c : Card) : Card :=
  mkCard (card_id c) id (title c) (rel_path c) (parent_card_id c) (sort_key c)
    (created_at c) (updated_at c) (deleted_at c).
Definition set_card_created_at (t : Z) (c : Card) : Card :=
  mkCard (card_id c) (card_project_id c) (title c) (rel_path c) (parent_card_id c) (sort_key c)
    t (updated_at c) (deleted_at c).

Definition parse_fields (l : list (string * YNode)) : Parsing unit :=
  update_card_field (fun c => read as_string l "card_id" (card_id c)) set_card_id ;;;
  update_card_field (fun c => read as_string l "project_id" (card_project_id c)) set_card_project ;;;
  update_card_field (fun c => read as_string l "title" (title c)) set_card_title ;;;
  update_card_field (fun c => read as_string l "rel_path" (rel_path c)) set_card_rel_path ;;;
  update_card_field (fun c => read as_int64 l "created_at" (created_at c)) set_card_created_at ;;;
  update_card_field (fun c => read as_int64 l "updated_at" (updated_at c)) set_card_updated_at ;;;
  update_card_field (fun c => read as_double l "sort_key" (sort_key c)) set_card_sort_key ;;;
  update_card_field (fun c => read_optional as_string l "parent_card_id" (parent_card_id c))
    set_card_parent ;;;
  update_card_field (fun c => read_optional as_int64 l "deleted_at" (deleted_at c))
    set_card_deleted_at.

Definition add_link (link : option CardLink) (p : ParsedCardFile) : ParsedCardFile :=
  match link with
  | Some k => mkParsed (pf_card p) (pf_links p ++ [k]) (pf_milestones p) (pf_body p) (has_front_matter p)
  | None => p
  end.
Definition add_milestone (m : option Milestone) (p : ParsedCardFile) : ParsedCardFile :=
  match m with
  | Some k => mkParsed (pf_card p) (pf_links p) (pf_milestones p ++ [k]) (pf_body p) (has_front_matter p)
  | None => p
  end.

Definition parse_links (l : list (string * YNode)) : Parsing unit :=
  match field l "links" with
  | Some (YSeq items) =>
      for_each items (fun item =>
        let* card := gets pf_card in
        let* link := lift (parse_link card item) in
        modify (add_link link))
  | _ => mret tt
  end.

Definition parse_milestones (l : list (string * YNode)) : Parsing unit :=
  match field l "milestones" with
  | Some (YSeq items) =>
      for_each items (fun item =>
        let* card := gets pf_card in
        let* m := lift (parse_milestone card item) in
        modify (add_milestone m))
  | _ => mret tt
  end.

Definition set_body (body : string) (p : ParsedCardFile) : ParsedCardFile :=
  mkParsed (pf_card p) (pf_links p) (pf_milestones p) body (has_front_matter p).

(** The body of the [try] once the document is a map. *)
Definition parse_document (l : list (string * YNode)) (body : string) : Parsing unit :=
  modify (fun p => mkParsed (pf_card p) (pf_links p) (pf_milestones p) (pf_body p) true) ;;;
  parse_fields l ;;;
  parse_links l ;;;
  parse_milestones l ;;;
  modify (set_body body).

(** Whatever is thrown, what [parsed] holds by then is returned. *)
Definition parse_card_file (raw : string) : ParsedCardFile :=
  let parsed := mkParsed empty_card [] [] raw false in
  match split_front_matter raw with
  | None => parsed
  | Some (yaml_text, body) =>
      match yaml_load yaml_text with
      | Some (YMap l) => snd (parse_document l body parsed)
      | _ => parsed
      end
  end.

(** [out.c_str()] between the delimiters. *)
Definition render_card_front_matter (card : Card) (links : list CardLink) (ms : list Milestone)
    : string :=
  kLfOpeningDelimiter +:+ c_str (yaml_emit (front_matter_value card links ms)) +:+ kLfClosingDelimiter.

End Yaml.
End CardFrontMatter.

Module CardFrontMatterFacts.
Import CardFrontMatter.

(** ** Framing *)

(** No line of dashes that a closing delimiter could be mistaken for: wherever three
    dashes start a line of the text, something other than a line break follows. *)
Definition no_dash_line (text : string) : Prop :=
  forall pre post, text = pre +:+ lf +:+ "---" +:+ post ->
    exists c post', post = String c post' /\ c <> newline.

Lemma no_dash_line_tail c text : no_dash_line (String c text) -> no_dash_line text.
Proof. intros H pre post ->. by apply (H (String c pre) post). Qed.

Lemma drop_prefix_app p s : drop_prefix p (p +:+ s) = Some s.
Proof.
  induction p as [|c p IH]; [done|].
  change (String c p +:+ s) with (String c (p +:+ s)). cbn [drop_prefix].
  by destruct (Ascii.eqb_spec c c).
Qed.

Lemma drop_prefix_Some p s r : drop_prefix p s = Some r -> s = p +:+ r.
Proof.
  revert s. induction p as [|c p IH]; intros s; cbn; [by intros [= ->]|].
  destruct s as [|d s]; [done|]. destruct (Ascii.eqb_spec c d) as [->|]; [|done].
  by intros ->%IH.
Qed.

(** The closing delimiter does not start inside the text. *)
Lemma closing_not_inside c text body :
  no_dash_line (String c text) ->
  drop_prefix kLfClosingDelimiter (String c text +:+ kLfClosingDelimiter +:+ body) = None.
Proof.
  intros H. destruct (drop_prefix _ _) as [r|] eqn:Ed; [exfalso|done].
  apply drop_prefix_Some in Ed. unfold kLfClosingDelimiter, lf in Ed. cbn in Ed.
  injection Ed as -> Ed.
  destruct text as [|c1 text]; [discriminate Ed|]. injection Ed as -> Ed.
  destruct text as [|c2 text]; [discriminate Ed|]. injection Ed as -> Ed.
  destruct text as [|c3 text]; [discriminate Ed|]. injection Ed as -> Ed.
  destruct (H "" text eq_refl) as (c & post & -> & Hc). injection Ed as -> _. by apply Hc.
Qed.

Lemma split_at_first text body :
  no_dash_line text ->
  split_at kLfClosingDelimiter (text +:+ kLfClosingDelimiter +:+ body) = Some (text, body).
Proof.
  induction text as [|c text IH]; intros H.
  - change ("" +:+ ?x) with x. pose proof (drop_prefix_app kLfClosingDelimiter body) as Hd.
    destruct (kLfClosingDelimiter +:+ body) as [|d s]; cbn [split_at]; by rewrite Hd.
  - pose proof (closing_not_inside c text body H) as Hd.
    change (String c text +:+ ?x) with (String c (text +:+ x)) in *. cbn [split_at].
    rewrite Hd, IH; [done|]. by eapply no_dash_line_tail.
Qed.

Lemma split_front_matter_render text body :
  no_dash_line text ->
  split_front_matter ((kLfOpeningDelimiter +:+ text +:+ kLfClosingDelimiter) +:+ body) = Some (text, body).
Proof.
  intros H. unfold split_front_matter.
  assert (forall a b c : string, (a +:+ b) +:+ c = a +:+ (b +:+ c)) as Happ.
  { intros a b c. induction a as [|x a IHa]; [done|].
    change (String x ((a +:+ b) +:+ c) = String x (a +:+ (b +:+ c))). by rewrite IHa. }
  rewrite !Happ, drop_prefix_app.
  replace (drop_prefix kCrlfOpeningDelimiter _) with (@None string) by done.
  by apply split_at_first.
Qed.

(** ** Documents *)

(** The node is the value: a faithful YAML library loads what it emitted as such a
    node. *)
Inductive matches {Y : Yaml} : YValue -> YNode -> Prop :=
| matches_null : matches VNull YNull
| matches_string s n : is_null n = false -> as_string n = Some s -> matches (VString s) n
| matches_int z n : is_null n = false -> as_int64 n = Some z -> matches (VInt z) n
| matches_double d n : is_null n = false -> as_double n = Some d -> matches (VDouble d) n
| matches_bool b n : is_null n = false -> as_bool n = Some b -> matches (VBool b) n
| matches_seq l ns : Forall2 matches l ns -> matches (VSeq l) (YSeq ns)
| matches_map l kvs :
    Forall2 (fun a b => a.1 = b.1 /\ matches a.2 b.2) l kvs -> matches (VMap l) (YMap kvs).

(** What the file keeps of a link and of a milestone of a card. *)
Definition stored_link (card : Card) (l : CardLink) : option CardLink :=
  if String.eqb (to_card_id l) "" then None
  else Some (mkCardLink (card_project_id card) (card_id card) (to_card_id l)
               (if String.eqb (to_type l) "" then "card" else to_type l)
               (if String.eqb (link_kind l) "" then "ref" else link_kind l)
               (link_label l) (link_created_at l)).
Definition stored_milestone (card : Card) (m : Milestone) : option Milestone :=
  if String.eqb (milestone_id m) "" then None
  else Some (mkMilestone (milestone_id m) (card_project_id card) (card_id card) (start_at m)
               (end_at m) (all_day m) (ms_kind m) (ms_description m) (ms_created_at m) (ms_updated_at m)).

Section Documents.
Context {Y : Yaml}.

Lemma conv_string s n : matches (VString s) n -> conv as_string n = Ok s.
Proof. inversion 1 as [|? ? _ He| | | | |]; subst. unfold conv. by rewrite He. Qed.
Lemma conv_int z n : matches (VInt z) n -> conv as_int64 n = Ok z.
Proof. inversion 1 as [| |? ? _ He| | | |]; subst. unfold conv. by rewrite He. Qed.
Lemma conv_double d n : matches (VDouble d) n -> conv as_double n = Ok d.
Proof. inversion 1 as [| | |? ? _ He| | |]; subst. unfold conv. by rewrite He. Qed.
Lemma conv_bool b n : matches (VBool b) n -> conv as_bool n = Ok b.
Proof. inversion 1 as [| | | |? ? _ He| |]; subst. unfold conv. by rewrite He. Qed.

(** [if (node[key] && !node[key].IsNull())] on an optional value. *)
Lemma conv_optional {A} (f : YNode -> option A) (v : A -> YValue) o n :
  (forall a m, matches (v a) m -> is_null m = false /\ conv f m = Ok a) ->
  matches (opt_value v o) n ->
  (if is_null n then Ok None else let? a := conv f n in Ok (Some a)) = Ok o.
Proof.
  intros Hv. destruct o as [a|]; cbn; intros H.
  - destruct (Hv a n H) as [-> ->]. done.
  - by inversion H.
Qed.

Lemma matches_string_inv s n : matches (VString s) n -> is_null n = false /\ conv as_string n = Ok s.
Proof. intros H. split; [by inversion H|by apply conv_string]. Qed.
Lemma matches_int_inv s n : matches (VInt s) n -> is_null n = false /\ conv as_int64 n = Ok s.
Proof. intros H. split; [by inversion H|by apply conv_int]. Qed.

(** Takes a matched map apart into its fields. *)
Ltac fields H :=
  inversion H as [| | | | | |? ? Hfs]; subst; clear H;
  repeat match type of Hfs with
  | Forall2 _ (_ :: _) _ =>
      let k := fresh "k" in let n := fresh "n" in let rest := fresh "rest" in
      let Hk := fresh "Hk" in let Hn := fresh "Hn" in let Hf := fresh "Hf" in
      inversion Hfs as [|? [k n] ? rest [Hk Hn] Hf]; subst; clear Hfs; rename Hf into Hfs;
      cbn in Hk, Hn; subst k
  | Forall2 _ [] _ => inversion Hfs; subst; clear Hfs
  end.

(** Reads the fields of a known map. *)
Ltac reading :=
  unfold read, read_optional; cbn [field String.eqb Ascii.eqb Bool.eqb];
  repeat first
    [ erewrite conv_string by eassumption; cbn [rbind]
    | erewrite conv_int by eassumption; cbn [rbind]
    | erewrite conv_double by eassumption; cbn [rbind]
    | erewrite conv_bool by eassumption; cbn [rbind]
    | erewrite (conv_optional as_string VString) by first [apply matches_string_inv|eassumption]; cbn [rbind]
    | erewrite (conv_optional as_int64 VInt) by first [apply matches_int_inv|eassumption]; cbn [rbind] ].

Lemma parse_link_value card l n :
  matches (link_value l) n -> parse_link card n = Ok (stored_link card l).
Proof.
  intros H. unfold link_value in H. fields H. unfold parse_link. reading.
  unfold stored_link. destruct (String.eqb (to_card_id l) ""); [done|].
  destruct (String.eqb_spec (to_type l) "") as [_|Ht]; [done|].
  by rewrite (proj2 (String.eqb_neq _ _) Ht).
Qed.

Lemma parse_milestone_value card m n :
  matches (milestone_value m) n -> parse_milestone card n = Ok (stored_milestone card m).
Proof.
  intros H. unfold milestone_value in H. fields H. unfold parse_milestone. reading. done.
Qed.

Lemma parse_links_loop ns links p :
  Forall2 matches (map link_value links) ns ->
  for_each ns (fun item =>
    let* card := gets pf_card in
    let* link := lift (parse_link card item) in
    modify (add_link link)) p =
  (Ok tt, mkParsed (pf_card p) (pf_links p ++ omap (stored_link (pf_card p)) links)
            (pf_milestones p) (pf_body p) (has_front_matter p)).
Proof.
  revert ns p. induction links as [|l links IH]; intros ns p H; inversion H as [|? n ? ns' Hn Hns]; subst.
  - cbn. rewrite app_nil_r. by destruct p.
  - cbn [for_each]. unfold bind at 1 2 3, gets, lift, modify at 1.
    rewrite (parse_link_value _ l) by done. rewrite IH by done.
    cbn [omap list_omap]. destruct (stored_link (pf_card p) l) as [k|]; cbn; [|done].
    by rewrite <- app_assoc.
Qed.

Lemma parse_milestones_loop ns ms p :
  Forall2 matches (map milestone_value ms) ns ->
  for_each ns (fun item =>
    let* card := gets pf_card in
    let* m := lift (parse_milestone card item) in
    modify (add_milestone m)) p =
  (Ok tt, mkParsed (pf_card p) (pf_links p)
            (pf_milestones p ++ omap (stored_milestone (pf_card p)) ms) (pf_body p) (has_front_matter p)).
Proof.
  revert ns p. induction ms as [|l ms IH]; intros ns p H; inversion H as [|? n ? ns' Hn Hns]; subst.
  - cbn. rewrite app_nil_r. by destruct p.
  - cbn [for_each]. unfold bind at 1 2 3, gets, lift, modify at 1.
    rewrite (parse_milestone_value _ l) by done. rewrite IH by done.
    cbn [omap list_omap]. destruct (stored_milestone (pf_card p) l) as [k|]; cbn; [|done].
    by rewrite <- app_assoc.
Qed.

Lemma update_card_field_ok {A} (r : Card -> result A) set p a :
  r (pf_card p) = Ok a -> update_card_field r set p = (Ok tt, set_pf_card (set a (pf_card p)) p).
Proof. intros H. unfold update_card_field, bind, gets, lift, modify. by rewrite H. Qed.

Lemma update_card_field_step {A} (r : Card -> result A) set (k : Parsing unit) p a :
  r (pf_card p) = Ok a ->
  (update_card_field r set ;;; k) p = k (set_pf_card (set a (pf_card p)) p).
Proof. intros H. apply bind_seq. by apply update_card_field_ok. Qed.

Lemma parse_document_value card links ms kvs body raw :
  matches (front_matter_value card links ms) (YMap kvs) ->
  parse_document kvs body (mkParsed empty_card [] [] raw false) =
  (Ok tt, mkParsed card (omap (stored_link card) links) (omap (stored_milestone card) ms) body true).
Proof.
  intros H. unfold front_matter_value in H. fields H.
  repeat match goal with H : matches (VSeq _) _ |- _ => inversion H; subst; clear H end.
  unfold parse_document. erewrite bind_seq by reflexivity.
  erewrite bind_seq.
  2: { unfold parse_fields.
       do 8 (erewrite update_card_field_step by (cbn [pf_card]; reading; reflexivity)).
       apply update_card_field_ok. cbn [pf_card]. reading. reflexivity. }
  cbn [pf_card]. unfold parse_links, parse_milestones. cbn [field String.eqb Ascii.eqb Bool.eqb].
  erewrite bind_seq by (apply parse_links_loop; eassumption).
  erewrite bind_seq by (apply parse_milestones_loop; eassumption).
  destruct card. reflexivity.
Qed.

End Documents.

(** ** What a parse reads *)

(** [v] is what the key of a map gives: its value converted, or the default without the key. *)
Definition converts {A} (f : YNode -> option A) (kvs : list (string * YNode)) (key : string)
    (default v : A) : Prop :=
  match field kvs key with Some n => f n = Some v | None => v = default end.
(** The same for a value that may be null. *)
Definition converts_opt {A} (f : YNode -> option A) (kvs : list (string * YNode)) (key : string)
    (v : option A) : Prop :=
  match field kvs key with
  | Some YNull | None => v = None
  | Some n => exists a, f n = Some a /\ v = Some a
  end.
(** The entries under a key: its items when it is a sequence, none otherwise. *)
Definition entries (kvs : list (string * YNode)) (key : string) : list YNode :=
  match field kvs key with Some (YSeq items) => items | _ => [] end.

Section Reads.
Context {Y : Yaml}.
Context (kvs : list (string * YNode)).

(** What the file says of each field of a card, in the order they are read. *)
Definition stated (c : Card) : list Prop :=
  [converts as_string kvs "card_id" "" (card_id c);
   converts as_string kvs "project_id" "" (card_project_id c);
   converts as_string kvs "title" "" (title c);
   converts as_string kvs "rel_path" "" (rel_path c);
   converts as_int64 kvs "created_at" 0 (created_at c);
   converts as_int64 kvs "updated_at" 0 (updated_at c);
   converts as_double kvs "sort_key" f64_zero (sort_key c);
   converts_opt as_string kvs "parent_card_id" (parent_card_id c);
   converts_opt as_int64 kvs "deleted_at" (deleted_at c)].
(** The card has no value of its own in each field. *)
Definition unset (c : Card) : list Prop :=
  [card_id c = ""; card_project_id c = ""; title c = ""; rel_path c = ""; created_at c = 0;
   updated_at c = 0; sort_key c = f64_zero; parent_card_id c = None; deleted_at c = None].
(** The field holds something that is not of its type. *)
Definition garbled : list Prop :=
  [~ (exists v, converts as_string kvs "card_id" "" v);
   ~ (exists v, converts as_string kvs "project_id" "" v);
   ~ (exists v, converts as_string kvs "title" "" v);
   ~ (exists v, converts as_string kvs "rel_path" "" v);
   ~ (exists v, converts as_int64 kvs "created_at" 0 v);
   ~ (exists v, converts as_int64 kvs "updated_at" 0 v);
   ~ (exists v, converts as_double kvs "sort_key" f64_zero v);
   ~ (exists v, converts_opt as_string kvs "parent_card_id" v);
   ~ (exists v, converts_opt as_int64 kvs "deleted_at" v)].

(** Every field is as the file states it. *)
Definition fields_of (c : Card) : Prop := Forall id (stated c).
(** The first [k] fields are, the next one is garbled, and the rest are not set. *)
Definition fields_up_to (k : nat) (c : Card) : Prop :=
  Forall id (take k (stated c)) /\ (exists P, garbled !! k = Some P /\ P) /\ Forall id (drop k (unset c)).

(** What an item of [links] says of a link of the card: nothing when it is not a map or
    names no target. *)
Definition link_of_item (c : Card) (item : YNode) (o : option CardLink) : Prop :=
  match item with
  | YMap l => exists to type kind label created,
      converts as_string l "to" "" to /\ converts as_string l "to_type" "" type /\
      converts as_string l "kind" "" kind /\ converts_opt as_string l "label" label /\
      converts as_int64 l "created_at" 0 created /\
      o = (if decide (to = "") then None
           else Some (mkCardLink (card_project_id c) (card_id c) to
                        (if decide (type = "") then "card" else type)
                        (if decide (kind = "") then "ref" else kind) label created))
  | _ => o = None
  end.
Definition milestone_of_item (c : Card) (item : YNode) (o : option Milestone) : Prop :=
  match item with
  | YMap l => exists id start stop all kind description created updated,
      converts as_string l "milestone_id" "" id /\ converts as_int64 l "start_at" 0 start /\
      converts_opt as_int64 l "end_at" stop /\ converts as_bool l "all_day" false all /\
      converts_opt as_string l "kind" kind /\ converts_opt as_string l "description" description /\
      converts as_int64 l "created_at" 0 created /\ converts as_int64 l "updated_at" 0 updated /\
      o = (if decide (id = "") then None
           else Some (mkMilestone id (card_project_id c) (card_id c) start stop all kind description
                        created updated))
  | _ => o = None
  end.

(** [out] is what the items say, in their order. *)
Definition all_items {A} (says : YNode -> option A -> Prop) (items : list YNode) (out : list A) : Prop :=
  exists os, Forall2 says items os /\ out = omap id os.
(** [out] is what the items before the first garbled one say. *)
Definition items_up_to {A} (says : YNode -> option A -> Prop) (items : list YNode) (out : list A) : Prop :=
  exists good bad rest, items = good ++ bad :: rest /\ ~ (exists o, says bad o) /\ all_items says good out.

(** The document was read to its end, or up to the first thing in it that does not convert. *)
Definition read_whole (p : ParsedCardFile) : Prop :=
  fields_of (pf_card p) /\
  all_items (link_of_item (pf_card p)) (entries kvs "links") (pf_links p) /\
  all_items (milestone_of_item (pf_card p)) (entries kvs "milestones") (pf_milestones p).
Definition read_partly (p : ParsedCardFile) : Prop :=
  (exists k, fields_up_to k (pf_card p)) /\ pf_links p = [] /\ pf_milestones p = [] \/
  fields_of (pf_card p) /\
    items_up_to (link_of_item (pf_card p)) (entries kvs "links") (pf_links p) /\ pf_milestones p = [] \/
  fields_of (pf_card p) /\
    all_items (link_of_item (pf_card p)) (entries kvs "links") (pf_links p) /\
    items_up_to (milestone_of_item (pf_card p)) (entries kvs "milestones") (pf_milestones p).

(** [read] and [read_optional] answer what the key gives, and throw only when it gives
    nothing. *)
Lemma read_says {A} (f : YNode -> option A) l key d :
  match read f l key d with
  | Ok v => converts f l key d v
  | Err _ => ~ exists v, converts f l key d v
  end.
Proof.
  unfold read, converts, conv. destruct (field l key) as [n|]; [|done].
  destruct (f n); [done|]. by intros [? ?].
Qed.
Lemma read_optional_says {A} (f : YNode -> option A) l key :
  match read_optional f l key None with
  | Ok v => converts_opt f l key v
  | Err _ => ~ exists v, converts_opt f l key v
  end.
Proof.
  unfold read_optional, converts_opt, conv. destruct (field l key) as [n|]; [|done].
  destruct n; cbn [is_null]; try done;
    match goal with |- context [f ?n] => destruct (f n) end; cbn [rbind]; naive_solver.
Qed.

(** Reads the next key of a map: its value, or the reason it has none. *)
Ltac read_next :=
  match goal with
  | |- context [rbind ?r _] =>
      match r with
      | read ?f ?l ?k ?d => pose proof (read_says f l k d)
      | read_optional ?f ?l ?k None => pose proof (read_optional_says f l k)
      end; destruct r; cbn [rbind]
  end.

Lemma parse_link_says c item :
  match parse_link c item with
  | Ok o => link_of_item c item o
  | Err _ => ~ exists o, link_of_item c item o
  end.
Proof.
  destruct item as [|s|ns|l]; try done. unfold parse_link, link_of_item.
  do 5 (read_next; [|cbv beta iota; intros (? & ? & ? & ? & ? & ? & ?); naive_solver]).
  do 5 eexists. do 5 (split; [eassumption|]).
  repeat case_decide; repeat match goal with |- context [String.eqb ?a ""] => destruct (String.eqb_spec a "") end;
    congruence.
Qed.

Lemma parse_milestone_says c item :
  match parse_milestone c item with
  | Ok o => milestone_of_item c item o
  | Err _ => ~ exists o, milestone_of_item c item o
  end.
Proof.
  destruct item as [|s|ns|l]; try done. unfold parse_milestone, milestone_of_item.
  do 8 (read_next; [|cbv beta iota; intros (? & ? & ? & ? & ? & ? & ? & ? & ? & ?); naive_solver]).
  do 8 eexists. do 8 (split; [eassumption|]).
  repeat case_decide; repeat match goal with |- context [String.eqb ?a ""] => destruct (String.eqb_spec a "") end;
    congruence.
Qed.

Lemma update_card_field_cases {A} (r : Card -> result A) set (k : Parsing unit) p :
  (update_card_field r set ;;; k) p =
  match r (pf_card p) with Ok a => k (set_pf_card (set a (pf_card p)) p) | Err e => (Err e, p) end.
Proof. unfold update_card_field, bind, gets, lift, modify. by destruct (r (pf_card p)). Qed.

(** Reads the next field of the card, or stops with the fields before it. *)
Ltac next_field n :=
  rewrite update_card_field_cases; cbn [pf_card set_pf_card set_card_id set_card_project
    set_card_title set_card_rel_path set_card_created_at set_card_updated_at set_card_sort_key
    set_card_parent card_id card_project_id title rel_path created_at updated_at sort_key
    parent_card_id deleted_at empty_card];
  match goal with
  | |- context [read ?f ?l ?k ?d] =>
      pose proof (read_says f l k d); destruct (read f l k d)
  | |- context [read_optional ?f ?l ?k None] =>
      pose proof (read_optional_says f l k); destruct (read_optional f l k None)
  end; [|exists n; repeat split; [by repeat constructor|by eexists|by repeat constructor]].

Lemma parse_fields_says raw :
  match parse_fields kvs (mkParsed empty_card [] [] raw true) with
  | (Ok _, p) => fields_of (pf_card p)
  | (Err _, p) => exists k, fields_up_to k (pf_card p)
  end.
Proof.
  unfold parse_fields.
  next_field 0%nat. next_field 1%nat. next_field 2%nat. next_field 3%nat. next_field 4%nat.
  next_field 5%nat. next_field 6%nat. next_field 7%nat.
  unfold update_card_field, bind, gets, lift, modify. cbn [pf_card set_pf_card set_card_parent].
  match goal with |- context [read_optional ?f ?l ?k ?d] => 
    change d with (@None Z); pose proof (read_optional_says f l k); destruct (read_optional f l k None) end.
  - by repeat constructor.
  - exists 8%nat. repeat split; [by repeat constructor|by eexists|by repeat constructor].
Qed.

(** Reading a sequence of entries gives what they say, up to the first garbled one. *)
Lemma entries_say {A} (parse : Card -> YNode -> result (option A)) (add : option A -> ParsedCardFile -> ParsedCardFile)
    (get : ParsedCardFile -> list A) (says : Card -> YNode -> option A -> Prop) items p :
  (forall c item, match parse c item with Ok o => says c item o | Err _ => ~ exists o, says c item o end) ->
  (forall o q, pf_card (add o q) = pf_card q /\ get (add o q) = get q ++ omap id [o]) ->
  match for_each items (fun item =>
          let* card := gets pf_card in let* o := lift (parse card item) in modify (add o)) p with
  | (Ok _, q) => exists out, get q = get p ++ out /\ all_items (says (pf_card p)) items out
  | (Err _, q) => exists out, get q = get p ++ out /\ items_up_to (says (pf_card p)) items out
  end.
Proof.
  intros Hparse Hadd. revert p. induction items as [|item items IH]; intros p.
  { exists []. split; [by rewrite app_nil_r|]. by exists []. }
  cbn [for_each]. unfold bind at 1 2 3, gets, lift, modify at 1.
  specialize (Hparse (pf_card p) item). destruct (parse (pf_card p) item) as [o|e].
  2: { exists []. split; [by rewrite app_nil_r|]. exists [], item, items. split; [done|]. split; [done|].
       by exists []. }
  specialize (IH (add o p)). destruct (Hadd o p) as [Hc Hg]. rewrite Hc, Hg in IH.
  destruct (for_each items _ (add o p)) as [[u|e] q].
  - destruct IH as (out & Hq & os & Hos & ->). exists (omap id [o] ++ omap id os).
    split; [by rewrite Hq, app_assoc|]. exists (o :: os). split; [by constructor|]. by destruct o.
  - destruct IH as (out & Hq & good & bad & rest & -> & Hbad & os & Hos & ->).
    exists (omap id [o] ++ omap id os). split; [by rewrite Hq, app_assoc|].
    exists (item :: good), bad, rest. split; [done|]. split; [done|].
    exists (o :: os). split; [by constructor|]. by destruct o.
Qed.

Lemma all_items_nil {A} (says : YNode -> option A -> Prop) : all_items says [] [].
Proof. by exists []. Qed.

Lemma parse_links_says p :
  pf_links p = [] ->
  match parse_links kvs p with
  | (Ok _, q) => all_items (link_of_item (pf_card p)) (entries kvs "links") (pf_links q)
  | (Err _, q) => items_up_to (link_of_item (pf_card p)) (entries kvs "links") (pf_links q)
  end.
Proof.
  intros Hp. unfold parse_links, entries.
  destruct (field kvs "links") as [[| |items|]|]; cbn [mret]; rewrite ?Hp; try apply all_items_nil.
  pose proof (entries_say parse_link add_link pf_links link_of_item items p parse_link_says) as H.
  destruct (for_each _ _ p) as [[u|e] q];
    (destruct H as (out & Hq & H); [intros [] ?; cbn; by rewrite ?app_nil_r|]; by rewrite Hq, Hp).
Qed.

Lemma parse_milestones_says p :
  pf_milestones p = [] ->
  match parse_milestones kvs p with
  | (Ok _, q) => all_items (milestone_of_item (pf_card p)) (entries kvs "milestones") (pf_milestones q)
  | (Err _, q) => items_up_to (milestone_of_item (pf_card p)) (entries kvs "milestones") (pf_milestones q)
  end.
Proof.
  intros Hp. unfold parse_milestones, entries.
  destruct (field kvs "milestones") as [[| |items|]|]; cbn [mret]; rewrite ?Hp; try apply all_items_nil.
  pose proof (entries_say parse_milestone add_milestone pf_milestones milestone_of_item items p
                parse_milestone_says) as H.
  destruct (for_each _ _ p) as [[u|e] q];
    (destruct H as (out & Hq & H); [intros [] ?; cbn; by rewrite ?app_nil_r|]; by rewrite Hq, Hp).
Qed.

End Reads.

(** ** What any parse keeps *)

Definition link_of_card (c : Card) (l : CardLink) : Prop :=
  link_project_id l = card_project_id c /\ from_card_id l = card_id c /\
  to_card_id l <> "" /\ to_type l <> "" /\ link_kind l <> "".
Definition milestone_of (c : Card) (m : Milestone) : Prop :=
  ms_project_id m = card_project_id c /\ ms_card_id m = card_id c /\ milestone_id m <> "".

(** The state while the entries are read: the card, the body and the flag stay. *)
Definition owned (c : Card) (body : string) (p : ParsedCardFile) : Prop :=
  pf_card p = c /\ pf_body p = body /\ has_front_matter p = true /\
  Forall (link_of_card c) (pf_links p) /\ Forall (milestone_of c) (pf_milestones p).

Section Parse.
Context {Y : Yaml}.

Lemma rbind_ok {A B} (r : result A) (f : A -> result B) b :
  rbind r f = Ok b -> exists a, r = Ok a /\ f a = Ok b.
Proof. destruct r as [a|e]; [by exists a|done]. Qed.

Lemma parse_link_owned c n l : parse_link c n = Ok (Some l) -> link_of_card c l.
Proof.
  destruct n as [|s|ns|kvs]; try done. unfold parse_link.
  repeat (intros (? & _ & H)%rbind_ok; revert H).
  match goal with |- context [String.eqb ?a ""] => destruct (String.eqb_spec a "") as [?|Hto] end;
    [done|].
  intros [= <-]. repeat split; cbn; [done| |];
    match goal with |- (if ?b then _ else _) <> _ => destruct b eqn:E; [done|] end;
    by apply String.eqb_neq in E.
Qed.

Lemma parse_milestone_owned c n m : parse_milestone c n = Ok (Some m) -> milestone_of c m.
Proof.
  destruct n as [|s|ns|kvs]; try done. unfold parse_milestone.
  repeat (intros (? & _ & H)%rbind_ok; revert H).
  match goal with |- context [String.eqb ?a ""] => destruct (String.eqb_spec a "") as [?|Hto] end;
    [done|].
  by intros [= <-].
Qed.

Lemma parse_links_owned c body kvs : preserves (owned c body) (parse_links kvs).
Proof.
  unfold parse_links. destruct (field kvs "links") as [[| |items|]|]; auto with preserves.
  apply preserves_for_each. intros n p (Hc & Hb & Hf & Hl & Hm).
  unfold bind, gets, lift, modify. rewrite Hc.
  destruct (parse_link c n) as [[l|]|e] eqn:El; cbn; repeat split; try done.
  apply Forall_app. split; [done|]. apply Forall_singleton. by eapply parse_link_owned.
Qed.

Lemma parse_milestones_owned c body kvs : preserves (owned c body) (parse_milestones kvs).
Proof.
  unfold parse_milestones. destruct (field kvs "milestones") as [[| |items|]|]; auto with preserves.
  apply preserves_for_each. intros n p (Hc & Hb & Hf & Hl & Hm).
  unfold bind, gets, lift, modify. rewrite Hc.
  destruct (parse_milestone c n) as [[l|]|e] eqn:El; cbn; repeat split; try done.
  apply Forall_app. split; [done|]. apply Forall_singleton. by eapply parse_milestone_owned.
Qed.

(** While the card's own fields are read there are no entries yet. *)
Definition fresh (body : string) (p : ParsedCardFile) : Prop :=
  pf_body p = body /\ has_front_matter p = true /\ pf_links p = [] /\ pf_milestones p = [].

Lemma parse_fields_fresh body kvs : preserves (fresh body) (parse_fields kvs).
Proof.
  unfold parse_fields, update_card_field.
  repeat (apply preserves_bind; intros); auto with preserves.
Qed.

Lemma parse_document_owned kvs body raw res p :
  parse_document kvs body (mkParsed empty_card [] [] raw false) = (res, p) ->
  has_front_matter p = true /\ pf_body p = (match res with Ok _ => body | Err _ => raw end) /\
  Forall (link_of_card (pf_card p)) (pf_links p) /\ Forall (milestone_of (pf_card p)) (pf_milestones p).
Proof.
  unfold parse_document. unfold bind at 1, modify at 1. cbn [pf_card pf_links pf_milestones pf_body].
  set (p0 := mkParsed empty_card [] [] raw true).
  pose proof (parse_fields_fresh raw kvs p0 ltac:(done)) as (F1 & F2 & F3 & F4).
  unfold bind at 1. destruct (parse_fields kvs p0) as [[[]|e] p1]; cbn in F1, F2, F3, F4.
  2: { intros [= <- <-]. rewrite F3, F4. repeat split; [done|done|constructor|constructor]. }
  assert (owned (pf_card p1) raw p1) as H1.
  { split; [done|]. split; [done|]. split; [done|]. rewrite F3, F4. split; constructor. }
  pose proof (parse_links_owned (pf_card p1) raw kvs p1 H1) as H2.
  unfold bind at 1. destruct (parse_links kvs p1) as [[[]|e] p2]; cbn in H2.
  2: { intros [= <- <-]. by destruct H2 as (<- & -> & -> & H3 & H4). }
  pose proof (parse_milestones_owned (pf_card p1) raw kvs p2 H2) as H3.
  unfold bind at 1. destruct (parse_milestones kvs p2) as [[[]|e] p3]; cbn in H3; intros [= <- <-].
  2: { by destruct H3 as (<- & -> & -> & ? & ?). }
  cbn. by destruct H3 as (<- & _ & -> & ? & ?).
Qed.

(** While the links are read the card and the milestones stay, and so with the milestones. *)
Lemma parse_links_keep c ms kvs :
  preserves (fun p => pf_card p = c /\ pf_milestones p = ms) (parse_links kvs).
Proof.
  unfold parse_links. destruct (field kvs "links") as [[| |items|]|]; auto with preserves.
  apply preserves_for_each. intros n p [Hc Hm]. unfold bind, gets, lift, modify.
  by destruct (parse_link (pf_card p) n) as [[l|]|e].
Qed.
Lemma parse_milestones_keep c ls kvs :
  preserves (fun p => pf_card p = c /\ pf_links p = ls) (parse_milestones kvs).
Proof.
  unfold parse_milestones. destruct (field kvs "milestones") as [[| |items|]|]; auto with preserves.
  apply preserves_for_each. intros n p [Hc Hm]. unfold bind, gets, lift, modify.
  by destruct (parse_milestone (pf_card p) n) as [[l|]|e].
Qed.

Lemma parse_document_says kvs body raw :
  match parse_document kvs body (mkParsed empty_card [] [] raw false) with
  | (Ok _, p) => read_whole kvs p
  | (Err _, p) => read_partly kvs p
  end.
Proof.
  unfold parse_document. unfold bind at 1, modify at 1. cbn [pf_card pf_links pf_milestones pf_body].
  pose proof (parse_fields_fresh raw kvs (mkParsed empty_card [] [] raw true) ltac:(done)) as (_ & _ & F3 & F4).
  pose proof (parse_fields_says kvs raw) as Hf.
  unfold bind at 1. destruct (parse_fields kvs _) as [[[]|e] p1]; cbn in F3, F4; [|by left].
  pose proof (parse_links_says kvs p1 F3) as Hl.
  pose proof (parse_links_keep (pf_card p1) [] kvs p1 ltac:(done)) as Hk.
  unfold bind at 1. destruct (parse_links kvs p1) as [[[]|e] p2]; cbn in Hk; destruct Hk as [Hc2 Hm2].
  2: { right; left. by rewrite Hc2, Hm2. }
  pose proof (parse_milestones_says kvs p2 Hm2) as Hm.
  pose proof (parse_milestones_keep (pf_card p1) (pf_links p2) kvs p2 ltac:(done)) as Hk.
  unfold bind at 1. destruct (parse_milestones kvs p2) as [[[]|e] p3]; cbn in Hk; destruct Hk as [Hc3 Hl3].
  - unfold read_whole. cbn. rewrite Hc3, Hl3. rewrite Hc2 in Hm. done.
  - right; right. rewrite Hc3, Hl3. rewrite Hc2 in Hm. done.
Qed.

(** The YAML library loads what it emits for a document, and the document holds nothing that
    ends it early. *)
Definition loads_back (v : YValue) : Prop :=
  no_dash_line (c_str (yaml_emit v)) /\
  exists kvs, yaml_load (c_str (yaml_emit v)) = Some (YMap kvs) /\ matches v (YMap kvs).

Lemma parse_rendered card links ms body :
  loads_back (front_matter_value card links ms) ->
  parse_card_file (render_card_front_matter card links ms +:+ body) =
  mkParsed card (omap (stored_link card) links) (omap (stored_milestone card) ms) body true.
Proof.
  intros (Hdash & kvs & Hload & Hm). unfold parse_card_file, render_card_front_matter.
  rewrite split_front_matter_render by done. rewrite Hload.
  by rewrite (parse_document_value card links ms).
Qed.
End Parse.

End CardFrontMatterFacts.

Module CardFrontMatterTheorems.
Import CardFrontMatter CardFrontMatterFacts.

(** C37: a card file reads back as what was written: when the YAML library loads the
    document it emitted for the card, and no line of that document is the closing
    delimiter, parsing the rendered front matter followed by any body gives the card
    with every field, the body byte for byte, and the links and milestones in order,
    except those without a target or an id, which files do not keep. *)
Theorem card_file_roundtrip (Y : Yaml) (card : Card) (links : list CardLink) (ms : list Milestone)
    (body : string) (kvs : list (string * YNode)) :
  let text := c_str (yaml_emit (front_matter_value card links ms)) in
  yaml_load text = Some (YMap kvs) -> matches (front_matter_value card links ms) (YMap kvs) ->
  no_dash_line text ->
  parse_card_file (render_card_front_matter card links ms +:+ body) =
  mkParsed card (omap (stored_link card) links) (omap (stored_milestone card) ms) body true.
Proof.
  intros text Hload Hm Hdash. apply parse_rendered. split; [done|]. by exists kvs.
Qed.

(** C39: what a card file gives, whatever it holds. Without front matter, or when that is
    not a YAML map, the whole file is the body and nothing else is set. With a map, either
    everything in it converts: then each field of the card is the value of its key, or the
    field's default without the key, the links and milestones are exactly those the items of
    their sequences state, in order, and the body is what follows the closing delimiter; or
    something does not convert: then the fields and the entries before it are as the map
    states them, the others are not set, and the file is kept whole as the body. Every link
    and milestone read belongs to the card that was read. *)
Theorem parse_card_file_outcomes (Y : Yaml) (raw : string) :
  let p := parse_card_file raw in
  match split_front_matter raw with
  | Some (text, body) =>
      match yaml_load text with
      | Some (YMap kvs) =>
          has_front_matter p = true /\
          (pf_body p = body /\ read_whole kvs p \/ pf_body p = raw /\ read_partly kvs p)
      | _ => p = mkParsed empty_card [] [] raw false
      end
  | None => p = mkParsed empty_card [] [] raw false
  end /\
  Forall (link_of_card (pf_card p)) (pf_links p) /\
  Forall (milestone_of (pf_card p)) (pf_milestones p).
Proof.
  cbv zeta. unfold parse_card_file.
  destruct (split_front_matter raw) as [[text body]|]; [|by repeat constructor].
  destruct (yaml_load text) as [[| | |kvs]|]; try by repeat constructor.
  pose proof (parse_document_owned kvs body raw) as H. pose proof (parse_document_says kvs body raw) as Hs.
  destruct (parse_document kvs body _) as [res p]. destruct (H res p eq_refl) as (H1 & H2 & H3 & H4).
  split; [|done]. split; [done|]. destruct res; [by left|by right].
Qed.

(** A YAML library that knows one document. *)
Definition sample_card : Card := mkCard "a" "p" "Plan" "a.md" None (f64_of_Z 1) 10 20 None.
Definition sample_link : CardLink := mkCardLink "p" "a" "b" "" "ref" (Some "see") 11.
Definition sample_node : list (string * YNode) :=
  [("card_id", YScalar "a"); ("project_id", YScalar "p"); ("title", YScalar "Plan");
   ("created_at", YScalar "10"); ("updated_at", YScalar "20"); ("parent_card_id", YNull);
   ("sort_key", YScalar "1"); ("rel_path", YScalar "a.md"); ("deleted_at", YNull);
   ("links", YSeq [YMap [("to", YScalar "b"); ("to_type", YScalar "card"); ("kind", YScalar "ref");
                         ("created_at", YScalar "11"); ("label", YScalar "see")]]);
   ("milestones", YSeq [])].
Definition scalar_int (n : YNode) : option Z :=
  match n with
  | YScalar s => if String.eqb s "10" then Some 10 else if String.eqb s "11" then Some 11
                 else if String.eqb s "20" then Some 20 else None
  | _ => None
  end.
Definition sample_yaml : Yaml := {|
  yaml_load s := if String.eqb s "doc" then Some (YMap sample_node) else None;
  as_string n := match n with YScalar s => Some s | _ => None end;
  as_int64 := scalar_int;
  as_double n := match n with YScalar s => if String.eqb s "1" then Some (f64_of_Z 1) else None | _ => None end;
  as_bool _ := None;
  yaml_emit _ := "doc"
|}.

Example card_file_roundtrip_witness :
  @parse_card_file sample_yaml
    (@render_card_front_matter sample_yaml sample_card [sample_link] [] +:+ "# Plan") =
  mkParsed sample_card [mkCardLink "p" "a" "b" "card" "ref" (Some "see") 11] [] "# Plan" true.
Proof.
  apply (card_file_roundtrip sample_yaml sample_card [sample_link] [] "# Plan" sample_node).
  - reflexivity.
  - repeat (constructor; try reflexivity).
  - intros pre post H. exfalso.
    do 3 (destruct pre as [|? pre]; [discriminate H|injection H as _ H]).
    destruct pre; discriminate H.
Defined.

End CardFrontMatterTheorems.
