(* ===== verification/Sync.v ===== *)
(** * Synchronising a project

    [src/src/sync/]: when a push or pull is attempted ([ProjectSyncPolicy.cpp]), what a
    sync does ([ProjectSyncOperation.cpp]) and how the local side of a diverged pull is
    kept ([PullConflictResolution.cpp]). Git, the file store, encryption and the index
    rebuild are the operations of the class [SyncServices]; the result the code fills in
    step by step is part of the state, so a phase that throws keeps what it had set. *)

From stdpp Require Import base list sets strings numbers sorting.
From S2P Require Import Prelude Double Model Text Uuid Database CardRepo.
From S2P Require Import ProjectRepo ProjectSyncRepo CardFrontMatter.

Module ProjectSyncPolicy.

Record PushDecisionInput := mkPushInput {
  pd_last_push_at : option Z;
  pd_next_retry_at : option Z;
  pd_now : Z;
  push_interval_seconds : Z
}.
Record PullDecisionInput := mkPullInput {
  pl_last_pull_at : option Z;
  pl_next_pull_retry_at : option Z;
  pl_now : Z;
  pull_interval_seconds : Z
}.

Definition should_attempt_push (input : PushDecisionInput) : bool :=
  if match pd_next_retry_at input with Some t => Z.ltb (pd_now input) t | None => false end
  then false
  else match pd_last_push_at input with
       | None => true
       | Some last => Z.leb (push_interval_seconds input) (pd_now input - last)
       end.

Definition should_attempt_pull (input : PullDecisionInput) : bool :=
  if match pl_next_pull_retry_at input with Some t => Z.ltb (pl_now input) t | None => false end
  then false
  else match pl_last_pull_at input with
       | None => true
       | Some last => Z.leb (pull_interval_seconds input) (pl_now input - last)
       end.

End ProjectSyncPolicy.

Module ProjectSync.
Import CardFrontMatter ProjectSyncRepo.

Inductive PushStatus :=
| Pushed | UpToDate | AuthFailed | NotFound | NetworkError | NonFastForward | RemoteUnset
| UnknownError.

Definition push_status_name (status : PushStatus) : string :=
  match status with
  | Pushed => "pushed"
  | UpToDate => "up_to_date"
  | AuthFailed => "auth_failed"
  | NotFound => "not_found"
  | NetworkError => "network_error"
  | NonFastForward => "non_fast_forward"
  | RemoteUnset => "remote_unset"
  | UnknownError => "unknown_error"
  end.

Record PushResult := mkPush {
  pr_status : PushStatus;
  pr_ahead_count : Z;
  pr_behind_count : Z;
  pr_local_head_commit : string;
  pr_error_message : string
}.

Inductive PullPhaseStatus := NotAttempted | Succeeded | PullRemoteUnset | Failed.

Definition pull_phase_status_name (status : PullPhaseStatus) : string :=
  match status with
  | NotAttempted => "not_attempted"
  | Succeeded => "succeeded"
  | PullRemoteUnset => "remote_unset"
  | Failed => "failed"
  end.

#[export] Instance PullPhaseStatus_eq_dec : EqDecision PullPhaseStatus.
Proof. solve_decision. Defined.

Record PullPhaseResult := mkPullPhase {
  pull_attempted : bool;
  pull_status : PullPhaseStatus;
  conflicts_resolved : Z;
  hidden_cards_repaired : Z;
  pull_error : option string
}.
Record PushPhaseResult := mkPushPhase {
  push_attempted : bool;
  push_status : PushStatus;
  ahead_count : Z;
  behind_count : Z;
  local_head_commit : option string;
  push_error : option string
}.

Record ProjectSyncRequest := mkRequest {
  req_pull : bool;
  req_push : bool;
  push_after_failed_pull : bool;
  req_branch : string;
  set_upstream : bool;
  req_now : Z
}.

Record ProjectSyncResult := mkSyncResult {
  res_project_id : string;
  res_remote_url : option string;
  res_pull : PullPhaseResult;
  res_push : PushPhaseResult
}.

(** [ProjectSyncResult{}] *)
Definition empty_result : ProjectSyncResult :=
  mkSyncResult "" None (mkPullPhase false NotAttempted 0 0 None)
    (mkPushPhase false UnknownError 0 0 None None).

Definition push_succeeded (status : PushStatus) : bool :=
  match status with Pushed | UpToDate => true | _ => false end.

Definition nonempty (value : string) : option string :=
  if String.eqb value "" then None else Some value.

Definition is_succeeded (s : PullPhaseStatus) : bool :=
  match s with Succeeded => true | _ => false end.

(** [ProjectSyncResult::succeeded] *)
Definition succeeded (r : ProjectSyncResult) : bool :=
  if pull_attempted (res_pull r) && negb (is_succeeded (pull_status (res_pull r))) then false
  else if push_attempted (res_push r) && negb (push_succeeded (push_status (res_push r))) then false
  else pull_attempted (res_pull r) || push_attempted (res_push r).

(** Everything outside the tables is a value of [World]. *)
Definition State (World : Type) : Type := Db * World.

(** The operations a sync calls. [lock_operation] waits for other operations on the
    repository, so the tables may be different when it returns. A pull that does not
    fast-forward answers the two commits. *)
Class SyncServices (World : Type) := {
  lock_operation : string -> M (State World) unit;
  git_open_or_init : string -> M (State World) unit;
  git_set_remote : string -> string -> M (State World) unit;
  git_pull_remote_ff_only : string -> M (State World) (option (string * string));
  git_merge_taking_theirs : string -> string -> string -> M (State World) (list string);
  git_read_blob_at : string -> string -> M (State World) (option string);
  git_push_branch : string -> string -> bool -> M (State World) PushResult;
  decrypt_project_blob : string -> string -> string -> M (State World) string;
  draw_id_inputs : M (State World) (list Z * Z);
  store_create : Card -> string -> M (State World) unit;
  rebuild_project : Project -> M (State World) unit;
  repair_hierarchy : string -> Z -> M (State World) (list string);
  inspect_repo_sync_metrics : string -> string -> M (State World) (Z * Z);
  assert_encryption_push_safe : string -> M (State World) unit;
  what : error -> string
}.

Section Operation.
Context {E : SqlEngine} {Y : Yaml} {World : Type} {S : SyncServices World}.

Definition on_db {A} (m : Repo A) : M (State World) A :=
  fun s => let '(r, db) := m (fst s) in (r, (db, snd s)).

Definition reconcile_index_after_pull (project : Project) : M (State World) unit :=
  rebuild_project project.

(** The [try] that decrypts a blob. *)
Definition conflict_text (project : Project) (raw : string) : M (State World) (option string) :=
  try_catch
    (let* text :=
       match String.eqb (privacy_mode project) "encrypted_git", project_key_id project with
       | true, Some key => decrypt_project_blob (project_id project) key raw
       | _, _ => mret raw
       end in
     mret (Some text))
    (fun _ => mret None).

(** The body of the loop of [resolve_pull_conflicts]: whether the path was resolved. *)
Definition resolve_conflict (project : Project) (scheme : IdScheme) (local_oid : string) (now : Z)
    (path : string) : M (State World) bool :=
  let* blob := git_read_blob_at local_oid path in
  match blob with
  | None => mret false
  | Some raw =>
      let* plain := conflict_text project raw in
      match plain with
      | None => mret false
      | Some text =>
          let parsed := parse_card_file text in
          if negb (has_front_matter parsed) then mret false
          else
            let* inputs := draw_id_inputs in
            let* id := lift (Uuid.generate_id scheme (fst inputs) (snd inputs)) in
            let duplicate :=
              mkCard (string_of id) (project_id project)
                (title (pf_card parsed) +:+ " (conflicted copy)") ""
                (parent_card_id (pf_card parsed)) f64_zero now now None in
            try_catch (store_create duplicate (pf_body parsed) ;;; mret true) (fun _ => mret false)
      end
  end.

Fixpoint resolve_paths (f : string -> M (State World) bool) (paths : list string) (resolved : Z)
    : M (State World) Z :=
  match paths with
  | [] => mret resolved
  | p :: rest => let* ok := f p in resolve_paths f rest (if ok then resolved + 1 else resolved)
  end.

Definition resolve_pull_conflicts (project : Project) (local_oid remote_oid : string) (now : Z)
    : M (State World) Z :=
  let* current := gets (fun s : State World => ProjectRepo.get (fst s) (project_id project)) in
  match current with
  | None => throw (Runtime ("project not found: " +:+ project_id project))
  | Some c =>
      let* paths := git_merge_taking_theirs "origin" local_oid remote_oid in
      resolve_paths (resolve_conflict project (id_scheme c) local_oid now) paths 0
  end.

(** Failures are swallowed. *)
Definition refresh_activity_best_effort (project : Project) (now : Z) : M (State World) unit :=
  try_catch
    (let* metrics := inspect_repo_sync_metrics (root_path project) "origin" in
     on_db (update_activity_counts (project_id project)
              (mkActivity (fst metrics) (snd metrics) now)))
    (fun _ => mret tt).

Definition repair_hierarchy_after_pull (project : Project) (now : Z) : M (State World) Z :=
  try_catch
    (let* moved := repair_hierarchy (project_id project) now in
     mret (Z.of_nat (length moved)))
    (fun _ => mret 0).

(** ** The result under construction *)
Definition Phase (A : Type) : Type := M (State World * ProjectSyncResult) A.

Definition io {A} (m : M (State World) A) : Phase A :=
  fun s => let '(r, w) := m (fst s) in (r, (w, snd s)).

Definition set_pull (f : PullPhaseResult -> PullPhaseResult) : Phase unit :=
  modify (fun s => (fst s, mkSyncResult (res_project_id (snd s)) (res_remote_url (snd s))
                             (f (res_pull (snd s))) (res_push (snd s)))).
Definition set_push (f : PushPhaseResult -> PushPhaseResult) : Phase unit :=
  modify (fun s => (fst s, mkSyncResult (res_project_id (snd s)) (res_remote_url (snd s))
                             (res_pull (snd s)) (f (res_push (snd s))))).

Definition with_pull_status (st : PullPhaseStatus) (p : PullPhaseResult) : PullPhaseResult :=
  mkPullPhase (pull_attempted p) st (conflicts_resolved p) (hidden_cards_repaired p) (pull_error p).
Definition with_pull_failure (st : PullPhaseStatus) (e : string) (p : PullPhaseResult) : PullPhaseResult :=
  mkPullPhase (pull_attempted p) st (conflicts_resolved p) (hidden_cards_repaired p) (Some e).
Definition with_conflicts (n : Z) (p : PullPhaseResult) : PullPhaseResult :=
  mkPullPhase (pull_attempted p) (pull_status p) n (hidden_cards_repaired p) (pull_error p).
Definition with_repaired (n : Z) (p : PullPhaseResult) : PullPhaseResult :=
  mkPullPhase (pull_attempted p) (pull_status p) (conflicts_resolved p) n (pull_error p).
Definition with_push_attempted (p : PushPhaseResult) : PushPhaseResult :=
  mkPushPhase true (push_status p) (ahead_count p) (behind_count p) (local_head_commit p) (push_error p).
Definition with_push_failure (st : PushStatus) (e : string) (p : PushPhaseResult) : PushPhaseResult :=
  mkPushPhase (push_attempted p) st (ahead_count p) (behind_count p) (local_head_commit p) (Some e).
Definition with_push (r : PushResult) (p : PushPhaseResult) : PushPhaseResult :=
  mkPushPhase (push_attempted p) (pr_status r) (pr_ahead_count r) (pr_behind_count r)
    (nonempty (pr_local_head_commit r)) (nonempty (pr_error_message r)).

(** [record_pull_result] and [record_push_result] with what the result says by then. *)
Definition record_pull (id : string) (success : bool) (message : option string) (now : Z) : Phase unit :=
  let* p := gets (fun s : State World * ProjectSyncResult => res_pull (snd s)) in
  io (on_db (record_pull_result id (pull_phase_status_name (pull_status p)) success message now)).
Definition record_push (id : string) (success : bool) (message : option string) (now : Z) : Phase unit :=
  let* p := gets (fun s : State World * ProjectSyncResult => res_push (snd s)) in
  io (on_db (record_push_result id (push_status_name (push_status p)) success message now)).

Definition remote_error : string := "Remote URL is not configured.".

Definition remote_unset (id : string) (request : ProjectSyncRequest) : Phase unit :=
  if req_pull request then
    set_pull (with_pull_failure PullRemoteUnset remote_error) ;;;
    record_pull id false (Some remote_error) (req_now request)
  else
    set_push with_push_attempted ;;;
    set_push (with_push_failure RemoteUnset remote_error) ;;;
    record_push id false (Some remote_error) (req_now request).

Definition pull_phase (id : string) (project : Project) (url : string) (now : Z) : Phase unit :=
  try_catch
    (io (git_open_or_init (root_path project)) ;;;
     io (git_set_remote "origin" url) ;;;
     (let* diverged := io (git_pull_remote_ff_only "origin") in
      match diverged with
      | None => mret tt
      | Some (local_oid, remote_oid) =>
          let* n := io (resolve_pull_conflicts project local_oid remote_oid now) in
          set_pull (with_conflicts n)
      end) ;;;
     io (reconcile_index_after_pull project) ;;;
     (let* n := io (repair_hierarchy_after_pull project now) in set_pull (with_repaired n)) ;;;
     set_pull (with_pull_status Succeeded) ;;;
     record_pull id true None now)
    (fun e =>
       set_pull (with_pull_failure Failed (what e)) ;;;
       record_pull id false (Some (what e)) now) ;;;
  io (refresh_activity_best_effort project now).

Definition push_phase (id : string) (project : Project) (url : string) (request : ProjectSyncRequest)
    : Phase unit :=
  set_push with_push_attempted ;;;
  try_catch
    (io (git_open_or_init (root_path project)) ;;;
     io (git_set_remote "origin" url) ;;;
     when (String.eqb (privacy_mode project) "encrypted_git")
       (io (assert_encryption_push_safe (root_path project))) ;;;
     (let* push := io (git_push_branch "origin" (req_branch request) (set_upstream request)) in
      set_push (with_push push) ;;;
      record_push id (push_succeeded (pr_status push)) (nonempty (pr_error_message push))
        (req_now request)))
    (fun e =>
       set_push (with_push_failure UnknownError (what e)) ;;;
       record_push id false (Some (what e)) (req_now request)) ;;;
  io (refresh_activity_best_effort project (req_now request)).

Definition sync_phases (id : string) (project : Project) (request : ProjectSyncRequest) : Phase unit :=
  modify (fun s => (fst s,
    mkSyncResult (project_id project) (git_remote_url project)
      (mkPullPhase (req_pull request) NotAttempted 0 0 None) (res_push (snd s)))) ;;;
  match match git_remote_url project with Some url => nonempty url | None => None end with
  | None => remote_unset id request
  | Some url =>
      when (req_pull request) (pull_phase id project url (req_now request)) ;;;
      (let* pulled := gets (fun s : State World * ProjectSyncResult => pull_status (res_pull (snd s))) in
       when (req_push request
             && (negb (req_pull request) || is_succeeded pulled || push_after_failed_pull request))
         (push_phase id project url request))
  end.

(** A fresh result for the phases; what it is at the end is returned. *)
Definition with_result (m : Phase unit) : M (State World) ProjectSyncResult :=
  fun s => match m (s, empty_result) with
           | (Ok _, (s', r)) => (Ok r, s')
           | (Err e, (s', _)) => (Err e, s')
           end.

Definition run_project_sync (id : string) (request : ProjectSyncRequest)
    : M (State World) ProjectSyncResult :=
  if String.eqb id "" then throw (InvalidArgument "project_id must not be empty")
  else if negb (req_pull request) && negb (req_push request)
  then throw (InvalidArgument "project sync must request pull, push, or both")
  else
    let* initial := gets (fun s : State World => ProjectRepo.get (fst s) id) in
    match initial with
    | None => throw (Runtime ("project not found: " +:+ id))
    | Some first =>
        lock_operation (root_path first) ;;;
        (let* current := gets (fun s : State World => ProjectRepo.get (fst s) id) in
         match current with
         | None => throw (Runtime ("project not found: " +:+ id))
         | Some project =>
             if negb (String.eqb (root_path project) (root_path first))
             then throw (Runtime ("project root changed while waiting for sync: " +:+ id))
             else with_result (sync_phases id project request)
         end)
    end.

End Operation.
End ProjectSync.

Module ProjectSyncOperationFacts.
Import CardFrontMatter ProjectSyncRepo ProjectSyncFacts ProjectSync.

(** ** What a sync row says of pushes and pulls *)

Definition attempts_of (s : ProjectSyncState) :=
  (last_push_at s, last_pull_at s, last_push_status s, last_pull_status s,
   last_sync_error s, last_sync_error_at s,
   (retry_count s, next_retry_at s, pull_retry_count s, next_pull_retry_at s)).

Lemma attempts_bind_cong s t :
  attempts_of s = attempts_of t -> attempts_of (bind_sync_state s) = attempts_of (bind_sync_state t).
Proof. unfold attempts_of. cbn -[bind_text_optional]. by intros [= -> -> -> -> -> -> -> -> -> ->]. Qed.

Lemma attempts_pull_cong id st ok msg now s t :
  attempts_of s = attempts_of t ->
  attempts_of (pull_recorded id st ok msg now s) = attempts_of (pull_recorded id st ok msg now t).
Proof.
  unfold attempts_of, pull_recorded. intros [= H1 H2 H3 H4 H5 H6 H7 H8 H9 H10].
  destruct ok; cbn; by rewrite H1, H3, H7, H8, ?H2, ?H9.
Qed.

Lemma attempts_push_cong id st ok msg now s t :
  attempts_of s = attempts_of t ->
  attempts_of (push_recorded id st ok msg now s) = attempts_of (push_recorded id st ok msg now t).
Proof.
  unfold attempts_of, push_recorded. intros [= H1 H2 H3 H4 H5 H6 H7 H8 H9 H10].
  destruct ok; cbn; by rewrite H2, H4, H9, H10, ?H1, ?H7.
Qed.

(** Recording a push over a bound row is recording it over the row. *)
Lemma attempts_push_bound id st ok msg now s :
  attempts_of (bind_sync_state (push_recorded id st ok msg now (bind_sync_state s))) =
  attempts_of (bind_sync_state (push_recorded id st ok msg now s)).
Proof.
  unfold attempts_of, push_recorded, bind_sync_state.
  destruct ok; cbn -[bind_text bind_text_optional]; by rewrite !CardRepoFacts.bind_text_optional_idemp.
Qed.

(** ** The contract of the services *)

Section Facts.
Context {E : SqlEngine} `{!SqlEngineLaws E} {Y : Yaml} {World : Type} {S : SyncServices World}.

(** The operation may read and change the world and the cards, but not what has been
    recorded of syncs, and it removes no project. *)
Definition quiet {A} (m : M (State World) A) : Prop :=
  forall s, project_sync_state (fst (snd (m s))) = project_sync_state (fst s) /\
    forall i, project_exists i (fst s) = true -> project_exists i (fst (snd (m s))) = true.

Lemma quiet_bind {A B} (m : M (State World) A) (f : A -> M (State World) B) :
  quiet m -> (forall a, quiet (f a)) -> quiet (bind m f).
Proof.
  intros Hm Hf s. specialize (Hm s). unfold bind. destruct (m s) as [[a|e] s1]; [|done].
  specialize (Hf a s1). cbn in Hm. destruct Hm as [H1 H2], Hf as [H3 H4]. split; [congruence|auto].
Qed.
Lemma quiet_try {A} (m : M (State World) A) h :
  quiet m -> (forall e, quiet (h e)) -> quiet (try_catch m h).
Proof.
  intros Hm Hf s. specialize (Hm s). unfold try_catch. destruct (m s) as [[a|e] s1]; [done|].
  specialize (Hf e s1). cbn in Hm. destruct Hm as [H1 H2], Hf as [H3 H4]. split; [congruence|auto].
Qed.
Lemma quiet_pure {A} (r : result A) : quiet (fun s => (r, s)).
Proof. by intros s. Qed.
Lemma quiet_gets {A} (f : State World -> A) : quiet (gets f).
Proof. by intros s. Qed.
Lemma quiet_paths f paths n : (forall p, quiet (f p)) -> quiet (resolve_paths f paths n).
Proof.
  intros Hf. revert n. induction paths as [|p paths IH]; intros n; [apply quiet_pure|].
  apply quiet_bind; [apply Hf|]. intros b. apply IH.
Qed.

Record services_quiet : Prop := {
  q_open : forall r, quiet (git_open_or_init r);
  q_remote : forall n u, quiet (git_set_remote n u);
  q_pull : forall n, quiet (git_pull_remote_ff_only n);
  q_merge : forall n a b, quiet (git_merge_taking_theirs n a b);
  q_blob : forall c p, quiet (git_read_blob_at c p);
  q_push : forall n b u, quiet (git_push_branch n b u);
  q_decrypt : forall p k b, quiet (decrypt_project_blob p k b);
  q_draw : quiet draw_id_inputs;
  q_create : forall c b, quiet (store_create c b);
  q_rebuild : forall p, quiet (rebuild_project p);
  q_repair : forall p n, quiet (repair_hierarchy p n);
  q_metrics : forall r n, quiet (inspect_repo_sync_metrics r n);
  q_safe : forall r, quiet (assert_encryption_push_safe r)
}.

Context (Q : services_quiet).

Lemma resolve_conflict_quiet project scheme oid now path :
  quiet (resolve_conflict project scheme oid now path).
Proof.
  unfold resolve_conflict. apply quiet_bind; [apply Q|]. intros [raw|]; [|apply quiet_pure].
  apply quiet_bind.
  { unfold conflict_text.
    apply quiet_try; [|intros; apply quiet_pure]. apply quiet_bind; [|intros; apply quiet_pure].
    destruct (String.eqb _ _), (project_key_id project); try apply quiet_pure. apply Q. }
  intros [text|]; [|apply quiet_pure]. destruct (negb _); [apply quiet_pure|].
  apply quiet_bind; [apply Q|]. intros inputs. apply quiet_bind; [apply quiet_pure|]. intros id.
  apply quiet_try; [|intros; apply quiet_pure]. apply quiet_bind; [apply Q|intros; apply quiet_pure].
Qed.

Lemma resolve_pull_conflicts_quiet project a b now : quiet (resolve_pull_conflicts project a b now).
Proof.
  unfold resolve_pull_conflicts. apply quiet_bind; [apply quiet_gets|].
  intros [c|]; [|apply quiet_pure]. apply quiet_bind; [apply Q|]. intros paths.
  apply quiet_paths. intros p. apply resolve_conflict_quiet.
Qed.

Lemma repair_after_pull_quiet project now : quiet (repair_hierarchy_after_pull project now).
Proof.
  apply quiet_try; [|intros; apply quiet_pure]. apply quiet_bind; [apply Q|intros; apply quiet_pure].
Qed.

(** ** Steps of a phase *)

Definition PState : Type := State World * ProjectSyncResult.

(** What every step before the outcome of a phase is recorded leaves alone: the sync
    rows, the projects, and the part [K] of the result. *)
Definition framed_to (K : ProjectSyncResult -> ProjectSyncResult -> Prop) (s t : PState) : Prop :=
  project_sync_state (fst (fst t)) = project_sync_state (fst (fst s)) /\
  (forall i, project_exists i (fst (fst s)) = true -> project_exists i (fst (fst t)) = true) /\
  K (snd s) (snd t).

(** The computation throws inside the frame, or arrives inside the frame at one of the
    continuations [F]. *)
Definition reaches (K : ProjectSyncResult -> ProjectSyncResult -> Prop) (F : Phase unit -> Prop)
    (m : Phase unit) : Prop :=
  forall s, (exists e t, m s = (Err e, t) /\ framed_to K s t) \/
            (exists fin t, F fin /\ framed_to K s t /\ m s = fin t).

Definition framed {A} K (m : Phase A) : Prop := forall s, framed_to K s (snd (m s)).

Lemma framed_to_trans K `{!Transitive K} s t u : framed_to K s t -> framed_to K t u -> framed_to K s u.
Proof.
  intros (H1 & H2 & H3) (H4 & H5 & H6). split; [congruence|]. split; [auto|]. by transitivity (snd t).
Qed.

Lemma reaches_bind {A} K F (m : Phase A) k `{!Transitive K} :
  framed K m -> (forall a, reaches K F (k a)) -> reaches K F (bind m k).
Proof.
  intros Hm Hk s. specialize (Hm s). unfold bind. destruct (m s) as [[a|e] s1]; cbn in Hm.
  - destruct (Hk a s1) as [(e & t & -> & Hf)|(fin & t & Hfin & Hf & ->)].
    + left. exists e, t. split; [done|]. by eapply framed_to_trans.
    + right. exists fin, t. split; [done|]. split; [|done]. by eapply framed_to_trans.
  - left. by exists e, s1.
Qed.

Lemma reaches_here K (F : Phase unit -> Prop) m `{!Reflexive K} : F m -> reaches K F m.
Proof. intros H s. right. exists m, s. done. Qed.

Lemma framed_io {A} K (m : M (State World) A) `{!Reflexive K} : quiet m -> framed K (io m).
Proof. intros H s. specialize (H (fst s)). unfold io. destruct (m (fst s)) as [r w]. by destruct H. Qed.

Lemma framed_bind {A B} K (m : Phase A) (k : A -> Phase B) `{!Transitive K} :
  framed K m -> (forall a, framed K (k a)) -> framed K (bind m k).
Proof.
  intros Hm Hk s. specialize (Hm s). unfold bind. destruct (m s) as [[a|e] s1]; cbn in Hm; [|done].
  eapply framed_to_trans; [done|exact Hm|apply Hk].
Qed.

Lemma framed_ret {A} K (a : A) `{!Reflexive K} : framed K (mret a).
Proof. by intros s. Qed.

Lemma framed_set_pull K f :
  (forall r, K r (mkSyncResult (res_project_id r) (res_remote_url r) (f (res_pull r)) (res_push r))) ->
  framed K (set_pull f).
Proof. intros H s. by split. Qed.

(** The part of the result a pull keeps, and the part a push keeps. *)
Definition pull_keeps (r t : ProjectSyncResult) : Prop :=
  res_project_id t = res_project_id r /\ res_push t = res_push r /\
  pull_attempted (res_pull t) = pull_attempted (res_pull r) /\
  pull_error (res_pull t) = pull_error (res_pull r).
Definition push_keeps (r t : ProjectSyncResult) : Prop :=
  res_project_id t = res_project_id r /\ res_pull t = res_pull r /\
  push_attempted (res_push t) = push_attempted (res_push r).

#[local] Instance pull_keeps_refl : Reflexive pull_keeps.
Proof. done. Qed.
#[local] Instance pull_keeps_trans : Transitive pull_keeps.
Proof. intros a b c (H1 & H2 & H3 & H4) (H5 & H6 & H7 & H8). repeat split; congruence. Qed.
#[local] Instance push_keeps_refl : Reflexive push_keeps.
Proof. done. Qed.
#[local] Instance push_keeps_trans : Transitive push_keeps.
Proof. intros a b c (H1 & H2 & H3) (H5 & H6 & H7). repeat split; congruence. Qed.

(** ** Recording *)

Section Record.
Context (id : string).

(** The project exists and the row agrees with [row] on pushes and pulls. *)
Definition synced (row : ProjectSyncState) (s : PState) : Prop :=
  sync_wf (fst (fst s)) /\ project_exists (bind_text id) (fst (fst s)) = true /\
  attempts_of (current (fst (fst s)) id) = attempts_of row.

Lemma synced_frame K row s t : framed_to K s t -> synced row s -> synced row t.
Proof.
  intros (H1 & H2 & _) ([W1 W2 W3] & Hp & Ha). split.
  - split; rewrite H1; [done|done|]. intros r Hr. by apply H2, W3.
  - split; [by apply H2|]. by rewrite (current_same _ (fst (fst s))).
Qed.

Lemma synced_event row e s :
  synced row s ->
  exists db', record_event id e (fst (fst s)) = (Ok tt, db') /\
    sync_wf db' /\ project_exists (bind_text id) db' = true /\
    attempts_of (current db' id) =
    attempts_of (bind_sync_state (event_row id e (current (fst (fst s)) id))).
Proof.
  intros (W & Hp & Ha). destruct (record_event_spec id e (fst (fst s)) W Hp) as (db' & H1 & H2 & H3 & H4 & _).
  exists db'. split; [done|]. split; [done|]. split; [by rewrite H3|]. unfold current at 1. by rewrite H4.
Qed.

Lemma record_pull_run row ok msg now s :
  synced row s ->
  exists t, record_pull id ok msg now s = (Ok tt, t) /\ snd t = snd s /\
    synced (bind_sync_state (pull_recorded id (pull_phase_status_name (pull_status (res_pull (snd s))))
              ok msg now row)) t.
Proof.
  intros H. destruct (synced_event row
    (PullEvent (mkAttempt (pull_phase_status_name (pull_status (res_pull (snd s)))) ok msg now)) s H)
    as (db' & H1 & H2 & H3 & H4).
  exists ((db', snd (fst s)), snd s). unfold record_pull, bind, gets, io, on_db. cbn in H1. cbn.
  rewrite H1. split; [done|]. split; [done|]. split; [done|]. split; [done|]. cbn [fst]. rewrite H4.
  apply attempts_bind_cong. cbn. apply attempts_pull_cong, H.
Qed.

Lemma record_push_run row ok msg now s :
  synced row s ->
  exists t, record_push id ok msg now s = (Ok tt, t) /\ snd t = snd s /\
    synced (bind_sync_state (push_recorded id (push_status_name (push_status (res_push (snd s))))
              ok msg now row)) t.
Proof.
  intros H. destruct (synced_event row
    (PushEvent (mkAttempt (push_status_name (push_status (res_push (snd s)))) ok msg now)) s H)
    as (db' & H1 & H2 & H3 & H4).
  exists ((db', snd (fst s)), snd s). unfold record_push, bind, gets, io, on_db. cbn in H1. cbn.
  rewrite H1. split; [done|]. split; [done|]. split; [done|]. split; [done|]. cbn [fst]. rewrite H4.
  apply attempts_bind_cong. cbn. apply attempts_push_cong, H.
Qed.

Lemma refresh_run row project now s :
  bind_text (project_id project) = bind_text id -> synced (bind_sync_state row) s ->
  exists t, io (refresh_activity_best_effort project now) s = (Ok tt, t) /\ snd t = snd s /\
    synced (bind_sync_state row) t.
Proof.
  intros Hid H. unfold io, refresh_activity_best_effort, try_catch, bind.
  pose proof (q_metrics Q (root_path project) "origin" (fst s)) as Hq.
  destruct (inspect_repo_sync_metrics _ _ (fst s)) as [[m|e] w]; cbn in Hq.
  - assert (synced (bind_sync_state row) (w, snd s)) as Hw.
    { apply (synced_frame (fun _ _ => True) _ s); [|done]. by destruct Hq. }
    destruct Hw as (Ww & Hp & Ha). cbn [fst] in Ww, Hp, Ha. rewrite <- Hid in Hp.
    destruct (record_event_spec (project_id project) (ActivityEvent (mkActivity m.1 m.2 now)) (fst w)
                Ww Hp) as (db' & H1 & H2 & H3 & H4 & _).
    change (update_activity_counts (project_id project) (mkActivity m.1 m.2 now) (fst w) = (Ok tt, db'))
      in H1.
    exists ((db', snd w), snd s). unfold on_db. rewrite H1.
    split; [done|]. split; [done|]. split; [done|]. cbn [fst]. split; [by rewrite H3, <- Hid|].
    assert (forall d, current d id = current d (project_id project)) as Hcur.
    { intros d. unfold current, get. by rewrite Hid. }
    rewrite <- Ha, !Hcur. unfold current at 1. rewrite H4.
    rewrite <- (current_bound (fst w) (project_id project) Ww) at 2. by apply attempts_bind_cong.
  - exists (w, snd s). split; [done|]. split; [done|].
    apply (synced_frame (fun _ _ => True) _ s); [|done]. by destruct Hq.
Qed.

(** ** The phases *)

Lemma pull_body_reaches project url now :
  reaches pull_keeps (fun fin => fin = (set_pull (with_pull_status Succeeded) ;;; record_pull id true None now))
    (io (git_open_or_init (root_path project)) ;;;
     io (git_set_remote "origin" url) ;;;
     (let* diverged := io (git_pull_remote_ff_only "origin") in
      match diverged with
      | None => mret tt
      | Some (local_oid, remote_oid) =>
          let* n := io (resolve_pull_conflicts project local_oid remote_oid now) in
          set_pull (with_conflicts n)
      end) ;;;
     io (reconcile_index_after_pull project) ;;;
     (let* n := io (repair_hierarchy_after_pull project now) in set_pull (with_repaired n)) ;;;
     set_pull (with_pull_status Succeeded) ;;;
     record_pull id true None now).
Proof.
  apply reaches_bind; [apply _|apply framed_io; [apply _|apply Q]|intros _].
  apply reaches_bind; [apply _|apply framed_io; [apply _|apply Q]|intros _].
  apply reaches_bind; [apply _| |intros _].
  { apply framed_bind; [apply _|apply framed_io; [apply _|apply Q]|].
    intros [[a b]|]; [|apply framed_ret; apply _].
    apply framed_bind; [apply _|apply framed_io; [apply _|apply resolve_pull_conflicts_quiet]|].
    intros n. by apply framed_set_pull. }
  apply reaches_bind; [apply _|apply framed_io; [apply _|apply Q]|intros _].
  apply reaches_bind; [apply _| |intros _].
  { apply framed_bind; [apply _|apply framed_io; [apply _|apply repair_after_pull_quiet]|].
    intros n. by apply framed_set_pull. }
  apply reaches_here; [apply _|done].
Qed.

(** What a finished pull leaves: an outcome and the row that records it. *)
Record pulled (row : ProjectSyncState) (now : Z) (s t : PState) : Prop := {
  pd_id : res_project_id (snd t) = res_project_id (snd s);
  pd_push : res_push (snd t) = res_push (snd s);
  pd_attempted : pull_attempted (res_pull (snd t)) = pull_attempted (res_pull (snd s));
  pd_status : pull_status (res_pull (snd t)) = Succeeded \/ pull_status (res_pull (snd t)) = Failed;
  pd_synced : synced (bind_sync_state
    (pull_recorded id (pull_phase_status_name (pull_status (res_pull (snd t))))
       (is_succeeded (pull_status (res_pull (snd t)))) (pull_error (res_pull (snd t))) now row)) t
}.

Lemma pull_recorded_success st now row msg msg' :
  pull_recorded id st true msg now row = pull_recorded id st true msg' now row.
Proof. done. Qed.

Lemma pull_phase_run row project url now s :
  bind_text (project_id project) = bind_text id -> synced row s ->
  exists t, pull_phase id project url now s = (Ok tt, t) /\ pulled row now s t.
Proof.
  intros Hid Hs. unfold pull_phase.
  match goal with |- context [try_catch ?b ?h] => set (body := b); set (handler := h) end.
  assert (exists t, try_catch body handler s = (Ok tt, t) /\ pulled row now s t) as (t1 & Ht1 & Hp1).
  { unfold try_catch.
    destruct (pull_body_reaches project url now s) as [(e & t & Hb & Hf)|(fin & t & -> & Hf & Hb)];
      unfold body; rewrite Hb.
    - set (t' := (fst t, mkSyncResult (res_project_id (snd t)) (res_remote_url (snd t))
        (with_pull_failure Failed (what e) (res_pull (snd t))) (res_push (snd t)))).
      destruct (record_pull_run row false (Some (what e)) now t') as (u & Hu & Hr & Hsy).
      { by apply (synced_frame _ row s t Hf). }
      exists u. split; [exact Hu|]. destruct Hf as (_ & _ & K1 & K2 & K3 & K4).
      constructor; rewrite ?Hr; cbn; [done|done|done|by right|exact Hsy].
    - set (t' := (fst t, mkSyncResult (res_project_id (snd t)) (res_remote_url (snd t))
        (with_pull_status Succeeded (res_pull (snd t))) (res_push (snd t)))).
      destruct (record_pull_run row true None now t') as (u & Hu & Hr & Hsy).
      { by apply (synced_frame _ row s t Hf). }
      exists u. change ((set_pull (with_pull_status Succeeded) ;;; record_pull id true None now) t)
        with (record_pull id true None now t'). rewrite Hu.
      split; [done|]. destruct Hf as (_ & _ & K1 & K2 & K3 & K4).
      constructor; rewrite ?Hr; cbn; [done|done|done|by left|exact Hsy]. }
  destruct Hp1 as [P1 P2 P3 P4 P5].
  destruct (refresh_run _ project now t1 Hid P5) as (u & Hu & Hr & Hsy).
  exists u. split; [rewrite (bind_seq _ _ _ _ Ht1); exact Hu|].
  constructor; rewrite Hr; done.
Qed.

Lemma push_body_reaches project url request :
  reaches push_keeps
    (fun fin => exists push : PushResult, fin =
       (set_push (with_push push) ;;;
        record_push id (push_succeeded (pr_status push)) (nonempty (pr_error_message push)) (req_now request)))
    (io (git_open_or_init (root_path project)) ;;;
     io (git_set_remote "origin" url) ;;;
     when (String.eqb (privacy_mode project) "encrypted_git")
       (io (assert_encryption_push_safe (root_path project))) ;;;
     (let* push := io (git_push_branch "origin" (req_branch request) (set_upstream request)) in
      set_push (with_push push) ;;;
      record_push id (push_succeeded (pr_status push)) (nonempty (pr_error_message push))
        (req_now request))).
Proof.
  apply reaches_bind; [apply _|apply framed_io; [apply _|apply Q]|intros _].
  apply reaches_bind; [apply _|apply framed_io; [apply _|apply Q]|intros _].
  apply reaches_bind; [apply _| |intros _].
  { destruct (String.eqb _ _); [apply framed_io; [apply _|apply Q]|apply framed_ret; apply _]. }
  apply reaches_bind; [apply _|apply framed_io; [apply _|apply Q]|intros push].
  apply reaches_here; [apply _|by exists push].
Qed.

Record pushed (row : ProjectSyncState) (now : Z) (s t : PState) : Prop := {
  ph_id : res_project_id (snd t) = res_project_id (snd s);
  ph_pull : res_pull (snd t) = res_pull (snd s);
  ph_attempted : push_attempted (res_push (snd t)) = true;
  ph_synced : synced (bind_sync_state
    (push_recorded id (push_status_name (push_status (res_push (snd t))))
       (push_succeeded (push_status (res_push (snd t)))) (push_error (res_push (snd t))) now row)) t
}.

Lemma push_phase_run row project url request s :
  bind_text (project_id project) = bind_text id -> synced row s ->
  exists t, push_phase id project url request s = (Ok tt, t) /\ pushed row (req_now request) s t.
Proof.
  intros Hid Hs. unfold push_phase.
  match goal with |- context [try_catch ?b ?h] => set (body := b); set (handler := h) end.
  set (s0 := (fst s, mkSyncResult (res_project_id (snd s)) (res_remote_url (snd s)) (res_pull (snd s))
    (with_push_attempted (res_push (snd s))))).
  assert (exists t, try_catch body handler s0 = (Ok tt, t) /\ pushed row (req_now request) s t)
    as (t1 & Ht1 & Hp1).
  { unfold try_catch.
    destruct (push_body_reaches project url request s0)
      as [(e & t & Hb & Hf)|(fin & t & (push & ->) & Hf & Hb)]; unfold body; rewrite Hb.
    - set (t' := (fst t, mkSyncResult (res_project_id (snd t)) (res_remote_url (snd t)) (res_pull (snd t))
        (with_push_failure UnknownError (what e) (res_push (snd t))))).
      destruct (record_push_run row false (Some (what e)) (req_now request) t') as (u & Hu & Hr & Hsy).
      { by apply (synced_frame _ row s0 t Hf). }
      exists u. split; [exact Hu|]. destruct Hf as (_ & _ & K1 & K2 & K3).
      constructor; rewrite ?Hr; cbn; [done|done|done|exact Hsy].
    - set (t' := (fst t, mkSyncResult (res_project_id (snd t)) (res_remote_url (snd t)) (res_pull (snd t))
        (with_push push (res_push (snd t))))).
      destruct (record_push_run row (push_succeeded (pr_status push)) (nonempty (pr_error_message push))
        (req_now request) t') as (u & Hu & Hr & Hsy).
      { by apply (synced_frame _ row s0 t Hf). }
      exists u.
      match goal with |- context [(set_push (with_push push) ;;; ?k) t] =>
        change ((set_push (with_push push) ;;; k) t) with (k t') end. rewrite Hu.
      split; [done|]. destruct Hf as (_ & _ & K1 & K2 & K3).
      constructor; rewrite ?Hr; cbn; [done|done|done|exact Hsy]. }
  destruct Hp1 as [P1 P2 P3 P5].
  destruct (refresh_run _ project (req_now request) t1 Hid P5) as (u & Hu & Hr & Hsy).
  exists u. split.
  - change ((set_push with_push_attempted ;;; try_catch body handler ;;;
             io (refresh_activity_best_effort project (req_now request))) s)
      with ((try_catch body handler ;;; io (refresh_activity_best_effort project (req_now request))) s0).
    rewrite (bind_seq _ _ _ _ Ht1). exact Hu.
  - constructor; rewrite Hr; done.
Qed.
End Record.

End Facts.
End ProjectSyncOperationFacts.

Module ProjectSyncOperationTheorems.
Import CardFrontMatter ProjectSyncRepo ProjectSyncFacts ProjectSync ProjectSyncOperationFacts.

Section Rows.
Context (id : string) (now : Z).

(** The row after the outcome of a phase is recorded, when the phase ran. *)
Definition pull_step (p : PullPhaseResult) (row : ProjectSyncState) : ProjectSyncState :=
  if pull_attempted p
  then pull_recorded id (pull_phase_status_name (pull_status p)) (is_succeeded (pull_status p))
         (pull_error p) now row
  else row.
Definition push_step (p : PushPhaseResult) (row : ProjectSyncState) : ProjectSyncState :=
  if push_attempted p
  then push_recorded id (push_status_name (push_status p)) (push_succeeded (push_status p))
         (push_error p) now row
  else row.
End Rows.

(** What a finished sync must look like. *)
Record sync_outcome (request : ProjectSyncRequest) (configured : bool) (r : ProjectSyncResult) : Prop := {
  so_pull : pull_attempted (res_pull r) = req_pull request;
  so_status : if req_pull request
              then (if configured then pull_status (res_pull r) = Succeeded \/ pull_status (res_pull r) = Failed
                    else pull_status (res_pull r) = PullRemoteUnset)
              else pull_status (res_pull r) = NotAttempted;
  so_push : push_attempted (res_push r) =
    (if configured
     then req_push request && (negb (req_pull request) || is_succeeded (pull_status (res_pull r))
                               || push_after_failed_pull request)
     else negb (req_pull request));
  so_unset : configured = false -> push_attempted (res_push r) = true ->
             push_status (res_push r) = RemoteUnset
}.

Definition configured (project : Project) : bool :=
  match git_remote_url project with Some url => negb (String.eqb url "") | None => false end.

Lemma sync_phases_run (E : SqlEngine) (LE : SqlEngineLaws E) (Y : Yaml) (World : Type)
    (Sv : SyncServices World) (Q : services_quiet) id project request w :
  bind_text (project_id project) = bind_text id -> sync_wf (fst w) ->
  project_exists (bind_text id) (fst w) = true ->
  exists r t, sync_phases id project request (w, empty_result) = (Ok tt, (t, r)) /\
    res_project_id r = project_id project /\ sync_outcome request (configured project) r /\
    synced id (bind_sync_state (push_step id (req_now request) (res_push r)
      (pull_step id (req_now request) (res_pull r) (current (fst w) id)))) (t, r).
Proof.
  intros Hid W Hp. set (now := req_now request).
  set (r0 := mkSyncResult (project_id project) (git_remote_url project)
      (mkPullPhase (req_pull request) NotAttempted 0 0 None) (res_push empty_result)).
  assert (synced id (current (fst w) id) (w, r0)) as H0 by done.
  unfold sync_phases.
  match goal with |- context [(modify ?f ;;; ?k) ?s] => change ((modify f ;;; k) s) with (k (w, r0)) end.
  cbv zeta.
  assert ((match git_remote_url project with Some url => nonempty url | None => None end = None /\
           configured project = false) \/
          exists url, match git_remote_url project with Some url => nonempty url | None => None end = Some url /\
           configured project = true) as [[-> Hc]|(url & -> & Hc)].
  { unfold configured, nonempty. destruct (git_remote_url project) as [u|]; [|by left].
    destruct (String.eqb u ""); [by left|right; by exists u]. }
  - rewrite Hc. unfold remote_unset. destruct (req_pull request) eqn:Hpull.
    + destruct (record_pull_run id _ false (Some remote_error) now
        (w, mkSyncResult (project_id project) (git_remote_url project)
              (mkPullPhase true PullRemoteUnset 0 0 (Some remote_error)) (res_push empty_result)) H0)
        as ([t r] & H1 & H2 & H3). cbn in H2.
      exists r, t. split; [exact H1|]. subst r. split; [done|]. split; [|exact H3].
      by constructor; rewrite ?Hpull.
    + destruct (record_push_run id _ false (Some remote_error) now
        (w, mkSyncResult (project_id project) (git_remote_url project)
              (mkPullPhase false NotAttempted 0 0 None)
              (mkPushPhase true RemoteUnset 0 0 None (Some remote_error))) H0)
        as ([t r] & H1 & H2 & H3). cbn in H2.
      exists r, t. split; [exact H1|]. subst r. split; [done|]. split; [|exact H3].
      by constructor; rewrite ?Hpull.
  - rewrite Hc.
    assert (exists t, when (req_pull request) (pull_phase id project url now) (w, r0) = (Ok tt, t) /\
      res_project_id (snd t) = project_id project /\ res_push (snd t) = res_push empty_result /\
      pull_attempted (res_pull (snd t)) = req_pull request /\
      (if req_pull request then pull_status (res_pull (snd t)) = Succeeded \/ pull_status (res_pull (snd t)) = Failed
       else pull_status (res_pull (snd t)) = NotAttempted) /\
      synced id (bind_sync_state (pull_step id now (res_pull (snd t)) (current (fst w) id))) t)
      as ([t1 r1] & Hrun & Hrid & Hrpush & Hrpull & Hst & Hsy).
    { destruct (req_pull request) eqn:Hpull.
      - destruct (pull_phase_run Q id (current (fst w) id) project url now (w, r0) Hid H0)
          as (t & Ht & [P1 P2 P3 P4 P5]). exists t. split; [exact Ht|]. cbn in P1, P2, P3.
        split; [done|]. split; [done|]. split; [by rewrite P3|]. split; [done|].
        unfold pull_step. rewrite P3, ?Hpull. exact P5.
      - exists (w, r0). split; [done|]. split; [done|]. split; [done|]. split; [by rewrite <- Hpull|].
        split; [done|]. unfold pull_step. cbn. rewrite ?Hpull.
        rewrite (current_bound _ id W). done. }
    cbn in Hrid, Hrpush, Hrpull, Hst.
    rewrite (bind_seq _ _ _ _ Hrun). unfold bind at 1, gets at 1. cbn [snd].
    destruct (req_push request && _) eqn:Hpush.
    + destruct (push_phase_run Q id _ project url request (t1, r1) Hid Hsy)
        as ([t2 r2] & Ht & [P1 P2 P3 P5]). cbn in P1, P2, P3, P5.
      exists r2, t2. split; [exact Ht|]. split; [congruence|]. split.
      * constructor; rewrite ?P2; [done|done|by rewrite P3, Hpush|done].
      * unfold push_step. rewrite P3, P2.
        destruct P5 as (S1 & S2 & S3). split; [done|]. split; [done|]. rewrite S3.
        apply attempts_push_bound.
    + exists r1, t1. split; [done|]. split; [done|]. split.
      * constructor; [done|done|by rewrite Hrpush, Hpush|done].
      * unfold push_step. rewrite Hrpush. exact Hsy.
Qed.

Lemma with_result_ok {World} (m : Phase (World := World) unit) s r t :
  m (s, empty_result) = (Ok tt, (t, r)) -> with_result m s = (Ok r, t).
Proof. unfold with_result. by intros ->. Qed.

(** C36: when the project is there after the wait for the repository lock, a sync always
    returns a result, whatever git, encryption or the index rebuild do: failures are
    results, not exceptions. A pull runs when requested; a push runs when requested
    and no pull was, or the pull succeeded, or pushing after a failed pull was asked
    for; without a remote nothing runs. And the sync row afterwards is the row before
    with exactly the reported outcomes recorded, one per phase that ran; so
    [succeeded] for both phases means both succeeded. *)
Theorem sync_reports_what_it_records (E : SqlEngine) (Y : Yaml) (World : Type)
    (Sv : SyncServices World) (id : string) (request : ProjectSyncRequest) (s w : State World)
    (first project : Project) :
  SqlEngineLaws E -> services_quiet ->
  id <> "" -> req_pull request || req_push request = true ->
  ProjectRepo.get (fst s) id = Some first ->
  lock_operation (root_path first) s = (Ok tt, w) ->
  ProjectRepo.get (fst w) id = Some project -> root_path project = root_path first ->
  NoDup (map project_id (projects (fst w))) -> sync_wf (fst w) ->
  exists r t, run_project_sync id request s = (Ok r, t) /\
    res_project_id r = bind_text id /\ sync_outcome request (configured project) r /\
    sync_wf (fst t) /\
    attempts_of (current (fst t) id) =
      attempts_of (bind_sync_state (push_step id (req_now request) (res_push r)
        (pull_step id (req_now request) (res_pull r) (current (fst w) id)))) /\
    (succeeded r = true -> req_pull request && req_push request = true ->
     pull_status (res_pull r) = Succeeded /\ push_succeeded (push_status (res_push r)) = true).
Proof.
  intros LE Q Hne Hreq Hfirst Hlock Hproj Hroot Hn W.
  pose proof (proj1 (ProjectRepoFacts.get_project_Some (fst w) id project Hn) Hproj) as [Hin Hpid].
  destruct (sync_phases_run E LE Y World Sv Q id project request w) as (r & t & Hrun & Hr & Ho & Hs).
  { by rewrite Hpid, CardRepoFacts.bind_text_idemp. }
  { done. }
  { apply ProjectRepoFacts.project_exists_spec, elem_of_map_id. by exists project. }
  exists r, t. destruct Hs as (S1 & S2 & S3). split.
  { unfold run_project_sync. rewrite (proj2 (String.eqb_neq id "") Hne).
    assert (negb (req_pull request) && negb (req_push request) = false) as ->
      by (destruct (req_pull request), (req_push request); done).
    unfold bind at 1, gets at 1. rewrite Hfirst. rewrite (bind_seq _ _ _ _ Hlock).
    unfold bind at 1, gets at 1. rewrite Hproj, Hroot, String.eqb_refl. cbn [negb].
    apply with_result_ok. exact Hrun. }
  split; [congruence|]. split; [done|]. split; [done|]. split; [done|].
  destruct Ho as [O1 O2 O3 O4]. unfold succeeded. rewrite O1. intros Hsucc [Hpl Hps]%andb_true_iff.
  rewrite Hpl in *. rewrite Hps in O3. cbn in *.
  destruct (is_succeeded (pull_status (res_pull r))) eqn:Ei; [|done]. cbn in *.
  assert (pull_status (res_pull r) = Succeeded) as Hst by (by destruct (pull_status (res_pull r))).
  split; [done|]. destruct (configured project).
  - rewrite O3 in Hsucc. by destruct (push_succeeded _).
  - rewrite O2 in Hst. done.
Qed.

(** a sync that is refused touches nothing: an empty id, a request for neither phase
    and an unknown project are refused before the lock, a project that is gone or has
    moved after the wait before anything runs. *)
Theorem sync_refusals (E : SqlEngine) (Y : Yaml) (World : Type) (Sv : SyncServices World)
    (id : string) (request : ProjectSyncRequest) (s : State World) :
  (id = "" -> exists m, run_project_sync id request s = (Err (InvalidArgument m), s)) /\
  (req_pull request || req_push request = false ->
     exists m, run_project_sync id request s = (Err (InvalidArgument m), s)) /\
  (id <> "" -> req_pull request || req_push request = true -> ProjectRepo.get (fst s) id = None ->
     run_project_sync id request s = (Err (Runtime ("project not found: " +:+ id)), s)) /\
  forall first w, id <> "" -> req_pull request || req_push request = true ->
    ProjectRepo.get (fst s) id = Some first -> lock_operation (root_path first) s = (Ok tt, w) ->
    match ProjectRepo.get (fst w) id with
    | None => run_project_sync id request s = (Err (Runtime ("project not found: " +:+ id)), w)
    | Some p => root_path p <> root_path first ->
        run_project_sync id request s =
        (Err (Runtime ("project root changed while waiting for sync: " +:+ id)), w)
    end.
Proof.
  assert (forall b c, b || c = true -> negb b && negb c = false) as Hb by by intros [] [].
  unfold run_project_sync. split; [|split; [|split]].
  - intros ->. by eexists.
  - intros H. destruct (String.eqb id ""); [by eexists|].
    destruct (req_pull request), (req_push request); try done. by eexists.
  - intros Hne Hreq Hg. rewrite (proj2 (String.eqb_neq id "") Hne), Hb by done.
    unfold bind at 1, gets at 1. by rewrite Hg.
  - intros first w Hne Hreq Hg Hl. rewrite (proj2 (String.eqb_neq id "") Hne), Hb by done.
    destruct (ProjectRepo.get (fst w) id) as [p|] eqn:Hp; [intros Hroot|];
      unfold bind at 1, gets at 1; rewrite Hg, (bind_seq _ _ _ _ Hl);
      unfold bind at 1, gets at 1; rewrite Hp; [|done].
    by rewrite (proj2 (String.eqb_neq _ _) Hroot).
Qed.

(** ** When the next attempt is due *)

Import ProjectSyncPolicy.

(** The attempts of one direction and the policy's answer for them. *)
Definition due (l : list Attempt) (interval now : Z) : bool :=
  should_attempt_push (mkPushInput (last_success l) (retry_at l) now interval).

Lemma last_success_In l t : last_success l = Some t -> exists a, a ∈ l /\ at_ok a = true /\ at_time a = t.
Proof.
  unfold last_success. intros (a & Ha & ->)%fmap_Some. apply last_Some in Ha as (l' & Hl').
  exists a. assert (a ∈ list_filter at_ok l) as Hin by (rewrite Hl'; set_solver).
  apply elem_of_list_filter in Hin as [? ?]. done.
Qed.

Lemma due_spec l interval now :
  due l interval now = true <->
  (forall a, last l = Some a -> at_ok a = false ->
     at_time a + backoff_seconds_for_retry (failures l) <= now) /\
  (forall t, last_success l = Some t -> interval <= now - t).
Proof.
  unfold due, should_attempt_push. cbn.
  destruct l as [|a l _] using rev_ind.
  { cbn. split; [|done]. intros _. split; [intros a Ha|intros t Ht]; discriminate. }
  rewrite retry_at_snoc, last_snoc, failures_snoc, last_success_snoc.
  destruct (at_ok a) eqn:Ea.
  - rewrite Z.leb_le. split.
    + intros H. split; [intros ? [= <-]; congruence|]. by intros ? [= <-].
    + intros [_ H]. by apply H.
  - destruct (Z.ltb_spec now (at_time a + backoff_seconds_for_retry (failures l + 1))) as [Hlt|Hge].
    + split; [done|]. intros [H _]. specialize (H a eq_refl Ea). lia.
    + destruct (last_success l) as [t|].
      * rewrite Z.leb_le. split.
        -- intros H. split; [intros ? [= <-] _; lia|]. by intros ? [= <-].
        -- intros [_ H]. by apply H.
      * split; [|done]. intros _. split; [intros ? [= <-] _; lia|done].
Qed.

(** C38: the retry policy over the recorded history: a push (and likewise a pull) is due
    exactly when the backoff of its last failure has passed and its last success is an
    interval ago; so after the last event at time [t] it is due from
    [t + max(1800, interval)] on: a failing remote is tried again for ever. Pulls and
    pushes do not delay each other. *)
Theorem next_attempt_due (evs : list SyncEvent) (s : ProjectSyncState) (interval : Z) :
  follows evs s ->
  let push now := should_attempt_push (mkPushInput (last_push_at s) (next_retry_at s) now interval) in
  let pull now := should_attempt_pull (mkPullInput (last_pull_at s) (next_pull_retry_at s) now interval) in
  let spec (l : list Attempt) (answer : Z -> bool) :=
    (forall now, answer now = true <->
      (forall a, last l = Some a -> at_ok a = false ->
         at_time a + backoff_seconds_for_retry (failures l) <= now) /\
      (forall t, last_success l = Some t -> interval <= now - t)) /\
    (forall t, (forall a, a ∈ l -> at_time a <= t) ->
       forall now, t + Z.max 1800 interval <= now -> answer now = true) in
  spec (pushes evs) push /\ spec (pulls evs) pull.
Proof.
  intros F push pull spec.
  assert (forall l answer, (forall now, answer now = due l interval now) -> spec l answer) as H.
  { intros l answer Ha. split; intros; rewrite Ha; [apply due_spec|]. apply due_spec. split.
    - intros a Hl Hok.
      assert (backoff_seconds_for_retry (failures l) <= 1800).
      { destruct (Z.leb_spec (failures l) 0) as [?|?].
        - unfold backoff_seconds_for_retry. rewrite (proj2 (Z.leb_le (failures l) 0)) by done. lia.
        - apply backoff_bounds. lia. }
      assert (at_time a <= t); [|lia].
      apply H. apply last_Some in Hl as (l' & ->). set_solver.
    - intros u (a & Hin & _ & <-)%last_success_In. specialize (H a Hin). lia. }
  split; apply H; intros now; unfold push, pull, due, should_attempt_pull, should_attempt_push; cbn.
  - by rewrite (fw_push_at _ _ F), (fw_next _ _ F).
  - by rewrite (fw_pull_at _ _ F), (fw_pull_next _ _ F).
Qed.

(** ** The local side of a diverged pull *)

Section Conflicts.
Context {Y : Yaml} {World : Type} {Sv : SyncServices World}.
Context (project : Project) (scheme : IdScheme) (local_oid : string) (now : Z).

(** What a blob of the project says: the blob itself, or in an encrypted project what the
    key opens it to. *)
Definition opens (raw : string) (s : State World) (r : result string) (t : State World) : Prop :=
  match project_key_id project with
  | Some key => if decide (privacy_mode project = "encrypted_git")
                then decrypt_project_blob (project_id project) key raw s = (r, t)
                else r = Ok raw /\ t = s
  | None => r = Ok raw /\ t = s
  end.

(** The copy of a card, as a new card beside it. *)
Definition conflicted_copy (id : string) (parsed : ParsedCardFile) : Card := {|
  card_id := id; card_project_id := project_id project;
  title := title (pf_card parsed) +:+ " (conflicted copy)"; rel_path := "";
  parent_card_id := parent_card_id (pf_card parsed); sort_key := f64_zero;
  created_at := now; updated_at := now; deleted_at := None
|}.

(** The local version of a path is read, and it is a card: its text and the state then. *)
Definition readable (path : string) (s : State World) (parsed : ParsedCardFile) (t : State World) : Prop :=
  exists raw text u, git_read_blob_at local_oid path s = (Ok (Some raw), u) /\
    opens raw u (Ok text) t /\ parsed = parse_card_file text /\ has_front_matter parsed = true.

(** What becomes of a conflicted path, from the state before to the state after: [true]
    when its local version is a new card. *)
Inductive settles (path : string) (s : State World) : bool -> State World -> Prop :=
| settles_missing t : git_read_blob_at local_oid path s = (Ok None, t) -> settles path s false t
| settles_locked raw u e t :
    git_read_blob_at local_oid path s = (Ok (Some raw), u) -> opens raw u (Err e) t ->
    settles path s false t
| settles_unparsable raw u text t :
    git_read_blob_at local_oid path s = (Ok (Some raw), u) -> opens raw u (Ok text) t ->
    has_front_matter (parse_card_file text) = false -> settles path s false t
| settles_uncreatable parsed u random ms v id e t :
    readable path s parsed u -> draw_id_inputs u = (Ok (random, ms), v) ->
    Uuid.generate_id scheme random ms = Ok id ->
    store_create (conflicted_copy (string_of id) parsed) (pf_body parsed) v = (Err e, t) ->
    settles path s false t
| settles_copied parsed u random ms v id t :
    readable path s parsed u -> draw_id_inputs u = (Ok (random, ms), v) ->
    Uuid.generate_id scheme random ms = Ok id ->
    store_create (conflicted_copy (string_of id) parsed) (pf_body parsed) v = (Ok tt, t) ->
    settles path s true t.

(** What ends the resolution: a lookup of a blob that fails, or no identifier for a copy. *)
Inductive breaks (path : string) (s : State World) : error -> State World -> Prop :=
| breaks_lookup e t : git_read_blob_at local_oid path s = (Err e, t) -> breaks path s e t
| breaks_draw parsed u e t :
    readable path s parsed u -> draw_id_inputs u = (Err e, t) -> breaks path s e t
| breaks_id parsed u random ms e t :
    readable path s parsed u -> draw_id_inputs u = (Ok (random, ms), t) ->
    Uuid.generate_id scheme random ms = Err e -> breaks path s e t.

(** The paths one after another, each from the state the one before it left. *)
Inductive settle_all : list string -> State World -> list bool -> State World -> Prop :=
| settle_none s : settle_all [] s [] s
| settle_next path paths s ok u oks t :
    settles path s ok u -> settle_all paths u oks t -> settle_all (path :: paths) s (ok :: oks) t.

Definition copies (oks : list bool) : Z := Z.of_nat (length (list_filter id oks)).

Lemma conflict_text_opens raw s :
  exists r t, opens raw s r t /\
    conflict_text project raw s = (Ok (match r with Ok text => Some text | Err _ => None end), t).
Proof.
  unfold opens, conflict_text, try_catch, bind.
  destruct (project_key_id project) as [key|].
  2: { exists (Ok raw), s. by destruct (String.eqb _ _). }
  destruct (String.eqb_spec (privacy_mode project) "encrypted_git"); case_decide; try congruence.
  - destruct (decrypt_project_blob _ _ _ s) as [[text|er] t]; by eexists _, _.
  - by exists (Ok raw), s.
Qed.

Lemma resolve_conflict_settles path s :
  match resolve_conflict project scheme local_oid now path s with
  | (Ok ok, t) => settles path s ok t
  | (Err e, t) => breaks path s e t
  end.
Proof.
  unfold resolve_conflict. unfold bind at 1.
  destruct (git_read_blob_at local_oid path s) as [[[raw|]|e] u] eqn:Hr;
    [|by apply settles_missing|by apply breaks_lookup].
  destruct (conflict_text_opens raw u) as (r & t & Ho & Ht). unfold bind at 1. rewrite Ht.
  destruct r as [text|e]; [|by eapply settles_locked].
  destruct (has_front_matter (parse_card_file text)) eqn:Hf; cbn [negb];
    [|by eapply settles_unparsable].
  assert (readable path s (parse_card_file text) t) as Hread by (by exists raw, text, u).
  unfold bind at 1. destruct (draw_id_inputs t) as [[[random ms]|e] v] eqn:Hd;
    [|by eapply breaks_draw].
  unfold bind at 1, lift. cbn [fst snd].
  destruct (Uuid.generate_id scheme random ms) as [id|e] eqn:Hid; [|by eapply breaks_id].
  unfold try_catch, bind.
  destruct (store_create _ _ v) as [[[]|e] w] eqn:Hs; [by eapply settles_copied|by eapply settles_uncreatable].
Qed.

Lemma resolve_paths_settle paths n s :
  match resolve_paths (resolve_conflict project scheme local_oid now) paths n s with
  | (Ok m, t) => exists oks, settle_all paths s oks t /\ m = n + copies oks
  | (Err e, t) => exists before path after oks u, paths = before ++ path :: after /\
      settle_all before s oks u /\ breaks path u e t
  end.
Proof.
  revert n s. induction paths as [|path paths IH]; intros n s; cbn [resolve_paths].
  { exists []. split; [constructor|]. unfold copies, list_filter. cbn [List.filter length]. lia. }
  unfold bind. pose proof (resolve_conflict_settles path s) as H.
  destruct (resolve_conflict _ _ _ _ _ s) as [[ok|e] u].
  2: { exists [], path, paths, [], s. repeat split; [constructor|done]. }
  specialize (IH (if ok then n + 1 else n) u).
  destruct (resolve_paths _ paths _ u) as [[m|e] t].
  - destruct IH as (oks & Hall & ->). exists (ok :: oks). split; [by econstructor|].
    unfold copies, list_filter. destruct ok; cbn [List.filter id length]; [|done]. lia.
  - destruct IH as (before & bad & after & oks & v & -> & Hall & Hb).
    exists (path :: before), bad, after, (ok :: oks), v. repeat split; [by econstructor|done].
Qed.

End Conflicts.

(** C40: what becomes of the cards that both sides changed, once git has merged. The
    conflicted paths are settled one after another: a path without a local blob, one that does
    not decrypt, one that is no card file and one whose copy cannot be created are skipped;
    for every other the local text is a new card under the same parent, titled as a conflicted
    copy, and the answer counts exactly these. Only a failing lookup of a blob, or a failing
    draw of an identifier, ends the resolution, with that error and with the copies made so
    far; when neither fails it returns. *)
Theorem conflicts_never_fail_the_pull (E : SqlEngine) (Y : Yaml) (World : Type)
    (Sv : SyncServices World) (project c : Project) (a b : string) (now : Z) (s w : State World)
    (paths : list string) :
  ProjectRepo.get (fst s) (project_id project) = Some c ->
  git_merge_taking_theirs "origin" a b s = (Ok paths, w) ->
  let settled := settle_all project (id_scheme c) a now in
  match resolve_pull_conflicts project a b now s with
  | (Ok n, t) => exists oks, settled paths w oks t /\ n = copies oks
  | (Err e, t) => exists before path after oks u, paths = before ++ path :: after /\
      settled before w oks u /\ breaks project (id_scheme c) a path u e t
  end /\
  ((forall path t, exists blob u, git_read_blob_at a path t = (Ok blob, u)) ->
   (forall t, exists random ms u, draw_id_inputs t = (Ok (random, ms), u) /\ 0 <= ms <= 281474976710655) ->
   exists n t, resolve_pull_conflicts project a b now s = (Ok n, t)).
Proof.
  intros Hc Hm settled. unfold resolve_pull_conflicts, bind at 1 3, gets. rewrite Hc.
  unfold bind at 1 2. rewrite Hm.
  pose proof (resolve_paths_settle project (id_scheme c) a now paths 0 w) as H.
  destruct (resolve_paths _ paths 0 w) as [[n|e] t]; (split; [done|]); [by eexists _, _|].
  intros Hblob Hdraw. destruct H as (before & path & after & oks & u & _ & _ & Hb). exfalso.
  destruct Hb as [e' t' Hr|parsed v e' t' _ Hd|parsed v random ms e' t' _ Hd Hid].
  - destruct (Hblob path u) as (blob & v & ?). congruence.
  - destruct (Hdraw v) as (? & ? & ? & ? & _). congruence.
  - destruct (Hdraw v) as (r & m & ? & Hd' & Hms). rewrite Hd in Hd'. injection Hd' as <- <- <-.
    unfold Uuid.generate_id in Hid. destruct (id_scheme c); [done|]. unfold Uuid.uuid_v7 in Hid.
    destruct (Z.ltb_spec ms 0); [lia|]. by destruct (Z.ltb_spec 281474976710655 ms); [lia|].
Qed.

(** A remote that cannot be reached, with everything else working. *)
#[local] Instance offline : SyncServices unit := {|
  lock_operation _ := mret tt;
  git_open_or_init _ := mret tt;
  git_set_remote _ _ := mret tt;
  git_pull_remote_ff_only _ := throw (Runtime "offline");
  git_merge_taking_theirs _ _ _ := mret ["cards/a.md"];
  git_read_blob_at _ _ := mret None;
  git_push_branch _ _ _ := throw (Runtime "offline");
  decrypt_project_blob _ _ _ := throw (Runtime "locked");
  draw_id_inputs := mret (replicate 16 0, 0);
  store_create _ _ := mret tt;
  rebuild_project _ := mret tt;
  repair_hierarchy _ _ := mret [];
  inspect_repo_sync_metrics _ _ := mret (1, 2);
  assert_encryption_push_safe _ := mret tt;
  what e := match e with Runtime m => m | InvalidArgument m => m | Sqlite m => m | PrivacyError _ m => m | StorageError _ m => m end
|}.

Lemma offline_quiet : services_quiet (S := offline).
Proof. split; intros; intros s; done. Qed.

Definition offline_project : Project :=
  mkProject "p" "Notes" "/p" (Some "git@host:n.git") None "plain" None Uuid4 0 0.
Definition offline_request : ProjectSyncRequest := mkRequest true true false "main" true 100.

Example sync_reports_what_it_records_witness :
  exists r t, run_project_sync (E := reference_engine) (Y := CardFrontMatterTheorems.sample_yaml)
      "p" offline_request (ProjectSyncTheorems.sync_db, tt) = (Ok r, t) /\
    sync_outcome offline_request true r.
Proof.
  assert (@ProjectRepo.get reference_engine ProjectSyncTheorems.sync_db "p" = Some offline_project) as Hg
    by (vm_compute; reflexivity).
  assert ("p" <> "") as Hne by discriminate.
  assert (@lock_operation unit offline "/p" (ProjectSyncTheorems.sync_db, tt) =
          (Ok tt, (ProjectSyncTheorems.sync_db, tt))) as Hlock by reflexivity.
  assert (NoDup (map project_id (projects ProjectSyncTheorems.sync_db))) as Hn by apply NoDup_singleton.
  pose proof (sync_reports_what_it_records reference_engine CardFrontMatterTheorems.sample_yaml unit
    offline "p" offline_request (ProjectSyncTheorems.sync_db, tt) (ProjectSyncTheorems.sync_db, tt)
    offline_project offline_project reference_engine_laws offline_quiet Hne eq_refl Hg Hlock Hg
    eq_refl Hn ProjectSyncTheorems.sync_db_wf) as H.
  destruct H as (r & t & H1 & _ & H3 & _).
  exists r, t. exact (conj H1 H3).
Defined.

Example sync_refusals_witness :
  run_project_sync (E := reference_engine) (Y := CardFrontMatterTheorems.sample_yaml) (S := offline)
    "q" offline_request (ProjectSyncTheorems.sync_db, tt) =
  (Err (Runtime "project not found: q"), (ProjectSyncTheorems.sync_db, tt)).
Proof.
  refine (proj1 (proj2 (proj2 (sync_refusals reference_engine CardFrontMatterTheorems.sample_yaml unit
    offline "q" offline_request (ProjectSyncTheorems.sync_db, tt)))) _ _ _);
    [discriminate|reflexivity|reflexivity].
Defined.

Example next_attempt_due_witness :
  should_attempt_push (mkPushInput None (Some 500) 500 300) = true.
Proof.
  pose (evs := [PushEvent (mkAttempt "auth_failed" false None 100);
                PushEvent (mkAttempt "auth_failed" false None 200)]).
  assert (follows evs (mkSyncState "p" None None None 0 0 (Some "auth_failed") None (Some "push failed")
    (Some 200) 2 (Some 500) 0 None 200)) as F by (constructor; reflexivity).
  apply (proj1 (proj1 (next_attempt_due evs _ 300 F)) 500). split.
  - intros a [= <-] _. vm_compute. discriminate.
  - intros t [=].
Defined.

(** A remote that merges, with two conflicts: one path was not there locally, the other was a card. *)
Definition merging : SyncServices unit := {|
  lock_operation _ := mret tt;
  git_open_or_init _ := mret tt;
  git_set_remote _ _ := mret tt;
  git_pull_remote_ff_only _ := mret (Some ("l", "r"));
  git_merge_taking_theirs _ _ _ := mret ["cards/gone.md"; "cards/a.md"];
  git_read_blob_at _ path :=
    mret (if String.eqb path "cards/a.md"
          then Some (@render_card_front_matter CardFrontMatterTheorems.sample_yaml
                       CardFrontMatterTheorems.sample_card [] [] +:+ "# Plan")
          else None);
  git_push_branch _ _ _ := throw (Runtime "offline");
  decrypt_project_blob _ _ _ := throw (Runtime "locked");
  draw_id_inputs := mret (replicate 16 0, 0);
  store_create _ _ := mret tt;
  rebuild_project _ := mret tt;
  repair_hierarchy _ _ := mret [];
  inspect_repo_sync_metrics _ _ := mret (1, 2);
  assert_encryption_push_safe _ := mret tt;
  what e := match e with Runtime m => m | InvalidArgument m => m | Sqlite m => m | PrivacyError _ m => m | StorageError _ m => m end
|}.

Example conflicts_never_fail_the_pull_witness :
  match resolve_pull_conflicts (E := reference_engine) (Y := CardFrontMatterTheorems.sample_yaml)
      (S := merging) offline_project "l" "r" 7 (ProjectSyncTheorems.sync_db, tt) with
  | (Ok n, t) => exists oks,
      settle_all (Y := CardFrontMatterTheorems.sample_yaml) (Sv := merging) offline_project Uuid4 "l" 7
        ["cards/gone.md"; "cards/a.md"] (ProjectSyncTheorems.sync_db, tt) oks t /\
      n = copies oks /\ n = 1
  | (Err _, _) => False
  end.
Proof.
  assert (@ProjectRepo.get reference_engine ProjectSyncTheorems.sync_db "p" = Some offline_project) as Hg
    by (vm_compute; reflexivity).
  assert (@git_merge_taking_theirs unit merging "origin" "l" "r" (ProjectSyncTheorems.sync_db, tt) =
          (Ok ["cards/gone.md"; "cards/a.md"], (ProjectSyncTheorems.sync_db, tt))) as Hm by reflexivity.
  assert (resolve_pull_conflicts (E := reference_engine) (Y := CardFrontMatterTheorems.sample_yaml)
      (S := merging) offline_project "l" "r" 7 (ProjectSyncTheorems.sync_db, tt) =
      (Ok 1, (ProjectSyncTheorems.sync_db, tt))) as Hv by (vm_compute; reflexivity).
  pose proof (conflicts_never_fail_the_pull reference_engine CardFrontMatterTheorems.sample_yaml unit
    merging offline_project offline_project "l" "r" 7 (ProjectSyncTheorems.sync_db, tt)
    (ProjectSyncTheorems.sync_db, tt) ["cards/gone.md"; "cards/a.md"] Hg Hm) as H.
  cbv zeta in H. rewrite Hv in H |- *. destruct H as ((oks & H1 & H2) & _). exists oks. exact (conj H1 (conj H2 eq_refl)).
Defined.

End ProjectSyncOperationTheorems.
