(* ===== verification/Disk.v ===== *)
(** * Files and the Git repository of a project

    [src/src/platform/Fs.cpp] and the part of [src/src/git/GitRepo.cpp] that writes: the
    working tree, the Git index, and commits. Every call that reaches the operating
    system or libgit2 consults the environment, which may let it work, make it throw,
    or cut a file short; a process that dies is one whose calls all throw from some
    point on. libgit2 is the class [LibGit2] over the repository's objects and
    references, with what its documentation promises in [LibGit2Laws]. *)

From stdpp Require Import base list sets strings numbers gmap.
From S2P Require Import Prelude Text.

Module Disk.

(** ** The repository *)

Abbreviation Oid := string (only parsing).

Record Entry := mkEntry { entry_mode : Z; entry_id : Oid }.
#[export] Instance entry_eq_dec : EqDecision Entry.
Proof. solve_decision. Defined.

(** The tree of a commit, flattened to the paths of its files. *)
Abbreviation Tree := (gmap string Entry).

Record Commit := mkCommit { commit_parents : list Oid; commit_tree : Tree }.

Record Index := mkIndex { entries : Tree; conflicts : gset string }.

Inductive Head := Branch (name : string) | Detached (oid : Oid).

Record Git := mkGit {
  blobs : gmap Oid string;
  commits : gmap Oid Commit;
  refs : gmap string Oid;
  head : Head;
  remotes : gmap string string
}.

(** [git_repository_head]: the name and the target; [GIT_EUNBORNBRANCH] has no target. *)
Definition head_name (g : Git) : string :=
  match head g with Branch b => b | Detached _ => "HEAD" end.
Definition head_id (g : Git) : option Oid :=
  match head g with Branch b => refs g !! b | Detached o => Some o end.

(** [git_reference_name_to_id] *)
Definition ref_id (g : Git) (name : string) : option Oid :=
  if String.eqb name "HEAD" then head_id g else refs g !! name.

(** [git_reference_set_target] and [git_reference_delete]; ["HEAD"] names a reference
    of its own only while it is detached. *)
Definition set_ref (name : string) (o : Oid) (g : Git) : Git :=
  if String.eqb name "HEAD"
  then match head g with
       | Branch b => mkGit (blobs g) (commits g) (<[b := o]> (refs g)) (head g) (remotes g)
       | Detached _ => mkGit (blobs g) (commits g) (refs g) (Detached o) (remotes g)
       end
  else mkGit (blobs g) (commits g) (<[name := o]> (refs g)) (head g) (remotes g).
Definition delete_ref (name : string) (g : Git) : Git :=
  mkGit (blobs g) (commits g) (delete name (refs g)) (head g) (remotes g).

Definition add_blob (o : Oid) (content : string) (g : Git) : Git :=
  mkGit (<[o := content]> (blobs g)) (commits g) (refs g) (head g) (remotes g).
Definition add_commit (o : Oid) (c : Commit) (g : Git) : Git :=
  mkGit (blobs g) (<[o := c]> (commits g)) (refs g) (head g) (remotes g).

Definition add_remote (name url : string) (g : Git) : Git :=
  mkGit (blobs g) (commits g) (refs g) (head g) (<[name := url]> (remotes g)).
Definition drop_remote (name : string) (g : Git) : Git :=
  mkGit (blobs g) (commits g) (refs g) (head g) (delete name (remotes g)).

(** The commits one can walk to from [o] along parents, [o] included. *)
Inductive ancestor (g : Git) : Oid -> Oid -> Prop :=
| ancestor_refl o : ancestor g o o
| ancestor_step o c p q :
    commits g !! o = Some c -> p ∈ commit_parents c -> ancestor g p q -> ancestor g o q.

(** What the program takes from libgit2 and its files' formats. [clean] is what Git
    turns a file into when it stages it (line endings, filters). *)
Class LibGit2 := {
  index_parse : option string -> option Index;
  index_bytes : Index -> string;
  blob_id : string -> Oid;
  clean : string -> string;
  file_mode : string -> Z;
  commit_id : Git -> string -> Commit -> Oid;
  revwalk : Git -> Oid -> option Oid -> list Oid;
  initial_branch : string
}.

Class LibGit2Laws (L : LibGit2) : Prop := {
  (** a written index reads back *)
  index_parse_bytes : forall i, index_parse (Some (index_bytes i)) = Some i;
  (** a repository without an index file has an empty index *)
  index_parse_missing : index_parse None = Some (mkIndex ∅ ∅);
  (** an id names its content, so a commit that is written again is the same commit *)
  commit_id_stable : forall g m c c', commits g !! commit_id g m c = Some c' -> c' = c;
  (** no commit is its own ancestor *)
  commit_id_fresh : forall g m c p, p ∈ commit_parents c -> ~ ancestor g p (commit_id g m c);
  (** the walk yields what can be reached from the start but not from the hidden commit *)
  revwalk_spec : forall g tip hide o,
    o ∈ revwalk g tip hide <->
    ancestor g tip o /\ forall h, hide = Some h -> ~ ancestor g h o
}.

(** ** The disk

    The working tree by path relative to the project's root, and the files of the
    repository's own directory that the program touches; the files elsewhere (staged and
    stored assets, what a user attaches) by their path. Directories are not modelled. *)
Record Disk := mkDisk {
  work : gmap string string;
  index_file : option string;
  journal_file : option string;
  journal_tmp : option string;
  git : option Git;
  elsewhere : gmap string string
}.

Inductive Loc := Work (key : string) | IndexFile | JournalFile | JournalTmp | Outside (path : string).

Definition peek (l : Loc) (d : Disk) : option string :=
  match l with
  | Work k => work d !! k
  | IndexFile => index_file d
  | JournalFile => journal_file d
  | JournalTmp => journal_tmp d
  | Outside p => elsewhere d !! p
  end.
Definition poke (l : Loc) (v : option string) (d : Disk) : Disk :=
  match l with
  | Work k => mkDisk (partial_alter (fun _ => v) k (work d)) (index_file d) (journal_file d) (journal_tmp d) (git d) (elsewhere d)
  | IndexFile => mkDisk (work d) v (journal_file d) (journal_tmp d) (git d) (elsewhere d)
  | JournalFile => mkDisk (work d) (index_file d) v (journal_tmp d) (git d) (elsewhere d)
  | JournalTmp => mkDisk (work d) (index_file d) (journal_file d) v (git d) (elsewhere d)
  | Outside p => mkDisk (work d) (index_file d) (journal_file d) (journal_tmp d) (git d) (partial_alter (fun _ => v) p (elsewhere d))
  end.
Definition set_git (g : Git) (d : Disk) : Disk :=
  mkDisk (work d) (index_file d) (journal_file d) (journal_tmp d) (Some g) (elsewhere d).

(** ** The environment *)

(** What happens to the next call: it works; it throws, a file being written left with
    some content; or a file is written short although the call returns. *)
Inductive Outcome := Works | Throws (left : option string) | Short (content : string).

Record World := mkWorld {
  disk : Disk;
  cached : option Index;  (** the index the adapter's open repository keeps in memory *)
  outcomes : nat -> Outcome;
  tick : nat
}.

Definition on_disk (f : Disk -> Disk) (w : World) : World :=
  mkWorld (f (disk w)) (cached w) (outcomes w) (tick w).
Definition set_cached (i : option Index) (w : World) : World :=
  mkWorld (disk w) i (outcomes w) (tick w).
Definition advance (w : World) : World :=
  mkWorld (disk w) (cached w) (outcomes w) (S (tick w)).

Definition IO (A : Type) : Type := M World A.

(** A call that has its effect or throws without it. *)
Definition attempt {A} (what : string) (op : IO A) : IO A :=
  fun w => match outcomes w (tick w) with
           | Throws _ => (Err (Runtime what), advance w)
           | _ => op (advance w)
           end.

(** ** [RealFs] *)

Definition fs_exists (l : Loc) : IO bool :=
  attempt "exists" (gets (fun w => bool_decide (is_Some (peek l (disk w))))).
Definition fs_create_directories (l : Loc) : IO unit := attempt "Failed to create dirs" (mret tt).
Definition fs_rename (from to : Loc) : IO unit :=
  attempt "Failed to rename" (fun w =>
    match peek from (disk w) with
    | None => (Err (Runtime "Failed to rename"), w)
    | Some c => (Ok tt, on_disk (fun d => poke to (Some c) (poke from None d)) w)
    end).
Definition fs_remove (l : Loc) : IO unit :=
  attempt "Failed to remove" (modify (on_disk (poke l None))).
Definition fs_read_file (l : Loc) : IO string :=
  attempt "Failed to open for read" (fun w =>
    match peek l (disk w) with
    | None => (Err (Runtime "Failed to open for read"), w)
    | Some c => (Ok c, w)
    end).
(** The stream's state is not looked at, so a short write goes unnoticed here. *)
Definition fs_write_file (l : Loc) (content : string) : IO unit :=
  fun w => let w' := advance w in
    match outcomes w (tick w) with
    | Works => (Ok tt, on_disk (poke l (Some content)) w')
    | Short s => (Ok tt, on_disk (poke l (Some s)) w')
    | Throws None => (Err (Runtime "Failed to open for write"), w')
    | Throws (Some s) => (Err (Runtime "write"), on_disk (poke l (Some s)) w')
    end.

(** ** [GitRepo] *)

Section GitRepo.
Context {L : LibGit2}.

(** A libgit2 query of the repository as it is. *)
Definition query {A} (f : Git -> result A) : IO A :=
  attempt "git" (fun w =>
    match git (disk w) with
    | None => (Err (Runtime "GitRepo not opened"), w)
    | Some g => (f g, w)
    end).

Definition update_git (what : string) (f : Git -> Git) : IO unit :=
  attempt what (fun w =>
    match git (disk w) with
    | None => (Err (Runtime "GitRepo not opened"), w)
    | Some g => (Ok tt, on_disk (set_git (f g)) w)
    end).

(** Opening drops what the previous handle had cached. *)
Definition open_or_init : IO unit :=
  modify (set_cached None) ;;;
  attempt "git_repository_init_ext failed" (modify (on_disk (fun d =>
    match git d with
    | Some _ => d
    | None => set_git (mkGit ∅ ∅ ∅ (Branch initial_branch) ∅) d
    end))).

Definition git_write_file (path content : string) : IO unit :=
  query (fun _ => Ok tt) ;;;
  fs_create_directories (Work path) ;;;
  fs_write_file (Work path) content.

(** [git_index_open] of a file, [git_index_write] to it. *)
Definition index_load : IO Index :=
  attempt "git_index_open" (fun w =>
    match index_parse (index_file (disk w)) with
    | None => (Err (Runtime "git_index_open"), w)
    | Some i => (Ok i, w)
    end).
Definition index_store (i : Index) : IO unit :=
  attempt "git_index_write failed" (modify (on_disk (poke IndexFile (Some (index_bytes i))))).

(** [git_repository_index]: the index is read once per open repository. *)
Definition repository_index : IO Index :=
  query (fun _ => Ok tt) ;;;
  let* c := gets cached in
  match c with
  | Some i => mret i
  | None => let* i := index_load in modify (set_cached (Some i)) ;;; mret i
  end.

Definition put_entry (path : string) (e : Entry) (i : Index) : Index :=
  mkIndex (<[path := e]> (entries i)) (conflicts i ∖ {[path]}).
Definition drop_entry (path : string) (i : Index) : Index :=
  mkIndex (delete path (entries i)) (conflicts i ∖ {[path]}).
Definition entry_of (path content : string) : Entry :=
  mkEntry (file_mode path) (blob_id (clean content)).

(** [git_index_add_bypath]: the file's content becomes a blob and the entry names it. *)
Definition index_add_bypath (path : string) (i : Index) : IO Index :=
  let* content := fs_read_file (Work path) in
  update_git "git_index_add_bypath failed" (add_blob (blob_id (clean content)) (clean content)) ;;;
  modify (set_cached (Some (put_entry path (entry_of path content) i))) ;;;
  mret (put_entry path (entry_of path content) i).

Definition stage_path (path : string) : IO unit :=
  let* i := repository_index in
  let* i := index_add_bypath path i in
  index_store i.

(** [git_index_remove_bypath] succeeds whether or not the path was there. *)
Definition remove_path (path : string) : IO unit :=
  let* i := repository_index in
  modify (set_cached (Some (drop_entry path i))) ;;;
  index_store (drop_entry path i).

(** One index written for several paths; nothing is opened for none. *)
Fixpoint index_add_all (paths : list string) (i : Index) : IO Index :=
  match paths with
  | [] => mret i
  | path :: paths => let* i := index_add_bypath path i in index_add_all paths i
  end.
Definition stage_paths (paths : list string) : IO unit :=
  when (negb (bool_decide (paths = []))) (
    let* i := repository_index in
    let* i := index_add_all paths i in
    index_store i).

(** [git_index_write_tree], [git_index_write], [git_commit_create_v] on HEAD. *)
Definition commit (message : string) : IO unit :=
  let* i := repository_index in
  when (negb (bool_decide (conflicts i = ∅))) (throw (Runtime "git_index_write_tree failed")) ;;;
  index_store i ;;;
  let* before := query (fun g => Ok (head_id g)) in
  let c := mkCommit (match before with Some o => [o] | None => [] end) (entries i) in
  update_git "git_commit_create_v failed"
    (fun g => let o := commit_id g message c in set_ref (head_name g) o (add_commit o c g)).

(** [git_remote_lookup], then [git_remote_set_url] or [git_remote_create]. *)
Definition set_remote (name url : string) : IO unit :=
  let* known := query (fun g => Ok (bool_decide (is_Some (remotes g !! name)))) in
  update_git (if known : bool then "git_remote_set_url failed" else "git_remote_create failed")
    (add_remote name url).
Definition remove_remote (name : string) : IO unit :=
  update_git "git_remote_delete failed" (drop_remote name).

(** The content of a path at a commit; [None] when the commit has no such path. *)
Definition read_blob_at (commit_oid path : string) : IO (option string) :=
  query (fun g =>
    match commits g !! commit_oid with
    | None => Err (Runtime "git_commit_lookup failed")
    | Some c =>
        match commit_tree c !! path with
        | None => Ok None
        | Some e => match blobs g !! entry_id e with
                    | None => Err (Runtime "git_blob_lookup failed")
                    | Some content => Ok (Some content)
                    end
        end
    end).

Definition head_oid : IO (option Oid) := query (fun g => Ok (head_id g)).
Definition commit_parent_oids (commit_oid : string) : IO (list Oid) :=
  query (fun g => match commits g !! commit_oid with
                  | None => Err (Runtime "git_commit_lookup failed")
                  | Some c => Ok (commit_parents c)
                  end).

End GitRepo.
End Disk.

Module DiskFacts.
Import Disk.

(** ** Triples for the calls

    In a calm environment no call throws of itself; a triple's exceptions are blamed on
    the environment. *)
Definition calm (w : World) : Prop := forall n, outcomes w n = Works.

Definition at_ (P : Disk -> option Index -> Prop) (w : World) : Prop := P (disk w) (cached w).

Definition io_triple {A} (P : Disk -> option Index -> Prop) (m : IO A)
    (Q : A -> Disk -> option Index -> Prop) : Prop :=
  hoare (at_ P) m (fun a => at_ (Q a)) (fun w => ~ calm w).

Lemma not_calm w n x : outcomes w n = x -> x <> Works -> ~ calm w.
Proof. intros H Hx Hc. by rewrite (Hc n) in H. Qed.

Section Triples.
Context (P : Disk -> option Index -> Prop).

Lemma attempt_triple {A} what (op : IO A) Q : io_triple P op Q -> io_triple P (attempt what op) Q.
Proof.
  intros H w Hw. unfold attempt.
  destruct (outcomes w (tick w)) as [|l|s] eqn:Ho;
    [apply (H (advance w) Hw)| |apply (H (advance w) Hw)].
  by apply (not_calm _ (tick w) (Throws l)).
Qed.

Lemma fs_exists_triple l :
  io_triple P (fs_exists l) (fun b d c => P d c /\ b = bool_decide (is_Some (peek l d))).
Proof. apply attempt_triple. by intros w Hw. Qed.

Lemma fs_create_directories_triple l : io_triple P (fs_create_directories l) (fun _ => P).
Proof. apply attempt_triple. by intros w Hw. Qed.

Lemma fs_read_file_triple l :
  (forall d c, P d c -> is_Some (peek l d)) ->
  io_triple P (fs_read_file l) (fun s d c => P d c /\ peek l d = Some s).
Proof.
  intros H. apply attempt_triple. intros w Hw. destruct (H _ _ Hw) as [s Hs]. by rewrite Hs.
Qed.

Lemma fs_remove_triple l :
  io_triple P (fs_remove l) (fun _ d c => exists d0, P d0 c /\ d = poke l None d0).
Proof. apply attempt_triple. intros w Hw. by exists (disk w). Qed.

Lemma fs_rename_triple from to :
  (forall d c, P d c -> is_Some (peek from d)) ->
  io_triple P (fs_rename from to) (fun _ d c => exists d0 s, P d0 c /\ peek from d0 = Some s /\
    d = poke to (Some s) (poke from None d0)).
Proof.
  intros H. apply attempt_triple. intros w Hw. destruct (H _ _ Hw) as [s Hs]. rewrite Hs.
  by exists (disk w), s.
Qed.
End Triples.

Section Writes.
Context (P : Disk -> option Index -> Prop).

Lemma peek_poke l v d : peek l (poke l v d) = v.
Proof. destruct l; cbn; try done; by rewrite lookup_partial_alter_eq. Qed.

Context {L : LibGit2}.

Lemma query_triple {A} (f : Git -> result A) :
  (forall d c, P d c -> exists g a, git d = Some g /\ f g = Ok a) ->
  io_triple P (query f) (fun a d c => P d c /\ exists g, git d = Some g /\ f g = Ok a).
Proof.
  intros H. apply attempt_triple. intros w Hw. destruct (H _ _ Hw) as (g & a & Hg & Ha).
  rewrite Hg, Ha. split; [done|]. by exists g.
Qed.

Lemma update_git_triple what f :
  (forall d c, P d c -> is_Some (git d)) ->
  io_triple P (update_git what f) (fun _ d c => exists d0 g, P d0 c /\ git d0 = Some g /\ d = set_git (f g) d0).
Proof.
  intros H. apply attempt_triple. intros w Hw. destruct (H _ _ Hw) as [g Hg]. rewrite Hg.
  by exists (disk w), g.
Qed.

Lemma index_load_triple :
  (forall d c, P d c -> is_Some (index_parse (index_file d))) ->
  io_triple P index_load (fun i d c => P d c /\ index_parse (index_file d) = Some i).
Proof.
  intros H. apply attempt_triple. intros w Hw. destruct (H _ _ Hw) as [i Hi]. by rewrite Hi.
Qed.

Lemma index_store_triple i :
  io_triple P (index_store i)
    (fun _ d c => exists d0, P d0 c /\ d = poke IndexFile (Some (index_bytes i)) d0).
Proof. apply attempt_triple. intros w Hw. by exists (disk w). Qed.
End Writes.

(** ** Properties of the disk that calls keep *)

Definition on (I : Disk -> Prop) (w : World) : Prop := I (disk w).
Definition stable (l : Loc) (I : Disk -> Prop) : Prop := forall v d, I d -> I (poke l v d).

Section Kept.
Context {L : LibGit2} (I : Disk -> Prop).

Lemma kept_attempt {A} what (op : IO A) : preserves (on I) op -> preserves (on I) (attempt what op).
Proof. intros H w Hw. unfold attempt. destruct (outcomes w (tick w)); [by apply H|done|by apply H]. Qed.
Lemma kept_cached i : preserves (on I) (modify (set_cached i)).
Proof. by intros w Hw. Qed.
Lemma kept_fs_exists l : preserves (on I) (fs_exists l).
Proof. apply kept_attempt. by intros w Hw. Qed.
Lemma kept_create_directories l : preserves (on I) (fs_create_directories l).
Proof. apply kept_attempt. by intros w Hw. Qed.
Lemma kept_read l : preserves (on I) (fs_read_file l).
Proof. apply kept_attempt. intros w Hw. by destruct (peek l (disk w)). Qed.
Lemma kept_write l s : stable l I -> preserves (on I) (fs_write_file l s).
Proof.
  intros Hl w Hw. unfold fs_write_file. destruct (outcomes w (tick w)) as [|[x|]|x]; cbn; try by apply Hl.
  done.
Qed.
Lemma kept_remove l : stable l I -> preserves (on I) (fs_remove l).
Proof. intros Hl. apply kept_attempt. intros w Hw. by apply Hl. Qed.
Lemma kept_rename a b : stable a I -> stable b I -> preserves (on I) (fs_rename a b).
Proof.
  intros Ha Hb. apply kept_attempt. intros w Hw. destruct (peek a (disk w)); [|done]. by apply Hb, Ha.
Qed.
Lemma kept_query {A} (f : Git -> result A) : preserves (on I) (query f).
Proof. apply kept_attempt. intros w Hw. by destruct (git (disk w)). Qed.
Lemma kept_update_git what f :
  (forall d g, I d -> git d = Some g -> I (set_git (f g) d)) -> preserves (on I) (update_git what f).
Proof.
  intros H. apply kept_attempt. intros w Hw. destruct (git (disk w)) as [g|] eqn:Hg; [|done].
  by apply H.
Qed.
Lemma kept_index_load : preserves (on I) index_load.
Proof. apply kept_attempt. intros w Hw. by destruct (index_parse _). Qed.
Lemma kept_index_store i : stable IndexFile I -> preserves (on I) (index_store i).
Proof. intros Hi. apply kept_attempt. intros w Hw. by apply Hi. Qed.
End Kept.

(** The same with what also holds of the disk when a call throws. *)
Definition io_safe {A} (I : Disk -> Prop) (P : Disk -> option Index -> Prop) (m : IO A)
    (Q : A -> Disk -> option Index -> Prop) : Prop :=
  hoare (at_ P) m (fun a => at_ (Q a)) (fun w => on I w /\ ~ calm w).

Section Safe.
Context (I : Disk -> Prop) (P : Disk -> option Index -> Prop).

Lemma io_safe_of {A} (m : IO A) Q :
  io_triple P m Q -> preserves (on I) m -> (forall d c, P d c -> I d) ->
  io_safe I P m (fun a d c => Q a d c /\ I d).
Proof.
  intros Hm Hi HP. eapply hoare_conseq.
  - exact (hoare_and _ _ _ _ _ _ _ Hm (hoare_preserves _ _ Hi)).
  - intros w Hw. split; [done|]. exact (HP _ _ Hw).
  - intros a w [H1 H2]. by split.
  - intros w [H1 H2]. by split.
Qed.

Lemma io_safe_bind {A B} (m : IO A) (f : A -> IO B) Q R :
  io_safe I P m Q -> (forall a, io_safe I (Q a) (f a) R) -> io_safe I P (bind m f) R.
Proof. apply hoare_bind. Qed.

Lemma io_safe_weaken {A} (I' : Disk -> Prop) (P' : Disk -> option Index -> Prop) (m : IO A)
    (Q Q' : A -> Disk -> option Index -> Prop) :
  io_safe I P m Q -> (forall d, I d -> I' d) -> (forall d c, P' d c -> P d c) ->
  (forall a d c, Q a d c -> Q' a d c) -> io_safe I' P' m Q'.
Proof.
  intros Hm HI HP HQ. eapply hoare_conseq; [exact Hm| | |].
  - intros w. apply HP.
  - intros a w. apply HQ.
  - intros w [H1 H2]. split; [by apply HI|done].
Qed.
(** A query whose answer is known. *)
Lemma query_known {A B} (f : Git -> result A) a (k : A -> IO B) R :
  (forall d c, P d c -> I d) -> (forall d c, P d c -> exists g, git d = Some g /\ f g = Ok a) ->
  io_safe I P (k a) R -> io_safe I P (bind (query f) k) R.
Proof.
  intros HI Hq Hk w Hw. unfold bind, query, attempt.
  destruct (Hq _ _ Hw) as (g & Hg & Ha).
  destruct (outcomes w (tick w)) as [|l|s] eqn:Ho; cbn; [rewrite Hg, Ha; exact (Hk (advance w) Hw)| |
    rewrite Hg, Ha; exact (Hk (advance w) Hw)].
  split; [exact (HI _ _ Hw)|]. by apply (not_calm _ (tick w) (Throws l)).
Qed.

Lemma when_throw_known {B} (b : bool) e (k : IO B) R :
  b = false -> io_safe I P k R -> io_safe I P (when b (throw e) ;;; k) R.
Proof. by intros ->. Qed.
(** A write that is read back and compared is exact, whatever the environment. *)
Lemma checked_write_safe {A} l content e (k : IO A) Q :
  (forall v d c, P d c -> I d /\ I (poke l v d)) ->
  io_safe I (fun d c => exists d0, P d0 c /\ d = poke l (Some content) d0) k Q ->
  io_safe I P (fs_write_file l content ;;;
    let* now := fs_read_file l in
    when (negb (String.eqb now content)) (throw e) ;;; k) Q.
Proof.
  intros HI H w Hw. unfold bind at 1, fs_write_file.
  assert (forall s w', disk w' = poke l (Some s) (disk w) -> cached w' = cached w ->
    outcomes w' = outcomes w -> (s = content \/ ~ calm w) ->
    match (let* now := fs_read_file l in when (negb (String.eqb now content)) (throw e) ;;; k) w' with
    | (Ok a, w1) => at_ (Q a) w1 | (Err _, w1) => on I w1 /\ ~ calm w1 end) as G.
  { intros s w' Hd Hc Ho Hs.
    assert (forall w1, disk w1 = disk w' -> on I w1) as HI1.
    { intros w1 H1. unfold on. rewrite H1, Hd. by apply (HI (Some s) (disk w) (cached w)). }
    unfold bind at 1, fs_read_file, attempt.
    assert (forall b w1, outcomes w1 = outcomes w -> disk w1 = disk w' ->
      cached w1 = cached w -> b = negb (String.eqb s content) ->
      match (when b (throw e) ;;; k) w1 with
      | (Ok a, w1) => at_ (Q a) w1 | (Err _, w1) => on I w1 /\ ~ calm w1 end) as G.
    { intros b w1 Ho1 Hd1 Hc1 ->. destruct (String.eqb_spec s content) as [->|Hne]; cbn.
      - apply H. unfold at_. rewrite Hd1, Hd, Hc1. by exists (disk w).
      - destruct Hs as [?|Hs]; [done|]. split; [by apply HI1|]. unfold calm in *. by rewrite Ho1. }
    destruct (outcomes w' (tick w')) as [|left|s'] eqn:Hx; cbn; [rewrite ?Hd, ?peek_poke; by apply G| |
      rewrite ?Hd, ?peek_poke; by apply G].
    split; [by apply HI1|]. by apply (not_calm _ (tick w') (Throws left)). }
  destruct (outcomes w (tick w)) as [|[s|]|s] eqn:Hx; cbn.
  - apply (G content); [done..|by left].
  - split; [by apply (HI (Some s) (disk w) (cached w))|]. by apply (not_calm _ (tick w) (Throws (Some s))).
  - split; [by apply (HI None (disk w) (cached w))|]. by apply (not_calm _ (tick w) (Throws None)).
  - apply (G s); [done..|]. right. by apply (not_calm _ (tick w) (Short s)).
Qed.
End Safe.

Lemma checked_write_last P l content e :
  io_triple P (fs_write_file l content ;;;
    let* now := fs_read_file l in
    when (negb (String.eqb now content)) (throw e))
    (fun _ d c => exists d0, P d0 c /\ d = poke l (Some content) d0).
Proof.
  pose proof (checked_write_safe (fun _ => True) P l content e (mret tt)
    (fun _ d c => exists d0, P d0 c /\ d = poke l (Some content) d0) (fun _ _ _ _ => conj Logic.I Logic.I)) as H.
  intros w Hw. specialize (H (fun w1 H1 => H1) w Hw). unfold bind, when, mret, throw in *.
  destruct (fs_write_file l content w) as [[?|?] w1]; [|by destruct H].
  destruct (fs_read_file l w1) as [[now|?] w2]; [|by destruct H].
  destruct (String.eqb now content); [done|by destruct H].
Qed.

(** What a call that returns has read. *)
Section Values.
Context {L : LibGit2} (P : Disk -> option Index -> Prop).

Lemma value_attempt {A} what (op : IO A) (Q : A -> Disk -> option Index -> Prop) :
  hoare (at_ P) op (fun a => at_ (Q a)) (at_ P) ->
  hoare (at_ P) (attempt what op) (fun a => at_ (Q a)) (at_ P).
Proof.
  intros H w Hw. unfold attempt. destruct (outcomes w (tick w)); [|exact Hw|]; exact (H (advance w) Hw).
Qed.
Lemma exists_value l :
  hoare (at_ P) (fs_exists l)
    (fun b => at_ (fun d c => P d c /\ b = bool_decide (is_Some (peek l d)))) (at_ P).
Proof. apply (value_attempt _ _ (fun b d c => P d c /\ b = _)). by intros w Hw. Qed.
Lemma read_value l :
  hoare (at_ P) (fs_read_file l) (fun s => at_ (fun d c => P d c /\ peek l d = Some s)) (at_ P).
Proof.
  apply (value_attempt _ _ (fun s d c => P d c /\ peek l d = Some s)). intros w Hw.
  by destruct (peek l (disk w)) eqn:E.
Qed.
Lemma query_value {A} (f : Git -> result A) :
  hoare (at_ P) (query f)
    (fun a => at_ (fun d c => P d c /\ exists g, git d = Some g /\ f g = Ok a)) (at_ P).
Proof.
  apply (value_attempt _ _ (fun a d c => P d c /\ exists g, git d = Some g /\ f g = Ok a)). intros w Hw.
  destruct (git (disk w)) as [g|] eqn:E; [|done]. destruct (f g) as [a|] eqn:Ef; [|done].
  split; [done|]. by exists g.
Qed.
Lemma index_load_value :
  hoare (at_ P) index_load
    (fun i => at_ (fun d c => P d c /\ index_parse (index_file d) = Some i)) (at_ P).
Proof.
  apply (value_attempt _ _ (fun i d c => P d c /\ index_parse (index_file d) = Some i)). intros w Hw.
  by destruct (index_parse (index_file (disk w))) eqn:E.
Qed.
End Values.

(** ** The adapter's index *)

(** The index file holds [i], and so does the adapter if it has read it. *)
Definition tracks {L : LibGit2} (i : Index) (d : Disk) (c : option Index) : Prop :=
  index_parse (index_file d) = Some i /\ (c = None \/ c = Some i).

Section Adapter.
Context {L : LibGit2} (I : Disk -> Prop).

Lemma io_safe_modify {B} (f : option Index) (P : Disk -> option Index -> Prop) (k : IO B) R :
  io_safe I (fun d c => exists c0, P d c0 /\ c = f) k R ->
  io_safe I P (modify (set_cached f) ;;; k) R.
Proof. intros H w Hw. apply (H (set_cached f w)). by exists (cached w). Qed.

(** Two exceptions are possible, and both before anything is written. *)
Lemma repository_index_known {B} i (P : Disk -> option Index -> Prop) (k : Index -> IO B) R :
  (forall d c, P d c -> I d /\ is_Some (git d) /\ tracks i d c) ->
  io_safe I (fun d c => exists c0, P d c0 /\ c = Some i) (k i) R ->
  io_safe I P (bind repository_index k) R.
Proof.
  intros HP Hk w Hw. unfold repository_index. rewrite !bind_assoc. revert w Hw.
  apply (query_known I P (fun _ => Ok tt) tt); [intros d c Hd; apply (HP d c Hd)| |].
  { intros d c Hd. destruct (HP d c Hd) as (_ & [g Hg] & _). by exists g. }
  intros w Hw. destruct (HP _ _ Hw) as (HI & _ & Hp & Hc).
  unfold bind at 1 2, gets. destruct Hc as [Hc|Hc]; rewrite Hc.
  - unfold bind at 1 2, index_load, attempt. destruct (outcomes w (tick w)) as [|x|x] eqn:Ho; cbn;
      rewrite ?Hp; [apply (Hk (set_cached (Some i) (advance w))); by exists (cached w)| |
        apply (Hk (set_cached (Some i) (advance w))); by exists (cached w)].
    split; [done|]. by apply (not_calm _ (tick w) (Throws x)).
  - apply Hk. by exists (cached w).
Qed.

Lemma index_store_safe i (P : Disk -> option Index -> Prop) (R : unit -> Disk -> option Index -> Prop) :
  (forall d c, P d c -> I d) ->
  (forall d c, P d c -> R tt (poke IndexFile (Some (index_bytes i)) d) c) ->
  io_safe I P (index_store i) R.
Proof.
  intros HI HR w Hw. unfold index_store, attempt.
  destruct (outcomes w (tick w)) as [|x|x] eqn:Ho; [by apply HR| |by apply HR].
  split; [exact (HI _ _ Hw)|]. by apply (not_calm _ (tick w) (Throws x)).
Qed.

Lemma update_git_safe what f (P : Disk -> option Index -> Prop) (R : unit -> Disk -> option Index -> Prop) :
  (forall d c, P d c -> I d) ->
  (forall d c, P d c -> exists g, git d = Some g /\ R tt (set_git (f g) d) c) ->
  io_safe I P (update_git what f) R.
Proof.
  intros HI HR w Hw. destruct (HR _ _ Hw) as (g & Hg & H). unfold update_git, attempt.
  destruct (outcomes w (tick w)) as [|x|x] eqn:Ho; cbn; rewrite ?Hg; [exact H| |exact H].
  split; [exact (HI _ _ Hw)|]. by apply (not_calm _ (tick w) (Throws x)).
Qed.

Lemma read_known {B} l s (P : Disk -> option Index -> Prop) (k : string -> IO B) R :
  (forall d c, P d c -> I d) -> (forall d c, P d c -> peek l d = Some s) ->
  io_safe I P (k s) R -> io_safe I P (bind (fs_read_file l) k) R.
Proof.
  intros HI Hp Hk w Hw. unfold bind, fs_read_file, attempt.
  destruct (outcomes w (tick w)) as [|x|x] eqn:Ho; cbn; rewrite ?(Hp _ _ Hw);
    [apply (Hk (advance w) Hw)| |apply (Hk (advance w) Hw)].
  split; [exact (HI _ _ Hw)|]. by apply (not_calm _ (tick w) (Throws x)).
Qed.

Lemma exists_known {B} l b (P : Disk -> option Index -> Prop) (k : bool -> IO B) R :
  (forall d c, P d c -> I d) -> (forall d c, P d c -> bool_decide (is_Some (peek l d)) = b) ->
  io_safe I P (k b) R -> io_safe I P (bind (fs_exists l) k) R.
Proof.
  intros HI Hp Hk w Hw. unfold bind, fs_exists, attempt.
  destruct (outcomes w (tick w)) as [|x|x] eqn:Ho; cbn; rewrite ?(Hp _ _ Hw);
    [apply (Hk (advance w) Hw)| |apply (Hk (advance w) Hw)].
  split; [exact (HI _ _ Hw)|]. by apply (not_calm _ (tick w) (Throws x)).
Qed.

Lemma index_load_known {B} i (P : Disk -> option Index -> Prop) (k : Index -> IO B) R :
  (forall d c, P d c -> I d) -> (forall d c, P d c -> index_parse (index_file d) = Some i) ->
  io_safe I P (k i) R -> io_safe I P (bind index_load k) R.
Proof.
  intros HI Hp Hk w Hw. unfold bind, index_load, attempt.
  destruct (outcomes w (tick w)) as [|x|x] eqn:Ho; cbn; rewrite ?(Hp _ _ Hw);
    [apply (Hk (advance w) Hw)| |apply (Hk (advance w) Hw)].
  split; [exact (HI _ _ Hw)|]. by apply (not_calm _ (tick w) (Throws x)).
Qed.

Lemma create_directories_safe l (P : Disk -> option Index -> Prop) :
  (forall d c, P d c -> I d) -> io_safe I P (fs_create_directories l) (fun _ => P).
Proof.
  intros HI w Hw. unfold fs_create_directories, attempt.
  destruct (outcomes w (tick w)) as [|x|x] eqn:Ho; [done| |done].
  split; [exact (HI _ _ Hw)|]. by apply (not_calm _ (tick w) (Throws x)).
Qed.

Lemma rename_safe from to s (P : Disk -> option Index -> Prop) (R : unit -> Disk -> option Index -> Prop) :
  (forall d c, P d c -> I d) -> (forall d c, P d c -> peek from d = Some s) ->
  (forall d c, P d c -> R tt (poke to (Some s) (poke from None d)) c) ->
  io_safe I P (fs_rename from to) R.
Proof.
  intros HI Hp HR w Hw. unfold fs_rename, attempt.
  destruct (outcomes w (tick w)) as [|x|x] eqn:Ho; cbn; rewrite ?(Hp _ _ Hw); [by apply HR| |by apply HR].
  split; [exact (HI _ _ Hw)|]. by apply (not_calm _ (tick w) (Throws x)).
Qed.
End Adapter.

(** [git_commit_create_v] adds no way to get from an old commit to a new one. *)
Lemma ancestor_add g o c p : ancestor (add_commit o c g) p o -> ancestor g p o.
Proof.
  intros H. remember (add_commit o c g) as g' eqn:Hg. remember o as o' eqn:Ho. rewrite Ho in Hg.
  revert Ho. induction H as [o1|o1 c1 p1 q1 Hc Hp Ha IH]; intros ->; [constructor|].
  destruct (decide (o1 = o)) as [->|Hne]; [constructor|].
  rewrite Hg in Hc. cbn in Hc. rewrite lookup_insert_ne in Hc by congruence.
  eapply ancestor_step; [exact Hc|exact Hp|]. by apply IH.
Qed.

(** Nothing the program does changes what the environment will do. *)
Definition env (o : nat -> Outcome) (w : World) : Prop := outcomes w = o.

Ltac keeps :=
  repeat first [ progress intros | apply preserves_bind | apply preserves_when | apply preserves_for_each
               | case_match | solve [auto with preserves] ].

Section Env.
Context {L : LibGit2} (o : nat -> Outcome).

Lemma env_attempt {A} what (op : IO A) : preserves (env o) op -> preserves (env o) (attempt what op).
Proof. intros H w Hw. unfold attempt. destruct (outcomes w (tick w)); [by apply H|done|by apply H]. Qed.
Lemma env_modify f : (forall w, outcomes (f w) = outcomes w) -> preserves (env o) (modify f).
Proof. intros H w Hw. unfold env in *. cbn. by rewrite H. Qed.
Lemma env_exists l : preserves (env o) (fs_exists l).
Proof. apply env_attempt, preserves_gets. Qed.
Lemma env_create_directories l : preserves (env o) (fs_create_directories l).
Proof. apply env_attempt, preserves_mret. Qed.
Lemma env_read l : preserves (env o) (fs_read_file l).
Proof. apply env_attempt. intros w Hw. by destruct (peek l (disk w)). Qed.
Lemma env_write l s : preserves (env o) (fs_write_file l s).
Proof. intros w Hw. unfold fs_write_file. by destruct (outcomes w (tick w)) as [|[x|]|x]. Qed.
Lemma env_remove l : preserves (env o) (fs_remove l).
Proof. by apply env_attempt, env_modify. Qed.
Lemma env_rename a b : preserves (env o) (fs_rename a b).
Proof. apply env_attempt. intros w Hw. by destruct (peek a (disk w)). Qed.
Lemma env_query {A} (f : Git -> result A) : preserves (env o) (query f).
Proof. apply env_attempt. intros w Hw. by destruct (git (disk w)). Qed.
Lemma env_update_git what f : preserves (env o) (update_git what f).
Proof. apply env_attempt. intros w Hw. by destruct (git (disk w)). Qed.
Lemma env_index_load : preserves (env o) index_load.
Proof. apply env_attempt. intros w Hw. by destruct (index_parse _). Qed.
Lemma env_index_store i : preserves (env o) (index_store i).
Proof. by apply env_attempt, env_modify. Qed.
#[local] Hint Resolve env_attempt env_modify env_exists env_create_directories env_read env_write
  env_remove env_rename env_query env_update_git env_index_load env_index_store : preserves.
Lemma env_open_or_init : preserves (env o) open_or_init.
Proof. unfold open_or_init. keeps. Qed.
Lemma env_git_write_file p s : preserves (env o) (git_write_file p s).
Proof. unfold git_write_file. keeps. Qed.
Lemma env_repository_index : preserves (env o) repository_index.
Proof. unfold repository_index. keeps. Qed.
#[local] Hint Resolve env_repository_index : preserves.
Lemma env_stage_path p : preserves (env o) (stage_path p).
Proof. unfold stage_path, index_add_bypath. keeps. Qed.
Lemma env_remove_path p : preserves (env o) (remove_path p).
Proof. unfold remove_path. keeps. Qed.
Lemma env_set_remote n u : preserves (env o) (set_remote n u).
Proof. unfold set_remote. keeps. Qed.
Lemma env_index_add_bypath p i : preserves (env o) (index_add_bypath p i).
Proof. unfold index_add_bypath. keeps. Qed.
#[local] Hint Resolve env_index_add_bypath : preserves.
Lemma env_index_add_all ps i : preserves (env o) (index_add_all ps i).
Proof. revert i. induction ps as [|p ps IH]; intros i; cbn [index_add_all]; keeps. Qed.
#[local] Hint Resolve env_index_add_all : preserves.
Lemma env_stage_paths ps : preserves (env o) (stage_paths ps).
Proof. unfold stage_paths. keeps. Qed.
Lemma env_read_blob_at c p : preserves (env o) (read_blob_at c p).
Proof. apply env_query. Qed.
Lemma env_commit m : preserves (env o) (commit m).
Proof. unfold commit. keeps. Qed.
End Env.

#[export] Hint Resolve env_attempt env_modify env_exists env_create_directories env_read env_write
  env_remove env_rename env_query env_update_git env_index_load env_index_store env_open_or_init
  env_git_write_file env_repository_index env_stage_path env_remove_path env_commit env_set_remote
  env_stage_paths env_read_blob_at : preserves.

#[export] Hint Resolve kept_attempt kept_cached kept_fs_exists kept_create_directories kept_read
  kept_write kept_remove kept_rename kept_query kept_update_git kept_index_load
  kept_index_store : preserves.

End DiskFacts.
