(* ===== verification/Runs.v ===== *)
(** * Runs without faults

    When no call fails of itself a computation can be followed step by step: [runs] says
    that it returns and in what state. *)

From stdpp Require Import base list strings numbers gmap.
From S2P Require Import Prelude Text Disk.
Import Disk DiskFacts.

Module Runs.

(** In a calm environment the computation returns, in a state such as [Q] says. *)
Definition runs {A} (m : IO A) (w : World) (Q : A -> World -> Prop) : Prop :=
  calm w -> exists a w', m w = (Ok a, w') /\ calm w' /\ Q a w'.

Lemma runs_bind {A B} (m : IO A) (f : A -> IO B) w Q R :
  runs m w Q -> (forall a w', Q a w' -> runs (f a) w' R) -> runs (bind m f) w R.
Proof.
  intros Hm Hf Hc. destruct (Hm Hc) as (a & w1 & He & Hc1 & Hq).
  destruct (Hf a w1 Hq Hc1) as (b & w2 & He2 & Hc2 & Hr). exists b, w2. unfold bind. by rewrite He.
Qed.
Lemma runs_mret {A} (a : A) w (Q : A -> World -> Prop) : Q a w -> runs (mret a) w Q.
Proof. intros HQ Hc. by exists a, w. Qed.
Lemma runs_lift {A} (r : result A) (a : A) w (Q : A -> World -> Prop) : r = Ok a -> Q a w -> runs (lift r) w Q.
Proof. intros -> HQ Hc. by exists a, w. Qed.
Lemma runs_gets {A} (f : World -> A) w (Q : A -> World -> Prop) : Q (f w) w -> runs (gets f) w Q.
Proof. intros HQ Hc. by exists (f w), w. Qed.
Lemma runs_attempt {A} what (op : IO A) w Q : runs op (advance w) Q -> runs (attempt what op) w Q.
Proof. intros H Hc. unfold attempt. rewrite Hc. by apply H. Qed.
Lemma runs_weaken {A} (m : IO A) w (Q R : A -> World -> Prop) :
  runs m w Q -> (forall a w', Q a w' -> R a w') -> runs m w R.
Proof. intros H HQ Hc. destruct (H Hc) as (a & w' & He & Hc' & Hq). exists a, w'. auto. Qed.

Lemma runs_create_directories l w : runs (fs_create_directories l) w (fun _ w' => disk w' = disk w).
Proof. apply runs_attempt. by apply runs_mret. Qed.
Lemma partial_alter_twice (v u : option string) k (m : gmap string string) :
  partial_alter (fun _ => v) k (partial_alter (fun _ => u) k m) = partial_alter (fun _ => v) k m.
Proof.
  apply map_eq. intros i. destruct (decide (i = k)) as [->|Hn].
  - by rewrite !lookup_partial_alter_eq.
  - by rewrite !lookup_partial_alter_ne by done.
Qed.
Lemma poke_poke l a b d : poke l a (poke l b d) = poke l a d.
Proof. destruct l; cbn; rewrite ?partial_alter_twice; done. Qed.
Lemma poke_peek l d : poke l (peek l d) d = d.
Proof. destruct l, d; cbn; try done; by rewrite partial_alter_self. Qed.
#[export] Instance loc_eq_dec : EqDecision Loc.
Proof. solve_decision. Defined.
Lemma peek_poke_ne l l' v d : l <> l' -> peek l' (poke l v d) = peek l' d.
Proof.
  intros Hne. destruct l as [k| | | |k], l' as [k'| | | |k']; try done;
    apply lookup_partial_alter_ne; congruence.
Qed.

Lemma runs_read_file l c w :
  peek l (disk w) = Some c -> runs (fs_read_file l) w (fun s w' => s = c /\ disk w' = disk w).
Proof. intros H. apply runs_attempt. intros Hc. cbn. rewrite H. by eexists _, _. Qed.
Lemma runs_write_file l c w :
  runs (fs_write_file l c) w (fun _ w' => disk w' = poke l (Some c) (disk w)).
Proof. intros Hc. unfold fs_write_file. rewrite Hc. by eexists _, _. Qed.
Lemma runs_exists l w :
  runs (fs_exists l) w (fun b w' => b = bool_decide (is_Some (peek l (disk w))) /\ disk w' = disk w).
Proof. apply runs_attempt. intros Hc. by eexists _, _. Qed.
Lemma runs_remove l w : runs (fs_remove l) w (fun _ w' => disk w' = poke l None (disk w)).
Proof. apply runs_attempt. intros Hc. by eexists _, _. Qed.
Lemma runs_rename from to c w :
  peek from (disk w) = Some c ->
  runs (fs_rename from to) w (fun _ w' => disk w' = poke to (Some c) (poke from None (disk w))).
Proof. intros H. apply runs_attempt. intros Hc. cbn. rewrite H. by eexists _, _. Qed.
End Runs.

(** After a call without a result: the state [w] it left and what [H] says of it. *)
Ltac after w H := intros [] w H; cbn beta in H.
