(* ===== verification/Mutation.v ===== *)
(** * The journal of a card change

    [src/src/card/CardMutation.cpp]: before a change of several card files is made, what
    the files, the index and HEAD were and what the files will be is written to a
    journal. A failure that is caught is rolled back; a process that dies leaves the
    journal for [recover_files], which keeps the change if its commit landed and undoes
    it otherwise. *)

From stdpp Require Import base list sets strings numbers gmap sorting.
From Stdlib Require Import Ascii.
From S2P Require Import Prelude Text Disk.
Import Disk.

Module CardMutation.

(** [saved["files"][path]]: [before] is what the file held; [after] is missing for a
    path that is only watched, and [Some None] for one the change removes. *)
Record SavedFile := mkSavedFile { before : option string; after : option (option string) }.

Record Saved := mkSaved {
  saved_version : Z;
  saved_files : list (string * SavedFile);
  saved_head : option Oid;
  saved_index : option string;
  saved_reference : string
}.

(** The journal's format is nlohmann-json's MessagePack. *)
Class MsgPack := {
  to_msgpack : Saved -> string;
  from_msgpack : string -> option Saved
}.
Class MsgPackLaws (J : MsgPack) : Prop := {
  from_to_msgpack : forall s, from_msgpack (to_msgpack s) = Some s
}.

Section CardMutation.
Context {L : LibGit2} {J : MsgPack}.

(** [repository.repo != nullptr] *)
Definition has_repo : IO bool := gets (fun w => bool_decide (is_Some (git (disk w)))).

Definition snapshot (l : Loc) : IO (option string) :=
  let* ex := fs_exists l in
  if ex then let* bytes := fs_read_file l in mret (Some bytes) else mret None.

Definition restore (l : Loc) (data : option string) : IO unit :=
  match data with
  | None => let* ex := fs_exists l in when ex (fs_remove l)
  | Some content =>
      fs_create_directories l ;;;
      fs_write_file l content ;;;
      let* now := fs_read_file l in
      when (negb (String.eqb now content)) (throw (Runtime "incomplete card recovery write"))
  end.

(** [std::filesystem::path] of the keys: the components between slashes. *)
Fixpoint components (current : string) (s : string) : list string :=
  match s with
  | EmptyString => [current]
  | String c s => if Ascii.eqb c "/"%char then current :: components "" s
                  else components (current +:+ String c "") s
  end.
Fixpoint contains (needle s : string) : bool :=
  String.prefix needle s ||
  match s with EmptyString => false | String _ s => contains needle s end.

Definition journal_file_path (key : string) : result Loc :=
  if String.prefix "/" key || existsb (String.eqb ".") (components "" key) ||
     contains ".." key ||
     negb (String.prefix "cards/" key || String.prefix "trash/cards/" key)
  then Err (Runtime "invalid card mutation recovery path")
  else Ok (Work key).

(** [branch_tip], [same] *)
Definition branch_tip (g : Git) (saved : Saved) : option Oid := ref_id g (saved_reference saved).
Definition same (a b : option Oid) : bool := bool_decide (a = b).

(** [git_commit_lookup] *)
Definition commit_lookup (g : Git) (o : Oid) : result Commit :=
  match commits g !! o with
  | Some c => Ok c
  | None => Err (Runtime "card mutation Git failure: object not found")
  end.

(** The operation's bytes at one path of a commit. *)
Definition holds_after (t : Tree) (kf : string * SavedFile) : bool :=
  match after kf.2 with
  | None => true
  | Some None => bool_decide (t !! kf.1 = None)
  | Some (Some bytes) =>
      match t !! kf.1 with
      | None => false
      | Some entry => String.eqb (blob_id bytes) (entry_id entry)
      end
  end.

Definition is_operation_commit (g : Git) (o : Oid) (saved : Saved) : result bool :=
  let? c := commit_lookup g o in
  Ok (bool_decide (commit_parents c = match saved_head saved with Some b => [b] | None => [] end) &&
      forallb (holds_after (commit_tree c)) (saved_files saved)).

(** The loop of [landed_commit] over at most [remaining] commits of the walk. *)
Fixpoint first_operation_commit (g : Git) (saved : Saved) (remaining : nat) (walk : list Oid)
    : result (option Oid) :=
  match remaining, walk with
  | S n, o :: walk =>
      let? ours := is_operation_commit g o saved in
      if ours then Ok (Some o) else first_operation_commit g saved n walk
  | _, _ => Ok None
  end.

Definition landed_commit (g : Git) (saved : Saved) : result (option Oid) :=
  match branch_tip g saved with
  | None => Ok None
  | Some tip => first_operation_commit g saved (Z.to_nat 10000) (revwalk g tip (saved_head saved))
  end.

Definition restore_original_files (saved : Saved) : IO unit :=
  for_each (saved_files saved) (fun kf =>
    let* l := lift (journal_file_path kf.1) in restore l (before kf.2)).

(** The operation's paths of an index, taken from a tree. *)
Definition take_paths (t : Tree) (files : list (string * SavedFile)) (i : Index) : Index :=
  foldl (fun i kf => match t !! kf.1 with
                     | Some e => put_entry kf.1 e i
                     | None => drop_entry kf.1 i
                     end) i files.

Definition restore_unrelated_index (saved : Saved) (o : Oid) : IO unit :=
  let* c := query (fun g => commit_lookup g o) in
  restore IndexFile (saved_index saved) ;;;
  let* i := index_load in
  index_store (take_paths (commit_tree c) (saved_files saved) i).

(** The branch is moved only when its tip is this operation's commit. *)
Definition reset_branch (saved : Saved) : IO unit :=
  let* tip := query (fun g => Ok (branch_tip g saved)) in
  match tip with
  | None => mret tt
  | Some t =>
      when (negb (same tip (saved_head saved))) (
        let* ours := query (fun g => is_operation_commit g t saved) in
        when ours (update_git "reset" (fun g => match saved_head saved with
          | Some b => set_ref (saved_reference saved) b g
          | None => delete_ref (saved_reference saved) g
          end)))
  end.

Definition roll_back (saved : Saved) : IO unit :=
  let* repo := has_repo in
  when repo (reset_branch saved) ;;;
  restore_original_files saved ;;;
  when repo (restore IndexFile (saved_index saved)).

(** A file that still holds the operation's bytes gets its old ones back. *)
Definition undo_file (kf : string * SavedFile) : IO unit :=
  match after kf.2 with
  | None => mret tt
  | Some bytes =>
      let* l := lift (journal_file_path kf.1) in
      let* now := snapshot l in
      if bool_decide (now = bytes) then restore l (before kf.2)
      else (let* _ := snapshot l in mret tt)
  end.

Definition recover_journal (saved : Saved) : IO unit :=
  when (negb (Z.eqb (saved_version saved) 2)) (throw (Runtime "unsupported card mutation journal")) ;;;
  let* repo := has_repo in
  if negb repo then restore_original_files saved
  else
    let* tip := query (fun g => Ok (branch_tip g saved)) in
    if same tip (saved_head saved) then
      restore_original_files saved ;;;
      restore IndexFile (saved_index saved)
    else
      let* landed := query (fun g => landed_commit g saved) in
      match landed with
      | Some o =>
          let* at_head := query (fun g => Ok (same (head_id g) (Some o))) in
          when at_head (restore_unrelated_index saved o)
      | None => for_each (saved_files saved) undo_file
      end.

(** ** The class *)

(** [s.saved["files"][path] = v] on a JSON object, whose keys are in order. *)
Fixpoint json_set {V} (k : string) (v : V) (l : list (string * V)) : list (string * V) :=
  match l with
  | [] => [(k, v)]
  | (k', v') :: l' => match String.compare k k' with
                      | Lt => (k, v) :: l
                      | Eq => (k, v) :: l'
                      | Gt => (k', v') :: json_set k v l'
                      end
  end.
Fixpoint json_get {V} (k : string) (l : list (string * V)) : option V :=
  match l with
  | [] => None
  | (k', v) :: l => if String.eqb k k' then Some v else json_get k l
  end.

Fixpoint journal_paths (paths : list string) (files : list (string * SavedFile))
    : IO (list (string * SavedFile)) :=
  match paths with
  | [] => mret files
  | path :: paths =>
      let* l := lift (journal_file_path path) in
      let* bytes := snapshot l in
      journal_paths paths (json_set path (mkSavedFile bytes None) files)
  end.

Fixpoint journal_changes (changes : list (string * option string)) (files : list (string * SavedFile))
    : result (list (string * SavedFile)) :=
  match changes with
  | [] => Ok files
  | (path, bytes) :: changes =>
      match json_get path files with
      | None => Err (InvalidArgument "unjournaled card change")
      | Some f => journal_changes changes (json_set path (mkSavedFile (before f) (Some bytes)) files)
      end
  end.

(** The constructor of [CardMutation]: what it saves. *)
Definition prepare (paths : list string) (changes : list (string * option string)) : IO Saved :=
  let* ex := fs_exists JournalFile in
  when ex (throw (Runtime "card mutation recovery required")) ;;;
  let* files := journal_paths paths [] in
  let* files := lift (journal_changes changes files) in
  let* repo := has_repo in
  if negb repo then mret (mkSaved 2 files None None "")
  else
    let* index := snapshot IndexFile in
    let* h := query (fun g => Ok (head_id g, head_name g)) in
    let* i := index_load in
    when (negb (bool_decide (conflicts i = ∅)))
      (throw (Runtime "resolve Git conflicts before changing card lifecycle")) ;;;
    mret (mkSaved 2 files h.1 index h.2).

(** [begin]: the journal appears by a rename, complete, and then the index is reset to
    what HEAD holds. *)
Definition write_journal (saved : Saved) : IO unit :=
  fs_write_file JournalTmp (to_msgpack saved) ;;;
  let* written := fs_read_file JournalTmp in
  when (negb (String.eqb written (to_msgpack saved)))
    (throw (Runtime "incomplete card recovery journal")) ;;;
  fs_rename JournalTmp JournalFile.

Definition head_tree (g : Git) (saved : Saved) : result Tree :=
  match saved_head saved with
  | None => Ok ∅
  | Some _ => match head_id g with
              | Some o => let? c := commit_lookup g o in Ok (commit_tree c)
              | None => Err (Runtime "card mutation Git failure: revspec 'HEAD' not found")
              end
  end.

Definition reset_index (saved : Saved) : IO unit :=
  let* repo := has_repo in
  when repo (
    let* _ := index_load in
    let* t := query (fun g => head_tree g saved) in
    index_store (mkIndex t ∅)).

Definition begin (saved : Saved) : IO unit :=
  write_journal saved ;;; reset_index saved.

Definition preserve_unrelated_index (saved : Saved) : IO unit :=
  let* repo := has_repo in
  when repo (
    let* committed := index_load in
    restore IndexFile (saved_index saved) ;;;
    let* original := index_load in
    index_store (take_paths (entries committed) (saved_files saved) original)).

Definition finish : IO unit :=
  let* ex := fs_exists JournalFile in when ex (fs_remove JournalFile).

Definition rollback (saved : Saved) : IO unit := roll_back saved ;;; finish.

(** ** After an interruption *)

Definition pending (d : Disk) : bool := bool_decide (is_Some (journal_file d)).

Definition recover_files : IO unit :=
  let* ex := fs_exists JournalFile in
  when ex (
    let* raw := fs_read_file JournalFile in
    match from_msgpack raw with
    | None => throw (Runtime "[json.exception.parse_error]")
    | Some saved => recover_journal saved
    end).

Definition finish_recovery : IO unit := finish.

End CardMutation.
End CardMutation.

Module CardMutationFacts.
Import CardMutation DiskFacts.

Section Restore.
Context {L : LibGit2}.

Lemma poke_none l d : peek l d = None -> poke l None d = d.
Proof.
  destruct d, l; cbn; try congruence; intros H; f_equal; rewrite <- H; apply partial_alter_self.
Qed.

Lemma restore_triple P l v :
  io_triple P (restore l v) (fun _ d c => exists d1, P d1 c /\ d = poke l v d1).
Proof.
  destruct v as [content|]; cbn [restore].
  - eapply hoare_bind; [apply fs_create_directories_triple|]. intros []. apply checked_write_last.
  - eapply hoare_bind; [apply fs_exists_triple|]. intros b. apply hoare_when; intros ->.
    + eapply hoare_conseq; [apply (fs_remove_triple P)| |done|done]. by intros w [? _].
    + intros w [Hw Hb]. exists (disk w). split; [done|]. rewrite poke_none; [done|].
      symmetry in Hb. apply bool_decide_eq_false in Hb. by apply eq_None_not_Some.
Qed.

Lemma restore_kept I l v : stable l I -> preserves (on I) (restore l v).
Proof. intros Hl. destruct v as [content|]; cbn [restore]; auto 10 with preserves. Qed.

Lemma snapshot_kept I l : preserves (on I) (snapshot l).
Proof. apply preserves_bind; [auto with preserves|]. intros []; auto with preserves. Qed.

Definition put_back (files : list (string * SavedFile)) (d : Disk) : Disk :=
  foldl (fun d kf => poke (Work kf.1) (before kf.2) d) d files.

Definition journaled_path (key : string) : Prop := journal_file_path key = Ok (Work key).

Lemma journal_file_path_ok key l : journal_file_path key = Ok l -> l = Work key.
Proof. unfold journal_file_path. by destruct (_ || _); [|intros [= <-]]. Qed.

Lemma restore_original_files_triple P saved :
  (forall kf, kf ∈ saved_files saved -> journaled_path kf.1) ->
  io_triple P (restore_original_files saved)
    (fun _ d c => exists d1, P d1 c /\ d = put_back (saved_files saved) d1).
Proof.
  intros Hp. unfold restore_original_files.
  eapply hoare_conseq; [apply (hoare_for_each _ _
    (fun pre => at_ (fun d c => exists d1, P d1 c /\ d = put_back pre d1)) (fun w => ~ calm w));
    intros pre kf rest Hl|intros w Hw; by exists (disk w)|done|done].
  rewrite Hp by (rewrite Hl; set_solver).
  intros w Hw. pose proof (restore_triple _ (Work kf.1) (before kf.2) w Hw) as H.
  unfold bind, lift. destruct (restore _ _ w) as [[u|e] w']; [|done].
  destruct H as (d1 & (d2 & Hd2 & ->) & Hd). exists d2. split; [done|]. rewrite Hd.
  unfold put_back. by rewrite foldl_app.
Qed.

Lemma restore_original_files_kept I saved :
  (forall kf, kf ∈ saved_files saved -> stable (Work kf.1) I) ->
  preserves (on I) (restore_original_files saved).
Proof.
  intros H. apply preserves_hoare. unfold restore_original_files.
  apply (hoare_for_each _ _ (fun _ => on I)). intros pre kf rest Hl.
  apply hoare_preserves. intros w Hw. unfold bind, lift.
  destruct (journal_file_path kf.1) as [l|e] eqn:E; [|done].
  apply journal_file_path_ok in E as ->. apply restore_kept; [|done]. apply H. rewrite Hl. set_solver.
Qed.

Lemma put_back_fields files d :
  index_file (put_back files d) = index_file d /\ journal_file (put_back files d) = journal_file d /\
  journal_tmp (put_back files d) = journal_tmp d /\ git (put_back files d) = git d.
Proof. revert d. induction files as [|kf files IH]; intros d; [done|]. apply (IH (poke (Work kf.1) (before kf.2) d)). Qed.

Lemma put_back_other files d k : k ∉ map fst files -> work (put_back files d) !! k = work d !! k.
Proof.
  revert d. induction files as [|kf files IH]; intros d Hk; [done|].
  cbn in Hk. apply not_elem_of_cons in Hk as [Hne Hk]. unfold put_back in *. cbn [foldl].
  rewrite IH by done. cbn. by rewrite lookup_partial_alter_ne.
Qed.

(** The snapshots of [d0] put back wherever they were taken make up [d0]'s files. *)
Lemma put_back_all files (m : gmap string string) d :
  (forall kf, kf ∈ files -> before kf.2 = m !! kf.1) ->
  (forall k, k ∉ map fst files -> work d !! k = m !! k) -> work (put_back files d) = m.
Proof.
  intros Hb Ho. apply map_eq. intros k.
  destruct (decide (k ∈ map fst files)) as [Hk|Hk]; [|by rewrite put_back_other, Ho]. clear Ho.
  revert d Hb Hk. induction files as [|kf files IH] using rev_ind; intros d Hb Hk; [set_solver|].
  unfold put_back in *. rewrite foldl_app. cbn.
  destruct (decide (k = kf.1)) as [->|Hne].
  - rewrite lookup_partial_alter_eq. apply Hb. set_solver.
  - rewrite lookup_partial_alter_ne by done. apply IH; [set_solver|].
    rewrite map_app in Hk. set_solver.
Qed.

Lemma finish_triple P :
  io_triple P finish (fun _ d c => exists d1, P d1 c /\ d = poke JournalFile None d1).
Proof. apply (restore_triple P JournalFile None). Qed.

Lemma finish_value I :
  hoare (on I) finish (fun _ => on (fun d => exists d1, I d1 /\ d = poke JournalFile None d1)) (on I).
Proof.
  intros w Hw. unfold finish, bind, fs_exists, fs_remove, attempt.
  destruct (outcomes w (tick w)) eqn:E1; cbn; [|done|];
  (destruct (bool_decide _) eqn:Eb; cbn;
   [destruct (outcomes w (S (tick w))); cbn; [by exists (disk w)|done|by exists (disk w)]|]);
  exists (disk w); (split; [done|]); cbn; symmetry; apply (poke_none JournalFile);
  apply bool_decide_eq_false in Eb; by apply eq_None_not_Some.
Qed.
End Restore.

(** A property that survives writes to the journaled files and the index survives recovery. *)
Section RecoveryKeeps.
Context {L : LibGit2} (saved : Saved) (I : Disk -> Prop).
Context (Hwork : forall kf, kf ∈ saved_files saved -> stable (Work kf.1) I) (Hindex : stable IndexFile I).

Lemma undo_file_keeps kf : kf ∈ saved_files saved -> preserves (on I) (undo_file kf).
Proof.
  intros Hk. unfold undo_file. destruct (after kf.2) as [bytes|]; [|auto with preserves].
  apply preserves_bind_lift. intros l ->%journal_file_path_ok.
  apply preserves_bind; [apply snapshot_kept|]. intros now.
  destruct (bool_decide _); [by apply restore_kept, Hwork|].
  apply preserves_bind; [apply snapshot_kept|auto with preserves].
Qed.

Lemma restore_unrelated_index_keeps o : preserves (on I) (restore_unrelated_index saved o).
Proof.
  unfold restore_unrelated_index.
  apply preserves_bind; [auto with preserves|]. intros C.
  apply preserves_bind; [by apply restore_kept|]. intros _. auto with preserves.
Qed.

Lemma recover_journal_keeps : preserves (on I) (recover_journal saved).
Proof.
  pose proof (restore_original_files_kept _ _ Hwork) as Hr.
  apply preserves_bind; [auto with preserves|]. intros _.
  apply preserves_bind; [unfold has_repo; auto with preserves|]. intros []; [|done].
  cbn [negb]. apply preserves_bind; [auto with preserves|]. intros tip.
  destruct (same tip _).
  { apply preserves_bind; [done|]. intros _. by apply restore_kept. }
  apply preserves_bind; [auto with preserves|]. intros [o|].
  - apply preserves_bind; [auto with preserves|]. intros b. apply preserves_when, restore_unrelated_index_keeps.
  - apply preserves_hoare. apply (hoare_for_each _ _ (fun _ => on I)). intros pre kf rest Hl.
    apply hoare_preserves, undo_file_keeps. rewrite Hl. set_solver.
Qed.
End RecoveryKeeps.

(** ** The states of a change

    [d0] is the disk the journal was taken from. *)
Section Journal.
Context {L : LibGit2} `{!LibGit2Laws L} {J : MsgPack} `{!MsgPackLaws J}.

Record prepared (d0 : Disk) (g0 : Git) (saved : Saved) : Prop := {
  p_version : saved_version saved = 2;
  p_paths : forall kf, kf ∈ saved_files saved -> journaled_path kf.1;
  p_before : forall kf, kf ∈ saved_files saved -> before kf.2 = work d0 !! kf.1;
  p_git : git d0 = Some g0;
  p_head : saved_head saved = head_id g0;
  p_reference : saved_reference saved = head_name g0;
  p_index : saved_index saved = index_file d0;
  p_index_ok : exists i, index_parse (index_file d0) = Some i /\ conflicts i = ∅
}.

(** No branch is called HEAD, and what HEAD names is a commit. *)
Record git_wf (g : Git) : Prop := {
  g_branch : head g <> Branch "HEAD";
  g_head : forall o, head_id g = Some o -> is_Some (commits g !! o)
}.

Context (d0 : Disk) (g0 : Git) (saved : Saved) (W : git_wf g0) (Pr : prepared d0 g0 saved).
(** The tree the operation is going to commit. *)
Context (final : Tree).

Definition keys : list string := map fst (saved_files saved).

Definition outside (d : Disk) : Prop := forall k, k ∉ keys -> work d !! k = work d0 !! k.

Record same_refs (g : Git) : Prop := {
  s_refs : refs g = refs g0;
  s_head : head g = head g0;
  s_grown : commits g0 ⊆ commits g
}.

Definition operation_commit : Commit :=
  mkCommit (match head_id g0 with Some b => [b] | None => [] end) final.

(** The operation's commit [c] is where HEAD was moved to. *)
Record landed (g : Git) (c : Oid) : Prop := {
  l_refs : refs g = refs (set_ref (head_name g0) c g0);
  l_head : head g = head (set_ref (head_name g0) c g0);
  l_grown : commits g0 ⊆ commits g;
  l_object : commits g !! c = Some operation_commit;
  l_commit : is_operation_commit g c saved = Ok true;
  l_fresh : forall b, head_id g0 = Some b -> ~ ancestor g b c
}.

Definition restored (d : Disk) : Prop :=
  work d = work d0 /\ index_file d = index_file d0 /\ exists g, git d = Some g /\ same_refs g.

Definition changed_files (d : Disk) : Prop :=
  outside d /\
  forall kf, kf ∈ saved_files saved ->
    work d !! kf.1 = match after kf.2 with Some v => v | None => before kf.2 end.

(** The index as it was, with the operation's paths taken from the commit. *)
Definition changed_index (d : Disk) : Prop :=
  exists i, index_parse (index_file d0) = Some i /\
    index_parse (index_file d) = Some (take_paths final (saved_files saved) i).

Definition journaled (d : Disk) : Prop := journal_file d = Some (to_msgpack saved).

Definition undoable (d : Disk) : Prop :=
  journaled d /\ outside d /\ exists g, git d = Some g /\ same_refs g.

Definition done_by (g : Git) (c : Oid) (d : Disk) : Prop :=
  journaled d /\ git d = Some g /\ landed g c /\ changed_files d.

Lemma journaled_key k : k ∈ keys -> journaled_path k.
Proof. intros (kf & Hk & ->)%elem_of_map_id. by apply Pr. Qed.

(** *** References *)

Lemma same_refs_tip g : same_refs g -> branch_tip g saved = head_id g0.
Proof.
  intros [Hr Hh _]. unfold branch_tip, ref_id, head_id. rewrite (p_reference _ _ _ Pr), Hr, Hh.
  unfold head_name. pose proof (g_branch _ W) as Hb. destruct (head g0) as [b|o]; [|done].
  destruct (String.eqb_spec b "HEAD") as [->|]; [done|done].
Qed.

Lemma landed_tip g c : landed g c -> branch_tip g saved = Some c /\ head_id g = Some c.
Proof.
  intros [Hr Hh _ _ _ _]. unfold branch_tip, ref_id, head_id. rewrite (p_reference _ _ _ Pr), Hr, Hh.
  unfold head_name, set_ref. pose proof (g_branch _ W) as Hb. destruct (head g0) as [b|o] eqn:E; cbn.
  - destruct (String.eqb_spec b "HEAD") as [->|]; [done|]. cbn. by rewrite lookup_insert_eq.
  - done.
Qed.

Lemma landed_moved g c : landed g c -> same (Some c) (saved_head saved) = false.
Proof.
  intros Hl. unfold same. apply bool_decide_eq_false. rewrite (p_head _ _ _ Pr). intros He.
  by apply (l_fresh _ _ Hl c); [|constructor].
Qed.

Lemma landed_found g c : landed g c -> landed_commit g saved = Ok (Some c).
Proof.
  intros Hl. unfold landed_commit. rewrite (proj1 (landed_tip _ _ Hl)).
  assert (forall o, o ∈ revwalk g c (saved_head saved) -> o = c) as Hall.
  { intros o (Ha & Hn)%revwalk_spec. rewrite (p_head _ _ _ Pr) in Hn.
    inversion Ha as [|? C p ? HC Hp Hanc]; [done|]. subst. exfalso.
    pose proof (l_commit _ _ Hl) as Hc. unfold is_operation_commit, commit_lookup in Hc. rewrite HC in Hc.
    cbn in Hc. injection Hc as [Hc _]%andb_true_iff. apply bool_decide_eq_true in Hc.
    rewrite (p_head _ _ _ Pr) in Hc. rewrite Hc in Hp. destruct (head_id g0) as [b|]; [|set_solver].
    apply list_elem_of_singleton in Hp as ->. by apply (Hn b). }
  assert (c ∈ revwalk g c (saved_head saved)) as Hin.
  { apply revwalk_spec. split; [constructor|]. intros h. rewrite (p_head _ _ _ Pr). apply Hl. }
  destruct (revwalk g c (saved_head saved)) as [|o walk]; [set_solver|].
  rewrite (Hall o) by set_solver. cbn [Z.to_nat first_operation_commit].
  destruct (Z.to_nat 10000) eqn:E; [lia|]. cbn. by rewrite (l_commit _ _ Hl).
Qed.

(** Moving the branch back, or deleting one that was unborn. *)
Definition move_back (g : Git) : Git :=
  match saved_head saved with
  | Some b => set_ref (saved_reference saved) b g
  | None => delete_ref (saved_reference saved) g
  end.

Lemma move_back_landed g c : landed g c -> same_refs (move_back g).
Proof.
  intros [Hr Hh Hg _ _ _]. unfold move_back. rewrite (p_head _ _ _ Pr), (p_reference _ _ _ Pr).
  pose proof (g_branch _ W) as Hb. unfold head_id, head_name, set_ref, delete_ref in *.
  destruct (head g0) as [b|o] eqn:E; cbn in *.
  - destruct (String.eqb_spec b "HEAD") as [->|Hne]; [done|]. cbn in *. rewrite ?E in Hh.
    destruct (refs g0 !! b) as [x|] eqn:Ex; (split; cbn; [rewrite Hr|congruence|done]).
    + by rewrite insert_insert_eq, insert_id.
    + rewrite delete_insert_eq. by apply delete_id.
  - rewrite Hh. split; cbn; [done|by rewrite ?E|done].
Qed.

(** *** What each phase keeps *)

Lemma outside_stable k : k ∈ keys -> stable (Work k) outside.
Proof.
  intros Hk v d Ho k' Hk'. cbn. rewrite lookup_partial_alter_ne; [by apply Ho|]. by intros ->.
Qed.
Lemma undoable_stable l :
  match l with Work k => k ∈ keys | JournalFile => False | _ => True end -> stable l undoable.
Proof.
  intros Hl v d (Hj & Ho & Hg). destruct l; cbn in *; [|done..].
  split; [done|]. split; [|done]. by apply (outside_stable key Hl v d Ho).
Qed.
Lemma done_by_stable g c l :
  match l with IndexFile | JournalTmp => True | _ => False end -> stable l (done_by g c).
Proof. intros Hl v d (Hj & Hg & Hc & Ho). by destruct l. Qed.

Lemma file_undoable kf : kf ∈ saved_files saved -> stable (Work kf.1) undoable.
Proof. intros Hk. apply undoable_stable, elem_of_map_id. by exists kf. Qed.

Lemma restore_index_undoable v : preserves (on undoable) (restore IndexFile v).
Proof. by apply restore_kept, undoable_stable. Qed.

Lemma restore_unrelated_index_kept I o :
  stable IndexFile I -> preserves (on I) (restore_unrelated_index saved o).
Proof. intros Hi. by apply (restore_unrelated_index_keeps saved I). Qed.

Lemma recover_undoable : preserves (on undoable) (recover_journal saved).
Proof. apply recover_journal_keeps; [apply file_undoable|by apply undoable_stable]. Qed.

(** *** What each phase achieves *)

Lemma has_repo_triple P (Hg : forall d c, P d c -> is_Some (git d)) :
  io_triple P has_repo (fun b d c => P d c /\ b = true).
Proof.
  intros w Hw. cbn. split; [done|]. apply bool_decide_eq_true. exact (Hg _ _ Hw).
Qed.

Lemma undoable_git d : undoable d -> is_Some (git d).
Proof. intros (_ & _ & g & Hg & _). by exists g. Qed.

Lemma put_back_restored d : undoable d -> work (put_back (saved_files saved) d) = work d0.
Proof. intros (_ & Ho & _). apply put_back_all; [apply Pr|exact Ho]. Qed.

Lemma restore_all_triple P :
  (forall d c, P d c -> undoable d) ->
  io_triple P (restore_original_files saved ;;; restore IndexFile (saved_index saved))
    (fun _ d _ => restored d).
Proof.
  intros HP. eapply hoare_bind; [apply restore_original_files_triple, Pr|]. intros [].
  eapply hoare_conseq; [apply restore_triple|intros w Hw; exact Hw| |done].
  intros [] w (d1 & (d2 & Hd2 & ->) & Hd). specialize (HP _ _ Hd2).
  destruct (put_back_fields (saved_files saved) d2) as (Hi & Hj & Ht & Hg).
  unfold at_, restored. rewrite Hd. cbn. rewrite put_back_restored, (p_index _ _ _ Pr), Hg by done.
  split; [done|]. split; [done|]. apply HP.
Qed.

Lemma restore_all_safe :
  io_safe undoable (fun d _ => undoable d)
    (restore_original_files saved ;;; restore IndexFile (saved_index saved))
    (fun _ d _ => restored d /\ undoable d).
Proof.
  apply io_safe_of; [by apply restore_all_triple| |done].
  apply preserves_bind; [apply restore_original_files_kept, file_undoable|].
  intros _. apply restore_index_undoable.
Qed.

Lemma take_index_triple P g c C i :
  commits g !! c = Some C -> index_parse (saved_index saved) = Some i ->
  (forall d k, P d k -> git d = Some g) ->
  io_triple P (restore_unrelated_index saved c) (fun _ d k => exists d1, P d1 k /\
    d = poke IndexFile (Some (index_bytes (take_paths (commit_tree C) (saved_files saved) i))) d1).
Proof.
  intros HC Hi Hg. unfold restore_unrelated_index.
  eapply hoare_bind.
  { apply query_triple. intros d k Hd. exists g, C. split; [by apply (Hg _ k)|].
    unfold commit_lookup. by rewrite HC. }
  intros C'. eapply hoare_bind; [apply restore_triple|]. intros [].
  eapply hoare_bind.
  { apply index_load_triple. intros d k (d1 & _ & ->). exists i. cbn. exact Hi. }
  intros i'. eapply hoare_conseq; [apply index_store_triple|intros w Hw; exact Hw| |done].
  intros [] w (d1 & ((d2 & (Hd2 & g' & Hg' & HC') & ->) & Hi') & Hd). exists d2. split; [done|].
  rewrite (Hg _ _ Hd2) in Hg'. injection Hg' as <-. unfold commit_lookup in HC'. rewrite HC in HC'.
  injection HC' as <-. cbn in Hi'. rewrite Hi in Hi'. injection Hi' as <-. exact Hd.
Qed.

(** *** Recovery *)

Lemma has_repo_known {A} I P (k : bool -> IO A) R :
  (forall d c, P d c -> is_Some (git d)) -> io_safe I P (k true) R -> io_safe I P (bind has_repo k) R.
Proof.
  intros Hg Hk w Hw. unfold bind, has_repo, gets.
  rewrite (bool_decide_eq_true_2 _ (Hg _ _ Hw)). by apply Hk.
Qed.

Lemma recover_journal_undo :
  io_safe undoable (fun d _ => undoable d) (recover_journal saved)
    (fun _ d _ => restored d /\ undoable d).
Proof.
  apply when_throw_known; [by rewrite (p_version _ _ _ Pr)|].
  apply has_repo_known; [intros d c; apply undoable_git|]. cbn [negb].
  apply (query_known _ _ _ (head_id g0)); [done| |].
  { intros d c (_ & _ & g & Hg & Hs). exists g. by rewrite (same_refs_tip _ Hs). }
  assert (same (head_id g0) (saved_head saved) = true) as ->.
  { apply bool_decide_eq_true. by rewrite (p_head _ _ _ Pr). }
  apply restore_all_safe.
Qed.

Lemma recover_journal_keep g c :
  io_safe (done_by g c) (fun d _ => done_by g c d) (recover_journal saved)
    (fun _ d _ => changed_index d /\ done_by g c d).
Proof.
  destruct (p_index_ok _ _ _ Pr) as (i & Hi & _).
  apply when_throw_known; [by rewrite (p_version _ _ _ Pr)|].
  apply has_repo_known; [intros d k (_ & Hg & _); by exists g|]. cbn [negb].
  apply (query_known _ _ _ (Some c)); [done| |].
  { intros d k (_ & Hg & Hl & _). exists g. by rewrite (proj1 (landed_tip _ _ Hl)). }
  intros w Hw. pose proof Hw as (_ & _ & Hl & _). rewrite (landed_moved _ _ Hl). revert w Hw.
  apply (query_known _ _ _ (Some c)); [done| |].
  { intros d k (_ & Hg & _). exists g. by rewrite (landed_found _ _ Hl). }
  apply (query_known _ _ _ true); [done| |].
  { intros d k (_ & Hg & _). exists g. rewrite (proj2 (landed_tip _ _ Hl)).
    split; [done|]. f_equal. by apply bool_decide_eq_true. }
  eapply io_safe_weaken.
  - apply io_safe_of; [apply (take_index_triple (fun d _ => done_by g c d) g c operation_commit i
      (l_object _ _ Hl)); [by rewrite (p_index _ _ _ Pr)|]| |].
    + intros d k Hd. apply Hd.
    + apply (restore_unrelated_index_kept (done_by g c)). by apply done_by_stable.
    + done.
  - done.
  - done.
  - intros [] d k [(d1 & _ & ->) Hd]. split; [|done]. exists i. split; [done|].
    cbn. apply index_parse_bytes.
Qed.

Definition recoverable (d : Disk) : Prop := undoable d \/ exists g c, done_by g c d.

(** What a recovery that ran to its end leaves. *)
Definition settled (d : Disk) : Prop :=
  restored d \/ exists g c, git d = Some g /\ landed g c /\ changed_files d /\ changed_index d.

Lemma recoverable_journal d : recoverable d -> journal_file d = Some (to_msgpack saved).
Proof. intros [[H _]|(g & c & H & _)]; exact H. Qed.

Lemma recover_journal_safe :
  io_safe recoverable (fun d _ => recoverable d) (recover_journal saved)
    (fun _ d _ => settled d /\ recoverable d).
Proof.
  intros w [Hw|(g & c & Hw)].
  - apply (io_safe_weaken _ _ _ (fun d _ => undoable d) _ _ _ recover_journal_undo); [by left|done| |exact Hw].
    intros a d k [H1 H2]. by split; left.
  - apply (io_safe_weaken _ _ _ (fun d _ => done_by g c d) _ _ _ (recover_journal_keep g c)); [|done| |exact Hw].
    + intros d Hd. right. by exists g, c.
    + intros a d k [H1 H2]. split; right; exists g, c; [|done].
      destruct H2 as (_ & ? & ? & ?). done.
Qed.

(** [recover_files] finds the journal and settles it. *)
Lemma recover_files_with (I : Disk -> Prop) (P : Disk -> option Index -> Prop) R :
  (forall d c, P d c -> I d /\ journaled d) ->
  io_safe I P (recover_journal saved) R -> io_safe I P recover_files R.
Proof.
  intros HI H. unfold recover_files.
  apply (exists_known _ _ true); [by intros d c Hd; apply (HI d c)| |].
  { intros d c Hd. cbn [peek]. by rewrite (proj2 (HI _ _ Hd)). }
  cbn [when]. apply (read_known _ _ (to_msgpack saved)); [by intros d c Hd; apply (HI d c)| |].
  { by intros d c Hd; apply (HI d c). }
  by rewrite from_to_msgpack.
Qed.

Lemma recover_files_safe :
  io_safe recoverable (fun d _ => recoverable d) recover_files
    (fun _ d _ => settled d /\ recoverable d).
Proof. apply recover_files_with; [intros d _ Hd; split; [done|by apply recoverable_journal]|apply recover_journal_safe]. Qed.

(** A change whose commit landed is kept. *)
Definition kept (d : Disk) : Prop :=
  exists g c, git d = Some g /\ landed g c /\ changed_files d /\ changed_index d.

Lemma recover_files_committed g c :
  io_safe (done_by g c) (fun d _ => done_by g c d) recover_files
    (fun _ d _ => kept d /\ done_by g c d).
Proof.
  apply recover_files_with; [by intros d _ [? ?]|].
  eapply io_safe_weaken; [apply (recover_journal_keep g c)|done|done|].
  intros _ d k [H1 H2]. split; [|done]. destruct H2 as (_ & ? & ? & ?). by exists g, c.
Qed.

Lemma finish_safe (I : Disk -> Prop) :
  io_safe I (fun d _ => I d) finish (fun _ d _ => exists d1, I d1 /\ d = poke JournalFile None d1).
Proof.
  intros w Hw. pose proof (finish_triple (fun d _ => I d) w Hw) as H1.
  pose proof (finish_value I w Hw) as H2. by destruct (finish w) as [[u|e] w'].
Qed.

Lemma settled_finished d : settled d -> settled (poke JournalFile None d).
Proof.
  intros [(H1 & H2 & H3)|(g & c & H1 & H2 & H3 & H4)]; [left|right; exists g, c]; done.
Qed.

(** *** Rolling back *)

Lemma move_back_undoable g c d : done_by g c d -> undoable (set_git (move_back g) d).
Proof.
  intros (Hj & _ & Hl & Ho & _). split; [done|]. split; [done|]. exists (move_back g).
  split; [done|]. by apply (move_back_landed _ c).
Qed.

Lemma reset_branch_safe :
  io_safe recoverable (fun d _ => recoverable d) (reset_branch saved) (fun _ d _ => undoable d).
Proof.
  intros w [Hw|(g & c & Hw)].
  - revert w Hw. change (io_safe recoverable (fun d _ => undoable d) (reset_branch saved) (fun _ d _ => undoable d)).
    apply (query_known _ _ _ (head_id g0)); [by left| |].
    { intros d k (_ & _ & g & Hg & Hs). exists g. by rewrite (same_refs_tip _ Hs). }
    destruct (head_id g0) as [t|] eqn:Ht; [|by intros w Hw].
    assert (same (Some t) (saved_head saved) = true) as ->; [|by intros w Hw].
    apply bool_decide_eq_true. by rewrite (p_head _ _ _ Pr).
  - pose proof Hw as (_ & _ & Hl & _). revert w Hw.
    change (io_safe recoverable (fun d _ => done_by g c d) (reset_branch saved) (fun _ d _ => undoable d)).
    assert (forall d, done_by g c d -> recoverable d) as Hr by (intros d Hd; right; by exists g, c).
    apply (query_known _ _ _ (Some c)); [intros d k; apply Hr| |].
    { intros d k (_ & Hg & _). exists g. by rewrite (proj1 (landed_tip _ _ Hl)). }
    rewrite (landed_moved _ _ Hl). cbn [negb when].
    apply (query_known _ _ _ true); [intros d k; apply Hr| |].
    { intros d k (_ & Hg & _). exists g. by rewrite (l_commit _ _ Hl). }
    intros w Hw. pose proof Hw as (_ & Hg & _). unfold when, update_git, attempt.
    destruct (outcomes w (tick w)) as [|x|x] eqn:Ho; cbn; rewrite ?Hg;
      [by apply (move_back_undoable _ c)| |by apply (move_back_undoable _ c)].
    split; [by apply Hr|]. by apply (not_calm _ (tick w) (Throws x)).
Qed.

Lemma roll_back_safe :
  io_safe recoverable (fun d _ => recoverable d) (roll_back saved)
    (fun _ d _ => restored d /\ undoable d).
Proof.
  apply has_repo_known.
  { intros d k [(_ & _ & g & Hg & _)|(g & c & _ & Hg & _)]; by exists g. }
  cbn [when]. eapply io_safe_bind; [apply reset_branch_safe|]. intros [].
  eapply io_safe_weaken; [apply restore_all_safe|by left|done|done].
Qed.

Lemma rollback_safe :
  io_safe recoverable (fun d _ => recoverable d) (rollback saved)
    (fun _ d _ => exists d1, restored d1 /\ d = poke JournalFile None d1).
Proof.
  eapply io_safe_bind; [apply roll_back_safe|]. intros [].
  eapply io_safe_weaken; [apply (finish_safe (fun d => restored d /\ undoable d))| |done|].
  - intros d [_ H]. by left.
  - intros [] d k (d1 & [H _] & ->). by exists d1.
Qed.

(** *** Beginning *)

(** Before the journal is in place only its temporary file can differ. *)
Definition untouched (d : Disk) : Prop := exists v, d = poke JournalTmp v d0.

Definition with_journal (d : Disk) : Prop :=
  d = poke JournalFile (Some (to_msgpack saved)) (poke JournalTmp None d0).

Lemma write_journal_safe :
  io_safe untouched (fun d c => untouched d /\ c = None) (write_journal saved)
    (fun _ d c => with_journal d /\ c = None).
Proof.
  apply checked_write_safe.
  { intros v d c [(v' & ->) _]. split; [by exists v'|]. by exists v. }
  apply (rename_safe _ _ _ (to_msgpack saved)); intros d c (d1 & [(v & ->) Hc] & ->); [|done..].
  by exists (Some (to_msgpack saved)).
Qed.

(** While the files are being changed: the journal is in place, the working tree is [m]
    and the index, in the file and in the adapter, is the tree [t]. *)
Record working (t : Tree) (m : gmap string string) (d : Disk) (c : option Index) : Prop := {
  w_journal : journaled d;
  w_files : work d = m;
  w_outside : outside d;
  w_git : exists g, git d = Some g /\ same_refs g;
  w_index : tracks (mkIndex t ∅) d c
}.

Lemma working_undoable t m d c : working t m d c -> undoable d.
Proof. by intros [? ? ? ? ?]. Qed.

Definition start_tree (t : Tree) : Prop :=
  match head_id g0 with
  | None => t = ∅
  | Some o => exists C, commits g0 !! o = Some C /\ t = commit_tree C
  end.

Lemma start_tree_exists : exists t, start_tree t.
Proof.
  unfold start_tree. pose proof (g_head _ W) as H. destruct (head_id g0) as [o|]; [|by eexists].
  destruct (H o eq_refl) as [C HC]. by exists (commit_tree C), C.
Qed.

Lemma start_head_tree t : start_tree t -> head_tree g0 saved = Ok t.
Proof.
  unfold start_tree, head_tree. rewrite (p_head _ _ _ Pr).
  destruct (head_id g0) as [o|]; [|by intros ->]. intros (C & HC & ->).
  unfold commit_lookup. by rewrite HC.
Qed.

Lemma with_journal_undoable d : with_journal d -> undoable d.
Proof.
  intros ->. split; [done|]. split; [done|]. exists g0. split; [apply Pr|]. by split.
Qed.

Lemma reset_index_safe t :
  start_tree t ->
  io_safe undoable (fun d c => with_journal d /\ c = None) (reset_index saved)
    (fun _ => working t (work d0)).
Proof.
  intros Ht. destruct (p_index_ok _ _ _ Pr) as (i & Hi & _).
  apply has_repo_known; [intros d c [-> _]; exists g0; apply Pr|]. cbn [when].
  eapply io_safe_bind.
  { apply io_safe_of; [apply index_load_triple|auto with preserves|intros d c [H _]; by apply with_journal_undoable].
    intros d c [-> _]. by exists i. }
  intros i'. apply (query_known _ _ _ t); [by intros d c [_ H]| |].
  { intros d c [[[-> _] _] _]. exists g0. split; [apply Pr|by apply start_head_tree]. }
  apply index_store_safe.
  - intros d c Hd. exact (with_journal_undoable _ (proj1 (proj1 (proj1 Hd)))).
  - intros d c [[[H ->] _] _]. pose proof (with_journal_undoable _ H) as (? & ? & ?).
    split; [done| |done|done|].
    + by rewrite H.
    + split; [apply index_parse_bytes|by left].
Qed.

(** *** Changing the files *)

Section Step.
Context (t : Tree) (m : gmap string string).

Lemma working_poke k v d c :
  k ∈ keys -> working t m d c -> working t (partial_alter (fun _ => v) k m) (poke (Work k) v d) c.
Proof.
  intros Hk [H1 H2 H3 H4 H5]. split; [done| | |done|done]; cbn; [by rewrite H2|].
  by apply (outside_stable k Hk v d H3).
Qed.

Lemma working_store t' d c :
  working t m d c -> working t' m (poke IndexFile (Some (index_bytes (mkIndex t' ∅))) d) (Some (mkIndex t' ∅)).
Proof.
  intros [H1 H2 H3 H4 H5]. split; [done..|]. split; [apply index_parse_bytes|by right].
Qed.

Lemma working_known {B} (k : Index -> IO B) R :
  io_safe undoable (fun d c => working t m d (Some (mkIndex t ∅)) /\ c = Some (mkIndex t ∅))
    (k (mkIndex t ∅)) R ->
  io_safe undoable (working t m) (bind repository_index k) R.
Proof.
  intros Hk. eapply (repository_index_known _ (mkIndex t ∅)).
  - intros d c Hw. split; [by eapply working_undoable|].
    destruct Hw as [_ _ _ (g & Hg & _) Hi]. split; [by exists g|done].
  - eapply io_safe_weaken; [exact Hk|done| |done].
    intros d c (c0 & [H1 H2 H3 H4 [H5 _]] & ->). split; [|done]. split; [done..|]. split; [done|by right].
Qed.

(** [remove_path] *)
Lemma remove_path_safe k :
  io_safe undoable (working t m) (remove_path k) (fun _ => working (delete k t) m).
Proof.
  apply working_known, io_safe_modify. unfold drop_entry. cbn.
  rewrite (empty_difference_L ({[k]} : gset string)). apply index_store_safe.
  - intros d c (c0 & [H _] & _). by eapply working_undoable.
  - intros d c (c0 & [H _] & ->). by eapply working_store.
Qed.

(** [stage_path] *)
Lemma working_blob o x d c : working t m d c -> exists g, git d = Some g /\ working t m (set_git (add_blob o x g) d) c.
Proof.
  intros [H1 H2 H3 (g & Hg & [Hr Hh Hc]) H5]. exists g. split; [done|]. split; [done..| |done].
  by exists (add_blob o x g).
Qed.

Lemma stage_path_safe k content :
  m !! k = Some content ->
  io_safe undoable (working t m) (stage_path k)
    (fun _ => working (<[k := entry_of k content]> t) m).
Proof.
  intros Hm. apply working_known. intros w Hw. unfold index_add_bypath.
  rewrite !bind_assoc. revert w Hw. apply (read_known _ _ content).
  { intros d c [H _]. by eapply working_undoable. }
  { intros d c [H _]. cbn. by rewrite (w_files _ _ _ _ H). }
  intros w Hw. rewrite !bind_assoc. revert w Hw.
  apply (io_safe_bind _ _ _ _ (fun _ => working t m)).
  { apply update_git_safe; intros d c [H ->]; [by eapply working_undoable|].
    by apply working_blob. }
  intros [] w Hw. rewrite !bind_assoc. revert w Hw. apply io_safe_modify.
  unfold bind, mret, put_entry. cbn. rewrite (empty_difference_L ({[k]} : gset string)). apply index_store_safe.
  - intros d c (c0 & H & _). by eapply working_undoable.
  - intros d c (c0 & H & ->). by eapply working_store.
Qed.

End Step.

(** A rename of the working tree and of the index. *)
Lemma rename_path_safe t m from to content :
  m !! from = Some content -> from ∈ keys -> to ∈ keys ->
  io_safe undoable (working t m)
    (fs_create_directories (Work to) ;;; fs_rename (Work from) (Work to) ;;; remove_path from)
    (fun _ => working (delete from t) (<[to := content]> (delete from m))).
Proof.
  intros Hm Hf Ht. eapply io_safe_bind; [apply create_directories_safe, working_undoable|].
  intros []. apply (io_safe_bind _ _ _ _ (fun _ => working t (<[to := content]> (delete from m)))).
  - apply (rename_safe _ _ _ content); [apply working_undoable| |]; intros d c H.
    + cbn. by rewrite (w_files _ _ _ _ H).
    + by apply (working_poke t (delete from m)), (working_poke t m).
  - intros []. apply remove_path_safe.
Qed.

(** [write_file], the comparison of what was written, and [stage_path] *)
Lemma write_path_safe t m k content :
  k ∈ keys ->
  io_safe undoable (working t m)
    (git_write_file k content ;;;
     let* now := fs_read_file (Work k) in
     when (negb (String.eqb now content)) (throw (Runtime "incomplete card lifecycle write")) ;;;
     stage_path k)
    (fun _ => working (<[k := entry_of k content]> t) (<[k := content]> m)).
Proof.
  intros Hk w Hw. unfold git_write_file. rewrite !bind_assoc. revert w Hw.
  apply (query_known _ _ (fun _ => Ok tt) tt); [apply working_undoable| |].
  { intros d c [_ _ _ (g & Hg & _) _]. by exists g. }
  intros w Hw. rewrite bind_assoc. revert w Hw.
  eapply io_safe_bind; [apply create_directories_safe, working_undoable|]. intros [].
  apply checked_write_safe.
  { intros v d c H. split; [by eapply working_undoable|]. by eapply working_undoable, (working_poke t m k v). }
  eapply io_safe_weaken; [apply (stage_path_safe t (<[k := content]> m) k content), lookup_insert_eq|done| |done].
  intros d c (d1 & H & ->). by apply (working_poke t m).
Qed.

(** *** Committing *)

(** The commit takes the operation's files from the working tree. *)
Definition complete (t : Tree) (m : gmap string string) : Prop :=
  forall kf, kf ∈ saved_files saved ->
    holds_after t kf = true /\
    m !! kf.1 = match after kf.2 with Some v => v | None => before kf.2 end.

Definition committed (d : Disk) : Prop := exists g c, done_by g c d.

Lemma commit_landed message m d c g :
  complete final m -> working final m d c -> git d = Some g -> same_refs g ->
  let o := commit_id g message operation_commit in
  committed (set_git (set_ref (head_name g) o (add_commit o operation_commit g)) d).
Proof.
  intros Hc Hw Hg [Hr Hh Hgr] o. set (C := operation_commit) in *.
  set (g' := set_ref (head_name g) o (add_commit o C g)).
  assert (Hcs : commits g' = (<[o := C]> (commits g) : gmap Oid Commit)).
  { unfold g', set_ref, head_name. cbn. by repeat case_match. }
  assert (head_name g = head_name g0) as Hn by (unfold head_name; by rewrite Hh).
  exists g', o. destruct Hw as [Hj Hf Ho _ _]. split; [done|]. split; [done|]. split.
  - split.
    + unfold g'. rewrite Hn. unfold set_ref. cbn. rewrite Hr, Hh. by repeat case_match.
    + unfold g'. rewrite Hn. unfold set_ref. cbn. rewrite Hh. by repeat case_match.
    + rewrite Hcs. apply map_subseteq_spec. intros k x Hk.
      pose proof (lookup_weaken _ _ _ _ Hk Hgr) as Hk'.
      destruct (decide (k = o)) as [->|Hne]; [|by rewrite lookup_insert_ne].
      rewrite lookup_insert_eq. f_equal. symmetry. exact (commit_id_stable _ _ _ _ Hk').
    + by rewrite Hcs, lookup_insert_eq.
    + unfold is_operation_commit, commit_lookup. rewrite Hcs, lookup_insert_eq. cbn.
      rewrite (p_head _ _ _ Pr), (bool_decide_eq_true_2 _ eq_refl). cbn. f_equal. apply forallb_forall.
      intros kf Hk. apply Hc. by apply list_elem_of_In.
    + intros b Hb Ha. apply (commit_id_fresh g message C b).
      * cbn. rewrite Hb. set_solver.
      * apply (ancestor_add g o C). assert (forall p q, ancestor g' p q -> ancestor (add_commit o C g) p q) as H.
        { intros p q Hpq. induction Hpq; [constructor|]. eapply ancestor_step; [|done|done].
          cbn. by rewrite <- Hcs. }
        by apply H.
  - split; [done|]. intros kf Hk. cbn. rewrite Hf. by apply Hc.
Qed.

Lemma commit_safe message m :
  complete final m ->
  io_safe undoable (working final m) (commit message)
    (fun _ d c => committed d /\ index_parse (index_file d) = Some (mkIndex final ∅)).
Proof.
  intros Hc. apply (working_known final m). apply when_throw_known; [done|].
  eapply io_safe_bind.
  { apply (index_store_safe _ _ _ (fun _ d c => working final m d c)); intros d c [H ->];
      [by eapply working_undoable|by eapply (working_store final m final)]. }
  intros []. apply (query_known _ _ _ (head_id g0)); [apply working_undoable| |].
  { intros d c [_ _ _ (g & Hg & [Hr Hh _]) _]. exists g. split; [done|].
    unfold head_id. by rewrite Hr, Hh. }
  apply update_git_safe; [apply working_undoable|]. intros d c H.
  pose proof H as [_ _ _ (g & Hg & Hs) [Hi _]]. exists g. split; [done|]. split; [|done].
  by apply (commit_landed message m d c g).
Qed.

Lemma committed_recoverable d : committed d -> recoverable d.
Proof. by right. Qed.

Lemma preserve_index_safe :
  io_safe committed (fun d _ => committed d /\ index_parse (index_file d) = Some (mkIndex final ∅))
    (preserve_unrelated_index saved) (fun _ d _ => committed d /\ changed_index d).
Proof.
  destruct (p_index_ok _ _ _ Pr) as (i & Hi & _).
  assert (stable IndexFile committed) as Hs.
  { intros v d (g & c & Hd). exists g, c. by apply done_by_stable. }
  apply has_repo_known; [intros d k [(g & c & (_ & Hg & _)) _]; by exists g|]. cbn [when].
  apply (index_load_known _ (mkIndex final ∅)); [by intros d k [H _]|by intros d k [_ H]|].
  apply (io_safe_bind _ _ _ _ (fun _ d _ => committed d /\ index_file d = saved_index saved)).
  { apply (io_safe_weaken committed _ _ _ _ _ _
      (io_safe_of committed _ _ _ (restore_triple (fun d _ => committed d) IndexFile (saved_index saved))
        (restore_kept _ _ _ Hs) (fun d c H => H))); [done|by intros d k [H _]|].
    intros [] d k [(d1 & _ & ->) H]. by split. }
  intros []. apply (index_load_known _ i); [by intros d k [H _]| |].
  { intros d k [_ ->]. by rewrite (p_index _ _ _ Pr). }
  apply index_store_safe; intros d k [H _]; [done|].
  split; [by apply Hs|]. exists i. split; [done|]. apply index_parse_bytes.
Qed.

Lemma committed_settled d : committed d -> changed_index d -> settled d.
Proof. intros (g & c & (_ & Hg & Hl & Hf)) Hi. right. by exists g, c. Qed.
End Journal.

Lemma take_paths_lookup t files i k :
  entries (take_paths t files i) !! k =
    if bool_decide (k ∈ map fst files) then t !! k else entries i !! k.
Proof.
  unfold take_paths. induction files as [|kf files IH] using rev_ind; [done|].
  rewrite foldl_app, map_app. cbn. destruct (decide (k = kf.1)) as [->|Hne].
  - rewrite bool_decide_eq_true_2 by set_solver.
    destruct (t !! kf.1); cbn; [apply lookup_insert_eq|apply lookup_delete_eq].
  - rewrite (bool_decide_ext (k ∈ map fst files ++ [kf.1]) (k ∈ map fst files)) by set_solver.
    rewrite <- IH. destruct (t !! kf.1); cbn; [by apply lookup_insert_ne|by apply lookup_delete_ne].
Qed.

(** ** JSON objects *)

Section Json.
Context {V : Type}.

Definition in_order (l : list (string * V)) : Prop :=
  StronglySorted (fun a b => String.compare a.1 b.1 = Lt) l.

Lemma json_set_elem k v (l : list (string * V)) kv :
  in_order l -> kv ∈ json_set k v l <-> kv = (k, v) \/ (kv ∈ l /\ kv.1 <> k).
Proof.
  unfold in_order. induction l as [|[k' v'] l IH]; cbn; intros Hs; [set_solver|].
  apply StronglySorted_inv in Hs as [Hs Hall]. rewrite Forall_forall in Hall. specialize (IH Hs).
  assert (forall x, x ∈ l -> k = k' \/ String.compare k k' = Lt -> x.1 <> k) as Hlt.
  { intros x Hx Hk Hxk. specialize (Hall x Hx). cbn in Hall. rewrite Hxk in Hall.
    destruct Hk as [->|Hk]; [by rewrite (cmp_refl String.compare) in Hall|].
    pose proof (cmp_lt_trans String.compare _ _ _ Hk Hall) as H.
    by rewrite (cmp_refl String.compare) in H. }
  destruct (String.compare k k') eqn:E.
  - apply string_compare_eq in E as ->. rewrite !elem_of_cons. naive_solver.
  - rewrite !elem_of_cons. assert (k' <> k) as Hne.
    { intros ->. by rewrite (cmp_refl String.compare) in E. }
    naive_solver.
  - rewrite !elem_of_cons, IH. assert (k' <> k) as Hne.
    { intros ->. by rewrite (cmp_refl String.compare) in E. }
    naive_solver.
Qed.

Lemma json_set_order k v (l : list (string * V)) : in_order l -> in_order (json_set k v l).
Proof.
  unfold in_order. induction l as [|[k' v'] l IH]; cbn; intros Hs; [by repeat constructor|].
  pose proof Hs as [Hs' Hall]%StronglySorted_inv.
  destruct (String.compare k k') eqn:E.
  - apply string_compare_eq in E as ->. by constructor.
  - constructor; [done|]. constructor; [done|]. eapply Forall_impl; [exact Hall|]. intros x Hx. cbn in *.
    exact (cmp_lt_trans String.compare _ _ _ E Hx).
  - constructor; [by apply IH|]. rewrite Forall_forall in Hall |- *.
    intros x [->|[Hx _]]%json_set_elem; [|by apply Hall|done]. by apply (cmp_gt_lt String.compare).
Qed.

Lemma json_get_elem k (l : list (string * V)) v : json_get k l = Some v -> (k, v) ∈ l.
Proof.
  induction l as [|[k' v'] l IH]; cbn; [done|].
  destruct (String.eqb_spec k k') as [->|]; [intros [= ->]; set_solver|]. intros H. set_solver.
Qed.
End Json.

(** ** The constructor *)

Section Prepare.
Context {L : LibGit2} (d0 : Disk) (P : Disk -> option Index -> Prop) (HP : forall d c, P d c -> d = d0).

Definition watched (kf : string * SavedFile) : Prop :=
  journaled_path kf.1 /\ before kf.2 = work d0 !! kf.1 /\ after kf.2 = None.

Lemma snapshot_value l :
  hoare (at_ P) (snapshot l) (fun v => at_ (fun d c => P d c /\ v = peek l d0)) (at_ P).
Proof.
  unfold snapshot. eapply hoare_bind; [apply exists_value|]. intros [].
  - eapply hoare_bind.
    { eapply hoare_conseq; [apply (read_value P l)|by intros w [? _]|done|done]. }
    intros s w [Hw Hs]. split; [done|]. by rewrite (HP _ _ Hw) in Hs.
  - intros w [Hw Hb]. split; [done|]. symmetry in Hb. apply bool_decide_eq_false in Hb.
    rewrite (HP _ _ Hw) in Hb. by apply eq_None_not_Some in Hb.
Qed.

Lemma journal_paths_value paths files :
  in_order files -> (forall kf, kf ∈ files -> watched kf) ->
  hoare (at_ P) (journal_paths paths files) (fun files' => at_ (fun d c => P d c /\
    in_order files' /\ (forall kf, kf ∈ files' -> watched kf))) (at_ P).
Proof.
  revert files. induction paths as [|path paths IH]; intros files Ho Hf; cbn; [by intros w Hw|].
  destruct (journal_file_path path) as [l|e] eqn:El; [|by intros w Hw].
  pose proof (journal_file_path_ok _ _ El) as ->.
  eapply hoare_lift; [done|]. eapply hoare_bind; [apply snapshot_value|].
  intros v. intros w [Hw ->]. revert w Hw. apply IH; [by apply json_set_order|].
  intros kf [->|[Hk _]]%json_set_elem; [|by apply Hf|done]. done.
Qed.

Lemma journal_changes_spec changes files files' :
  journal_changes changes files = Ok files' -> in_order files -> in_order changes ->
  in_order files' /\
  (forall kf, kf ∈ files' -> exists f, (kf.1, f) ∈ files /\ before kf.2 = before f /\
     after kf.2 = match json_get kf.1 changes with Some b => Some b | None => after f end) /\
  (forall k, k ∈ map fst files \/ k ∈ map fst changes -> k ∈ map fst files').
Proof.
  revert files. induction changes as [|[p b] changes IH]; intros files H Ho Hc.
  { injection H as <-. split; [done|]. split; [|set_solver]. intros [k f] Hk. by exists f. }
  cbn in H. destruct (json_get p files) as [f0|] eqn:E0; [|done].
  apply StronglySorted_inv in Hc as [Hc Hall]. rewrite Forall_forall in Hall.
  assert (json_get p changes = None) as Hp.
  { destruct (json_get p changes) as [b'|] eqn:E; [|done]. apply json_get_elem, Hall in E.
    cbn in E. by rewrite (cmp_refl String.compare) in E. }
  destruct (IH _ H (json_set_order _ _ _ Ho) Hc) as (H1 & H2 & H3). split; [done|]. split.
  - intros [k f] Hk. destruct (H2 _ Hk) as (f1 & [Hf1|[Hf1 Hne]]%json_set_elem & Hb & Ha); [| |done]; cbn in *.
    + injection Hf1 as -> ->. exists f0. cbn in *. rewrite Hp in Ha. rewrite String.eqb_refl.
      by split; [apply json_get_elem|].
    + exists f1. split; [done|]. split; [done|]. by destruct (String.eqb_spec k p).
  - intros k Hk. apply H3. destruct Hk as [Hk|Hk].
    + left. apply elem_of_map_id in Hk as ([k' f] & Hk & ->). apply elem_of_map_id. cbn.
      destruct (decide (k' = p)) as [->|Hne].
      * eexists (p, _). split; [apply json_set_elem; [done|by left]|done].
      * exists (k', f). split; [apply json_set_elem; [done|by right]|done].
    + cbn in Hk. apply elem_of_cons in Hk as [->|Hk]; [|by right]. left. apply elem_of_map_id.
      eexists (p, _). split; [apply json_set_elem; [done|by left]|done].
Qed.

(** What the constructor has checked and saved when it returns. *)
Record prepared_for (g0 : Git) (changes : list (string * option string)) (saved : Saved) : Prop := {
  pf_prepared : prepared d0 g0 saved;
  pf_clear : journal_file d0 = None;
  pf_after : forall kf, kf ∈ saved_files saved -> after kf.2 = json_get kf.1 changes;
  pf_paths : forall k, k ∈ map fst changes -> k ∈ map fst (saved_files saved)
}.

Lemma prepare_value g0 paths changes :
  git d0 = Some g0 -> in_order changes ->
  hoare (at_ P) (prepare paths changes)
    (fun saved => at_ (fun d c => P d c /\ prepared_for g0 changes saved)) (at_ P).
Proof.
  intros Hg Hc. eapply hoare_bind; [apply exists_value|]. intros [] w [Hw Hex]; [done|].
  assert (journal_file d0 = None) as Hj.
  { symmetry in Hex. apply bool_decide_eq_false in Hex. rewrite (HP _ _ Hw) in Hex.
    by apply eq_None_not_Some in Hex. }
  clear Hex. revert w Hw. apply (hoare_bind _ _ _ (fun _ => at_ P)); [by intros w Hw|]. intros [].
  eapply hoare_bind; [apply journal_paths_value; [constructor|set_solver]|].
  intros files w (Hw & Ho & Hf). destruct (journal_changes changes files) as [files'|e] eqn:Ec; [|done].
  destruct (journal_changes_spec _ _ _ Ec Ho Hc) as (_ & Hb & Hk). revert w Hw.
  eapply hoare_lift; [done|].
  eapply hoare_bind; [apply hoare_gets|]. intros repo w [Hw ->].
  rewrite (HP _ _ Hw), Hg. cbn [negb bool_decide]. revert w Hw.
  eapply hoare_bind; [apply snapshot_value|]. intros idx w [Hw ->]. revert w Hw.
  eapply hoare_bind; [apply query_value|]. intros h w [Hw (g & Hg' & [= <-])].
  rewrite (HP _ _ Hw), Hg in Hg'. injection Hg' as <-. revert w Hw.
  eapply hoare_bind; [apply index_load_value|]. intros i w [Hw Hi]. rewrite (HP _ _ Hw) in Hi.
  unfold when. case_bool_decide as Hcf; [|done]. split; [done|].
  assert (forall kf, kf ∈ files' -> journaled_path kf.1 /\ before kf.2 = work d0 !! kf.1 /\
    after kf.2 = json_get kf.1 changes) as Hall.
  { intros kf Hkf. destruct (Hb _ Hkf) as (f & Hf1 & Hbf & Haf). destruct (Hf _ Hf1) as (H1 & H2 & H3).
    cbn in *. rewrite Haf, H3, Hbf. split; [done|]. split; [done|]. by destruct (json_get kf.1 changes). }
  split; [split| | |]; cbn; try done; try (intros kf Hkf; by apply Hall).
  - by exists i.
  - intros k Hkc. apply Hk. by right.
Qed.
End Prepare.
(** ** The environment stays what it is *)

Section MutationEnv.
Context {L : LibGit2} {J : MsgPack} (o : nat -> Outcome) (saved : Saved).

Lemma env_restore l v : preserves (env o) (restore l v).
Proof. unfold restore. keeps. Qed.
Lemma env_has_repo : preserves (env o) has_repo.
Proof. apply preserves_gets. Qed.
Lemma env_snapshot l : preserves (env o) (snapshot l).
Proof. unfold snapshot. keeps. Qed.
#[local] Hint Resolve env_restore env_has_repo env_snapshot : preserves.
Lemma env_restore_original_files : preserves (env o) (restore_original_files saved).
Proof. unfold restore_original_files. keeps. Qed.
Lemma env_restore_unrelated_index c : preserves (env o) (restore_unrelated_index saved c).
Proof. unfold restore_unrelated_index. keeps. Qed.
Lemma env_undo_file kf : preserves (env o) (undo_file kf).
Proof. unfold undo_file. keeps. Qed.
#[local] Hint Resolve env_restore_original_files env_restore_unrelated_index env_undo_file : preserves.
Lemma env_recover_journal : preserves (env o) (recover_journal saved).
Proof. unfold recover_journal. keeps. Qed.
Lemma env_finish : preserves (env o) finish.
Proof. unfold finish. keeps. Qed.
#[local] Hint Resolve env_finish : preserves.
Lemma env_write_journal : preserves (env o) (write_journal saved).
Proof. unfold write_journal. keeps. Qed.
Lemma env_reset_index : preserves (env o) (reset_index saved).
Proof. unfold reset_index. keeps. Qed.
Lemma env_preserve_unrelated_index : preserves (env o) (preserve_unrelated_index saved).
Proof. unfold preserve_unrelated_index. keeps. Qed.
Lemma env_rollback : preserves (env o) (rollback saved).
Proof. unfold rollback, roll_back, reset_branch. keeps. Qed.
Lemma env_journal_paths paths files : preserves (env o) (journal_paths paths files).
Proof. revert files. induction paths as [|p paths IH]; intros files; cbn; keeps. Qed.
#[local] Hint Resolve env_journal_paths : preserves.
Lemma env_prepare paths changes : preserves (env o) (prepare paths changes).
Proof. unfold prepare. keeps. Qed.
End MutationEnv.

#[export] Hint Resolve env_restore env_has_repo env_snapshot env_restore_original_files
  env_restore_unrelated_index env_undo_file env_recover_journal env_finish env_write_journal
  env_reset_index env_preserve_unrelated_index env_rollback env_prepare : preserves.

Lemma env_recover_files {L : LibGit2} {J : MsgPack} o : preserves (env o) recover_files.
Proof. unfold recover_files. keeps. Qed.
#[export] Hint Resolve env_recover_files : preserves.

End CardMutationFacts.
