(* ===== verification/ReferenceGit.v ===== *)
(** * Instances of the interfaces to libgit2 and MessagePack

    Small concrete functions that satisfy [LibGit2Laws] and [MsgPackLaws], for evaluating
    the model: ids are the contents they name, a commit gets a name longer than any in
    use, and the walk is a depth-first search. *)

From stdpp Require Import base list sets strings numbers gmap.
From Stdlib Require Import Ascii.
From S2P Require Import Prelude Text Disk Mutation.
Import Disk CardMutation.

Module ReferenceGit.

(** ** Any countable type as text *)

Fixpoint bits_of (p : positive) : list bool :=
  match p with
  | xH => [true]
  | xO p => false :: bits_of p
  | xI p => true :: bits_of p
  end.
Fixpoint of_bits (l : list bool) : N :=
  match l with
  | [] => 0%N
  | b :: l => if b then N.succ_double (of_bits l) else N.double (of_bits l)
  end.
Lemma of_bits_of p : of_bits (bits_of p) = Npos p.
Proof. induction p as [p IH|p IH|]; cbn; by rewrite ?IH. Qed.

(** Eight bits a character, the last one filled up with zeros. *)
Fixpoint pack (l : list bool) : string :=
  match l with
  | b0 :: b1 :: b2 :: b3 :: b4 :: b5 :: b6 :: b7 :: l => String (Ascii b0 b1 b2 b3 b4 b5 b6 b7) (pack l)
  | [] => ""
  | _ => let b i := nth i l false in String (Ascii (b 0) (b 1) (b 2) (b 3) (b 4) (b 5) (b 6) (b 7))%nat ""
  end.
Fixpoint unpack (s : string) : list bool :=
  match s with
  | EmptyString => []
  | String (Ascii b0 b1 b2 b3 b4 b5 b6 b7) s => b0 :: b1 :: b2 :: b3 :: b4 :: b5 :: b6 :: b7 :: unpack s
  end.
Lemma unpack_pack n l : (length l <= n)%nat -> of_bits (unpack (pack l)) = of_bits l.
Proof.
  revert l. induction n as [n IH] using lt_wf_ind. intros l Hl.
  do 8 (destruct l as [|? l]; [reflexivity|]). cbn [pack unpack of_bits].
  rewrite (IH (length l)) by (cbn in Hl; lia). reflexivity.
Qed.

Definition to_text {A} `{Countable A} (a : A) : string := pack (bits_of (encode a)).
Definition of_text {A} `{Countable A} (s : string) : option A :=
  match of_bits (unpack s) with N0 => None | Npos p => decode p end.
Lemma of_to_text {A} `{Countable A} (a : A) : of_text (to_text a) = Some a.
Proof.
  unfold of_text, to_text. rewrite (unpack_pack (length (bits_of (encode a)))) by done.
  by rewrite of_bits_of, decode_encode.
Qed.

#[export] Instance entry_countable : Countable Entry.
Proof.
  apply (inj_countable' (fun e => (entry_mode e, entry_id e)) (fun x => mkEntry x.1 x.2)). by intros [].
Defined.
#[export] Instance index_eq_dec : EqDecision Index.
Proof. solve_decision. Defined.
#[export] Instance index_countable : Countable Index.
Proof.
  apply (inj_countable' (fun i => (entries i, conflicts i)) (fun x => mkIndex x.1 x.2)). by intros [].
Defined.
#[export] Instance saved_file_eq_dec : EqDecision SavedFile.
Proof. solve_decision. Defined.
#[export] Instance saved_file_countable : Countable SavedFile.
Proof.
  apply (inj_countable' (fun f => (before f, after f)) (fun x => mkSavedFile x.1 x.2)). by intros [].
Defined.
#[export] Instance saved_eq_dec : EqDecision Saved.
Proof. solve_decision. Defined.
#[export] Instance saved_countable : Countable Saved.
Proof.
  apply (inj_countable' (fun s => (saved_version s, saved_files s, saved_head s, saved_index s, saved_reference s))
    (fun x => mkSaved x.1.1.1.1 x.1.1.1.2 x.1.1.2 x.1.2 x.2)). by intros [].
Defined.

#[export] Instance reference_msgpack : MsgPack := {|
  to_msgpack := to_text;
  from_msgpack := of_text
|}.
#[export] Instance reference_msgpack_laws : MsgPackLaws reference_msgpack.
Proof. split. apply of_to_text. Qed.

(** ** Ancestors, decided *)

Definition without (o : Oid) (g : Git) : Git := mkGit (blobs g) (delete o (commits g)) (refs g) (head g) (remotes g).

Fixpoint reach (fuel : nat) (g : Git) (o q : Oid) : bool :=
  bool_decide (o = q) ||
  match fuel, commits g !! o with
  | S n, Some c => existsb (fun p => reach n (without o g) p q) (commit_parents c)
  | _, _ => false
  end.

Lemma ancestor_without g o p q :
  ancestor g p q ->
  ancestor (without o g) p q \/
  exists c p', commits g !! o = Some c /\ p' ∈ commit_parents c /\ ancestor (without o g) p' q.
Proof.
  induction 1 as [p|p c p1 q Hc Hp H IH]; [left; constructor|].
  destruct IH as [IH|IH]; [|by right].
  destruct (decide (p = o)) as [->|Hne]; [right; by exists c, p1|]. left.
  eapply ancestor_step; [|exact Hp|exact IH]. cbn. by rewrite lookup_delete_ne.
Qed.

Lemma ancestor_of_without g o p q : ancestor (without o g) p q -> ancestor g p q.
Proof.
  induction 1 as [p|p c p1 q Hc Hp H IH]; [constructor|]. eapply ancestor_step; [|exact Hp|exact IH].
  cbn in Hc. apply lookup_delete_Some in Hc. apply Hc.
Qed.

Lemma reach_spec fuel g o q : (size (commits g) <= fuel)%nat -> reach fuel g o q = true <-> ancestor g o q.
Proof.
  revert g o. induction fuel as [|n IH]; intros g o Hf.
  - apply Nat.le_0_r, map_size_empty_iff in Hf. cbn. rewrite orb_false_r, bool_decide_eq_true.
    split; [intros ->; constructor|]. intros H. inversion H as [|? c p ? Hc]; [done|].
    by rewrite Hf, lookup_empty in Hc.
  - cbn. rewrite orb_true_iff, bool_decide_eq_true. destruct (commits g !! o) as [c|] eqn:Hc.
    + rewrite existsb_exists. setoid_rewrite <- list_elem_of_In.
      assert (forall p, reach n (without o g) p q = true <-> ancestor (without o g) p q) as Hn.
      { intros p. apply IH. cbn. rewrite map_size_delete_Some by by eexists. lia. }
      setoid_rewrite Hn. split.
      * intros [->|(p & Hp & Ha)]; [constructor|]. eapply ancestor_step; [done..|].
        by eapply ancestor_of_without.
      * intros H. inversion H as [|? c' p ? Hc' Hp Ha]; [by left|]. subst. right.
        rewrite Hc in Hc'. injection Hc' as <-.
        destruct (ancestor_without g o p q Ha) as [Hw|(c' & p' & Hc' & Hp' & Hw)]; [by exists p|].
        rewrite Hc in Hc'. injection Hc' as <-. by exists p'.
    + split; [intros [->|]; [constructor|done]|]. intros H. inversion H as [|? c p ? Hc' ]; [by left|congruence].
Qed.

(** The ids a repository mentions. *)
Definition mentioned (g : Git) : list Oid :=
  map fst (map_to_list (commits g)) ++ flat_map (fun oc => commit_parents oc.2) (map_to_list (commits g)).

Lemma ancestor_mentioned g o q : ancestor g o q -> q = o \/ q ∈ mentioned g.
Proof.
  induction 1 as [o|o c p q Hc Hp H IH]; [by left|]. right. destruct IH as [->|IH]; [|done].
  unfold mentioned. apply elem_of_app. right. apply list_elem_of_In, in_flat_map. exists (o, c).
  split; [|by apply list_elem_of_In]. apply list_elem_of_In. by apply elem_of_map_to_list.
Qed.

Definition longer (l : list string) : string := foldr (fun s acc => String "c"%char (s +:+ acc)) "" l.

Lemma length_append s t : String.length (s +:+ t) = (String.length s + String.length t)%nat.
Proof. induction s as [|c s IH]; [done|]. exact (f_equal S IH). Qed.

Lemma longer_fresh l s : s ∈ l -> (String.length s < String.length (longer l))%nat.
Proof.
  induction l as [|x l IH]; [set_solver|].
  change (longer (x :: l)) with (String "c"%char (x +:+ longer l)). cbn [String.length]. rewrite length_append.
  intros [->|Hs]%elem_of_cons; [lia|]. specialize (IH Hs). lia.
Qed.

Definition new_name (g : Git) (c : Commit) : Oid := longer (mentioned g ++ commit_parents c).

#[export] Instance reference_git : LibGit2 := {|
  index_parse := fun o => match o with None => Some (mkIndex ∅ ∅) | Some s => of_text s end;
  index_bytes := to_text;
  blob_id := fun s => s;
  clean := fun s => s;
  file_mode := fun _ => 33188;
  commit_id := fun g _ c => new_name g c;
  revwalk := fun g tip hide =>
    list_filter (fun o => reach (size (commits g)) g tip o &&
      match hide with Some h => negb (reach (size (commits g)) g h o) | None => true end)
      (tip :: mentioned g);
  initial_branch := "refs/heads/main"
|}.

#[export] Instance reference_git_laws : LibGit2Laws reference_git.
Proof.
  split.
  - apply of_to_text.
  - done.
  - intros g m c c' Hc. exfalso. change (commit_id g m c) with (new_name g c) in Hc.
    assert (new_name g c ∈ mentioned g ++ commit_parents c) as H.
    { apply elem_of_app. left. unfold mentioned. apply elem_of_app. left. apply elem_of_map_id.
      exists (new_name g c, c'). split; [by apply elem_of_map_to_list|done]. }
    apply longer_fresh in H. unfold new_name in H. lia.
  - intros g m c p Hp H. change (commit_id g m c) with (new_name g c) in H.
    assert (new_name g c ∈ mentioned g ++ commit_parents c) as Hin.
    { apply elem_of_app. destruct (ancestor_mentioned _ _ _ H) as [->|?]; [by right|by left]. }
    apply longer_fresh in Hin. unfold new_name in Hin. lia.
  - intros g tip hide o. unfold revwalk, reference_git. rewrite elem_of_list_filter, andb_true_iff, reach_spec by done. split.
    + intros (_ & Ha & Hh). split; [done|]. intros h -> Hah.
      apply negb_true_iff in Hh. by rewrite (proj2 (reach_spec _ g h o (le_n _)) Hah) in Hh.
    + intros [Ha Hh]. split; [|split; [done|]].
      * destruct (ancestor_mentioned _ _ _ Ha) as [->|?]; set_solver.
      * destruct hide as [h|]; [|done]. apply negb_true_iff, not_true_iff_false.
        intros Hr%reach_spec; [|done]. by apply (Hh h).
Qed.

End ReferenceGit.
