(* ===== verification/Recovery.v ===== *)
(** Recovery of an interrupted card change when the branch has moved on since
    ([CardMutation.cpp], [recover_journal] and [undo_file]): what the recovery of [Mutation]
    promises to the commits made after the interruption. *)
From stdpp Require Import base list sets strings numbers gmap.
From S2P Require Import Prelude Disk Mutation ReferenceGit.

Module RecoveryFacts.
Import CardMutation CardMutationFacts DiskFacts Disk.

Section Later.
Context {L : LibGit2} (saved : Saved).

Lemma snapshot_known {A} I P l v (k : option string -> IO A) R :
  (forall d c, P d c -> I d /\ peek l d = v) ->
  io_safe I P (k v) R -> io_safe I P (bind (snapshot l) k) R.
Proof.
  intros HP Hk w Hw. unfold snapshot. rewrite bind_assoc. revert w Hw.
  apply (exists_known _ _ (bool_decide (is_Some v))).
  { intros d c Hd. by apply (HP d c). }
  { intros d c Hd. by rewrite (proj2 (HP d c Hd)). }
  destruct v as [s|]; cbn [bool_decide decide is_Some].
  - intros w Hw. change (bool_decide (is_Some (Some s))) with true. cbv iota. rewrite bind_assoc.
    revert w Hw. apply (read_known _ _ s); [intros d c Hd; by apply (HP d c)|intros d c Hd; by apply (HP d c)|].
    exact Hk.
  - exact Hk.
Qed.

(** A path goes back only while it still holds what the operation wrote. *)
Definition undo_one (d : Disk) (kf : string * SavedFile) : Disk :=
  match after kf.2 with
  | Some v => if bool_decide (work d !! kf.1 = v) then poke (Work kf.1) (before kf.2) d else d
  | None => d
  end.

Lemma undo_file_safe kf d1 :
  journaled_path kf.1 ->
  io_safe (fun _ => True) (fun d _ => d = d1) (undo_file kf) (fun _ d _ => d = undo_one d1 kf).
Proof.
  intros Hp. unfold undo_file, undo_one. destruct (after kf.2) as [v|]; [|by intros w Hw].
  rewrite Hp. apply (snapshot_known _ _ _ (work d1 !! kf.1)); [by intros d c ->|].
  destruct (bool_decide (work d1 !! kf.1 = v)).
  - eapply (io_safe_weaken _ (fun d _ => d = d1)); [apply (io_safe_of (fun _ => True)); [apply restore_triple|by apply restore_kept|done]|done|done|].
    intros [] d c [(d2 & -> & ->) _]. done.
  - apply (snapshot_known _ _ _ (work d1 !! kf.1)); [by intros d c ->|]. by intros w Hw.
Qed.

Lemma undo_files_safe files d1 :
  (forall kf, kf ∈ files -> journaled_path kf.1) ->
  io_safe (fun _ => True) (fun d _ => d = d1) (for_each files undo_file)
    (fun _ d _ => d = foldl undo_one d1 files).
Proof.
  intros Hp. apply (hoare_for_each _ _ (fun pre => at_ (fun d _ => d = foldl undo_one d1 pre))).
  intros pre kf rest Hl. rewrite foldl_app. cbn [foldl]. apply undo_file_safe, Hp. rewrite Hl. set_solver.
Qed.

Lemma undo_one_fields d kf :
  index_file (undo_one d kf) = index_file d /\ journal_file (undo_one d kf) = journal_file d /\
  git (undo_one d kf) = git d /\ forall k, k <> kf.1 -> work (undo_one d kf) !! k = work d !! k.
Proof.
  unfold undo_one. destruct (after kf.2); [|done]. case_bool_decide; [|done].
  split_and!; [done..|]. intros k Hk. cbn. by rewrite lookup_partial_alter_ne.
Qed.

(** The old content of a path, unless what it holds is not what the operation wrote. *)
Definition old_unless_edited (kf : string * SavedFile) (now : option string) : option string :=
  match after kf.2 with
  | Some v => if bool_decide (now = v) then before kf.2 else now
  | None => now
  end.

Lemma undo_all_lookup files d :
  NoDup (map fst files) ->
  let d' := foldl undo_one d files in
  index_file d' = index_file d /\ git d' = git d /\
  (forall k, k ∉ map fst files -> work d' !! k = work d !! k) /\
  forall kf, kf ∈ files -> work d' !! kf.1 =
    old_unless_edited kf (work d !! kf.1).
Proof.
  revert d. induction files as [|x files IH]; intros d; cbn [foldl map].
  { intros _. split_and!; [done..|]. intros kf H. by apply elem_of_nil in H. }
  intros [Hx Hn]%NoDup_cons. destruct (IH (undo_one d x) Hn) as (H1 & H2 & H3 & H4).
  destruct (undo_one_fields d x) as (F1 & _ & F3 & F4). cbn zeta in *.
  split; [congruence|]. split; [congruence|]. split.
  - intros k [Hk1 Hk2]%not_elem_of_cons. rewrite H3, F4 by done. done.
  - intros kf [->|Hk]%elem_of_cons.
    + rewrite H3 by done. unfold undo_one, old_unless_edited. destruct (after x.2); [|done].
      case_bool_decide; [|done]. cbn. by rewrite lookup_partial_alter_eq.
    + rewrite (H4 _ Hk), F4; [done|]. intros He. apply Hx. rewrite <- He. apply elem_of_map_id. by exists kf.
Qed.
End Later.
(** What recovery does when nothing disturbs it. *)
Lemma recover_moved {L : LibGit2} {J : MsgPack} `{!MsgPackLaws J} (saved : Saved) (d : Disk) (g : Git)
    (found : option Oid) :
  git d = Some g -> journal_file d = Some (to_msgpack saved) -> saved_version saved = 2%Z ->
  (forall kf, kf ∈ saved_files saved -> journaled_path kf.1) ->
  branch_tip g saved <> saved_head saved -> landed_commit g saved = Ok found ->
  (forall o, found = Some o -> head_id g <> Some o) ->
  io_safe (fun _ => True) (fun d' _ => d' = d) recover_files
    (fun _ d' _ => d' = match found with Some _ => d | None => foldl undo_one d (saved_files saved) end).
Proof.
  intros Hg Hj Hv Hp Hmoved Hfound Hhead. apply (recover_files_with saved); [by intros d' c ->|].
  unfold recover_journal. rewrite Hv. apply when_throw_known; [done|].
  apply has_repo_known; [by intros d' c ->; exists g|]. cbn [negb].
  apply (query_known _ _ _ (branch_tip g saved)); [done|by intros d' c ->; exists g|].
  assert (same (branch_tip g saved) (saved_head saved) = false) as -> by by apply bool_decide_eq_false.
  apply (query_known _ _ _ found); [done|by intros d' c ->; exists g|].
  destruct found as [o|]; [|by apply undo_files_safe].
  apply (query_known _ _ _ false); [done| |by intros w Hw].
  intros d' c ->. exists g. split; [done|]. f_equal. by apply bool_decide_eq_false, Hhead.
Qed.

(** Recovery that is disturbed in any way writes to the journaled files and the index only. *)
Lemma recover_files_keeps {L : LibGit2} {J : MsgPack} `{!MsgPackLaws J} (saved : Saved) (d : Disk) (g : Git) w :
  git d = Some g -> journal_file d = Some (to_msgpack saved) -> disk w = d ->
  let d' := disk (recover_files w).2 in
  git d' = Some g /\ forall k, k ∉ map fst (saved_files saved) -> work d' !! k = work d !! k.
Proof.
  intros Hg Hj Hw.
  set (I := fun d' => git d' = Some g /\ journal_file d' = Some (to_msgpack saved) /\
    forall k, k ∉ map fst (saved_files saved) -> work d' !! k = work d !! k).
  assert (preserves (on I) (recover_journal saved)) as Hk.
  { apply recover_journal_keeps; [|by intros v d' H].
    intros kf Hkf v d' (H1 & H2 & H3). split; [done|]. split; [done|]. intros k Hknot. cbn.
    rewrite lookup_partial_alter_ne; [by apply H3|]. intros <-. apply Hknot.
    apply list_elem_of_fmap. by exists kf. }
  assert (on I w) as HI by by unfold on; rewrite Hw.
  enough (preserves (on I) recover_files) as Hp by by destruct (Hp _ HI) as (? & _ & ?).
  clear w Hw HI. unfold recover_files. apply preserves_bind; [auto with preserves|]. intros b.
  apply preserves_when. intros w HI. unfold bind.
  pose proof (read_value (fun d' _ => I d') JournalFile w HI) as Hrd.
  destruct (fs_read_file JournalFile w) as [[raw|e] w1]; [|done].
  destruct Hrd as [HI1 Hraw]. cbn [peek] in Hraw. destruct (HI1) as (_ & H2 & _).
  assert (raw = to_msgpack saved) as -> by congruence. rewrite from_to_msgpack. by apply Hk.
Qed.
End RecoveryFacts.

Module CardMutationTheorems.
Import CardMutation CardMutationFacts DiskFacts RecoveryFacts Disk.

(** C2: recovery never moves a Git reference, adds no object and touches no file but the
    journaled ones, however it is disturbed. Suppose the branch has moved on since the
    interruption, and nothing disturbs the recovery: it returns. If the operation's commit
    is among the commits since, below HEAD, the disk stays as it is; if the operation never
    committed, the index stays as it is and each path the operation was to change goes
    back to its old content exactly when it still holds what the operation wrote. *)
Theorem recovery_respects_later_work {L : LibGit2} {J : MsgPack} (saved : Saved) (w : World) (g : Git)
    (found : option Oid) :
  MsgPackLaws J -> git (disk w) = Some g -> journal_file (disk w) = Some (to_msgpack saved) ->
  saved_version saved = 2%Z -> NoDup (map fst (saved_files saved)) ->
  (forall kf, kf ∈ saved_files saved -> journaled_path kf.1) ->
  branch_tip g saved <> saved_head saved -> landed_commit g saved = Ok found ->
  (forall o, found = Some o -> head_id g <> Some o) ->
  let r := (recover_files w).1 in
  let d := disk w in let d' := disk (recover_files w).2 in
  git d' = Some g /\
  (forall k, k ∉ map fst (saved_files saved) -> work d' !! k = work d !! k) /\
  (calm w -> r = Ok tt /\
    match found with
    | Some _ => d' = d
    | None => index_file d' = index_file d /\
        forall kf, kf ∈ saved_files saved -> work d' !! kf.1 =
          old_unless_edited kf (work d !! kf.1)
    end).
Proof.
  intros HJ Hg Hj Hv Hn Hp Hmoved Hfound Hhead r d d'.
  destruct (recover_files_keeps saved d g w Hg Hj eq_refl) as [H1 H2].
  split; [done|]. split; [done|]. intros Hc.
  pose proof (recover_moved saved d g found Hg Hj Hv Hp Hmoved Hfound Hhead w eq_refl) as H.
  pose proof (env_recover_files (outcomes w) w eq_refl) as He. subst r d'.
  unfold env in He.
  destruct (recover_files w) as [[[]|e] w']; [|by destruct H as [_ []]; unfold calm; cbn in He; rewrite He].
  split; [done|]. cbn [at_ snd] in *. unfold at_ in H. rewrite H. destruct found as [o|]; [done|].
  destruct (undo_all_lookup (saved_files saved) d Hn) as (F1 & _ & _ & F4). by split.
Qed.

(** A card on its way to the trash, and another whose text was to change; the branch has a
    commit of something else since, and the second card was edited by hand. *)
Import ReferenceGit.
Definition moved_saved : Saved := mkSaved 2
  [("cards/ab/cd/abcd.md", mkSavedFile (Some "old") (Some None));
   ("cards/ef/gh/efgh.md", mkSavedFile (Some "first") (Some (Some "second")));
   ("trash/cards/ab/cd/abcd.md", mkSavedFile None (Some (Some "trashed")))]
  (Some "c0") None "refs/heads/main".
Definition moved_git : Git :=
  mkGit ∅ {["c0" := mkCommit [] ∅; "c1" := mkCommit ["c0"] {["notes" := mkEntry 33188 "mine"]}]}
    {["refs/heads/main" := "c1"]} (Branch "refs/heads/main") ∅.
Definition moved_world : World :=
  mkWorld (mkDisk {["cards/ef/gh/efgh.md" := "edited"; "trash/cards/ab/cd/abcd.md" := "trashed"; "notes" := "mine"]}
    None (Some (to_msgpack moved_saved)) None (Some moved_git) ∅) None (fun _ => Works) 0.

Example recovery_respects_later_work_witness :
  let w := snd (recover_files moved_world) in
  work (disk w) !! "notes" = Some "mine" /\ work (disk w) !! "cards/ab/cd/abcd.md" = Some "old" /\
  work (disk w) !! "cards/ef/gh/efgh.md" = Some "edited" /\ work (disk w) !! "trash/cards/ab/cd/abcd.md" = None.
Proof.
  assert (NoDup (map fst (saved_files moved_saved))) as H1 by (apply (bool_decide_unpack _); vm_compute; exact I).
  assert (Forall (fun kf => journaled_path kf.1) (saved_files moved_saved)) as H2 by (repeat constructor).
  assert (branch_tip moved_git moved_saved <> saved_head moved_saved) as H3 by (vm_compute; discriminate).
  assert (landed_commit moved_git moved_saved = Ok None) as H4 by (vm_compute; reflexivity).
  destruct (recovery_respects_later_work moved_saved moved_world moved_git None reference_msgpack_laws eq_refl
    eq_refl eq_refl H1 (fun kf => proj1 (Forall_forall _ _) H2 kf) H3 H4 (fun o (H : None = Some o) =>
      match H with end)) as (_ & Hout & Hcalm).
  destruct (Hcalm (fun n => eq_refl)) as (_ & _ & Hin). cbn zeta in *.
  split; [apply Hout; apply (bool_decide_unpack _); vm_compute; exact I|].
  pose proof (proj2 (Forall_forall _ _) Hin) as Hall. cbn [moved_saved saved_files] in Hall.
  inversion_clear Hall as [|? ? Ha Hall1]. inversion_clear Hall1 as [|? ? Hb Hall2].
  inversion_clear Hall2 as [|? ? Hc _].
  split; [exact Ha|]. split; [exact Hb|exact Hc].
Defined.

End CardMutationTheorems.
