(* ===== verification/Privacy.v ===== *)
(** * Encrypted projects

    The part of [src/src/privacy/ProjectPrivacy.cpp] that stands between the card store and
    the files: encrypting and decrypting the text of a file, and the check that what is
    staged is encrypted. The keys and the cipher (libsodium, in [CryptoService.cpp]) are the
    class [Privacy]. *)

From stdpp Require Import base list strings numbers gmap.
From S2P Require Import Prelude Model Text CardFrontMatter Disk.
Import Disk CardFrontMatter.

(** [encrypt_project_blob] draws a fresh nonce for every call: here the number of the
    call. The other arguments are the project, the key's id and the text. *)
Class Privacy := {
  encrypt_project_blob : nat -> string -> string -> string -> result string;
  decrypt_project_blob : string -> string -> string -> result string
}.

Module ProjectPrivacy.

Definition blob_header : string := "HolderPriv1" +:+ lf.

(** What is encrypted is decrypted with the same key, and says that it is encrypted. *)
Class PrivacyLaws (V : Privacy) : Prop := {
  decrypt_encrypted : forall n project key plain blob,
    encrypt_project_blob n project key plain = Ok blob ->
    decrypt_project_blob project key blob = Ok plain;
  encrypted_header : forall n project key plain blob,
    encrypt_project_blob n project key plain = Ok blob -> String.prefix blob_header blob = true
}.

Definition encrypted (project : Project) : bool := String.eqb (privacy_mode project) "encrypted_git".

Definition require_project_key_id (project : Project) : result string :=
  match project_key_id project with
  | Some key => if String.eqb key "" then Err (Runtime "encrypted project missing project_key_id")
                else Ok key
  | None => Err (Runtime "encrypted project missing project_key_id")
  end.

Section Blobs.
Context {L : LibGit2} {V : Privacy}.

(** [project.privacy_mode == "encrypted_git" ? encrypt_project_blob(...) : plain]; loading
    the key can fail. *)
Definition encode_card_blob (project : Project) (plain : string) : IO string :=
  if encrypted project then
    let* key := lift (require_project_key_id project) in
    attempt "privacy_crypto_failed" (fun w =>
      (encrypt_project_blob (tick w) (project_id project) key plain, w))
  else mret plain.

Definition decode_card_blob (project : Project) (blob : string) : IO string :=
  if encrypted project then
    let* key := lift (require_project_key_id project) in
    attempt "privacy_crypto_failed" (lift (decrypt_project_blob (project_id project) key blob))
  else mret blob.

(** [assert_encryption_index_paths_safe] *)
Definition checked_path (path : string) : bool :=
  String.prefix "cards/" path || String.prefix "resources/" path || String.prefix "locations/" path.
Definition unsafe_path (g : Git) (i : Index) (path : string) : bool :=
  checked_path path &&
  match entries i !! path with
  | None => false
  | Some e => match blobs g !! entry_id e with
              | None => true
              | Some content => negb (String.prefix blob_header content)
              end
  end.
Definition assert_encryption_index_paths_safe (paths : list string) : IO unit :=
  query (fun _ => Ok tt) ;;;
  let* i := index_load in
  let* unsafe := query (fun g => Ok (existsb (unsafe_path g i) paths)) in
  when unsafe (throw (Runtime "Privacy safety check failed: staged blobs are plaintext.")).

Definition assert_project_staged_blobs_safe (project : Project) (paths : list string) : IO unit :=
  if encrypted project then assert_encryption_index_paths_safe paths else mret tt.

End Blobs.

(** Every cipher text starts with the header: an instance that only hides the text. *)
#[export] Instance reference_privacy : Privacy := {|
  encrypt_project_blob n project key plain := Ok (blob_header +:+ plain);
  decrypt_project_blob project key blob :=
    match drop_prefix blob_header blob with
    | Some plain => Ok plain
    | None => Err (Runtime "privacy_crypto_failed")
    end
|}.

#[export] Instance reference_privacy_laws : PrivacyLaws reference_privacy.
Proof.
  split; intros n project key plain blob [= <-].
  - cbn [decrypt_project_blob reference_privacy]. by rewrite CardFrontMatterFacts.drop_prefix_app.
  - vm_compute. by destruct plain.
Qed.

End ProjectPrivacy.
