(* ===== verification/CardChanges.v ===== *)
(** * A change of several cards

    [CardStore::apply_card_changes] of [src/src/card/CardStore.cpp]: the files, the index
    database and the commit of a move, a trashing, a restoration or a repair change
    together or not at all. The theorems follow every way the environment can interfere,
    through the rollback and the recovery of the journal. The store is one without a
    full-text index ([fts_] is null). *)

From stdpp Require Import base list sets strings numbers gmap sorting.
From S2P Require Import Prelude Double Model Text Tags Database CardRepo Uuid.
From S2P Require Import LinkRepo TagRepo MilestoneRepo CardFrontMatter Disk Mutation ReferenceGit Privacy.
Import Disk CardMutation CardPaths CardFrontMatter ProjectPrivacy.

Module CardStoreChanges.

Record CardChange := mkChange { cc_current : Card; cc_target : ParsedCardFile }.

(** The world and the index database: what is committed, and an open transaction. *)
Record Store := mkStore { st_world : World; st_db : Db; st_tx : option Db }.

Definition io {A} (m : IO A) : M Store A :=
  fun s => let '(r, w) := m (st_world s) in (r, mkStore w (st_db s) (st_tx s)).

Definition in_tx {A} (m : Repo A) : M Store A :=
  fun s => match st_tx s with
           | Some db => let '(r, db') := m db in (r, mkStore (st_world s) (st_db s) (Some db'))
           | None => let '(r, db') := m (st_db s) in (r, mkStore (st_world s) db' None)
           end.

(** [Tx::Tx], [Tx::commit] and the destructor that ends the scope. *)
Definition begin_tx : M Store unit :=
  io (attempt "BEGIN IMMEDIATE" (mret tt)) ;;;
  modify (fun s => mkStore (st_world s) (st_db s) (Some (st_db s))).
Definition commit_tx : M Store unit :=
  io (attempt "COMMIT" (mret tt)) ;;;
  modify (fun s => mkStore (st_world s)
    (match st_tx s with Some db => db | None => st_db s end) None).
Definition with_tx {A} (body : M Store A) : M Store A :=
  begin_tx ;;;
  (fun s => let '(r, s') := body s in (r, mkStore (st_world s') (st_db s') None)).

Section CardStoreChanges.
Context {Y : Yaml} {L : LibGit2} {J : MsgPack} {V : Privacy}.
Context (md_parse : bytes -> list TagExtractor.MdEvent).

(** ** Checking and planning *)

Definition with_rel_path (path : string) (p : ParsedCardFile) : ParsedCardFile :=
  set_pf_card (set_card_rel_path path (pf_card p)) p.

(** One round of the first loop: the change with its live path, the rename it needs
    and the two paths it watches. *)
Definition plan_change (change : CardChange)
    : IO (CardChange * list (string * string) * list string) :=
  let current := cc_current change in
  let target := cc_target change in
  let* live_path := lift (card_rel_path (card_id current)) in
  let* trash_path := lift (card_trash_rel_path (card_id current)) in
  when (negb (String.eqb (rel_path current) live_path) &&
        negb (card_deleted current && String.eqb (rel_path current) trash_path))
    (throw (Runtime "card rel_path does not match card_id")) ;;;
  let source_path := if card_deleted current then trash_path else live_path in
  let target_path := if card_deleted (pf_card target) then trash_path else live_path in
  let* ex := fs_exists (Work source_path) in
  when (negb ex) (throw (Runtime "card content missing")) ;;;
  let* renames :=
    if String.eqb source_path target_path then mret []
    else (let* there := fs_exists (Work target_path) in
          when there (throw (Runtime "conflict: destination card file already exists")) ;;;
          mret [(source_path, target_path)]) in
  mret (mkChange current (with_rel_path live_path target), renames, [live_path; trash_path]).

Fixpoint plan_changes (changes : list CardChange)
    : IO (list CardChange * list (string * string) * list string) :=
  match changes with
  | [] => mret ([], [], [])
  | change :: changes =>
      let* p := plan_change change in
      let* rest := plan_changes changes in
      mret (p.1.1 :: rest.1.1, p.1.2 ++ rest.1.2, p.2 ++ rest.2)
  end.

(** The bytes of a card's file and where they go. *)
Definition card_write (project : Project) (record : ParsedCardFile) : IO (string * string) :=
  let* durable := lift (
    if card_deleted (pf_card record)
    then let? p := card_trash_rel_path (card_id (pf_card record)) in
         Ok (set_card_rel_path p (pf_card record))
    else Ok (pf_card record)) in
  let* content := encode_card_blob project
    (render_card_front_matter durable (pf_links record) (pf_milestones record) +:+ pf_body record) in
  mret (rel_path durable, content).

Fixpoint card_writes (project : Project) (changes : list CardChange) : IO (list (string * string)) :=
  match changes with
  | [] => mret []
  | change :: changes =>
      let* w := card_write project (cc_target change) in
      let* rest := card_writes project changes in
      mret (w :: rest)
  end.

(** The maps and sets of the standard library, in key order. *)
Definition path_set (paths : list string) : list string :=
  map fst (foldl (fun s p => json_set p tt s) [] paths).
Definition file_changes (renames writes : list (string * string)) : list (string * option string) :=
  foldl (fun m w => json_set w.1 (Some w.2) m)
    (foldl (fun m r => json_set r.1 None m) [] renames) writes.

(** ** The index database *)

Definition index_card (record : ParsedCardFile) : Repo unit :=
  let card := pf_card record in
  CardRepo.restore_snapshot card ;;;
  LinkRepo.delete_links_from (card_project_id card) (card_id card) ;;;
  when (negb (bool_decide (pf_links record = [])))
    (LinkRepo.upsert_links (card_project_id card) (card_id card) (pf_links record)) ;;;
  if card_deleted card then
    TagRepo.delete_tags_for_card (card_project_id card) (card_id card) ;;;
    MilestoneRepo.delete_for_card (card_project_id card) (card_id card)
  else
    TagRepo.set_tags_for_card (card_project_id card) (card_id card)
      (map string_of (TagExtractor.extract_tags md_parse (bytes_of (pf_body record)))) (updated_at card) ;;;
    MilestoneRepo.replace_for_card (card_project_id card) (card_id card) (pf_milestones record).

(** ** The files and the commit *)

Definition rename_card (r : string * string) : IO unit :=
  fs_create_directories (Work r.2) ;;;
  fs_rename (Work r.1) (Work r.2) ;;;
  remove_path r.1.

Definition write_card (w : string * string) : IO unit :=
  git_write_file w.1 w.2 ;;;
  let* now := fs_read_file (Work w.1) in
  when (negb (String.eqb now w.2)) (throw (Runtime "incomplete card lifecycle write")) ;;;
  stage_path w.1.

Definition change_files (project : Project) (saved : Saved) (renames writes : list (string * string))
    (message : string) : IO unit :=
  begin saved ;;;
  for_each renames rename_card ;;;
  for_each writes write_card ;;;
  assert_project_staged_blobs_safe project (map fst writes) ;;;
  commit message ;;;
  preserve_unrelated_index saved ;;;
  open_or_init.

(** The handler of the [try] block. *)
Definition undo_changes (saved : Saved) (e : error) : M Store unit :=
  io (rollback saved ;;; open_or_init) ;;; throw e.

(** The [try] block, its handler, and [mutation.finish()]. *)
Definition commit_changes (project : Project) (saved : Saved) (renames writes : list (string * string))
    (message : string) : M Store unit :=
  try_catch
    (io (change_files project saved renames writes message) ;;; commit_tx)
    (undo_changes saved) ;;;
  io finish.

Definition apply_card_changes (project : Project) (changes : list CardChange) (message : string)
    : M Store unit :=
  let* p := io (plan_changes changes) in
  let* writes := io (card_writes project p.1.1) in
  let* saved := io (prepare (path_set p.2) (file_changes p.1.2 writes)) in
  with_tx (
    for_each p.1.1 (fun change => in_tx (index_card (cc_target change))) ;;;
    commit_changes project saved p.1.2 writes message).

End CardStoreChanges.
End CardStoreChanges.

Module CardStoreFacts.
Import CardStoreChanges DiskFacts CardMutationFacts.

(** ** What the renames and writes come to *)

Definition rename_file (m : gmap string string) (r : string * string) : gmap string string :=
  match m !! r.1 with Some c => <[r.2 := c]> (delete r.1 m) | None => m end.
Definition write_file (m : gmap string string) (w : string * string) : gmap string string :=
  <[w.1 := w.2]> m.
Definition final_files (renames writes : list (string * string)) (m : gmap string string) :=
  foldl write_file (foldl rename_file m renames) writes.

Definition last_write (writes : list (string * string)) (k : string) : option string :=
  foldl (fun acc w => if String.eqb w.1 k then Some w.2 else acc) None writes.

Lemma last_write_snoc writes w k :
  last_write (writes ++ [w]) k = if String.eqb w.1 k then Some w.2 else last_write writes k.
Proof. unfold last_write. by rewrite foldl_app. Qed.

Lemma last_write_Some writes k b : last_write writes k = Some b -> (k, b) ∈ writes.
Proof.
  induction writes as [|[k' b'] writes IH] using rev_ind; [done|]. rewrite last_write_snoc. cbn.
  destruct (String.eqb_spec k' k) as [->|]; [intros [= ->]|intros H; specialize (IH H)]; set_solver.
Qed.
Lemma last_write_None writes k : last_write writes k = None <-> k ∉ map fst writes.
Proof.
  induction writes as [|[k' b'] writes IH] using rev_ind; [set_solver|].
  rewrite last_write_snoc, map_app. cbn. destruct (String.eqb_spec k' k) as [->|]; set_solver.
Qed.

Lemma json_get_set {V} k k' (v : V) l :
  in_order l -> json_get k' (json_set k v l) = if String.eqb k' k then Some v else json_get k' l.
Proof.
  unfold in_order. induction l as [|[k1 v1] l IH]; cbn; [done|]. intros Hs.
  apply StronglySorted_inv in Hs as [Hs _]. specialize (IH Hs).
  destruct (String.compare k k1) eqn:E; cbn.
  - apply string_compare_eq in E as ->. by destruct (String.eqb k' k1).
  - done.
  - rewrite IH. destruct (String.eqb_spec k' k1) as [->|]; [|done].
    destruct (String.eqb_spec k1 k) as [->|]; [|done]. by rewrite (cmp_refl String.compare) in E.
Qed.

Section Final.
Context (renames writes : list (string * string)).
Definition froms : list string := map fst renames.

Lemma file_changes_spec :
  in_order (file_changes renames writes) /\
  forall k, json_get k (file_changes renames writes) =
    match last_write writes k with
    | Some b => Some (Some b)
    | None => if bool_decide (k ∈ froms) then Some None else None
    end.
Proof.
  unfold file_changes, froms.
  assert (forall rs, in_order (foldl (fun m r => json_set r.1 (@None string) m) [] rs) /\ forall k,
    json_get k (foldl (fun m (r : string * string) => json_set r.1 (@None string) m) [] rs) =
      if bool_decide (k ∈ map fst rs) then Some None else None) as H.
  { intros rs. induction rs as [|r rs [IH1 IH2]] using rev_ind; [by split; [constructor|]|].
    rewrite foldl_app. cbn. split; [by apply json_set_order|]. intros k. rewrite json_get_set, IH2, map_app by done.
    cbn. repeat case_bool_decide; destruct (String.eqb_spec k r.1); set_solver. }
  destruct (H renames) as [H1 H2].
  induction writes as [|w ws [IH1 IH2]] using rev_ind; [by split|].
  rewrite foldl_app. cbn. split; [by apply json_set_order|]. intros k.
  rewrite json_get_set, IH2, last_write_snoc by done. rewrite (String.eqb_sym k). by destruct (String.eqb _ _).
Qed.

Lemma final_files_lookup m k :
  (forall r, r ∈ renames -> r.2 ∈ map fst writes) ->
  final_files renames writes m !! k =
    match last_write writes k with
    | Some b => Some b
    | None => if bool_decide (k ∈ froms) then None else m !! k
    end.
Proof.
  intros Ht. unfold final_files, froms. transitivity (match last_write writes k with
    | Some b => Some b | None => foldl rename_file m renames !! k end).
  { clear Ht. induction writes as [|w ws IH] using rev_ind; [done|].
    rewrite foldl_app, last_write_snoc. cbn. unfold write_file.
    destruct (String.eqb_spec w.1 k) as [->|]; [by rewrite lookup_insert_eq|by rewrite lookup_insert_ne]. }
  destruct (last_write writes k) eqn:Ew; [done|]. apply last_write_None in Ew.
  induction renames as [|r rs IH] using rev_ind; [done|]. rewrite foldl_app, map_app. cbn.
  rewrite (bool_decide_ext _ (k ∈ map fst rs \/ k = r.1)) by set_solver.
  assert (k <> r.2) as Hne. { intros ->. apply Ew, Ht. set_solver. }
  specialize (IH ltac:(set_solver)). set (m' := foldl rename_file m rs) in *. unfold rename_file.
  destruct (_ !! r.1) as [c|] eqn:Er.
  - rewrite lookup_insert_ne by done. destruct (decide (k = r.1)) as [->|Hnf].
    + rewrite lookup_delete_eq. by rewrite bool_decide_eq_true_2 by by right.
    + rewrite lookup_delete_ne, IH by done. by rewrite (bool_decide_ext (k ∈ map fst rs \/ k = r.1) (k ∈ map fst rs)) by naive_solver.
  - destruct (decide (k = r.1)) as [->|Hnf].
    + rewrite Er. by rewrite bool_decide_eq_true_2 by by right.
    + rewrite IH. by rewrite (bool_decide_ext (k ∈ map fst rs \/ k = r.1) (k ∈ map fst rs)) by naive_solver.
Qed.
End Final.

Section Body.
Context {L : LibGit2} `{!LibGit2Laws L} {J : MsgPack} `{!MsgPackLaws J}.
Context (renames writes : list (string * string)).

Definition removed_entry (t : Tree) (r : string * string) : Tree := delete r.1 t.
Definition written_entry (t : Tree) (w : string * string) : Tree := <[w.1 := entry_of w.1 w.2]> t.
Definition final_tree (t : Tree) : Tree := foldl written_entry (foldl removed_entry t renames) writes.

Lemma final_tree_lookup t k :
  final_tree t !! k =
    match last_write writes k with
    | Some b => Some (entry_of k b)
    | None => if bool_decide (k ∈ froms renames) then None else t !! k
    end.
Proof.
  unfold final_tree, froms. induction writes as [|w ws IH] using rev_ind.
  - cbn. induction renames as [|r rs IH] using rev_ind; [done|]. rewrite foldl_app, map_app. cbn.
    set (t' := foldl removed_entry t rs) in *. unfold removed_entry. destruct (decide (k = r.1)) as [->|Hne].
    + rewrite lookup_delete_eq. by rewrite bool_decide_eq_true_2 by set_solver.
    + rewrite lookup_delete_ne, IH by done. by rewrite (bool_decide_ext (k ∈ map fst rs ++ [r.1]) (k ∈ map fst rs)) by set_solver.
  - rewrite foldl_app, last_write_snoc. cbn.
    set (t' := foldl written_entry _ ws) in *. unfold written_entry.
    destruct (String.eqb_spec w.1 k) as [->|]; [by rewrite lookup_insert_eq|by rewrite lookup_insert_ne].
Qed.

Context (d0 : Disk) (g0 : Git) (saved : Saved) (W : git_wf g0).
Context (Pf : prepared_for d0 g0 (file_changes renames writes) saved).
Context (Htos : forall r, r ∈ renames -> r.2 ∈ map fst writes).
Context (Hclean : forall w, w ∈ writes -> clean w.2 = w.2).
Context (t0 : Tree) (Ht0 : start_tree g0 t0).

Lemma touched_key k : k ∈ froms renames \/ k ∈ map fst writes -> k ∈ keys saved.
Proof.
  intros Hk. apply (pf_paths _ _ _ _ Pf).
  assert (exists v, json_get k (file_changes renames writes) = Some v) as [v Hv].
  { rewrite (proj2 (file_changes_spec renames writes)). destruct (last_write writes k) eqn:E; [by eexists|].
    apply last_write_None in E. destruct Hk as [Hk|Hk]; [|done]. rewrite bool_decide_eq_true_2 by done. by eexists. }
  apply json_get_elem in Hv. apply elem_of_map_id. by eexists (k, v).
Qed.

Lemma final_complete : complete saved (final_tree t0) (final_files renames writes (work d0)).
Proof.
  intros kf Hkf. unfold holds_after. rewrite (pf_after _ _ _ _ Pf _ Hkf).
  rewrite (proj2 (file_changes_spec renames writes)), final_tree_lookup, final_files_lookup by done.
  destruct (last_write writes kf.1) as [b|] eqn:E.
  - split; [|done]. pose proof (Hclean _ (last_write_Some _ _ _ E)) as Hb. cbn in *. rewrite Hb. by apply String.eqb_eq.
  - case_bool_decide; [done|]. split; [done|]. symmetry. by apply (pf_prepared _ _ _ _ Pf).
Qed.

Lemma final_files_outside k : k ∉ keys saved -> final_files renames writes (work d0) !! k = work d0 !! k.
Proof.
  intros Hk. rewrite final_files_lookup by done. destruct (last_write writes k) as [b|] eqn:E.
  - destruct Hk. apply touched_key. right. apply last_write_Some in E. apply elem_of_map_id. by exists (k, b).
  - rewrite bool_decide_eq_false_2; [done|]. intros Hf. apply Hk, touched_key. by left.
Qed.

Lemma changed_work d : changed_files d0 saved d -> work d = final_files renames writes (work d0).
Proof.
  intros [Ho Hc]. apply map_eq. intros k. destruct (decide (k ∈ keys saved)) as [Hk|Hk].
  - apply elem_of_map_id in Hk as (kf & Hkf & ->). rewrite (Hc _ Hkf). symmetry. by apply final_complete.
  - rewrite Ho by done. symmetry. by apply final_files_outside.
Qed.

(** *** The body of the [try] block *)

Let fin := final_tree t0.
Let und := undoable d0 g0 saved.
Let rec := recoverable d0 g0 saved fin.
Let wrk := working d0 g0 saved.

(** Each rename finds its source, in the order of the loop. *)
Fixpoint renames_ok (m : gmap string string) (rs : list (string * string)) : Prop :=
  match rs with
  | [] => True
  | r :: rs => is_Some (m !! r.1) /\ renames_ok (rename_file m r) rs
  end.

Lemma renames_ok_at m pre r rest : renames_ok m (pre ++ r :: rest) -> is_Some (foldl rename_file m pre !! r.1).
Proof.
  revert m. induction pre as [|p pre IH]; cbn; intros m H; destruct H as [Hr H]; [done|]. by apply IH.
Qed.

(** What may be blamed for an exception: the environment, or [x]. *)
Context (x : Prop).
Definition broken (w : World) : Prop := on rec w /\ (x \/ ~ calm w).

Lemma und_broken w : on und w -> x -> broken w.
Proof. intros H Hx. split; [by left|by left]. Qed.

Lemma io_safe_broken {A} I P (m : IO A) Q :
  (forall d, I d -> rec d) -> io_safe I P m Q -> hoare (at_ P) m (fun a => at_ (Q a)) broken.
Proof.
  intros HI Hm. eapply hoare_conseq; [exact Hm|done|done|]. intros w [H1 H2].
  split; [by apply HI|by right].
Qed.

Lemma rename_card_broken t m r :
  r ∈ renames -> x \/ is_Some (m !! r.1) ->
  hoare (at_ (wrk t m)) (rename_card r) (fun _ => at_ (wrk (removed_entry t r) (rename_file m r))) broken.
Proof.
  intros Hr Hx. unfold rename_file. destruct (m !! r.1) as [c|] eqn:Em.
  - apply (io_safe_broken und); [by left|]. apply rename_path_safe; [done| |].
    + apply touched_key. left. apply elem_of_map_id. by exists r.
    + apply touched_key. right. by apply Htos.
  - destruct Hx as [Hx|[? ?]]; [|done]. eapply hoare_bind.
    { apply (io_safe_broken und); [by left|]. apply create_directories_safe, working_undoable. }
    intros []. intros w Hw. unfold bind, fs_rename, attempt.
    assert (on und w) as Hu by by eapply working_undoable.
    destruct (outcomes w (tick w)); cbn;
      rewrite ?(w_files _ _ _ _ _ _ _ Hw : work (disk w) = m), ?Em; by apply und_broken.
Qed.

Lemma renames_broken m :
  x \/ renames_ok m renames ->
  hoare (at_ (wrk t0 m)) (for_each renames rename_card)
    (fun _ => at_ (wrk (foldl removed_entry t0 renames) (foldl rename_file m renames))) broken.
Proof.
  intros Hx. apply (hoare_for_each _ _ (fun pre => at_ (wrk (foldl removed_entry t0 pre) (foldl rename_file m pre)))).
  intros pre r rest Hl. rewrite !foldl_app. cbn [foldl]. apply rename_card_broken; [rewrite Hl; set_solver|].
  destruct Hx as [Hx|Hx]; [by left|right]. rewrite Hl in Hx. by eapply renames_ok_at.
Qed.

Lemma writes_broken t m :
  hoare (at_ (wrk t m)) (for_each writes write_card)
    (fun _ => at_ (wrk (foldl written_entry t writes) (foldl write_file m writes))) broken.
Proof.
  apply (hoare_for_each _ _ (fun pre => at_ (wrk (foldl written_entry t pre) (foldl write_file m pre)))).
  intros pre w rest Hl. rewrite !foldl_app. cbn [foldl].
  apply (io_safe_broken und); [by left|]. apply write_path_safe, touched_key. right.
  rewrite Hl, map_app. set_solver.
Qed.

Lemma safe_blobs_broken project t m :
  x \/ encrypted project = false ->
  hoare (at_ (wrk t m)) (assert_project_staged_blobs_safe project (map fst writes)) (fun _ => at_ (wrk t m)) broken.
Proof.
  intros Hx. unfold assert_project_staged_blobs_safe. destruct (encrypted project); [|by intros w Hw].
  destruct Hx as [Hx|]; [|done]. unfold assert_encryption_index_paths_safe.
  assert (forall w, at_ (wrk t m) w -> broken w) as Hb.
  { intros w Hw. apply und_broken; [by eapply working_undoable|done]. }
  assert (forall (A : Type) (op : IO A) (k : A -> IO unit) Q,
    hoare (at_ (wrk t m)) op (fun a => at_ (fun d c => wrk t m d c /\ Q a d)) (at_ (wrk t m)) ->
    (forall a, hoare (at_ (wrk t m)) (k a) (fun _ => at_ (wrk t m)) broken) ->
    hoare (at_ (wrk t m)) (bind op k) (fun _ => at_ (wrk t m)) broken) as Hbind.
  { intros A op k Q Hop Hk. apply (hoare_bind _ _ _ (fun _ => at_ (wrk t m))); [|exact Hk].
    eapply hoare_conseq; [exact Hop|done| |exact Hb]. by intros a w [Hw _]. }
  eapply Hbind; [apply query_value|]. intros []. eapply Hbind; [apply index_load_value|]. intros i.
  eapply Hbind; [apply query_value|]. intros unsafe.
  apply hoare_when; intros ->; [exact Hb|done].
Qed.

Lemma open_or_init_safe I P :
  (forall d c, P d c -> I d /\ is_Some (git d) /\ P d None) -> io_safe I P open_or_init (fun _ => P).
Proof.
  intros HP w Hw. destruct (HP _ _ Hw) as (HI & [g Hg] & Hn). unfold open_or_init, bind, modify, attempt. cbn.
  destruct (outcomes w (tick w)) as [|l|s] eqn:Ho; cbn; [unfold at_; cbn; by rewrite Hg| |unfold at_; cbn; by rewrite Hg].
  split; [done|]. by apply (not_calm _ (tick w) (Throws l)).
Qed.

Lemma after_journal_broken project message :
  x \/ (renames_ok (work d0) renames /\ encrypted project = false) ->
  hoare (at_ (fun d c => with_journal d0 saved d /\ c = None))
    (reset_index saved ;;; for_each renames rename_card ;;; for_each writes write_card ;;;
     assert_project_staged_blobs_safe project (map fst writes) ;;; commit message ;;;
     preserve_unrelated_index saved ;;; open_or_init)
    (fun _ => at_ (fun d _ => committed d0 g0 saved fin d /\ changed_index d0 saved fin d)) broken.
Proof.
  intros Hx. pose proof (pf_prepared _ _ _ _ Pf) as Pr.
  eapply hoare_bind; [apply (io_safe_broken und); [by left|]; by apply (reset_index_safe d0 g0 saved Pr t0)|].
  intros []. eapply hoare_bind; [apply renames_broken; tauto|]. intros [].
  eapply hoare_bind; [apply writes_broken|]. intros [].
  eapply hoare_bind; [apply safe_blobs_broken; tauto|]. intros [].
  eapply hoare_bind.
  { apply (io_safe_broken und); [by left|].
    apply (commit_safe d0 g0 saved W Pr fin message (final_files renames writes (work d0)) final_complete). }
  intros []. eapply hoare_bind.
  { apply (io_safe_broken (committed d0 g0 saved fin)); [by right|].
    by apply (preserve_index_safe d0 g0 saved Pr fin). }
  intros []. apply (io_safe_broken (committed d0 g0 saved fin)); [by right|].
  apply open_or_init_safe. intros d c Hd. pose proof Hd as [(g & o & _ & Hg & _) _]. split; [apply Hd|].
  split; [by exists g|done].
Qed.

(** When the journal reached the disk before anything else was touched. *)
Lemma change_files_broken project message w w1 :
  disk w = d0 -> cached w = None -> write_journal saved w = (Ok tt, w1) ->
  x \/ (renames_ok (work d0) renames /\ encrypted project = false) ->
  match change_files project saved renames writes message w with
  | (Ok _, w') => committed d0 g0 saved fin (disk w') /\ changed_index d0 saved fin (disk w')
  | (Err _, w') => broken w'
  end.
Proof.
  intros Hd Hc Hj Hx. pose proof (write_journal_safe d0 saved w) as Hw. rewrite Hj in Hw.
  unfold change_files, begin. rewrite bind_assoc. unfold bind at 1. rewrite Hj.
  apply (after_journal_broken project message Hx w1). apply Hw. split; [|done].
  exists (journal_tmp d0). rewrite Hd. by destruct d0.
Qed.
End Body.

(** ** The whole change *)

Section Commit.
Context {L : LibGit2} `{!LibGit2Laws L} {J : MsgPack} `{!MsgPackLaws J}.
Context (renames writes : list (string * string)) (project : Project) (message : string).
Context (d0 : Disk) (g0 : Git) (saved : Saved) (W : git_wf g0).
Context (Pf : prepared_for d0 g0 (file_changes renames writes) saved).
Context (Htos : forall r, r ∈ renames -> r.2 ∈ map fst writes).
Context (Hclean : forall w, w ∈ writes -> clean w.2 = w.2).
Context (t0 : Tree) (Ht0 : start_tree g0 t0).

Let fin := final_tree renames writes t0.

(** How [commit_changes] can end: finished; the database committed but the journal not
    removed; neither committed nor cleaned up; or rolled back. *)
Inductive ending (db new : Db) : result unit -> Disk -> Db -> Prop :=
| ended_ok d : kept d0 g0 saved fin d -> ending db new (Ok tt) (poke JournalFile None d) new
| ended_pending e d : committed d0 g0 saved fin d -> ending db new (Err e) d new
| ended_broken e d : recoverable d0 g0 saved fin d -> ending db new (Err e) d db
| ended_rolled_back e d : restored d0 g0 d -> ending db new (Err e) (poke JournalFile None d) db.

Lemma handler_ending db tx w e :
  recoverable d0 g0 saved fin (disk w) ->
  let '(r, s) := undo_changes saved e (mkStore w db tx) in
  (exists e', r = @Err unit e') /\ st_db s = db /\ forall new, ending db new r (disk (st_world s)) db.
Proof.
  intros Hw. pose proof (rollback_safe d0 g0 saved W (pf_prepared _ _ _ _ Pf) fin w Hw) as H.
  unfold undo_changes, bind, io, throw. cbn [st_world st_db st_tx]. destruct (rollback saved w) as [[[]|e1] w1]; cbn [st_world st_db st_tx].
  - destruct H as (d1 & H1 & Hd). pose proof H1 as (_ & _ & g & Hg & _).
    assert (git (disk w1) = Some g) as Hg1 by by rewrite Hd.
    pose proof (open_or_init_safe (fun d => d = disk w1) (fun d _ => d = disk w1)) as Ho.
    specialize (Ho (fun d c Hdc => conj Hdc (conj (ex_intro _ g (eq_trans (f_equal git Hdc) Hg1)) Hdc)) w1 eq_refl).
    destruct (open_or_init w1) as [[[]|e2] w2]; cbn [st_world st_db st_tx]; (split; [by eexists|]; split; [done|]); intros new.
    + unfold at_ in Ho. rewrite Ho, Hd. by constructor.
    + destruct Ho as [Ho _]. unfold on in Ho. rewrite Ho, Hd. by constructor.
  - split; [by eexists|]. split; [done|]. intros new. constructor. apply H.
Qed.

Lemma finish_ending db new w :
  committed d0 g0 saved fin (disk w) -> changed_index d0 saved fin (disk w) ->
  let '(r, w') := finish w in ending db new r (disk w') new.
Proof.
  intros Hc Hi.
  pose proof (finish_safe (fun d => committed d0 g0 saved fin d /\ changed_index d0 saved fin d) w (conj Hc Hi)) as H.
  destruct (finish w) as [[[]|e] w'].
  - destruct H as (d1 & [(g & c & (_ & H1 & H2 & H3)) H4] & ->). constructor. by exists g, c.
  - constructor. apply H.
Qed.

Lemma commit_changes_ending db new w w1 :
  disk w = d0 -> cached w = None -> write_journal saved w = (Ok tt, w1) ->
  let '(r, s) := commit_changes project saved renames writes message (mkStore w db (Some new)) in
  ending db new r (disk (st_world s)) (st_db s).
Proof.
  intros Hd Hc Hj.
  pose proof (change_files_broken renames writes d0 g0 saved W Pf Htos Hclean t0 Ht0 True
    project message w w1 Hd Hc Hj (or_introl Logic.I)) as H.
  assert (forall r s, (exists e', r = @Err unit e') /\ st_db s = db /\
      (forall new, ending db new r (disk (st_world s)) db) ->
    let '(r, s) := match r with Ok _ => io finish s | Err e => (Err e, s) end in
    ending db new r (disk (st_world s)) (st_db s)) as Hh.
  { intros r s ((e' & ->) & -> & He). apply He. }
  unfold commit_changes, try_catch. unfold bind at 1.
  unfold bind at 1, io at 1. cbn [st_world st_db st_tx].
  destruct (change_files project saved renames writes message w) as [[[]|e] w'].
  - destruct H as [Hcm Hi]. unfold commit_tx, bind at 1, io at 1, attempt. cbn [st_world st_db st_tx].
    destruct (outcomes w' (tick w')) as [|l|l] eqn:Ho; cbn [mret modify st_world st_db st_tx].
    + pose proof (finish_ending db new (advance w') Hcm Hi) as Hf. unfold io. cbn [st_world st_db st_tx].
      by destruct (finish (advance w')) as [r1 w2].
    + pose proof (handler_ending db (Some new) (advance w') (Runtime "COMMIT")) as He.
      specialize (He (or_intror Hcm)). destruct (undo_changes saved (Runtime "COMMIT") (mkStore (advance w') db (Some new))) as [r s]. by apply Hh.
    + pose proof (finish_ending db new (advance w') Hcm Hi) as Hf. unfold io. cbn [st_world st_db st_tx].
      by destruct (finish (advance w')) as [r1 w2].
  - pose proof (handler_ending db (Some new) w' e (proj1 H)) as He.
    destruct (undo_changes saved e (mkStore w' db (Some new))) as [r s]. by apply Hh.
Qed.
End Commit.

(** ** Recovery, as often as it takes *)

Section Recovery.
Context {L : LibGit2} {J : MsgPack}.

(** What the next process does with a journal ([Rebuilder::rebuild_project] and
    [ProjectImport] call both halves around their own work). *)
Definition recover : IO unit := recover_files ;;; finish_recovery.

(** What any number of recoveries, each cut short anywhere or not, can make of a disk. *)
Inductive interrupted : Disk -> Disk -> Prop :=
| interrupted_none d : interrupted d d
| interrupted_once w d : interrupted (disk (snd (recover w))) d -> interrupted (disk w) d.

(** A recovery that nothing disturbs. *)
Definition settle (d : Disk) : result unit * Disk :=
  let '(r, w) := recover (mkWorld d None (fun _ => Works) 0) in (r, disk w).

Lemma env_recover o : preserves (env o) recover.
Proof. unfold recover, finish_recovery. keeps. Qed.

Context (I R : Disk -> Prop).
Context (Hrec : io_safe I (fun d _ => I d) recover_files (fun _ d _ => R d /\ I d)).

(** In progress, or done. *)
Definition settling (d : Disk) : Prop := I d \/ exists d1, R d1 /\ d = poke JournalFile None d1.

Lemma recover_settling :
  io_safe settling (fun d _ => settling d) recover
    (fun _ d _ => exists d1, R d1 /\ d = poke JournalFile None d1).
Proof.
  intros w [Hw|(d1 & H1 & Hw)].
  - assert (io_safe I (fun d _ => I d) recover (fun _ d _ => exists d1, R d1 /\ d = poke JournalFile None d1)) as H.
    { eapply io_safe_bind; [apply Hrec|]. intros [].
      eapply io_safe_weaken; [apply (finish_safe (fun d => R d /\ I d))|by intros d [_ ?]|done|].
      intros [] d c (d1 & [H _] & ->). by exists d1. }
    specialize (H w Hw). destruct (recover w) as [[u|e] w']; [done|]. destruct H. by split; [left|].
  - assert (io_safe settling (fun d _ => d = disk w) recover (fun _ d _ => d = disk w)) as H.
    { assert (forall d (c : option Index), d = disk w -> settling d) as HI.
      { intros d _ ->. right. by exists d1. }
      assert (forall d (c : option Index), d = disk w -> bool_decide (is_Some (peek JournalFile d)) = false) as Hj.
      { intros d _ ->. by rewrite Hw. }
      apply (io_safe_bind _ _ _ _ (fun _ d _ => d = disk w)).
      - apply (exists_known _ _ false); [done|done|]. by intros w' Hw'.
      - intros []. apply (exists_known _ _ false); [done|done|]. by intros w' Hw'. }
    specialize (H w eq_refl). destruct (recover w) as [[u|e] w']; [|exact H].
    exists d1. split; [done|]. by rewrite <- Hw.
Qed.

Lemma interrupted_settling d d' : interrupted d d' -> settling d -> settling d'.
Proof.
  induction 1 as [d|w d H IH]; [done|]. intros Hs. apply IH.
  pose proof (recover_settling w Hs) as Hw. destruct (recover w) as [[u|e] w']; [by right|apply Hw].
Qed.

Lemma settle_settling d :
  settling d -> exists d1, R d1 /\ settle d = (Ok tt, poke JournalFile None d1).
Proof.
  intros Hd. unfold settle. set (w := mkWorld d None (fun _ => Works) 0).
  pose proof (recover_settling w Hd) as Hw. pose proof (env_recover (fun _ => Works) w eq_refl) as He.
  destruct (recover w) as [[[]|e] w'].
  - destruct Hw as (d1 & H1 & Hd1). exists d1. by rewrite <- Hd1.
  - destruct Hw as [_ Hc]. destruct Hc. intros n. unfold env in He. cbn in He. by rewrite He.
Qed.
End Recovery.
End CardStoreFacts.

Module CardStoreTheorems.
Import CardStoreChanges CardStoreFacts DiskFacts CardMutationFacts.

(** As before the change. *)
Definition unchanged (d0 d : Disk) : Prop :=
  work d = work d0 /\ index_file d = index_file d0 /\ journal_file d = None /\
  refs <$> git d = refs <$> git d0 /\ head <$> git d = head <$> git d0.

Definition head_files (g : Git) : Tree :=
  match head_id g with
  | Some o => match commits g !! o with Some c => commit_tree c | None => ∅ end
  | None => ∅
  end.

Section Changed.
Context {L : LibGit2} (renames writes : list (string * string)) (g0 : Git).

(** The commit of a change: on top of what HEAD was, its tree with the changed files. *)
Definition change_commit : Commit :=
  mkCommit (match head_id g0 with Some o => [o] | None => [] end)
    (final_tree renames writes (head_files g0)).

(** The files are the new ones, HEAD's branch is at the change's commit and nowhere else
    has a reference moved; the index is what was staged before, except for the paths of
    the operation. *)
Record changed (paths : list string) (d0 d : Disk) : Prop := {
  c_work : work d = final_files renames writes (work d0);
  c_commit : exists g o, git d = Some g /\ head_id g = Some o /\ commits g !! o = Some change_commit /\
    refs g = refs (set_ref (head_name g0) o g0);
  c_index : exists i i', index_parse (index_file d0) = Some i /\ index_parse (index_file d) = Some i' /\
    forall k, entries i' !! k =
      if bool_decide (k ∈ paths) then final_tree renames writes (head_files g0) !! k else entries i !! k;
  c_journal : journal_file d = None
}.
End Changed.

(** ** Reading the endings *)

Section Endings.
Context {L : LibGit2} `{!LibGit2Laws L} {J : MsgPack} `{!MsgPackLaws J}.
Context (renames writes : list (string * string)) (project : Project) (message : string).
Context (d0 : Disk) (g0 : Git) (saved : Saved) (W : git_wf g0).
Context (Pf : prepared_for d0 g0 (file_changes renames writes) saved).
Context (Htos : forall r, r ∈ renames -> r.2 ∈ map fst writes).
Context (Hclean : forall w, w ∈ writes -> clean w.2 = w.2).

Lemma head_files_start : start_tree g0 (head_files g0).
Proof.
  unfold start_tree, head_files. pose proof (g_head _ W) as H. destruct (head_id g0) as [o|]; [|done].
  destruct (H o eq_refl) as [C HC]. rewrite HC. by exists C.
Qed.

Let fin := final_tree renames writes (head_files g0).

Lemma kept_changed d :
  kept d0 g0 saved fin d -> changed renames writes g0 (map fst (saved_files saved)) d0 (poke JournalFile None d).
Proof.
  intros (g & c & Hg & Hl & Hf & (i & Hi & Hi')). split.
  - exact (changed_work renames writes d0 g0 saved Pf Htos Hclean (head_files g0) d Hf).
  - exists g, c. split; [done|]. split; [by apply (landed_tip d0 g0 saved W (pf_prepared _ _ _ _ Pf) fin)|].
    split; [apply Hl|apply Hl].
  - exists i, (take_paths fin (saved_files saved) i). split; [done|]. split; [done|].
    intros k. apply take_paths_lookup.
  - done.
Qed.

Lemma restored_unchanged d : restored d0 g0 d -> unchanged d0 (poke JournalFile None d).
Proof.
  intros (H1 & H2 & g & Hg & [Hr Hh _]). split; [done|]. split; [done|]. split; [done|].
  cbn. rewrite Hg, (p_git _ _ _ (pf_prepared _ _ _ _ Pf)). cbn. by rewrite Hr, Hh.
Qed.

(** Recovery from a disk in progress, however often it is cut short. *)
Lemma recovered_either d d' :
  recoverable d0 g0 saved fin d -> interrupted d d' ->
  exists d2, settle d' = (Ok tt, d2) /\
    (unchanged d0 d2 \/ changed renames writes g0 (map fst (saved_files saved)) d0 d2).
Proof.
  intros Hd Hi.
  pose proof (recover_files_safe d0 g0 saved W (pf_prepared _ _ _ _ Pf) fin) as Hrec.
  destruct (settle_settling _ _ Hrec d') as (d1 & [H1|H1] & Hs).
  - apply (interrupted_settling _ _ Hrec d d' Hi). by left.
  - eexists. split; [exact Hs|]. left. by apply restored_unchanged.
  - eexists. split; [exact Hs|]. right. by apply kept_changed.
Qed.

Lemma recovered_changed d d' :
  (exists g c, done_by d0 g0 saved fin g c d) \/ (exists d1, kept d0 g0 saved fin d1 /\ d = poke JournalFile None d1) ->
  interrupted d d' ->
  exists d2, settle d' = (Ok tt, d2) /\ changed renames writes g0 (map fst (saved_files saved)) d0 d2.
Proof.
  intros Hd Hi.
  assert (io_safe (committed d0 g0 saved fin) (fun d _ => committed d0 g0 saved fin d) recover_files
    (fun _ d _ => kept d0 g0 saved fin d /\ committed d0 g0 saved fin d)) as Hrec.
  { intros w (g & c & Hw). eapply (io_safe_weaken _ _ _ (fun d _ => done_by d0 g0 saved fin g c d));
      [apply (recover_files_committed d0 g0 saved W (pf_prepared _ _ _ _ Pf) fin g c)| |done| |exact Hw].
    - intros d1 H1. by exists g, c.
    - intros _ d1 k [H1 H2]. split; [done|]. by exists g, c. }
  destruct (settle_settling _ _ Hrec d') as (d1 & H1 & Hs).
  - apply (interrupted_settling _ _ Hrec d d' Hi). exact Hd.
  - eexists. split; [exact Hs|]. by apply kept_changed.
Qed.

Lemma recovered_unchanged d1 d' :
  restored d0 g0 d1 -> interrupted (poke JournalFile None d1) d' ->
  exists d2, settle d' = (Ok tt, d2) /\ unchanged d0 d2.
Proof.
  intros Hd Hi.
  assert (io_safe (fun _ => False) (fun _ _ => False) recover_files
    (fun _ d _ => restored d0 g0 d /\ False)) as Hrec by by intros w Hw.
  destruct (settle_settling _ _ Hrec d') as (d2 & H1 & Hs).
  - apply (interrupted_settling _ _ Hrec _ d' Hi). right. by exists d1.
  - eexists. split; [exact Hs|]. by apply restored_unchanged.
Qed.

Lemma env_change_files o : preserves (env o) (change_files project saved renames writes message).
Proof.
  unfold change_files, begin, rename_card, write_card, assert_project_staged_blobs_safe,
    assert_encryption_index_paths_safe. keeps.
Qed.

(** Nothing goes wrong of itself. *)
Lemma commit_changes_calm db new w w1 :
  disk w = d0 -> cached w = None -> write_journal saved w = (Ok tt, w1) -> calm w ->
  renames_ok (work d0) renames -> encrypted project = false ->
  fst (commit_changes project saved renames writes message (mkStore w db (Some new))) = Ok tt.
Proof.
  intros Hd Hc Hj Hcalm Hr He.
  pose proof (change_files_broken renames writes d0 g0 saved W Pf Htos Hclean (head_files g0) head_files_start
    False project message w w1 Hd Hc Hj (or_intror (conj Hr He))) as H.
  pose proof (env_change_files (outcomes w) w eq_refl) as Ho.
  unfold commit_changes, try_catch, commit_tx, bind, io, attempt. cbn [st_world st_db st_tx].
  destruct (change_files project saved renames writes message w) as [[[]|e] w'].
  - unfold env in Ho. cbn in Ho. cbn [st_world st_db st_tx]. rewrite Ho, Hcalm. cbn [mret modify st_world st_db st_tx].
    pose proof (finish_safe (fun _ => True) (advance w') Logic.I) as Hf.
    pose proof (env_finish (outcomes w) (advance w') Ho) as Hof.
    destruct (finish (advance w')) as [[[]|e] w2]; [done|]. destruct Hf as [_ Hf].
    destruct Hf. intros n. unfold env in Hof. cbn in Hof. by rewrite Hof.
  - destruct H as [_ [[]|H]]. destruct H. intros n. unfold env in Ho. cbn in Ho. by rewrite Ho.
Qed.
End Endings.

(** C1: once a change of several cards is prepared and its journal is written, it is atomic.
    Whatever the environment does from then on (calls that throw, writes cut short, the
    process dying anywhere, even during the rollback) and however often recovery is cut
    short after that, one undisturbed recovery leaves the files, the index and the
    references either exactly as they were or exactly as the change meant them, and the
    committed database never runs ahead of the files. A change that returns has been made;
    one that throws and leaves no journal has left everything as it was. Undisturbed, in a
    plain project and with renames that find their files ([renames_ok]),
    the change returns. It is assumed that [prepare] and [write_journal] returned, since the
    rollback of a change without a journal can lose a card
    ([unjournaled_rollback_loses_card]), and that Git does not alter the bytes it stages. *)
Theorem card_changes_atomic {L : LibGit2} {J : MsgPack}
    (project : Project) (message : string) (paths : list string) (renames writes : list (string * string))
    (g0 : Git) (w0 w w1 : World) (saved : Saved) (db new : Db) :
  LibGit2Laws L -> MsgPackLaws J ->
  git (disk w0) = Some g0 -> git_wf g0 -> cached w0 = None ->
  (forall r, r ∈ renames -> r.2 ∈ map fst writes) ->
  (forall f, f ∈ writes -> clean f.2 = f.2) ->
  prepare paths (file_changes renames writes) w0 = (Ok saved, w) ->
  write_journal saved w = (Ok tt, w1) ->
  let '(r, s) := commit_changes project saved renames writes message (mkStore w db (Some new)) in
  let d := disk (st_world s) in
  let is_changed := changed renames writes g0 (map fst (saved_files saved)) (disk w0) in
  (r = Ok tt -> st_db s = new /\ is_changed d) /\
  (r <> Ok tt -> journal_file d = None -> st_db s = db /\ unchanged (disk w0) d) /\
  (forall d', interrupted d d' -> exists d2, settle d' = (Ok tt, d2) /\
     ((st_db s = db /\ unchanged (disk w0) d2) \/
      ((st_db s = db \/ st_db s = new) /\ is_changed d2))) /\
  (calm w0 -> renames_ok (work (disk w0)) renames -> encrypted project = false -> r = Ok tt).
Proof.
  intros HL HJ Hg W Hc Htos Hclean Hprep Hj.
  pose proof (prepare_value (disk w0) (fun d c => d = disk w0 /\ c = None) ltac:(by intros d c [? _])
    g0 paths _ Hg (proj1 (file_changes_spec renames writes)) w0 (conj eq_refl Hc)) as Hp.
  pose proof (env_prepare (outcomes w0) paths (file_changes renames writes) w0 eq_refl) as Ho.
  rewrite Hprep in Hp, Ho. destruct Hp as [[Hd Hcw] Pf].
  pose proof (head_files_start g0 W) as Ht0.
  pose proof (commit_changes_ending renames writes project message (disk w0) g0 saved W Pf Htos Hclean
    (head_files g0) Ht0 db new w w1 Hd Hcw Hj) as He.
  pose proof (commit_changes_calm renames writes project message (disk w0) g0 saved W Pf Htos Hclean
    db new w w1 Hd Hcw Hj) as Hcalm.
  destruct (commit_changes _ _ _ _ _ _) as [r s]. cbn zeta. cbn in Hcalm.
  split; [|split; [|split]].
  - intros ->. inversion He as [d1 Hk| | |]. split; [done|]. by apply kept_changed.
  - intros Hr Hn. inversion He as [d1 Hk|e d1 Hk|e d1 Hk|e d1 Hk]; subst; [done| | |].
    + destruct Hk as (g & c & Hk & _). congruence.
    + apply recoverable_journal in Hk. congruence.
    + split; [done|]. by apply (restored_unchanged renames writes _ g0 saved Pf).
  - intros d' Hi. inversion He as [d1 Hk Hr Hd1 Hs|e d1 Hk Hr Hd1 Hs|e d1 Hk Hr Hd1 Hs|e d1 Hk Hr Hd1 Hs].
    + destruct (recovered_changed renames writes (disk w0) g0 saved W Pf Htos Hclean (disk (st_world s)) d') as (d2 & ? & ?);
        [right; by exists d1|done|]. exists d2. split; [done|]. right. split; [by right|done].
    + destruct (recovered_changed renames writes (disk w0) g0 saved W Pf Htos Hclean (disk (st_world s)) d') as (d2 & ? & ?);
        [by left|done|]. exists d2. split; [done|]. right. split; [by right|done].
    + destruct (recovered_either renames writes (disk w0) g0 saved W Pf Htos Hclean (disk (st_world s)) d') as (d2 & ? & [?|?]);
        [done|done| |]; exists d2; (split; [done|]); [left|right]; (split; [|done]); [done|by left].
    + rewrite <- Hd1 in Hi.
      destruct (recovered_unchanged renames writes (disk w0) g0 saved Pf d1 d' Hk Hi) as (d2 & ? & ?).
      exists d2. split; [done|]. by left.
  - intros Hcm Hr Hen. rewrite <- Hd in Hr. apply Hcalm; [|by rewrite <- Hd|done].
    intros n. unfold env in Ho. cbn in Ho. by rewrite Ho.
Qed.

(** A card of two on its way to the trash, with unrelated work staged; the process dies
    at the twenty-fifth call. *)
Import ReferenceGit.
Definition live_path : string := "cards/ab/cd/abcd.md".
Definition trash_path : string := "trash/cards/ab/cd/abcd.md".
Definition sample_tree : Tree :=
  {[live_path := mkEntry 33188 "old"; "cards/ef/gh/efgh.md" := mkEntry 33188 "other"]}.
Definition sample_git : Git :=
  mkGit ∅ {["c0" := mkCommit [] sample_tree]} {["refs/heads/main" := "c0"]} (Branch "refs/heads/main") ∅.
Definition sample_disk : Disk :=
  mkDisk {[live_path := "old"; "cards/ef/gh/efgh.md" := "other"; "notes" := "mine"]}
    (Some (to_text (mkIndex (<["notes" := mkEntry 33188 "mine"]> sample_tree) ∅))) None None (Some sample_git) ∅.
Definition dies_at (k : nat) : nat -> Outcome := fun n => if Nat.ltb n k then Works else Throws None.
Definition sample_world (o : nat -> Outcome) : World := mkWorld sample_disk None o 0.
Definition sample_renames : list (string * string) := [(live_path, trash_path)].
Definition sample_writes : list (string * string) := [(trash_path, "trashed")].
Definition sample_db : Db := core_db [] [] [] [] [] [].
Definition sample_project : Project := mkProject "p" "Notes" "/p" None None "plain" None Uuid4 0 0.

Definition sample_saved (k : nat) : result Saved * World :=
  prepare [live_path; trash_path] (file_changes sample_renames sample_writes) (sample_world (dies_at k)).

Definition saved_of (k : nat) : Saved :=
  match fst (sample_saved k) with Ok s => s | Err _ => mkSaved 0 [] None None "" end.

Lemma sample_git_wf : git_wf sample_git.
Proof. split; [done|]. intros o H. vm_compute in H. injection H as <-. by eexists. Qed.

Example card_changes_atomic_witness :
  let '(r, s) := commit_changes sample_project (saved_of 25) sample_renames sample_writes "Delete card"
    (mkStore (snd (sample_saved 25)) sample_db (Some sample_db)) in
  fst (settle (disk (st_world s))) = Ok tt.
Proof.
  assert (sample_saved 25 = (Ok (saved_of 25), snd (sample_saved 25))) as H1 by (vm_compute; reflexivity).
  assert (write_journal (saved_of 25) (snd (sample_saved 25)) =
    (Ok tt, snd (write_journal (saved_of 25) (snd (sample_saved 25))))) as H2 by (vm_compute; reflexivity).
  assert (forall r, r ∈ sample_renames -> r.2 ∈ map fst sample_writes) as H3.
  { intros r ->%list_elem_of_singleton. vm_compute. left. }
  pose proof (card_changes_atomic sample_project "Delete card" [live_path; trash_path] sample_renames
    sample_writes sample_git (sample_world (dies_at 25)) _ _ (saved_of 25) sample_db sample_db
    _ _ eq_refl sample_git_wf eq_refl H3 (fun f _ => eq_refl) H1 H2) as H.
  destruct (commit_changes _ _ _ _ _ _) as [r s]. destruct H as (_ & _ & H & _).
  destruct (H _ (interrupted_none _)) as (d2 & -> & _). reflexivity.
Defined.

(** The same, evaluated: cut off before and after the commit, and undisturbed. *)
Definition outcome_at (k : nat) : bool * option string * option string :=
  let s := snd (commit_changes sample_project (saved_of k) sample_renames sample_writes "Delete card"
    (mkStore (snd (sample_saved k)) sample_db (Some sample_db))) in
  let d := snd (settle (disk (st_world s))) in
  (pending (disk (st_world s)), work d !! live_path, work d !! trash_path).
Example cut_before_the_commit : outcome_at 25 = (true, Some "old", None).
Proof. vm_compute. reflexivity. Qed.
Example cut_after_the_commit : outcome_at 35 = (true, None, Some "trashed").
Proof. vm_compute. reflexivity. Qed.
Example not_cut : outcome_at 100 = (false, None, Some "trashed").
Proof. vm_compute. reflexivity. Qed.

(** The assumption on the journal is needed: when it cannot be written, nothing has been
    changed yet, but [rollback] still rewrites the card's file, and a process that dies
    while it does leaves the file empty and no journal to recover it from. *)
Definition full_disk : nat -> Outcome := fun n =>
  match n with
  | 8%nat => Short ""
  | 12%nat => Throws (Some "")
  | _ => if Nat.ltb n 12 then Works else Throws None
  end.
Example unjournaled_rollback_loses_card :
  match prepare [live_path; trash_path] (file_changes sample_renames sample_writes) (sample_world full_disk) with
  | (Ok saved, w) =>
      let d := disk (st_world (snd (commit_changes sample_project saved sample_renames sample_writes
        "Delete card" (mkStore w sample_db (Some sample_db))))) in
      journal_file d = None /\ work (snd (settle d)) !! live_path = Some ""
  | _ => False
  end.
Proof. vm_compute. split; reflexivity. Qed.
End CardStoreTheorems.
