(* ===== verification/ReferenceYaml.v ===== *)
(** * An instance of the interface to yaml-cpp

    A small YAML library that loads every document it emits, for evaluating the model:
    a document is the encoding of its tree in two letters, and scalars are texts. *)

From stdpp Require Import base list strings numbers countable gmap.
From Stdlib Require Import Ascii SpecFloat.
From S2P Require Import Prelude Double Model Text CardFrontMatter Disk Mutation ReferenceGit.
Import CardFrontMatter CardFrontMatterFacts ReferenceGit.

Module ReferenceYaml.

(** ** Text in two letters *)

Fixpoint letters (l : list bool) : string :=
  match l with [] => "" | b :: l => String (if b : bool then "a" else "b")%char (letters l) end.
Fixpoint of_letters (s : string) : list bool :=
  match s with EmptyString => [] | String c s => Ascii.eqb c "a" :: of_letters s end.
Definition encoded {A} `{Countable A} (a : A) : string := letters (bits_of (encode a)).
Definition decoded {A} `{Countable A} (s : string) : option A :=
  match of_bits (of_letters s) with N0 => None | Npos p => decode p end.

Lemma of_letters_letters l : of_letters (letters l) = l.
Proof. induction l as [|[] l IH]; cbn; by rewrite ?IH. Qed.
Lemma decoded_encoded {A} `{Countable A} (a : A) : decoded (encoded a) = Some a.
Proof. unfold decoded, encoded. by rewrite of_letters_letters, of_bits_of, decode_encode. Qed.
Lemma c_str_letters l : c_str (letters l) = letters l.
Proof. induction l as [|[] l IH]; cbn; by rewrite ?IH. Qed.
Lemma letters_no_dash_line l : no_dash_line (letters l).
Proof.
  intros pre post H. exfalso. revert l H. induction pre as [|c pre IH]; intros [|b l] H; try done.
  - by destruct b.
  - injection H as _ H. by apply IH in H.
Qed.

(** ** Doubles *)

Definition of_double (d : double) : list Z :=
  match d with
  | S754_zero s => [0; if s : bool then 1 else 0]
  | S754_infinity s => [1; if s : bool then 1 else 0]
  | S754_nan => [2]
  | S754_finite s m e => [3; if s : bool then 1 else 0; Zpos m; e]
  end.
Definition to_double (l : list Z) : option double :=
  match l with
  | [0; s] => Some (S754_zero (Z.eqb s 1))
  | [1; s] => Some (S754_infinity (Z.eqb s 1))
  | [2] => Some S754_nan
  | [3; s; m; e] => Some (S754_finite (Z.eqb s 1) (Z.to_pos m) e)
  | _ => None
  end.
Lemma to_of_double d : to_double (of_double d) = Some d.
Proof. by destruct d as [[]|[]| |[] m e]. Qed.

(** ** Documents *)

Section NodeInd.
Context (P : YNode -> Prop) (Pnull : P YNull) (Pscalar : forall s, P (YScalar s))
  (Pseq : forall l, Forall P l -> P (YSeq l)) (Pmap : forall l, Forall (fun kv => P kv.2) l -> P (YMap l)).
Fixpoint node_ind (n : YNode) : P n :=
  match n with
  | YNull => Pnull
  | YScalar s => Pscalar s
  | YSeq l => Pseq l ((fix go l := match l return Forall P l with
      | [] => List.Forall_nil _ | x :: l => List.Forall_cons _ _ _ (node_ind x) (go l) end) l)
  | YMap l => Pmap l ((fix go l := match l return Forall (fun kv => P kv.2) l with
      | [] => List.Forall_nil _ | x :: l => List.Forall_cons _ _ _ (node_ind x.2) (go l) end) l)
  end.
End NodeInd.

Section ValueInd.
Context (P : YValue -> Prop) (Pnull : P VNull) (Pstring : forall s, P (VString s)) (Pint : forall z, P (VInt z))
  (Pdouble : forall d, P (VDouble d)) (Pbool : forall b, P (VBool b))
  (Pseq : forall l, Forall P l -> P (VSeq l)) (Pmap : forall l, Forall (fun kv => P kv.2) l -> P (VMap l)).
Fixpoint value_ind (v : YValue) : P v :=
  match v with
  | VNull => Pnull
  | VString s => Pstring s
  | VInt z => Pint z
  | VDouble d => Pdouble d
  | VBool b => Pbool b
  | VSeq l => Pseq l ((fix go l := match l return Forall P l with
      | [] => List.Forall_nil _ | x :: l => List.Forall_cons _ _ _ (value_ind x) (go l) end) l)
  | VMap l => Pmap l ((fix go l := match l return Forall (fun kv => P kv.2) l with
      | [] => List.Forall_nil _ | x :: l => List.Forall_cons _ _ _ (value_ind x.2) (go l) end) l)
  end.
End ValueInd.

Fixpoint node_of (v : YValue) : YNode :=
  match v with
  | VNull => YNull
  | VString s => YScalar s
  | VInt z => YScalar (encoded z)
  | VDouble d => YScalar (encoded (of_double d))
  | VBool b => YScalar (if b then "true" else "false")
  | VSeq l => YSeq (map node_of l)
  | VMap l => YMap (map (fun kv => (kv.1, node_of kv.2)) l)
  end.

Fixpoint tree_of (n : YNode) : gen_tree string :=
  match n with
  | YNull => GenNode 0 []
  | YScalar s => GenLeaf s
  | YSeq l => GenNode 1 (map tree_of l)
  | YMap l => GenNode 2 (map (fun kv => GenNode 3 [GenLeaf kv.1; tree_of kv.2]) l)
  end.
Fixpoint of_tree (t : gen_tree string) : YNode :=
  match t with
  | GenLeaf s => YScalar s
  | GenNode 1 l => YSeq (map of_tree l)
  | GenNode 2 l => YMap (map (fun t => match t with
      | GenNode _ [GenLeaf k; v] => (k, of_tree v) | _ => ("", YNull) end) l)
  | GenNode _ _ => YNull
  end.
Lemma of_tree_of n : of_tree (tree_of n) = n.
Proof.
  induction n as [|s|l IH|l IH] using node_ind; cbn; [done|done| |]; f_equal; rewrite map_map;
    induction IH as [|x l Hx _ IH]; cbn; [done| |done|]; rewrite IH, Hx; [done|by destruct x].
Qed.

#[export] Instance reference_yaml : Yaml := {|
  yaml_load s := option_map of_tree (decoded s);
  as_string n := match n with YScalar s => Some s | _ => None end;
  as_int64 n := match n with YScalar s => decoded s | _ => None end;
  as_double n := match n with YScalar s => match decoded s with Some l => to_double l | None => None end | _ => None end;
  as_bool n := match n with
    | YScalar s => if String.eqb s "true" then Some true else if String.eqb s "false" then Some false else None
    | _ => None end;
  yaml_emit v := encoded (tree_of (node_of v))
|}.

Lemma node_matches v : matches v (node_of v).
Proof.
  induction v as [|s|z|d|b|l IH|l IH] using value_ind; cbn [node_of]; constructor; try done.
  - apply decoded_encoded.
  - cbn. by rewrite decoded_encoded, to_of_double.
  - by destruct b.
  - induction IH; constructor; done.
  - induction IH; constructor; done.
Qed.

Lemma reference_yaml_loads_back l : loads_back (VMap l).
Proof.
  unfold loads_back. cbn [yaml_emit reference_yaml]. unfold encoded. rewrite c_str_letters.
  split; [apply letters_no_dash_line|].
  exists (map (fun kv => (kv.1, node_of kv.2)) l). split.
  - change (yaml_load ?s) with (option_map of_tree (decoded s)).
    change (letters (bits_of (encode ?t))) with (encoded t). rewrite decoded_encoded. cbn [option_map].
    by rewrite of_tree_of.
  - apply (node_matches (VMap l)).
Qed.
End ReferenceYaml.
