(* ===== verification/Json.v ===== *)
(** * JSON values

    What the program uses of nlohmann::json: values and their members. Text and numbers are
    the library's business and belong to the class [JsonLib], whose laws say that a value
    that was printed is read back. *)

From stdpp Require Import base list strings numbers sorting.
From Stdlib Require Import Ascii.
From S2P Require Import Prelude Double Model Text CardFrontMatter.

(** An object holds its members in key order. *)
Inductive Json :=
| JNull
| JBool (b : bool)
| JInt (z : Z)
| JFloat (d : double)
| JString (s : string)
| JArray (l : list Json)
| JObject (l : list (string * Json)).

Definition int64 (z : Z) : Prop := - 2 ^ 63 <= z < 2 ^ 63.
Definition int32 (z : Z) : Prop := - 2 ^ 31 <= z < 2 ^ 31.

(** [dump(indent)] (it throws on text that is not UTF-8), [parse], and [get<long long>()]
    and [get<int>()], which convert between kinds of numbers. *)
Class JsonLib := {
  json_dump : option nat -> Json -> result string;
  json_parse : string -> result Json;
  get_int64 : Json -> result Z;
  get_int : Json -> result Z
}.

(** Keys in strict order, and integers of 64 bits, as the library keeps them. *)
Inductive canonical : Json -> Prop :=
| canonical_null : canonical JNull
| canonical_bool b : canonical (JBool b)
| canonical_int z : int64 z -> canonical (JInt z)
| canonical_float d : canonical (JFloat d)
| canonical_string s : canonical (JString s)
| canonical_array l : Forall canonical l -> canonical (JArray l)
| canonical_object l : StronglySorted (fun a b => str_ltb a.1 b.1 = true) l ->
    Forall (fun kv => canonical kv.2) l -> canonical (JObject l).

Class JsonLaws (N : JsonLib) : Prop := {
  parse_dump : forall i v s, canonical v -> json_dump i v = Ok s -> json_parse s = Ok v;
  parse_dump_line : forall i v s, canonical v -> json_dump i v = Ok s -> json_parse (s +:+ CardFrontMatter.lf) = Ok v;
  parse_empty : forall v, json_parse "" <> Ok v;
  get_int64_int : forall z, int64 z -> get_int64 (JInt z) = Ok z;
  get_int_int : forall z, int32 z -> get_int (JInt z) = Ok z
}.

Module Json.

Definition type_error : error := Runtime "[json.exception.type_error]".
Definition out_of_range : error := Runtime "[json.exception.out_of_range]".

(** A braced list of members: the object holds them by key. *)
Definition by_key {A} : string * A -> string * A -> bool := fun a b => str_ltb a.1 b.1.
Definition object (l : list (string * Json)) : Json := JObject (sort_by by_key l).

Fixpoint find_member (key : string) (l : list (string * Json)) : option Json :=
  match l with
  | [] => None
  | (k, v) :: l => if String.eqb k key then Some v else find_member key l
  end.
(** [value.at(key)] *)
Definition at_key (key : string) (v : Json) : result Json :=
  match v with
  | JObject l => match find_member key l with Some v => Ok v | None => Err out_of_range end
  | _ => Err type_error
  end.
Definition is_object (v : Json) : bool := match v with JObject _ => true | _ => false end.
(** [get<std::string>()] *)
Definition get_string (v : Json) : result string :=
  match v with JString s => Ok s | _ => Err type_error end.
Fixpoint map_result {A B} (f : A -> result B) (l : list A) : result (list B) :=
  match l with
  | [] => Ok []
  | x :: l => let? y := f x in let? r := map_result f l in Ok (y :: r)
  end.
(** The elements of a value that [is_array()]. *)
Definition elements (v : Json) : option (list Json) := match v with JArray l => Some l | _ => None end.
(** [get<std::vector<X>>()] and [get<std::map<std::string, X>>()] *)
Definition get_vector {A} (f : Json -> result A) (v : Json) : result (list A) :=
  match v with JArray l => map_result f l | _ => Err type_error end.
Definition get_map {A} (f : Json -> result A) (v : Json) : result (list (string * A)) :=
  match v with
  | JObject l => map_result (fun kv => let? x := f kv.2 in Ok (kv.1, x)) l
  | _ => Err type_error
  end.
(** [json(map)] *)
Definition of_map {A} (f : A -> Json) (l : list (string * A)) : Json :=
  JObject (map (fun kv => (kv.1, f kv.2)) l).
Definition of_strings (l : list string) : Json := JArray (map JString l).

Lemma map_result_ok {A B} (f : A -> result B) (g : A -> B) l :
  (forall x, x ∈ l -> f x = Ok (g x)) -> map_result f l = Ok (map g l).
Proof.
  induction l as [|x l IH]; intros H; [done|]. cbn [map_result map].
  rewrite (H x) by (by left). cbn [rbind]. rewrite IH; [done|]. intros y Hy. apply H. by right.
Qed.
Lemma map_result_map {A B C} (f : B -> result C) (g : A -> B) l :
  map_result f (map g l) = map_result (fun x => f (g x)) l.
Proof. induction l as [|x l IH]; cbn; by rewrite ?IH. Qed.

(** A member of an object is found by its key. *)
Lemma get_of_map {A} (to : A -> Json) (from : Json -> result A) l :
  (forall x, from (to x) = Ok x) -> get_map from (of_map to l) = Ok l.
Proof.
  intros H. cbn. rewrite map_result_map, (map_result_ok _ id); [by rewrite map_id|].
  intros [k x] _. cbn. by rewrite H.
Qed.
Lemma get_of_strings l : get_vector get_string (of_strings l) = Ok l.
Proof. cbn. rewrite map_result_map, (map_result_ok _ id); [by rewrite map_id|done]. Qed.

Definition key_sorted {A} (l : list (string * A)) : Prop :=
  StronglySorted (fun a b => str_ltb a.1 b.1 = true) l.
Lemma canonical_of_map {A} (to : A -> Json) l :
  key_sorted l -> (forall x, canonical (to x)) -> canonical (of_map to l).
Proof.
  intros Hs Ht. constructor.
  - induction Hs as [|x l Hs IH Hx]; cbn; constructor; [done|]. by apply Forall_map.
  - apply Forall_map, Forall_true. intros x. apply Ht.
Qed.
Lemma canonical_strings l : canonical (of_strings l).
Proof. constructor. apply Forall_map, Forall_true. constructor. Qed.

End Json.

(** [at_key] of an object that is written out. *)
Ltac find_member_in k l :=
  lazymatch l with
  | (k, ?v) :: _ => v
  | _ :: ?t => find_member_in k t
  end.
Ltac member :=
  match goal with
  | |- context [Json.at_key ?k (Json.object ?l)] =>
      let v := find_member_in k l in change (Json.at_key k (Json.object l)) with (Ok v)
  end.
(** Evaluates the members that a parser asks for, one after the other. *)
Ltac members := repeat (member; cbn [rbind Json.get_string]).

Module JsonFacts.
Import Json.

Lemma object_canonical l :
  bool_decide (NoDup (map fst l)) = true -> Forall (fun kv => canonical kv.2) l -> canonical (object l).
Proof.
  intros Hn%bool_decide_eq_true Hl. unfold object. pose proof (sort_by_perm by_key l) as Hp.
  constructor; [|by rewrite Hp].
  pose proof (sort_by_sorted (cmp_on fst String.compare) l) as Hs.
  change (cmp_ltb (cmp_on (@fst string Json) String.compare)) with (@by_key Json) in Hs.
  rewrite <- Hp in Hn. revert Hs Hn. generalize (sort_by by_key l). clear. intros l Hs.
  induction Hs as [|x l Hs IH Hx]; cbn; intros Hn; [constructor|]. apply NoDup_cons in Hn as [Hn1 Hn].
  constructor; [by apply IH|]. apply list.Forall_forall. intros y Hy. rewrite list.Forall_forall in Hx.
  specialize (Hx y Hy). unfold cmp_le, cmp_on in Hx. unfold str_ltb, cmp_ltb.
  destruct (String.compare x.1 y.1) eqn:Hc; [|done|done]. apply string_compare_eq in Hc.
  exfalso. apply Hn1, elem_of_map_id. by exists y.
Qed.
End JsonFacts.
