(* ===== verification/ReferenceJson.v ===== *)
(** * An instance of the interface to nlohmann::json

    A small JSON library that reads back every value it prints, for evaluating the model:
    a text is the encoding of a tree in two letters. *)

From stdpp Require Import base list strings numbers countable gmap.
From Stdlib Require Import Ascii.
From S2P Require Import Prelude Double Model Text Database CardFrontMatter Json ReferenceGit ReferenceYaml.
Import ReferenceGit ReferenceYaml.

Module ReferenceJson.

Section JsonInd.
Context (P : Json -> Prop) (Pnull : P JNull) (Pbool : forall b, P (JBool b)) (Pint : forall z, P (JInt z))
  (Pfloat : forall d, P (JFloat d)) (Pstring : forall s, P (JString s))
  (Parray : forall l, Forall P l -> P (JArray l))
  (Pobject : forall l, Forall (fun kv => P kv.2) l -> P (JObject l)).
Fixpoint json_ind (v : Json) : P v :=
  match v with
  | JNull => Pnull
  | JBool b => Pbool b
  | JInt z => Pint z
  | JFloat d => Pfloat d
  | JString s => Pstring s
  | JArray l => Parray l ((fix go l := match l return Forall P l with
      | [] => List.Forall_nil _ | x :: l => List.Forall_cons _ _ _ (json_ind x) (go l) end) l)
  | JObject l => Pobject l ((fix go l := match l return Forall (fun kv => P kv.2) l with
      | [] => List.Forall_nil _ | x :: l => List.Forall_cons _ _ _ (json_ind x.2) (go l) end) l)
  end.
End JsonInd.

Fixpoint tree_of (v : Json) : gen_tree (string + list Z) :=
  match v with
  | JNull => GenNode 0 []
  | JBool b => GenNode 1 [GenLeaf (inr [if b : bool then 1 else 0])]
  | JInt z => GenLeaf (inr [z])
  | JFloat d => GenNode 2 [GenLeaf (inr (of_double d))]
  | JString s => GenLeaf (inl s)
  | JArray l => GenNode 3 (map tree_of l)
  | JObject l => GenNode 4 (map (fun kv => GenNode 0 [GenLeaf (inl kv.1); tree_of kv.2]) l)
  end.
Fixpoint of_tree (t : gen_tree (string + list Z)) : Json :=
  match t with
  | GenLeaf (inl s) => JString s
  | GenLeaf (inr [z]) => JInt z
  | GenNode 1 [GenLeaf (inr [z])] => JBool (Z.eqb z 1)
  | GenNode 2 [GenLeaf (inr l)] => match to_double l with Some d => JFloat d | None => JNull end
  | GenNode 3 l => JArray (map of_tree l)
  | GenNode 4 l => JObject (map (fun t => match t with
      | GenNode _ [GenLeaf (inl k); v] => (k, of_tree v) | _ => ("", JNull) end) l)
  | _ => JNull
  end.
Lemma json_of_tree_of v : of_tree (tree_of v) = v.
Proof.
  induction v as [|[]|z|d|s|l IH|l IH] using json_ind; cbn; try done.
  - by rewrite to_of_double.
  - f_equal. rewrite map_map. induction IH as [|x l Hx _ IH]; cbn; [done|]. by rewrite IH, Hx.
  - f_equal. rewrite map_map. induction IH as [|[k x] l Hx _ IH]; cbn; [done|]. cbn in Hx. by rewrite IH, Hx.
Qed.

#[export] Instance reference_json : JsonLib := {|
  json_dump _ v := Ok (encoded (tree_of v));
  json_parse s := match decoded s with Some t => Ok (of_tree t) | None => Err (Runtime "[json.exception.parse_error]") end;
  get_int64 v := match v with JInt z => Ok (wrap_int 64 z) | _ => Err Json.type_error end;
  get_int v := match v with JInt z => Ok (wrap_int 32 z) | _ => Err Json.type_error end
|}.

(** A newline at the end is one more zero bit. *)
Lemma of_letters_line s : of_letters (s +:+ CardFrontMatter.lf) = of_letters s ++ [false].
Proof. induction s as [|c s IH]; [done|]. rewrite append_cons. cbn. by rewrite IH. Qed.
Lemma of_bits_zero l : of_bits (l ++ [false]) = of_bits l.
Proof. induction l as [|b l IH]; cbn; [done|]. by rewrite IH. Qed.
Lemma decoded_line {A} `{Countable A} (s : string) : decoded (A := A) (s +:+ CardFrontMatter.lf) = decoded s.
Proof. unfold decoded. by rewrite of_letters_line, of_bits_zero. Qed.

Lemma wrap_int_id w n : 0 < w -> - 2 ^ (w - 1) <= n < 2 ^ (w - 1) -> wrap_int w n = n.
Proof.
  intros Hw Hn. unfold wrap_int. rewrite Z.mod_small; [lia|].
  replace (2 ^ w) with (2 * 2 ^ (w - 1)) by (rewrite <- Z.pow_succ_r by lia; f_equal; lia). lia.
Qed.

#[export] Instance reference_json_laws : JsonLaws reference_json.
Proof.
  split.
  - intros i v s _ [= <-]. cbn [json_parse reference_json]. by rewrite decoded_encoded, json_of_tree_of.
  - intros i v s _ [= <-]. cbn [json_parse reference_json]. by rewrite decoded_line, decoded_encoded, json_of_tree_of.
  - intros v. by vm_compute.
  - intros z Hz. cbn [get_int64 reference_json]. by rewrite wrap_int_id.
  - intros z Hz. cbn [get_int reference_json]. by rewrite wrap_int_id.
Qed.
End ReferenceJson.
