(* ===== verification/CryptoService.v ===== *)
(** * The envelope of an encrypted text

    [src/src/privacy/CryptoService.cpp]: a text that is encrypted is three lines, the name
    of the format, its metadata in JSON and the cipher text in base64. libsodium is the
    class [Sodium]. *)

From stdpp Require Import base list strings numbers.
From Stdlib Require Import Ascii.
From S2P Require Import Prelude Double Model Text CardFrontMatter Json.
Import CardFrontMatter Json.

(** Base64, authenticated encryption (text, nonce, key) and the random bytes that a call
    draws. *)
Class Sodium := {
  bin2base64 : bytes -> string;
  base642bin : string -> option bytes;
  aead_encrypt : bytes -> bytes -> bytes -> bytes;
  aead_decrypt : bytes -> bytes -> bytes -> option bytes;
  randombytes : nat -> nat -> bytes
}.

(** No line ends inside base64, nor inside a JSON text that is dumped without indentation. *)
Definition one_line (s : string) : Prop :=
  forall c, c ∈ bytes_of s -> c <> newline /\ c <> carriage_return.
Definition kPrivacyKeyBytes : nat := 32.
Definition kNonceBytes : nat := 24.
Definition kAeadBytes : nat := 16.

Class SodiumLaws (S : Sodium) : Prop := {
  base64_round_trip : forall b, base642bin (bin2base64 b) = Some b;
  base64_one_line : forall b, one_line (bin2base64 b);
  aead_round_trip : forall m n k, aead_decrypt (aead_encrypt m n k) n k = Some m;
  aead_length : forall m n k, length (aead_encrypt m n k) = (length m + kAeadBytes)%nat;
  randombytes_length : forall i n, length (randombytes i n) = n
}.
Class JsonLines (N : JsonLib) : Prop := {
  dump_one_line : forall v s, json_dump None v = Ok s -> one_line s
}.

Module CryptoService.

Definition kEnvelopeMagic : string := "HolderPriv1".
Definition kEnvelopeVersion : Z := 1.
Definition kCipherName : string := "xchacha20poly1305".

Record EnvelopeParts := mkParts { pt_key_id : string; pt_iv_b64 : string; pt_ciphertext_b64 : string }.

Definition invalid (what : string) : error := PrivacyError EnvelopeInvalid what.

(** [std::getline]: it fails at the end of the text. *)
Fixpoint take_line (s : string) : string * string :=
  match s with
  | EmptyString => (EmptyString, EmptyString)
  | String c s =>
      if Ascii.eqb c newline then (EmptyString, s)
      else let '(line, rest) := take_line s in (String c line, rest)
  end.
Definition getline (s : string) : option (string * string) :=
  match s with EmptyString => None | _ => Some (take_line s) end.

Fixpoint strip_trailing_carriage_return (line : string) : string :=
  match line with
  | EmptyString => EmptyString
  | String c EmptyString => if Ascii.eqb c carriage_return then EmptyString else line
  | String c s => String c (strip_trailing_carriage_return s)
  end.

(** [value.contains(key)] *)
Definition contains (key : string) (v : Json) : bool :=
  match v with JObject l => bool_decide (is_Some (find_member key l)) | _ => false end.

Section Envelope.
Context {S : Sodium} {N : JsonLib}.

Definition b64_decode (text : string) : result bytes :=
  match base642bin text with
  | Some b => Ok b
  | None => Err (invalid "invalid base64 in privacy envelope")
  end.

Definition next_line (what : string) (s : string) : result (string * string) :=
  match getline s with Some p => Ok p | None => Err (invalid what) end.

(** [!meta.contains(key) || meta.at(key).get<T>() != expected] *)
Definition member_is {A} (get : Json -> result A) (eqb : A -> A -> bool) (key : string) (meta : Json)
    (expected : A) : result bool :=
  if contains key meta then let? v := rbind (at_key key meta) get in Ok (eqb v expected) else Ok false.

Definition parse_meta (meta_line cipher_line : string) : result EnvelopeParts :=
  let? meta := json_parse meta_line in
  if negb (is_object meta) then Err (invalid "privacy envelope metadata is not an object") else
  let? version_ok := member_is get_int Z.eqb "version" meta kEnvelopeVersion in
  if negb version_ok then Err (invalid "unsupported privacy envelope version") else
  let? cipher_ok := member_is get_string String.eqb "cipher" meta kCipherName in
  if negb cipher_ok then Err (invalid "unsupported privacy envelope cipher") else
  if negb (contains "key_id" meta) || negb (contains "iv_b64" meta)
  then Err (invalid "privacy envelope missing key_id or iv_b64") else
  let? key_id := rbind (at_key "key_id" meta) get_string in
  let? iv := rbind (at_key "iv_b64" meta) get_string in
  Ok (mkParts key_id iv cipher_line).

Definition parse_envelope (envelope : string) : result EnvelopeParts :=
  let? p := next_line "invalid privacy envelope magic" envelope in
  if negb (String.eqb (strip_trailing_carriage_return p.1) kEnvelopeMagic)
  then Err (invalid "invalid privacy envelope magic") else
  let? q := next_line "privacy envelope metadata missing" p.2 in
  let? r := next_line "privacy envelope ciphertext missing" q.2 in
  parse_meta (strip_trailing_carriage_return q.1) (strip_trailing_carriage_return r.1).

Definition generate_random_key (call : nat) : bytes := randombytes call kPrivacyKeyBytes.
Definition key_to_base64 (key : bytes) : string := bin2base64 key.
Definition key_from_base64 (b64 : string) : result bytes :=
  let? raw := b64_decode b64 in
  if Nat.eqb (length raw) kPrivacyKeyBytes then Ok raw else Err (invalid "privacy key has wrong length").

(** [call] numbers the call, for the nonce that it draws. *)
Definition encrypt_envelope_v1 (call : nat) (plaintext : string) (key : bytes) (key_id : string) : result string :=
  if String.eqb key_id "" then Err (invalid "privacy key_id must not be empty") else
  let iv := randombytes call kNonceBytes in
  let ciphertext := aead_encrypt (bytes_of plaintext) iv key in
  let? meta := json_dump None (object [("version", JInt kEnvelopeVersion); ("cipher", JString kCipherName);
                                       ("key_id", JString key_id); ("iv_b64", JString (bin2base64 iv))]) in
  Ok (kEnvelopeMagic +:+ lf +:+ meta +:+ lf +:+ bin2base64 ciphertext +:+ lf).

Definition decrypt_envelope_v1 (envelope : string) (key : bytes) (expected_key_id : string) : result string :=
  let? parts := parse_envelope envelope in
  if negb (String.eqb expected_key_id "") && negb (String.eqb (pt_key_id parts) expected_key_id)
  then Err (PrivacyError EnvelopeMetadataMismatch "privacy envelope key_id mismatch") else
  let? iv := b64_decode (pt_iv_b64 parts) in
  if negb (Nat.eqb (length iv) kNonceBytes) then Err (invalid "privacy envelope iv length is invalid") else
  let? ciphertext := b64_decode (pt_ciphertext_b64 parts) in
  if Nat.ltb (length ciphertext) kAeadBytes then Err (invalid "privacy envelope ciphertext is too short") else
  match aead_decrypt ciphertext iv key with
  | Some plaintext => Ok (string_of plaintext)
  | None => Err (invalid "privacy envelope authentication failed")
  end.

End Envelope.
End CryptoService.

Module CryptoFacts.
Import CryptoService.

(** ** Lines *)

Lemma one_line_cons c s : one_line (String c s) -> c <> newline /\ c <> carriage_return /\ one_line s.
Proof.
  intros H. destruct (H c) as [H1 H2]; [by left|]. split; [done|]. split; [done|]. intros d Hd. apply H. by right.
Qed.
Lemma take_line_app s rest : one_line s -> take_line (s +:+ lf +:+ rest) = (s, rest).
Proof.
  induction s as [|c s IH]; intros H; [done|]. rewrite append_cons. cbn.
  apply one_line_cons in H as (H1 & _ & H). destruct (Ascii.eqb_spec c newline); [done|]. by rewrite IH.
Qed.
Lemma next_line_app what s rest : one_line s -> next_line what (s +:+ lf +:+ rest) = Ok (s, rest).
Proof.
  intros H. unfold next_line, getline. rewrite <- (take_line_app s rest H). by destruct s.
Qed.
Lemma strip_one_line s : one_line s -> strip_trailing_carriage_return s = s.
Proof.
  induction s as [|c [|d s] IH]; intros H; [done| |].
  - apply one_line_cons in H as (_ & H & _). cbn. by destruct (Ascii.eqb_spec c carriage_return).
  - apply one_line_cons in H as (_ & _ & H). cbn in *. by rewrite IH.
Qed.

Section Round.
Context {S : Sodium} `{!SodiumLaws S} {N : JsonLib} `{!JsonLaws N} `{!JsonLines N}.

Lemma magic_one_line : one_line kEnvelopeMagic.
Proof. intros c Hc. cbn in Hc. repeat (apply elem_of_cons in Hc as [->|Hc]; [done|]). by inversion Hc. Qed.

Definition envelope_meta (key_id : string) (iv : bytes) : Json :=
  object [("version", JInt kEnvelopeVersion); ("cipher", JString kCipherName);
          ("key_id", JString key_id); ("iv_b64", JString (bin2base64 iv))].
Lemma envelope_meta_canonical key_id iv : canonical (envelope_meta key_id iv).
Proof.
  apply JsonFacts.object_canonical; [done|].
  repeat (apply list.Forall_cons; split; [cbn [snd]; by constructor|]). apply list.Forall_nil_2.
Qed.
Lemma parse_meta_dumped key_id iv line cipher :
  json_dump None (envelope_meta key_id iv) = Ok line ->
  parse_meta line cipher = Ok (mkParts key_id (bin2base64 iv) cipher).
Proof.
  intros Hd. unfold parse_meta.
  rewrite (parse_dump _ _ _ (envelope_meta_canonical key_id iv) Hd). cbn [rbind]. unfold member_is, envelope_meta.
  assert (forall k, k ∈ ["version"; "cipher"; "key_id"; "iv_b64"] -> contains k (envelope_meta key_id iv) = true) as Hc.
  { intros k Hk. repeat (apply elem_of_cons in Hk as [->|Hk]; [reflexivity|]). by inversion Hk. }
  unfold envelope_meta in Hc. rewrite !Hc by (repeat (first [by left|right])). cbn [is_object object negb orb]. members. rewrite get_int_int by done. done.
Qed.

(** What was encrypted is decrypted with the same key, whether or not its id is asked for. *)
Lemma decrypt_encrypt call plaintext key key_id envelope expected :
  encrypt_envelope_v1 call plaintext key key_id = Ok envelope -> expected = key_id \/ expected = "" ->
  decrypt_envelope_v1 envelope key expected = Ok plaintext.
Proof.
  unfold encrypt_envelope_v1. destruct (String.eqb key_id ""); [done|].
  set (iv := randombytes call kNonceBytes). fold (envelope_meta key_id iv).
  destruct (json_dump _ _) as [meta|] eqn:Hd; [|done]. intros [= <-] He.
  unfold decrypt_envelope_v1, parse_envelope.
  rewrite next_line_app by apply magic_one_line. cbn [rbind fst snd].
  rewrite next_line_app by (by eapply dump_one_line). cbn [rbind fst snd].
  assert (forall b, next_line "privacy envelope ciphertext missing" (bin2base64 b +:+ lf) = Ok (bin2base64 b, "")) as Hl.
  { intros b. rewrite <- (append_nil_r lf) at 1. apply next_line_app, base64_one_line. }
  rewrite Hl. cbn [rbind fst snd].
  rewrite (strip_one_line meta) by (by eapply dump_one_line).
  rewrite !strip_one_line by (apply magic_one_line || apply base64_one_line).
  rewrite String.eqb_refl. cbn [negb]. rewrite (parse_meta_dumped _ _ _ _ Hd). cbn [rbind pt_key_id pt_iv_b64 pt_ciphertext_b64].
  assert (negb (String.eqb expected "") && negb (String.eqb key_id expected) = false) as ->.
  { destruct He as [->| ->]; [|done]. rewrite String.eqb_refl. apply andb_false_r. }
  unfold b64_decode. rewrite !base64_round_trip. cbn [rbind]. unfold iv at 1. rewrite randombytes_length, Nat.eqb_refl.
  cbn [negb]. destruct (Nat.ltb_spec (length (aead_encrypt (bytes_of plaintext) iv key)) kAeadBytes) as [Hlt|_].
  { rewrite aead_length in Hlt. lia. }
  by rewrite aead_round_trip, string_of_bytes_of.
Qed.

Lemma encrypt_header call plaintext key key_id envelope :
  encrypt_envelope_v1 call plaintext key key_id = Ok envelope -> String.prefix (kEnvelopeMagic +:+ lf) envelope = true.
Proof.
  unfold encrypt_envelope_v1. destruct (String.eqb key_id ""); [done|].
  destruct (json_dump _ _) as [meta|]; [|done]. intros [= <-]. vm_compute. by destruct meta.
Qed.

(** Only an envelope is decrypted: its first line is the name of the format, and its key id
    the one that is asked for. *)
Lemma decrypt_only_envelopes envelope key key_id plaintext :
  decrypt_envelope_v1 envelope key key_id = Ok plaintext ->
  exists p parts, getline envelope = Some p /\ strip_trailing_carriage_return p.1 = kEnvelopeMagic /\
    parse_envelope envelope = Ok parts /\ (key_id <> "" -> pt_key_id parts = key_id).
Proof.
  unfold decrypt_envelope_v1. destruct (parse_envelope envelope) as [parts|e] eqn:Hp; [|done]. cbn [rbind].
  destruct (_ && _) eqn:Hk; [done|]. intros _. unfold parse_envelope, next_line in Hp.
  destruct (getline envelope) as [p|] eqn:Hg; [|done]. cbn [rbind] in Hp.
  destruct (String.eqb_spec (strip_trailing_carriage_return p.1) kEnvelopeMagic) as [Hm|]; [|done].
  exists p, parts. split; [done|]. split; [done|]. split; [done|]. intros Hne.
  apply andb_false_iff in Hk as [Hk|Hk]; apply negb_false_iff, String.eqb_eq in Hk; [by destruct Hne|done].
Qed.

Lemma key_round_trip key : length key = kPrivacyKeyBytes -> key_from_base64 (key_to_base64 key) = Ok key.
Proof.
  intros H. unfold key_from_base64, key_to_base64, b64_decode. rewrite base64_round_trip. cbn [rbind].
  by rewrite H, Nat.eqb_refl.
Qed.
End Round.
End CryptoFacts.
