(* ===== verification/ProjectKeys.v ===== *)
(** * The keys of encrypted projects

    The part of [src/src/privacy/ProjectPrivacy.cpp] that has to do with keys: the material
    in the keyring of the platform, encrypting and decrypting with it, and the recovery
    token that carries a key to another device under a PIN. The keyring is what a provider
    of [platform_keyring_set_external_provider] is: secrets by project and key id, or
    nothing at all. *)

From stdpp Require Import base list sets strings numbers gmap.
From Stdlib Require Import Ascii.
From S2P Require Import Prelude Double Model Text Database ProjectRepo CardFrontMatter Json CryptoService Disk Privacy.
Import Json CryptoService.

(** OpenSSL: base64 blocks, which decode with their padding as zero bytes, and the key that
    is derived from a PIN, a salt and a number of iterations. *)
Class OpenSsl := {
  encode_block : bytes -> string;
  decode_block : string -> option bytes;
  pbkdf2 : string -> bytes -> Z -> bytes;
  rand_bytes : nat -> nat -> bytes
}.

(** [size_t padding]: up to two [=] at the end of a text. *)
Definition padding (text : string) : nat :=
  match rev (bytes_of text) with
  | "="%char :: "="%char :: _ => 2
  | "="%char :: _ => 1
  | _ => 0
  end.
Class OpenSslLaws (O : OpenSsl) : Prop := {
  block_round_trip : forall b, b <> [] ->
    decode_block (encode_block b) = Some (b ++ replicate (padding (encode_block b)) "000"%char);
  rand_bytes_length : forall i n, length (rand_bytes i n) = n
}.

Module ProjectKeys.

Record Keyring := mkKeyring { secrets : gmap (string * string) string; keyring_supported : bool }.

Definition load_key_material (k : Keyring) (project key_id : string) : result string :=
  if negb (keyring_supported k)
  then Err (PrivacyError KeyringUnavailable
         "platform keyring support not available and HOLDER_TEST_KEYSTORE_DIR not set")
  else match secrets k !! (project, key_id) with
       | Some secret => Ok secret
       | None => Err (PrivacyError KeyMaterialMissing "project key material not found in platform keyring")
       end.

(** What the functions that change keys work on: the keyring and the database. *)
Record KeyState := mkKeyState { keyring : Keyring; key_db : Db }.
Definition store_key_material (project key_id material : string) : M KeyState unit :=
  fun s =>
    if negb (keyring_supported (keyring s))
    then (Err (PrivacyError KeyringUnavailable
            "platform keyring support not available and HOLDER_TEST_KEYSTORE_DIR not set"), s)
    else (Ok tt, mkKeyState (mkKeyring (<[(project, key_id) := material]> (secrets (keyring s))) true) (key_db s)).
Definition in_db {A} (m : Repo A) : M KeyState A :=
  fun s => let '(r, db) := m (key_db s) in (r, mkKeyState (keyring s) db).

(** [std::exception::what()] *)
Definition error_what (e : error) : string :=
  match e with
  | Runtime m | InvalidArgument m | Sqlite m | PrivacyError _ m | StorageError _ m => m
  end.
(** [catch (const PrivacyError&) { throw; } catch (const std::exception& ex) { ... }] *)
Definition as_crypto_failure {A} (what : string) (r : result A) : result A :=
  match r with
  | Ok a => Ok a
  | Err (PrivacyError c m) => Err (PrivacyError c m)
  | Err e => Err (PrivacyError PrivacyCryptoFailed (what +:+ error_what e))
  end.

Section Keys.
Context {S : Sodium} {N : JsonLib} {O : OpenSsl}.

Definition load_project_key_bytes (k : Keyring) (project key_id : string) : result bytes :=
  rbind (load_key_material k project key_id) key_from_base64.

Definition encrypt_with_keyring (k : Keyring) (call : nat) (project key_id plaintext : string) : result string :=
  as_crypto_failure "failed to encrypt project blob: " (
    let? key := load_project_key_bytes k project key_id in
    encrypt_envelope_v1 call plaintext key key_id).
Definition decrypt_with_keyring (k : Keyring) (project key_id envelope : string) : result string :=
  as_crypto_failure "failed to decrypt project blob: " (
    let? key := load_project_key_bytes k project key_id in
    decrypt_envelope_v1 envelope key key_id).

(** The cipher of the stores, with the keys of this device. *)
Definition keyring_privacy (k : Keyring) : Privacy := {|
  encrypt_project_blob := encrypt_with_keyring k;
  decrypt_project_blob := decrypt_with_keyring k
|}.

Definition ensure_project_key_material (call : nat) (uuid project : string) (key_id : option string)
    (updated_at : Z) : M KeyState string :=
  match key_id with
  | Some key =>
      if negb (String.eqb key "") then mret key else
      store_key_material project uuid (key_to_base64 (generate_random_key call)) ;;;
      in_db (ProjectRepo.update_project_key_id project (Some uuid) updated_at) ;;;
      mret uuid
  | None =>
      store_key_material project uuid (key_to_base64 (generate_random_key call)) ;;;
      in_db (ProjectRepo.update_project_key_id project (Some uuid) updated_at) ;;;
      mret uuid
  end.

(** ** Recovery tokens *)

Definition kRecoveryTokenWrapKeyIdV1 : string := "holder-recovery-token-v1".
Definition kdf_iterations : Z := 210000.

(** [b64_decode] of ProjectPrivacy.cpp *)
Definition ssl_b64_decode (text : string) : result bytes :=
  match decode_block text with
  | None => Err (Runtime "EVP_DecodeBlock failed")
  | Some b => Ok (take (length b - padding text) b)
  end.

Record RecoveryTokenMetadata := mkTokenMetadata {
  tk_project_id : string;
  tk_project_key_id : string;
  tk_project_name : option string;
  tk_git_remote_url : option string
}.
Definition opt_json (v : option string) : Json := match v with Some s => JString s | None => JNull end.

Definition token_payload (m : RecoveryTokenMetadata) (material : string) (exported_at : Z) : Json :=
  object [("project_id", JString (tk_project_id m)); ("project_key_id", JString (tk_project_key_id m));
          ("project_key_material_b64", JString material); ("project_name", opt_json (tk_project_name m));
          ("git_remote_url", opt_json (tk_git_remote_url m)); ("exported_at", JInt exported_at)].
Definition token_json (salt : bytes) (wrapped : string) : Json :=
  object [("version", JInt 1);
          ("kdf", object [("name", JString "PBKDF2-HMAC-SHA256"); ("iterations", JInt kdf_iterations);
                          ("salt_b64", JString (encode_block salt))]);
          ("cipher", object [("name", JString "holder-privacy-envelope-v1"); ("wrapped", JString wrapped)])].

Definition export_recovery_token (k : Keyring) (call : nat) (now : Z) (pin : string)
    (m : RecoveryTokenMetadata) : result string :=
  if String.eqb pin "" then Err (Runtime "pin must not be empty") else
  let? material := load_key_material k (tk_project_id m) (tk_project_key_id m) in
  let? _ := key_from_base64 material in
  let salt := rand_bytes call 16 in
  let wrap_key := pbkdf2 pin salt kdf_iterations in
  let? payload := json_dump None (token_payload m material now) in
  let? wrapped := encrypt_envelope_v1 call payload wrap_key kRecoveryTokenWrapKeyIdV1 in
  json_dump None (token_json salt wrapped).

(** [payload.contains(key) && !payload.at(key).is_null()] *)
Definition optional_string (key : string) (payload : Json) : result (option string) :=
  if contains key payload then
    let? v := at_key key payload in
    match v with JNull => Ok None | _ => let? s := get_string v in Ok (Some s) end
  else Ok None.

Definition decrypt_recovery_payload (pin token_text : string) : result (RecoveryTokenMetadata * string) :=
  if String.eqb pin "" then Err (Runtime "pin must not be empty") else
  let? token := json_parse token_text in
  let? version_ok := member_is get_int Z.eqb "version" token 1 in
  if negb version_ok then Err (Runtime "unsupported recovery token version") else
  let? kdf := at_key "kdf" token in
  let? iterations := rbind (at_key "iterations" kdf) get_int in
  let? salt := rbind (rbind (at_key "salt_b64" kdf) get_string) ssl_b64_decode in
  let wrap_key := pbkdf2 pin salt iterations in
  let? wrapped := rbind (rbind (at_key "cipher" token) (at_key "wrapped")) get_string in
  let? decrypted := decrypt_envelope_v1 wrapped wrap_key kRecoveryTokenWrapKeyIdV1 in
  let? payload := json_parse decrypted in
  let? project := rbind (at_key "project_id" payload) get_string in
  let? key_id := rbind (at_key "project_key_id" payload) get_string in
  let? name := optional_string "project_name" payload in
  let? remote := optional_string "git_remote_url" payload in
  let? material := rbind (at_key "project_key_material_b64" payload) get_string in
  Ok (mkTokenMetadata project key_id name remote, material).

(** The two [catch] clauses of the functions that take a token. *)
Definition token_error (e : error) : error :=
  let invalid := PrivacyError RecoveryTokenInvalid ("invalid recovery token: " +:+ error_what e) in
  match e with
  | PrivacyError (EnvelopeInvalid | EnvelopeMetadataMismatch | PrivacyCryptoFailed) _ => invalid
  | PrivacyError _ _ => e
  | _ => invalid
  end.

Definition import_recovery_token (project pin token_text : string) (updated_at : Z) : M KeyState unit :=
  try_catch (
    let* payload := lift (decrypt_recovery_payload pin token_text) in
    let m := payload.1 in
    when (negb (String.eqb (tk_project_id m) project))
      (throw (Runtime "recovery token project_id mismatch")) ;;;
    let* _ := lift (key_from_base64 payload.2) in
    store_key_material project (tk_project_key_id m) payload.2 ;;;
    in_db (ProjectRepo.update_project_key_id project (Some (tk_project_key_id m)) updated_at) ;;;
    match tk_git_remote_url m with
    | Some remote =>
        when (negb (String.eqb remote ""))
          (in_db (ProjectRepo.update_git_remote project (Some remote) updated_at))
    | None => mret tt
    end)
  (fun e => throw (token_error e)).

Definition inspect_recovery_token (pin token_text : string) : result RecoveryTokenMetadata :=
  match decrypt_recovery_payload pin token_text with
  | Ok payload => Ok payload.1
  | Err e => Err (token_error e)
  end.

End Keys.
End ProjectKeys.
