(* ===== verification/AssetEnvelope.v ===== *)
(** * Stored assets

    [src/src/resource/AssetEnvelope.cpp]: the file that is stored for an asset is its
    bytes as they are, or, in an encrypted project, an envelope: a magic line, a header in
    JSON that every chunk authenticates, and the bytes in chunks of 64 KiB through
    libsodium's secretstream. OpenSSL's SHA-256 and secretstream are the class
    [AssetCrypto]. A stream that is written is one call to the environment at its end: the
    file was emptied when it was opened, and what was written before an exception stays. *)

From stdpp Require Import base list strings numbers gmap.
From Stdlib Require Import Ascii.
From S2P Require Import Prelude Double Model Text CardFrontMatter Json CryptoService Disk Privacy ProjectKeys.
Import Disk CardFrontMatter Json CryptoService ProjectKeys.

Class AssetCrypto := {
  sha256_hex : bytes -> string;
  StreamState : Type;
  (** the state and the header that it is initialised with; the call draws the header *)
  init_push : nat -> bytes -> StreamState * bytes;
  (** text, authenticated data, tag *)
  stream_push : StreamState -> bytes -> bytes -> Z -> StreamState * bytes;
  init_pull : bytes -> bytes -> StreamState;
  stream_pull : StreamState -> bytes -> bytes -> option (StreamState * bytes * Z)
}.

Module AssetEnvelope.

Definition kMagic : bytes := bytes_of ("HolderAsset1" +:+ lf).
Definition kChunkSize : nat := 64 * 1024.
Definition HEADERBYTES : nat := 24.
Definition ABYTES : nat := 17.
Definition TAG_FINAL : Z := 3.
Definition kMaxMetadata : Z := 1024 * 1024.

Class AssetCryptoLaws (A : AssetCrypto) := {
  paired : StreamState -> StreamState -> Prop;
  init_header : forall n key, length (snd (init_push n key)) = HEADERBYTES;
  init_paired : forall n key, paired (fst (init_push n key)) (init_pull (snd (init_push n key)) key);
  push_length : forall s m ad tag, length (snd (stream_push s m ad tag)) = (length m + ABYTES)%nat;
  push_pull : forall s s' m ad tag, paired s s' -> 0 <= tag < 256 ->
    exists s2, stream_pull s' (snd (stream_push s m ad tag)) ad = Some (s2, m, tag) /\
      paired (fst (stream_push s m ad tag)) s2
}.

Record FileDigest := mkDigest { dg_byte_size : Z; dg_sha256 : string }.
#[export] Instance digest_eq_dec : EqDecision FileDigest.
Proof. solve_decision. Defined.
Record StagedAsset := mkStaged { sa_encoding : string; sa_plaintext : FileDigest; sa_stored : FileDigest }.

(** [write_u32] and [read_u32]: four bytes, the highest first. *)
Definition byte_of (z : Z) : ascii := ascii_of_N (Z.to_N z).
Definition u32_bytes (value : Z) : bytes :=
  [byte_of (Z.land (Z.shiftr value 24) 255); byte_of (Z.land (Z.shiftr value 16) 255);
   byte_of (Z.land (Z.shiftr value 8) 255); byte_of (Z.land value 255)].
Definition z_of (c : ascii) : Z := Z.of_N (N_of_ascii c).
Definition read_u32 (input : bytes) : result (Z * bytes) :=
  match input with
  | b0 :: b1 :: b2 :: b3 :: rest =>
      Ok (Z.lor (Z.lor (Z.lor (Z.shiftl (z_of b0) 24) (Z.shiftl (z_of b1) 16)) (Z.shiftl (z_of b2) 8)) (z_of b3), rest)
  | _ => Err (Runtime "truncated HolderAsset1 length")
  end.
(** [static_cast<std::uint32_t>] of a size *)
Definition u32_size (b : bytes) : Z := Z.of_nat (length b) mod 2 ^ 32.

(** [input.read], [gcount() != size] *)
Definition read_exactly (n : nat) (what : string) (input : bytes) : result (bytes * bytes) :=
  if Nat.ltb (length input) n then Err (Runtime what) else Ok (take n input, drop n input).

Definition require_key_id (project : Project) : result string := ProjectPrivacy.require_project_key_id project.

(** [operator==] of two JSON values; numbers of different kinds are compared as numbers. *)
Fixpoint json_eqb (a b : Json) : bool :=
  match a, b with
  | JNull, JNull => true
  | JBool x, JBool y => Bool.eqb x y
  | JInt x, JInt y => Z.eqb x y
  | JInt x, JFloat y | JFloat y, JInt x => f64_eqb (f64_of_Z x) y
  | JFloat x, JFloat y => f64_eqb x y
  | JString x, JString y => String.eqb x y
  | JArray l, JArray m =>
      (fix go l m := match l, m with
        | [], [] => true | x :: l, y :: m => json_eqb x y && go l m | _, _ => false end) l m
  | JObject l, JObject m =>
      (fix go l m := match l, m with
        | [], [] => true
        | (j, x) :: l, (k, y) :: m => String.eqb j k && json_eqb x y && go l m
        | _, _ => false end) l m
  | _, _ => false
  end.

Definition authenticated_header (project : Project) (resource asset : string) : result Json :=
  let? key_id := require_key_id project in
  Ok (object [("asset_id", JString asset); ("key_id", JString key_id); ("project_id", JString (project_id project));
              ("resource_id", JString resource); ("version", JInt 1)]).

Section Envelope.
Context {A : AssetCrypto}.

Definition digest (b : bytes) : FileDigest := mkDigest (Z.of_nat (length b)) (sha256_hex b).

Definition verify_digest (actual expected : FileDigest) (label : string) : result unit :=
  if negb (Z.eqb (dg_byte_size actual) (dg_byte_size expected)) ||
     negb (String.eqb (dg_sha256 actual) (dg_sha256 expected))
  then Err (Runtime (label +:+ " integrity check failed")) else Ok tt.

(** A chunk as it is stored: its size and its cipher text. *)
Definition frame (cipher : bytes) : bytes := u32_bytes (u32_size cipher) ++ cipher.

(** The loop of [stage_asset_file]: [current] was read, [rest] was not. [fuel] bounds the
    chunks that are left. *)
Fixpoint push_chunks (fuel : nat) (s : StreamState) (ad current rest : bytes) : bytes :=
  let next := take kChunkSize rest in
  let final := bool_decide (next = []) in
  let '(s, cipher) := stream_push s current ad (if final then TAG_FINAL else 0) in
  match fuel with
  | S fuel => frame cipher ++ (if final then [] else push_chunks fuel s ad next (drop kChunkSize rest))
  | O => frame cipher
  end.
Definition push_all (s : StreamState) (ad plain : bytes) : bytes :=
  push_chunks (length plain) s ad (take kChunkSize plain) (drop kChunkSize plain).

Definition encode_asset (call : nat) (key header plain : bytes) : bytes :=
  let '(s, stream_header) := init_push call key in
  kMagic ++ u32_bytes (u32_size header) ++ header ++ stream_header ++ push_all s header plain.

(** The loop of [recover_asset_file]: what it wrote, and whether it came to the end. [fuel]
    bounds the bytes that are left; without any the length of a chunk cannot be read. *)
Fixpoint pull_chunks (fuel : nat) (s : StreamState) (ad input : bytes) : bytes * result unit :=
  match read_u32 input with
  | Err e => ([], Err e)
  | Ok (cipher_size, input) =>
      if Z.ltb cipher_size (Z.of_nat ABYTES) || Z.ltb (Z.of_nat (kChunkSize + ABYTES)) cipher_size
      then ([], Err (Runtime "invalid HolderAsset1 chunk size"))
      else match read_exactly (Z.to_nat cipher_size) "truncated HolderAsset1 chunk" input with
           | Err e => ([], Err e)
           | Ok (cipher, input) =>
               match stream_pull s cipher ad with
               | None => ([], Err (Runtime "HolderAsset1 authentication failed"))
               | Some (s, plain, tag) =>
                   if negb (Z.eqb tag 0) && negb (Z.eqb tag TAG_FINAL)
                   then ([], Err (Runtime "unsupported HolderAsset1 stream tag"))
                   else if Z.eqb tag TAG_FINAL
                   then (plain, if bool_decide (input = []) then Ok tt
                                else Err (Runtime "trailing data after HolderAsset1 final chunk"))
                   else match fuel with
                        | S fuel => let '(out, r) := pull_chunks fuel s ad input in (plain ++ out, r)
                        | O => (plain, Err (Runtime "truncated HolderAsset1 length"))
                        end
               end
           end
  end.

Context {S : Sodium} {N : JsonLib}.

(** What comes before the chunks: the header's text, the stream's header, the rest. *)
Definition parse_asset_header (project : Project) (resource asset : string) (input : bytes) :
    result (bytes * bytes * bytes) :=
  if negb (bool_decide (take (length kMagic) input = kMagic))
  then Err (Runtime "invalid HolderAsset1 header") else
  let? p := read_u32 (drop (length kMagic) input) in
  if Z.eqb p.1 0 || Z.ltb kMaxMetadata p.1 then Err (Runtime "invalid HolderAsset1 metadata size") else
  let? q := read_exactly (Z.to_nat p.1) "truncated HolderAsset1 metadata" p.2 in
  let? parsed := json_parse (string_of q.1) in
  let? expected := authenticated_header project resource asset in
  if negb (json_eqb parsed expected) then Err (Runtime "HolderAsset1 identity mismatch") else
  let? r := read_exactly HEADERBYTES "truncated HolderAsset1 stream header" q.2 in
  Ok (q.1, r.1, r.2).

Definition decode_asset (k : Keyring) (project : Project) (resource asset : string) (input : bytes) :
    bytes * result unit :=
  match (let? h := parse_asset_header project resource asset input in
         let? key_id := require_key_id project in
         let? key := load_project_key_bytes k (project_id project) key_id in
         Ok (h, key)) with
  | Err e => ([], Err e)
  | Ok ((header, stream_header, chunks), key) =>
      pull_chunks (length chunks) (init_pull stream_header key) header chunks
  end.

(** ** The files *)

Definition open_input (what : string) (l : Loc) : IO unit :=
  attempt what (fun w => match peek l (disk w) with
                         | Some _ => (Ok tt, w)
                         | None => (Err (Runtime what), w)
                         end).
(** [std::ios::trunc] *)
Definition open_output (what : string) (l : Loc) : IO unit :=
  attempt what (modify (on_disk (poke l (Some "")))).
Definition make_private : IO unit := attempt "failed to set private asset file permissions" (mret tt).
Definition read_input (what : string) (l : Loc) : IO bytes :=
  attempt what (fun w => match peek l (disk w) with
                         | Some c => (Ok (bytes_of c), w)
                         | None => (Err (Runtime what), w)
                         end).
(** A stream that is only asked for bytes: a call that fails looks like the end of the file,
    after as many bytes as it had read by then. *)
Definition read_stream (l : Loc) : IO bytes :=
  fun w => let content := match peek l (disk w) with Some c => bytes_of c | None => [] end in
    match outcomes w (tick w) with
    | Works | Short _ => (Ok content, advance w)
    | Throws (Some read) => (Ok (take (String.length read) content), advance w)
    | Throws None => (Ok [], advance w)
    end.
(** A stream whose state is not looked at after the last write: a failure is not seen. *)
Definition write_unchecked (l : Loc) (b : bytes) : IO unit :=
  fun w => let w' := advance w in
    match outcomes w (tick w) with
    | Works => (Ok tt, on_disk (poke l (Some (string_of b))) w')
    | Short s | Throws (Some s) => (Ok tt, on_disk (poke l (Some s)) w')
    | Throws None => (Ok tt, w')
    end.
Definition write_output (l : Loc) (b : bytes) : IO unit :=
  when (negb (bool_decide (b = []))) (fs_write_file l (string_of b)).

Definition digest_file (l : Loc) : IO FileDigest :=
  open_input "failed to open asset file" l ;;;
  let* content := read_input "failed while reading asset file" l in
  mret (digest content).

Definition stage_asset_file (k : Keyring) (source destination : Loc) (project : Project)
    (resource asset : string) : IO StagedAsset :=
  open_input "failed to open asset source" source ;;;
  fs_create_directories destination ;;;
  open_output "failed to open asset staging file" destination ;;;
  make_private ;;;
  if negb (String.eqb (privacy_mode project) "encrypted_git") then
    let* plain := read_input "failed while reading asset source" source in
    write_output destination plain ;;;
    mret (mkStaged "plain" (digest plain) (digest plain))
  else
    let* header := lift (rbind (authenticated_header project resource asset) (json_dump None)) in
    let* key_id := lift (require_key_id project) in
    let* key := lift (load_project_key_bytes k (project_id project) key_id) in
    let* call := gets tick in
    let* plain := read_input "failed while reading asset source" source in
    let stored := encode_asset call key (bytes_of header) plain in
    write_output destination stored ;;;
    mret (mkStaged "holder_asset_v1" (digest plain) (digest stored)).

Definition recover_asset_file (k : Keyring) (stored destination : Loc) (project : Project)
    (resource asset encoding : string) (expected_stored expected_plaintext : FileDigest) : IO unit :=
  let* actual := digest_file stored in
  let* _ := lift (verify_digest actual expected_stored "stored asset") in
  open_input "failed to open stored asset" stored ;;;
  fs_create_directories destination ;;;
  open_output "failed to open recovered asset" destination ;;;
  make_private ;;;
  if String.eqb encoding "plain" then
    let* content := read_stream stored in
    write_unchecked destination content ;;;
    lift (verify_digest (digest content) expected_plaintext "plaintext asset")
  else if String.eqb encoding "holder_asset_v1" then
    let* content := read_stream stored in
    let '(out, r) := decode_asset k project resource asset content in
    write_output destination out ;;;
    let* _ := lift r in
    lift (verify_digest (digest out) expected_plaintext "plaintext asset")
  else throw (Runtime ("unsupported asset encoding: " +:+ encoding)).

End Envelope.
End AssetEnvelope.
