(* ===== verification/ReferenceCrypto.v ===== *)
(** * Instances of the interfaces to libsodium and OpenSSL

    Functions with the round trips and the lengths that the interfaces promise, and no
    secrecy: for evaluating the model. Binary data is written in two letters. *)

From stdpp Require Import base list strings numbers.
From Stdlib Require Import Ascii.
From S2P Require Import Prelude Text CardFrontMatter Json ReferenceGit ReferenceYaml ReferenceJson CryptoService ProjectKeys AssetEnvelope.
Import ReferenceGit ReferenceYaml ReferenceJson.

Module ReferenceCrypto.

Definition to_letters (b : bytes) : string := letters (unpack (string_of b)).
Definition from_letters (s : string) : bytes := bytes_of (pack (of_letters s)).
Lemma pack_unpack s : pack (unpack s) = s.
Proof. induction s as [|[] s IH]; cbn [unpack pack]; by rewrite ?IH. Qed.
Lemma from_to_letters b : from_letters (to_letters b) = b.
Proof. unfold from_letters, to_letters. by rewrite of_letters_letters, pack_unpack, bytes_of_string_of. Qed.

Lemma letters_chars l c : c ∈ bytes_of (letters l) -> c = "a"%char \/ c = "b"%char.
Proof.
  induction l as [|[] l IH]; cbn; [by intros H; inversion H|..]; intros [->|H]%elem_of_cons; auto.
Qed.
Lemma letters_one_line l : one_line (letters l).
Proof. intros c [->| ->]%letters_chars; by split. Qed.
Lemma letters_padding l : padding (letters l) = 0%nat.
Proof.
  unfold padding. destruct (rev (bytes_of (letters l))) as [|c k] eqn:Hr; [done|].
  assert (c ∈ bytes_of (letters l)) as Hc.
  { rewrite <- (rev_involutive (bytes_of (letters l))), Hr. cbn. rewrite elem_of_app. right. by left. }
  by apply letters_chars in Hc as [->| ->].
Qed.

#[export] Instance reference_sodium : Sodium := {|
  bin2base64 := to_letters;
  base642bin s := Some (from_letters s);
  aead_encrypt m _ _ := replicate kAeadBytes "a"%char ++ m;
  aead_decrypt c _ _ := Some (drop kAeadBytes c);
  randombytes _ n := replicate n "r"%char
|}.
#[export] Instance reference_sodium_laws : SodiumLaws reference_sodium.
Proof.
  split; cbn [bin2base64 base642bin aead_encrypt aead_decrypt randombytes reference_sodium].
  - intros b. by rewrite from_to_letters.
  - intros b. apply letters_one_line.
  - done.
  - intros m _ _. rewrite length_app, length_replicate. lia.
  - intros _ n. apply length_replicate.
Qed.
#[export] Instance reference_json_lines : JsonLines reference_json.
Proof. split. intros v s [= <-]. apply letters_one_line. Qed.

#[export] Instance reference_openssl : OpenSsl := {|
  encode_block := to_letters;
  decode_block s := Some (from_letters s);
  pbkdf2 pin salt _ := take kPrivacyKeyBytes (bytes_of pin ++ salt);
  rand_bytes _ n := replicate n "s"%char
|}.
#[export] Instance reference_openssl_laws : OpenSslLaws reference_openssl.
Proof.
  split; cbn [encode_block decode_block rand_bytes reference_openssl].
  - intros b _. unfold to_letters at 2. rewrite letters_padding, app_nil_r. by rewrite from_to_letters.
  - intros _ n. apply length_replicate.
Qed.

(** A chunk is its tag, 16 bytes more, and the text. *)
#[export] Instance reference_assets : AssetCrypto := {|
  sha256_hex := to_letters;
  StreamState := unit;
  init_push _ _ := (tt, replicate AssetEnvelope.HEADERBYTES "h"%char);
  stream_push _ m _ tag := (tt, AssetEnvelope.byte_of tag :: replicate 16 "a"%char ++ m);
  init_pull _ _ := tt;
  stream_pull _ c _ :=
    match c with [] => None | t :: c => Some (tt, drop 16 c, AssetEnvelope.z_of t) end
|}.
#[export] Instance reference_assets_laws : AssetEnvelope.AssetCryptoLaws reference_assets.
Proof.
  refine {| AssetEnvelope.paired := fun _ _ => True |};
    cbn [init_push stream_push init_pull stream_pull StreamState fst snd reference_assets].
  - intros _ _. apply length_replicate.
  - done.
  - intros _ m _ tag. cbn [length]. rewrite length_app, length_replicate. unfold AssetEnvelope.ABYTES. lia.
  - intros _ _ m _ tag _ Ht. exists tt. split; [|done]. f_equal. f_equal.
    unfold AssetEnvelope.z_of, AssetEnvelope.byte_of. rewrite N_ascii_embedding; lia.
Qed.
End ReferenceCrypto.
