(* ===== verification/ProjectKeysTheorems.v ===== *)
(** * Keys: what the ciphers and the recovery tokens promise

    The cipher made of the keyring and the envelope keeps the promises that the stores rely
    on ([PrivacyLaws]), and a recovery token moves a key to another device. *)

From stdpp Require Import base list sets strings numbers gmap.
From Stdlib Require Import Ascii.
From S2P Require Import Prelude Double Model Text Database ProjectRepo CardFrontMatter Json CryptoService Disk Privacy ProjectKeys.
From S2P Require Import ReferenceJson ReferenceCrypto.
Import Json CryptoService CryptoFacts ProjectKeys.

Module ProjectKeysFacts.
Section Laws.
Context {S : Sodium} `{!SodiumLaws S} {N : JsonLib} `{!JsonLaws N} `{!JsonLines N} {O : OpenSsl} `{!OpenSslLaws O}.

Lemma as_crypto_ok {A} what (r : result A) a : as_crypto_failure what r = Ok a <-> r = Ok a.
Proof. destruct r as [x|[]]; cbn; naive_solver. Qed.

Lemma decrypt_own k call project key plain blob :
  encrypt_with_keyring k call project key plain = Ok blob -> decrypt_with_keyring k project key blob = Ok plain.
Proof.
  unfold encrypt_with_keyring, decrypt_with_keyring. rewrite !as_crypto_ok.
  destruct (load_project_key_bytes k project key) as [b|e]; cbn [rbind]; [|done].
  intros H. eapply decrypt_encrypt; [exact H|by left].
Qed.
Lemma encrypt_own_header k call project key plain blob :
  encrypt_with_keyring k call project key plain = Ok blob -> String.prefix ProjectPrivacy.blob_header blob = true.
Proof.
  unfold encrypt_with_keyring. rewrite as_crypto_ok.
  destruct (load_project_key_bytes k project key) as [b|e]; cbn [rbind]; [|done]. apply encrypt_header.
Qed.

(** ** Recovery tokens *)

Lemma ssl_b64_round b : b <> [] -> ssl_b64_decode (encode_block b) = Ok b.
Proof.
  intros Hb. unfold ssl_b64_decode. rewrite block_round_trip by done. f_equal.
  rewrite length_app, length_replicate, Nat.add_sub. apply take_app_length.
Qed.

Lemma payload_canonical m material now : int64 now -> canonical (token_payload m material now).
Proof.
  intros Hn. apply JsonFacts.object_canonical; [done|].
  assert (forall o, canonical (opt_json o)) as Ho by (intros [s|]; constructor).
  repeat (apply list.Forall_cons; split; [cbn [snd]; first [by constructor|apply Ho]|]). apply list.Forall_nil_2.
Qed.
Lemma token_canonical salt wrapped : canonical (token_json salt wrapped).
Proof.
  assert (forall l, bool_decide (NoDup (map fst l)) = true -> Forall (fun kv => canonical kv.2) l -> canonical (object l))
    as Ho by apply JsonFacts.object_canonical.
  apply Ho; [done|]. repeat (apply list.Forall_cons; split; cbn [snd]); [by constructor| | |done];
    (apply Ho; [done|]); repeat (apply list.Forall_cons; split; cbn [snd]); try done; by constructor.
Qed.

Lemma optional_string_payload key m material now v :
  contains key (token_payload m material now) = true -> at_key key (token_payload m material now) = Ok (opt_json v) ->
  optional_string key (token_payload m material now) = Ok v.
Proof. unfold optional_string. intros -> ->. by destruct v. Qed.

Lemma token_reads_back k call now pin m token :
  int64 now -> export_recovery_token k call now pin m = Ok token ->
  exists material key,
    load_key_material k (tk_project_id m) (tk_project_key_id m) = Ok material /\
    key_from_base64 material = Ok key /\
    decrypt_recovery_payload pin token = Ok (m, material).
Proof.
  intros Hn. unfold export_recovery_token. destruct (String.eqb pin "") eqn:Hpin; [done|].
  destruct (load_key_material _ _ _) as [material|]; [|done]. cbn [rbind].
  destruct (key_from_base64 material) as [key|] eqn:Hk; [|done]. cbn [rbind].
  set (salt := rand_bytes call 16). set (wrap := pbkdf2 pin salt kdf_iterations).
  destruct (json_dump None (token_payload _ _ _)) as [payload|] eqn:Hp; [|done]. cbn [rbind].
  destruct (encrypt_envelope_v1 _ _ _ _) as [wrapped|] eqn:He; [|done]. cbn [rbind]. intros Ht.
  exists material, key. split; [done|]. split; [done|]. unfold decrypt_recovery_payload. rewrite Hpin.
  rewrite (parse_dump _ _ _ (token_canonical salt wrapped) Ht). cbn [rbind].
  assert (member_is get_int Z.eqb "version" (token_json salt wrapped) 1 = Ok true) as ->.
  { unfold member_is. assert (contains "version" (token_json salt wrapped) = true) as -> by reflexivity.
    unfold token_json. member. cbn [rbind]. by rewrite get_int_int. }
  cbn [negb rbind]. unfold token_json. members. rewrite get_int_int by done. cbn [rbind]. members.
  rewrite ssl_b64_round.
  2: { intros Hs. pose proof (rand_bytes_length call 16) as Hl. fold salt in Hl. by rewrite Hs in Hl. }
  cbn [rbind]. members. fold wrap. erewrite decrypt_encrypt; [|exact He|by left]. cbn [rbind].
  rewrite (parse_dump _ _ _ (payload_canonical m material now Hn) Hp). cbn [rbind].
  assert (optional_string "project_name" (token_payload m material now) = Ok (tk_project_name m)) as ->
    by (apply optional_string_payload; reflexivity).
  assert (optional_string "git_remote_url" (token_payload m material now) = Ok (tk_git_remote_url m)) as ->
    by (apply optional_string_payload; reflexivity).
  unfold token_payload. members. by destruct m.
Qed.

(** ** Importing *)

Lemma in_db_ok {A} (m : Repo A) s a db :
  m (key_db s) = (Ok a, db) -> in_db m s = (Ok a, mkKeyState (keyring s) db).
Proof. unfold in_db. by intros ->. Qed.

(** The row of the project after an import. *)
Definition imported (m : RecoveryTokenMetadata) (at_ : Z) (p : Project) : Project :=
  let p := ProjectRepo.with_key_id (Some (tk_project_key_id m)) at_ p in
  match tk_git_remote_url m with
  | Some remote => if String.eqb remote "" then p else ProjectRepo.with_git_remote (Some remote) at_ p
  | None => p
  end.
Definition with_imported (m : RecoveryTokenMetadata) (at_ : Z) (db : Db) : Db :=
  set_projects (map (fun p => if String.eqb (project_id p) (bind_text (tk_project_id m)) then imported m at_ p else p)
                  (projects db)) db.
Definition modes_ok (db : Db) : Prop :=
  forall p, p ∈ projects db -> ProjectRepo.privacy_mode_ok (privacy_mode p) = true.

Lemma update_ok what id f db :
  modes_ok db -> (forall p, privacy_mode (f p) = privacy_mode p) ->
  exec what (ProjectRepo.update_project id f) db =
    (Ok tt, set_projects (map (fun p => if String.eqb (project_id p) id then f p else p) (projects db)) db).
Proof.
  intros Hm Hf. unfold exec.
  erewrite (proj2 (ProjectRepoFacts.update_project_spec id f db _)); [done|]. split; [reflexivity|].
  intros p Hp _. rewrite Hf. by apply Hm.
Qed.

Lemma import_ok k call now pin m token s at_ material :
  int64 now -> export_recovery_token k call now pin m = Ok token ->
  load_key_material k (tk_project_id m) (tk_project_key_id m) = Ok material ->
  keyring_supported (keyring s) = true -> modes_ok (key_db s) ->
  import_recovery_token (tk_project_id m) pin token at_ s =
    (Ok tt, mkKeyState (mkKeyring (<[(tk_project_id m, tk_project_key_id m) := material]> (secrets (keyring s))) true)
              (with_imported m at_ (key_db s))).
Proof.
  intros Hn He Hmat Hs Hm. destruct (token_reads_back _ _ _ _ _ _ Hn He) as (material' & key & H1 & H2 & H3).
  rewrite Hmat in H1. injection H1 as <-.
  unfold import_recovery_token, try_catch, bind at 1, lift at 1. rewrite H3. cbn [fst snd].
  rewrite String.eqb_refl. cbn [negb when]. unfold bind at 1, mret at 1.
  unfold bind at 1, lift at 1. rewrite H2. unfold bind at 1, store_key_material at 1. rewrite Hs. cbn [negb].
  unfold bind at 1. erewrite in_db_ok; [|by apply update_ok]. cbn [keyring key_db].
  unfold with_imported, imported.
  destruct (tk_git_remote_url m) as [remote|]; [destruct (String.eqb remote "")|]; cbn [when negb]; [done| |done].
  erewrite in_db_ok; [|apply update_ok; [|done]].
  - cbn [keyring key_db]. do 2 f_equal. unfold set_projects. cbn. f_equal. rewrite map_map. apply map_ext.
    intros p. by destruct (String.eqb (project_id p) (bind_text (tk_project_id m))) eqn:E; cbn; rewrite E.
  - intros p (q & Hq & ->)%elem_of_map_id. destruct (String.eqb _ _); apply (Hm q Hq).
Qed.
End Laws.
End ProjectKeysFacts.

Module ProjectKeysTheorems.
Import ProjectKeysFacts.

(** C20: The cipher of the stores keeps its promises. With the keys of the keyring, a text
    that [encrypt_project_blob] encrypts starts with the name of the format and decrypts to
    itself; nothing but an envelope that names the project's key decrypts. *)
Theorem keyring_privacy_correct (S : Sodium) (N : JsonLib) (k : Keyring) :
  SodiumLaws S -> JsonLaws N -> JsonLines N ->
  ProjectPrivacy.PrivacyLaws (keyring_privacy k) /\
  forall project key text plain, key <> "" -> @decrypt_project_blob (keyring_privacy k) project key text = Ok plain ->
    exists first rest parts, getline text = Some (first, rest) /\
      strip_trailing_carriage_return first = kEnvelopeMagic /\
      parse_envelope text = Ok parts /\ pt_key_id parts = key.
Proof.
  intros HS HN HL. split; [split|].
  - intros n project key plain blob. apply decrypt_own.
  - intros n project key plain blob. apply encrypt_own_header.
  - intros project key text plain Hne H. cbn [decrypt_project_blob keyring_privacy] in H.
    unfold decrypt_with_keyring in H. apply as_crypto_ok in H.
    destruct (load_project_key_bytes k project key) as [b|e]; cbn [rbind] in H; [|done].
    apply decrypt_only_envelopes in H as ([first rest] & parts & H1 & H2 & H3 & H4).
    exists first, rest, parts. auto.
Qed.

(** C21: A recovery token moves a key. What a device exports under a PIN, another device that
    has a keyring reads with the PIN: the token names the same project, key and remote, and
    importing it stores the key, writes the key's id and the remote into the project's row,
    and changes nothing else, so that what the first device encrypted the second one
    decrypts. Imported for another project it is refused and nothing changes. *)
Theorem recovery_token_moves_key (S : Sodium) (N : JsonLib) (O : OpenSsl) (k : Keyring) (call : nat)
    (now at_ : Z) (pin token : string) (m : RecoveryTokenMetadata) (s : KeyState) :
  SodiumLaws S -> JsonLaws N -> JsonLines N -> OpenSslLaws O ->
  int64 now -> export_recovery_token k call now pin m = Ok token ->
  keyring_supported (keyring s) = true -> modes_ok (key_db s) ->
  let project := tk_project_id m in
  let key := tk_project_key_id m in
  let s' := snd (import_recovery_token project pin token at_ s) in
  inspect_recovery_token pin token = Ok m /\
  fst (import_recovery_token project pin token at_ s) = Ok tt /\
  key_db s' = with_imported m at_ (key_db s) /\
  (forall p, p <> (project, key) -> secrets (keyring s') !! p = secrets (keyring s) !! p) /\
  (forall n plain blob, encrypt_with_keyring k n project key plain = Ok blob ->
     decrypt_with_keyring (keyring s') project key blob = Ok plain) /\
  forall other, other <> project ->
    import_recovery_token other pin token at_ s =
      (Err (PrivacyError RecoveryTokenInvalid "invalid recovery token: recovery token project_id mismatch"), s).
Proof.
  intros HS HN HL HO Hn He Hs Hm project key s'.
  destruct (token_reads_back _ _ _ _ _ _ Hn He) as (material & b & H1 & H2 & H3).
  pose proof (import_ok k call now pin m token s at_ material Hn He H1 Hs Hm) as Hi.
  unfold s'. clear s'. fold project key in Hi, H1. rewrite Hi. cbn [fst snd keyring key_db secrets].
  split; [unfold inspect_recovery_token; by rewrite H3|]. split; [done|]. split; [done|].
  split; [intros p Hp; by apply lookup_insert_ne|]. split.
  - intros n plain blob. unfold encrypt_with_keyring, decrypt_with_keyring, load_project_key_bytes.
    rewrite !as_crypto_ok, H1. cbn [rbind]. rewrite H2. cbn [rbind].
    unfold load_key_material. cbn [keyring_supported secrets negb]. rewrite lookup_insert_eq. cbn [rbind].
    rewrite H2. cbn [rbind]. intros Hb. eapply decrypt_encrypt; [exact Hb|by left].
  - intros other Ho. unfold import_recovery_token, try_catch, bind at 1, lift at 1. rewrite H3. cbn [fst].
    destruct (String.eqb_spec (tk_project_id m) other) as [Heq|_]; [by destruct Ho|]. done.
Qed.

(** ** Two devices *)
Import ReferenceJson ReferenceCrypto.

Definition sample_key : bytes := replicate 32 "k"%char.
Definition device1 : Keyring := mkKeyring {[ ("p", "k1") := key_to_base64 sample_key ]} true.
Definition device2 : KeyState :=
  mkKeyState (mkKeyring ∅ true)
    (core_db [mkProject "p" "Notes" "/p" None None "encrypted_git" None Uuid4 0 0] [] [] [] [] []).
Definition sample_metadata : RecoveryTokenMetadata := mkTokenMetadata "p" "k1" (Some "Notes") (Some "git@h:p.git").

Example keyring_privacy_correct_witness :
  exists blob, encrypt_with_keyring device1 0 "p" "k1" "text" = Ok blob /\
    @decrypt_project_blob (keyring_privacy device1) "p" "k1" blob = Ok "text".
Proof.
  destruct (encrypt_with_keyring device1 0 "p" "k1" "text") as [blob|e] eqn:H; [|by vm_compute in H].
  exists blob. split; [done|].
  exact (ProjectPrivacy.decrypt_encrypted (PrivacyLaws := proj1 (keyring_privacy_correct reference_sodium reference_json
    device1 reference_sodium_laws reference_json_laws reference_json_lines)) 0 "p" "k1" "text" blob H).
Defined.

Lemma sample_exported : exists token, export_recovery_token device1 0 5 "1234" sample_metadata = Ok token.
Proof.
  unfold export_recovery_token.
  assert (load_key_material device1 (tk_project_id sample_metadata) (tk_project_key_id sample_metadata) =
          Ok (key_to_base64 sample_key)) as -> by reflexivity.
  cbn [rbind String.eqb]. rewrite key_round_trip by reflexivity. cbn [rbind json_dump reference_json].
  unfold encrypt_envelope_v1. cbn [rbind json_dump reference_json]. eexists. reflexivity.
Qed.
Example recovery_token_moves_key_witness :
  exists token, export_recovery_token device1 0 5 "1234" sample_metadata = Ok token /\
    fst (import_recovery_token "p" "1234" token 7 device2) = Ok tt.
Proof.
  destruct sample_exported as [token H]. exists token. split; [exact H|].
  refine (proj1 (proj2 (recovery_token_moves_key reference_sodium reference_json reference_openssl device1 0 5 7
    "1234" token sample_metadata device2 reference_sodium_laws reference_json_laws reference_json_lines
    reference_openssl_laws _ H eq_refl _))).
  - by split.
  - intros p ->%list_elem_of_singleton. reflexivity.
Defined.

End ProjectKeysTheorems.
