(* ===== verification/AssetEnvelopeFacts.v ===== *)
(** * Stored assets: what is recovered is what was staged

    The chunks of an envelope are pulled as they were pushed, its header is read back, and
    the files follow: the theorems about [AssetEnvelope.cpp]. *)

From stdpp Require Import base list strings numbers gmap.
From Stdlib Require Import Ascii.
From S2P Require Import Prelude Double Model Text Database CardFrontMatter Json CryptoService Disk Runs Privacy ProjectKeys AssetEnvelope.
From S2P Require Import ReferenceJson ReferenceCrypto.
Import Disk CardFrontMatter Json CryptoService ProjectKeys AssetEnvelope.

Module AssetEnvelopeFacts.
Local Opaque kChunkSize.

(** ** Numbers of 32 bits *)

Lemma z_of_byte x : 0 <= x < 256 -> z_of (byte_of x) = x.
Proof.
  intros H. unfold z_of, byte_of. rewrite N_ascii_embedding by lia. lia.
Qed.
Lemma byte_range z k : 0 <= Z.land (Z.shiftr z k) 255 < 256.
Proof. change 255 with (Z.ones 8). rewrite Z.land_ones by lia. apply Z.mod_pos_bound. lia. Qed.

(** The eight bits of [z] from [k], in their place. *)
Lemma byte_bits z k n : 0 <= k -> 0 <= n ->
  Z.testbit (Z.shiftl (Z.land (Z.shiftr z k) 255) k) n = (k <=? n) && (n <? k + 8) && Z.testbit z n.
Proof.
  intros Hk Hn. destruct (Z.leb_spec k n) as [Hl|Hl]; cbn [andb].
  - rewrite Z.shiftl_spec, Z.land_spec, Z.shiftr_spec by lia. replace (n - k + k) with n by lia.
    change 255 with (Z.ones 8). rewrite Z.testbit_ones by lia. rewrite andb_comm. f_equal.
    destruct (Z.ltb_spec n (k + 8)), (Z.leb_spec 0 (n - k)), (Z.ltb_spec (n - k) 8); try done; lia.
  - by apply Z.shiftl_spec_low.
Qed.
Lemma u32_bits z : 0 <= z < 2 ^ 32 ->
  Z.lor (Z.lor (Z.lor (Z.shiftl (Z.land (Z.shiftr z 24) 255) 24) (Z.shiftl (Z.land (Z.shiftr z 16) 255) 16))
    (Z.shiftl (Z.land (Z.shiftr z 8) 255) 8)) (Z.land z 255) = z.
Proof.
  intros Hz. apply Z.bits_inj'. intros n Hn. rewrite !Z.lor_spec, !byte_bits by lia.
  pose proof (byte_bits z 0 n) as H0. rewrite Z.shiftl_0_r, Z.shiftr_0_r in H0. rewrite H0 by lia.
  destruct (Z.ltb_spec n 32) as [Hb|Hb].
  - destruct (Z.testbit z n); [|by rewrite !andb_false_r]. rewrite !andb_true_r.
    destruct (Z.leb_spec 24 n), (Z.leb_spec 16 n), (Z.leb_spec 8 n), (Z.leb_spec 0 n), (Z.ltb_spec n (24 + 8)),
      (Z.ltb_spec n (16 + 8)), (Z.ltb_spec n (8 + 8)), (Z.ltb_spec n (0 + 8)); try done; lia.
  - assert (Z.testbit z n = false) as ->; [|by rewrite !andb_false_r].
    destruct (Z.eqb_spec z 0) as [->|]; [apply Z.bits_0|]. apply Z.bits_above_log2; [lia|].
    apply Z.log2_lt_pow2; [lia|]. apply Z.lt_le_trans with (2 ^ 32); [lia|]. by apply Z.pow_le_mono_r.
Qed.
Lemma read_u32_bytes z rest : 0 <= z < 2 ^ 32 -> read_u32 (u32_bytes z ++ rest) = Ok (z, rest).
Proof.
  intros Hz. unfold u32_bytes. cbn [app read_u32].
  rewrite !z_of_byte by (try apply byte_range; pose proof (byte_range z 0) as H; by rewrite Z.shiftr_0_r in H).
  by rewrite u32_bits.
Qed.

Lemma read_exactly_app n what a b : length a = n -> read_exactly n what (a ++ b) = Ok (a, b).
Proof.
  intros <-. unfold read_exactly. destruct (Nat.ltb_spec (length (a ++ b)) (length a)) as [H|_].
  - rewrite length_app in H. lia.
  - by rewrite take_app_length, drop_app_length.
Qed.

Section Chunks.
Context {A : AssetCrypto} `{!AssetCryptoLaws A}.

Lemma chunk_bound : Z.of_nat ABYTES = 17 /\ Z.of_nat kChunkSize = 65536.
Proof. split; reflexivity. Qed.
Lemma u32_size_small (b : bytes) : (length b <= kChunkSize + ABYTES)%nat -> u32_size b = Z.of_nat (length b).
Proof. intros H. destruct chunk_bound. unfold u32_size. apply Z.mod_small. lia. Qed.

(** The reader takes a chunk of the writer apart. *)
Lemma pull_frame fuel s s' ad m tag rest :
  paired s s' -> (length m <= kChunkSize)%nat -> tag = 0 \/ tag = TAG_FINAL ->
  exists s2, paired (fst (stream_push s m ad tag)) s2 /\
    pull_chunks fuel s' ad (frame (snd (stream_push s m ad tag)) ++ rest) =
      if Z.eqb tag TAG_FINAL
      then (m, if bool_decide (rest = []) then Ok tt else Err (Runtime "trailing data after HolderAsset1 final chunk"))
      else match fuel with
           | S fuel => let '(out, r) := pull_chunks fuel s2 ad rest in (m ++ out, r)
           | O => (m, Err (Runtime "truncated HolderAsset1 length"))
           end.
Proof.
  intros Hp Hm Ht. destruct (push_pull s s' m ad tag Hp) as (s2 & Hpull & Hp2); [by destruct Ht as [->| ->]|]. exists s2. split; [done|].
  pose proof (push_length s m ad tag) as Hl. set (c := snd (stream_push s m ad tag)) in *.
  destruct chunk_bound as [Ha Hb]. unfold frame. rewrite u32_size_small by lia.
  destruct fuel as [|fuel]; cbn [pull_chunks]; rewrite <- !app_assoc, read_u32_bytes by lia.
  all: destruct (Z.ltb_spec (Z.of_nat (length c)) (Z.of_nat ABYTES)) as [Hlt|_]; [lia|]; cbn [orb].
  all: destruct (Z.ltb_spec (Z.of_nat (kChunkSize + ABYTES)) (Z.of_nat (length c))) as [Hlt|_]; [lia|].
  all: rewrite read_exactly_app by lia; rewrite Hpull; by destruct Ht as [->| ->].
Qed.

Lemma frame_length c : length (frame c) = (4 + length c)%nat.
Proof. unfold frame. by rewrite length_app. Qed.

(** Enough fuel for both loops is the bytes that each has left. *)
Lemma pull_push_chunks f1 f2 s s' ad current rest :
  paired s s' -> (length current <= kChunkSize)%nat -> (length rest <= f1)%nat ->
  (length (push_chunks f1 s ad current rest) <= f2)%nat ->
  pull_chunks f2 s' ad (push_chunks f1 s ad current rest) = (current ++ rest, Ok tt).
Proof.
  destruct chunk_bound as [Ha Hb].
  assert (forall l : bytes, take kChunkSize l = [] -> l = []) as Hnil.
  { intros l Hl. destruct l as [|x l]; [done|]. pose proof (f_equal length Hl) as H.
    rewrite length_take in H. cbn [length] in H. lia. }
  revert f2 s s' current rest. induction f1 as [|f1 IH]; intros f2 s s' current rest Hp Hc H1 H2.
  - destruct rest as [|x rest]; [|cbn in H1; lia]. cbn [push_chunks] in H2 |- *.
    rewrite take_nil in H2 |- *. rewrite bool_decide_eq_true_2 in H2 |- * by done.
    destruct (pull_frame f2 s s' ad current TAG_FINAL [] Hp Hc (or_intror eq_refl)) as (s2 & _ & He).
    rewrite app_nil_r in He |- *. destruct (stream_push s current ad TAG_FINAL) as [sp c]. exact He.
  - cbn [push_chunks] in H2 |- *. destruct (bool_decide_reflect (take kChunkSize rest = [])) as [Hn|Hn].
    + apply Hnil in Hn as ->.
      destruct (pull_frame f2 s s' ad current TAG_FINAL [] Hp Hc (or_intror eq_refl)) as (s2 & _ & He).
      destruct (stream_push s current ad TAG_FINAL) as [sp c]. cbn [snd] in He. rewrite He. by rewrite app_nil_r.
    + destruct (pull_frame f2 s s' ad current 0 (push_chunks f1 (fst (stream_push s current ad 0)) ad
        (take kChunkSize rest) (drop kChunkSize rest)) Hp Hc (or_introl eq_refl)) as (s2 & Hp2 & He).
      destruct (stream_push s current ad 0) as [sp c]. cbn [fst snd] in *. rewrite He. cbn [Z.eqb TAG_FINAL].
      rewrite length_app, frame_length in H2. destruct f2 as [|f2]; [lia|].
      rewrite IH; [by rewrite take_drop|done| | |lia].
      * rewrite length_take. lia.
      * rewrite length_drop. assert (rest <> []) as Hr by (intros ->; apply Hn, take_nil).
        destruct rest; [by destruct (Hr eq_refl)|]. cbn [length] in H1 |- *. lia.
Qed.
Lemma pull_push_all s s' ad plain :
  paired s s' -> pull_chunks (length (push_all s ad plain)) s' ad (push_all s ad plain) = (plain, Ok tt).
Proof.
  intros Hp. unfold push_all. rewrite pull_push_chunks; [by rewrite take_drop|done| | |done].
  - rewrite length_take. lia.
  - rewrite length_drop. lia.
Qed.

Context {S : Sodium} {N : JsonLib} `{!JsonLaws N}.

Definition header_value (project : Project) (key_id resource asset : string) : Json :=
  object [("asset_id", JString asset); ("key_id", JString key_id); ("project_id", JString (project_id project));
          ("resource_id", JString resource); ("version", JInt 1)].
Lemma header_canonical project key_id resource asset : canonical (header_value project key_id resource asset).
Proof.
  apply JsonFacts.object_canonical; [done|].
  repeat (apply list.Forall_cons; split; [cbn [snd]; by constructor|]). apply list.Forall_nil_2.
Qed.
Lemma header_value_eqb project key_id resource asset project' key_id' resource' asset' :
  json_eqb (header_value project key_id resource asset) (header_value project' key_id' resource' asset') = true <->
  asset = asset' /\ key_id = key_id' /\ project_id project = project_id project' /\ resource = resource'.
Proof.
  change (json_eqb _ _) with
    (String.eqb asset asset' && (String.eqb key_id key_id' && (String.eqb (project_id project) (project_id project') &&
       (String.eqb resource resource' && true)))).
  rewrite !andb_true_iff, !String.eqb_eq. tauto.
Qed.

Lemma parse_header_app project project' key_id key_id' resource asset resource' asset' header rest chunks :
  require_key_id project' = Ok key_id' ->
  json_dump None (header_value project key_id resource asset) = Ok header ->
  (0 < Z.of_nat (length (bytes_of header)) <= kMaxMetadata) -> length rest = HEADERBYTES ->
  parse_asset_header project' resource' asset'
    (kMagic ++ u32_bytes (u32_size (bytes_of header)) ++ bytes_of header ++ rest ++ chunks) =
  if json_eqb (header_value project key_id resource asset) (header_value project' key_id' resource' asset')
  then Ok (bytes_of header, rest, chunks) else Err (Runtime "HolderAsset1 identity mismatch").
Proof.
  intros Hk Hd Hlen Hrest. unfold parse_asset_header.
  rewrite take_app_length, bool_decide_eq_true_2 by done. cbn [negb]. rewrite drop_app_length.
  assert (u32_size (bytes_of header) = Z.of_nat (length (bytes_of header))) as ->.
  { unfold u32_size. apply Z.mod_small. unfold kMaxMetadata in Hlen. lia. }
  rewrite read_u32_bytes by (unfold kMaxMetadata in Hlen; lia). cbn [rbind fst snd].
  destruct (Z.eqb_spec (Z.of_nat (length (bytes_of header))) 0) as [H0|_]; [lia|]. cbn [orb].
  destruct (Z.ltb_spec kMaxMetadata (Z.of_nat (length (bytes_of header)))) as [H0|_]; [lia|].
  rewrite read_exactly_app by lia. cbn [rbind fst snd]. rewrite string_of_bytes_of.
  rewrite (parse_dump _ _ _ (header_canonical project key_id resource asset) Hd). cbn [rbind].
  unfold authenticated_header. rewrite Hk. cbn [rbind]. fold (header_value project' key_id' resource' asset').
  destruct (json_eqb _ _); cbn [negb]; [|done]. by rewrite read_exactly_app.
Qed.

(** An asset decodes to the bytes it was encoded from, and only as what it is. *)
Lemma decode_encode k project key_id key resource asset header call plain :
  require_key_id project = Ok key_id -> load_project_key_bytes k (project_id project) key_id = Ok key ->
  json_dump None (header_value project key_id resource asset) = Ok header ->
  (0 < Z.of_nat (length (bytes_of header)) <= kMaxMetadata) ->
  decode_asset k project resource asset (encode_asset call key (bytes_of header) plain) = (plain, Ok tt).
Proof.
  intros Hk Hkey Hd Hlen. unfold decode_asset, encode_asset.
  pose proof (init_header call key) as Hl. pose proof (init_paired call key) as Hp.
  destruct (init_push call key) as [s sh]. cbn [fst snd] in Hl, Hp.
  rewrite (parse_header_app project project key_id key_id resource asset) by done.
  rewrite (proj2 (header_value_eqb _ _ _ _ _ _ _ _)) by done. cbn [rbind]. rewrite Hk. cbn [rbind].
  rewrite Hkey. cbn [rbind]. by apply pull_push_all.
Qed.
Lemma decode_other k project project' key_id key_id' key resource asset resource' asset' header call plain :
  require_key_id project' = Ok key_id' ->
  json_dump None (header_value project key_id resource asset) = Ok header ->
  (0 < Z.of_nat (length (bytes_of header)) <= kMaxMetadata) ->
  (asset, key_id, project_id project, resource) <> (asset', key_id', project_id project', resource') ->
  decode_asset k project' resource' asset' (encode_asset call key (bytes_of header) plain) =
    ([], Err (Runtime "HolderAsset1 identity mismatch")).
Proof.
  intros Hk Hd Hlen Hne. unfold decode_asset, encode_asset.
  pose proof (init_header call key) as Hl. destruct (init_push call key) as [s sh]. cbn [snd] in Hl.
  rewrite (parse_header_app project project' key_id key_id' resource asset) by done.
  destruct (json_eqb _ _) eqn:He; [|done]. apply header_value_eqb in He as (-> & -> & He & ->).
  exfalso. apply Hne. by rewrite He.
Qed.
End Chunks.

End AssetEnvelopeFacts.

Module AssetFiles.
Import Runs DiskFacts AssetEnvelopeFacts.

(** ** The files *)

Lemma runs_open_input what l c w :
  peek l (disk w) = Some c -> runs (open_input what l) w (fun _ w' => disk w' = disk w).
Proof. intros H. apply runs_attempt. intros Hc. cbn. rewrite H. by eexists _, _. Qed.
Lemma runs_read_input what l c w :
  peek l (disk w) = Some c -> runs (read_input what l) w (fun b w' => b = bytes_of c /\ disk w' = disk w).
Proof. intros H. apply runs_attempt. intros Hc. cbn. rewrite H. by eexists _, _. Qed.
Lemma runs_read_stream l c w :
  peek l (disk w) = Some c -> runs (read_stream l) w (fun b w' => b = bytes_of c /\ disk w' = disk w).
Proof. intros H Hc. unfold read_stream. rewrite Hc, H. by eexists _, _. Qed.
Lemma runs_open_output what l w :
  runs (open_output what l) w (fun _ w' => disk w' = poke l (Some "") (disk w)).
Proof. apply runs_attempt. intros Hc. by eexists _, _. Qed.
Lemma runs_make_private w : runs make_private w (fun _ w' => disk w' = disk w).
Proof. apply runs_attempt. by apply runs_mret. Qed.
(** A file that was emptied when it was opened ends with what was written. *)
Lemma runs_write_output l b d w :
  disk w = poke l (Some "") d -> runs (write_output l b) w (fun _ w' => disk w' = poke l (Some (string_of b)) d).
Proof.
  intros Hd. unfold write_output, when. destruct (bool_decide_reflect (b = [])) as [->|Hb]; cbn [negb].
  - by apply runs_mret.
  - eapply runs_weaken; [apply runs_write_file|]. intros _ w' ->. by rewrite Hd, poke_poke.
Qed.
Lemma runs_write_unchecked l b w :
  runs (write_unchecked l b) w (fun _ w' => disk w' = poke l (Some (string_of b)) (disk w)).
Proof. intros Hc. unfold write_unchecked. rewrite Hc. by eexists _, _. Qed.

Section Files.
Context {A : AssetCrypto} `{!AssetCryptoLaws A} {S : Sodium} {N : JsonLib} `{!JsonLaws N}.

Lemma runs_digest_file l c w :
  peek l (disk w) = Some c ->
  runs (digest_file l) w (fun d w' => d = digest (bytes_of c) /\ disk w' = disk w).
Proof.
  intros H. eapply runs_bind; [by eapply runs_open_input|]. after w1 H1.
  eapply runs_bind; [eapply runs_read_input; by rewrite H1|]. intros b w2 [-> H2].
  apply runs_mret. split; [done|congruence].
Qed.
Lemma verify_same d label : verify_digest d d label = Ok tt.
Proof. unfold verify_digest. by rewrite Z.eqb_refl, String.eqb_refl. Qed.

(** What an encrypted project needs to store an asset: its key, and a header that fits. *)
Definition storable_asset (k : Keyring) (project : Project) (resource asset : string) : Prop :=
  ProjectPrivacy.encrypted project = true ->
  exists key_id key header,
    require_key_id project = Ok key_id /\ load_project_key_bytes k (project_id project) key_id = Ok key /\
    json_dump None (header_value project key_id resource asset) = Ok header /\
    0 < Z.of_nat (length (bytes_of header)) <= kMaxMetadata.

(** What [stage_asset_file] returned describes the stored bytes and how to read them. *)
Definition staged_as (k : Keyring) (project : Project) (resource asset : string) (plain : bytes)
    (st : StagedAsset) (stored : bytes) : Prop :=
  sa_plaintext st = digest plain /\ sa_stored st = digest stored /\
  if ProjectPrivacy.encrypted project
  then sa_encoding st = "holder_asset_v1" /\ decode_asset k project resource asset stored = (plain, Ok tt) /\
       forall resource' asset', (resource', asset') <> (resource, asset) ->
         decode_asset k project resource' asset' stored = ([], Err (Runtime "HolderAsset1 identity mismatch"))
  else sa_encoding st = "plain" /\ stored = plain.

Lemma runs_stage k source destination project resource asset content w :
  peek source (disk w) = Some content -> source <> destination -> storable_asset k project resource asset ->
  runs (stage_asset_file k source destination project resource asset) w (fun st w' =>
    exists stored, disk w' = poke destination (Some (string_of stored)) (disk w) /\
      staged_as k project resource asset (bytes_of content) st stored).
Proof.
  intros Hs Hne Hkey.
  eapply runs_bind; [by eapply runs_open_input|]. after w1 H1.
  eapply runs_bind; [apply runs_create_directories|]. after w2 H2.
  eapply runs_bind; [apply runs_open_output|]. after w3 H3.
  eapply runs_bind; [apply runs_make_private|]. after w4 H4.
  assert (disk w4 = poke destination (Some "") (disk w)) as Hd by congruence.
  assert (forall w5, disk w5 = disk w4 -> peek source (disk w5) = Some content) as Hread.
  { intros w5 H5. rewrite H5, Hd, peek_poke_ne by done. done. }
  unfold staged_as. unfold storable_asset, ProjectPrivacy.encrypted in *.
  destruct (String.eqb (privacy_mode project) "encrypted_git"); cbn [negb].
  - destruct (Hkey eq_refl) as (key_id & key & header & K1 & K2 & K3 & K4).
    eapply runs_bind; [apply (runs_lift _ header _ (fun h w' => h = header /\ disk w' = disk w4)); [|done]|].
    { unfold authenticated_header. rewrite K1. exact K3. }
    intros ? w5 [-> H5]. eapply runs_bind; [eapply (runs_lift _ key_id _ (fun x w' => x = key_id /\ w' = w5)); done|].
    intros ? ? [-> ->]. eapply runs_bind; [eapply (runs_lift _ key _ (fun x w' => x = key /\ w' = w5)); done|].
    intros ? ? [-> ->]. eapply runs_bind; [by apply (runs_gets _ _ (fun _ w' => w' = w5))|]. intros call ? ->.
    eapply runs_bind; [apply runs_read_input; by apply Hread|]. intros plain w6 [-> H6].
    eapply runs_bind; [apply (runs_write_output _ _ (disk w)); congruence|]. after w7 H7.
    apply runs_mret. eexists. split; [exact H7|]. split; [done|]. split; [done|]. split; [done|]. split.
    + by eapply decode_encode.
    + intros resource' asset' Hid. apply (decode_other k project project key_id key_id key resource asset); try done.
      intros [= -> ->]. by apply Hid.
  - eapply runs_bind; [apply runs_read_input; by apply Hread|]. intros plain w5 [-> H5].
    eapply runs_bind; [apply (runs_write_output _ _ (disk w)); congruence|]. after w6 H6.
    apply runs_mret. by exists (bytes_of content).
Qed.

(** The part of a recovery before the file is read. *)
Lemma runs_recover k stored destination project resource asset encoding content out expected w :
  peek stored (disk w) = Some content -> stored <> destination -> digest out = expected ->
  (if String.eqb encoding "plain" then out = bytes_of content
   else encoding = "holder_asset_v1" /\ decode_asset k project resource asset (bytes_of content) = (out, Ok tt)) ->
  runs (recover_asset_file k stored destination project resource asset encoding (digest (bytes_of content)) expected) w
    (fun _ w' => disk w' = poke destination (Some (string_of out)) (disk w)).
Proof.
  intros Hs Hne <- Hdec.
  eapply runs_bind; [by eapply runs_digest_file|]. intros ? w1 [-> H1].
  eapply runs_bind; [apply (runs_lift _ tt _ (fun _ w' => w' = w1)); [apply verify_same|done]|]. intros _ ? ->.
  eapply runs_bind; [eapply runs_open_input; by rewrite H1|]. after w2 H2.
  eapply runs_bind; [apply runs_create_directories|]. after w3 H3.
  eapply runs_bind; [apply runs_open_output|]. after w4 H4.
  eapply runs_bind; [apply runs_make_private|]. after w5 H5.
  assert (disk w5 = poke destination (Some "") (disk w)) as Hd by congruence.
  assert (peek stored (disk w5) = Some content) as Hread by (rewrite Hd, peek_poke_ne by done; done).
  destruct (String.eqb encoding "plain").
  - subst out. eapply runs_bind; [by apply runs_read_stream|]. intros ? w6 [-> H6].
    eapply runs_bind; [apply runs_write_unchecked|]. after w7 H7.
    apply (runs_lift _ tt); [apply verify_same|]. by rewrite H7, H6, Hd, poke_poke.
  - destruct Hdec as [-> Hdec]. rewrite String.eqb_refl. eapply runs_bind; [by apply runs_read_stream|].
    intros ? w6 [-> H6]. rewrite Hdec. eapply runs_bind; [apply (runs_write_output _ _ (disk w)); congruence|].
    after w7 H7. eapply runs_bind; [by apply (runs_lift _ tt _ (fun _ w' => w' = w7))|]. intros _ ? ->.
    apply (runs_lift _ tt); [apply verify_same|done].
Qed.
(** ** Whatever happens *)

(** Only one file is written. *)
Definition only_at (l : Loc) (d0 : Disk) (w : World) : Prop := forall m, m <> l -> peek m (disk w) = peek m d0.
Lemma attempt_keeps {B} (P : World -> Prop) what (op : IO B) :
  (forall w, P w -> P (advance w)) -> preserves P op -> preserves P (attempt what op).
Proof. intros Ha H w Hw. unfold attempt. destruct (outcomes w (tick w)); cbn [snd]; first [by apply H, Ha|by apply Ha]. Qed.
Lemma poke_only l d0 v w : only_at l d0 w -> only_at l d0 (on_disk (poke l v) w).
Proof. intros H m Hm. cbn. rewrite peek_poke_ne by done. by apply H. Qed.

Lemma open_input_only what m l d0 : preserves (only_at l d0) (open_input what m).
Proof. apply attempt_keeps; [done|]. intros w Hw. by destruct (peek m (disk w)). Qed.
Lemma read_input_only what m l d0 : preserves (only_at l d0) (read_input what m).
Proof. apply attempt_keeps; [done|]. intros w Hw. by destruct (peek m (disk w)). Qed.
Lemma read_stream_only m l d0 : preserves (only_at l d0) (read_stream m).
Proof. intros w Hw. unfold read_stream. by destruct (outcomes w (tick w)) as [|[s|]|s]. Qed.
Lemma open_output_only what l d0 : preserves (only_at l d0) (open_output what l).
Proof. apply attempt_keeps; [done|]. intros w Hw. by apply poke_only. Qed.
Lemma quiet_only what l d0 : preserves (only_at l d0) (attempt what (mret tt)).
Proof. apply attempt_keeps; [done|]. by intros w Hw. Qed.
Lemma write_unchecked_only l b d0 : preserves (only_at l d0) (write_unchecked l b).
Proof.
  intros w Hw. unfold write_unchecked.
  destruct (outcomes w (tick w)) as [|[s|]|s]; cbn [snd]; try apply poke_only; done.
Qed.
Lemma write_output_only l b d0 : preserves (only_at l d0) (write_output l b).
Proof.
  apply preserves_when. intros w Hw. unfold fs_write_file.
  destruct (outcomes w (tick w)) as [|[s|]|s]; cbn [snd]; try apply poke_only; done.
Qed.
Lemma digest_file_only m l d0 : preserves (only_at l d0) (digest_file m).
Proof.
  apply preserves_bind; [apply open_input_only|]. intros _. apply preserves_bind; [apply read_input_only|].
  auto with preserves.
Qed.

#[local] Hint Resolve open_input_only read_input_only read_stream_only open_output_only quiet_only write_unchecked_only
  write_output_only digest_file_only : preserves.
Ltac keep_only := repeat (first [apply preserves_bind; [solve [auto with preserves | apply quiet_only]|intros ?]|case_match]);
  auto with preserves.
Lemma stage_only k source destination project resource asset d0 :
  preserves (only_at destination d0) (stage_asset_file k source destination project resource asset).
Proof. unfold stage_asset_file, fs_create_directories, make_private. keep_only. Qed.
Lemma recover_only k stored destination project resource asset encoding e1 e2 d0 :
  preserves (only_at destination d0) (recover_asset_file k stored destination project resource asset encoding e1 e2).
Proof. unfold recover_asset_file, fs_create_directories, make_private. keep_only. Qed.

(** What a call that returned has seen. *)
Lemma attempt_ok {B} what (op : IO B) w b w' : attempt what op w = (Ok b, w') -> op (advance w) = (Ok b, w').
Proof. unfold attempt. by destruct (outcomes w (tick w)). Qed.
Lemma open_input_ok what l w u w' :
  open_input what l w = (Ok u, w') ->
  disk w' = disk w /\ outcomes w' = outcomes w /\ is_Some (peek l (disk w)).
Proof.
  intros H%attempt_ok. cbn in H. destruct (peek l (disk w)); [|done]. by injection H as _ <-.
Qed.
Lemma read_input_ok what l w b w' :
  read_input what l w = (Ok b, w') ->
  disk w' = disk w /\ outcomes w' = outcomes w /\ exists c, peek l (disk w) = Some c /\ b = bytes_of c.
Proof.
  intros H%attempt_ok. cbn in H. destruct (peek l (disk w)) as [c|]; [|done]. injection H as <- <-.
  do 2 (split; [done|]). by exists c.
Qed.
Lemma read_stream_ok l w b w' :
  read_stream l w = (Ok b, w') ->
  let content := match peek l (disk w) with Some c => bytes_of c | None => [] end in
  b `prefix_of` content /\ (calm w -> b = content).
Proof.
  unfold read_stream. pose proof (not_calm w (tick w)) as Hn.
  destruct (outcomes w (tick w)) as [|[s|]|s]; intros [= <- _]; cbn zeta; (split; [|try done]).
  - done.
  - by eexists; rewrite take_drop.
  - intros Hc. by destruct (Hn _ eq_refl).
  - apply prefix_nil.
  - intros Hc. by destruct (Hn _ eq_refl).
  - done.
Qed.
Lemma digest_file_ok l w d w' :
  digest_file l w = (Ok d, w') ->
  disk w' = disk w /\ outcomes w' = outcomes w /\ exists c, peek l (disk w) = Some c /\ d = digest (bytes_of c).
Proof.
  unfold digest_file. intros ([] & w1 & (H1 & O1 & _)%open_input_ok & H)%bind_ok.
  apply bind_ok in H as (b & w2 & (H2 & O2 & c & Hc & ->)%read_input_ok & [= <- <-]).
  do 2 (split; [congruence|]). exists c. by rewrite <- H1.
Qed.
Lemma verify_ok actual expected label : verify_digest actual expected label = Ok tt -> actual = expected.
Proof.
  unfold verify_digest. destruct (Z.eqb_spec (dg_byte_size actual) (dg_byte_size expected)) as [H1|]; [|done].
  destruct (String.eqb_spec (dg_sha256 actual) (dg_sha256 expected)) as [H2|]; [|done].
  destruct actual, expected. cbn in *. congruence.
Qed.

(** What a recovery that returned has read is a part of the stored file from its beginning. *)
Lemma recover_ok k stored destination project resource asset encoding e1 e2 w w' :
  stored <> destination ->
  recover_asset_file k stored destination project resource asset encoding e1 e2 w = (Ok tt, w') ->
  exists content read out, peek stored (disk w) = Some content /\ digest (bytes_of content) = e1 /\
    digest out = e2 /\ read `prefix_of` bytes_of content /\ (calm w -> read = bytes_of content) /\
    (if String.eqb encoding "plain" then out = read
     else encoding = "holder_asset_v1" /\ decode_asset k project resource asset read = (out, Ok tt)).
Proof.
  intros Hne. unfold recover_asset_file. intros H.
  apply bind_ok in H as (d & w1 & (H1 & O1 & content & Hc & ->)%digest_file_ok & H).
  apply bind_ok in H as ([] & w2 & [= Hv%verify_ok <-] & H).
  apply bind_ok in H as ([] & w3 & (H3 & O3 & _)%open_input_ok & H).
  apply bind_ok in H as ([] & w4 & H4%attempt_ok & H). injection H4 as <-.
  apply bind_ok in H as ([] & w5 & H5%attempt_ok & H). injection H5 as <-.
  apply bind_ok in H as ([] & w6 & H6%attempt_ok & H). injection H6 as <-. cbn in H.
  assert (calm w -> calm (advance (advance (on_disk (poke destination (Some "")) (advance (advance w3))))))
    as Hcalm by (intros Hw n; cbn; by rewrite O3, O1).
  exists content. destruct (String.eqb encoding "plain").
  - apply bind_ok in H as (read & w7 & [Hp Hr]%read_stream_ok & H). cbn in Hp, Hr.
    rewrite H3, H1, peek_poke_ne, Hc in Hp, Hr by done.
    apply bind_ok in H as ([] & w8 & _ & [= H%verify_ok _]). exists read, read. naive_solver.
  - destruct (String.eqb_spec encoding "holder_asset_v1") as [He|]; [|done].
    apply bind_ok in H as (read & w7 & [Hp Hr]%read_stream_ok & H). cbn in Hp, Hr.
    rewrite H3, H1, peek_poke_ne, Hc in Hp, Hr by done.
    destruct (decode_asset _ _ _ _ _) as [out r] eqn:Hdec.
    apply bind_ok in H as ([] & w8 & _ & H). apply bind_ok in H as ([] & w9 & [= -> <-] & [= H%verify_ok _]).
    exists read, out. naive_solver.
Qed.

(** Bytes of the same digest as all of them are all of them. *)
Lemma prefix_same_digest (a b : bytes) : a `prefix_of` b -> digest a = digest b -> a = b.
Proof.
  intros [rest ->]. unfold digest. intros [= H _]. rewrite length_app in H.
  destruct rest; [by rewrite app_nil_r|cbn in H; lia].
Qed.

End Files.
End AssetFiles.

Module AssetEnvelopeTheorems.
Import Runs DiskFacts AssetEnvelopeFacts AssetFiles.

(** C18: An asset comes back. Without faults, [stage_asset_file] writes only the staging file;
    what it returns describes the source's bytes and the stored ones, and with it
    [recover_asset_file] writes exactly the bytes of the source, whether the project is
    plain or encrypted. What was stored for an asset of an encrypted project is refused as any
    other asset; a plain project's files do not name theirs. *)
Theorem asset_round_trip (A : AssetCrypto) (S : Sodium) (N : JsonLib) (k : Keyring) (source stored destination : Loc)
    (project : Project) (resource asset content : string) (w : World) :
  AssetCryptoLaws A -> JsonLaws N -> calm w ->
  peek source (disk w) = Some content -> source <> stored -> stored <> destination ->
  storable_asset k project resource asset ->
  exists st w1 w2 bytes,
    stage_asset_file k source stored project resource asset w = (Ok st, w1) /\
    disk w1 = poke stored (Some bytes) (disk w) /\
    sa_plaintext st = digest (bytes_of content) /\
    recover_asset_file k stored destination project resource asset (sa_encoding st) (sa_stored st) (sa_plaintext st)
      w1 = (Ok tt, w2) /\
    disk w2 = poke destination (Some content) (disk w1) /\
    forall resource' asset', ProjectPrivacy.encrypted project = true -> (resource', asset') <> (resource, asset) ->
      fst (recover_asset_file k stored destination project resource' asset' (sa_encoding st) (sa_stored st)
             (sa_plaintext st) w1) <> Ok tt.
Proof.
  intros LA LN Hc Hs Hne1 Hne2 Hk.
  destruct (runs_stage k source stored project resource asset content w Hs Hne1 Hk Hc)
    as (st & w1 & Hst & Hc1 & bs & Hd1 & Hp & Hst1 & Henc).
  assert (peek stored (disk w1) = Some (string_of bs)) as Hbs by (rewrite Hd1; apply peek_poke).
  destruct (runs_recover k stored destination project resource asset (sa_encoding st) (string_of bs) (bytes_of content)
    (sa_plaintext st) w1 Hbs Hne2 (eq_sym Hp)) as ([] & w2 & Hr & Hc2 & Hd2); [|done|].
  { rewrite bytes_of_string_of. destruct (ProjectPrivacy.encrypted project); [|by destruct Henc as [-> ->]].
    by destruct Henc as (-> & Hdec & _). }
  rewrite bytes_of_string_of in Hr. rewrite string_of_bytes_of in Hd2.
  exists st, w1, w2, (string_of bs). rewrite Hst1. do 5 (split; [done|]).
  intros resource' asset' He Hid Hok. rewrite He in Henc. destruct Henc as (Henc & _ & Hother).
  destruct (recover_asset_file _ _ _ _ resource' asset' _ _ _ w1) as [[[]|e] w3] eqn:Hr'; [|done].
  apply recover_ok in Hr' as (c & read & out & Hpk & _ & _ & _ & Hall & Hdec); [|done].
  rewrite Hbs in Hpk. injection Hpk as <-. rewrite (Hall Hc1), Henc, bytes_of_string_of in Hdec. cbn in Hdec.
  destruct Hdec as [_ Hdec]. by rewrite (Hother _ _ Hid) in Hdec.
Qed.

(** C19: Nothing but the asset is recovered. Whatever fails, only the destination is written;
    and when [recover_asset_file] returns, the stored file had the digest that was expected,
    and what was read of it decodes with the project's key, as that asset, to bytes of the
    expected digest. What was read is the whole file, unless a read failed, which the code
    takes for the end of the file; a plain asset recorded with one digest is read whole even
    then. Without faults the decoded bytes are the destination's content. *)
Theorem recovery_is_verified (A : AssetCrypto) (S : Sodium) (N : JsonLib) (k : Keyring) (stored destination : Loc)
    (project : Project) (resource asset encoding : string) (e1 e2 : FileDigest) (w : World) :
  stored <> destination ->
  let res := recover_asset_file k stored destination project resource asset encoding e1 e2 w in
  (forall l, l <> destination -> peek l (disk (snd res)) = peek l (disk w)) /\
  (fst res = Ok tt ->
     exists content read out, peek stored (disk w) = Some content /\ digest (bytes_of content) = e1 /\
       digest out = e2 /\
       (if String.eqb encoding "plain" then out = read
        else encoding = "holder_asset_v1" /\ decode_asset k project resource asset read = (out, Ok tt)) /\
       read `prefix_of` bytes_of content /\ (encoding = "plain" -> e1 = e2 -> read = bytes_of content) /\
       (calm w -> read = bytes_of content /\ peek destination (disk (snd res)) = Some (string_of out))).
Proof.
  intros Hne res. split; [by apply (recover_only k stored destination project resource asset encoding e1 e2 (disk w) w)|].
  unfold res. clear res. destruct (recover_asset_file _ _ _ _ _ _ _ _ _ w) as [r w'] eqn:He. cbn [fst snd]. intros ->.
  destruct (recover_ok _ _ _ _ _ _ _ _ _ _ _ Hne He) as (content & read & out & H1 & H2 & H3 & Hp & Hall & H4).
  exists content, read, out. do 5 (split; [done|]). split.
  { intros -> H12. cbn in H4. subst out. apply prefix_same_digest; [done|congruence]. }
  intros Hc. rewrite (Hall Hc) in H4. split; [by apply Hall|].
  destruct (runs_recover k stored destination project resource asset encoding content out e2 w H1 Hne H3 H4 Hc)
    as ([] & w2 & Hr & _ & Hd). rewrite H2, He in Hr. injection Hr as <-. rewrite Hd. apply peek_poke.
Qed.

(** ** A file of an encrypted project *)
Import ReferenceJson ReferenceCrypto.

Definition vault : Project := mkProject "p" "Notes" "/p" None None "encrypted_git" (Some "k1") Uuid4 0 0.
Definition vault_keys : Keyring := mkKeyring {[ ("p", "k1") := key_to_base64 (replicate 32 "k"%char) ]} true.
Definition desk (faults : nat -> Outcome) : World :=
  mkWorld (mkDisk ∅ None None None None {[ "/in.png" := "picture" ]}) None faults 0.
Lemma vault_storable : storable_asset vault_keys vault "r1" "a1".
Proof.
  intros _. eexists "k1", (replicate 32 "k"%char), _.
  split; [reflexivity|]. split; [vm_compute; reflexivity|]. split; [reflexivity|].
  split; [reflexivity|]. vm_compute. intros H. discriminate H.
Qed.

Example asset_round_trip_witness :
  exists st w1 w2,
    stage_asset_file vault_keys (Outside "/in.png") (Outside "/x.staged") vault "r1" "a1" (desk (fun _ => Works)) =
      (Ok st, w1) /\
    recover_asset_file vault_keys (Outside "/x.staged") (Outside "/out.png") vault "r1" "a1" (sa_encoding st)
      (sa_stored st) (sa_plaintext st) w1 = (Ok tt, w2) /\
    peek (Outside "/out.png") (disk w2) = Some "picture".
Proof.
  destruct (asset_round_trip reference_assets reference_sodium reference_json vault_keys (Outside "/in.png")
    (Outside "/x.staged") (Outside "/out.png") vault "r1" "a1" "picture" (desk (fun _ => Works))
    reference_assets_laws reference_json_laws (fun _ => eq_refl) eq_refl ltac:(discriminate) ltac:(discriminate)
    vault_storable) as (st & w1 & w2 & bs & H1 & _ & _ & H4 & H5 & _).
  exists st, w1, w2. split; [exact H1|]. split; [exact H4|]. rewrite H5. apply DiskFacts.peek_poke.
Defined.

(** A plain project's file is recovered without looking at the state of the stream: the disk
    is full at the eighth call, and yet the recovery returns. *)
Definition plain_vault : Project := mkProject "p" "Notes" "/p" None None "plain" None Uuid4 0 0.
Definition full_disk (n : nat) : Outcome := if Nat.eqb n 7 then Throws (Some "pict") else Works.
Definition recovered : result unit * World :=
  recover_asset_file vault_keys (Outside "/in.png") (Outside "/out.png") plain_vault "r1" "a1" "plain"
    (digest (bytes_of "picture")) (digest (bytes_of "picture")) (desk full_disk).
Example recovered_short : fst recovered = Ok tt /\ elsewhere (disk (snd recovered)) !! "/out.png" = Some "pict".
Proof. vm_compute. by split. Qed.

Example recovery_is_verified_witness :
  exists out, digest out = digest (bytes_of "picture").
Proof.
  assert (fst recovered = Ok tt) as H by (vm_compute; reflexivity).
  destruct (proj2 (recovery_is_verified reference_assets reference_sodium reference_json vault_keys (Outside "/in.png")
    (Outside "/out.png") plain_vault "r1" "a1" "plain" (digest (bytes_of "picture")) (digest (bytes_of "picture"))
    (desk full_disk) ltac:(discriminate)) H) as (content & read & out & _ & _ & Hd & _).
  exists out. exact Hd.
Defined.

End AssetEnvelopeTheorems.
