(* ===== verification/StorageProvider.v ===== *)
(** * Storage providers

    [src/src/resource/StorageProvider.h]: where the bytes of assets are kept. The interface
    is the class [StorageProvider]; [ProviderLaws] is what an import and a retrieval rely
    on, in terms of the objects that a disk holds. *)

From stdpp Require Import base list strings numbers gmap.
From Stdlib Require Import Ascii.
From S2P Require Import Prelude Text Disk Runs AssetEnvelope AssetEnvelopeFacts.
Import Disk DiskFacts Runs AssetEnvelope AssetFiles.

Class StorageProvider := {
  put : string -> Loc -> Z -> string -> IO unit;
  get : string -> Loc -> IO unit;
  exists_ : string -> IO bool;
  remove : string -> IO unit
}.

(** The disk [d'] differs from [d] at most where [P] holds. *)
Definition differs_at (P : Loc -> Prop) (d d' : Disk) : Prop :=
  git d' = git d /\ forall l, ~ P l -> peek l d' = peek l d.
(** A call writes at most where [P] holds, and does not reach into the Git adapter. *)
Definition touches (P : Loc -> Prop) (w w' : World) : Prop :=
  differs_at P (disk w) (disk w') /\ cached w' = cached w.

(** [objects] are what the provider holds under a key, [alias] when two keys name one
    object, [owns] the places that it may write besides the destination of a [get].
    [valid_key] are the keys that it takes. *)
Class ProviderLaws {A : AssetCrypto} (P : StorageProvider) := {
  objects : Disk -> string -> option string;
  alias : string -> string -> Prop;
  owns : Loc -> Prop;
  valid_key : string -> Prop;
  objects_elsewhere : forall d d' k,
    valid_key k -> (forall l, owns l -> peek l d' = peek l d) -> objects d' k = objects d k;
  owns_outside : forall l, owns l -> exists path, l = Outside path;
  alias_objects : forall d k k', alias k k' -> objects d k = objects d k';
  (** ** Without faults *)
  put_runs : forall key staged content w,
    valid_key key -> ~ owns staged -> peek staged (disk w) = Some content -> objects (disk w) key = None ->
    runs (put key staged (dg_byte_size (digest (bytes_of content))) (dg_sha256 (digest (bytes_of content)))) w
      (fun _ w' => objects (disk w') key = Some content);
  exists_runs : forall key w, valid_key key ->
    runs (exists_ key) w (fun b w' => b = bool_decide (is_Some (objects (disk w) key)));
  get_runs : forall key destination content w,
    valid_key key -> objects (disk w) key = Some content -> ~ owns destination ->
    runs (get key destination) w (fun _ w' => peek destination (disk w') = Some content);
  remove_runs : forall key w, valid_key key ->
    runs (remove key) w (fun _ w' => objects (disk w') key = None);
  (** ** Whatever fails *)
  put_any : forall key staged size sha w r w',
    valid_key key -> put key staged size sha w = (r, w') ->
    touches owns w w' /\
    match r with
    | Ok _ =>
        (exists content, objects (disk w') key = Some content /\ digest (bytes_of content) = mkDigest size sha) /\
        forall k, valid_key k -> ~ alias k key -> objects (disk w') k = objects (disk w) k
    | Err _ => forall k, valid_key k -> objects (disk w') k = objects (disk w) k
    end;
  put_keeps : forall key staged size sha w r w' k content,
    valid_key key -> valid_key k -> put key staged size sha w = (r, w') ->
    objects (disk w) k = Some content -> objects (disk w') k = Some content;
  exists_any : forall key w r w',
    exists_ key w = (r, w') -> touches (fun _ => False) w w' /\ (valid_key key -> r = Ok true -> is_Some (objects (disk w) key));
  get_any : forall key destination w r w',
    get key destination w = (r, w') ->
    touches (fun l => owns l \/ l = destination) w w' /\
    forall k, valid_key k -> ~ owns destination -> objects (disk w') k = objects (disk w) k;
  remove_any : forall key w r w',
    remove key w = (r, w') ->
    touches owns w w' /\
    forall k, valid_key k -> ~ alias k key -> objects (disk w') k = objects (disk w) k
}.
