(* ===== verification/LocalProvider.v ===== *)
(** * A directory of objects

    [src/src/resource/LocalDirectoryProvider.cpp], the storage provider that keeps a file
    per object under a directory, and the proof that it keeps the promises of the
    interface. *)

From stdpp Require Import base list strings numbers gmap.
From Stdlib Require Import Ascii.
From S2P Require Import Prelude Text Disk Mutation Runs AssetEnvelope AssetEnvelopeFacts StorageProvider.
Import Disk DiskFacts CardMutation Runs AssetEnvelope AssetFiles.

Module LocalDirectoryProvider.

(** [catch], and another exception in its place *)
Definition or_storage_error {B} (code : StorageErrorCode) (what : string) (m : IO B) : IO B :=
  try_catch m (fun _ => throw (StorageError code what)).

Definition copy_file_streaming (source target : Loc) : IO unit :=
  or_storage_error Unavailable "failed to open source object" (open_input "open" source) ;;;
  or_storage_error Permission "failed to create target object" (open_output "open" target) ;;;
  or_storage_error Permission "failed to secure target object" make_private ;;;
  or_storage_error Capacity "failed while copying storage object" (
    let* content := read_input "read" source in
    write_output target content).

(** The parts of a path again, with slashes between them. *)
Fixpoint join_slashes (parts : list string) : string :=
  match parts with
  | [] => ""
  | [part] => part
  | part :: parts => part +:+ "/" +:+ join_slashes parts
  end.

(** The directory of a path with its slash, and the file's name. *)
Fixpoint split_filename (s : string) : string * string :=
  match s with
  | EmptyString => ("", "")
  | String c s =>
      let '(dir, name) := split_filename s in
      if Ascii.eqb c "/" then (String c dir, name)
      else match dir with EmptyString => ("", String c name) | _ => (String c dir, name) end
  end.

Section Local.
Context {A : AssetCrypto} (root : string) (steady_clock : nat -> string).

(** [target.parent_path() / ("." + target.filename() + ".holder-tmp-" + nonce)] *)
Definition temporary_path (path nonce : string) : string :=
  let '(dir, name) := split_filename path in dir +:+ "." +:+ name +:+ ".holder-tmp-" +:+ nonce.
Definition path_of (l : Loc) : string := match l with Outside path => path | _ => "" end.
Definition temporary_sibling (target : Loc) : IO Loc :=
  gets (fun w => Outside (temporary_path (path_of target) (steady_clock (tick w)))).

(** [root_] is absolute and normal. A key that ends with a slash, which names a directory,
    is taken for the file of that name. *)
Definition resolve (key : string) : result Loc :=
  if String.eqb key "" || String.prefix "/" key
  then Err (StorageError InvalidConfiguration "invalid storage object key")
  else
    let parts := components "" key in
    if existsb (fun part => String.eqb part ".." || String.eqb part ".") parts
    then Err (StorageError InvalidConfiguration "unsafe storage object key")
    else Ok (Outside (root +:+ "/" +:+
           join_slashes (list_filter (fun part => negb (String.eqb part "")) parts))).

Definition remove_quietly (l : Loc) : IO unit := try_catch (fs_remove l) (fun _ => mret tt).
(** [try { m } catch (...) { remove(temporary, ignored); throw; }] *)
Definition or_clean (temporary : Loc) (m : IO unit) : IO unit :=
  try_catch m (fun e => remove_quietly temporary ;;; throw e).

Definition put (key : string) (staged : Loc) (stored_size : Z) (stored_sha256 : string) : IO unit :=
  let expected := mkDigest stored_size stored_sha256 in
  let* source := digest_file staged in
  when (negb (bool_decide (source = expected))) (throw (StorageError Integrity "staged object integrity mismatch")) ;;;
  let* target := lift (resolve key) in
  let* there := fs_exists target in
  if there : bool then
    let* existing := digest_file target in
    when (negb (bool_decide (existing = expected)))
      (throw (StorageError Conflict "object key already contains different bytes"))
  else
    fs_create_directories target ;;;
    let* temporary := temporary_sibling target in
    or_clean temporary (
      copy_file_streaming staged temporary ;;;
      let* copied := digest_file temporary in
      when (negb (bool_decide (copied = expected))) (throw (StorageError Integrity "copied object integrity mismatch")) ;;;
      fs_rename temporary target).

Definition get (key : string) (destination : Loc) : IO unit :=
  let* source := lift (resolve key) in
  let* there := fs_exists source in
  when (negb there) (throw (StorageError Unavailable "storage object not found")) ;;;
  fs_create_directories destination ;;;
  let* temporary := temporary_sibling destination in
  or_clean temporary (
    copy_file_streaming source temporary ;;;
    fs_rename temporary destination).

Definition exists_ (key : string) : IO bool :=
  let* target := lift (resolve key) in fs_exists target.

Definition remove (key : string) : IO unit :=
  let* target := lift (resolve key) in
  or_storage_error Permission "failed to remove storage object" (fs_remove target).

Definition local_provider : StorageProvider := {|
  StorageProvider.put := put; StorageProvider.get := get;
  StorageProvider.exists_ := exists_; StorageProvider.remove := remove
|}.

End Local.
End LocalDirectoryProvider.

Module LocalProviderFacts.
Import LocalDirectoryProvider.

Definition temporary_mark : string := ".holder-tmp-".
Definition is_temporary (l : Loc) : Prop := contains temporary_mark (path_of l) = true.

Lemma contains_append a n b : contains n (a +:+ n +:+ b) = true.
Proof.
  induction a as [|c a IH].
  - change ("" +:+ ?s) with s. pose proof (prefix_append n b) as H. destruct (n +:+ b); cbn [contains]; by rewrite H.
  - rewrite append_cons. cbn. by rewrite IH, orb_true_r.
Qed.
Lemma temporary_path_marked path nonce : is_temporary (Outside (temporary_path path nonce)).
Proof.
  unfold is_temporary, temporary_path. cbn [path_of]. destruct (split_filename path) as [dir name].
  rewrite !append_assoc. rewrite <- (append_assoc _ ".holder-tmp-"). apply contains_append.
Qed.

Ltac keeps_cache := repeat first [ progress intros | solve [auto with preserves] | apply preserves_bind
  | apply preserves_when | apply preserves_try | apply attempt_keeps | case_match ].

Lemma differs_refl P d : differs_at P d d.
Proof. by split. Qed.
Lemma differs_trans P d1 d2 d3 : differs_at P d1 d2 -> differs_at P d2 d3 -> differs_at P d1 d3.
Proof. intros [G1 H1] [G2 H2]. split; [congruence|]. intros l Hl. by rewrite H2, H1. Qed.
Lemma differs_weaken (P Q : Loc -> Prop) d d' : differs_at P d d' -> (forall l, P l -> Q l) -> differs_at Q d d'.
Proof. intros [G H] HPQ. split; [done|]. intros l Hl. apply H. intros HP. by apply Hl, HPQ. Qed.
Lemma git_poke l v d : git (poke l v d) = git d.
Proof. by destruct l. Qed.
Lemma differs_poke (P : Loc -> Prop) l v d d' : P l -> differs_at P d d' -> differs_at P d (poke l v d').
Proof.
  intros Hl [G H]. split; [by rewrite git_poke|]. intros m Hm. rewrite peek_poke_ne; [by apply H|].
  intros <-. by apply Hm.
Qed.

(** ** Whatever fails, only temporary files differ *)

Section Any.
Context {A : AssetCrypto}.
Context (P : Loc -> Prop) (d0 : Disk).
Definition only (w : World) : Prop := differs_at P d0 (disk w).

Lemma only_poke l v w : P l -> only w -> only (on_disk (poke l v) w).
Proof. intros Hl Hw. by apply differs_poke. Qed.
Lemma only_attempt {B} what (op : IO B) : preserves only op -> preserves only (attempt what op).
Proof. by apply attempt_keeps. Qed.
Lemma only_exists l : preserves only (fs_exists l).
Proof. apply only_attempt, preserves_gets. Qed.
Lemma only_create l : preserves only (fs_create_directories l).
Proof. apply only_attempt, preserves_mret. Qed.
Lemma only_open_input what l : preserves only (open_input what l).
Proof. apply only_attempt. intros w Hw. by destruct (peek l (disk w)). Qed.
Lemma only_read_input what l : preserves only (read_input what l).
Proof. apply only_attempt. intros w Hw. by destruct (peek l (disk w)). Qed.
Lemma only_digest l : preserves only (digest_file l).
Proof.
  apply preserves_bind; [apply only_open_input|]. intros _.
  apply preserves_bind; [apply only_read_input|]. intros b. apply preserves_mret.
Qed.
Lemma only_open_output what l : P l -> preserves only (open_output what l).
Proof. intros Hl. apply only_attempt. intros w Hw. by apply only_poke. Qed.
Lemma only_private : preserves only make_private.
Proof. apply only_attempt, preserves_mret. Qed.
Lemma only_remove l : P l -> preserves only (fs_remove l).
Proof. intros Hl. apply only_attempt. intros w Hw. by apply only_poke. Qed.
Lemma only_write l b : P l -> preserves only (write_output l b).
Proof.
  intros Hl. apply preserves_when. intros w Hw. unfold fs_write_file.
  destruct (outcomes w (tick w)) as [|[s|]|s]; cbn [snd]; try apply only_poke; done.
Qed.
Lemma only_rename from to : P from -> P to -> preserves only (fs_rename from to).
Proof.
  intros Hf Ht. apply only_attempt. intros w Hw. destruct (peek from (disk w)); [|done].
  cbn [snd]. unfold only. cbn. by do 2 (apply differs_poke; [done|]).
Qed.
Lemma only_or_error {B} c what (m : IO B) : preserves only m -> preserves only (or_storage_error c what m).
Proof. intros H. apply preserves_try; [done|]. intros e. apply preserves_throw. Qed.
#[local] Hint Resolve only_exists only_create only_open_input only_read_input only_digest only_open_output
  only_private only_remove only_write only_rename only_or_error : preserves.
Lemma only_copy source target : P target -> preserves only (copy_file_streaming source target).
Proof. intros Ht. unfold copy_file_streaming. auto 8 with preserves. Qed.
Lemma only_clean l m : P l -> preserves only m -> preserves only (or_clean l m).
Proof. intros Hl Hm. unfold or_clean, remove_quietly. auto 8 with preserves. Qed.
End Any.

(** ** What is known of the disk after a call that returned *)

Section Values.
Context {A : AssetCrypto} (R : Disk -> Prop).
Definition on (w : World) : Prop := R (disk w).

Lemma on_attempt {B} what (op : IO B) (Q : B -> World -> Prop) :
  (forall w, on w -> match op w with (Ok b, w') => Q b w' | (Err _, w') => on w' end) ->
  hoare on (attempt what op) Q on.
Proof. intros H w Hw. unfold attempt. destruct (outcomes w (tick w)); [|exact Hw|]; exact (H (advance w) Hw). Qed.
Lemma on_exists l :
  hoare on (fs_exists l) (fun b w => on w /\ b = bool_decide (is_Some (peek l (disk w)))) on.
Proof. apply on_attempt. by intros w Hw. Qed.
Lemma on_create l : hoare on (fs_create_directories l) (fun _ => on) on.
Proof. apply on_attempt. by intros w Hw. Qed.
Lemma on_digest l :
  hoare on (digest_file l)
    (fun r w => on w /\ exists c, peek l (disk w) = Some c /\ r = digest (bytes_of c)) on.
Proof.
  eapply hoare_bind; [apply (on_attempt _ _ (fun _ => on)); intros w Hw; by destruct (peek l (disk w))|]. intros [].
  eapply hoare_bind.
  - apply (on_attempt _ _ (fun b w => on w /\ exists c, peek l (disk w) = Some c /\ b = bytes_of c)).
    intros w Hw. destruct (peek l (disk w)) as [c|] eqn:E; [|done]. split; [done|]. by exists c.
  - intros b w (Hw & c & Hc & ->). split; [done|]. by exists c.
Qed.
Lemma on_rename from to (Q : Disk -> Prop) :
  (forall d c, R d -> peek from d = Some c -> Q (poke to (Some c) (poke from None d))) ->
  hoare on (fs_rename from to) (fun _ w => Q (disk w)) on.
Proof.
  intros H. apply on_attempt. intros w Hw. destruct (peek from (disk w)) as [c|] eqn:E; [|done].
  by apply H.
Qed.
End Values.

Lemma hoare_clean l m (P : World -> Prop) (Q : unit -> World -> Prop) (F : World -> Prop) :
  hoare P m Q F -> preserves F (remove_quietly l) -> hoare P (or_clean l m) Q F.
Proof.
  intros Hm Hr. apply (hoare_try m _ P Q F F); [exact Hm|]. intros e.
  eapply hoare_bind; [apply hoare_preserves, Hr|]. intros [] w Hw. exact Hw.
Qed.

(** ** The operations *)

Section Provider.
Context {A : AssetCrypto} (root : string) (steady_clock : nat -> string).

Definition local_objects (d : Disk) (key : string) : option string :=
  match resolve root key with Ok l => peek l d | Err _ => None end.
Definition local_alias (k k' : string) : Prop := resolve root k = resolve root k'.
Definition local_owns (l : Loc) : Prop :=
  String.prefix (root +:+ "/") (path_of l) = true \/ is_temporary l.
Definition local_key (key : string) : Prop := exists l, resolve root key = Ok l /\ ~ is_temporary l.

Lemma resolve_owned key l : resolve root key = Ok l -> local_owns l.
Proof.
  unfold resolve. destruct (String.eqb key "" || _); [done|]. destruct (existsb _ _); [done|].
  intros [= <-]. left. cbn [path_of]. rewrite append_assoc. apply prefix_append.
Qed.

(** Temporary files are no objects. *)
Lemma objects_only k (P : Loc -> Prop) d d' :
  local_key k -> (forall l, resolve root k = Ok l -> ~ P l) -> differs_at P d d' ->
  local_objects d' k = local_objects d k.
Proof.
  intros (l & Hl & Ht) HP [_ H]. unfold local_objects. rewrite Hl. by apply H, HP.
Qed.
Lemma objects_temporary k d d' : local_key k -> differs_at is_temporary d d' -> local_objects d' k = local_objects d k.
Proof. intros Hk. apply objects_only; [done|]. intros l Hl. destruct Hk as (l' & Hl' & Ht). congruence. Qed.

Definition at_target (target : Loc) (l : Loc) : Prop := is_temporary l \/ l = target.

Lemma only_remove_quietly P d l : P l -> preserves (only P d) (remove_quietly l).
Proof. intros Hl. apply preserves_try; [by apply only_remove|]. intros e. apply preserves_mret. Qed.
Lemma sibling_value (F : World -> Prop) (R : World -> Prop) target :
  hoare R (temporary_sibling steady_clock target) (fun l w => is_temporary l /\ R w) F.
Proof. intros w Hw. cbn. split; [apply temporary_path_marked|done]. Qed.

(** Into a temporary file, looked at again, and to its place. *)
Lemma copied_hoare staged target temporary size sha d0 :
  is_temporary temporary -> peek target d0 = None ->
  hoare (only is_temporary d0)
    (or_clean temporary (
      copy_file_streaming staged temporary ;;;
      let* copied := digest_file temporary in
      when (negb (bool_decide (copied = mkDigest size sha))) (throw (StorageError Integrity "copied object integrity mismatch")) ;;;
      fs_rename temporary target))
    (fun _ w => exists c, peek target d0 = None /\ differs_at (at_target target) d0 (disk w) /\
       peek target (disk w) = Some c /\ digest (bytes_of c) = mkDigest size sha)
    (only is_temporary d0).
Proof.
  intros Htmp Hnone. set (F := only is_temporary d0).
  apply hoare_clean; [|by apply only_remove_quietly].
  apply (hoare_bind _ _ _ (fun _ => F)); [|intros []].
  { eapply hoare_conseq; [apply hoare_preserves, (only_copy is_temporary d0 staged temporary Htmp)|intros w H; exact H|intros [] w H; exact H|done]. }
  eapply hoare_bind; [apply (on_digest (differs_at is_temporary d0))|]. intros copied.
  set (R := fun d => differs_at is_temporary d0 d /\ exists c, peek temporary d = Some c /\ mkDigest size sha = digest (bytes_of c)).
  apply (hoare_bind _ _ _ (fun _ => on R)); [|intros []].
  { apply (hoare_when _ _ _ (on R)).
    - intros _ w [Hw _]. exact Hw.
    - intros He%negb_false_iff%bool_decide_eq_true w [Hd (c & Hc & Hx)].
      split; [exact Hd|]. exists c. split; [done|]. congruence. }
  eapply hoare_conseq; [apply (on_rename R temporary target (fun d => exists c, peek target d0 = None /\
    differs_at (at_target target) d0 d /\ peek target d = Some c /\ digest (bytes_of c) = mkDigest size sha))|..].
  2: intros w Hw; exact Hw.
  2: intros u w Hw; exact Hw.
  2: by intros w [Hw _].
  intros d c [Hd (c' & Hc' & Hdig)] Hc. exists c. split; [done|]. split; [|split; [apply peek_poke|congruence]].
  apply differs_poke; [by right|]. apply differs_poke; [by left|].
  apply (differs_weaken is_temporary); [done|]. by left.
Qed.

Lemma put_hoare key staged size sha d0 :
  local_key key ->
  hoare (on (fun d => d = d0)) (put root steady_clock key staged size sha)
    (fun _ w => exists target c, resolve root key = Ok target /\ differs_at (at_target target) d0 (disk w) /\
       peek target (disk w) = Some c /\ digest (bytes_of c) = mkDigest size sha /\
       (peek target d0 = None \/ peek target d0 = Some c))
    (only is_temporary d0).
Proof.
  intros (target & Ht & Hnt). set (F := only is_temporary d0). set (D := fun d => d = d0).
  assert (forall w, on D w -> F w) as HD by (intros w Hw; unfold F, only; rewrite Hw; apply differs_refl).
  assert (forall B (m : IO B) P Q, hoare P m Q (on D) -> hoare P m Q F) as Weak.
  { intros B m P Q H. by eapply hoare_conseq; [exact H|..]. }
  unfold put. eapply hoare_bind; [apply Weak, (on_digest D)|]. intros source.
  eapply hoare_bind; [|intros []].
  { apply (hoare_when _ _ _ (on D)); [|by intros _ w [Hw _]]. intros _ w [Hw _]. by apply HD. }
  rewrite Ht. apply (hoare_lift _ target); [done|].
  eapply hoare_bind; [apply Weak, (on_exists D)|]. intros there. destruct there.
  - eapply hoare_bind; [apply Weak; eapply hoare_conseq; [apply (on_digest D target)|intros w [Hw _]; exact Hw|intros ? ? H; exact H|done]|].
    intros existing. destruct (bool_decide_reflect (existing = mkDigest size sha)) as [->|Hn]; cbn [negb].
    + intros w [Hw (c & Hc & He)]. red in Hw. unfold D in Hw. rewrite Hw in Hc. exists target, c. rewrite Hw.
      split; [done|]. split; [apply differs_refl|]. split; [done|]. split; [done|]. by right.
    + intros w [Hw _]. by apply HD.
  - apply (hoare_conseq (fun w => peek target d0 = None /\ on D w) _ _
      (fun _ w => exists c, peek target d0 = None /\ differs_at (at_target target) d0 (disk w) /\
         peek target (disk w) = Some c /\ digest (bytes_of c) = mkDigest size sha) _ F F).
    2: { intros w [Hw He]. split; [|done]. red in Hw. unfold D in Hw. rewrite Hw in He. symmetry in He. apply bool_decide_eq_false in He.
         by destruct (peek target d0); [destruct He|]. }
    2: { intros _ w (c & H1 & H2 & H3 & H4). exists target, c. do 4 (split; [done|]). by left. }
    2: done.
    apply hoare_pure. intros Hnone.
    eapply hoare_bind; [apply Weak, (on_create D)|]. intros [].
    eapply hoare_bind; [apply sibling_value|]. intros temporary. apply hoare_pure. intros Htmp.
    eapply hoare_conseq; [by apply (copied_hoare staged target temporary size sha d0)|exact HD|intros u w H; exact H|done].
Qed.
(** ** A retrieval, and the rest *)

Lemma preserves_sibling {B} (P : World -> Prop) target (f : Loc -> IO B) :
  (forall l, is_temporary l -> preserves P (f l)) -> preserves P (bind (temporary_sibling steady_clock target) f).
Proof. intros H w Hw. cbn. apply H; [apply temporary_path_marked|done]. Qed.

Lemma get_only key destination d0 : preserves (only (at_target destination) d0) (get root steady_clock key destination).
Proof.
  unfold get. apply preserves_bind_lift. intros source _.
  apply preserves_bind; [apply only_exists|]. intros there.
  apply preserves_bind; [apply preserves_when, preserves_throw|]. intros _.
  apply preserves_bind; [apply only_create|]. intros _.
  apply preserves_sibling. intros l Hl. apply only_clean; [by left|].
  apply preserves_bind; [apply only_copy; by left|]. intros _. apply only_rename; [by left|by right].
Qed.
Lemma remove_only key d0 target :
  resolve root key = Ok target -> preserves (only (fun l => l = target) d0) (remove root key).
Proof.
  intros Ht. unfold remove. rewrite Ht. apply preserves_bind_lift. intros l [= <-].
  by apply only_or_error, only_remove.
Qed.
End Provider.

(** ** The cache of the Git adapter *)

Section Cache.
Context {A : AssetCrypto} (c : option Index).
Definition caches (w : World) : Prop := cached w = c.
Lemma caches_pure {B} what (f : World -> result B * World) :
  (forall w, cached (snd (f w)) = cached w) -> preserves caches (attempt what f).
Proof. intros H. apply attempt_keeps; [done|]. intros w Hw. unfold caches. by rewrite H. Qed.
Lemma caches_exists l : preserves caches (fs_exists l).
Proof. by apply caches_pure. Qed.
Lemma caches_create l : preserves caches (fs_create_directories l).
Proof. by apply caches_pure. Qed.
Lemma caches_read what l : preserves caches (read_input what l).
Proof. apply caches_pure. intros w. by destruct (peek l (disk w)). Qed.
Lemma caches_open what l : preserves caches (open_input what l).
Proof. apply caches_pure. intros w. by destruct (peek l (disk w)). Qed.
Lemma caches_output what l : preserves caches (open_output what l).
Proof. by apply caches_pure. Qed.
Lemma caches_private : preserves caches make_private.
Proof. by apply caches_pure. Qed.
Lemma caches_remove l : preserves caches (fs_remove l).
Proof. by apply caches_pure. Qed.
Lemma caches_rename a b : preserves caches (fs_rename a b).
Proof. apply caches_pure. intros w. by destruct (peek a (disk w)). Qed.
Lemma caches_write l b : preserves caches (write_output l b).
Proof.
  apply preserves_when. intros w Hw. unfold fs_write_file. by destruct (outcomes w (tick w)) as [|[s|]|s].
Qed.
Lemma caches_unchecked l b : preserves caches (write_unchecked l b).
Proof. intros w Hw. unfold write_unchecked. by destruct (outcomes w (tick w)) as [|[s|]|s]. Qed.
Lemma caches_digest l : preserves caches (digest_file l).
Proof.
  apply preserves_bind; [apply caches_open|]. intros _. apply preserves_bind; [apply caches_read|]. auto with preserves.
Qed.
#[local] Hint Resolve caches_exists caches_create caches_read caches_open caches_output caches_private caches_remove
  caches_rename caches_write caches_unchecked caches_digest : preserves.
Context (root : string) (steady_clock : nat -> string).
Lemma caches_copy source target : preserves caches (copy_file_streaming source target).
Proof. unfold copy_file_streaming, or_storage_error. auto 12 with preserves. Qed.
Lemma caches_clean l m : preserves caches m -> preserves caches (or_clean l m).
Proof. intros H. unfold or_clean, remove_quietly. auto 12 with preserves. Qed.
#[local] Hint Resolve caches_copy caches_clean : preserves.
Lemma caches_put key staged size sha : preserves caches (put root steady_clock key staged size sha).
Proof. unfold put, temporary_sibling. keeps_cache. Qed.
Lemma caches_get key destination : preserves caches (get root steady_clock key destination).
Proof. unfold get, temporary_sibling. keeps_cache. Qed.
Lemma caches_exist key : preserves caches (exists_ root key).
Proof. unfold exists_. keeps_cache. Qed.
Lemma caches_drop key : preserves caches (remove root key).
Proof. unfold remove, or_storage_error. keeps_cache. Qed.
End Cache.

(** ** Without faults *)

Section Runs.
Context {A : AssetCrypto} (root : string) (steady_clock : nat -> string).

Lemma runs_try {B} (m : IO B) h w Q : runs m w Q -> runs (try_catch m h) w Q.
Proof. intros H Hc. destruct (H Hc) as (a & w' & He & ? & ?). exists a, w'. unfold try_catch. by rewrite He. Qed.

Lemma runs_copy source target content w :
  peek source (disk w) = Some content -> source <> target ->
  runs (copy_file_streaming source target) w (fun _ w' => disk w' = poke target (Some content) (disk w)).
Proof.
  intros Hs Hne. unfold copy_file_streaming.
  eapply runs_bind; [by eapply runs_try, runs_open_input|]. after w1 H1.
  eapply runs_bind; [apply runs_try, runs_open_output|]. after w2 H2.
  eapply runs_bind; [apply runs_try, runs_make_private|]. after w3 H3.
  apply runs_try. assert (disk w3 = poke target (Some "") (disk w)) as Hd by congruence.
  eapply runs_bind; [apply (runs_read_input _ _ content); by rewrite Hd, peek_poke_ne|]. intros b w4 [-> H4].
  eapply runs_weaken; [apply (runs_write_output _ _ (disk w)); congruence|].
  after w5 H5. by rewrite H5, string_of_bytes_of.
Qed.

Lemma local_put_runs key staged content w :
  local_key root key -> ~ local_owns root staged -> peek staged (disk w) = Some content ->
  local_objects root (disk w) key = None ->
  runs (put root steady_clock key staged (dg_byte_size (digest (bytes_of content))) (dg_sha256 (digest (bytes_of content)))) w
    (fun _ w' => exists target temporary, resolve root key = Ok target /\ is_temporary temporary /\
      disk w' = poke target (Some content) (poke temporary None (disk w))).
Proof.
  intros (target & Ht & Hnt) Hst Hs Hnone. unfold local_objects in Hnone. rewrite Ht in Hnone. unfold put.
  eapply runs_bind; [by eapply runs_digest_file|]. intros ? w1 [-> H1].
  rewrite bool_decide_eq_true_2 by done. cbn [negb when].
  eapply runs_bind; [by apply (runs_mret tt _ (fun _ w' => w' = w1))|]. intros _ ? ->. rewrite Ht.
  eapply runs_bind; [by apply (runs_lift _ target _ (fun l w' => l = target /\ w' = w1))|]. intros ? ? [-> ->].
  eapply runs_bind; [apply runs_exists|]. intros ? w2 [-> H2].
  rewrite H1, Hnone. rewrite bool_decide_eq_false_2 by (by intros []).
  eapply runs_bind; [apply runs_create_directories|]. after w3 H3.
  set (temporary := Outside (temporary_path (path_of target) (steady_clock (tick w3)))).
  eapply runs_bind; [by apply (runs_gets _ _ (fun l w' => l = temporary /\ w' = w3))|]. intros ? ? [-> ->].
  assert (is_temporary temporary) as Htmp by apply temporary_path_marked.
  assert (disk w3 = disk w) as Hd by congruence. apply runs_try.
  eapply runs_bind; [apply (runs_copy _ _ content); [by rewrite Hd|intros ->; by apply Hst; right]|]. after w4 H4.
  eapply runs_bind; [apply (runs_digest_file _ content); rewrite H4; apply peek_poke|]. intros ? w5 [-> H5].
  rewrite bool_decide_eq_true_2 by done. cbn [negb when].
  eapply runs_bind; [by apply (runs_mret tt _ (fun _ w' => w' = w5))|]. intros _ ? ->.
  eapply runs_weaken; [apply (runs_rename _ _ content); rewrite H5, H4; apply peek_poke|].
  after w6 H6. rewrite H6. exists target, temporary. split; [done|]. split; [done|].
  by rewrite H5, H4, Hd, poke_poke.
Qed.

Lemma local_get_runs key destination content w :
  local_key root key -> local_objects root (disk w) key = Some content -> ~ local_owns root destination ->
  runs (get root steady_clock key destination) w (fun _ w' => peek destination (disk w') = Some content).
Proof.
  intros (source & Ht & Hnt) Hs Hown. unfold local_objects in Hs. rewrite Ht in Hs. unfold get. rewrite Ht.
  eapply runs_bind; [by apply (runs_lift _ source _ (fun l w' => l = source /\ w' = w))|]. intros ? ? [-> ->].
  eapply runs_bind; [apply runs_exists|]. intros ? w1 [-> H1]. rewrite Hs, bool_decide_eq_true_2 by done.
  cbn [negb when]. eapply runs_bind; [by apply (runs_mret tt _ (fun _ w' => w' = w1))|]. intros _ ? ->.
  eapply runs_bind; [apply runs_create_directories|]. after w2 H2.
  set (temporary := Outside (temporary_path (path_of destination) (steady_clock (tick w2)))).
  eapply runs_bind; [by apply (runs_gets _ _ (fun l w' => l = temporary /\ w' = w2))|]. intros ? ? [-> ->].
  assert (is_temporary temporary) as Htmp by apply temporary_path_marked. apply runs_try.
  eapply runs_bind; [apply (runs_copy _ _ content); [congruence|by intros ->]|]. after w3 H3.
  eapply runs_weaken; [apply (runs_rename _ _ content); rewrite H3; apply peek_poke|].
  after w4 H4. rewrite H4. apply peek_poke.
Qed.

Lemma local_exists_runs key w :
  local_key root key ->
  runs (exists_ root key) w (fun b w' => b = bool_decide (is_Some (local_objects root (disk w) key)) /\ disk w' = disk w).
Proof.
  intros (l & Hl & _). unfold exists_, local_objects. rewrite Hl.
  eapply runs_bind; [by apply (runs_lift _ l _ (fun x w' => x = l /\ w' = w))|]. intros ? ? [-> ->]. apply runs_exists.
Qed.
Lemma local_remove_runs key w :
  local_key root key -> runs (remove root key) w (fun _ w' => local_objects root (disk w') key = None).
Proof.
  intros (l & Hl & _). unfold remove, local_objects. rewrite Hl.
  eapply runs_bind; [by apply (runs_lift _ l _ (fun x w' => x = l /\ w' = w))|]. intros ? ? [-> ->].
  apply runs_try. eapply runs_weaken; [apply runs_remove|]. after w' H'. rewrite H'. apply peek_poke.
Qed.
End Runs.

(** ** The interface *)

Section Laws.
Context {A : AssetCrypto} (root : string) (steady_clock : nat -> string).

Lemma target_owned key target l : resolve root key = Ok target -> at_target target l -> local_owns root l.
Proof. intros Ht [Hl| ->]; [by right|by apply (resolve_owned root key)]. Qed.

Lemma local_put_any key staged size sha w r w' :
  local_key root key -> put root steady_clock key staged size sha w = (r, w') ->
  touches (local_owns root) w w' /\
  match r with
  | Ok _ =>
      (exists content, local_objects root (disk w') key = Some content /\ digest (bytes_of content) = mkDigest size sha) /\
      forall k, local_key root k -> ~ local_alias root k key -> local_objects root (disk w') k = local_objects root (disk w) k
  | Err _ => forall k, local_key root k -> local_objects root (disk w') k = local_objects root (disk w) k
  end.
Proof.
  intros Hk He. pose proof (put_hoare root steady_clock key staged size sha (disk w) Hk w eq_refl) as H.
  pose proof (caches_put (cached w) root steady_clock key staged size sha w eq_refl) as Hcache.
  rewrite He in H, Hcache. destruct r as [u|e].
  - destruct H as (target & c & Ht & Hd & Hc & Hdig & _).
    split; [split; [|exact Hcache]; by eapply differs_weaken; [exact Hd|intros l; by apply (target_owned key)]|]. split.
    + exists c. split; [|done]. unfold local_objects. by rewrite Ht.
    + intros k Hk' Ha. eapply objects_only; [done| |exact Hd]. destruct Hk' as (l & Hl & Hnt).
      intros l' Hl' [Htm| ->]; [congruence|]. apply Ha. unfold local_alias. congruence.
  - split; [split; [|exact Hcache]; eapply differs_weaken; [exact H|]; by right|]. intros k Hk'. by apply objects_temporary.
Qed.

Lemma local_put_keeps key staged size sha w r w' k content :
  local_key root key -> local_key root k -> put root steady_clock key staged size sha w = (r, w') ->
  local_objects root (disk w) k = Some content -> local_objects root (disk w') k = Some content.
Proof.
  intros Hk Hk' He Hc. pose proof (put_hoare root steady_clock key staged size sha (disk w) Hk w eq_refl) as H.
  rewrite He in H. destruct r as [u|e].
  - destruct H as (target & c & Ht & Hd & Hc' & _ & Hold). destruct Hk' as (l & Hl & Hnt).
    unfold local_objects in *. rewrite Hl in *. destruct (decide (l = target)) as [->|Hne].
    + destruct Hold as [Hold|Hold]; congruence.
    + destruct Hd as [_ Hd]. rewrite Hd; [done|]. by intros [?|?].
  - by rewrite (objects_temporary root k (disk w)).
Qed.

Lemma local_get_any key destination w r w' :
  get root steady_clock key destination w = (r, w') ->
  touches (fun l => local_owns root l \/ l = destination) w w' /\
  forall k, local_key root k -> ~ local_owns root destination ->
    local_objects root (disk w') k = local_objects root (disk w) k.
Proof.
  intros He. pose proof (get_only root steady_clock key destination (disk w) w (differs_refl _ _)) as H.
  pose proof (caches_get (cached w) root steady_clock key destination w eq_refl) as Hcache.
  rewrite He in H, Hcache. cbn [snd] in H. split.
  - split; [|exact Hcache]. eapply differs_weaken; [exact H|]. intros l [Hl| ->]; [left; by right|by right].
  - intros k Hk Hown. eapply objects_only; [done| |exact H]. destruct Hk as (l & Hl & Hnt).
    intros l' Hl' [Ht| ->]; [congruence|]. apply Hown. by apply (resolve_owned root k).
Qed.

Lemma local_remove_any key w r w' :
  remove root key w = (r, w') ->
  touches (local_owns root) w w' /\
  forall k, local_key root k -> ~ local_alias root k key ->
    local_objects root (disk w') k = local_objects root (disk w) k.
Proof.
  intros He. pose proof (caches_drop (cached w) root key w eq_refl) as Hcache. rewrite He in Hcache.
  destruct (resolve root key) as [target|e] eqn:Ht.
  - pose proof (remove_only root key (disk w) target Ht w (differs_refl _ _)) as H. rewrite He in H. cbn [snd] in H.
    split; [split; [|exact Hcache]; eapply differs_weaken; [exact H|intros l ->; by apply (resolve_owned root key)]|].
    intros k Hk Ha. eapply objects_only; [done| |exact H]. intros l Hl ->. apply Ha. unfold local_alias. congruence.
  - unfold remove in He. rewrite Ht in He. injection He as _ <-. by repeat split.
Qed.

Lemma local_exists_any key w r w' :
  exists_ root key w = (r, w') ->
  touches (fun _ => False) w w' /\ (local_key root key -> r = Ok true -> is_Some (local_objects root (disk w) key)).
Proof.
  unfold local_objects. intros He. pose proof (caches_exist (cached w) root key w eq_refl) as Hcache. rewrite He in Hcache.
  unfold exists_ in He. destruct (resolve root key) as [l|e] eqn:Hl.
  - change (fs_exists l w = (r, w')) in He. pose proof (on_exists (fun d => d = disk w) l w eq_refl) as H.
    rewrite He in H. assert (touches (fun _ => False) w w') as Ht.
    { split; [|exact Hcache]. assert (disk w' = disk w) as -> by (destruct r; [by destruct H|exact H]). apply differs_refl. }
    split; [exact Ht|]. destruct r as [b|e]; [|done]. destruct H as [H Hb]. intros _ [= ->].
    rewrite H in Hb. symmetry in Hb. by apply bool_decide_eq_true in Hb.
  - injection He as <- <-. by repeat split.
Qed.

(** A directory is a storage provider. *)
Definition local_laws : ProviderLaws (local_provider root steady_clock).
Proof.
  refine (@Build_ProviderLaws A (local_provider root steady_clock) (local_objects root) (local_alias root)
    (local_owns root) (local_key root) _ _ _ _ _ _ _ _ _ _ _ _).
  - intros d d' k (l & Hl & _) H. unfold local_objects. rewrite Hl. by apply H, (resolve_owned root k).
  - intros l Hl. destruct l as [| | | |path]; [..|by exists path]; exfalso;
      (destruct Hl as [Hl|Hl]; [by destruct root|by vm_compute in Hl]).
  - intros d k k' H. unfold local_objects. by rewrite H.
  - intros key staged content w Hk Hst Hs Hn.
    eapply runs_weaken; [by apply local_put_runs|]. intros u w' (target & temporary & Ht & Htmp & ->).
    unfold local_objects. rewrite Ht. apply peek_poke.
  - intros key w Hk. eapply runs_weaken; [by apply local_exists_runs|]. by intros b w' [-> _].
  - exact (local_get_runs root steady_clock).
  - exact (local_remove_runs root).
  - exact local_put_any.
  - exact local_put_keeps.
  - exact local_exists_any.
  - exact local_get_any.
  - exact local_remove_any.
Defined.
End Laws.

End LocalProviderFacts.

Module LocalProviderTheorems.
Import LocalDirectoryProvider LocalProviderFacts.

(** No key leads out of the directory. *)
Lemma resolve_inside root key l :
  resolve root key = Ok l ->
  exists parts, l = Outside (root +:+ "/" +:+ join_slashes parts) /\
    forall part, part ∈ parts -> part <> "" /\ part <> "." /\ part <> "..".
Proof.
  unfold resolve. destruct (String.eqb key "" || _); [done|]. destruct (existsb _ _) eqn:Hdots; [done|]. intros [= <-].
  eexists. split; [reflexivity|]. intros part [Hin He]%elem_of_list_filter.
  apply negb_true_iff, String.eqb_neq in He.
  assert (forall x, x = "." \/ x = ".." -> x ∉ components "" key) as Hx.
  { intros x Hx Hin'. apply not_true_iff_false in Hdots. apply Hdots, existsb_exists. exists x.
    split; [by apply list_elem_of_In|]. by destruct Hx as [-> | ->]. }
  split; [done|]. split; intros ->; by eapply Hx; [|exact Hin]; auto.
Qed.

(** ** Where a call writes *)

Section Contained.
Context {A : AssetCrypto} (root : string) (steady_clock : nat -> string).

(** A temporary file in the directory of [target]. *)
Definition beside (target l : Loc) : Prop :=
  exists dir name n, path_of target = dir +:+ name /\ ~ "/"%char ∈ bytes_of name /\
    l = Outside (dir +:+ "." +:+ name +:+ ".holder-tmp-" +:+ steady_clock n).
Definition named (key : string) (l : Loc) : Prop := resolve root key = Ok l.

Lemma split_filename_spec s dir name : split_filename s = (dir, name) -> s = dir +:+ name /\ ~ "/"%char ∈ bytes_of name.
Proof.
  revert dir name. induction s as [|c s IH]; intros dir name; cbn [split_filename].
  - intros [= <- <-]. split; [done|]. by intros ?%elem_of_nil.
  - destruct (split_filename s) as [d n] eqn:Hs. destruct (IH d n eq_refl) as [-> Hn].
    destruct (Ascii.eqb_spec c "/") as [->|Hc]; [by intros [= <- <-]|].
    destruct d as [|x d]; intros [= <- <-]; (split; [done|]); [|done].
    cbn. by intros [?|?]%elem_of_cons.
Qed.
Lemma temporary_beside target n : beside target (Outside (temporary_path (path_of target) (steady_clock n))).
Proof.
  unfold temporary_path. destruct (split_filename (path_of target)) as [dir name] eqn:Hs.
  destruct (split_filename_spec _ _ _ Hs). by exists dir, name, n.
Qed.
Lemma sibling_only {B} P d0 target (f : Loc -> IO B) :
  (forall l, beside target l -> preserves (only P d0) (f l)) ->
  preserves (only P d0) (bind (temporary_sibling steady_clock target) f).
Proof. intros H w Hw. cbn. apply H; [apply temporary_beside|done]. Qed.

Lemma contained {B} P (m : IO B) w :
  preserves (only P (disk w)) m -> preserves (caches (cached w)) m -> touches P w (snd (m w)).
Proof. intros H Hc. split; [by apply H, differs_refl|by apply Hc]. Qed.

Lemma put_contained key staged size sha w :
  touches (fun l => exists target, named key target /\ (l = target \/ beside target l)) w
    (snd (put root steady_clock key staged size sha w)).
Proof.
  apply contained; [|apply caches_put].
  unfold put. apply preserves_bind; [apply only_digest|]. intros source.
  apply preserves_bind; [apply preserves_when, preserves_throw|]. intros _. apply preserves_bind_lift. intros target Ht.
  apply preserves_bind; [apply only_exists|]. intros [].
  - apply preserves_bind; [apply only_digest|]. intros existing. apply preserves_when, preserves_throw.
  - apply preserves_bind; [apply only_create|]. intros _. apply sibling_only. intros l Hl.
    assert (exists target, named key target /\ (l = target \/ beside target l)) as Hin by (exists target; by split; [|right]).
    apply only_clean; [done|]. apply preserves_bind; [by apply only_copy|]. intros _.
    apply preserves_bind; [apply only_digest|]. intros copied. apply preserves_bind; [apply preserves_when, preserves_throw|]. intros _.
    apply only_rename; [done|]. exists target. by split; [|left].
Qed.
Lemma get_contained key destination w :
  touches (fun l => l = destination \/ beside destination l) w (snd (get root steady_clock key destination w)).
Proof.
  apply contained; [|apply caches_get].
  unfold get. apply preserves_bind_lift. intros source _.
  apply preserves_bind; [apply only_exists|]. intros there.
  apply preserves_bind; [apply preserves_when, preserves_throw|]. intros _.
  apply preserves_bind; [apply only_create|]. intros _. apply sibling_only. intros l Hl.
  apply only_clean; [by right|].
  apply preserves_bind; [apply only_copy; by right|]. intros _. apply only_rename; [by right|by left].
Qed.
Lemma remove_contained key w : touches (named key) w (snd (remove root key w)).
Proof.
  apply contained; [|apply caches_drop].
  unfold remove. apply preserves_bind_lift. intros target Ht. by apply only_or_error, only_remove.
Qed.
Lemma exists_contained key w : touches (fun _ => False) w (snd (exists_ root key w)).
Proof.
  apply contained; [|apply caches_exist].
  unfold exists_. apply preserves_bind_lift. intros target _. apply only_exists.
Qed.
End Contained.

(** C12: A directory is a storage provider. Its objects are the files under the root that
    the keys name; an object that was put is there with the size and the hash that were
    asked for, or the call threw and left every object as it was; no object is ever
    replaced, a retrieval and what fails change none; and without faults what was put is
    what is got. No key leads out of the directory, whatever it holds and whatever fails:
    [put] writes at most the file that its key names, which is under the root, and a
    temporary file beside it, [remove] at most the file that its key names, [get] at most
    its destination and a temporary file beside that, and [exists] nothing. *)
Theorem local_provider_correct (A : AssetCrypto) (root : string) (steady_clock : nat -> string) :
  (exists L : ProviderLaws (local_provider root steady_clock),
    (forall d key, objects (ProviderLaws := L) d key = match resolve root key with Ok l => peek l d | Err _ => None end) /\
    (forall key, valid_key (ProviderLaws := L) key <->
       exists l, resolve root key = Ok l /\ contains ".holder-tmp-" (path_of l) = false) /\
    (forall k k', alias (ProviderLaws := L) k k' <-> resolve root k = resolve root k') /\
    (forall l, owns (ProviderLaws := L) l <->
       String.prefix (root +:+ "/") (path_of l) = true \/ contains ".holder-tmp-" (path_of l) = true)) /\
  (forall key l, resolve root key = Ok l ->
     exists parts, l = Outside (root +:+ "/" +:+ join_slashes parts) /\
       forall part, part ∈ parts -> part <> "" /\ part <> "." /\ part <> "..") /\
  (forall key staged size sha destination w,
     let provider := local_provider root steady_clock in
     touches (fun l => exists target, named root key target /\ (l = target \/ beside steady_clock target l)) w
       (snd (@StorageProvider.put provider key staged size sha w)) /\
     touches (fun l => l = destination \/ beside steady_clock destination l) w
       (snd (@StorageProvider.get provider key destination w)) /\
     touches (named root key) w (snd (@StorageProvider.remove provider key w)) /\
     touches (fun _ => False) w (snd (@StorageProvider.exists_ provider key w))).
Proof.
  split; [exists (local_laws root steady_clock); split; [done|]; split; [|done]|split; [exact (resolve_inside root)|]].
  - intros key. change (valid_key key) with (local_key root key).
    split; intros (l & Hl & H); exists l; (split; [done|]); [by apply not_true_is_false|].
    unfold is_temporary, temporary_mark. by rewrite H.
  - intros key staged size sha destination w. cbn zeta.
    split; [apply put_contained|]. split; [apply get_contained|]. split; [apply remove_contained|apply exists_contained].
Qed.

(** A file is put under a key that must not leave the directory. *)
Example resolve_examples :
  resolve "/store" "p//a.holderasset" = Ok (Outside "/store/p/a.holderasset") /\
  resolve "/store" "../a" = Err (StorageError InvalidConfiguration "unsafe storage object key") /\
  resolve "/store" "/a" = Err (StorageError InvalidConfiguration "invalid storage object key") /\
  resolve "/store" "p/./a" = Err (StorageError InvalidConfiguration "unsafe storage object key").
Proof. by vm_compute. Qed.
End LocalProviderTheorems.
