(* ===== verification/ResourceManifest.v ===== *)
(** * Manifests of resources and locations

    [src/src/resource/ResourceManifest.cpp] and [ResourcePaths.cpp]: a resource, with its
    assets and where they are stored, and a storage location are JSON files of the
    repository. *)

From stdpp Require Import base list strings numbers sorting.
From Stdlib Require Import Ascii.
From S2P Require Import Prelude Double Model Text CardFrontMatter Json ReferenceJson.
Import CardFrontMatter Json.

Module ResourceManifest.

Definition kManifestVersion : Z := 1.

(** [sharded_path] *)
Definition sharded_path (root id extension : string) : result string :=
  if Nat.ltb (String.length id) 4 then Err (Runtime "id too short for path sharding")
  else Ok (root +:+ "/" +:+ String.substring 0 2 id +:+ "/" +:+ String.substring 2 2 id +:+ "/" +:+ id +:+ extension).
Definition resource_rel_path (id : string) : result string := sharded_path "resources" id ".json".
Definition location_rel_path (id : string) : result string := sharded_path "locations" id ".json".

Definition require_non_empty (value field : string) : result unit :=
  if String.eqb value "" then Err (Runtime ("resource manifest missing " +:+ field)) else Ok tt.

Section Manifest.
Context {N : JsonLib}.

(** ** Writing *)

Definition placement_json (p : Placement) : Json :=
  object [("placement_id", JString (placement_id p));
          ("location_id", JString (pl_location_id p));
          ("object_key", JString (object_key p));
          ("encoding", JString (pl_encoding p));
          ("stored_byte_size", JInt (stored_byte_size p));
          ("stored_sha256", JString (stored_sha256 p));
          ("created_at", JInt (pl_created_at p))].

Definition placement_of (a : Asset) (p : Placement) : result Json :=
  if negb (String.eqb (pl_asset_id p) (asset_id a)) then Err (Runtime "placement asset_id mismatch")
  else Ok (placement_json p).

Definition asset_json (a : Asset) : result Json :=
  let? ps := map_result (placement_of a) (as_placements a) in
  Ok (object [("asset_id", JString (asset_id a));
              ("original_filename", JString (original_filename a));
              ("media_type", JString (media_type a));
              ("byte_size", JInt (byte_size a));
              ("plaintext_sha256", JString (plaintext_sha256 a));
              ("created_at", JInt (as_created_at a));
              ("updated_at", JInt (as_updated_at a));
              ("placements", JArray ps)]).

Definition asset_of (r : Resource) (a : Asset) : result Json :=
  if negb (String.eqb (as_resource_id a) (resource_id r)) then Err (Runtime "asset resource_id mismatch")
  else asset_json a.

Definition require_resource (r : Resource) : result unit :=
  let? _ := require_non_empty (resource_id r) "resource_id" in
  let? _ := require_non_empty (re_project_id r) "project_id" in
  let? _ := require_non_empty (re_type r) "type" in
  require_non_empty (re_label r) "label".

Definition resource_json (r : Resource) : Json :=
  object [("resource_id", JString (resource_id r));
          ("project_id", JString (re_project_id r));
          ("type", JString (re_type r));
          ("label", JString (re_label r));
          ("metadata", of_map of_strings (re_metadata r));
          ("created_at", JInt (re_created_at r));
          ("updated_at", JInt (re_updated_at r))].

(** [body.dump(2) + "\n"] *)
Definition dump_line (body : Json) : result string :=
  let? text := json_dump (Some 2%nat) body in Ok (text +:+ lf).

Definition render_resource_manifest (b : ResourceBundle) : result string :=
  let r := bu_resource b in
  let? _ := require_resource r in
  let? assets := map_result (asset_of r) (bu_assets b) in
  dump_line (object [("format_version", JInt kManifestVersion);
                     ("resource", resource_json r);
                     ("assets", JArray assets)]).

(** ** Reading *)

Definition parse_placement (asset_id : string) (item : Json) : result Placement :=
  let? id := rbind (at_key "placement_id" item) get_string in
  let? location := rbind (at_key "location_id" item) get_string in
  let? key := rbind (at_key "object_key" item) get_string in
  let? encoding := rbind (at_key "encoding" item) get_string in
  let? size := rbind (at_key "stored_byte_size" item) get_int64 in
  let? sha := rbind (at_key "stored_sha256" item) get_string in
  let? created := rbind (at_key "created_at" item) get_int64 in
  let? _ := require_non_empty id "placement_id" in
  let? _ := require_non_empty location "location_id" in
  let? _ := require_non_empty key "object_key" in
  let? _ := require_non_empty encoding "encoding" in
  if Z.ltb size 0 then Err (Runtime "resource manifest has negative stored_byte_size")
  else Ok (mkPlacement id asset_id location key encoding size sha created).

Definition parse_asset (resource_id : string) (item : Json) : result Asset :=
  let? id := rbind (at_key "asset_id" item) get_string in
  let? filename := rbind (at_key "original_filename" item) get_string in
  let? media := rbind (at_key "media_type" item) get_string in
  let? size := rbind (at_key "byte_size" item) get_int64 in
  let? sha := rbind (at_key "plaintext_sha256" item) get_string in
  let? created := rbind (at_key "created_at" item) get_int64 in
  let? updated := rbind (at_key "updated_at" item) get_int64 in
  let? _ := require_non_empty id "asset_id" in
  let? _ := require_non_empty sha "plaintext_sha256" in
  if Z.ltb size 0 then Err (Runtime "resource manifest has negative byte_size") else
  let? items := at_key "placements" item in
  match elements items with
  | None => Err (Runtime "resource manifest placements must be an array")
  | Some items =>
      let? ps := map_result (parse_placement id) items in
      Ok (mkAsset id resource_id filename media size sha created updated ps)
  end.

(** [body.is_object() && body.at("format_version").get<int>() == kManifestVersion] *)
Definition check_version (what : string) (body : Json) : result unit :=
  let bad := Err (Runtime ("unsupported " +:+ what +:+ " manifest version")) in
  if negb (is_object body) then bad
  else let? version := rbind (at_key "format_version" body) get_int in
       if Z.eqb version kManifestVersion then Ok tt else bad.

Definition parse_resource_manifest (text : string) : result ResourceBundle :=
  let? body := json_parse text in
  let? _ := check_version "resource" body in
  let? item := at_key "resource" body in
  let? id := rbind (at_key "resource_id" item) get_string in
  let? project := rbind (at_key "project_id" item) get_string in
  let? type := rbind (at_key "type" item) get_string in
  let? label := rbind (at_key "label" item) get_string in
  let? metadata := rbind (at_key "metadata" item) (get_map (get_vector get_string)) in
  let? created := rbind (at_key "created_at" item) get_int64 in
  let? updated := rbind (at_key "updated_at" item) get_int64 in
  let r := mkResource id project type label metadata created updated in
  let? _ := require_resource r in
  let? items := at_key "assets" body in
  match elements items with
  | None => Err (Runtime "resource manifest assets must be an array")
  | Some items =>
      let? assets := map_result (parse_asset id) items in
      Ok (mkBundle r assets)
  end.

(** ** Locations *)

Definition require_location (l : Location) : result unit :=
  let? _ := require_non_empty (location_id l) "location_id" in
  let? _ := require_non_empty (lo_project_id l) "project_id" in
  let? _ := require_non_empty (lo_name l) "name" in
  require_non_empty (lo_provider l) "provider".

Definition location_json (l : Location) : Json :=
  object [("location_id", JString (location_id l));
          ("project_id", JString (lo_project_id l));
          ("name", JString (lo_name l));
          ("provider", JString (lo_provider l));
          ("configuration", of_map JString (lo_configuration l));
          ("created_at", JInt (lo_created_at l));
          ("updated_at", JInt (lo_updated_at l))].

Definition render_location_manifest (l : Location) : result string :=
  let? _ := require_location l in
  dump_line (object [("format_version", JInt kManifestVersion); ("location", location_json l)]).

Definition parse_location_manifest (text : string) : result Location :=
  let? body := json_parse text in
  let? _ := check_version "location" body in
  let? item := at_key "location" body in
  let? id := rbind (at_key "location_id" item) get_string in
  let? project := rbind (at_key "project_id" item) get_string in
  let? name := rbind (at_key "name" item) get_string in
  let? provider := rbind (at_key "provider" item) get_string in
  let? configuration := rbind (at_key "configuration" item) (get_map get_string) in
  let? created := rbind (at_key "created_at" item) get_int64 in
  let? updated := rbind (at_key "updated_at" item) get_int64 in
  let l := mkLocation id project name provider configuration created updated in
  let? _ := require_location l in
  Ok l.

End Manifest.
End ResourceManifest.

Module ResourceManifestFacts.
Import ResourceManifest JsonFacts.

(** What a reader of a manifest may rely on. *)
Record valid_placement (aid : string) (p : Placement) : Prop := {
  vp_id : placement_id p <> "";
  vp_asset : pl_asset_id p = aid;
  vp_location : pl_location_id p <> "";
  vp_key : object_key p <> "";
  vp_encoding : pl_encoding p <> "";
  vp_size : 0 <= stored_byte_size p
}.
Record valid_asset (rid : string) (a : Asset) : Prop := {
  va_id : asset_id a <> "";
  va_resource : as_resource_id a = rid;
  va_sha : plaintext_sha256 a <> "";
  va_size : 0 <= byte_size a;
  va_placements : forall p, p ∈ as_placements a -> valid_placement (asset_id a) p
}.
Record valid_bundle (b : ResourceBundle) : Prop := {
  vb_id : resource_id (bu_resource b) <> "";
  vb_project : re_project_id (bu_resource b) <> "";
  vb_type : re_type (bu_resource b) <> "";
  vb_label : re_label (bu_resource b) <> "";
  vb_assets : forall a, a ∈ bu_assets b -> valid_asset (resource_id (bu_resource b)) a
}.
Record valid_location (l : Location) : Prop := {
  vl_id : location_id l <> "";
  vl_project : lo_project_id l <> "";
  vl_name : lo_name l <> "";
  vl_provider : lo_provider l <> ""
}.

(** What the file format can hold: 64-bit numbers, and maps in key order. *)
Definition placement_fits (p : Placement) : Prop := int64 (stored_byte_size p) /\ int64 (pl_created_at p).
Definition asset_fits (a : Asset) : Prop :=
  int64 (byte_size a) /\ int64 (as_created_at a) /\ int64 (as_updated_at a) /\
  forall p, p ∈ as_placements a -> placement_fits p.
Definition bundle_fits (b : ResourceBundle) : Prop :=
  int64 (re_created_at (bu_resource b)) /\ int64 (re_updated_at (bu_resource b)) /\
  key_sorted (re_metadata (bu_resource b)) /\ forall a, a ∈ bu_assets b -> asset_fits a.
Definition location_fits (l : Location) : Prop :=
  int64 (lo_created_at l) /\ int64 (lo_updated_at l) /\ key_sorted (lo_configuration l).

Lemma non_empty_ok s f : s <> "" -> require_non_empty s f = Ok tt.
Proof. unfold require_non_empty. by destruct (String.eqb_spec s ""). Qed.
Lemma non_empty_inv s f : require_non_empty s f = Ok tt -> s <> "".
Proof. unfold require_non_empty. by destruct (String.eqb_spec s ""). Qed.

Section Manifests.
Context {N : JsonLib} `{!JsonLaws N}.

Lemma parse_placement_json aid p :
  valid_placement aid p -> placement_fits p -> parse_placement aid (placement_json p) = Ok p.
Proof.
  intros [H1 <- H2 H3 H4 H5] [F1 F2]. unfold parse_placement, placement_json. members.
  rewrite !get_int64_int, !non_empty_ok by done. cbn [rbind].
  destruct (Z.ltb_spec (stored_byte_size p) 0); [lia|]. by destruct p.
Qed.
Lemma placements_json a ps : (forall p, p ∈ ps -> valid_placement (asset_id a) p) ->
  map_result (placement_of a) ps = Ok (map placement_json ps).
Proof.
  intros H. apply map_result_ok. intros p Hp. unfold placement_of.
  by rewrite (vp_asset _ _ (H p Hp)), String.eqb_refl.
Qed.
Definition asset_value (a : Asset) : Json :=
  object [("asset_id", JString (asset_id a)); ("original_filename", JString (original_filename a));
          ("media_type", JString (media_type a)); ("byte_size", JInt (byte_size a));
          ("plaintext_sha256", JString (plaintext_sha256 a)); ("created_at", JInt (as_created_at a));
          ("updated_at", JInt (as_updated_at a)); ("placements", JArray (map placement_json (as_placements a)))].
Lemma asset_json_value rid a : valid_asset rid a -> asset_json a = Ok (asset_value a).
Proof. intros V. unfold asset_json. by rewrite placements_json by apply V. Qed.
Lemma parse_asset_value rid a : valid_asset rid a -> asset_fits a -> parse_asset rid (asset_value a) = Ok a.
Proof.
  intros [H1 <- H2 H3 H4] (F1 & F2 & F3 & F4). unfold parse_asset, asset_value. members.
  rewrite !get_int64_int, !non_empty_ok by done. cbn [rbind].
  destruct (Z.ltb_spec (byte_size a) 0); [lia|]. members. cbn [elements].
  rewrite map_result_map, (map_result_ok _ id); [rewrite map_id; by destruct a|].
  intros p Hp. apply parse_placement_json; [by apply H4|by apply F4].
Qed.
Lemma assets_json r l : (forall a, a ∈ l -> valid_asset (resource_id r) a) ->
  map_result (asset_of r) l = Ok (map asset_value l).
Proof.
  intros H. apply map_result_ok. intros a Ha. unfold asset_of.
  by rewrite (va_resource _ _ (H a Ha)), String.eqb_refl, (asset_json_value _ _ (H a Ha)).
Qed.

Ltac scalars := repeat (apply list.Forall_cons; split; [cbn [snd]; by constructor|]); try apply list.Forall_nil_2.
Lemma canonical_placement p : placement_fits p -> canonical (placement_json p).
Proof. intros [F1 F2]. apply object_canonical; [done|]. scalars. Qed.
Lemma canonical_asset a : asset_fits a -> canonical (asset_value a).
Proof.
  intros (F1 & F2 & F3 & F4). apply object_canonical; [done|].
  scalars. apply list.Forall_cons. split; [|by apply list.Forall_nil]. constructor.
  apply Forall_map, list.Forall_forall. intros p Hp. by apply canonical_placement, F4.
Qed.

Lemma canonical_bundle b : bundle_fits b ->
  canonical (object [("format_version", JInt kManifestVersion); ("resource", resource_json (bu_resource b));
                     ("assets", JArray (map asset_value (bu_assets b)))]).
Proof.
  intros (F1 & F2 & F3 & F4). apply object_canonical; [done|].
  repeat (apply list.Forall_cons; split; cbn [snd]); [by constructor| | |done].
  - apply object_canonical; [done|]. repeat (apply list.Forall_cons; split; cbn [snd]; [try by constructor|]).
    all: try (by apply canonical_of_map, canonical_strings). done.
  - constructor. apply Forall_map, list.Forall_forall. intros a Ha. by apply canonical_asset, F4.
Qed.
Lemma canonical_location l : location_fits l ->
  canonical (object [("format_version", JInt kManifestVersion); ("location", location_json l)]).
Proof.
  intros (F1 & F2 & F3). apply object_canonical; [done|].
  repeat (apply list.Forall_cons; split; cbn [snd]); [by constructor| |done].
  apply object_canonical; [done|]. repeat (apply list.Forall_cons; split; cbn [snd]; [try by constructor|]); [|done].
  apply canonical_of_map; [done|constructor].
Qed.

Lemma check_version_ok what l :
  at_key "format_version" (object l) = Ok (JInt kManifestVersion) -> check_version what (object l) = Ok tt.
Proof.
  intros H. unfold check_version. rewrite H. cbn [is_object object negb rbind].
  by rewrite get_int_int by (unfold int32; done).
Qed.

Lemma resource_manifest_reads_back b text : valid_bundle b -> bundle_fits b ->
  render_resource_manifest b = Ok text -> parse_resource_manifest text = Ok b.
Proof.
  intros [H1 H2 H3 H4 H5] F. pose proof F as (F1 & F2 & F3 & F4).
  unfold render_resource_manifest, require_resource.
  rewrite !non_empty_ok, assets_json by done. cbn [rbind]. unfold dump_line.
  destruct (json_dump _ _) as [s|e] eqn:Hd; cbn [rbind]; [|done]. intros [= <-].
  unfold parse_resource_manifest. rewrite (parse_dump_line _ _ _ (canonical_bundle b F) Hd). cbn [rbind].
  rewrite check_version_ok by done. cbn [rbind]. member. cbn [rbind]. unfold resource_json. members.
  rewrite get_of_map by apply get_of_strings. cbn [rbind]. members. rewrite !get_int64_int by done. cbn [rbind].
  unfold require_resource. cbn [resource_id re_project_id re_type re_label]. rewrite !non_empty_ok by done. cbn [rbind].
  cbn [rbind elements]. rewrite map_result_map, (map_result_ok _ id).
  - cbn [rbind]. rewrite map_id. by destruct b as [[] ?].
  - intros a Ha. apply parse_asset_value; [by apply H5|by apply F4].
Qed.

Lemma location_manifest_reads_back l text : location_fits l ->
  render_location_manifest l = Ok text -> parse_location_manifest text = Ok l.
Proof.
  intros F. pose proof F as (F1 & F2 & F3). unfold render_location_manifest.
  destruct (require_location l) as [[]|e] eqn:Hr; cbn [rbind]; [|done]. unfold dump_line.
  destruct (json_dump _ _) as [s|e] eqn:Hd; cbn [rbind]; [|done]. intros [= <-].
  unfold parse_location_manifest. rewrite (parse_dump_line _ _ _ (canonical_location l F) Hd). cbn [rbind].
  rewrite check_version_ok by done. cbn [rbind]. member. cbn [rbind]. unfold location_json. members.
  rewrite get_of_map by done. cbn [rbind]. members. rewrite !get_int64_int by done. cbn [rbind].
  replace (mkLocation _ _ _ _ _ _ _) with l by (by destruct l). by rewrite Hr.
Qed.

(** ** What a parser accepts is valid *)

Ltac ok_inv H :=
  repeat (match type of H with
          | rbind ?r _ = Ok _ => let E := fresh "E" in destruct r eqn:E; cbn [rbind] in H; [|done]
          | (if ?b then Err _ else _) = Ok _ => let E := fresh "E" in destruct b eqn:E; [done|]
          end).

Lemma map_result_inv {A B} (f : A -> result B) l l' y :
  map_result f l = Ok l' -> y ∈ l' -> exists x, x ∈ l /\ f x = Ok y.
Proof.
  revert l'. induction l as [|x l IH]; cbn [map_result]; intros l' H Hy.
  - injection H as <-. by inversion Hy.
  - ok_inv H. injection H as <-. apply elem_of_cons in Hy as [->|Hy]; [exists x; split; [by left|done]|].
    destruct (IH _ eq_refl Hy) as (z & Hz & Hf). exists z. split; [by right|done].
Qed.

Lemma parse_placement_valid aid item p : parse_placement aid item = Ok p -> valid_placement aid p.
Proof.
  unfold parse_placement. intros H. ok_inv H.
  repeat match goal with u : unit |- _ => destruct u end. injection H as <-.
  repeat match goal with E : require_non_empty _ _ = Ok _ |- _ => apply non_empty_inv in E end.
  match goal with E : Z.ltb _ _ = false |- _ => apply Z.ltb_ge in E end. done.
Qed.
Lemma parse_asset_valid rid item a : parse_asset rid item = Ok a -> valid_asset rid a.
Proof.
  unfold parse_asset. intros H. ok_inv H.
  destruct (elements _) as [items|]; [|done]. ok_inv H.
  repeat match goal with u : unit |- _ => destruct u end. injection H as <-.
  repeat match goal with E : require_non_empty _ _ = Ok _ |- _ => apply non_empty_inv in E end.
  match goal with E : Z.ltb _ _ = false |- _ => apply Z.ltb_ge in E end.
  split; try done. intros p Hp. cbn in Hp.
  match goal with E : map_result _ _ = Ok _ |- _ => destruct (map_result_inv _ _ _ _ E Hp) as (x & _ & Hx) end.
  by apply parse_placement_valid in Hx.
Qed.
Lemma require_resource_inv r : require_resource r = Ok tt ->
  resource_id r <> "" /\ re_project_id r <> "" /\ re_type r <> "" /\ re_label r <> "".
Proof.
  unfold require_resource. intros H. ok_inv H. repeat match goal with u : unit |- _ => destruct u end.
  repeat match goal with E : require_non_empty _ _ = Ok _ |- _ => apply non_empty_inv in E end. done.
Qed.
Lemma parse_resource_manifest_valid text b : parse_resource_manifest text = Ok b -> valid_bundle b.
Proof.
  unfold parse_resource_manifest. intros H. ok_inv H.
  destruct (elements _) as [items|]; [|done]. ok_inv H. injection H as <-.
  match goal with E : require_resource _ = Ok ?u |- _ => destruct u; apply require_resource_inv in E as (? & ? & ? & ?) end.
  split; try done. intros x0 Ha. cbn in Ha.
  match goal with E : map_result _ _ = Ok _ |- _ => destruct (map_result_inv _ _ _ _ E Ha) as (y & _ & Hx) end.
  by apply parse_asset_valid in Hx.
Qed.
Lemma require_location_inv l : require_location l = Ok tt -> valid_location l.
Proof.
  unfold require_location. intros H. ok_inv H. repeat match goal with u : unit |- _ => destruct u end.
  repeat match goal with E : require_non_empty _ _ = Ok _ |- _ => apply non_empty_inv in E end. done.
Qed.
Lemma parse_location_manifest_valid text l : parse_location_manifest text = Ok l -> valid_location l.
Proof.
  unfold parse_location_manifest. intros H. ok_inv H. injection H as <-.
  match goal with E : require_location _ = Ok ?u |- _ => destruct u; by apply require_location_inv in E end.
Qed.

End Manifests.
End ResourceManifestFacts.

Module ResourceManifestTheorems.
Import ResourceManifest ResourceManifestFacts.

(** C22: Manifests round-trip. What is rendered of a resource or a location that the reader
    would accept, with 64-bit numbers and maps in key order, parses back to the same value;
    and whatever a manifest parses to is valid: its ids, keys and encodings are not empty,
    its sizes not negative, its assets name their resource and its placements their asset. *)
Theorem manifests_round_trip {N : JsonLib} (b : ResourceBundle) (l : Location) (text : string) :
  JsonLaws N ->
  (valid_bundle b -> bundle_fits b -> render_resource_manifest b = Ok text -> parse_resource_manifest text = Ok b) /\
  (location_fits l -> render_location_manifest l = Ok text -> parse_location_manifest text = Ok l) /\
  (parse_resource_manifest text = Ok b -> valid_bundle b) /\
  (parse_location_manifest text = Ok l -> valid_location l).
Proof.
  intros HN. split; [by apply resource_manifest_reads_back|]. split; [by apply location_manifest_reads_back|].
  split; [apply parse_resource_manifest_valid|apply parse_location_manifest_valid].
Qed.

(** A photograph stored in one place, with two titles. *)
Import ReferenceJson.
Definition photo (size : Z) : ResourceBundle :=
  mkBundle (mkResource "r1" "p" "image" "photo.png" [("creator", ["me"]); ("title", ["One"; "Two"])] 1 2)
    [mkAsset "a1" "r1" "photo.png" "image/png" size "abc" 1 1
       [mkPlacement "x1" "a1" "l1" "p/a1" "plain" size "abc" 1]].
Definition shelf : Location := mkLocation "l1" "p" "Shelf" "local" [("prefix", "x")] 1 1.

Lemma photo_valid : valid_bundle (photo 5).
Proof.
  split; try done. intros a ->%list_elem_of_singleton. split; try done.
  intros p ->%list_elem_of_singleton. by split.
Qed.
Lemma photo_fits : bundle_fits (photo 5).
Proof.
  split; [done|]. split; [done|]. split; [by repeat constructor|].
  intros a ->%list_elem_of_singleton. split; [done|]. split; [done|]. split; [done|].
  intros p ->%list_elem_of_singleton. by split.
Qed.
Lemma manifests_round_trip_witness :
  match render_resource_manifest (photo 5) with
  | Ok text => parse_resource_manifest text = Ok (photo 5)
  | Err _ => False
  end.
Proof.
  destruct (render_resource_manifest (photo 5)) as [text|e] eqn:H; [|by vm_compute in H].
  exact (proj1 (manifests_round_trip (photo 5) shelf text reference_json_laws) photo_valid photo_fits H).
Defined.

(** The writer does not look at what the reader refuses. *)
Example unreadable_manifest :
  match render_resource_manifest (photo (-1)) with
  | Ok text => parse_resource_manifest text = Err (Runtime "resource manifest has negative byte_size")
  | Err _ => False
  end.
Proof. vm_compute. reflexivity. Qed.

End ResourceManifestTheorems.
