(* ===== verification/ResourceRepo.v ===== *)
(** * Resources

    [src/src/resource/ResourceRepo.cpp]: the rows that a resource with its metadata, assets
    and placements is spread over. *)

From stdpp Require Import base list sets strings numbers sorting.
From S2P Require Import Prelude Double Model Text Database Json.
Import Json.

(** A change of the tables of resources. *)
Definition on_resources (f : ResourceTables -> ResourceTables) (db : Db) : Db :=
  set_resource_tables (f (resource_tables db)) db.

Module ResourceRepo.

Definition validate_resource (r : Resource) : result unit :=
  if String.eqb (resource_id r) "" || String.eqb (re_project_id r) "" || String.eqb (re_type r) "" ||
     String.eqb (re_label r) ""
  then Err (InvalidArgument "resource identity, project, type and label are required")
  else Ok tt.

(** ** The statements *)

Definition resource_exists (id : string) (t : ResourceTables) : bool :=
  existsb (fun r => String.eqb (rr_id r) id) (resources t).
Definition asset_exists (id : string) (t : ResourceTables) : bool :=
  existsb (fun a => String.eqb (ar_id a) id) (assets t).
Definition location_exists (id : string) (t : ResourceTables) : bool :=
  existsb (fun l => String.eqb (lr_id l) id) (storage_locations t).

Definition insert_resource_row (r : ResourceRow) (db : Db) : option Db :=
  let t := resource_tables db in
  if negb (resource_exists (rr_id r) t) && project_exists (rr_project_id r) db
  then Some (set_resource_tables (mkResourceTables (resources t ++ [r]) (resource_metadata t) (assets t)
                                    (asset_placements t) (storage_locations t)) db)
  else None.
Definition same_metadata (a b : MetadataRow) : bool :=
  String.eqb (md_resource_id a) (md_resource_id b) && String.eqb (md_property a) (md_property b) &&
  Z.eqb (md_value_index a) (md_value_index b).
Definition insert_metadata_row (m : MetadataRow) (db : Db) : option Db :=
  let t := resource_tables db in
  if negb (existsb (same_metadata m) (resource_metadata t)) && resource_exists (md_resource_id m) t
  then Some (set_resource_tables (mkResourceTables (resources t) (resource_metadata t ++ [m]) (assets t)
                                    (asset_placements t) (storage_locations t)) db)
  else None.
Definition insert_asset_row (a : AssetRow) (db : Db) : option Db :=
  let t := resource_tables db in
  if negb (asset_exists (ar_id a) t) && resource_exists (ar_resource_id a) t &&
     project_exists (ar_project_id a) db && Z.leb 0 (ar_byte_size a)
  then Some (set_resource_tables (mkResourceTables (resources t) (resource_metadata t) (assets t ++ [a])
                                    (asset_placements t) (storage_locations t)) db)
  else None.
Definition same_object (a b : Placement) : bool :=
  String.eqb (pl_location_id a) (pl_location_id b) && String.eqb (object_key a) (object_key b).
Definition insert_placement_row (p : Placement) (db : Db) : option Db :=
  let t := resource_tables db in
  if negb (existsb (fun q => String.eqb (placement_id q) (placement_id p) || same_object p q) (asset_placements t)) &&
     asset_exists (pl_asset_id p) t && location_exists (pl_location_id p) t && Z.leb 0 (stored_byte_size p)
  then Some (set_resource_tables (mkResourceTables (resources t) (resource_metadata t) (assets t)
                                    (asset_placements t ++ [p]) (storage_locations t)) db)
  else None.

Definition resource_row (r : Resource) : ResourceRow :=
  mkResourceRow (bind_text (resource_id r)) (bind_text (re_project_id r)) (bind_text (re_type r))
    (bind_text (re_label r)) (re_created_at r) (re_updated_at r).
Definition asset_row (r : Resource) (a : Asset) : AssetRow :=
  mkAssetRow (bind_text (asset_id a)) (bind_text (resource_id r)) (bind_text (re_project_id r))
    (bind_text (original_filename a)) (bind_text (media_type a)) (byte_size a)
    (bind_text (plaintext_sha256 a)) (as_created_at a) (as_updated_at a).
Definition placement_row (a : Asset) (p : Placement) : Placement :=
  mkPlacement (bind_text (placement_id p)) (bind_text (asset_id a)) (bind_text (pl_location_id p))
    (bind_text (object_key p)) (bind_text (pl_encoding p)) (stored_byte_size p)
    (bind_text (stored_sha256 p)) (pl_created_at p).

(** ** Writing *)

Definition remove (id : string) : Repo unit :=
  exec "remove resource failed"
    (fun db => Some (on_resources (delete_resource_rows (fun r => String.eqb (rr_id r) (bind_text id))) db)).
Definition remove_project (id : string) : Repo unit :=
  exec "remove project resources failed"
    (fun db => Some (on_resources (delete_resource_rows (fun r => String.eqb (rr_project_id r) (bind_text id))) db)).

Fixpoint put_values (id property : string) (index : Z) (values : list string) : Repo unit :=
  match values with
  | [] => mret tt
  | v :: values =>
      exec "put resource metadata failed"
        (insert_metadata_row (mkMetadataRow (bind_text id) (bind_text property) index (bind_text v))) ;;;
      put_values id property (index + 1) values
  end.
Definition put_property (id : string) (pv : string * list string) : Repo unit :=
  when (String.eqb pv.1 "") (throw (InvalidArgument "resource metadata property is empty")) ;;;
  put_values id pv.1 0 pv.2.

Definition invalid_placement (a : Asset) (p : Placement) : bool :=
  String.eqb (placement_id p) "" || negb (String.eqb (pl_asset_id p) (asset_id a)) ||
  String.eqb (pl_location_id p) "" || String.eqb (object_key p) "" || String.eqb (pl_encoding p) "" ||
  Z.ltb (stored_byte_size p) 0.
Definition put_placement (a : Asset) (p : Placement) : Repo unit :=
  when (invalid_placement a p) (throw (InvalidArgument "invalid placement in resource bundle")) ;;;
  exec "put placement failed" (insert_placement_row (placement_row a p)).

Definition invalid_asset (r : Resource) (a : Asset) : bool :=
  String.eqb (asset_id a) "" || negb (String.eqb (as_resource_id a) (resource_id r)) ||
  String.eqb (plaintext_sha256 a) "" || Z.ltb (byte_size a) 0.
Definition put_asset (r : Resource) (a : Asset) : Repo unit :=
  when (invalid_asset r a) (throw (InvalidArgument "invalid asset in resource bundle")) ;;;
  exec "put asset failed" (insert_asset_row (asset_row r a)) ;;;
  for_each (as_placements a) (put_placement a).

Definition put_bundle (b : ResourceBundle) : Repo unit :=
  let r := bu_resource b in
  lift (validate_resource r) ;;;
  remove (resource_id r) ;;;
  exec "put resource failed" (insert_resource_row (resource_row r)) ;;;
  for_each (re_metadata r) (put_property (resource_id r)) ;;;
  for_each (bu_assets b) (put_asset r).

(** ** Reading *)

(** [metadata[property].push_back(value)] *)
Fixpoint push_back (k v : string) (l : ResourceMetadata) : ResourceMetadata :=
  match l with
  | [] => [(k, [v])]
  | (k', vs) :: l' => match String.compare k k' with
                      | Lt => (k, [v]) :: l
                      | Eq => (k', vs ++ [v]) :: l'
                      | Gt => (k', vs) :: push_back k v l'
                      end
  end.
Definition read_metadata (rows : list MetadataRow) : ResourceMetadata :=
  foldl (fun l m => push_back (md_property m) (md_value m) l) [] rows.
Definition read_resource_row (r : ResourceRow) (metadata : ResourceMetadata) : Resource :=
  mkResource (rr_id r) (rr_project_id r) (rr_type r) (rr_label r) metadata (rr_created_at r) (rr_updated_at r).
Definition read_asset_row (id : string) (a : AssetRow) (ps : list Placement) : Asset :=
  mkAsset (ar_id a) id (ar_original_filename a) (ar_media_type a) (ar_byte_size a) (ar_plaintext_sha256 a)
    (ar_created_at a) (ar_updated_at a) ps.

Definition by_property : MetadataRow -> MetadataRow -> comparison :=
  cmp_lex (cmp_on md_property String.compare) (cmp_on md_value_index Z.compare).
Definition oldest_asset : AssetRow -> AssetRow -> comparison :=
  cmp_lex (cmp_on ar_created_at Z.compare) (cmp_on ar_id String.compare).
Definition oldest_placement : Placement -> Placement -> comparison :=
  cmp_lex (cmp_on pl_created_at Z.compare) (cmp_on placement_id String.compare).
Definition newest_resource : ResourceRow -> ResourceRow -> comparison :=
  cmp_lex (cmp_rev (cmp_on rr_updated_at Z.compare)) (cmp_on rr_id String.compare).

Section Queries.
Context {E : SqlEngine}.

Definition get (db : Db) (id : string) : option Resource :=
  let t := resource_tables db in
  match head (sql_select (fun r => String.eqb (rr_id r) (bind_text id)) cmp_true (resources t)) with
  | None => None
  | Some row =>
      Some (read_resource_row row (read_metadata
        (sql_select (fun m => String.eqb (md_resource_id m) (bind_text id)) by_property (resource_metadata t))))
  end.

Definition get_placements (db : Db) (a : AssetRow) : list Placement :=
  sql_select (fun p => String.eqb (pl_asset_id p) (bind_text (ar_id a))) oldest_placement
    (asset_placements (resource_tables db)).
Definition get_bundle (db : Db) (id : string) : option ResourceBundle :=
  match get db id with
  | None => None
  | Some r =>
      Some (mkBundle r (map (fun a => read_asset_row id a (get_placements db a))
        (sql_select (fun a => String.eqb (ar_resource_id a) (bind_text id)) oldest_asset
           (assets (resource_tables db)))))
  end.

(** [ORDER BY created_at LIMIT 1] *)
Definition find_by_asset_hash (db : Db) (project sha : string) : option ResourceBundle :=
  match head (sql_select (fun a => String.eqb (ar_project_id a) (bind_text project) &&
                                   String.eqb (ar_plaintext_sha256 a) (bind_text sha))
                (cmp_on ar_created_at Z.compare) (assets (resource_tables db))) with
  | None => None
  | Some a => get_bundle db (ar_resource_id a)
  end.

(** [get(id).value()] *)
Definition get_value (db : Db) (id : string) : result Resource :=
  match get db id with Some r => Ok r | None => Err (Runtime "bad optional access") end.

Definition list (db : Db) (project : string) : result (list Resource) :=
  map_result (fun r => get_value db (rr_id r))
    (sql_select (fun r => String.eqb (rr_project_id r) (bind_text project)) newest_resource
       (resources (resource_tables db))).

(** The rows of the join: one for each resource, link and card that meet. *)
Definition attachments (db : Db) (project card : string) : Datatypes.list ResourceRow :=
  flat_map (fun r =>
    flat_map (fun l =>
      map (fun _ => r) (list_filter (fun c =>
        String.eqb (card_id c) (from_card_id l) && String.eqb (card_project_id c) (link_project_id l) &&
        String.eqb (card_id c) (bind_text card) && negb (card_deleted c)) (cards db)))
      (list_filter (fun l =>
        String.eqb (to_card_id l) (rr_id r) && String.eqb (link_project_id l) (rr_project_id r) &&
        String.eqb (to_type l) "resource" && String.eqb (link_kind l) "attachment") (card_links db)))
    (list_filter (fun r => String.eqb (rr_project_id r) (bind_text project)) (resources (resource_tables db))).
Definition list_for_card (db : Db) (project card : string) (limit offset : Z) : result (Datatypes.list Resource) :=
  if Z.ltb limit 1 || Z.ltb 1000 limit || Z.ltb offset 0
  then Err (InvalidArgument "attachment limit must be 1..1000 and offset nonnegative")
  else map_result (fun r => get_value db (rr_id r))
         (sql_limit limit (drop (Z.to_nat offset)
            (sql_select (fun _ => true) newest_resource (attachments db project card)))).

Definition add (r : Resource) : Repo unit :=
  let* existing := gets (fun db => get db (resource_id r)) in
  when (bool_decide (is_Some existing)) (throw (Runtime "conflict: resource_id already exists")) ;;;
  put_bundle (mkBundle r []).
Definition update (r : Resource) : Repo unit :=
  let* existing := gets (fun db => get_bundle db (resource_id r)) in
  match existing with
  | None => throw (Runtime "resource not found")
  | Some b => put_bundle (mkBundle r (bu_assets b))
  end.

End Queries.
End ResourceRepo.
