(* ===== verification/LocationRepo.v ===== *)
(** * Storage locations

    [src/src/resource/LocationRepo.cpp]: the places where assets are stored. A location that
    a placement names cannot be removed. *)

From stdpp Require Import base list sets strings numbers sorting.
From S2P Require Import Prelude Double Model Text Database Json ResourceRepo.
Import Json.

Module LocationRepo.

Section LocationRepo.
Context {N : JsonLib}.

Definition location_row (config : string) (l : Location) : LocationRow :=
  mkLocationRow (bind_text (location_id l)) (bind_text (lo_project_id l)) (bind_text (lo_name l))
    (bind_text (lo_provider l)) (bind_text config) (lo_created_at l) (lo_updated_at l).
Definition set_location_rows (ls : list LocationRow) (t : ResourceTables) : ResourceTables :=
  mkResourceTables (resources t) (resource_metadata t) (assets t) (asset_placements t) ls.

(** [INSERT ... ON CONFLICT(location_id) DO UPDATE SET] everything but [created_at]. *)
Definition overwrite (l d : LocationRow) : LocationRow :=
  if String.eqb (lr_id d) (lr_id l)
  then mkLocationRow (lr_id d) (lr_project_id l) (lr_name l) (lr_provider l) (lr_config_json l)
         (lr_created_at d) (lr_updated_at l)
  else d.
Definition upsert_location_row (l : LocationRow) (db : Db) : option Db :=
  if negb (project_exists (lr_project_id l) db) then None
  else
    let ls := storage_locations (resource_tables db) in
    Some (on_resources (set_location_rows
      (if ResourceRepo.location_exists (lr_id l) (resource_tables db)
       then map (overwrite l) ls
       else ls ++ [l])) db).

Definition put (l : Location) : Repo unit :=
  when (String.eqb (location_id l) "" || String.eqb (lo_project_id l) "" || String.eqb (lo_name l) "" ||
        String.eqb (lo_provider l) "")
    (throw (InvalidArgument "location identity, project, name and provider are required")) ;;;
  let* config := lift (json_dump None (of_map JString (lo_configuration l))) in
  exec "put location failed" (upsert_location_row (location_row config l)).

Definition read_location (l : LocationRow) : result Location :=
  let? config := rbind (json_parse (lr_config_json l)) (get_map get_string) in
  Ok (mkLocation (lr_id l) (lr_project_id l) (lr_name l) (lr_provider l) config (lr_created_at l) (lr_updated_at l)).

Definition newest_location : LocationRow -> LocationRow -> comparison :=
  cmp_lex (cmp_rev (cmp_on lr_updated_at Z.compare)) (cmp_on lr_id String.compare).

Section Queries.
Context {E : SqlEngine}.

Definition get (db : Db) (id : string) : result (option Location) :=
  match head (sql_select (fun l => String.eqb (lr_id l) (bind_text id)) cmp_true
                (storage_locations (resource_tables db))) with
  | None => Ok None
  | Some row => let? l := read_location row in Ok (Some l)
  end.
Definition list (db : Db) (project : string) : result (list Location) :=
  map_result read_location
    (sql_select (fun l => String.eqb (lr_project_id l) (bind_text project)) newest_location
       (storage_locations (resource_tables db))).
End Queries.

Definition is_in_use (db : Db) (id : string) : bool :=
  existsb (fun p => String.eqb (pl_location_id p) (bind_text id)) (asset_placements (resource_tables db)).

Definition delete_locations (p : LocationRow -> bool) (db : Db) : option Db :=
  match delete_location_rows p (resource_tables db) with
  | None => None
  | Some t => Some (set_resource_tables t db)
  end.
Definition remove (id : string) : Repo unit :=
  exec "remove location failed" (delete_locations (fun l => String.eqb (lr_id l) (bind_text id))).
Definition remove_project (id : string) : Repo unit :=
  exec "remove project locations failed" (delete_locations (fun l => String.eqb (lr_project_id l) (bind_text id))).

End LocationRepo.
End LocationRepo.
