(* ===== verification/ResourceFacts.v ===== *)
(** * The tables of resources keep their constraints

    What [schema.sql] declares of the five tables of resources, as an invariant that every
    statement keeps, and the theorems about [ResourceRepo.cpp] and [LocationRepo.cpp]. *)

From stdpp Require Import base list sets strings numbers sorting.
From S2P Require Import Prelude Double Model Text Database ProjectRepo Json ResourceManifest ResourceRepo LocationRepo.
Import Json.

Module ResourceFacts.

(** ** Keys *)

Definition exists_key {A} (key : A -> string) (id : string) (t : list A) : bool :=
  existsb (fun x => String.eqb (key x) id) t.

Lemma exists_key_spec {A} (key : A -> string) id t :
  exists_key key id t = true <-> exists x, x ∈ t /\ key x = id.
Proof.
  unfold exists_key. rewrite existsb_exists. setoid_rewrite String.eqb_eq.
  by setoid_rewrite list_elem_of_In.
Qed.
Lemma exists_key_app {A} (key : A -> string) id t u :
  exists_key key id t = true -> exists_key key id (t ++ u) = true.
Proof. rewrite !exists_key_spec. intros (x & Hx & He). exists x. by rewrite elem_of_app; auto. Qed.
Lemma not_exists_key {A} (key : A -> string) id t :
  exists_key key id t = false <-> id ∉ map key t.
Proof.
  rewrite <- not_true_iff_false, exists_key_spec, elem_of_map_id.
  split; intros H (x & Hx & He); apply H; by exists x.
Qed.
Lemma NoDup_map_snoc {A B} (f : A -> B) t x : NoDup (map f t) -> f x ∉ map f t -> NoDup (map f (t ++ [x])).
Proof.
  intros Hn Hx. rewrite map_app. apply list.NoDup_app. split; [done|]. split; [|apply NoDup_singleton].
  intros y Hy ->%list_elem_of_singleton. done.
Qed.

(** [p] selects a row with this key. *)
Definition selected {A} (key : A -> string) (p : A -> bool) (id : string) (t : list A) : bool :=
  existsb (fun x => p x && String.eqb (key x) id) t.
Lemma not_selected {A} (key : A -> string) (p : A -> bool) t x :
  x ∈ t -> selected key p (key x) t = false -> p x = false.
Proof.
  intros Hx Hs. apply not_true_iff_false. intros Hp. apply not_true_iff_false in Hs. apply Hs.
  apply existsb_exists. exists x. by rewrite <- list_elem_of_In, Hp, String.eqb_refl.
Qed.
Lemma exists_key_kept {A} (key : A -> string) (p : A -> bool) id t :
  exists_key key id t = true -> selected key p id t = false ->
  exists_key key id (list_filter (fun x => negb (p x)) t) = true.
Proof.
  rewrite !exists_key_spec. intros (x & Hx & <-) Hs. exists x.
  by rewrite elem_of_list_filter, (not_selected key p t x).
Qed.
Lemma elem_of_undeleted {A} (p : A -> bool) (t : list A) x :
  x ∈ list_filter (fun y => negb (p y)) t <-> x ∈ t /\ p x = false.
Proof. by rewrite elem_of_list_filter, negb_true_iff. Qed.

(** ** The constraints *)

Definition md_key (m : MetadataRow) : string * string * Z := (md_resource_id m, md_property m, md_value_index m).
Definition object_of (p : Placement) : string * string := (pl_location_id p, object_key p).

(** Primary keys, foreign keys, [UNIQUE] and [CHECK]; and, what the schema does not say,
    an asset is of the project of its resource, and its id is a text that a statement can
    bind. [known] is the projects. *)
Record tables_wf (known : string -> bool) (t : ResourceTables) : Prop := {
  rs_ids : NoDup (map rr_id (resources t));
  rs_projects : forall r, r ∈ resources t -> known (rr_project_id r) = true;
  md_keys : NoDup (map md_key (resource_metadata t));
  md_owners : forall m, m ∈ resource_metadata t -> exists_key rr_id (md_resource_id m) (resources t) = true;
  as_ids : NoDup (map ar_id (assets t));
  as_owners : forall a, a ∈ assets t ->
    exists r, r ∈ resources t /\ rr_id r = ar_resource_id a /\ rr_project_id r = ar_project_id a;
  as_sizes : forall a, a ∈ assets t -> 0 <= ar_byte_size a;
  as_text : forall a, a ∈ assets t -> bind_text (ar_id a) = ar_id a;
  pl_ids : NoDup (map placement_id (asset_placements t));
  pl_objects : NoDup (map object_of (asset_placements t));
  pl_assets : forall p, p ∈ asset_placements t -> exists_key ar_id (pl_asset_id p) (assets t) = true;
  pl_locations : forall p, p ∈ asset_placements t ->
    exists_key lr_id (pl_location_id p) (storage_locations t) = true;
  pl_sizes : forall p, p ∈ asset_placements t -> 0 <= stored_byte_size p;
  lc_ids : NoDup (map lr_id (storage_locations t));
  lc_projects : forall l, l ∈ storage_locations t -> known (lr_project_id l) = true
}.
Definition resources_wf (db : Db) : Prop :=
  tables_wf (fun id => project_exists id db) (resource_tables db).

(** The constraints of the tables that a statement leaves alone hold as before. *)
Ltac tables_split W :=
  split; cbn [on_resources set_resource_tables resource_tables resources resource_metadata assets
              asset_placements storage_locations]; try apply W.

Lemma no_resources_wf known : tables_wf known no_resources.
Proof. split; try apply NoDup_nil_2; cbn; intros x Hx; by inversion Hx. Qed.

(** ** Deletions *)

Section Delete.
Context (known : string -> bool).

Lemma delete_asset_rows_wf p t : tables_wf known t -> tables_wf known (delete_asset_rows p t).
Proof.
  intros W. unfold delete_asset_rows. tables_split W.
  - by apply NoDup_map_filter, W.
  - intros a [Ha _]%elem_of_undeleted. by apply W.
  - intros a [Ha _]%elem_of_undeleted. by apply W.
  - intros a [Ha _]%elem_of_undeleted. by apply W.
  - by apply NoDup_map_filter, W.
  - by apply NoDup_map_filter, W.
  - intros x [Hx Hg]%elem_of_undeleted. apply exists_key_kept; [by apply W|done].
  - intros x [Hx _]%elem_of_undeleted. by apply W.
  - intros x [Hx _]%elem_of_undeleted. by apply W.
Qed.

Lemma delete_resource_rows_wf p t : tables_wf known t -> tables_wf known (delete_resource_rows p t).
Proof.
  intros W. unfold delete_resource_rows.
  set (gone id := existsb (fun r => p r && String.eqb (rr_id r) id) (resources t)).
  pose proof (delete_asset_rows_wf (fun a => gone (ar_resource_id a)) t W) as V.
  tables_split V.
  - by apply NoDup_map_filter, W.
  - intros r [Hr _]%elem_of_undeleted. by apply W.
  - by apply NoDup_map_filter, W.
  - intros m [Hm Hg]%elem_of_undeleted. apply exists_key_kept; [by apply W|done].
  - intros a [Ha Hg]%elem_of_undeleted. destruct (as_owners _ _ W a Ha) as (r & Hr & Hi & Hp).
    exists r. rewrite elem_of_undeleted. split; [|done]. split; [done|].
    apply (not_selected rr_id p (resources t) r Hr). by rewrite Hi.
Qed.

Lemma delete_location_rows_wf p t t' :
  delete_location_rows p t = Some t' -> tables_wf known t -> tables_wf known t'.
Proof.
  unfold delete_location_rows. destruct (existsb _ (asset_placements t)) eqn:He; [done|]. intros [= <-] W.
  tables_split W.
  - intros x Hx. apply exists_key_kept; [by apply W|].
    apply not_true_iff_false. intros Hs. apply not_true_iff_false in He. apply He, existsb_exists.
    exists x. by rewrite <- list_elem_of_In.
  - by apply NoDup_map_filter, W.
  - intros l [Hl _]%elem_of_undeleted. by apply W.
Qed.
End Delete.

(** Once the project's rows are gone the project may go. *)
Lemma delete_project_resources_wf known id t t' :
  delete_project_resources id t = Some t' -> tables_wf known t ->
  tables_wf (fun i => known i && negb (String.eqb i id)) t'.
Proof.
  unfold delete_project_resources. destruct (delete_location_rows _ _) as [u|] eqn:Hl; [|done].
  intros [= <-] W.
  pose proof (delete_location_rows_wf known _ _ _ Hl (delete_asset_rows_wf known _ _ W)) as V.
  pose proof (delete_resource_rows_wf known (fun r => String.eqb (rr_project_id r) id) u V) as U.
  split; try apply U.
  - intros r Hr. rewrite (rs_projects _ _ U r Hr). cbn [delete_resource_rows resources] in Hr.
    apply elem_of_undeleted in Hr as [_ ->]. done.
  - intros l Hm. rewrite (lc_projects _ _ U l Hm). cbn in Hm.
    unfold delete_location_rows in Hl. destruct (existsb _ _) in Hl; [done|]. injection Hl as <-. cbn in Hm.
    apply elem_of_undeleted in Hm as [_ ->]. done.
Qed.

(** ** Insertions *)

Import ResourceRepo.

Lemma resource_exists_spec id t : resource_exists id t = true <-> exists r, r ∈ resources t /\ rr_id r = id.
Proof. apply exists_key_spec. Qed.

(** A row is inserted exactly when every constraint allows it, at the end of its table. *)
Lemma insert_resource_row_spec r db db' :
  insert_resource_row r db = Some db' <->
  db' = on_resources (fun t => mkResourceTables (resources t ++ [r]) (resource_metadata t) (assets t)
                                 (asset_placements t) (storage_locations t)) db /\
  rr_id r ∉ map rr_id (resources (resource_tables db)) /\ project_exists (rr_project_id r) db = true.
Proof.
  unfold insert_resource_row, on_resources, resource_exists. rewrite <- not_exists_key. unfold exists_key.
  destruct (existsb _ _); [naive_solver|]. destruct (project_exists _ _); naive_solver.
Qed.
Lemma insert_metadata_row_spec m db db' :
  insert_metadata_row m db = Some db' <->
  db' = on_resources (fun t => mkResourceTables (resources t) (resource_metadata t ++ [m]) (assets t)
                                 (asset_placements t) (storage_locations t)) db /\
  md_key m ∉ map md_key (resource_metadata (resource_tables db)) /\
  exists_key rr_id (md_resource_id m) (resources (resource_tables db)) = true.
Proof.
  unfold insert_metadata_row, on_resources, resource_exists, exists_key.
  assert (existsb (same_metadata m) (resource_metadata (resource_tables db)) = true <->
          md_key m ∈ map md_key (resource_metadata (resource_tables db))) as Hk.
  { rewrite existsb_exists, elem_of_map_id. setoid_rewrite list_elem_of_In. unfold same_metadata, md_key.
    setoid_rewrite andb_true_iff. setoid_rewrite andb_true_iff. setoid_rewrite String.eqb_eq.
    setoid_rewrite Z.eqb_eq. split; intros (x & Hx & He); exists x; naive_solver congruence. }
  destruct (existsb (same_metadata m) _); [naive_solver|]. destruct (existsb _ _); naive_solver.
Qed.
Lemma insert_asset_row_spec a db db' :
  insert_asset_row a db = Some db' <->
  db' = on_resources (fun t => mkResourceTables (resources t) (resource_metadata t) (assets t ++ [a])
                                 (asset_placements t) (storage_locations t)) db /\
  ar_id a ∉ map ar_id (assets (resource_tables db)) /\
  exists_key rr_id (ar_resource_id a) (resources (resource_tables db)) = true /\
  project_exists (ar_project_id a) db = true /\ 0 <= ar_byte_size a.
Proof.
  unfold insert_asset_row, on_resources, resource_exists, asset_exists. rewrite <- not_exists_key. unfold exists_key.
  rewrite <- Z.leb_le.
  destruct (existsb (fun x => String.eqb (ar_id x) _) _); [naive_solver|].
  destruct (existsb _ _), (project_exists _ _), (0 <=? _)%Z; naive_solver.
Qed.
Lemma insert_placement_row_spec p db db' :
  insert_placement_row p db = Some db' <->
  db' = on_resources (fun t => mkResourceTables (resources t) (resource_metadata t) (assets t)
                                 (asset_placements t ++ [p]) (storage_locations t)) db /\
  (placement_id p ∉ map placement_id (asset_placements (resource_tables db)) /\
   object_of p ∉ map object_of (asset_placements (resource_tables db))) /\
  exists_key ar_id (pl_asset_id p) (assets (resource_tables db)) = true /\
  exists_key lr_id (pl_location_id p) (storage_locations (resource_tables db)) = true /\ 0 <= stored_byte_size p.
Proof.
  unfold insert_placement_row, on_resources, asset_exists, location_exists, exists_key. rewrite <- Z.leb_le.
  set (l := asset_placements (resource_tables db)).
  assert (existsb (fun q => String.eqb (placement_id q) (placement_id p) || same_object p q) l = true <->
          placement_id p ∈ map placement_id l \/ object_of p ∈ map object_of l) as Hk.
  { rewrite existsb_exists, !elem_of_map_id. setoid_rewrite list_elem_of_In. unfold same_object, object_of.
    setoid_rewrite orb_true_iff. setoid_rewrite andb_true_iff. setoid_rewrite String.eqb_eq. split.
    - intros (x & Hx & [He|[He1 He2]]); [left|right]; exists x; split; congruence.
    - intros [(x & Hx & He)|(x & Hx & [= He1 He2])]; exists x; auto. }
  destruct (existsb _ l); [naive_solver|].
  destruct (existsb _ (assets _)), (existsb _ (storage_locations _)), (0 <=? _)%Z; naive_solver.
Qed.

(** An asset's row names the project of its resource. *)
Definition asset_of_project (a : AssetRow) (t : ResourceTables) : Prop :=
  exists r, r ∈ resources t /\ rr_id r = ar_resource_id a /\ rr_project_id r = ar_project_id a.

Lemma insert_resource_row_wf r db db' : insert_resource_row r db = Some db' -> resources_wf db -> resources_wf db'.
Proof.
  intros (-> & Hid & Hp)%insert_resource_row_spec W.
  tables_split W.
  - by apply NoDup_map_snoc; [apply W|].
  - intros x [Hx| ->%list_elem_of_singleton]%elem_of_app; [by apply W|done].
  - intros m Hm. apply exists_key_app. by apply W.
  - intros a Ha. destruct (as_owners _ _ W a Ha) as (x & Hx & He). exists x. rewrite elem_of_app. auto.
Qed.
Lemma insert_metadata_row_wf m db db' : insert_metadata_row m db = Some db' -> resources_wf db -> resources_wf db'.
Proof.
  intros (-> & Hid & Hp)%insert_metadata_row_spec W.
  tables_split W.
  - by apply NoDup_map_snoc; [apply W|].
  - intros x [Hx| ->%list_elem_of_singleton]%elem_of_app; [by apply W|done].
Qed.
Lemma insert_asset_row_wf a db db' :
  asset_of_project a (resource_tables db) -> bind_text (ar_id a) = ar_id a ->
  insert_asset_row a db = Some db' -> resources_wf db -> resources_wf db'.
Proof.
  intros Ho Ht (-> & Hid & Hr & Hp & Hs)%insert_asset_row_spec W.
  tables_split W.
  - by apply NoDup_map_snoc; [apply W|].
  - intros x [Hx| ->%list_elem_of_singleton]%elem_of_app; [by apply W|done].
  - intros x [Hx| ->%list_elem_of_singleton]%elem_of_app; [by apply W|done].
  - intros x [Hx| ->%list_elem_of_singleton]%elem_of_app; [by apply W|done].
  - intros x Hx. apply exists_key_app. by apply W.
Qed.
Lemma insert_placement_row_wf p db db' : insert_placement_row p db = Some db' -> resources_wf db -> resources_wf db'.
Proof.
  intros (-> & [Hid Ho] & Ha & Hl & Hs)%insert_placement_row_spec W.
  tables_split W.
  - by apply NoDup_map_snoc; [apply W|].
  - by apply NoDup_map_snoc; [apply W|].
  - intros x [Hx| ->%list_elem_of_singleton]%elem_of_app; [by apply W|done].
  - intros x [Hx| ->%list_elem_of_singleton]%elem_of_app; [by apply W|done].
  - intros x [Hx| ->%list_elem_of_singleton]%elem_of_app; [by apply W|done].
Qed.

(** ** The repositories *)

Lemma exec_preserves what stmt (P : Db -> Prop) :
  (forall db db', stmt db = Some db' -> P db -> P db') -> preserves P (exec what stmt).
Proof. intros H db Hdb. unfold exec. destruct (stmt db) eqn:He; [by eapply H|done]. Qed.
Lemma transaction_preserves {A} (m : Repo A) (P : Db -> Prop) : preserves P m -> preserves P (transaction m).
Proof. intros H db Hdb. unfold transaction. specialize (H db Hdb). by destruct (m db) as [[a|e] db']. Qed.

Lemma remove_wf id : preserves resources_wf (remove id).
Proof. apply exec_preserves. intros db db' [= <-] W. by apply delete_resource_rows_wf. Qed.
Lemma remove_project_wf id : preserves resources_wf (remove_project id).
Proof. apply exec_preserves. intros db db' [= <-] W. by apply delete_resource_rows_wf. Qed.

(** What the loops of [put_bundle] rely on: the resource's row is there. *)
Definition holding (r : Resource) (db : Db) : Prop := resource_row r ∈ resources (resource_tables db).
Definition wf_holding (r : Resource) (db : Db) : Prop := resources_wf db /\ holding r db.

Lemma put_values_wf id property i vs r : preserves (wf_holding r) (put_values id property i vs).
Proof.
  revert i. induction vs as [|v vs IH]; intros i; cbn [put_values]; auto with preserves.
  apply preserves_bind; [|done]. apply exec_preserves. intros db db' H [W Hh].
  split; [by eapply insert_metadata_row_wf|]. by apply insert_metadata_row_spec in H as (-> & _).
Qed.
Lemma put_property_wf id pv r : preserves (wf_holding r) (put_property id pv).
Proof. apply preserves_bind; [auto with preserves|]. intros _. apply put_values_wf. Qed.
Lemma put_placement_wf a p r : preserves (wf_holding r) (put_placement a p).
Proof.
  apply preserves_bind; [auto with preserves|]. intros _. apply exec_preserves. intros db db' H [W Hh].
  split; [by eapply insert_placement_row_wf|]. by apply insert_placement_row_spec in H as (-> & _).
Qed.
Lemma put_asset_wf r a : preserves (wf_holding r) (put_asset r a).
Proof.
  apply preserves_bind; [auto with preserves|]. intros _. apply preserves_bind.
  - apply exec_preserves. intros db db' H [W Hh]. split.
    + eapply (insert_asset_row_wf (asset_row r a)); [by exists (resource_row r)|apply c_str_idemp|done|done].
    + by apply insert_asset_row_spec in H as (-> & _).
  - intros _. apply preserves_for_each. intros p. apply put_placement_wf.
Qed.

Lemma put_rows_wf r assets :
  preserves resources_wf (exec "put resource failed" (insert_resource_row (resource_row r)) ;;;
                          for_each (re_metadata r) (put_property (resource_id r)) ;;;
                          for_each assets (put_asset r)).
Proof.
  intros db W. unfold bind at 1, exec. destruct (insert_resource_row _ db) as [db'|] eqn:He; [|done].
  enough (preserves (wf_holding r) (for_each (re_metadata r) (put_property (resource_id r)) ;;;
                                    for_each assets (put_asset r))) as H.
  { apply H. split; [by eapply insert_resource_row_wf|].
    apply insert_resource_row_spec in He as (-> & _). apply elem_of_app. right. by left. }
  apply preserves_bind; [|intros _]; apply preserves_for_each; intros x; [apply put_property_wf|apply put_asset_wf].
Qed.
Lemma put_bundle_wf b : preserves resources_wf (put_bundle b).
Proof.
  apply preserves_bind; [auto with preserves|]. intros _. apply preserves_bind; [apply remove_wf|].
  intros _. apply put_rows_wf.
Qed.
Lemma add_wf {E : SqlEngine} r : preserves resources_wf (add r).
Proof.
  apply preserves_bind; [auto with preserves|]. intros x. apply preserves_bind; [auto with preserves|].
  intros _. apply put_bundle_wf.
Qed.
Lemma update_wf {E : SqlEngine} r : preserves resources_wf (update r).
Proof.
  apply preserves_bind; [auto with preserves|]. intros [b|]; [apply put_bundle_wf|auto with preserves].
Qed.

Lemma location_put_wf {N : JsonLib} l : preserves resources_wf (LocationRepo.put l).
Proof.
  apply preserves_bind; [auto with preserves|]. intros _. apply preserves_bind_lift. intros config _.
  apply exec_preserves. intros db db'. unfold LocationRepo.upsert_location_row.
  set (row := LocationRepo.location_row config l).
  destruct (project_exists (lr_project_id row) db) eqn:Hp; [|done]. cbn [negb]. intros [= <-] W.
  set (keep := LocationRepo.overwrite row).
  assert (map lr_id (map keep (storage_locations (resource_tables db))) =
          map lr_id (storage_locations (resource_tables db))) as Hk.
  { rewrite map_map. apply map_ext. intros d. unfold keep, LocationRepo.overwrite. by destruct (String.eqb _ _). }
  destruct (ResourceRepo.location_exists _ _) eqn:He; tables_split W; cbn [LocationRepo.set_location_rows storage_locations asset_placements].
  - intros p Hx. apply exists_key_spec. destruct (proj1 (exists_key_spec _ _ _) (pl_locations _ _ W p Hx)) as (d & Hd & Hi).
    exists (keep d). split; [apply elem_of_map_id; by exists d|]. rewrite <- Hi. unfold keep, LocationRepo.overwrite. by destruct (String.eqb _ _).
  - rewrite Hk. apply W.
  - intros x (d & Hd & ->)%elem_of_map_id. unfold keep, LocationRepo.overwrite. destruct (String.eqb _ _); [done|by apply W].
  - intros p Hx. apply exists_key_app. by apply W.
  - apply NoDup_map_snoc; [apply W|]. by apply not_exists_key.
  - intros x [Hx| ->%list_elem_of_singleton]%elem_of_app; [by apply W|done].
Qed.
Lemma delete_locations_wf what p : preserves resources_wf (exec what (LocationRepo.delete_locations p)).
Proof.
  apply exec_preserves. intros db db'. unfold LocationRepo.delete_locations.
  destruct (delete_location_rows _ _) as [t|] eqn:Ht; [|done]. intros [= <-] W.
  by apply (delete_location_rows_wf _ _ _ _ Ht).
Qed.

Lemma project_known id i db :
  project_exists i (ProjectRepo.delete_project_row id db) = project_exists i db && negb (String.eqb i id).
Proof.
  unfold ProjectRepo.delete_project_row. destruct (project_exists id db) eqn:Hid; cbn [negb].
  - unfold project_exists. cbn [projects]. apply eq_true_iff_eq. rewrite andb_true_iff, !existsb_exists.
    setoid_rewrite String.eqb_eq. setoid_rewrite <- list_elem_of_In. setoid_rewrite elem_of_undeleted.
    rewrite negb_true_iff, String.eqb_neq. setoid_rewrite String.eqb_neq.
    split; [intros (p & [Hp Hn] & <-); split; [by exists p|done]|].
    intros [(p & Hp & <-) Hn]. by exists p.
  - destruct (String.eqb_spec i id) as [->|]; [by rewrite Hid|by rewrite andb_true_r].
Qed.
Lemma project_remove_wf id : preserves resources_wf (ProjectRepo.remove id).
Proof.
  apply exec_preserves. intros db db'. unfold ProjectRepo.delete_project.
  destruct (project_exists _ db) eqn:Hp; cbn [negb]; [|by intros [= <-]].
  destruct (delete_project_resources _ _) as [t|] eqn:Ht; [|done]. intros [= <-] W.
  pose proof (delete_project_resources_wf _ _ _ _ Ht W) as V. unfold resources_wf.
  split; cbn [resource_tables set_resource_tables]; try apply V.
  - intros r Hr. rewrite <- (rs_projects _ _ V r Hr). apply project_known.
  - intros l Hl. rewrite <- (lc_projects _ _ V l Hl). apply project_known.
Qed.

End ResourceFacts.
