(* ===== verification/ResourceTheorems.v ===== *)
(** * What the repositories of resources promise

    A bundle is written exactly when the tables with its rows satisfy the constraints; then
    it reads back, and every other bundle reads as before. *)

From stdpp Require Import base list sets strings numbers sorting.
From S2P Require Import Prelude Double Model Text Database ProjectRepo Json ReferenceJson ResourceManifest ResourceRepo LocationRepo ResourceFacts.
Import ResourceRepo ResourceFacts.
Local Abbreviation list := Datatypes.list.

Module BundleRows.

(** ** The rows of a bundle *)

Fixpoint value_rows (id property : string) (index : Z) (values : list string) : list MetadataRow :=
  match values with
  | [] => []
  | v :: values => mkMetadataRow (bind_text id) (bind_text property) index (bind_text v) ::
                   value_rows id property (index + 1) values
  end.
Definition property_rows (id : string) (pv : string * list string) : list MetadataRow :=
  value_rows id pv.1 0 pv.2.
Definition metadata_rows (r : Resource) : list MetadataRow :=
  flat_map (property_rows (resource_id r)) (re_metadata r).
Definition placement_rows (a : Asset) : list Placement := map (placement_row a) (as_placements a).
Definition bundle_placements (l : list Asset) : list Placement := flat_map placement_rows l.

Definition append_rows (ms : list MetadataRow) (al : list AssetRow) (ps : list Placement)
    (t : ResourceTables) : ResourceTables :=
  mkResourceTables (resources t) (resource_metadata t ++ ms) (assets t ++ al) (asset_placements t ++ ps)
    (storage_locations t).
(** The tables with the bundle in the place of what its resource had. *)
Definition put_rows (b : ResourceBundle) (t : ResourceTables) : ResourceTables :=
  let r := bu_resource b in
  let t := delete_resource_rows (fun x => String.eqb (rr_id x) (bind_text (resource_id r))) t in
  append_rows (metadata_rows r) (map (asset_row r) (bu_assets b)) (bundle_placements (bu_assets b))
    (mkResourceTables (resources t ++ [resource_row r]) (resource_metadata t) (assets t)
       (asset_placements t) (storage_locations t)).

(** What [put_bundle] looks at itself. *)
Record putable (b : ResourceBundle) : Prop := {
  pb_resource : validate_resource (bu_resource b) = Ok tt;
  pb_properties : forall pv, pv ∈ re_metadata (bu_resource b) -> pv.1 <> "";
  pb_assets : forall a, a ∈ bu_assets b -> invalid_asset (bu_resource b) a = false;
  pb_placements : forall a p, a ∈ bu_assets b -> p ∈ as_placements a -> invalid_placement a p = false
}.

Lemma append_rows_nil t : append_rows [] [] [] t = t.
Proof. unfold append_rows. rewrite !app_nil_r. by destruct t. Qed.
Lemma append_rows_app ms ms' al al' ps ps' t :
  append_rows ms' al' ps' (append_rows ms al ps t) = append_rows (ms ++ ms') (al ++ al') (ps ++ ps') t.
Proof. unfold append_rows. cbn. by rewrite !app_assoc. Qed.
Lemma on_resources_comp f g db : on_resources g (on_resources f db) = on_resources (fun t => g (f t)) db.
Proof. done. Qed.
Lemma on_resources_nil db : on_resources (append_rows [] [] []) db = db.
Proof. unfold on_resources. rewrite append_rows_nil. by destruct db. Qed.

Lemma NoDup_map_cons_app {A B} (f : A -> B) t x l : NoDup (map f (t ++ x :: l)) -> f x ∉ map f t.
Proof. rewrite map_app. intros (_ & H & _)%list.NoDup_app. intros Hx. apply (H _ Hx). by left. Qed.

Ltac cells := cbn [on_resources set_resource_tables append_rows resource_tables resources resource_metadata assets
                   asset_placements storage_locations].
(** One statement of a loop: it ran, or the loop stopped. *)
Lemma exec_then {A} what stmt (k : Repo A) db a db' :
  (exec what stmt ;;; k) db = (Ok a, db') <-> exists db1, stmt db = Some db1 /\ k db1 = (Ok a, db').
Proof.
  unfold bind, exec. destruct (stmt db) as [db1|]; split.
  - intros H. by exists db1.
  - by intros (? & [= <-] & H).
  - done.
  - by intros (? & [=] & _).
Qed.
Lemma when_then {A} b e (k : Repo A) db a db' :
  (when b (throw e) ;;; k) db = (Ok a, db') <-> b = false /\ k db = (Ok a, db').
Proof. unfold bind, when. destruct b; cbn; naive_solver. Qed.

(** ** The loops *)

Definition owned (id : string) (t : ResourceTables) : Prop := exists_key rr_id id (resources t) = true.

(** The rows of the rest of a loop come after those of the step. *)
Ltac tables_eq := unfold append_rows, on_resources; cbn; rewrite ?app_nil_r, <- ?app_assoc; done.

Lemma put_values_spec id property i vs db db' :
  owned (bind_text id) (resource_tables db) -> NoDup (map md_key (resource_metadata (resource_tables db))) ->
  put_values id property i vs db = (Ok tt, db') <->
  db' = on_resources (append_rows (value_rows id property i vs) [] []) db /\
  NoDup (map md_key (resource_metadata (resource_tables db) ++ value_rows id property i vs)).
Proof.
  revert i db. induction vs as [|v vs IH]; intros i db Ho Hn; cbn [put_values value_rows].
  - rewrite on_resources_nil, app_nil_r. cbn. split; [by intros [= <-]|by intros [-> _]].
  - rewrite exec_then. setoid_rewrite insert_metadata_row_spec. cbn [md_resource_id].
    set (m := mkMetadataRow _ _ _ _). split.
    + intros (db1 & (-> & Hf & _) & H). apply IH in H as [-> H]; [|done|by apply NoDup_map_snoc].
      rewrite on_resources_comp. cbn in H. rewrite <- app_assoc in H. split; [|done].
      tables_eq.
    + intros [-> H]. pose proof (NoDup_map_cons_app _ _ _ _ H) as Hf.
      eexists. split; [done|]. apply IH; cells; [done|by apply NoDup_map_snoc|].
      rewrite <- app_assoc. split; [|done]. tables_eq.
Qed.

Lemma put_properties_spec id l db db' :
  owned (bind_text id) (resource_tables db) -> NoDup (map md_key (resource_metadata (resource_tables db))) ->
  for_each l (put_property id) db = (Ok tt, db') <->
  db' = on_resources (append_rows (flat_map (property_rows id) l) [] []) db /\
  NoDup (map md_key (resource_metadata (resource_tables db) ++ flat_map (property_rows id) l)) /\
  (forall pv, pv ∈ l -> pv.1 <> "").
Proof.
  revert db. induction l as [|pv l IH]; intros db Ho Hn; cbn [for_each flat_map].
  - rewrite on_resources_nil, app_nil_r. cbn. split; [intros [= <-]|by intros [-> _]].
    split; [done|]. split; [done|]. intros x Hx. by inversion Hx.
  - rewrite bind_ok. unfold put_property at 1. setoid_rewrite when_then. split.
    + intros ([] & db1 & [Hp%String.eqb_neq H1] & H2).
      apply put_values_spec in H1 as [-> H1]; [|done|done].
      apply IH in H2 as (-> & H2 & H3); [|done|done]. cells.
      split; [tables_eq|].
      cbn in H2. rewrite <- app_assoc in H2. split; [done|].
      intros x [->|Hx]%elem_of_cons; [done|by apply H3].
    + intros (-> & H1 & H2). rewrite app_assoc in H1. pose proof H1 as H3. rewrite map_app in H3.
      apply list.NoDup_app in H3 as (H3 & _). eexists tt, _. split.
      * split; [apply String.eqb_neq, H2; by left|]. by apply put_values_spec.
      * apply IH; cells; [done|done|]. split; [|split; [done|intros x Hx; apply H2; by right]].
        tables_eq.
Qed.

(** The constraints on placements that are added to [t]. *)
Record placements_ok (ps : list Placement) (t : ResourceTables) : Prop := {
  po_ids : NoDup (map placement_id (asset_placements t ++ ps));
  po_objects : NoDup (map object_of (asset_placements t ++ ps));
  po_rows : forall p, p ∈ ps ->
    exists_key lr_id (pl_location_id p) (storage_locations t) = true /\ 0 <= stored_byte_size p
}.

Lemma placements_ok_app ps qs t ms al :
  placements_ok (ps ++ qs) t <->
  placements_ok ps t /\ placements_ok qs (append_rows ms al ps t).
Proof.
  split.
  - intros [H1 H2 H3]. rewrite app_assoc in H1, H2. split; split; cells; try done.
    + rewrite map_app in H1. by apply list.NoDup_app in H1 as (H1 & _).
    + rewrite map_app in H2. by apply list.NoDup_app in H2 as (H2 & _).
    + intros p Hp. apply H3, elem_of_app. by left.
    + intros p Hp. apply H3, elem_of_app. by right.
  - intros [[_ _ H3] [H4 H5 H6]]. cbn in H4, H5, H6. split.
    + by rewrite app_assoc.
    + by rewrite app_assoc.
    + intros p [Hp|Hp]%elem_of_app; [by apply H3|by apply H6].
Qed.

Lemma insert_placement_ok p db db' :
  NoDup (map placement_id (asset_placements (resource_tables db))) ->
  NoDup (map object_of (asset_placements (resource_tables db))) ->
  insert_placement_row p db = Some db' <->
  db' = on_resources (append_rows [] [] [p]) db /\
  exists_key ar_id (pl_asset_id p) (assets (resource_tables db)) = true /\
  placements_ok [p] (resource_tables db).
Proof.
  intros N1 N2. rewrite insert_placement_row_spec.
  replace (on_resources (append_rows [] [] [p]) db) with (on_resources (fun t =>
    mkResourceTables (resources t) (resource_metadata t) (assets t) (asset_placements t ++ [p])
      (storage_locations t)) db) by tables_eq.
  split; intros (-> & H); (split; [done|]).
  - destruct H as ([H1 H2] & H3 & H4 & H5). split; [done|]. split; [by apply NoDup_map_snoc|by apply NoDup_map_snoc|].
    by intros x ->%list_elem_of_singleton.
  - destruct H as (H3 & [H1 H2 H4]). destruct (H4 p) as [H5 H6]; [by left|].
    split; [|done]. split; by eapply NoDup_map_cons_app.
Qed.

Lemma put_placements_spec a l db db' :
  NoDup (map placement_id (asset_placements (resource_tables db))) ->
  NoDup (map object_of (asset_placements (resource_tables db))) ->
  exists_key ar_id (bind_text (asset_id a)) (assets (resource_tables db)) = true ->
  for_each l (put_placement a) db = (Ok tt, db') <->
  db' = on_resources (append_rows [] [] (map (placement_row a) l)) db /\
  placements_ok (map (placement_row a) l) (resource_tables db) /\
  (forall p, p ∈ l -> invalid_placement a p = false).
Proof.
  revert db. induction l as [|p l IH]; intros db N1 N2 Ha; cbn [for_each map].
  - rewrite on_resources_nil. cbn. split; [intros [= <-]|by intros [-> _]].
    split; [done|]. split; [split; rewrite ?app_nil_r; try done|]; intros x Hx; by inversion Hx.
  - rewrite bind_ok. unfold put_placement at 1. setoid_rewrite when_then. split.
    + intros ([] & db1 & [Hp H1] & H2). unfold exec in H1.
      destruct (insert_placement_row _ db) as [db2|] eqn:Hi; [|done]. injection H1 as ->.
      apply (insert_placement_ok _ _ _ N1 N2) in Hi as (-> & _ & Hok).
      apply IH in H2 as (-> & H2 & H3); [|by destruct Hok|by destruct Hok|].
      2: { cells. by rewrite app_nil_r. }
      rewrite on_resources_comp. split; [unfold on_resources; by rewrite append_rows_app|].
      split; [by apply (placements_ok_app [placement_row a p] _ _ [] [])|].
      intros x [->|Hx]%elem_of_cons; [done|by apply H3].
    + intros (-> & H1 & H2). apply (placements_ok_app [placement_row a p] _ _ [] []) in H1 as [H1 H3].
      eexists tt, _. split.
      * split; [apply H2; by left|]. unfold exec.
        by rewrite (proj2 (insert_placement_ok (placement_row a p) _ _ N1 N2) (conj eq_refl (conj Ha H1))).
      * apply IH; [by destruct H1|by destruct H1|cells; by rewrite app_nil_r|].
        split; [rewrite on_resources_comp; unfold on_resources; by rewrite append_rows_app|].
        split; [done|]. intros x Hx. apply H2. by right.
Qed.

(** The constraints on assets and their placements that are added to [t]. *)
Definition assets_ok (al : list AssetRow) (ps : list Placement) (t : ResourceTables) : Prop :=
  NoDup (map ar_id (assets t ++ al)) /\ placements_ok ps t.

Lemma assets_ok_app al al' ps ps' t :
  assets_ok (al ++ al') (ps ++ ps') t <->
  assets_ok al ps t /\ assets_ok al' ps' (append_rows [] al ps t).
Proof.
  unfold assets_ok. rewrite (placements_ok_app ps ps' t [] al). cells. rewrite app_assoc.
  split; [|tauto]. intros [H ?]. pose proof H as H'. rewrite map_app in H'.
  apply list.NoDup_app in H' as (? & _). tauto.
Qed.

Lemma assets_ok_metadata al ps ms t : assets_ok al ps t -> assets_ok al ps (append_rows ms [] [] t).
Proof. intros [H1 [H2 H3 H4]]. split; [|split]; cells; by rewrite ?app_nil_r. Qed.
Lemma put_asset_spec r a db db' :
  assets_ok [] [] (resource_tables db) -> owned (bind_text (resource_id r)) (resource_tables db) ->
  project_exists (bind_text (re_project_id r)) db = true ->
  put_asset r a db = (Ok tt, db') <->
  db' = on_resources (append_rows [] [asset_row r a] (placement_rows a)) db /\
  assets_ok [asset_row r a] (placement_rows a) (resource_tables db) /\
  invalid_asset r a = false /\ (forall p, p ∈ as_placements a -> invalid_placement a p = false).
Proof.
  intros [N1 [N2 N3 _]] Ho Hp. rewrite app_nil_r in N1, N2, N3. unfold put_asset.
  rewrite when_then, exec_then. setoid_rewrite insert_asset_row_spec.
  assert (exists_key ar_id (bind_text (asset_id a)) (assets (resource_tables db) ++ [asset_row r a]) = true) as Ha.
  { apply exists_key_spec. exists (asset_row r a). rewrite elem_of_app. split; [right; by left|done]. }
  split.
  - intros (Hv & db1 & (-> & Hf & _) & H). apply put_placements_spec in H as (-> & [H1 H2 H3] & H4); [|done..].
    rewrite on_resources_comp. split; [tables_eq|]. split; [|done].
    split; [by apply NoDup_map_snoc|by split].
  - intros (-> & [H1 [H2 H3 H4]] & Hv & H5). split; [done|]. eexists. split.
    + split; [done|]. split; [by eapply NoDup_map_cons_app|]. split; [done|]. split; [done|].
      unfold invalid_asset in Hv. rewrite !orb_false_iff, Z.ltb_ge in Hv. by apply Hv.
    + apply put_placements_spec; [done..|]. rewrite on_resources_comp. split; [tables_eq|].
      split; [by split|done].
Qed.

Lemma put_assets_spec r l db db' :
  assets_ok [] [] (resource_tables db) -> owned (bind_text (resource_id r)) (resource_tables db) ->
  project_exists (bind_text (re_project_id r)) db = true ->
  for_each l (put_asset r) db = (Ok tt, db') <->
  db' = on_resources (append_rows [] (map (asset_row r) l) (bundle_placements l)) db /\
  assets_ok (map (asset_row r) l) (bundle_placements l) (resource_tables db) /\
  (forall a, a ∈ l -> invalid_asset r a = false) /\
  (forall a p, a ∈ l -> p ∈ as_placements a -> invalid_placement a p = false).
Proof.
  revert db. induction l as [|a l IH]; intros db N Ho Hp; cbn [for_each map bundle_placements flat_map].
  - rewrite on_resources_nil. cbn. split; [intros [= <-]|by intros [-> _]].
    split; [done|]. split; [done|]. split; intros x; intros; by match goal with H : x ∈ [] |- _ => inversion H end.
  - rewrite bind_ok. pose proof (fun d => put_asset_spec r a db d N Ho Hp) as Hs. fold (bundle_placements l).
    pose proof (assets_ok_app [asset_row r a] (map (asset_row r) l) (placement_rows a) (bundle_placements l)
                  (resource_tables db)) as Happ.
    assert (assets_ok [asset_row r a] (placement_rows a) (resource_tables db) ->
            assets_ok [] [] (resource_tables
              (on_resources (append_rows [] [asset_row r a] (placement_rows a)) db))) as Hn.
    { intros H. apply (assets_ok_app [asset_row r a] [] (placement_rows a) []). by rewrite !app_nil_r. }
    split.
    + intros ([] & db1 & (-> & H1 & H2 & H3)%Hs & H). apply IH in H as (-> & H4 & H5 & H6); [|by apply Hn|done..].
      split; [tables_eq|]. split; [by apply Happ|].
      split; [intros x [->|Hx]%elem_of_cons; auto|]. intros x p [->|Hx]%elem_of_cons; eauto.
    + intros (-> & H1 & H2 & H3). apply Happ in H1 as [H1 H4]. eexists tt, _. split.
      * apply Hs. split; [done|]. split; [done|]. split; [apply H2; by left|]. intros p. apply H3. by left.
      * apply IH; [by apply Hn|done|done|]. split; [tables_eq|]. split; [done|].
        split; [intros x Hx; apply H2; by right|]. intros x p Hx. apply H3. by right.
Qed.

(** ** The whole write *)

(** The tables without the rows of the bundle's resource. *)
Definition cleared (b : ResourceBundle) (db : Db) : Db :=
  on_resources (delete_resource_rows (fun x => String.eqb (rr_id x) (bind_text (resource_id (bu_resource b))))) db.

Lemma cleared_id b db : bind_text (resource_id (bu_resource b)) ∉ map rr_id (resources (resource_tables (cleared b db))).
Proof. intros (x & [_ Hx]%elem_of_undeleted & He)%elem_of_map_id. by rewrite He, String.eqb_refl in Hx. Qed.
Lemma project_exists_resources f id db : project_exists id (on_resources f db) = project_exists id db.
Proof. done. Qed.

Lemma wf_no_rows known t : tables_wf known t -> assets_ok [] [] t.
Proof.
  intros W. split; [|split]; rewrite ?app_nil_r; try apply W. intros p Hp. by inversion Hp.
Qed.

(** [put_bundle] is its checks and its loops, one after the other. *)
Definition with_resource_row (b : ResourceBundle) (db : Db) : Db :=
  on_resources (fun t => mkResourceTables (resources t ++ [resource_row (bu_resource b)])
    (resource_metadata t) (assets t) (asset_placements t) (storage_locations t)) (cleared b db).

Lemma put_bundle_runs b db db' :
  put_bundle b db = (Ok tt, db') <->
  validate_resource (bu_resource b) = Ok tt /\
  project_exists (bind_text (re_project_id (bu_resource b))) db = true /\
  exists db2,
    for_each (re_metadata (bu_resource b)) (put_property (resource_id (bu_resource b)))
      (with_resource_row b db) = (Ok tt, db2) /\
    for_each (bu_assets b) (put_asset (bu_resource b)) db2 = (Ok tt, db').
Proof.
  assert (forall d, insert_resource_row (resource_row (bu_resource b)) (cleared b db) = Some d <->
          d = with_resource_row b db /\ project_exists (bind_text (re_project_id (bu_resource b))) db = true) as Hins.
  { intros d. rewrite insert_resource_row_spec. pose proof (cleared_id b db). naive_solver. }
  unfold put_bundle. rewrite bind_ok. split.
  - intros ([] & s1 & [= Hv <-] & H). split; [done|]. apply bind_ok in H as ([] & s2 & [= <-] & H).
    apply exec_then in H as (d & [-> Hp]%Hins & H). split; [done|].
    apply bind_ok in H as ([] & db2 & H2 & H). by exists db2.
  - intros (Hv & Hp & db2 & H2 & H). exists tt, db. unfold lift. rewrite Hv. split; [done|].
    apply bind_ok. exists tt, (cleared b db). split; [done|]. apply exec_then. exists (with_resource_row b db).
    split; [by apply Hins|]. apply bind_ok. by exists tt, db2.
Qed.

Lemma put_rows_row b db : put_rows b (resource_tables db) =
  append_rows (metadata_rows (bu_resource b)) (map (asset_row (bu_resource b)) (bu_assets b))
    (bundle_placements (bu_assets b)) (resource_tables (with_resource_row b db)).
Proof. done. Qed.
Lemma with_row_owned b db : owned (bind_text (resource_id (bu_resource b))) (resource_tables (with_resource_row b db)).
Proof.
  apply exists_key_spec. exists (resource_row (bu_resource b)). unfold with_resource_row. cells. rewrite elem_of_app. split; [right; by left|done].
Qed.

(** The tables after a write satisfy what its loops ask for. *)
Lemma put_rows_asked b db :
  resources_wf (on_resources (put_rows b) db) ->
  let t := resource_tables (with_resource_row b db) in
  project_exists (bind_text (re_project_id (bu_resource b))) db = true /\
  NoDup (map md_key (resource_metadata t ++ metadata_rows (bu_resource b))) /\
  assets_ok (map (asset_row (bu_resource b)) (bu_assets b)) (bundle_placements (bu_assets b)) t.
Proof.
  intros W t. split; [|split; [apply W|split; [apply W|split; [apply W|apply W|]]]].
  - apply (rs_projects _ _ W (resource_row (bu_resource b))). cells. apply elem_of_app. right. by left.
  - intros p Hp. split; [apply (pl_locations _ _ W p)|apply (pl_sizes _ _ W p)]; cells; apply elem_of_app; by right.
Qed.

Lemma put_bundle_spec b db db' :
  resources_wf db ->
  put_bundle b db = (Ok tt, db') <-> putable b /\ db' = on_resources (put_rows b) db /\ resources_wf db'.
Proof.
  intros W0. assert (put_bundle b db = (Ok tt, db') -> resources_wf db') as Hkeep.
  { intros H. pose proof (put_bundle_wf b db W0) as Hw. by rewrite H in Hw. }
  assert (resources_wf (cleared b db)) as W by apply (remove_wf (resource_id (bu_resource b)) db W0).
  pose proof (with_row_owned b db) as Ho. 
  assert (assets_ok [] [] (resource_tables (with_resource_row b db))) as Hn.
  { destruct (wf_no_rows _ _ W) as [N1 [N2 N3 N4]]. by split; [|split]. }
  assert (on_resources (append_rows [] (map (asset_row (bu_resource b)) (bu_assets b)) (bundle_placements (bu_assets b)))
            (on_resources (append_rows (metadata_rows (bu_resource b)) [] []) (with_resource_row b db)) =
          on_resources (put_rows b) db) as Hrows.
  { unfold on_resources. rewrite put_rows_row. cells. by rewrite append_rows_app, app_nil_r. }
  assert (NoDup (map md_key (resource_metadata (resource_tables (with_resource_row b db))))) as Hmd by apply W.
  split.
  - intros H. pose proof (Hkeep H) as W'. apply put_bundle_runs in H as (Hv & Hp & db2 & H2 & H3).
    apply put_properties_spec in H2 as (-> & H2 & H4); [|done|done].
    apply put_assets_spec in H3 as (-> & H3 & H5 & H6); [|by apply (assets_ok_metadata _ _ _ (resource_tables (with_resource_row b db)))|done|done].
    fold (metadata_rows (bu_resource b)) in *. rewrite Hrows in *. split; [|done]. by split.
  - intros ([H1 H2 H3 H4] & -> & W'). destruct (put_rows_asked b db W') as (Hp & Hm & Ha).
    apply put_bundle_runs. split; [done|]. split; [done|]. eexists. split.
    + apply put_properties_spec; [done|done|]. split; [done|]. split; [apply Hm|done].
    + apply put_assets_spec; [by apply (assets_ok_metadata _ _ _ (resource_tables (with_resource_row b db)))|done|done|].
      fold (metadata_rows (bu_resource b)). rewrite Hrows.
      split; [done|]. split; [by apply (assets_ok_metadata _ _ _ (resource_tables (with_resource_row b db)))|done].
Qed.

End BundleRows.

Module BundleReads.
Import BundleRows Json.

(** ** Queries whose order leaves no choice *)

Lemma select_of {E : SqlEngine} `{!SqlEngineLaws E} {A} (p : A -> bool) cmp `{!CmpOrd cmp} (t l : list A) :
  (forall x y, x ∈ l -> y ∈ l -> cmp x y = Eq -> x = y) -> StronglySorted (cmp_le cmp) l ->
  list_filter p t = l -> sql_select p cmp t = l.
Proof.
  intros Hinj Hs <-. symmetry. apply (StronglySorted_perm_eq cmp); [done|done|by apply sql_select_sorted|].
  by rewrite sql_select_perm.
Qed.
Lemma select_same {E : SqlEngine} `{!SqlEngineLaws E} {A} (p : A -> bool) cmp `{!CmpOrd cmp} (t u : list A) :
  (forall x y, x ∈ list_filter p t -> y ∈ list_filter p t -> cmp x y = Eq -> x = y) ->
  list_filter p u = list_filter p t -> sql_select p cmp u = sql_select p cmp t.
Proof.
  intros Hinj He. apply (StronglySorted_perm_eq cmp); [|by apply sql_select_sorted..|].
  - intros x y. rewrite !sql_select_perm, He. apply Hinj.
  - by rewrite !sql_select_perm, He.
Qed.
(** A comparison that ends with a key leaves no choice among rows with distinct keys. *)
Lemma distinct_by {A B} (key : A -> B) (cmp : A -> A -> comparison) (t l : list A) :
  NoDup (map key t) -> (forall x, x ∈ l -> x ∈ t) -> (forall x y, x ∈ l -> y ∈ l -> cmp x y = Eq -> key x = key y) ->
  forall x y, x ∈ l -> y ∈ l -> cmp x y = Eq -> x = y.
Proof. intros Hn Hl Hk x y Hx Hy He. apply (NoDup_map_inj key t); auto. Qed.

Lemma cmp_lex_Eq {A} (c1 c2 : A -> A -> comparison) x y :
  cmp_lex c1 c2 x y = Eq -> c1 x y = Eq /\ c2 x y = Eq.
Proof. unfold cmp_lex. by destruct (c1 x y). Qed.
Lemma oldest_asset_Eq x y : oldest_asset x y = Eq -> ar_id x = ar_id y.
Proof. intros [_ H]%cmp_lex_Eq. by apply string_compare_eq. Qed.
Lemma oldest_placement_Eq x y : oldest_placement x y = Eq -> placement_id x = placement_id y.
Proof. intros [_ H]%cmp_lex_Eq. by apply string_compare_eq. Qed.
Lemma by_property_Eq x y :
  md_resource_id x = md_resource_id y -> by_property x y = Eq -> md_key x = md_key y.
Proof.
  intros Hr [H1%string_compare_eq H2%Z.compare_eq]%cmp_lex_Eq. unfold md_key. by rewrite Hr, H1, H2.
Qed.

(** ** Metadata *)

Definition nonempty_values (pv : string * list string) : bool := negb (bool_decide (pv.2 = [])).
(** A property without values has no rows. *)
Definition kept_metadata (l : ResourceMetadata) : ResourceMetadata := list_filter nonempty_values l.
Definition bound_metadata (l : ResourceMetadata) : Prop :=
  forall pv, pv ∈ l -> bind_text pv.1 = pv.1 /\ map bind_text pv.2 = pv.2.

Definition before_key (acc : ResourceMetadata) (k : string) : Prop :=
  forall pv, pv ∈ acc -> str_ltb pv.1 k = true.
Lemma push_back_last acc k v vs : before_key acc k -> push_back k v (acc ++ [(k, vs)]) = acc ++ [(k, vs ++ [v])].
Proof.
  induction acc as [|[k' vs'] acc IH]; intros Hb; cbn.
  - by rewrite (cmp_refl String.compare k).
  - assert (String.compare k' k = Lt) as Hk.
    { specialize (Hb (k', vs')). unfold str_ltb, cmp_ltb in Hb. cbn in Hb.
      destruct (String.compare k' k); try done; discriminate Hb; by left. }
    rewrite (cmp_opp String.compare k k'), Hk. cbn. rewrite IH; [done|]. intros pv Hp. apply Hb. by right.
Qed.
Lemma push_back_new acc k v : before_key acc k -> push_back k v acc = acc ++ [(k, [v])].
Proof.
  induction acc as [|[k' vs'] acc IH]; intros Hb; cbn; [done|].
  assert (String.compare k' k = Lt) as Hk.
  { specialize (Hb (k', vs')). unfold str_ltb, cmp_ltb in Hb. cbn in Hb.
    destruct (String.compare k' k); try done; discriminate Hb; by left. }
  rewrite (cmp_opp String.compare k k'), Hk. cbn. rewrite IH; [done|]. intros pv Hp. apply Hb. by right.
Qed.

Definition read_row (l : ResourceMetadata) (m : MetadataRow) : ResourceMetadata :=
  push_back (md_property m) (md_value m) l.
Lemma read_values id k i vs acc ws :
  bind_text k = k -> before_key acc k ->
  foldl read_row (acc ++ [(k, ws)]) (value_rows id k i vs) = acc ++ [(k, ws ++ map bind_text vs)].
Proof.
  intros Hk Hb. revert i ws. induction vs as [|v vs IH]; intros i ws; cbn [value_rows foldl map].
  - by rewrite app_nil_r.
  - unfold read_row at 2. cbn [md_property md_value]. rewrite Hk, push_back_last, IH by done. by rewrite <- app_assoc.
Qed.
Lemma read_property id pv acc :
  bind_text pv.1 = pv.1 -> map bind_text pv.2 = pv.2 -> before_key acc pv.1 ->
  foldl read_row acc (property_rows id pv) = acc ++ kept_metadata [pv].
Proof.
  destruct pv as [k [|v vs]]; cbn [fst snd]; intros Hk Hv Hb; [by rewrite app_nil_r|].
  unfold property_rows. cbn [fst snd value_rows foldl]. unfold read_row at 2. cbn [md_property md_value].
  rewrite Hk, push_back_new, read_values by done. by rewrite <- Hv.
Qed.
Lemma read_metadata_rows id l acc :
  bound_metadata l -> key_sorted l -> (forall pv, pv ∈ l -> before_key acc pv.1) ->
  foldl read_row acc (flat_map (property_rows id) l) = acc ++ kept_metadata l.
Proof.
  intros Hb Hs. revert acc. induction Hs as [|pv l Hs IH Hall]; intros acc Ha; cbn [flat_map]; [by rewrite app_nil_r|].
  destruct (Hb pv) as [Hk Hv]; [by left|]. rewrite foldl_app, read_property by (done || (apply Ha; by left)).
  rewrite IH.
  - rewrite <- app_assoc. f_equal. unfold kept_metadata. cbn. by destruct (nonempty_values pv).
  - intros x Hx. apply Hb. by right.
  - intros x Hx y [Hy|Hy]%elem_of_app; [by apply (Ha x); [right|]|].
    assert (y = pv) as ->.
    { unfold kept_metadata in Hy. cbn in Hy. destruct (nonempty_values pv); [by apply list_elem_of_singleton|by inversion Hy]. }
    rewrite list.Forall_forall in Hall. by apply Hall.
Qed.

(** The rows of the metadata come in the order of the query. *)
Lemma value_rows_props id k i vs m :
  m ∈ value_rows id k i vs -> md_resource_id m = bind_text id /\ md_property m = bind_text k /\ i <= md_value_index m.
Proof.
  revert i. induction vs as [|v vs IH]; intros i; cbn; [by intros H; inversion H|].
  intros [->|H%IH]%elem_of_cons; cbn; [done|]. destruct H as (? & ? & ?). repeat split; try done. lia.
Qed.
Lemma value_rows_sorted id k i vs : StronglySorted (cmp_le by_property) (value_rows id k i vs).
Proof.
  revert i. induction vs as [|v vs IH]; intros i; cbn; constructor; [done|].
  apply list.Forall_forall. intros m (_ & Hp & Hi)%value_rows_props.
  unfold cmp_le, by_property, cmp_lex, cmp_on. cbn. rewrite Hp, (cmp_refl String.compare).
  rewrite (proj2 (Z.compare_lt_iff _ _)) by lia. done.
Qed.
Lemma StronglySorted_app {A} (R : relation A) l1 l2 :
  StronglySorted R l1 -> StronglySorted R l2 -> (forall x y, x ∈ l1 -> y ∈ l2 -> R x y) -> StronglySorted R (l1 ++ l2).
Proof.
  induction 1 as [|x l1 Hs IH Hall]; intros H2 H; cbn; [done|]. constructor.
  - apply IH; [done|]. intros y z Hy. apply H. by right.
  - apply list.Forall_app. split; [done|]. apply list.Forall_forall. intros z. apply H. by left.
Qed.
Lemma metadata_rows_props id l m :
  m ∈ flat_map (property_rows id) l ->
  md_resource_id m = bind_text id /\ exists pv, pv ∈ l /\ md_property m = bind_text pv.1.
Proof.
  rewrite list_elem_of_In, in_flat_map. intros (pv & Hp%list_elem_of_In & Hm%list_elem_of_In).
  apply value_rows_props in Hm as (Hr & Hk & _). split; [done|]. by exists pv.
Qed.
Lemma metadata_rows_sorted id l :
  bound_metadata l -> key_sorted l -> StronglySorted (cmp_le by_property) (flat_map (property_rows id) l).
Proof.
  intros Hb Hs. induction Hs as [|pv l Hs IH Hall]; cbn; [constructor|].
  apply StronglySorted_app; [apply value_rows_sorted|apply IH; intros x Hx; apply Hb; by right|].
  intros x y (_ & Hx & _)%value_rows_props (_ & pw & Hw & Hy)%metadata_rows_props.
  rewrite list.Forall_forall in Hall. specialize (Hall pw Hw).
  destruct (Hb pv) as [Hk _]; [by left|]. destruct (Hb pw) as [Hk' _]; [by right|].
  unfold cmp_le, by_property, cmp_lex, cmp_on. rewrite Hx, Hy, Hk, Hk'. unfold str_ltb, cmp_ltb in Hall.
  by destruct (String.compare pv.1 pw.1).
Qed.

(** ** The bundle that was written *)

(** A bundle whose texts the statements bind as they are, each part naming its owner. *)
Record bound_bundle (b : ResourceBundle) : Prop := {
  bb_resource : read_resource_row (resource_row (bu_resource b)) (re_metadata (bu_resource b)) = bu_resource b;
  bb_metadata : bound_metadata (re_metadata (bu_resource b));
  bb_assets : forall a, a ∈ bu_assets b ->
    read_asset_row (resource_id (bu_resource b)) (asset_row (bu_resource b) a) (as_placements a) = a;
  bb_placements : forall a p, a ∈ bu_assets b -> p ∈ as_placements a -> placement_row a p = p
}.
(** A bundle in the order in which the queries list its parts. *)
Record listed (b : ResourceBundle) : Prop := {
  ls_metadata : key_sorted (re_metadata (bu_resource b));
  ls_assets : StronglySorted (cmp_le oldest_asset) (map (asset_row (bu_resource b)) (bu_assets b));
  ls_placements : forall a, a ∈ bu_assets b -> StronglySorted (cmp_le oldest_placement) (as_placements a)
}.
Definition set_metadata (m : ResourceMetadata) (r : Resource) : Resource :=
  mkResource (resource_id r) (re_project_id r) (re_type r) (re_label r) m (re_created_at r) (re_updated_at r).
(** What the index holds of a bundle. *)
Definition indexed (b : ResourceBundle) : ResourceBundle :=
  mkBundle (set_metadata (kept_metadata (re_metadata (bu_resource b))) (bu_resource b)) (bu_assets b).

(** The rows of an owner, in a table from which they were deleted and to which [r] was
    added; and the rows of another owner. *)
Lemma filter_none {A} (q : A -> bool) (l : list A) : (forall x, x ∈ l -> q x = false) -> list_filter q l = [].
Proof.
  intros H. rewrite (list_filter_ext_in q (fun _ => false)) by done. unfold list_filter. apply filter_false.
Qed.
Lemma filter_fresh {A} (q : A -> bool) (l r : list A) :
  (forall x, x ∈ l -> q x = false) -> (forall x, x ∈ r -> q x = true) -> list_filter q (l ++ r) = r.
Proof.
  intros Hl Hr. pose proof (List.filter_app q l r) as Ha. fold (list_filter q) in Ha.
  unfold list_filter at 1. rewrite Ha. fold (list_filter q l) (list_filter q r).
  by rewrite filter_none, list_filter_all.
Qed.
Lemma filter_untouched {A} (p q : A -> bool) (l r : list A) :
  (forall x, x ∈ l -> q x = true -> p x = false) -> (forall x, x ∈ r -> q x = false) ->
  list_filter q (list_filter (fun x => negb (p x)) l ++ r) = list_filter q l.
Proof.
  intros Hl Hr. pose proof (List.filter_app q (list_filter (fun x => negb (p x)) l) r) as Ha.
  unfold list_filter at 1. rewrite Ha. fold (list_filter q r). rewrite (filter_none q r Hr), app_nil_r.
  clear Ha Hr. unfold list_filter. induction l as [|x l IH]; cbn; [done|].
  specialize (IH (fun y Hy => Hl y (list_elem_of_further _ _ _ Hy))). pose proof (Hl x (list_elem_of_here _ _)) as Hx.
  destruct (q x) eqn:Hq; destruct (p x) eqn:Hp; cbn; rewrite ?Hq, ?IH; try done. by discriminate Hx.
Qed.

Lemma app_nil_end_eq {A} (l r : list A) : r = [] -> l ++ r = l.
Proof. intros ->. apply app_nil_r. Qed.

Lemma bundle_placements_of r l a :
  NoDup (map ar_id (map (asset_row r) l)) -> a ∈ l ->
  list_filter (fun p => String.eqb (pl_asset_id p) (bind_text (asset_id a))) (bundle_placements l) = placement_rows a.
Proof.
  assert (forall x p, p ∈ placement_rows x -> pl_asset_id p = bind_text (asset_id x)) as Hrow.
  { intros x p (q & _ & ->)%elem_of_map_id. done. }
  assert (forall x, list_filter (fun p => String.eqb (pl_asset_id p) (bind_text (asset_id a))) (placement_rows x) =
            if String.eqb (bind_text (asset_id x)) (bind_text (asset_id a)) then placement_rows x else []) as Hone.
  { intros x. destruct (String.eqb_spec (bind_text (asset_id x)) (bind_text (asset_id a))) as [He|He].
    - apply list_filter_all. intros p Hp. apply String.eqb_eq. by rewrite (Hrow x p Hp).
    - apply filter_none. intros p Hp. apply String.eqb_neq. by rewrite (Hrow x p Hp). }
  induction l as [|x l IH]; cbn [map]; [intros _ H; inversion H|]. intros [Hx Hn]%NoDup_cons Ha.
  unfold bundle_placements. cbn [flat_map]. fold (bundle_placements l).
  unfold list_filter at 1. rewrite List.filter_app.
  fold (list_filter (fun p => String.eqb (pl_asset_id p) (bind_text (asset_id a))) (placement_rows x)). rewrite Hone.
  apply elem_of_cons in Ha as [->|Ha].
  - rewrite String.eqb_refl. apply app_nil_end_eq. apply filter_none. intros p Hp%list_elem_of_In.
    apply in_flat_map in Hp as (y & Hy%list_elem_of_In & Hp%list_elem_of_In). apply String.eqb_neq. rewrite (Hrow y p Hp).
    intros He. apply Hx. rewrite map_map. apply elem_of_map_id. exists y. split; [done|]. cbn. congruence.
  - destruct (String.eqb_spec (bind_text (asset_id x)) (bind_text (asset_id a))) as [He|_]; [|by apply IH].
    exfalso. apply Hx. rewrite map_map. apply elem_of_map_id. exists a. split; [done|]. cbn. congruence.
Qed.

Section Written.
Context {E : SqlEngine} `{!SqlEngineLaws E} (b : ResourceBundle) (db : Db).
Hypothesis W : resources_wf db.
Hypothesis W' : resources_wf (on_resources (put_rows b) db).
Let r := bu_resource b.
Let id := bind_text (resource_id r).
Let t := resource_tables db.
Let kept := resource_tables (cleared b db).
Let db' := on_resources (put_rows b) db.

(** Deleting the resource deletes what names it, and only that. *)
Definition of_bundle (x : string) : bool :=
  existsb (fun y => String.eqb (rr_id y) id && String.eqb (rr_id y) x) (resources t).
Lemma of_bundle_spec x : of_bundle x = true <-> x = id /\ exists_key rr_id id (resources t) = true.
Proof.
  unfold of_bundle. rewrite existsb_exists, exists_key_spec. setoid_rewrite andb_true_iff.
  setoid_rewrite String.eqb_eq. setoid_rewrite <- list_elem_of_In. naive_solver.
Qed.
Lemma of_bundle_other x : x <> id -> of_bundle x = false.
Proof. intros H. apply not_true_iff_false. by intros [-> _]%of_bundle_spec. Qed.

Lemma kept_metadata_rows m : m ∈ resource_metadata kept -> md_resource_id m <> id.
Proof.
  intros [Hm Hg]%elem_of_undeleted He. apply not_true_iff_false in Hg. apply Hg, of_bundle_spec.
  split; [done|]. rewrite <- He. by apply W.
Qed.
Lemma kept_asset_rows a : a ∈ assets kept -> ar_resource_id a <> id.
Proof.
  intros [Ha Hg]%elem_of_undeleted He. apply not_true_iff_false in Hg. apply Hg, of_bundle_spec.
  split; [done|]. destruct (as_owners _ _ W a Ha) as (x & Hx & Hi & _). apply exists_key_spec. exists x.
  by rewrite Hi, He.
Qed.

Lemma new_assets_apart a x : a ∈ bu_assets b -> x ∈ assets kept -> ar_id x <> bind_text (asset_id a).
Proof.
  intros Ha Hx He. pose proof (as_ids _ _ W') as Hn. cbn in Hn. rewrite map_app in Hn.
  apply list.NoDup_app in Hn as (_ & Hn & _). apply (Hn (ar_id x)).
  - apply elem_of_map_id. by exists x.
  - rewrite map_map. apply elem_of_map_id. exists a. by rewrite He.
Qed.

Lemma get_written : bound_bundle b -> listed b ->
  ResourceRepo.get db' (resource_id r) = Some (set_metadata (kept_metadata (re_metadata r)) r).
Proof.
  intros B L. unfold ResourceRepo.get.
  assert (head (sql_select (fun x => String.eqb (rr_id x) (bind_text (resource_id r))) cmp_true
            (resources (resource_tables db'))) = Some (resource_row r)) as ->.
  { apply head_by_key_Some; [apply W'|]. split; [apply elem_of_app; right; by left|done]. }
  rewrite (select_of _ _ _ (metadata_rows r)).
  - f_equal. unfold read_metadata, metadata_rows.
    pose proof (read_metadata_rows (resource_id r) (re_metadata r) []) as Hm. unfold read_row in Hm.
    rewrite Hm; [|apply B|apply L|by intros pv _ x Hx; inversion Hx].
    transitivity (set_metadata (kept_metadata (re_metadata r))
      (read_resource_row (resource_row r) (re_metadata r))); [done|]. exact (f_equal (set_metadata _) (bb_resource b B)).
  - apply (distinct_by md_key _ (resource_metadata (resource_tables db'))); [apply W'|..].
    + intros x Hx. apply elem_of_app. by right.
    + intros x y (Hx & _)%metadata_rows_props (Hy & _)%metadata_rows_props. apply by_property_Eq. congruence.
  - apply metadata_rows_sorted; [apply B|apply L].
  - apply filter_fresh.
    + intros x Hx. apply String.eqb_neq. by apply kept_metadata_rows.
    + intros x (Hx & _)%metadata_rows_props. by apply String.eqb_eq.
Qed.

Lemma placements_written a : bound_bundle b -> listed b -> a ∈ bu_assets b ->
  get_placements db' (asset_row r a) = as_placements a.
Proof.
  intros B L Ha. unfold get_placements. cbn [ar_id asset_row]. unfold bind_text at 1. rewrite c_str_idemp.
  fold (bind_text (asset_id a)).
  assert (placement_rows a = as_placements a) as Hrows.
  { unfold placement_rows. rewrite <- (map_id (as_placements a)) at 2. apply map_ext_in.
    intros p Hp%list_elem_of_In. by apply B. }
  apply select_of.
  - apply _.
  - intros x y Hx Hy. apply (distinct_by placement_id _ (asset_placements (resource_tables db')) (as_placements a)); try done.
    + apply W'.
    + intros p Hp. apply elem_of_app. right. apply list_elem_of_In, in_flat_map. exists a. rewrite <- !list_elem_of_In.
      by rewrite Hrows.
    + intros ? ? _ _. apply oldest_placement_Eq.
  - by apply L.
  - rewrite <- Hrows, <- (bundle_placements_of r (bu_assets b) a); [|..|done].
    2: { pose proof (as_ids _ _ W') as Hn. cbn in Hn. rewrite map_app in Hn. by apply list.NoDup_app in Hn as (_ & _ & ?). }
    change (list_filter (fun p => String.eqb (pl_asset_id p) (bind_text (asset_id a)))
              (asset_placements kept ++ bundle_placements (bu_assets b)) =
            list_filter (fun p => String.eqb (pl_asset_id p) (bind_text (asset_id a))) (bundle_placements (bu_assets b))).
    unfold list_filter. rewrite List.filter_app.
    fold (list_filter (fun p => String.eqb (pl_asset_id p) (bind_text (asset_id a))) (asset_placements kept)).
    rewrite filter_none; [done|]. intros p Hp. apply String.eqb_neq. intros He.
    pose proof (remove_wf (resource_id r) db W) as Wk.
    destruct (proj1 (exists_key_spec _ _ _) (pl_assets _ _ Wk p Hp)) as (x & Hx & Hi).
    apply (new_assets_apart a x Ha Hx). congruence.
Qed.

Lemma get_bundle_written : bound_bundle b -> listed b -> get_bundle db' (resource_id r) = Some (indexed b).
Proof.
  intros B L. unfold get_bundle. rewrite get_written by done.
  rewrite (select_of _ _ _ (map (asset_row r) (bu_assets b))).
  - unfold indexed. rewrite map_map. f_equal. f_equal. rewrite <- (map_id (bu_assets b)) at 2.
    apply map_ext_in. intros a Ha%list_elem_of_In. rewrite placements_written by done. by apply B.
  - apply (distinct_by ar_id _ (assets (resource_tables db'))); [apply W'|..].
    + intros x Hx. apply elem_of_app. by right.
    + intros x y _ _. apply oldest_asset_Eq.
  - apply L.
  - apply filter_fresh.
    + intros x Hx. apply String.eqb_neq. by apply kept_asset_rows.
    + intros x (a & _ & ->)%elem_of_map_id. by apply String.eqb_eq.
Qed.

(** Another bundle keeps its rows, and they are listed as before. *)
Section Other.
Context (i : string) (Hi : bind_text i <> id).

Lemma filter_other {A} (key : A -> string) (l rows : list A) :
  (forall x, x ∈ rows -> key x = id) ->
  list_filter (fun x => String.eqb (key x) (bind_text i)) (list_filter (fun x => negb (of_bundle (key x))) l ++ rows) =
  list_filter (fun x => String.eqb (key x) (bind_text i)) l.
Proof.
  intros Hr. apply (filter_untouched (fun x => of_bundle (key x))).
  - intros x _ ->%String.eqb_eq. by apply of_bundle_other.
  - intros x Hx. apply String.eqb_neq. rewrite (Hr x Hx). congruence.
Qed.

Lemma get_other : ResourceRepo.get db' i = ResourceRepo.get db i.
Proof.
  unfold ResourceRepo.get.
  rewrite (select_same _ cmp_true (resources t) (resources (resource_tables db'))).
  - fold t. destruct (head _) as [row|]; [|done]. f_equal. f_equal. f_equal. apply select_same.
    + apply _.
    + apply (distinct_by md_key _ (resource_metadata t)); [apply W|..].
      * by intros x [Hx _]%elem_of_list_filter.
      * intros x y [_ Hx%String.eqb_eq]%elem_of_list_filter [_ Hy%String.eqb_eq]%elem_of_list_filter.
        apply by_property_Eq. congruence.
    + apply filter_other. by intros x (Hx & _)%metadata_rows_props.
  - intros x y [Hx Hxi%String.eqb_eq]%elem_of_list_filter [Hy Hyi%String.eqb_eq]%elem_of_list_filter _.
    apply (NoDup_map_inj rr_id (resources t)); [apply W|done|done|congruence].
  - apply (filter_untouched (fun x => String.eqb (rr_id x) id)).
    + intros x _ ->%String.eqb_eq. by apply String.eqb_neq.
    + intros x ->%list_elem_of_singleton. apply String.eqb_neq. intros He. by apply Hi.
Qed.

Lemma placements_other a : a ∈ assets t -> ar_resource_id a = bind_text i ->
  get_placements db' a = get_placements db a.
Proof.
  intros Ha Hai. unfold get_placements. apply select_same.
  - apply _.
  - apply (distinct_by placement_id _ (asset_placements t)); [apply W|..].
    + by intros x [Hx _]%elem_of_list_filter.
    + intros x y _ _. apply oldest_placement_Eq.
  - apply (filter_untouched (fun p => existsb (fun x => of_bundle (ar_resource_id x) && String.eqb (ar_id x) (pl_asset_id p)) (assets t))).
    + intros p Hp He%String.eqb_eq. apply not_true_iff_false. intros Hx%existsb_exists.
      destruct Hx as (x & Hx%list_elem_of_In & [Ho Hid%String.eqb_eq]%andb_true_iff).
      rewrite He, (as_text _ _ W a Ha) in Hid. apply (NoDup_map_inj ar_id (assets t)) in Hid; [|apply W|done|done].
      subst x. apply of_bundle_spec in Ho as [Ho _]. congruence.
    + intros p Hp. apply String.eqb_neq. rewrite (as_text _ _ W a Ha). intros He.
      apply list_elem_of_In, in_flat_map in Hp as (x & Hx%list_elem_of_In & Hp%list_elem_of_In).
      apply elem_of_map_id in Hp as (q & _ & ->). apply (new_assets_apart x a Hx); [|by rewrite <- He].
      apply elem_of_undeleted. split; [done|]. apply of_bundle_other. congruence.
Qed.

Lemma get_bundle_other : get_bundle db' i = get_bundle db i.
Proof.
  unfold get_bundle. rewrite get_other. destruct (ResourceRepo.get db i) as [x|]; [|done]. f_equal. f_equal.
  rewrite (select_same _ oldest_asset (assets t) (assets (resource_tables db'))).
  - apply map_ext_in. intros a Ha%list_elem_of_In. f_equal.
    apply sql_select_elem in Ha as [Ha He%String.eqb_eq]. by apply placements_other.
  - apply (distinct_by ar_id _ (assets t)); [apply W|..].
    + by intros a [Ha _]%elem_of_list_filter.
    + intros a y _ _. apply oldest_asset_Eq.
  - apply filter_other. by intros a (y & _ & ->)%elem_of_map_id.
Qed.
End Other.

End Written.
End BundleReads.

Module ResourceTheorems.
Import BundleRows BundleReads Json.

(** Every write of the tables of resources. *)
Inductive Write :=
| PutBundle (b : ResourceBundle) | AddResource (r : Resource) | UpdateResource (r : Resource)
| RemoveResource (id : string) | RemoveResources (project : string)
| PutLocation (l : Location) | RemoveLocation (id : string) | RemoveLocations (project : string)
| RemoveProject (id : string).
Definition perform {E : SqlEngine} {N : JsonLib} (w : Write) : Repo unit :=
  match w with
  | PutBundle b => put_bundle b
  | AddResource r => add r
  | UpdateResource r => update r
  | RemoveResource id => ResourceRepo.remove id
  | RemoveResources project => remove_project project
  | PutLocation l => LocationRepo.put l
  | RemoveLocation id => LocationRepo.remove id
  | RemoveLocations project => LocationRepo.remove_project project
  | RemoveProject id => ProjectRepo.remove id
  end.

Lemma perform_wf {E : SqlEngine} {N : JsonLib} w : preserves resources_wf (perform w).
Proof.
  destruct w; cbn [perform].
  - apply put_bundle_wf.
  - apply add_wf.
  - apply update_wf.
  - apply remove_wf.
  - apply remove_project_wf.
  - apply location_put_wf.
  - apply delete_locations_wf.
  - apply delete_locations_wf.
  - apply project_remove_wf.
Qed.

(** C16: The tables of resources stay well-formed. From tables that satisfy the constraints of
    the schema, any sequence of writes of resources, locations and projects, those that throw
    half way included, ends in tables that satisfy them: ids and object keys are unique, what
    a row names exists, sizes are not negative, and an asset is of the project of its
    resource. In particular no placement is left without its location. *)
Theorem resource_tables_stay_wf (E : SqlEngine) (N : JsonLib) (ws : list Write) (db : Db) :
  resources_wf db ->
  let db' := foldl (fun d w => snd (perform w d)) db ws in
  resources_wf db' /\
  forall p, p ∈ asset_placements (resource_tables db') ->
    location_exists (pl_location_id p) (resource_tables db') = true.
Proof.
  intros W db'. assert (resources_wf db') as W'.
  { unfold db'. clear db'. revert db W. induction ws as [|w ws IH]; intros db W; [done|].
    cbn [foldl]. apply IH. by apply perform_wf. }
  split; [done|]. apply W'.
Qed.

(** C17: [put_bundle] succeeds exactly for a bundle that passes its checks and whose rows, in
    the place of those the resource had, satisfy the constraints of the tables. Then the
    bundle reads back, but for the properties that have no value, and every other bundle
    reads as before; otherwise it throws, and inside a transaction nothing changes. An
    [update] that succeeds after it keeps the assets and their placements. *)
Theorem put_bundle_correct (E : SqlEngine) (b : ResourceBundle) (db : Db) :
  SqlEngineLaws E -> resources_wf db -> bound_bundle b -> listed b ->
  let id := resource_id (bu_resource b) in
  let res := put_bundle b db in
  (fst res = Ok tt <-> putable b /\ resources_wf (on_resources (put_rows b) db)) /\
  (fst res = Ok tt ->
     get_bundle (snd res) id = Some (indexed b) /\
     (forall i, bind_text i <> bind_text id -> get_bundle (snd res) i = get_bundle db i) /\
     forall r, resource_id r = id -> bound_bundle (mkBundle r (bu_assets b)) -> listed (mkBundle r (bu_assets b)) ->
       fst (update r (snd res)) = Ok tt ->
       get_bundle (snd (update r (snd res))) id = Some (indexed (mkBundle r (bu_assets b)))) /\
  (fst res <> Ok tt -> transaction (put_bundle b) db = (fst res, db)).
Proof.
  intros L W B Ls id res. assert (res = put_bundle b db) as Hres by done. clearbody res.
  destruct res as [out db']. symmetry in Hres. cbn [fst snd].
  split; [|split].
  - split.
    + intros ->. by apply put_bundle_spec in Hres as (? & -> & ?).
    + intros [Hp W']. by rewrite (proj2 (put_bundle_spec b db _ W) (conj Hp (conj eq_refl W'))) in Hres; injection Hres.
  - intros ->. apply put_bundle_spec in Hres as (Hp & -> & W'); [|done].
    split; [by apply get_bundle_written|]. split; [intros i Hi; by apply get_bundle_other|].
    intros r Hr B' L' Hu. unfold update in *. rewrite Hr in *.
    destruct (put_bundle (mkBundle r (bu_assets b)) (on_resources (put_rows b) db)) as [out db2] eqn:Hput.
    assert (gets (fun d => get_bundle d id) (on_resources (put_rows b) db) =
            (Ok (Some (indexed b)), on_resources (put_rows b) db)) as Hg.
    { unfold gets. by rewrite (get_bundle_written b db W W'). }
    unfold bind in Hu |- *. rewrite Hg in Hu |- *. cbn [indexed bu_assets] in Hu |- *. rewrite Hput in Hu |- *.
    cbn [fst snd] in *. subst out. apply put_bundle_spec in Hput as (_ & -> & W2); [|done].
    rewrite <- Hr. by apply (get_bundle_written (mkBundle r (bu_assets b))).
  - intros Hn. unfold transaction. rewrite Hres. destruct out as [[]|e]; [by destruct Hn|done].
Qed.

(** ** A store with one photograph *)
Import ResourceManifestTheorems.

Definition shelves : Db :=
  mkDb [mkProject "p" "Notes" "/p" None None "plain" None Uuid4 0 0] [] [] [] [] []
    (mkResourceTables [] [] [] [] [mkLocationRow "l1" "p" "Shelf" "local" "{}" 1 1]).
Lemma shelves_wf : resources_wf shelves.
Proof.
  split; cbn; try apply NoDup_nil_2; try apply NoDup_singleton; try (intros x Hx; by inversion Hx).
  by intros l ->%list_elem_of_singleton.
Qed.
Lemma photo_bound : bound_bundle (photo 5).
Proof.
  split; [done| | |].
  - intros pv Hp. cbn in Hp. repeat (apply elem_of_cons in Hp as [->|Hp]; [done|]). by inversion Hp.
  - by intros a ->%list_elem_of_singleton.
  - by intros a p ->%list_elem_of_singleton ->%list_elem_of_singleton.
Qed.
Lemma photo_listed : listed (photo 5).
Proof.
  split; [repeat constructor|repeat constructor|].
  intros a ->%list_elem_of_singleton. repeat constructor.
Qed.

Example resource_tables_stay_wf_witness :
  resources_wf (foldl (fun d w => snd (@perform reference_engine ReferenceJson.reference_json w d)) shelves
    [PutBundle (photo 5); RemoveLocation "l1"; PutBundle (photo (-1)); RemoveProject "p"]).
Proof.
  exact (proj1 (resource_tables_stay_wf reference_engine ReferenceJson.reference_json
    [PutBundle (photo 5); RemoveLocation "l1"; PutBundle (photo (-1)); RemoveProject "p"] shelves shelves_wf)).
Defined.

Example put_bundle_correct_witness :
  @get_bundle reference_engine (snd (put_bundle (photo 5) shelves)) "r1" = Some (photo 5).
Proof.
  refine (proj1 (proj1 (proj2 (put_bundle_correct reference_engine (photo 5) shelves _ shelves_wf
    photo_bound photo_listed)) _)).
  vm_compute. reflexivity.
Defined.

(** A placement keeps its location; a negative size is refused. *)
Example location_in_use :
  fst (LocationRepo.remove "l1" (snd (put_bundle (photo 5) shelves))) = Err (Sqlite "remove location failed") /\
  fst (put_bundle (photo (-1)) shelves) = Err (InvalidArgument "invalid asset in resource bundle").
Proof. vm_compute. by split. Qed.

End ResourceTheorems.
