(* ===== verification/RebuildResources.v ===== *)
(** * Rebuilding the index of resources

    The part of [src/src/project/Rebuilder.cpp] that reads the manifests of storage
    locations and resources, checks them against each other, and puts them into the index. *)

From stdpp Require Import base list sets strings numbers gmap sorting.
From Stdlib Require Import Ascii.
From S2P Require Import Prelude Double Model Text Database CardFrontMatter Disk Mutation Privacy.
From S2P Require Import Json ResourceManifest ResourceRepo LocationRepo.
Import Disk CardMutation ProjectPrivacy Json ResourceManifest.

(** What the file system says beyond the bytes of a file: the order in which a directory is
    listed, and when a file was last written. *)
Class Directory := {
  read_directory : list string -> list string;
  file_mtime_seconds : Disk -> string -> Z
}.
Class DirectoryLaws (D : Directory) : Prop := {
  read_directory_perm : forall l, read_directory l ≡ₚ l
}.

Module RebuildFiles.

(** ** Paths *)

(** [path.filename()] *)
Definition filename (path : string) : string := default "" (last (components "" path)).
(** The name before and from its last dot. *)
Fixpoint split_extension (name : string) : option (string * string) :=
  match name with
  | EmptyString => None
  | String c rest =>
      match split_extension rest with
      | Some (stem, ext) => Some (String c stem, ext)
      | None => if Ascii.eqb c "."%char then Some (EmptyString, name) else None
      end
  end.
(** [path.extension()] and [path.stem()]: a leading dot starts no extension. *)
Definition extension (path : string) : string :=
  match split_extension (filename path) with
  | Some (EmptyString, _) | None => ""
  | Some (_, ext) => ext
  end.
Definition stem (path : string) : string :=
  match split_extension (filename path) with
  | Some (EmptyString, _) | None => filename path
  | Some (name, _) => name
  end.

Section Files.
Context {L : LibGit2} {V : Privacy} {D : Directory}.

(** A project whose key is not known reads its files as they are. *)
Definition decode_blob_for_project (project : Project) (raw : string) : IO string :=
  if negb (encrypted project) then mret raw
  else match project_key_id project with
       | None => mret raw
       | Some key =>
           if String.eqb key "" then mret raw
           else attempt "privacy_crypto_failed"
                  (lift (decrypt_project_blob (project_id project) key raw))
       end.

Definition in_directory (base ext path : string) : bool :=
  String.prefix (base +:+ "/") path && String.eqb (extension path) ext.

(** [fs.exists(base)], then the recursive iteration. *)
Definition collect_files (base ext : string) : IO (list string) :=
  attempt "exists" (mret tt) ;;;
  attempt "recursive_directory_iterator" (gets (fun w =>
    read_directory (list_filter (in_directory base ext) (map fst (map_to_list (work (disk w))))))).
End Files.
End RebuildFiles.

Module RebuildResources.
Import RebuildFiles.

(** [is_sha256]: 64 hexadecimal digits. *)
Definition is_xdigit (c : ascii) : bool := is_digit c || in_range "a" "f" c || in_range "A" "F" c.
Definition is_sha256 (value : string) : bool :=
  Nat.eqb (String.length value) 64 && forallb is_xdigit (bytes_of value).

(** The ids that were seen so far. *)
Record Seen := mkSeen { seen_assets : gset string; seen_placements : gset string }.

Section Resources.
Context {L : LibGit2} {V : Privacy} {D : Directory} {N : JsonLib}.

(** [parse(decode_blob_for_project(project, fs.read_file(path)))]; what it throws is
    thrown again with the path. *)
Definition read_manifest {B} (project : Project) (parse : string -> result B) (path : string) : IO B :=
  try_catch
    (let* raw := fs_read_file (Work path) in
     let* plain := decode_blob_for_project project raw in
     lift (parse plain))
    (fun e => throw (Runtime (path +:+ ": " +:+ error_what e))).

(** ** Locations *)

Definition load_location (project : Project) (ids : gset string) (path : string) : IO Location :=
  let* location := read_manifest project parse_location_manifest path in
  let* expected := lift (location_rel_path (location_id location)) in
  when (negb (String.eqb path expected)) (throw (Runtime (path +:+ ": location path does not match id"))) ;;;
  when (negb (String.eqb (lo_project_id location) (project_id project)))
    (throw (Runtime (path +:+ ": location belongs to another project"))) ;;;
  when (bool_decide (location_id location ∈ ids)) (throw (Runtime (path +:+ ": duplicate location_id"))) ;;;
  mret location.
Fixpoint load_locations (project : Project) (ids : gset string) (paths : list string) : IO (list Location) :=
  match paths with
  | [] => mret []
  | path :: paths =>
      let* location := load_location project ids path in
      let* rest := load_locations project ({[location_id location]} ∪ ids) paths in
      mret (location :: rest)
  end.

(** ** Resources *)

Fixpoint see_placements (path : string) (placements : list Placement) (ids : gset string) : result (gset string) :=
  match placements with
  | [] => Ok ids
  | p :: placements =>
      if bool_decide (placement_id p ∈ ids) then Err (Runtime (path +:+ ": duplicate placement_id"))
      else if negb (is_sha256 (stored_sha256 p)) then Err (Runtime (path +:+ ": invalid stored_sha256"))
      else see_placements path placements ({[placement_id p]} ∪ ids)
  end.
Fixpoint see_assets (path : string) (assets : list Asset) (seen : Seen) : result Seen :=
  match assets with
  | [] => Ok seen
  | a :: assets =>
      if bool_decide (asset_id a ∈ seen_assets seen) then Err (Runtime (path +:+ ": duplicate asset_id"))
      else if negb (is_sha256 (plaintext_sha256 a)) then Err (Runtime (path +:+ ": invalid plaintext_sha256"))
      else
        let? placements := see_placements path (as_placements a) (seen_placements seen) in
        see_assets path assets (mkSeen ({[asset_id a]} ∪ seen_assets seen) placements)
  end.

Definition load_resource (project : Project) (ids : gset string) (path : string) : IO ResourceBundle :=
  let* bundle := read_manifest project parse_resource_manifest path in
  let id := resource_id (bu_resource bundle) in
  let* expected := lift (resource_rel_path id) in
  when (negb (String.eqb path expected)) (throw (Runtime (path +:+ ": resource path does not match id"))) ;;;
  when (negb (String.eqb (re_project_id (bu_resource bundle)) (project_id project)))
    (throw (Runtime (path +:+ ": resource belongs to another project"))) ;;;
  when (bool_decide (id ∈ ids)) (throw (Runtime (path +:+ ": duplicate resource_id"))) ;;;
  mret bundle.
Fixpoint load_resources (project : Project) (ids : gset string) (seen : Seen) (paths : list string)
    : IO (list ResourceBundle) :=
  match paths with
  | [] => mret []
  | path :: paths =>
      let* bundle := load_resource project ids path in
      let* seen := lift (see_assets path (bu_assets bundle) seen) in
      let* rest := load_resources project ({[resource_id (bu_resource bundle)]} ∪ ids) seen paths in
      mret (bundle :: rest)
  end.

(** Every placement names a location that was read. *)
Definition check_placement (b : ResourceBundle) (locations : list Location) (p : Placement) : result unit :=
  if existsb (fun l => String.eqb (location_id l) (pl_location_id p)) locations then Ok tt
  else
    let? path := resource_rel_path (resource_id (bu_resource b)) in
    Err (Runtime (path +:+ ": placement refers to unknown location " +:+ pl_location_id p)).
Definition bundle_placements (b : ResourceBundle) : list Placement := flat_map as_placements (bu_assets b).
Definition check_bundle (locations : list Location) (b : ResourceBundle) : result unit :=
  let? _ := map_result (check_placement b locations) (bundle_placements b) in Ok tt.

Definition load_manifests (project : Project) : IO (list Location * list ResourceBundle) :=
  let* location_files := collect_files "locations" ".json" in
  let* resource_files := collect_files "resources" ".json" in
  let* locations := load_locations project ∅ location_files in
  let* bundles := load_resources project ∅ (mkSeen ∅ ∅) resource_files in
  for_each bundles (fun b => lift (check_bundle locations b)) ;;;
  mret (locations, bundles).

(** ** The index *)

Definition exec_delete_resources (id : string) : Repo unit :=
  exec "delete failed" (fun db => Some (on_resources
    (delete_resource_rows (fun r => String.eqb (rr_project_id r) (bind_text id))) db)) ;;;
  exec "delete failed" (LocationRepo.delete_locations (fun l => String.eqb (lr_project_id l) (bind_text id))).

Definition insert_manifests (m : list Location * list ResourceBundle) : Repo unit :=
  for_each m.1 LocationRepo.put ;;;
  for_each m.2 ResourceRepo.put_bundle.

End Resources.
End RebuildResources.
