(* ===== verification/RebuildReads.v ===== *)
(** * Reading the files of a repository

    What a rebuild that nothing disturbs reads: computations that only read, the files of a
    directory, and the text behind the bytes of a project's file. *)

From stdpp Require Import base list sets strings numbers gmap.
From Stdlib Require Import Ascii.
From S2P Require Import Prelude Double Model Text Disk Mutation Privacy RebuildResources.
Import Disk DiskFacts CardMutation ProjectPrivacy RebuildFiles.

Module RebuildReads.

(** ** Computations that only read, when nothing disturbs them *)

Definition reads {A} (m : IO A) (d : Disk) (a : A) : Prop :=
  forall w, calm w -> disk w = d -> exists w', m w = (Ok a, w') /\ disk w' = d /\ calm w'.

Lemma reads_bind {A B} (m : IO A) (f : A -> IO B) d a b : reads m d a -> reads (f a) d b -> reads (bind m f) d b.
Proof.
  intros Hm Hf w Hc Hd. destruct (Hm w Hc Hd) as (w1 & H1 & Hd1 & Hc1). unfold bind. rewrite H1.
  by apply Hf.
Qed.
Lemma reads_mret {A} d (a : A) : reads (mret a) d a.
Proof. intros w Hc Hd. by exists w. Qed.
Lemma reads_lift {A} d (a : A) r : r = Ok a -> reads (lift r) d a.
Proof. intros -> w Hc Hd. by exists w. Qed.
Lemma reads_gets {A} (f : World -> A) d a : (forall w, disk w = d -> f w = a) -> reads (gets f) d a.
Proof. intros H w Hc Hd. exists w. unfold gets. by rewrite (H w Hd). Qed.
Lemma reads_attempt {A} what (m : IO A) d a : reads m d a -> reads (attempt what m) d a.
Proof.
  intros H w Hc Hd. unfold attempt. rewrite (Hc (tick w)). apply (H (advance w)); [|done]. intros n. apply Hc.
Qed.
Lemma reads_when_false d (m : IO unit) b : b = false -> reads (when b m) d tt.
Proof. intros ->. apply reads_mret. Qed.
Lemma reads_for_each {A} (l : list A) f d :
  (forall x, x ∈ l -> reads (f x) d tt) -> reads (for_each l f) d tt.
Proof.
  induction l as [|x l IH]; intros H; [apply reads_mret|].
  apply (reads_bind _ _ _ tt); [apply H; by left|]. apply IH. intros y Hy. apply H. by right.
Qed.
Lemma reads_file l s d : peek l d = Some s -> reads (fs_read_file l) d s.
Proof. intros H. apply reads_attempt. intros w Hc Hd. exists w. rewrite Hd, H. done. Qed.
Lemma reads_exists l d : reads (fs_exists l) d (bool_decide (is_Some (peek l d))).
Proof. apply reads_attempt, reads_gets. by intros w ->. Qed.

Lemma Forall2_elem_l {A B} (R : A -> B -> Prop) l k x : Forall2 R l k -> x ∈ l -> exists y, y ∈ k /\ R x y.
Proof.
  induction 1 as [|a b l k Hab _ IH]; [by intros ?%elem_of_nil|].
  intros [->|Hx]%elem_of_cons; [exists b; split; [by left|done]|].
  destruct (IH Hx) as (y & ? & ?). exists y. split; [by right|done].
Qed.
Lemma Forall2_elem_r {A B} (R : A -> B -> Prop) l k y : Forall2 R l k -> y ∈ k -> exists x, x ∈ l /\ R x y.
Proof. intros H%Forall2_flip. apply (Forall2_elem_l (flip R)), H. Qed.

(** ** Paths *)

Fixpoint no_slash (s : string) : bool :=
  match s with EmptyString => true | String c s => negb (Ascii.eqb c "/") && no_slash s end.

Lemma no_slash_app s t : no_slash (s +:+ t) = no_slash s && no_slash t.
Proof.
  induction s as [|c s IH]; [done|]. change (String c s +:+ t) with (String c (s +:+ t)). cbn [no_slash].
  by rewrite IH, andb_assoc.
Qed.

Lemma components_no_slash cur t : no_slash t = true -> components cur t = [cur +:+ t].
Proof.
  revert cur. induction t as [|c t IH]; intros cur; cbn [no_slash components].
  { by rewrite append_nil_r. }
  intros [Hc%negb_true_iff Ht]%andb_true_iff. rewrite Hc, (IH _ Ht).
  by rewrite <- append_assoc.
Qed.

Lemma components_last cur s t : no_slash t = true -> last (components cur (s +:+ String "/" t)) = Some t.
Proof.
  intros Ht. revert cur. induction s as [|c s IH]; intros cur.
  - change ("" +:+ String "/" t) with (String "/" t). cbn [components]. change (Ascii.eqb "/" "/") with true.
    cbn [last]. by rewrite (components_no_slash "" t Ht).
  - change (String c s +:+ String "/" t) with (String c (s +:+ String "/" t)). cbn [components].
    destruct (Ascii.eqb c "/"); [|apply IH]. by rewrite last_cons, IH.
Qed.

Lemma split_extension_app s t x :
  split_extension t = Some (EmptyString, x) -> split_extension (s +:+ t) = Some (s, x).
Proof.
  intros Ht. induction s as [|c s IH]; [done|].
  change (String c s +:+ t) with (String c (s +:+ t)). cbn [split_extension]. by rewrite IH.
Qed.

(** ** Files *)

Section Files.
Context {L : LibGit2} {V : Privacy} {D : Directory}.

(** The bytes that end up in the file: the text, or what the cipher made of it. *)
Definition written (project : Project) (text raw : string) : Prop :=
  if encrypted project then
    exists n key, require_project_key_id project = Ok key /\
      encrypt_project_blob n (project_id project) key text = Ok raw
  else raw = text.

Lemma decode_written `{!PrivacyLaws V} project text raw d :
  written project text raw -> reads (decode_blob_for_project project raw) d text.
Proof.
  unfold written, decode_blob_for_project. destruct (encrypted project); cbn [negb].
  - intros (n & key & Hk & He). unfold require_project_key_id in Hk.
    destruct (project_key_id project) as [k|]; [|done]. destruct (String.eqb k ""); [done|].
    injection Hk as ->. apply reads_attempt, reads_lift. by eapply decrypt_encrypted.
  - intros ->. apply reads_mret.
Qed.

Lemma reads_collect base ext d :
  reads (collect_files base ext) d
    (read_directory (list_filter (in_directory base ext) (map fst (map_to_list (work d))))).
Proof.
  eapply reads_bind; [apply reads_attempt, reads_mret|]. apply reads_attempt, reads_gets. by intros w ->.
Qed.

Lemma collected `{!DirectoryLaws D} base ext d path :
  path ∈ read_directory (list_filter (in_directory base ext) (map fst (map_to_list (work d)))) <->
  is_Some (work d !! path) /\ in_directory base ext path = true.
Proof.
  rewrite read_directory_perm, elem_of_list_filter. apply and_iff_compat_r. rewrite elem_of_map_id. split.
  - intros ([k v] & Hk%elem_of_map_to_list & ->). by exists v.
  - intros [v Hv]. exists (path, v). split; [by apply elem_of_map_to_list|done].
Qed.

Lemma collected_NoDup `{!DirectoryLaws D} base ext d :
  NoDup (read_directory (list_filter (in_directory base ext) (map fst (map_to_list (work d))))).
Proof. rewrite read_directory_perm. apply NoDup_ListNoDup, List.NoDup_filter, NoDup_ListNoDup, NoDup_fst_map_to_list. Qed.
End Files.
End RebuildReads.
