(* ===== verification/RebuildManifests.v ===== *)
(** * The manifests of a repository and the tables of resources

    The round trip between the manifests of resources and locations and the index: the
    files are read as what they were rendered from, in whatever order they are listed, and
    the rows of all of them go into the tables together. *)

From stdpp Require Import base list sets strings numbers gmap sorting.
From Stdlib Require Import Ascii.
From S2P Require Import Prelude Double Model Text Database CardFrontMatter Disk Mutation Privacy.
From S2P Require Import Json ResourceManifest ResourceRepo LocationRepo ResourceFacts ResourceTheorems.
From S2P Require Import RebuildResources RebuildReads.
Import Disk DiskFacts CardMutation ProjectPrivacy Json ResourceManifest ResourceManifestFacts.
Import ResourceRepo ResourceFacts BundleRows RebuildFiles RebuildResources RebuildReads.
Local Abbreviation list := Datatypes.list.

Module ManifestRows.

(** ** All the rows *)

Section Rows.
Context {N : JsonLib}.

Definition bundle_id (b : ResourceBundle) : string := resource_id (bu_resource b).
Definition location_config (l : Location) : result string := json_dump None (of_map JString (lo_configuration l)).
Definition location_row (l : Location) : LocationRow :=
  LocationRepo.location_row (match location_config l with Ok c => c | Err _ => "" end) l.

Definition add_locations (ls : list Location) (t : ResourceTables) : ResourceTables :=
  mkResourceTables (resources t) (resource_metadata t) (assets t) (asset_placements t)
    (storage_locations t ++ map location_row ls).
Definition bundle_assets (b : ResourceBundle) : list AssetRow := map (asset_row (bu_resource b)) (bu_assets b).
Definition add_bundles (bs : list ResourceBundle) (t : ResourceTables) : ResourceTables :=
  mkResourceTables (resources t ++ map (fun b => resource_row (bu_resource b)) bs)
    (resource_metadata t ++ flat_map (fun b => metadata_rows (bu_resource b)) bs)
    (assets t ++ flat_map bundle_assets bs)
    (asset_placements t ++ flat_map (fun b => BundleRows.bundle_placements (bu_assets b)) bs)
    (storage_locations t).
Definition add_manifests (ls : list Location) (bs : list ResourceBundle) (t : ResourceTables) : ResourceTables :=
  add_bundles bs (add_locations ls t).

(** Tables that are the same but for the order of their rows. *)
Record same_rows (t u : ResourceTables) : Prop := {
  sr_resources : resources t ≡ₚ resources u;
  sr_metadata : resource_metadata t ≡ₚ resource_metadata u;
  sr_assets : assets t ≡ₚ assets u;
  sr_placements : asset_placements t ≡ₚ asset_placements u;
  sr_locations : storage_locations t ≡ₚ storage_locations u
}.

Lemma exists_key_perm {A} (key : A -> string) id l l' : l ≡ₚ l' -> exists_key key id l = true -> exists_key key id l' = true.
Proof. rewrite !exists_key_spec. intros H (x & Hx & He). exists x. by rewrite <- H. Qed.

Lemma tables_wf_perm known t u : same_rows t u -> tables_wf known t -> tables_wf known u.
Proof.
  intros [H1 H2 H3 H4 H5] W. split.
  - rewrite <- H1. apply W.
  - intros x. rewrite <- H1. apply W.
  - rewrite <- H2. apply W.
  - intros x. rewrite <- H2. intros Hx. eapply exists_key_perm; [exact H1|by apply W].
  - rewrite <- H3. apply W.
  - intros x. rewrite <- H3. intros Hx. destruct (as_owners _ _ W x Hx) as (r & Hr & ?). exists r. by rewrite <- H1.
  - intros x. rewrite <- H3. apply W.
  - intros x. rewrite <- H3. apply W.
  - rewrite <- H4. apply W.
  - rewrite <- H4. apply W.
  - intros x. rewrite <- H4. intros Hx. eapply exists_key_perm; [exact H3|by apply W].
  - intros x. rewrite <- H4. intros Hx. eapply exists_key_perm; [exact H5|by apply W].
  - intros x. rewrite <- H4. apply W.
  - rewrite <- H5. apply W.
  - intros x. rewrite <- H5. apply W.
Qed.

Lemma flat_map_perm {A B} (f : A -> list B) l l' : l ≡ₚ l' -> flat_map f l ≡ₚ flat_map f l'.
Proof.
  induction 1; cbn; [done|by f_equiv| |by etrans]. rewrite !app_assoc. f_equiv. apply Permutation_app_comm.
Qed.
Lemma add_manifests_perm ls ls' bs bs' t :
  ls ≡ₚ ls' -> bs ≡ₚ bs' -> same_rows (add_manifests ls bs t) (add_manifests ls' bs' t).
Proof. intros Hl Hb. split; cbn; f_equiv; first [by apply flat_map_perm|by apply Permutation_map]. Qed.

(** What the tables ask of the manifests of a project, and the statements of their texts. *)
Record indexable (ls : list Location) (bs : list ResourceBundle) (db : Db) : Prop := {
  ix_base : resources_wf db;
  ix_locations : forall l, l ∈ ls -> valid_location l /\ exists c, location_config l = Ok c;
  ix_bundles : forall b, b ∈ bs -> putable b;
  ix_wf : resources_wf (on_resources (add_manifests ls bs) db)
}.
Lemma indexable_perm ls ls' bs bs' db : ls ≡ₚ ls' -> bs ≡ₚ bs' -> indexable ls bs db -> indexable ls' bs' db.
Proof.
  intros Hl Hb [H1 H2 H3 H4]. split; [done| | |].
  - intros l. rewrite <- Hl. apply H2.
  - intros b. rewrite <- Hb. apply H3.
  - eapply tables_wf_perm; [by apply add_manifests_perm|exact H4].
Qed.

(** ** One after the other *)

Ltac rows := cbn [add_manifests add_bundles add_locations on_resources set_resource_tables resource_tables
  resources resource_metadata assets asset_placements storage_locations].

Lemma wf_locations known ls bs t :
  tables_wf known t -> tables_wf known (add_manifests ls bs t) -> tables_wf known (add_locations ls t).
Proof.
  intros W V. split; rows; try apply W; try apply V.
  intros p Hp. apply exists_key_app. by apply W.
Qed.

Lemma NoDup_map_prefix {A B} (f : A -> B) (l r : list A) : NoDup (map f (l ++ r)) -> NoDup (map f l).
Proof. rewrite map_app. by intros (H & _ & _)%list.NoDup_app. Qed.
Lemma elem_of_bundle_rows {A B} (f : A -> list B) (l : list A) y :
  y ∈ flat_map f l <-> exists x, x ∈ l /\ y ∈ f x.
Proof.
  rewrite list_elem_of_In, in_flat_map. setoid_rewrite list_elem_of_In. done.
Qed.

Lemma metadata_rows_owner r m : m ∈ metadata_rows r -> md_resource_id m = rr_id (resource_row r).
Proof.
  intros (pv & _ & Hm)%elem_of_bundle_rows. revert Hm. unfold property_rows. generalize 0.
  induction pv.2 as [|v vs IH]; intros i; cbn [value_rows]; [by intros H; inversion H|].
  intros [->|Hm]%elem_of_cons; [done|by apply (IH (i + 1))].
Qed.
Lemma placement_rows_owner l p : p ∈ BundleRows.bundle_placements l ->
  exists a, a ∈ l /\ pl_asset_id p = bind_text (asset_id a).
Proof.
  intros (a & Ha & Hp)%elem_of_bundle_rows. exists a. split; [done|].
  by apply elem_of_map_id in Hp as (q & _ & ->).
Qed.

(** The rows of the first bundles need none of the others. *)
Lemma wf_prefix known pre post t :
  tables_wf known t -> tables_wf known (add_bundles (pre ++ post) t) -> tables_wf known (add_bundles pre t).
Proof.
  intros W V. split; rows.
  - apply (NoDup_map_prefix _ _ (map (fun b => resource_row (bu_resource b)) post)). rewrite <- app_assoc, <- map_app. apply V.
  - intros r Hr. apply V. rows. rewrite map_app. apply elem_of_app in Hr. rewrite !elem_of_app. tauto.
  - apply (NoDup_map_prefix _ _ (flat_map (fun b => metadata_rows (bu_resource b)) post)). rewrite <- app_assoc, <- flat_map_app. apply V.
  - intros m [Hm|(b & Hb & Hm)%elem_of_bundle_rows]%elem_of_app; [by apply exists_key_app, W|].
    apply exists_key_spec. exists (resource_row (bu_resource b)). rewrite elem_of_app, elem_of_map_id.
    split; [right; by exists b|by rewrite (metadata_rows_owner _ _ Hm)].
  - apply (NoDup_map_prefix _ _ (flat_map bundle_assets post)). rewrite <- app_assoc, <- flat_map_app. apply V.
  - intros a [Ha|(b & Hb & (x & Hx & ->)%elem_of_map_id)%elem_of_bundle_rows]%elem_of_app.
    + destruct (as_owners _ _ W a Ha) as (r & Hr & ?). exists r. rewrite elem_of_app. auto.
    + exists (resource_row (bu_resource b)). rewrite elem_of_app, elem_of_map_id. split; [right; by exists b|done].
  - intros a Ha. apply V. rows. rewrite flat_map_app. apply elem_of_app in Ha. rewrite !elem_of_app. tauto.
  - intros a Ha. apply V. rows. rewrite flat_map_app. apply elem_of_app in Ha. rewrite !elem_of_app. tauto.
  - apply (NoDup_map_prefix _ _ (flat_map (fun b => BundleRows.bundle_placements (bu_assets b)) post)).
    rewrite <- app_assoc, <- flat_map_app. apply V.
  - apply (NoDup_map_prefix _ _ (flat_map (fun b => BundleRows.bundle_placements (bu_assets b)) post)).
    rewrite <- app_assoc, <- flat_map_app. apply V.
  - intros p [Hp|(b & Hb & (a & Ha & ->)%placement_rows_owner)%elem_of_bundle_rows]%elem_of_app; [by apply exists_key_app, W|].
    apply exists_key_spec. exists (asset_row (bu_resource b) a). split; [|done].
    apply elem_of_app. right. apply elem_of_bundle_rows. exists b. split; [done|]. apply elem_of_map_id. by exists a.
  - intros p Hp. apply V. rows. rewrite flat_map_app. apply elem_of_app in Hp. rewrite !elem_of_app. tauto.
  - intros p Hp. apply V. rows. rewrite flat_map_app. apply elem_of_app in Hp. rewrite !elem_of_app. tauto.
  - apply V.
  - apply V.
Qed.

Lemma put_location_ok l db :
  valid_location l -> (exists c, location_config l = Ok c) ->
  lr_id (location_row l) ∉ map lr_id (storage_locations (resource_tables db)) ->
  project_exists (lr_project_id (location_row l)) db = true ->
  LocationRepo.put l db = (Ok tt, on_resources (add_locations [l]) db).
Proof.
  intros [H1 H2 H3 H4] [c Hc] Hid Hp. unfold LocationRepo.put.
  rewrite !(proj2 (String.eqb_neq _ _)) by done. cbn [orb when].
  unfold location_row in Hid, Hp |- *. rewrite Hc in Hid, Hp. fold (location_config l).
  unfold bind at 1. cbn. unfold bind, lift. rewrite Hc. unfold exec, LocationRepo.upsert_location_row.
  cbn in Hp. cbn [LocationRepo.location_row lr_project_id lr_id]. rewrite Hp. cbn [negb].
  change (ResourceRepo.location_exists (bind_text (location_id l)) (resource_tables db)) with
    (exists_key lr_id (bind_text (location_id l)) (storage_locations (resource_tables db))).
  rewrite (proj2 (not_exists_key _ _ _)) by done. unfold on_resources, add_locations, location_row. cbn [map]. by rewrite Hc.
Qed.

Lemma add_locations_cons l ls t : add_locations (l :: ls) t = add_locations ls (add_locations [l] t).
Proof. unfold add_locations. cbn. by rewrite <- app_assoc. Qed.

Lemma put_locations_ok ls db :
  (forall l, l ∈ ls -> valid_location l /\ exists c, location_config l = Ok c) ->
  NoDup (map lr_id (storage_locations (resource_tables (on_resources (add_locations ls) db)))) ->
  (forall l, l ∈ ls -> project_exists (lr_project_id (location_row l)) db = true) ->
  for_each ls LocationRepo.put db = (Ok tt, on_resources (add_locations ls) db).
Proof.
  revert db. induction ls as [|l ls IH]; intros db Hv Hn Hp.
  - cbn. unfold on_resources, add_locations. rewrite app_nil_r. by destruct db as [? ? ? ? ? ? []].
  - cbn [for_each]. destruct (Hv l) as [H1 H2]; [by left|].
    assert (on_resources (add_locations (l :: ls)) db = on_resources (add_locations ls) (on_resources (add_locations [l]) db)) as He.
    { unfold on_resources. cbn [resource_tables set_resource_tables]. by rewrite add_locations_cons. }
    rewrite He in Hn |- *. rewrite (bind_seq _ _ _ (on_resources (add_locations [l]) db)).
    + apply IH; [intros x Hx; apply Hv; by right|done|intros x Hx; apply (Hp x); by right].
    + apply put_location_ok; [done|done| |apply Hp; by left].
      revert Hn. rows. rewrite <- app_assoc. cbn [map app]. rewrite map_app. cbn [map].
      intros (_ & Hn & _)%list.NoDup_app Hx. apply (Hn _ Hx). by left.
Qed.

(** No row is selected. *)
Lemma delete_none p t : (forall r, r ∈ resources t -> p r = false) -> delete_resource_rows p t = t.
Proof.
  intros H. unfold delete_resource_rows, delete_asset_rows.
  assert (forall id, existsb (fun r => p r && String.eqb (rr_id r) id) (resources t) = false) as Hg.
  { intros id. apply not_true_iff_false. intros (r & Hr & He)%existsb_exists. apply list_elem_of_In in Hr.
    by rewrite (H r Hr) in He. }
  assert (forall id, existsb (fun a => existsb (fun r => p r && String.eqb (rr_id r) (ar_resource_id a)) (resources t) &&
    String.eqb (ar_id a) id) (assets t) = false) as Ha.
  { intros id. apply not_true_iff_false. intros (a & _ & He)%existsb_exists. by rewrite Hg in He. }
  cbn. rewrite !list_filter_all; [by destruct t|..]; intros x Hx; apply negb_true_iff; auto.
Qed.

Lemma put_rows_fresh b t :
  bind_text (bundle_id b) ∉ map rr_id (resources t) -> put_rows b t = add_bundles [b] t.
Proof.
  intros Hn. unfold put_rows. rewrite delete_none.
  - unfold append_rows, add_bundles. cbn. unfold bundle_assets. by rewrite !app_nil_r.
  - intros r Hr. apply String.eqb_neq. intros He. apply Hn, elem_of_map_id. by exists r.
Qed.

Lemma add_bundles_app bs bs' t : add_bundles (bs ++ bs') t = add_bundles bs' (add_bundles bs t).
Proof. unfold add_bundles. cbn. by rewrite !map_app, !flat_map_app, !app_assoc. Qed.
Lemma add_bundles_nil t : add_bundles [] t = t.
Proof. unfold add_bundles. cbn. rewrite !app_nil_r. by destruct t. Qed.

Lemma put_bundles_ok post pre db :
  resources_wf db -> (forall b, b ∈ post -> putable b) ->
  resources_wf (on_resources (add_bundles (pre ++ post)) db) ->
  for_each post put_bundle (on_resources (add_bundles pre) db) = (Ok tt, on_resources (add_bundles (pre ++ post)) db).
Proof.
  revert pre. induction post as [|b post IH]; intros pre W Hp V; [by rewrite app_nil_r|].
  assert (resources_wf (on_resources (add_bundles (pre ++ [b])) db)) as V1.
  { apply (wf_prefix _ (pre ++ [b]) post); [exact W|]. by rewrite <- app_assoc. }
  assert (resources_wf (on_resources (add_bundles pre) db)) as V0 by (by apply (wf_prefix _ pre [b])).
  assert (on_resources (put_rows b) (on_resources (add_bundles pre) db) = on_resources (add_bundles (pre ++ [b])) db) as He.
  { unfold on_resources. rows. rewrite put_rows_fresh, <- add_bundles_app; [done|].
    pose proof (rs_ids _ _ V1) as Hn. revert Hn. rows. rewrite (map_app _ pre [b]), app_assoc. cbn [map].
    intros Hn%NoDup_map_cons_app. exact Hn. }
  cbn [for_each]. rewrite (bind_seq _ _ _ (on_resources (add_bundles (pre ++ [b])) db)).
  - replace (pre ++ b :: post) with ((pre ++ [b]) ++ post) in * by (by rewrite <- app_assoc).
    apply IH; [done|intros x Hx; apply Hp; by right|done].
  - apply put_bundle_spec; [done|]. rewrite He. split; [apply Hp; by left|done].
Qed.

Lemma insert_manifests_ok ls bs db :
  indexable ls bs db -> insert_manifests (ls, bs) db = (Ok tt, on_resources (add_manifests ls bs) db).
Proof.
  intros [W Hl Hb V]. pose proof (wf_locations _ ls bs _ W V) as W1. unfold insert_manifests. cbn [fst snd].
  rewrite (bind_seq _ _ _ (on_resources (add_locations ls) db)).
  - pose proof (put_bundles_ok bs [] (on_resources (add_locations ls) db) W1 Hb V) as H.
    assert (on_resources (add_bundles []) (on_resources (add_locations ls) db) = on_resources (add_locations ls) db) as He.
    { unfold on_resources. by rewrite add_bundles_nil. }
    by rewrite He in H.
  - apply put_locations_ok; [done|apply W1|]. intros l Hl'. apply (lc_projects _ _ W1). rows.
    apply elem_of_app. right. apply elem_of_map_id. by exists l.
Qed.

End Rows.
End ManifestRows.

Module ManifestFiles.
Import ManifestRows.

(** ** The files *)

Section Files.
Context {L : LibGit2} {V : Privacy} `{!PrivacyLaws V} {D : Directory} {N : JsonLib} `{!JsonLaws N}.

(** The file at [path] holds [text], in the clear or encrypted. *)
Definition file_holds (project : Project) (d : Disk) (path text : result string) : Prop :=
  exists p t raw, path = Ok p /\ text = Ok t /\ work d !! p = Some raw /\ written project t raw.

(** The locations and the resources are what the JSON files under [locations/] and
    [resources/] hold, and they agree with each other. *)
Record manifests_of (project : Project) (ls : list Location) (bs : list ResourceBundle) (d : Disk) : Prop := {
  mf_location : forall l, l ∈ ls ->
    no_slash (location_id l) = true /\ lo_project_id l = project_id project /\ location_fits l /\
    file_holds project d (location_rel_path (location_id l)) (render_location_manifest l);
  mf_bundle : forall b, b ∈ bs ->
    no_slash (bundle_id b) = true /\ re_project_id (bu_resource b) = project_id project /\
    valid_bundle b /\ bundle_fits b /\
    file_holds project d (resource_rel_path (bundle_id b)) (render_resource_manifest b);
  mf_all_locations : forall path, is_Some (work d !! path) -> in_directory "locations" ".json" path = true ->
    exists l, l ∈ ls /\ location_rel_path (location_id l) = Ok path;
  mf_all_bundles : forall path, is_Some (work d !! path) -> in_directory "resources" ".json" path = true ->
    exists b, b ∈ bs /\ resource_rel_path (bundle_id b) = Ok path;
  mf_location_ids : NoDup (map location_id ls);
  mf_bundle_ids : NoDup (map bundle_id bs);
  mf_assets : NoDup (map asset_id (flat_map bu_assets bs));
  mf_placements : NoDup (map placement_id (flat_map bundle_placements bs));
  mf_hashes : forall b a, b ∈ bs -> a ∈ bu_assets b ->
    is_sha256 (plaintext_sha256 a) = true /\ forall p, p ∈ as_placements a -> is_sha256 (stored_sha256 p) = true;
  mf_places : forall b p, b ∈ bs -> p ∈ bundle_placements b -> exists l, l ∈ ls /\ location_id l = pl_location_id p
}.

Lemma sharded_path_name root id path :
  no_slash id = true -> sharded_path root id ".json" = Ok path ->
  filename path = id +:+ ".json" /\ in_directory root ".json" path = true.
Proof.
  intros Hs. unfold sharded_path. destruct (Nat.ltb_spec (String.length id) 4) as [|Hlen]; [done|]. intros [= <-].
  assert (filename (root +:+ "/" +:+ String.substring 0 2 id +:+ "/" +:+ String.substring 2 2 id +:+ "/" +:+ id +:+ ".json")
          = id +:+ ".json") as Hf.
  { unfold filename. rewrite !append_assoc. rewrite <- (append_assoc _ id). rewrite <- (append_assoc _ "/").
    change ("/" +:+ ?s) with (String "/" s). rewrite components_last; [done|]. by rewrite no_slash_app, Hs. }
  split; [done|]. unfold in_directory. rewrite append_assoc, prefix_append. unfold extension.
  rewrite append_assoc in Hf. rewrite Hf, (split_extension_app id ".json" ".json") by done.
  destruct id; [cbn in Hlen; lia|done].
Qed.

(** The items in the order of their paths. *)
Lemma listed_order {B} (key : B -> string) root (items : list B) paths :
  NoDup paths -> NoDup (map key items) -> (forall x, x ∈ items -> no_slash (key x) = true) ->
  (forall p, p ∈ paths -> exists x, x ∈ items /\ sharded_path root (key x) ".json" = Ok p) ->
  (forall x, x ∈ items -> exists p, p ∈ paths /\ sharded_path root (key x) ".json" = Ok p) ->
  exists order, order ≡ₚ items /\ Forall2 (fun p x => sharded_path root (key x) ".json" = Ok p) paths order.
Proof.
  intros Hnp Hnk Hs Hp Hx.
  assert (exists order, Forall2 (fun p x => x ∈ items /\ sharded_path root (key x) ".json" = Ok p) paths order) as [order Ho].
  { clear Hnp Hx. induction paths as [|p paths IH]; [by exists []|].
    destruct IH as [order Ho]; [intros q Hq; apply Hp; by right|].
    destruct (Hp p) as (x & Hx & He); [by left|]. exists (x :: order). by constructor. }
  exists order. split; [|eapply Forall2_impl; [exact Ho|by intros ? ? [_ ?]]].
  apply NoDup_Permutation.
  - clear -Hnp Ho. induction Ho as [|p x paths order [_ He] Ho IH]; [constructor|].
    apply NoDup_cons in Hnp as [Hp Hn]. constructor; [|by apply IH]. intros Hin.
    destruct (Forall2_elem_r _ _ _ _ Ho Hin) as (q & Hq & _ & Hq'). congruence.
  - by apply (NoDup_fmap_1 key).
  - intros x. split.
    + intros Hin. by destruct (Forall2_elem_r _ _ _ _ Ho Hin) as (q & _ & ? & _).
    + intros Hin. destruct (Hx x Hin) as (p & Hpin & He).
      destruct (Forall2_elem_l _ _ _ _ Ho Hpin) as (y & Hy & Hyi & Hye).
      enough (y = x) as -> by done. apply (NoDup_map_inj key items); [done..|].
      destruct (sharded_path_name _ _ _ (Hs x Hin) He) as [H1 _].
      destruct (sharded_path_name _ _ _ (Hs y Hyi) Hye) as [H2 _].
      rewrite H1 in H2. by apply append_cancel_r in H2.
Qed.

Lemma reads_manifest {B} project (parse : string -> result B) path text raw (b : B) d :
  work d !! path = Some raw -> written project text raw -> parse text = Ok b ->
  reads (read_manifest project parse path) d b.
Proof.
  intros Hw Hraw Hp. unfold read_manifest.
  assert (reads (let* raw0 := fs_read_file (Work path) in
     let* plain := decode_blob_for_project project raw0 in lift (parse plain)) d b) as H.
  { eapply reads_bind; [by apply reads_file|]. eapply reads_bind; [by apply decode_written|]. by apply reads_lift. }
  intros w Hc Hd. destruct (H w Hc Hd) as (w' & He & ?). exists w'. unfold try_catch. by rewrite He.
Qed.

Lemma reads_when_throw d b e : b = false -> reads (when b (throw e)) d tt.
Proof. intros ->. apply reads_mret. Qed.

(** ** The loops *)

Lemma reads_locations project ls bs d ids paths order :
  manifests_of project ls bs d -> NoDup (map location_id order) ->
  (forall l, l ∈ order -> l ∈ ls /\ location_id l ∉ ids) ->
  Forall2 (fun p l => location_rel_path (location_id l) = Ok p) paths order ->
  reads (load_locations project ids paths) d order.
Proof.
  intros F Hn Hin Hf. revert ids Hn Hin. induction Hf as [|p l paths order Hp Hf IH]; intros ids Hn Hin.
  { apply reads_mret. }
  destruct (Hin l) as [Hl Hid]; [by left|]. apply NoDup_cons in Hn as [Hn1 Hn2].
  destruct (mf_location _ _ _ _ F l Hl) as (_ & Hproj & Hfit & p' & text & raw & Hp' & Ht & Hw & Hraw).
  assert (p' = p) as -> by congruence. cbn [load_locations].
  eapply (reads_bind _ _ _ l).
  - eapply reads_bind.
    { eapply reads_manifest; [done|done|]. by eapply location_manifest_reads_back. }
    rewrite Hp. eapply reads_bind; [by apply reads_lift|].
    eapply reads_bind; [apply reads_when_throw; by rewrite String.eqb_refl|].
    eapply reads_bind; [apply reads_when_throw; by rewrite Hproj, String.eqb_refl|].
    eapply reads_bind; [apply reads_when_throw; by apply bool_decide_eq_false|apply reads_mret].
  - eapply reads_bind; [|apply reads_mret]. apply IH; [done|]. intros x Hx. destruct (Hin x) as [Hxl Hxi]; [by right|].
    split; [done|]. rewrite elem_of_union, elem_of_singleton. intros [He|?]; [|done].
    apply Hn1. rewrite <- He. apply elem_of_map_id. by exists x.
Qed.

(** What was seen after some more ids. *)
Definition sees (new : list string) (ids ids' : gset string) : Prop := forall x, x ∈ ids' <-> x ∈ new \/ x ∈ ids.

Lemma see_placements_ok path ps ids :
  NoDup (map placement_id ps) -> (forall p, p ∈ ps -> placement_id p ∉ ids /\ is_sha256 (stored_sha256 p) = true) ->
  exists ids', see_placements path ps ids = Ok ids' /\ sees (map placement_id ps) ids ids'.
Proof.
  revert ids. induction ps as [|p ps IH]; intros ids Hn Hp.
  { exists ids. split; [done|]. intros x. cbn. split; [by right|]. by intros [H|?]; [inversion H|]. }
  destruct (Hp p) as [Hi Hs]; [by left|]. cbn [map] in Hn. apply NoDup_cons in Hn as [Hn1 Hn2].
  cbn [see_placements]. rewrite bool_decide_eq_false_2, Hs by done. cbn [negb].
  destruct (IH ({[placement_id p]} ∪ ids)) as (ids' & He & Hx); [done| |].
  - intros q Hq. destruct (Hp q) as [Hqi Hqs]; [by right|]. split; [|done].
    rewrite elem_of_union, elem_of_singleton. intros [He|?]; [|done].
    apply Hn1. rewrite <- He. apply elem_of_map_id. by exists q.
  - exists ids'. split; [done|]. intros x. rewrite (Hx x). cbn [map]. rewrite elem_of_union, elem_of_singleton, elem_of_cons. tauto.
Qed.

Lemma see_assets_ok path l seen :
  NoDup (map asset_id l) -> NoDup (map placement_id (flat_map as_placements l)) ->
  (forall a, a ∈ l -> asset_id a ∉ seen_assets seen /\ is_sha256 (plaintext_sha256 a) = true /\
     forall p, p ∈ as_placements a -> placement_id p ∉ seen_placements seen /\ is_sha256 (stored_sha256 p) = true) ->
  exists seen', see_assets path l seen = Ok seen' /\
    sees (map asset_id l) (seen_assets seen) (seen_assets seen') /\
    sees (map placement_id (flat_map as_placements l)) (seen_placements seen) (seen_placements seen').
Proof.
  assert (forall ids, sees [] ids ids) as Hnil.
  { intros ids x. split; [by right|]. by intros [H|?]; [inversion H|]. }
  revert seen. induction l as [|a l IH]; intros seen Hn Hnp Ha; [by exists seen|].
  destruct (Ha a) as (Hi & Hs & Hps); [by left|]. cbn [map flat_map] in Hn, Hnp. apply NoDup_cons in Hn as [Hn1 Hn2].
  rewrite map_app in Hnp. apply list.NoDup_app in Hnp as (Hp1 & Hp2 & Hp3).
  cbn [see_assets]. rewrite bool_decide_eq_false_2, Hs by done. cbn [negb].
  destruct (see_placements_ok path (as_placements a) (seen_placements seen) Hp1 Hps) as (ids & -> & Hids).
  cbn [rbind]. edestruct (IH (mkSeen ({[asset_id a]} ∪ seen_assets seen) ids)) as (seen' & He & Hsa & Hsp); [done|done| |].
  - intros b Hb. destruct (Ha b) as (Hbi & Hbs & Hbp); [by right|]. cbn. split; [|split; [done|]].
    + rewrite elem_of_union, elem_of_singleton. intros [He|?]; [|done].
      apply Hn1. rewrite <- He. apply elem_of_map_id. by exists b.
    + intros p Hp. destruct (Hbp p Hp) as [Hpi Hpsha]. split; [|done]. rewrite (Hids (placement_id p)). intros [Hin|?]; [|done].
      apply (Hp2 _ Hin), elem_of_map_id. exists p. split; [|done]. apply elem_of_bundle_rows. by exists b.
  - exists seen'. split; [exact He|]. cbn in Hsa, Hsp. split; intros x.
    + rewrite (Hsa x). cbn [map]. rewrite elem_of_union, elem_of_singleton, elem_of_cons. tauto.
    + rewrite (Hsp x), (Hids x). cbn [flat_map]. rewrite map_app, elem_of_app. tauto.
Qed.

Lemma reads_resources project ls bs d ids seen paths order :
  manifests_of project ls bs d -> NoDup (map bundle_id order) ->
  NoDup (map asset_id (flat_map bu_assets order)) -> NoDup (map placement_id (flat_map bundle_placements order)) ->
  (forall b, b ∈ order -> b ∈ bs /\ bundle_id b ∉ ids) ->
  (forall b a, b ∈ order -> a ∈ bu_assets b -> asset_id a ∉ seen_assets seen /\
     forall p, p ∈ as_placements a -> placement_id p ∉ seen_placements seen) ->
  Forall2 (fun p b => resource_rel_path (bundle_id b) = Ok p) paths order ->
  reads (load_resources project ids seen paths) d order.
Proof.
  intros F Hn Hna Hnp Hin Hseen Hf. revert ids seen Hn Hna Hnp Hin Hseen.
  induction Hf as [|p b paths order Hp Hf IH]; intros ids seen Hn Hna Hnp Hin Hseen; [apply reads_mret|].
  destruct (Hin b) as [Hb Hid]; [by left|]. cbn [map flat_map] in Hn, Hna, Hnp. apply NoDup_cons in Hn as [Hn1 Hn2].
  rewrite map_app in Hna, Hnp. apply list.NoDup_app in Hna as (Ha1 & Ha2 & Ha3). apply list.NoDup_app in Hnp as (Hp1 & Hp2 & Hp3).
  destruct (mf_bundle _ _ _ _ F b Hb) as (_ & Hproj & Hval & Hfit & p' & text & raw & Hp' & Ht & Hw & Hraw).
  assert (p' = p) as -> by congruence.
  destruct (see_assets_ok p (bu_assets b) seen Ha1 Hp1) as (seen' & Hsee & Hsa & Hsp).
  { intros a Ha. destruct (mf_hashes _ _ _ _ F b a Hb Ha) as [Hh1 Hh2]. destruct (Hseen b a) as [H1 H2]; [by left|done|].
    split; [done|]. split; [done|]. auto. }
  cbn [load_resources]. eapply (reads_bind _ _ _ b).
  - unfold load_resource. cbv zeta. eapply reads_bind.
    { eapply reads_manifest; [done|done|]. by eapply resource_manifest_reads_back. }
    fold (bundle_id b). rewrite Hp. eapply reads_bind; [by apply reads_lift|].
    eapply reads_bind; [apply reads_when_throw; by rewrite String.eqb_refl|].
    eapply reads_bind; [apply reads_when_throw; by rewrite Hproj, String.eqb_refl|].
    eapply reads_bind; [apply reads_when_throw; by apply bool_decide_eq_false|apply reads_mret].
  - eapply reads_bind; [apply reads_lift, Hsee|]. fold (bundle_id b).
    eapply reads_bind; [|apply reads_mret]. apply IH; [done..| |].
    + intros x Hx. destruct (Hin x) as [Hxl Hxi]; [by right|].
      split; [done|]. rewrite elem_of_union, elem_of_singleton. intros [He|?]; [|done].
      apply Hn1. rewrite <- He. apply elem_of_map_id. by exists x.
    + intros x a Hx Ha. destruct (Hseen x a) as [H1 H2]; [by right|done|]. split.
      * rewrite (Hsa (asset_id a)). intros [Hin'|?]; [|done]. apply (Ha2 _ Hin'), elem_of_map_id. exists a. split; [|done].
        apply elem_of_bundle_rows. by exists x.
      * intros q Hq. rewrite (Hsp (placement_id q)). intros [Hin'|Hin']; [|by apply (H2 q)].
        apply (Hp2 _ Hin'), elem_of_map_id. exists q. split; [|done]. apply elem_of_bundle_rows. exists x. split; [done|].
        apply elem_of_bundle_rows. by exists a.
Qed.

Lemma check_bundle_ok ls b :
  (forall p, p ∈ bundle_placements b -> exists l, l ∈ ls /\ location_id l = pl_location_id p) -> check_bundle ls b = Ok tt.
Proof.
  intros H. unfold check_bundle.
  rewrite (map_result_ok (check_placement b ls) (fun _ => tt)); [done|]. intros p Hp. unfold check_placement.
  destruct (H p Hp) as (l & Hl & He).
  assert (existsb (fun l => String.eqb (location_id l) (pl_location_id p)) ls = true) as ->; [|done].
  apply existsb_exists. exists l. rewrite He, String.eqb_refl. split; [by apply list_elem_of_In|done].
Qed.

(** Whatever the order of the directories, the manifests come out, each once. *)
Lemma reads_manifests `{!DirectoryLaws D} project ls bs d :
  manifests_of project ls bs d ->
  exists ls' bs', ls' ≡ₚ ls /\ bs' ≡ₚ bs /\ reads (load_manifests project) d (ls', bs').
Proof.
  intros F.
  destruct (listed_order location_id "locations" ls
    (read_directory (list_filter (in_directory "locations" ".json") (map fst (map_to_list (work d)))))) as (ls' & Hl & Hfl).
  { apply collected_NoDup. } { apply F. } { intros l Hl. by apply (mf_location _ _ _ _ F). }
  { intros p [Hs Hp]%collected. by apply (mf_all_locations _ _ _ _ F). }
  { intros l Hl. destruct (mf_location _ _ _ _ F l Hl) as (Hns & _ & _ & p & t & raw & Hp & _ & Hw & _).
    exists p. split; [|done]. apply collected. split; [by exists raw|]. by eapply sharded_path_name. }
  destruct (listed_order bundle_id "resources" bs
    (read_directory (list_filter (in_directory "resources" ".json") (map fst (map_to_list (work d)))))) as (bs' & Hb & Hfb).
  { apply collected_NoDup. } { apply F. } { intros b Hb. by apply (mf_bundle _ _ _ _ F). }
  { intros p [Hs Hp]%collected. by apply (mf_all_bundles _ _ _ _ F). }
  { intros b Hb. destruct (mf_bundle _ _ _ _ F b Hb) as (Hns & _ & _ & _ & p & t & raw & Hp & _ & Hw & _).
    exists p. split; [|done]. apply collected. split; [by exists raw|]. by eapply sharded_path_name. }
  exists ls', bs'. split; [done|]. split; [done|]. unfold load_manifests.
  eapply reads_bind; [apply reads_collect|]. eapply reads_bind; [apply reads_collect|].
  eapply reads_bind.
  { eapply reads_locations; [exact F| | |exact Hfl].
    - rewrite Hl. apply F.
    - intros l. rewrite Hl. set_solver. }
  eapply reads_bind.
  { eapply reads_resources; [exact F| | | | | |exact Hfb].
    - rewrite Hb. apply F.
    - rewrite (flat_map_perm _ _ _ Hb). apply F.
    - rewrite (flat_map_perm _ _ _ Hb). apply F.
    - intros b. rewrite Hb. set_solver.
    - intros b a _ _. set_solver. }
  eapply reads_bind; [|apply reads_mret]. apply reads_for_each. intros b Hb'. apply reads_lift, check_bundle_ok.
  intros p Hp. rewrite Hb in Hb'. destruct (mf_places _ _ _ _ F b p Hb' Hp) as (l & Hl' & He). exists l. by rewrite Hl.
Qed.

End Files.
End ManifestFiles.
