(* ===== verification/Rebuild.v ===== *)
(** * Rebuilding the index from the files

    [src/src/project/Rebuilder.cpp]: the index database is derived from the repository; an
    interrupted change is settled first, and everything the project has in the index is
    replaced, in one transaction, by what its files say. Modelled for a repository without
    AI conversations and for a store without a full-text index. *)

From stdpp Require Import base list sets strings numbers gmap sorting.
From Stdlib Require Import Ascii.
From S2P Require Import Prelude Double Model Text Tags Database CardRepo Uuid.
From S2P Require Import LinkRepo TagRepo MilestoneRepo CardFrontMatter Disk Mutation Privacy CardChanges.
From S2P Require Import Json ResourceManifest RebuildResources.
Import RebuildFiles RebuildResources Disk CardMutation CardPaths CardFrontMatter ProjectPrivacy CardStoreChanges.

Module Rebuilder.

Record CardRecord := mkRecord {
  rec_card : Card;
  rec_body : string;
  rec_links : list CardLink;
  rec_milestones : list Milestone
}.

(** The counters of [RebuildStats] for what is modelled. *)
Record RebuildStats := mkStats {
  st_cards : nat; st_links : nat; st_tags : nat; st_milestones : nat;
  st_resources : nat; st_assets : nat; st_placements : nat; st_locations : nat
}.

(** ** [derive_title] *)

Fixpoint first_line (body : string) : string :=
  match body with
  | EmptyString => EmptyString
  | String c rest => if Ascii.eqb c newline then EmptyString else String c (first_line rest)
  end.
(** What is left from the first character that is not one of [skip]. *)
Fixpoint drop_chars (skip : ascii -> bool) (s : string) : string :=
  match s with
  | EmptyString => EmptyString
  | String c rest => if skip c then drop_chars skip rest else s
  end.
Definition is_blank (c : ascii) : bool :=
  Ascii.eqb c " " || Ascii.eqb c "009" || Ascii.eqb c carriage_return.
Definition is_heading (c : ascii) : bool :=
  Ascii.eqb c "#" || Ascii.eqb c " " || Ascii.eqb c "009".
Definition derive_title (body fallback : string) : string :=
  match drop_chars is_blank (first_line body) with
  | EmptyString => fallback
  | String "#" _ as first =>
      match drop_chars is_heading first with EmptyString => fallback | t => t end
  | _ => fallback
  end.

Section Rebuilder.
Context {Y : Yaml} {L : LibGit2} {J : MsgPack} {V : Privacy} {D : Directory} {N : JsonLib}.
Context (md_parse : bytes -> list TagExtractor.MdEvent).

(** ** Reading the files *)

(** The defaults of [load_card_file] for what a file does not say. *)
Definition settle_times (is_trash : bool) (mtime : Z) (c : Card) : Card :=
  let c := if Z.leb (created_at c) 0 then set_card_created_at mtime c else c in
  let c := if Z.leb (updated_at c) 0 then set_card_updated_at (created_at c) c else c in
  if is_trash
  then match deleted_at c with Some _ => c | None => set_card_deleted_at (Some mtime) c end
  else set_card_deleted_at None c.

Definition settle_link (c : Card) (l : CardLink) : CardLink :=
  mkCardLink (card_project_id c) (card_id c) (to_card_id l)
    (if String.eqb (to_type l) "" then "card" else to_type l)
    (if String.eqb (link_kind l) "" then "ref" else link_kind l) (link_label l)
    (if Z.leb (link_created_at l) 0 then created_at c else link_created_at l).

Definition settle_milestone (c : Card) (m : Milestone) : Milestone :=
  let created := if Z.leb (ms_created_at m) 0 then created_at c else ms_created_at m in
  mkMilestone (milestone_id m) (card_project_id c) (card_id c) (start_at m) (end_at m) (all_day m)
    (ms_kind m) (ms_description m) created
    (if Z.leb (ms_updated_at m) 0 then created else ms_updated_at m).

(** The card a file is of: the checks on its id and its path. *)
Definition identify_card (project : Project) (is_trash : bool) (path : string) (parsed : ParsedCardFile)
    : result Card :=
  let card := pf_card parsed in
  if has_front_matter parsed && String.eqb (card_id card) ""
  then Err (Runtime "card_id missing in front matter")
  else
    let card := if String.eqb (card_id card) "" then set_card_id (stem path) card else card in
    if negb (Uuid.is_valid_uuid (bytes_of (card_id card)))
    then Err (Runtime "invalid card_id in file: expected UUIDv4 or UUIDv7")
    else
      let? expected := (if is_trash then card_trash_rel_path (card_id card)
                        else card_rel_path (card_id card)) in
      if negb (String.eqb path expected) then Err (Runtime "card path does not match card_id")
      else
        let? live := card_rel_path (card_id card) in
        let card := set_card_rel_path live (set_card_project (project_id project) card) in
        Ok (if String.eqb (title card) ""
            then set_card_title (derive_title (pf_body parsed) (card_id card)) card else card).

Definition load_card_file (project : Project) (is_trash : bool) (path : string) : IO CardRecord :=
  let* raw := fs_read_file (Work path) in
  let* plain := decode_blob_for_project project raw in
  let parsed := parse_card_file plain in
  when (String.prefix kLfOpeningDelimiter raw && negb (has_front_matter parsed))
    (throw (Runtime "invalid card front matter")) ;;;
  let* card := lift (identify_card project is_trash path parsed) in
  let* mtime := attempt "Failed to stat" (gets (fun w => file_mtime_seconds (disk w) path)) in
  let card := settle_times is_trash mtime card in
  mret (mkRecord card (pf_body parsed) (map (settle_link card) (pf_links parsed))
          (map (settle_milestone card) (pf_milestones parsed))).

Fixpoint load_card_files (project : Project) (is_trash : bool) (paths : list string) : IO (list CardRecord) :=
  match paths with
  | [] => mret []
  | path :: paths =>
      let* r := load_card_file project is_trash path in
      let* rest := load_card_files project is_trash paths in
      mret (r :: rest)
  end.

Definition load_cards (project : Project) : IO (list CardRecord) :=
  let* card_files := collect_files "cards" ".md" in
  let* trash_card_files := collect_files "trash/cards" ".md" in
  let* live := load_card_files project false card_files in
  let* trashed := load_card_files project true trash_card_files in
  mret (live ++ trashed).

(** ** The index *)

(** [DELETE FROM card_links WHERE project_id = ?] and [DELETE FROM cards WHERE project_id = ?]:
    tags and milestones of the cards go with them, cards elsewhere lose such a parent. *)
Definition delete_links_row (id : string) (db : Db) : Db :=
  set_card_links (list_filter (fun l => negb (String.eqb (link_project_id l) id)) (card_links db)) db.
Definition delete_cards_row (id : string) (db : Db) : Db :=
  let gone card := existsb (fun c => String.eqb (card_project_id c) id && String.eqb (card_id c) card) (cards db) in
  let orphan c := match parent_card_id c with
                  | Some p => if gone p then set_card_parent None c else c
                  | None => c
                  end in
  mkDb (projects db)
    (map orphan (list_filter (fun c => negb (String.eqb (card_project_id c) id)) (cards db)))
    (card_links db)
    (list_filter (fun t => negb (gone (tag_card_id t))) (card_tags db))
    (list_filter (fun m => negb (gone (ms_card_id m))) (milestones db))
    (project_sync_state db) (resource_tables db).
Definition exec_delete_project (id : string) : Repo unit :=
  exec "delete failed" (fun db => Some (delete_links_row (bind_text id) db)) ;;;
  exec "delete failed" (fun db => Some (delete_cards_row (bind_text id) db)) ;;;
  exec_delete_resources id.

Definition record_tags (r : CardRecord) : list string :=
  map string_of (TagExtractor.extract_tags md_parse (bytes_of (rec_body r))).

Definition insert_record (r : CardRecord) : Repo unit :=
  let c := rec_card r in
  CardRepo.create c ;;;
  when (negb (card_deleted c)) (
    TagRepo.set_tags_for_card (card_project_id c) (card_id c) (record_tags r) (created_at c) ;;;
    when (negb (bool_decide (rec_milestones r = [])))
      (MilestoneRepo.replace_for_card (card_project_id c) (card_id c) (rec_milestones r))).

(** One round of the loop over the records that are left: a card goes in once its parent is
    in. Returns the ids that are in and the records that are not. *)
Fixpoint insert_round (inserted : list string) (records : list CardRecord)
    : Repo (list string * list CardRecord) :=
  match records with
  | [] => mret (inserted, [])
  | r :: records =>
      if match parent_card_id (rec_card r) with
         | Some p => bool_decide (p ∈ inserted) | None => true end
      then
        insert_record r ;;;
        insert_round (card_id (rec_card r) :: inserted) records
      else
        let* rest := insert_round inserted records in
        mret (rest.1, r :: rest.2)
  end.

(** [while (remaining_cards > 0)]: every round but the last has fewer records than the one
    before, so there are no more rounds than records. *)
Fixpoint insert_rounds (fuel : nat) (inserted : list string) (records : list CardRecord) : Repo unit :=
  match records, fuel with
  | [], _ => mret tt
  | _, O => throw (Runtime "out of fuel")
  | _, S fuel =>
      let* next := insert_round inserted records in
      when (Nat.eqb (length next.2) (length records))
        (throw (Runtime "unresolved parent_card_id during rebuild")) ;;;
      insert_rounds fuel next.1 next.2
  end.

Definition insert_record_links (r : CardRecord) : Repo unit :=
  when (negb (bool_decide (rec_links r = [])))
    (LinkRepo.upsert_links (card_project_id (rec_card r)) (card_id (rec_card r)) (rec_links r)).

Definition insert_records (records : list CardRecord) : Repo unit :=
  insert_rounds (length records) [] records ;;;
  for_each records insert_record_links.

(** What the counters are once every record is in. *)
Definition sum_map {A} (f : A -> nat) (l : list A) : nat := foldr (fun x n => f x + n)%nat O l.
Definition live_record (r : CardRecord) : bool := negb (card_deleted (rec_card r)).
Definition stats_of (manifests : list Location * list ResourceBundle) (records : list CardRecord) : RebuildStats :=
  mkStats (length records)
    (sum_map (fun r => length (rec_links r)) records)
    (sum_map (fun r => length (record_tags r)) (list_filter live_record records))
    (sum_map (fun r => length (rec_milestones r)) (list_filter live_record records))
    (length manifests.2)
    (sum_map (fun b => length (bu_assets b)) manifests.2)
    (sum_map (fun b => length (bundle_placements b)) manifests.2)
    (length manifests.1).

Definition rebuild_project_in_transaction (project : Project) : M Store RebuildStats :=
  io (attempt "exists" (mret tt)) ;;;
  in_tx (exec_delete_project (project_id project)) ;;;
  let* manifests := io (load_manifests project) in
  in_tx (insert_manifests manifests) ;;;
  let* records := io (load_cards project) in
  in_tx (insert_records records) ;;;
  mret (stats_of manifests records).

Definition rebuild_project (project : Project) : M Store RebuildStats :=
  io recover_files ;;;
  with_tx (
    let* stats := rebuild_project_in_transaction project in
    commit_tx ;;;
    io finish_recovery ;;;
    mret stats).

End Rebuilder.
End Rebuilder.
