(* ===== verification/RebuildFacts.v ===== *)
(** * What a rebuild puts into the index

    The loop of [Rebuilder::rebuild_project_in_transaction] that creates the cards, parents
    first, whatever order the directory lists the files in. *)

From stdpp Require Import base list sets strings numbers gmap sorting.
From S2P Require Import Prelude Double Model Text Tags Database CardRepo.
From S2P Require Import LinkRepo TagRepo MilestoneRepo CardFrontMatter Disk Mutation Privacy CardChanges Rebuild.
Import LinkRepo TagRepo MilestoneRepo Rebuilder CardRepoFacts TagRepoFacts MilestoneFacts LinkRepoFacts.

Module RebuildFacts.

Definition rec_id (r : CardRecord) : string := card_id (rec_card r).
Definition rec_parent (r : CardRecord) : option string := parent_card_id (rec_card r).

(** The records whose chain of parents ends at a root, all of them records. *)
Inductive resolved (rs : list CardRecord) : CardRecord -> Prop :=
| resolved_root r : r ∈ rs -> rec_parent r = None -> resolved rs r
| resolved_child r p : r ∈ rs -> rec_parent r = Some (rec_id p) -> resolved rs p -> resolved rs r.

Lemma resolved_in rs r : resolved rs r -> r ∈ rs.
Proof. by destruct 1. Qed.

Lemma resolved_perm rs rs' r : rs ≡ₚ rs' -> resolved rs r -> resolved rs' r.
Proof.
  intros Hp. induction 1 as [r Hr Hn|r p Hr Hrp _ IH].
  - apply resolved_root; [by rewrite <- Hp|done].
  - eapply resolved_child; [by rewrite <- Hp|done|done].
Qed.

Section Index.
Context (md_parse : bytes -> list TagExtractor.MdEvent).

(** The rows of a record. *)
Definition row_tags (r : CardRecord) : list CardTag :=
  if live_record r
  then tag_rows (card_project_id (rec_card r)) (rec_id r) (record_tags md_parse r) (created_at (rec_card r))
  else [].
Definition row_milestones (r : CardRecord) : list Milestone :=
  if live_record r then map bind_milestone (rec_milestones r) else [].
Definition add_records (rs : list CardRecord) (db : Db) : Db :=
  mkDb (projects db) (cards db ++ map rec_card rs) (card_links db)
    (card_tags db ++ flat_map row_tags rs) (milestones db ++ flat_map row_milestones rs)
    (project_sync_state db) (resource_tables db).

(** What the constraints of the tables ask of the records: ids and paths of their own, and
    milestones that belong to them. *)
Record insertable (pid : string) (rs : list CardRecord) (db : Db) : Prop := {
  ins_project : project_exists pid db = true;
  ins_card : forall r, r ∈ rs -> card_project_id (rec_card r) = pid /\
    bind_card (rec_card r) = rec_card r /\ f64_is_nan (sort_key (rec_card r)) = false;
  ins_ids : NoDup (map card_id (cards db) ++ map rec_id rs);
  ins_paths : NoDup (map (fun c => (card_project_id c, rel_path c)) (cards db) ++
                     map (fun r => (card_project_id (rec_card r), rel_path (rec_card r))) rs);
  ins_owner : forall r m, r ∈ rs -> m ∈ rec_milestones r -> ms_project_id m = pid /\ ms_card_id m = rec_id r;
  ins_milestones : NoDup (map milestone_id (milestones db) ++ map milestone_id (flat_map row_milestones rs));
  ins_new_tags : forall t, t ∈ card_tags db -> tag_card_id t ∉ map rec_id rs;
  ins_new_milestones : forall m, m ∈ milestones db -> ms_card_id m ∉ map rec_id rs;
  ins_links : forall r l, r ∈ rs -> l ∈ rec_links r -> belongs pid (rec_id r) l
}.

Lemma insertable_perm pid rs rs' db : rs ≡ₚ rs' -> insertable pid rs db -> insertable pid rs' db.
Proof.
  intros Hp [H1 H2 H3 H4 H5 H6 H7 H8 H9]. split; intros *.
  - done.
  - rewrite <- Hp. apply H2.
  - by rewrite <- Hp.
  - by rewrite <- Hp.
  - rewrite <- Hp. apply H5.
  - by rewrite <- Hp.
  - rewrite <- Hp. apply H7.
  - rewrite <- Hp. apply H8.
  - rewrite <- Hp. apply H9.
Qed.

Lemma insertable_tail pid r rs db : insertable pid (r :: rs) db -> insertable pid rs db.
Proof.
  intros [H1 H2 H3 H4 H5 H6 H7 H8 H9]. split.
  - done.
  - intros x Hx. apply H2. by right.
  - cbn in H3. by rewrite <- Permutation_middle in H3; apply NoDup_cons in H3 as [_ ?].
  - cbn in H4. by rewrite <- Permutation_middle in H4; apply NoDup_cons in H4 as [_ ?].
  - intros x m Hx. apply H5. by right.
  - cbn in H6. rewrite map_app, (Permutation_app_comm (map milestone_id (row_milestones r))), app_assoc in H6.
    by apply list.NoDup_app in H6 as (? & _ & _).
  - intros x Hx Hin. apply (H7 x Hx). by right.
  - intros x Hx Hin. apply (H8 x Hx). by right.
  - intros x l Hx. apply H9. by right.
Qed.

Lemma record_tags_ok r :
  map bind_text (record_tags md_parse r) = record_tags md_parse r /\ NoDup (record_tags md_parse r).
Proof.
  unfold record_tags.
  destruct (TagFacts.parse_tags_wf md_parse (bytes_of (rec_body r))) as [_ Hn Hv]. split.
  - rewrite map_map. apply map_ext_in. intros t Ht%list_elem_of_In. apply valid_tag_bound. by apply Hv.
  - assert (Inj (=) (=) string_of) as Hi.
    { intros x y Hxy. by rewrite <- (bytes_of_string_of x), Hxy, bytes_of_string_of. }
    by apply (NoDup_fmap_2 string_of).
Qed.

Lemma add_records_snoc rs r db : add_records (rs ++ [r]) db =
  mkDb (projects db) (cards (add_records rs db) ++ [rec_card r]) (card_links db)
    (card_tags (add_records rs db) ++ row_tags r) (milestones (add_records rs db) ++ row_milestones r)
    (project_sync_state db) (resource_tables db).
Proof.
  unfold add_records. cbn. rewrite map_app, !flat_map_app. cbn. by rewrite !app_nil_r, !app_assoc.
Qed.

(** Tags and milestones of the records that are in name those records. *)
Lemma row_tags_owner rs t : t ∈ flat_map row_tags rs ->
  exists r, r ∈ rs /\ tag_card_id t = bind_text (rec_id r).
Proof.
  intros (r & Hr & Ht)%list_elem_of_In%in_flat_map. apply list_elem_of_In in Hr, Ht. exists r. split; [done|].
  unfold row_tags in Ht. destruct (live_record r); [|set_solver].
  by apply elem_of_map_id in Ht as (g & _ & ->).
Qed.

Lemma row_milestones_owner rs m : m ∈ flat_map row_milestones rs ->
  exists r m0, r ∈ rs /\ m0 ∈ rec_milestones r /\ m = bind_milestone m0.
Proof.
  intros (r & Hr & Hm)%list_elem_of_In%in_flat_map. apply list_elem_of_In in Hr, Hm. exists r.
  unfold row_milestones in Hm. destruct (live_record r); [|set_solver].
  apply elem_of_map_id in Hm as (m0 & Hm0 & ->). by exists m0.
Qed.

Section Insert.
Context (pid : string) (db : Db).

Lemma record_id_bound rs r : insertable pid rs db -> r ∈ rs ->
  bind_text (rec_id r) = rec_id r /\ bind_text pid = pid.
Proof.
  intros I Hr. destruct (ins_card _ _ _ I r Hr) as (Hpid & Hb & _). rewrite <- Hpid.
  apply (f_equal card_id) in Hb as H1. by apply (f_equal card_project_id) in Hb as H2.
Qed.

(** One record goes in after [pre], its parent among them. *)
Lemma create_record pre r rest :
  insertable pid (pre ++ r :: rest) db -> (forall p, rec_parent r = Some p -> p ∈ map rec_id pre) ->
  CardRepo.create (rec_card r) (add_records pre db) =
  (Ok tt, set_cards (cards (add_records pre db) ++ [rec_card r]) (add_records pre db)).
Proof.
  intros I Hp. assert (r ∈ pre ++ r :: rest) as Hr by set_solver.
  destruct (ins_card _ _ _ I r Hr) as (Hpid & Hb & Hnan).
  unfold CardRepo.create, exec. rewrite Hb.
  rewrite (proj2 (insert_card_spec (rec_card r) (add_records pre db)
    (set_cards (cards (add_records pre db) ++ [rec_card r]) (add_records pre db)))); [done|].
  pose proof (ins_ids _ _ _ I) as Hids. pose proof (ins_paths _ _ _ I) as Hpaths.
  rewrite map_app in Hids, Hpaths. cbn [map] in Hids, Hpaths. rewrite app_assoc in Hids, Hpaths.
  apply list.NoDup_app in Hids as (_ & Hids & _). apply list.NoDup_app in Hpaths as (_ & Hpaths & _).
  cbn [add_records cards]. rewrite !map_app, !map_map.
  split; [done|]. split; [done|]. split; [|split; [|split]].
  - intros H. apply (Hids _ H). set_solver.
  - intros H. apply (Hpaths _ H). set_solver.
  - rewrite Hpid. apply (ins_project _ _ _ I).
  - unfold cards_parent_ok. fold (rec_parent r). destruct (rec_parent r) as [p|]; [|done].
    apply card_exists_spec. rewrite !map_app, map_map. specialize (Hp p eq_refl). set_solver.
Qed.

Lemma insert_record_ok pre r rest :
  insertable pid (pre ++ r :: rest) db -> (forall p, rec_parent r = Some p -> p ∈ map rec_id pre) ->
  insert_record md_parse r (add_records pre db) = (Ok tt, add_records (pre ++ [r]) db).
Proof.
  intros I Hp. unfold insert_record, bind at 1. rewrite (create_record pre r rest I Hp).
  assert (r ∈ pre ++ r :: rest) as Hr by set_solver.
  destruct (ins_card _ _ _ I r Hr) as (Hpid & _ & _). destruct (record_id_bound _ r I Hr) as [Hid Hbp].
  assert (rec_id r ∉ map rec_id pre) as Hnew.
  { pose proof (ins_ids _ _ _ I) as Hn. apply list.NoDup_app in Hn as (_ & _ & Hn).
    rewrite map_app in Hn. apply list.NoDup_app in Hn as (_ & Hn & _). intros H. apply (Hn _ H). set_solver. }
  rewrite add_records_snoc. unfold row_tags, row_milestones. fold (live_record r).
  destruct (live_record r) eqn:Hl; cbn [when negb]; [|by rewrite !app_nil_r].
  fold (rec_id r). unfold bind at 1. destruct (record_tags_ok r) as [Htb Htn].
  rewrite set_tags_ok; cbn [projects project_exists set_cards cards].
  2: { change (project_exists (bind_text (card_project_id (rec_card r))) db = true).
       rewrite Hpid, Hbp. apply (ins_project _ _ _ I). }
  2: { apply card_exists_spec. rewrite Hid, map_app. set_solver. }
  2: by rewrite Htb.
  unfold other_tags. cbn [card_tags set_cards]. rewrite list_filter_all.
  2: { intros t Ht. apply negb_true_iff, not_true_iff_false. unfold tag_of_card.
       intros [_ H%String.eqb_eq]%andb_true_iff. rewrite Hid in H. cbn [add_records card_tags] in Ht.
       apply elem_of_app in Ht as [Ht|(q & Hq & He)%row_tags_owner].
       - apply (ins_new_tags _ _ _ I t Ht). rewrite H, map_app. set_solver.
       - apply Hnew. destruct (record_id_bound _ q I) as [Hq2 _]; [set_solver|].
         apply elem_of_map_id. exists q. split; [done|]. congruence. }
  set (db1 := set_card_tags _ _).
  destruct (bool_decide_reflect (rec_milestones r = [])) as [Hm|Hm]; cbn [negb when].
  { rewrite Hm. cbn. by rewrite app_nil_r. }
  unfold replace_for_card, bind at 1, exec at 1. cbn [delete_milestone_rows].
  rewrite list_filter_all.
  2: { intros m Hm1. apply negb_true_iff, not_true_iff_false. unfold milestone_of_card.
       intros [_ H%String.eqb_eq]%andb_true_iff. rewrite Hid in H. subst db1.
       cbn [add_records milestones set_card_tags set_cards] in Hm1.
       apply elem_of_app in Hm1 as [Hm1|(q & m0 & Hq & Hm0 & ->)%row_milestones_owner].
       - apply (ins_new_milestones _ _ _ I m Hm1). rewrite H, map_app. set_solver.
       - destruct (ins_owner _ _ _ I q m0) as [_ He]; [set_solver|done|]. cbn in H. rewrite He in H.
         destruct (record_id_bound _ q I) as [Hq2 _]; [set_solver|]. rewrite Hq2 in H.
         apply Hnew, elem_of_map_id. by exists q. }
  fold (insert_milestones (card_project_id (rec_card r)) (rec_id r) (rec_milestones r)).
  apply insert_milestones_spec. split; [by destruct db|].
  pose proof (ins_milestones _ _ _ I) as Hms. rewrite flat_map_app in Hms. cbn [flat_map] in Hms.
  unfold row_milestones at 2 in Hms. rewrite Hl, !map_app, app_assoc in Hms.
  apply list.NoDup_app in Hms as (_ & Hms1 & Hms2). apply list.NoDup_app in Hms2 as (Hms2 & _ & _).
  rewrite map_map in Hms1, Hms2. split.
  - apply Forall_forall. intros m Hmr. rewrite Hpid. by apply (ins_owner _ _ _ I r).
  - intros _. subst db1. cbn. split.
    + change (project_exists (bind_text (card_project_id (rec_card r))) db = true).
      rewrite Hpid, Hbp. apply (ins_project _ _ _ I).
    + apply card_exists_spec. rewrite Hid, map_app. set_solver.
  - done.
  - subst db1. cbn. intros m d Hm1 Hd He. apply (Hms1 (milestone_id d)).
    + rewrite <- map_app. apply elem_of_map_id. by exists d.
    + apply elem_of_app. left. apply elem_of_map_id. by exists m.
Qed.
(** A round: the records it puts in, in order, and those it leaves. *)
Lemma insert_round_ok records pre inserted :
  insertable pid (pre ++ records) db -> (forall x, x ∈ inserted <-> x ∈ map rec_id pre) ->
  exists new left ins,
    insert_round md_parse inserted records (add_records pre db) = (Ok (ins, left), add_records (pre ++ new) db) /\
    records ≡ₚ new ++ left /\ (forall x, x ∈ ins <-> x ∈ map rec_id (pre ++ new)) /\
    (forall rs, (forall r, r ∈ pre -> resolved rs r) -> (forall r, r ∈ records -> r ∈ rs) ->
       forall r, r ∈ new -> resolved rs r) /\
    (new = [] -> forall r p, r ∈ left -> rec_parent r = Some p -> p ∉ map rec_id pre) /\
    (new = [] -> forall r, r ∈ left -> rec_parent r <> None).
Proof.
  revert pre inserted. induction records as [|r records IH]; intros pre inserted I Hins.
  { exists [], [], inserted. rewrite app_nil_r. split_and!; try done; set_solver. }
  cbn [insert_round]. fold (rec_parent r) (rec_id r).
  destruct (match rec_parent r with Some p => bool_decide (p ∈ inserted) | None => true end) eqn:Hp.
  - assert (forall p, rec_parent r = Some p -> p ∈ map rec_id pre) as Hpar.
    { intros p Hrp. rewrite Hrp in Hp. apply bool_decide_eq_true in Hp. by apply Hins. }
    unfold bind. rewrite (insert_record_ok pre r records I Hpar).
    destruct (IH (pre ++ [r]) (rec_id r :: inserted)) as (new & left & ins & Hrun & Hperm & Hi & Hres & _).
    { by rewrite <- app_assoc. }
    { intros x. rewrite elem_of_cons, Hins, map_app. set_solver. }
    exists (r :: new), left, ins. rewrite <- app_assoc in *. split; [exact Hrun|].
    split; [by rewrite Hperm|]. split; [exact Hi|]. split; [|done].
    intros rs Hpre Hrs. assert (resolved rs r) as Hr.
    { destruct (rec_parent r) as [p|] eqn:Hrp; [|by apply resolved_root; [apply Hrs; set_solver|]].
      destruct (proj1 (elem_of_map_id _ _ _) (Hpar p eq_refl)) as (q & Hq & ->).
      apply (resolved_child rs r q); [apply Hrs; set_solver|done|by apply Hpre]. }
    intros x [->|Hx]%elem_of_cons; [done|]. apply (Hres rs); [|set_solver|done]. set_solver.
  - destruct (rec_parent r) as [p|] eqn:Hrp; [|done]. apply bool_decide_eq_false in Hp.
    destruct (IH pre inserted) as (new & left & ins & Hrun & Hperm & Hi & Hres & Hst & Hst2).
    { apply (insertable_tail pid r). eapply insertable_perm; [|exact I]. by rewrite Permutation_middle. }
    { done. }
    exists new, (r :: left), ins. unfold bind. rewrite Hrun. split; [done|].
    split; [by rewrite Hperm, Permutation_middle|]. split; [done|]. split.
    { intros rs Hpre Hrs. apply Hres; [done|set_solver]. }
    split.
    + intros -> x q [->|Hx]%elem_of_cons Hxq; [|by apply (Hst eq_refl x)]. rewrite Hrp in Hxq.
      injection Hxq as <-. by rewrite <- Hins.
    + intros -> x [->|Hx]%elem_of_cons; [by rewrite Hrp|by apply Hst2].
Qed.

(** Records that wait for each other, or for a card that is not there. *)
Lemma stuck_unresolved rs pre left :
  rs ≡ₚ pre ++ left -> NoDup (map rec_id rs) ->
  (forall r p, r ∈ left -> rec_parent r = Some p -> p ∉ map rec_id pre) ->
  (forall r, r ∈ left -> rec_parent r <> None) -> forall r, resolved rs r -> r ∉ left.
Proof.
  intros Hp Hn Hst Hroot r. induction 1 as [r Hr Hnone|r q Hr Hrq Hq IH]; intros Hleft.
  - by apply (Hroot r).
  - apply (Hst r (rec_id q) Hleft Hrq), elem_of_map_id. exists q. split; [|done].
    apply resolved_in in Hq. rewrite Hp in Hq. by apply elem_of_app in Hq as [?|?].
Qed.

Definition unresolved_parent : error := Runtime "unresolved parent_card_id during rebuild".

Lemma insert_rounds_ok fuel records pre inserted rs :
  (length records <= fuel)%nat -> rs ≡ₚ pre ++ records -> insertable pid (pre ++ records) db ->
  (forall x, x ∈ inserted <-> x ∈ map rec_id pre) -> (forall r, r ∈ pre -> resolved rs r) ->
  ((forall r, r ∈ rs -> resolved rs r) /\
   exists done_, done_ ≡ₚ rs /\
     insert_rounds md_parse fuel inserted records (add_records pre db) = (Ok tt, add_records done_ db)) \/
  ((exists r, r ∈ rs /\ ~ resolved rs r) /\
   exists db', insert_rounds md_parse fuel inserted records (add_records pre db) = (Err unresolved_parent, db')).
Proof.
  revert records pre inserted. induction fuel as [|fuel IH]; intros records pre inserted Hf Hrs I Hins Hpre.
  { destruct records; [|cbn in Hf; lia]. left. rewrite app_nil_r in Hrs.
    split; [intros r Hr; apply Hpre; by rewrite <- Hrs|]. by exists pre. }
  destruct records as [|r0 records0] eqn:Er.
  { left. rewrite app_nil_r in Hrs. split; [intros r Hr; apply Hpre; by rewrite <- Hrs|]. by exists pre. }
  rewrite <- Er in *. assert (insert_rounds md_parse (S fuel) inserted records =
    (let* next := insert_round md_parse inserted records in
     when (Nat.eqb (length next.2) (length records)) (throw unresolved_parent) ;;;
     insert_rounds md_parse fuel next.1 next.2)) as -> by by rewrite Er.
  destruct (insert_round_ok records pre inserted I Hins)
    as (new & left & ins & Hrun & Hperm & Hi & Hres & Hst & Hst2).
  unfold bind. rewrite Hrun. cbn [fst snd].
  assert (length records = length new + length left)%nat as Hlen by by rewrite Hperm, length_app.
  destruct (Nat.eqb_spec (length left) (length records)) as [He|He]; cbn [when].
  - right. assert (new = []) as -> by (destruct new; [done|cbn in Hlen; lia]).
    split; [|by eexists]. exists r0. split; [rewrite Hrs, Er; set_solver|].
    intros Hr0. apply (stuck_unresolved rs pre left) in Hr0; [|by rewrite Hrs, Hperm| |exact (Hst eq_refl)|exact (Hst2 eq_refl)].
    + apply Hr0. cbn in Hperm. rewrite <- Hperm, Er. set_solver.
    + pose proof (ins_ids _ _ _ I) as Hn. apply list.NoDup_app in Hn as (_ & _ & Hn). by rewrite Hrs.
  - apply IH; [lia| | |done|].
    + by rewrite Hrs, Hperm, app_assoc.
    + eapply insertable_perm; [|exact I]. by rewrite Hperm, app_assoc.
    + intros r [Hr|Hr]%elem_of_app; [by apply Hpre|]. apply (Hres rs); [done| |done].
      intros x Hx. rewrite Hrs. set_solver.
Qed.
(** The links, once every card is in. *)
Lemma insert_links_ok rs db1 :
  links_wf db1 -> (forall r, r ∈ rs -> card_project_id (rec_card r) = pid /\ bind_text pid = pid) ->
  project_exists pid db1 = true -> (forall r l, r ∈ rs -> l ∈ rec_links r -> belongs pid (rec_id r) l) ->
  exists db2, for_each rs insert_record_links db1 = (Ok tt, db2) /\
    db2 = set_card_links (card_links db2) db1 /\ links_wf db2 /\
    link_map (card_links db2) = upsert_all (flat_map rec_links rs) (link_map (card_links db1)).
Proof.
  revert db1. induction rs as [|r rs IH]; intros db1 W Hpid Hp Hl; cbn [for_each flat_map].
  { exists db1. split_and!; [done|by destruct db1|done|done]. }
  assert (exists db2, insert_record_links r db1 = (Ok tt, db2) /\ db2 = set_card_links (card_links db2) db1 /\
    links_wf db2 /\ link_map (card_links db2) = upsert_all (rec_links r) (link_map (card_links db1)))
    as (db2 & Hr & He & W2 & Hm).
  { destruct (Hpid r) as [Hr Hb]; [by left|]. unfold insert_record_links. rewrite Hr.
    destruct (bool_decide_reflect (rec_links r = [])) as [Hn|Hn]; cbn [negb when].
    - exists db1. rewrite Hn. split_and!; [done|by destruct db1|done|done].
    - destruct (upsert_links_good pid (rec_id r) (rec_links r) db1) as (db2 & ? & ? & ? & ?);
        [done|by rewrite Hb| |by exists db2].
      apply Forall_forall. intros l Hin. apply (Hl r); [by left|done]. }
  unfold bind. rewrite Hr. destruct (IH db2) as (db3 & H3 & He3 & W3 & Hm3); [done| | | |].
  - intros x Hx. apply Hpid. by right.
  - rewrite He. exact Hp.
  - intros x l Hx. apply Hl. by right.
  - exists db3. split; [exact H3|]. split; [rewrite He3, He; done|]. split; [done|].
    rewrite Hm3, Hm. unfold upsert_all. by rewrite foldl_app.
Qed.
End Insert.
End Index.

(** Links of different cards have different keys, so the order of the cards does not matter. *)
Lemma upsert_all_union ls m : upsert_all ls m = upsert_all ls ∅ ∪ m.
Proof.
  unfold upsert_all. revert m. induction ls as [|l ls IH]; intros m; cbn [foldl]; [by rewrite (left_id_L ∅ (∪))|].
  rewrite IH, (IH (<[_:=_]> ∅)). rewrite <- (assoc_L (∪)), insert_empty. by rewrite <- insert_union_singleton_l.
Qed.

Lemma upsert_all_key ls k : is_Some (upsert_all ls ∅ !! k) -> k ∈ map (fun l => link_key (bind_link l)) ls.
Proof.
  induction ls as [|l ls IH] using rev_ind; [by intros [? ?]|]. unfold upsert_all. rewrite foldl_app, map_app. cbn.
  intros H. destruct (decide (link_key (bind_link l) = k)) as [->|Hne]; [set_solver|].
  rewrite lookup_insert_ne in H by done. apply elem_of_app. left. by apply IH.
Qed.

Lemma upsert_records_perm pid rs rs' m :
  rs ≡ₚ rs' -> NoDup (map rec_id rs) -> (forall r, r ∈ rs -> bind_text (rec_id r) = rec_id r) ->
  (forall r l, r ∈ rs -> l ∈ rec_links r -> belongs pid (rec_id r) l) ->
  upsert_all (flat_map rec_links rs) m = upsert_all (flat_map rec_links rs') m.
Proof.
  assert (forall ls1 ls2 m, upsert_all (ls1 ++ ls2) m = upsert_all ls2 (upsert_all ls1 m)) as Happ
    by (intros; unfold upsert_all; by rewrite foldl_app).
  intros Hp. revert m. induction Hp as [|r rs rs' Hp IH|r1 r2 rs|rs1 rs2 rs3 H1 IH1 H2 IH2];
    intros m Hn Hb Hl; cbn [flat_map].
  - done.
  - rewrite !Happ. apply IH; [by apply NoDup_cons in Hn as [_ ?]|intros; apply Hb; by right|
      intros x l Hx; apply Hl; by right].
  - rewrite !Happ. f_equal. rewrite (upsert_all_union (rec_links r1) (upsert_all (rec_links r2) m)), (upsert_all_union (rec_links r2) m),
      (upsert_all_union (rec_links r2) (upsert_all (rec_links r1) m)), (upsert_all_union (rec_links r1) m),
      !(assoc_L (∪)).
    f_equal. apply map_union_comm, map_disjoint_spec. intros k v1 v2 Hk1 Hk2.
    apply mk_is_Some, upsert_all_key, elem_of_map_id in Hk1 as (l1 & Hl1 & ->).
    apply mk_is_Some, upsert_all_key, elem_of_map_id in Hk2 as (l2 & Hl2 & Hk).
    injection Hk as _ Hk _ _ _. cbn in Hk.
    destruct (Hl r1 l1) as [_ E1]; [set_solver|done|]. destruct (Hl r2 l2) as [_ E2]; [set_solver|done|].
    rewrite E1, E2, !Hb in Hk by set_solver. cbn in Hn. rewrite Hk in Hn.
    apply NoDup_cons in Hn as [Hn _]. set_solver.
  - rewrite IH1 by done. apply IH2; [by rewrite <- H1|setoid_rewrite <- H1; done|].
    intros r l. rewrite <- H1. apply Hl.
Qed.
(** Every order of the records. *)
Lemma index_of_records (md_parse : bytes -> list TagExtractor.MdEvent) (pid : string)
    (rs order : list CardRecord) (db : Db) :
  links_wf db -> insertable pid rs db -> order ≡ₚ rs ->
  ((forall r, r ∈ rs -> resolved rs r) /\
   exists db', insert_records md_parse order db = (Ok tt, db') /\
     projects db' = projects db /\ project_sync_state db' = project_sync_state db /\
     resource_tables db' = resource_tables db /\
     cards db' ≡ₚ cards db ++ map rec_card rs /\
     card_tags db' ≡ₚ card_tags db ++ flat_map (row_tags md_parse) rs /\
     milestones db' ≡ₚ milestones db ++ flat_map row_milestones rs /\
     link_map (card_links db') = upsert_all (flat_map rec_links rs) (link_map (card_links db))) \/
  ((exists r, r ∈ rs /\ ~ resolved rs r) /\
   exists db', insert_records md_parse order db = (Err unresolved_parent, db')).
Proof.
  intros W I Ho. unfold insert_records, bind.
  assert (insertable pid order db) as I' by by eapply insertable_perm.
  assert (add_records md_parse [] db = db) as He by (unfold add_records; cbn; rewrite !app_nil_r; by destruct db).
  destruct (insert_rounds_ok md_parse pid db (length order) order [] [] rs) as [[Hres Hok]|[Hbad Herr]];
    [done|by symmetry|done|set_solver|set_solver| |].
  - left. split; [done|]. destruct Hok as (done_ & Hd & Hrun). rewrite He in Hrun. rewrite Hrun.
    destruct (insert_links_ok pid order (add_records md_parse done_ db)) as (db2 & Hl & He2 & _ & Hm).
    + split; [apply W|]. intros l Hl. by apply (wf_link_projects db W).
    + intros r Hr. split; [by apply (ins_card _ _ _ I')|by apply (record_id_bound pid db order r I' Hr)].
    + apply (ins_project _ _ _ I).
    + intros r l. apply (ins_links _ _ _ I').
    + exists db2. split; [exact Hl|]. rewrite Hm, He2. cbn [set_card_links projects project_sync_state resource_tables cards card_tags milestones add_records card_links].
      split; [done|]. split; [done|]. split; [done|]. split; [by rewrite Hd|]. split; [by rewrite Hd|]. split; [by rewrite Hd|].
      apply (upsert_records_perm pid); [done| | |].
      * apply ins_ids in I'. by apply list.NoDup_app in I' as (_ & _ & ?).
      * intros r Hr. by apply (record_id_bound pid db order).
      * apply (ins_links _ _ _ I').
  - right. split; [done|]. destruct Herr as [db' Hrun]. rewrite He in Hrun. rewrite Hrun. by exists db'.
Qed.
End RebuildFacts.
