(* ===== verification/RebuildFiles.v ===== *)
(** * Reading back what the card store wrote

    The round trip between the files of the cards and the index ([CardStore.cpp] writes
    them, [Rebuilder.cpp] reads them): the record a file is read as is the record it was
    written for, and a rebuild that nothing disturbs gives the index of those records. *)

From stdpp Require Import base list sets strings numbers gmap sorting.
From Stdlib Require Import Ascii.
From S2P Require Import Prelude Double Model Text Tags Database CardRepo Uuid.
From S2P Require Import LinkRepo TagRepo MilestoneRepo CardFrontMatter Disk Mutation Privacy CardChanges.
From S2P Require Import Json ReferenceJson ResourceManifest ResourceRepo LocationRepo ResourceFacts ResourceTheorems.
From S2P Require Import RebuildResources RebuildReads RebuildManifests Rebuild RebuildFacts ReferenceGit ReferenceYaml.
Import Disk DiskFacts CardMutation CardPaths CardFrontMatter CardFrontMatterFacts ProjectPrivacy.
Import CardStoreChanges LinkRepoFacts TagRepoFacts MilestoneRepo MilestoneFacts Rebuilder RebuildFacts RebuildFiles RebuildResources RebuildReads ResourceFacts ManifestRows ManifestFiles.

Module RebuildFilesFacts.

(** ** The paths of cards *)

Lemma valid_uuid_no_slash id : Uuid.is_valid_uuid (bytes_of id) = true -> no_slash id = true.
Proof.
  unfold Uuid.is_valid_uuid. destruct (Nat.eqb _ 36); [|done]. cbn [negb].
  destruct (Uuid.check_digits 0 (bytes_of id)) eqn:Hd; [intros _|done].
  revert Hd. generalize 0%nat. induction id as [|c id IH]; intros i; [done|].
  cbn [bytes_of String.list_ascii_of_string Uuid.check_digits no_slash].
  intros [Hc Hr]%andb_true_iff. rewrite (IH _ Hr), andb_true_r. clear -Hc. apply negb_true_iff.
  destruct (Uuid.is_hyphen_position i); [by apply Ascii.eqb_eq in Hc as ->|].
  revert c Hc. enough (forall c, implb (Uuid.is_hex_digit c) (negb (Ascii.eqb c "/")) = true) as H.
  { intros c Hc. specialize (H c). rewrite Hc in H. by apply negb_true_iff in H. }
  by_bytes.
Qed.

(** The name of a card's file, and the directory it is collected from. *)
Lemma card_path_name id path base :
  Uuid.is_valid_uuid (bytes_of id) = true -> card_rel_path id = Ok path ->
  filename (base +:+ path) = id +:+ ".md" /\ extension (base +:+ path) = ".md" /\
  exists rest, path = "cards/" +:+ rest.
Proof.
  intros Hu. unfold card_rel_path. destruct (Nat.ltb _ 4) eqn:Hlt; [done|]. intros [= <-].
  assert (filename (base +:+ "cards/" +:+ String.substring 0 2 id +:+ "/" +:+ String.substring 2 2 id
            +:+ "/" +:+ id +:+ ".md") = id +:+ ".md") as Hf.
  { unfold filename. rewrite !append_assoc. rewrite <- (append_assoc _ id).
    rewrite <- (append_assoc _ "/"). change ("/" +:+ ?s) with (String "/" s).
    rewrite components_last; [done|]. by rewrite no_slash_app, (valid_uuid_no_slash id Hu). }
  split; [done|]. split.
  - unfold extension. rewrite Hf, (split_extension_app id ".md" ".md") by done. by destruct id.
  - by eexists.
Qed.

(** ** A record and its file *)

Section Files.
Context {Y : Yaml} {V : Privacy} {D : Directory}.

Definition record_path (r : CardRecord) : result string :=
  if card_deleted (rec_card r) then card_trash_rel_path (rec_id r) else card_rel_path (rec_id r).

(** The text [card_write] and [write_card_file] give a card. *)
Definition record_text (path : string) (r : CardRecord) : string :=
  render_card_front_matter (set_card_rel_path path (rec_card r)) (rec_links r) (rec_milestones r)
  +:+ rec_body r.

Definition settled_link (c : Card) (l : CardLink) : Prop :=
  belongs (card_project_id c) (card_id c) l /\ to_card_id l <> "" /\ to_type l <> "" /\ link_kind l <> "" /\
  0 < link_created_at l.
Definition settled_milestone (c : Card) (m : Milestone) : Prop :=
  ms_project_id m = card_project_id c /\ ms_card_id m = card_id c /\ milestone_id m <> "" /\
  0 < ms_created_at m /\ 0 < ms_updated_at m.

(** A record with nothing left to fill in. *)
Record settled_record (project : Project) (r : CardRecord) : Prop := {
  sr_uuid : Uuid.is_valid_uuid (bytes_of (rec_id r)) = true;
  sr_project : card_project_id (rec_card r) = project_id project;
  sr_path : card_rel_path (rec_id r) = Ok (rel_path (rec_card r));
  sr_title : title (rec_card r) <> "";
  sr_created : 0 < created_at (rec_card r);
  sr_updated : 0 < updated_at (rec_card r);
  sr_links : Forall (settled_link (rec_card r)) (rec_links r);
  sr_milestones : Forall (settled_milestone (rec_card r)) (rec_milestones r);
  sr_text : forall path, record_path r = Ok path -> loads_back
    (front_matter_value (set_card_rel_path path (rec_card r)) (rec_links r) (rec_milestones r))
}.

Lemma settle_stored_link c l path : settled_link c l ->
  option_map (settle_link c) (stored_link (set_card_rel_path path c) l) = Some l.
Proof.
  intros ([H1 H2] & H3 & H4 & H5 & H6). unfold stored_link, settle_link.
  rewrite (proj2 (String.eqb_neq _ _) H3), (proj2 (String.eqb_neq _ _) H4), (proj2 (String.eqb_neq _ _) H5).
  cbn. rewrite (proj2 (String.eqb_neq _ _) H4), (proj2 (String.eqb_neq _ _) H5).
  rewrite (proj2 (Z.leb_gt _ _) H6). destruct l; cbn in *. by rewrite H1, H2.
Qed.

Lemma settle_stored_milestone c m path : settled_milestone c m ->
  option_map (settle_milestone c) (stored_milestone (set_card_rel_path path c) m) = Some m.
Proof.
  intros (H1 & H2 & H3 & H4 & H5). unfold stored_milestone, settle_milestone.
  rewrite (proj2 (String.eqb_neq _ _) H3). cbn.
  rewrite (proj2 (Z.leb_gt _ _) H4), (proj2 (Z.leb_gt _ _) H5). destruct m; cbn in *. by rewrite H1, H2.
Qed.

Lemma map_omap_back {A} (f : A -> A) (g : A -> option A) (P : A -> Prop) l :
  (forall x, P x -> option_map f (g x) = Some x) -> Forall P l -> map f (omap g l) = l.
Proof.
  intros H. induction 1 as [|x l Hx _ IH]; [done|]. specialize (H x Hx).
  change (omap g (x :: l)) with (match g x with Some y => y :: omap g l | None => omap g l end).
  destruct (g x) as [y|]; [|done]. cbn [option_map] in H. injection H as H. cbn [map]. by rewrite H, IH.
Qed.

(** Reading a written file gives the record back. *)
Lemma load_written `{!PrivacyLaws V} project r path raw d :
  settled_record project r -> record_path r = Ok path -> work d !! path = Some raw ->
  written project (record_text path r) raw ->
  reads (load_card_file project (card_deleted (rec_card r)) path) d r.
Proof.
  intros S Hp Hw Hraw. unfold load_card_file.
  eapply reads_bind; [by apply reads_file|]. eapply reads_bind; [by apply decode_written|].
  unfold record_text. rewrite parse_rendered by by apply (sr_text _ _ S).
  cbn [has_front_matter pf_card pf_body pf_links pf_milestones negb].
  eapply reads_bind; [apply reads_when_false; by rewrite andb_false_r|].
  eapply reads_bind; [apply reads_lift|].
  { unfold identify_card. cbn [pf_card has_front_matter card_id set_card_rel_path pf_body]. fold (rec_id r).
    pose proof (sr_uuid _ _ S) as Hu.
    destruct (String.eqb_spec (rec_id r) "") as [He|_]; [by rewrite He in Hu|]. cbn [andb].
    change (card_id (set_card_rel_path path (rec_card r))) with (rec_id r). rewrite Hu. cbn [negb].
    change (if card_deleted (rec_card r) then card_trash_rel_path (rec_id r) else card_rel_path (rec_id r))
      with (record_path r). rewrite Hp. cbn [rbind]. rewrite String.eqb_refl. cbn [negb].
    rewrite (sr_path _ _ S). cbn [rbind title set_card_rel_path set_card_project].
    rewrite (proj2 (String.eqb_neq _ _) (sr_title _ _ S)). reflexivity. }
  eapply reads_bind; [apply reads_attempt, reads_gets; by intros w ->|].
  match goal with |- reads (mret (mkRecord ?c _ _ _)) _ _ => assert (c = rec_card r) as -> end.
  { pose proof (sr_project _ _ S) as H1. unfold settle_times.
    pose proof (proj2 (Z.leb_gt _ _) (sr_created _ _ S)) as H2. pose proof (proj2 (Z.leb_gt _ _) (sr_updated _ _ S)) as H3.
    destruct (rec_card r) as [i p t rp pa sk ca ua [da|]]; cbn in *; rewrite H2; cbn; rewrite H3; cbn; by rewrite H1. }
  rewrite (map_omap_back _ _ (settled_link (rec_card r))); [|intros; by apply settle_stored_link|apply (sr_links _ _ S)].
  rewrite (map_omap_back _ _ (settled_milestone (rec_card r)));
    [|intros; by apply settle_stored_milestone|apply (sr_milestones _ _ S)].
  destruct r. apply reads_mret.
Qed.

(** ** The files of a project *)

Lemma record_in_directory project r path :
  settled_record project r -> record_path r = Ok path ->
  filename path = rec_id r +:+ ".md" /\
  in_directory "cards" ".md" path = negb (card_deleted (rec_card r)) /\
  in_directory "trash/cards" ".md" path = card_deleted (rec_card r).
Proof.
  intros S. unfold record_path, card_trash_rel_path, in_directory. pose proof (sr_uuid _ _ S) as Hu.
  destruct (card_deleted (rec_card r)).
  - destruct (card_rel_path (rec_id r)) as [p|] eqn:Hp; [|done]. intros [= <-].
    destruct (card_path_name _ _ "trash/" Hu Hp) as (H1 & H2 & rest & ->). rewrite H2.
    split; [done|]. split; [done|]. by destruct rest.
  - intros Hp. destruct (card_path_name _ _ "" Hu Hp) as (H1 & H2 & rest & ->).
    change ("" +:+ ?p) with p in H1, H2. rewrite H2. split; [done|]. split; [by destruct rest|done].
Qed.

(** The records are what the Markdown files under [cards/] and [trash/cards/] hold. *)
Record files_of (project : Project) (rs : list CardRecord) (d : Disk) : Prop := {
  fo_settled : forall r, r ∈ rs -> settled_record project r;
  fo_file : forall r, r ∈ rs -> exists path raw, record_path r = Ok path /\ work d !! path = Some raw /\
    written project (record_text path r) raw;
  fo_all : forall path, is_Some (work d !! path) ->
    in_directory "cards" ".md" path || in_directory "trash/cards" ".md" path = true ->
    exists r, r ∈ rs /\ record_path r = Ok path
}.

Lemma reads_card_files `{!PrivacyLaws V} project rs d is_trash paths :
  files_of project rs d ->
  (forall p, p ∈ paths -> exists r, r ∈ rs /\ card_deleted (rec_card r) = is_trash /\ record_path r = Ok p) ->
  exists recs, reads (load_card_files project is_trash paths) d recs /\
    Forall2 (fun p r => r ∈ rs /\ card_deleted (rec_card r) = is_trash /\ record_path r = Ok p) paths recs.
Proof.
  intros F. induction paths as [|p paths IH]; intros H.
  { exists []. split; [apply reads_mret|constructor]. }
  destruct IH as (recs & Hr & Hf); [intros q Hq; apply H; by right|].
  destruct (H p) as (r & Hin & Hd & Hp); [by left|].
  exists (r :: recs). split; [|by constructor]. cbn [load_card_files].
  destruct (fo_file _ _ _ F r Hin) as (p' & raw & Hp' & Hw & Hraw).
  assert (p' = p) as -> by congruence. rewrite <- Hd.
  eapply reads_bind; [eapply load_written; [by apply (fo_settled _ _ _ F)|done..]|].
  rewrite Hd. eapply reads_bind; [exact Hr|apply reads_mret].
Qed.

(** Whatever the order of the directories, the records come out, each once. *)
Lemma reads_cards `{!PrivacyLaws V} `{!DirectoryLaws D} project rs d :
  files_of project rs d -> NoDup (map rec_id rs) ->
  exists order, order ≡ₚ rs /\ reads (load_cards project) d order.
Proof.
  intros F Hn. unfold load_cards.
  set (live := read_directory (list_filter (in_directory "cards" ".md") (map fst (map_to_list (work d))))).
  set (gone := read_directory (list_filter (in_directory "trash/cards" ".md") (map fst (map_to_list (work d))))).
  destruct (reads_card_files project rs d false live F) as (rl & Hrl & Hfl).
  { intros p [Hs Hp]%collected. destruct (fo_all _ _ _ F p Hs) as (r & Hr & Hpath); [by rewrite Hp|].
    exists r. destruct (record_in_directory _ _ _ (fo_settled _ _ _ F r Hr) Hpath) as (_ & H1 & _).
    split; [done|]. split; [|done]. rewrite Hp in H1. by destruct (card_deleted _). }
  destruct (reads_card_files project rs d true gone F) as (rg & Hrg & Hfg).
  { intros p [Hs Hp]%collected. destruct (fo_all _ _ _ F p Hs) as (r & Hr & Hpath); [by rewrite Hp, orb_true_r|].
    exists r. destruct (record_in_directory _ _ _ (fo_settled _ _ _ F r Hr) Hpath) as (_ & _ & H1).
    split; [done|]. split; [|done]. by rewrite Hp in H1. }
  exists (rl ++ rg). split.
  2: { eapply reads_bind; [apply reads_collect|]. eapply reads_bind; [apply reads_collect|].
       eapply reads_bind; [exact Hrl|]. eapply reads_bind; [exact Hrg|apply reads_mret]. }
  assert (forall paths recs b, NoDup paths ->
    Forall2 (fun p r => r ∈ rs /\ card_deleted (rec_card r) = b /\ record_path r = Ok p) paths recs -> NoDup recs) as Hnd.
  { intros paths recs b Hp Hf. induction Hf as [|p r paths recs (_ & _ & Hr) Hf IH]; [constructor|].
    apply NoDup_cons in Hp as [Hp1 Hp2]. constructor; [|by apply IH]. intros Hin.
    destruct (Forall2_elem_r _ _ _ _ Hf Hin) as (q & Hq & _ & _ & Hrq). congruence. }
  apply NoDup_Permutation.
  - apply list.NoDup_app. split; [by apply (Hnd live _ false); [apply collected_NoDup|]|].
    split; [|by apply (Hnd gone _ true); [apply collected_NoDup|]].
    intros r Hl Hg. destruct (Forall2_elem_r _ _ _ _ Hfl Hl) as (? & _ & _ & H1 & _).
    destruct (Forall2_elem_r _ _ _ _ Hfg Hg) as (? & _ & _ & H2 & _). congruence.
  - apply (NoDup_fmap_1 rec_id), Hn.
  - intros r. rewrite elem_of_app. split.
    + intros [H|H]; [destruct (Forall2_elem_r _ _ _ _ Hfl H) as (? & _ & ? & _)|
        destruct (Forall2_elem_r _ _ _ _ Hfg H) as (? & _ & ? & _)]; done.
    + intros Hr. destruct (fo_file _ _ _ F r Hr) as (path & raw & Hpath & Hw & _).
      destruct (record_in_directory _ _ _ (fo_settled _ _ _ F r Hr) Hpath) as (Hname & H1 & H2).
      assert (forall paths recs b, path ∈ paths ->
        Forall2 (fun p r => r ∈ rs /\ card_deleted (rec_card r) = b /\ record_path r = Ok p) paths recs -> r ∈ recs) as Hget.
      { intros paths recs b Hin Hf. destruct (Forall2_elem_l _ _ _ _ Hf Hin) as (r' & Hr' & Hin' & _ & Hp').
        destruct (record_in_directory _ _ _ (fo_settled _ _ _ F r' Hin') Hp') as (Hname' & _).
        enough (r' = r) as -> by done. apply (NoDup_map_inj rec_id rs); [done..|].
        rewrite Hname in Hname'. by apply append_cancel_r in Hname'. }
      destruct (card_deleted (rec_card r)) eqn:Hd; [right; apply (Hget gone _ true); [|done]|
        left; apply (Hget live _ false); [|done]]; apply collected; (split; [by exists raw|done]).
Qed.
End Files.
End RebuildFilesFacts.

Module RebuildFilesTheorems.
Import RebuildFilesFacts.

Section Run.
Context {Y : Yaml} {L : LibGit2} {J : MsgPack} {V : Privacy} {D : Directory} {N : JsonLib}.

Lemma io_reads {A} (m : IO A) d a s :
  reads m d a -> calm (st_world s) -> disk (st_world s) = d ->
  exists w, io m s = (Ok a, mkStore w (st_db s) (st_tx s)) /\ disk w = d /\ calm w.
Proof.
  intros Hm Hc Hd. destruct (Hm _ Hc Hd) as (w & H & ? & ?). exists w. unfold io. by rewrite H.
Qed.

Lemma no_journal_reads d : journal_file d = None -> reads recover_files d tt /\ reads finish_recovery d tt.
Proof.
  intros Hj. split; (eapply reads_bind; [apply reads_exists|]); cbn [peek]; rewrite Hj; apply reads_mret.
Qed.

Lemma sum_map_perm {A} (f : A -> nat) l l' : l ≡ₚ l' -> sum_map f l = sum_map f l'.
Proof. unfold sum_map. induction 1; cbn; lia. Qed.
Lemma stats_of_perm md_parse m m' rs rs' :
  m.1 ≡ₚ m'.1 -> m.2 ≡ₚ m'.2 -> rs ≡ₚ rs' -> stats_of md_parse m rs = stats_of md_parse m' rs'.
Proof.
  assert (forall l l', l ≡ₚ l' -> list_filter live_record l ≡ₚ list_filter live_record l') as Hf.
  { induction 1; cbn; repeat case_match; try done; try constructor; try done. by etrans. }
  intros Hl Hb Hp. unfold stats_of. f_equal; first [by apply sum_map_perm|by apply sum_map_perm, Hf|by apply Permutation_length].
Qed.

(** What the database is once the project's own rows are gone; the location of another
    project's asset cannot go. *)
Definition emptied (project : Project) (db : Db) : option Db :=
  let db1 := on_resources (delete_resource_rows (fun r => String.eqb (rr_project_id r) (project_id project)))
               (delete_cards_row (project_id project) (delete_links_row (project_id project) db)) in
  LocationRepo.delete_locations (fun l => String.eqb (lr_project_id l) (project_id project)) db1.

Lemma emptied_rows project db base : emptied project db = Some base ->
  base = set_resource_tables (resource_tables base) (delete_cards_row (project_id project) (delete_links_row (project_id project) db)).
Proof.
  unfold emptied, LocationRepo.delete_locations. destruct (delete_location_rows _ _); [|done]. by intros [= <-].
Qed.

Lemma emptied_links_wf project db base : emptied project db = Some base -> links_wf db -> links_wf base.
Proof.
  intros ->%emptied_rows [Hk Hp]. split; [by apply NoDup_map_filter|]. intros l [Hl _]%elem_of_list_filter. by apply Hp.
Qed.
Lemma insertable_resources pid rs f db : insertable pid rs db -> insertable pid rs (on_resources f db).
Proof. by intros []. Qed.

Lemma io_step {A B} (m : IO A) (k : A -> M Store B) d a w db tx :
  reads m d a -> calm w -> disk w = d ->
  exists w', bind (io m) k (mkStore w db tx) = k a (mkStore w' db tx) /\ disk w' = d /\ calm w'.
Proof.
  intros Hm Hc Hd. destruct (io_reads m d a (mkStore w db tx) Hm Hc Hd) as (w' & H & ? & ?).
  exists w'. unfold bind. by rewrite H.
Qed.

(** The transaction: the files are read once the old rows are gone. *)
Lemma rebuild_in_transaction md_parse project d m order w db base base' :
  emptied project db = Some base -> bind_text (project_id project) = project_id project ->
  reads (load_manifests project) d m -> insert_manifests m base = (Ok tt, base') ->
  reads (load_cards project) d order -> calm w -> disk w = d ->
  exists w', disk w' = d /\ calm w' /\
    rebuild_project_in_transaction md_parse project (mkStore w db (Some db)) =
    match insert_records md_parse order base' with
    | (Ok _, db1) => (Ok (stats_of md_parse m order), mkStore w' db (Some db1))
    | (Err e, db1) => (Err e, mkStore w' db (Some db1))
    end.
Proof.
  intros He Hb Hman Hins Hload Hc Hd. unfold rebuild_project_in_transaction.
  match goal with |- context [bind (io (attempt _ (mret tt))) ?k] =>
    destruct (io_step (attempt "exists" (mret tt)) k d tt w db (Some db)) as (w1 & -> & Hd1 & Hc1);
    [apply reads_attempt, reads_mret|done|done|] end.
  assert (exec_delete_project (project_id project) db = (Ok tt, base)) as Hdel.
  { unfold exec_delete_project, exec_delete_resources. unfold bind, exec. rewrite Hb.
    fold (emptied project db). by rewrite He. }
  unfold bind at 1, in_tx at 1. cbn [st_tx st_world st_db]. rewrite Hdel.
  match goal with |- context [bind (io (load_manifests project)) ?k] =>
    destruct (io_step (load_manifests project) k d m w1 db (Some base)) as (w2 & -> & Hd2 & Hc2); [done..|] end.
  unfold bind at 1, in_tx at 1. cbn [st_tx st_world st_db]. rewrite Hins.
  match goal with |- context [bind (io (load_cards project)) ?k] =>
    destruct (io_step (load_cards project) k d order w2 db (Some base')) as (w3 & -> & Hd3 & Hc3); [done..|] end.
  exists w3. split; [done|]. split; [done|]. unfold bind, in_tx. cbn [st_tx st_world st_db].
  by destruct (insert_records md_parse order base') as [[[]|e] db1].
Qed.

(** A rebuild that nothing disturbs. *)
Lemma rebuild_project_calm md_parse project m order w db base base' :
  emptied project db = Some base -> bind_text (project_id project) = project_id project ->
  reads (load_manifests project) (disk w) m -> insert_manifests m base = (Ok tt, base') ->
  reads (load_cards project) (disk w) order -> calm w -> journal_file (disk w) = None ->
  exists w', disk w' = disk w /\
    rebuild_project md_parse project (mkStore w db None) =
    match insert_records md_parse order base' with
    | (Ok _, db1) => (Ok (stats_of md_parse m order), mkStore w' db1 None)
    | (Err e, db1) => (Err e, mkStore w' db None)
    end.
Proof.
  intros He Hb Hman Hins Hload Hc Hj. destruct (no_journal_reads _ Hj) as [Hrec Hfin].
  unfold rebuild_project, with_tx, begin_tx.
  match goal with |- context [bind (io recover_files) ?k] =>
    destruct (io_step recover_files k (disk w) tt w db None) as (w1 & -> & Hd1 & Hc1); [done..|] end.
  cbv beta. rewrite bind_assoc.
  match goal with |- context [bind (io (attempt _ (mret tt))) ?k] =>
    destruct (io_step (attempt "BEGIN IMMEDIATE" (mret tt)) k (disk w) tt w1 db None) as (w2 & -> & Hd2 & Hc2);
    [apply reads_attempt, reads_mret|done|done|] end.
  unfold bind at 1, modify at 1. cbn [st_world st_db st_tx].
  destruct (rebuild_in_transaction md_parse project (disk w) m order w2 db base base' He Hb Hman Hins Hload Hc2 Hd2) as (w3 & Hd3 & Hc3 & Hrun).
  unfold bind at 1. rewrite Hrun.
  destruct (insert_records md_parse order base') as [[[]|e] db1]; [|by exists w3].
  unfold commit_tx. rewrite bind_assoc.
  match goal with |- context [bind (io (attempt _ (mret tt))) ?k] =>
    destruct (io_step (attempt "COMMIT" (mret tt)) k (disk w) tt w3 db (Some db1)) as (w4 & -> & Hd4 & Hc4);
    [apply reads_attempt, reads_mret|done|done|] end.
  unfold bind at 1, modify at 1. cbn [st_world st_db st_tx].
  match goal with |- context [bind (io finish_recovery) ?k] =>
    destruct (io_step finish_recovery k (disk w) tt w4 db1 None) as (w5 & -> & Hd5 & Hc5); [done..|] end.
  by exists w5.
Qed.
End Run.

(** What a rebuild makes of a project whose files are the given records and manifests. *)
Section Rebuilt.
Context {Y : Yaml} {L : LibGit2} {J : MsgPack} {V : Privacy} `{!PrivacyLaws V} {D : Directory} `{!DirectoryLaws D}.
Context {N : JsonLib} `{!JsonLaws N} (md_parse : bytes -> list TagExtractor.MdEvent).

Definition rebuilt (rs : list CardRecord) (ls : list Location) (bs : list ResourceBundle) (base db' : Db) : Prop :=
  (forall x, x ∈ rs -> resolved rs x) /\
  projects db' = projects base /\ project_sync_state db' = project_sync_state base /\
  cards db' ≡ₚ cards base ++ map rec_card rs /\
  card_tags db' ≡ₚ card_tags base ++ flat_map (row_tags md_parse) rs /\
  milestones db' ≡ₚ milestones base ++ flat_map row_milestones rs /\
  link_map (card_links db') = upsert_all (flat_map rec_links rs) (link_map (card_links base)) /\
  same_rows (resource_tables db') (add_manifests ls bs (resource_tables base)).

Lemma rebuild_run project rs ls bs w db base :
  calm w -> journal_file (disk w) = None ->
  bind_text (project_id project) = project_id project -> links_wf db -> emptied project db = Some base ->
  files_of project rs (disk w) -> insertable (project_id project) rs base ->
  manifests_of project ls bs (disk w) -> indexable ls bs base ->
  exists w', disk w' = disk w /\
    ((exists db', rebuild_project md_parse project (mkStore w db None) =
        (Ok (stats_of md_parse (ls, bs) rs), mkStore w' db' None) /\ rebuilt rs ls bs base db') \/
     (rebuild_project md_parse project (mkStore w db None) = (Err unresolved_parent, mkStore w' db None) /\
      exists x, x ∈ rs /\ ~ resolved rs x)).
Proof.
  intros Hc Hj Hb W He F I Fm Im.
  assert (NoDup (map rec_id rs)) as Hids by (pose proof (ins_ids _ _ _ I) as H; by apply list.NoDup_app in H as (_ & _ & ?)).
  destruct (reads_cards project rs (disk w) F Hids) as (order & Ho & Hload).
  destruct (reads_manifests project ls bs (disk w) Fm) as (ls' & bs' & Hl & Hbs & Hman).
  pose proof (insert_manifests_ok ls' bs' base (indexable_perm ls ls' bs bs' base (symmetry Hl) (symmetry Hbs) Im)) as Hins.
  destruct (rebuild_project_calm md_parse project (ls', bs') order w db base _ He Hb Hman Hins Hload Hc Hj) as (w' & Hd & ->).
  exists w'. split; [exact Hd|].
  rewrite (stats_of_perm md_parse (ls', bs') (ls, bs) order rs Hl Hbs Ho).
  set (base' := on_resources (add_manifests ls' bs') base).
  destruct (index_of_records md_parse (project_id project) rs order base')
    as [[Hres (db' & -> & Hrows)]|[Hbad [db' ->]]];
    [by destruct (emptied_links_wf project db base He W)|by apply insertable_resources|done| |].
  - left. exists db'. split; [done|]. destruct Hrows as (? & ? & Ht & ? & ? & ? & ?). do 7 (split; [done|]).
    rewrite Ht. by apply add_manifests_perm.
  - by right.
Qed.
End Rebuilt.

(** C9: the index is what the files say. When every card's file holds what the card store
    writes for it, and the manifests hold resources and locations that the tables can take,
    plain or encrypted, and nothing disturbs the rebuild, then whatever the index held before
    and in whatever order directories are listed: each card of the project has its row
    again, with the links, milestones and tags of its file, the rows of resources, assets,
    placements and locations are those of the manifests, the counts are theirs, rows of other
    projects stay, and neither files nor repository change; or, when some chain of parents
    does not end at a root, the rebuild throws and the index is as it was. *)
Theorem rebuild_reads_back {Y : Yaml} {L : LibGit2} {J : MsgPack} {V : Privacy} {D : Directory} {N : JsonLib}
    (md_parse : bytes -> list TagExtractor.MdEvent) (project : Project) (rs : list CardRecord)
    (ls : list Location) (bs : list ResourceBundle) (w : World) (db base : Db) :
  PrivacyLaws V -> DirectoryLaws D -> JsonLaws N -> calm w -> journal_file (disk w) = None ->
  bind_text (project_id project) = project_id project -> links_wf db -> emptied project db = Some base ->
  files_of project rs (disk w) -> insertable (project_id project) rs base ->
  manifests_of project ls bs (disk w) -> indexable ls bs base ->
  let '(r, s') := rebuild_project md_parse project (mkStore w db None) in
  let db' := st_db s' in
  disk (st_world s') = disk w /\ st_tx s' = None /\
  ((r = Ok (stats_of md_parse (ls, bs) rs) /\ (forall x, x ∈ rs -> resolved rs x) /\
    projects db' = projects base /\ project_sync_state db' = project_sync_state base /\
    cards db' ≡ₚ cards base ++ map rec_card rs /\
    card_tags db' ≡ₚ card_tags base ++ flat_map (row_tags md_parse) rs /\
    milestones db' ≡ₚ milestones base ++ flat_map row_milestones rs /\
    link_map (card_links db') = upsert_all (flat_map rec_links rs) (link_map (card_links base)) /\
    same_rows (resource_tables db') (add_manifests ls bs (resource_tables base))) \/
   (r = Err unresolved_parent /\ (exists x, x ∈ rs /\ ~ resolved rs x) /\ db' = db)).
Proof.
  intros PL DL JL Hc Hj Hb W He F I Fm Im.
  destruct (rebuild_run md_parse project rs ls bs w db base Hc Hj Hb W He F I Fm Im)
    as (w' & Hd & [(db' & -> & Hr)|[-> Hx]]); (split; [exact Hd|split; [done|]]); [left|right]; by split.
Qed.

(** An encrypted project with two cards, a link between them and the child in the trash; the
    index holds a card that has no file any more. *)
Import ReferenceYaml ReferenceGit ReferenceJson ResourceManifest ResourceManifestFacts BundleRows.
Definition listing : Directory := {| read_directory l := rev l; file_mtime_seconds _ _ := 0 |}.
Lemma listing_laws : DirectoryLaws listing.
Proof. split. intros l. cbn. symmetry. apply Permutation_rev. Qed.
Definition no_tags (_ : bytes) : list TagExtractor.MdEvent := [].
Definition notes : Project :=
  mkProject "p" "Notes" "/p" None None "encrypted_git" (Some "k") Uuid4 0 0.
Definition plan_id : string := "550e8400-e29b-41d4-a716-446655440000".
Definition step_id : string := "01890f3e-7b5a-7cc8-98c4-dc0c0c07398f".
Definition plan_path : string := "cards/55/0e/550e8400-e29b-41d4-a716-446655440000.md".
Definition step_path : string := "cards/01/89/01890f3e-7b5a-7cc8-98c4-dc0c0c07398f.md".
Definition plan : CardRecord :=
  mkRecord (mkCard plan_id "p" "Plan" plan_path None f64_zero 1 2 None) "body"
    [mkCardLink "p" plan_id step_id "card" "ref" None 3]
    [mkMilestone "m" "p" plan_id 5 None true None None 3 4].
Definition step : CardRecord :=
  mkRecord (mkCard step_id "p" "Step" step_path (Some plan_id) f64_zero 1 2 (Some 7)) "done" [] [].
Definition zeros : string := String.string_of_list_ascii (repeat "0"%char 64).
Definition shelf : Location := mkLocation "loc1" "p" "Shelf" "local" [] 1 1.
Definition scan : ResourceBundle :=
  mkBundle (mkResource "res1" "p" "document" "scan.pdf" [("title", ["Scan"])] 1 2)
    [mkAsset "as1" "res1" "scan.pdf" "application/pdf" 5 zeros 1 1
       [mkPlacement "pl1" "as1" "loc1" "p/as1" "plain" 5 zeros 1]].
Definition shelf_path : string := "locations/lo/c1/loc1.json".
Definition scan_path : string := "resources/re/s1/res1.json".
Definition text_of (r : result string) : string := match r with Ok t => t | Err _ => "" end.
Definition notes_list : list (string * string) :=
  [(plan_path, blob_header +:+ record_text plan_path plan);
   ("trash/" +:+ step_path, blob_header +:+ record_text ("trash/" +:+ step_path) step);
   (shelf_path, blob_header +:+ text_of (render_location_manifest (N := reference_json) shelf));
   (scan_path, blob_header +:+ text_of (render_resource_manifest (N := reference_json) scan));
   ("README.md", "mine")].
Definition notes_files : gmap string string := list_to_map notes_list.
Definition notes_world : World := mkWorld (mkDisk notes_files None None None None ∅) None (fun _ => Works) 0.
Definition stale_index : Db :=
  mkDb [notes] [mkCard "gone" "p" "Gone" "cards/go/ne/gone.md" None f64_zero 1 1 None] [] [] [] []
    (mkResourceTables [mkResourceRow "res0" "p" "thing" "Old" 1 1] [] [] []
       [mkLocationRow "loc0" "p" "Attic" "local" "{}" 1 1]).
Definition notes_base : Db := set_resource_tables no_resources (core_db [notes] [] [] [] [] []).

Ltac each H := apply list_elem_of_In in H; cbn [In] in H; destruct H as [<-|[<-|[]]].

Lemma notes_keys : NoDup (map fst notes_list).
Proof. apply (bool_decide_unpack _). vm_compute. exact I. Qed.
Lemma notes_file path raw : (path, raw) ∈ notes_list -> work (disk notes_world) !! path = Some raw.
Proof. intros H. apply elem_of_list_to_map_1; [apply notes_keys|exact H]. Qed.
(** Each file in turn. *)
Lemma notes_paths path : is_Some (work (disk notes_world) !! path) ->
  path = plan_path \/ path = "trash/" +:+ step_path \/ path = shelf_path \/ path = scan_path \/ path = "README.md".
Proof.
  intros [raw Hr]. apply elem_of_list_to_map_2, list_elem_of_In in Hr. unfold notes_list in Hr. cbn [In] in Hr.
  destruct Hr as [[= <- _]|[[= <- _]|[[= <- _]|[[= <- _]|[[= <- _]|[]]]]]]; tauto.
Qed.

Lemma notes_files_of : files_of notes [plan; step] (disk notes_world).
Proof.
  split.
  - intros r H. each H; (split; [reflexivity..|discriminate|reflexivity|reflexivity| | |]).
    + by repeat constructor.
    + by repeat constructor.
    + intros path _. apply reference_yaml_loads_back.
    + constructor.
    + constructor.
    + intros path _. apply reference_yaml_loads_back.
  - intros r H. each H.
    + exists plan_path, (blob_header +:+ record_text plan_path plan). split; [reflexivity|].
      split; [apply notes_file; by left|]. by exists 0%nat, "k".
    + exists ("trash/" +:+ step_path), (blob_header +:+ record_text ("trash/" +:+ step_path) step).
      split; [reflexivity|]. split; [apply notes_file; right; by left|]. by exists 0%nat, "k".
  - intros path [->|[->|[->|[->| ->]]]]%notes_paths Hd; try (by vm_compute in Hd).
    + exists plan. split; [by left|reflexivity].
    + exists step. split; [by right; left|reflexivity].
Qed.

Lemma renders (r : result string) : text_of r <> "" -> r = Ok (text_of r).
Proof. by destruct r. Qed.
Lemma notes_manifests_of : manifests_of (N := reference_json) notes [shelf] [scan] (disk notes_world).
Proof.
  split.
  - intros l ->%list_elem_of_singleton. split; [reflexivity|]. split; [reflexivity|]. split; [by repeat constructor|].
    eexists shelf_path, _, _. split; [reflexivity|]. split; [by apply renders; vm_compute|].
    split; [apply notes_file; right; right; by left|]. by exists 0%nat, "k".
  - intros b ->%list_elem_of_singleton. split; [reflexivity|]. split; [reflexivity|].
    split; [split; try done; intros a ->%list_elem_of_singleton; split; try done; intros p ->%list_elem_of_singleton; by split|].
    split.
    { split; [done|]. split; [done|]. split; [by repeat constructor|].
      intros a ->%list_elem_of_singleton. split; [done|]. split; [done|]. split; [done|].
      intros p ->%list_elem_of_singleton. by split. }
    eexists scan_path, _, _. split; [reflexivity|]. split; [by apply renders; vm_compute|].
    split; [apply notes_file; right; right; right; by left|]. by exists 0%nat, "k".
  - intros path [->|[->|[->|[->| ->]]]]%notes_paths Hd; try (by vm_compute in Hd). exists shelf. by split; [left|].
  - intros path [->|[->|[->|[->| ->]]]]%notes_paths Hd; try (by vm_compute in Hd). exists scan. by split; [left|].
  - apply NoDup_singleton.
  - apply NoDup_singleton.
  - apply NoDup_singleton.
  - apply NoDup_singleton.
  - intros b a ->%list_elem_of_singleton ->%list_elem_of_singleton. split; [reflexivity|].
    by intros p ->%list_elem_of_singleton.
  - intros b p ->%list_elem_of_singleton ->%list_elem_of_singleton. exists shelf. by split; [left|].
Qed.
Lemma notes_indexable : indexable (N := reference_json) [shelf] [scan] notes_base.
Proof.
  split.
  - apply no_resources_wf.
  - intros l ->%list_elem_of_singleton. split; [by split|]. by eexists.
  - intros b ->%list_elem_of_singleton. split; [reflexivity| | |].
    + by intros pv ->%list_elem_of_singleton.
    + by intros a ->%list_elem_of_singleton.
    + by intros a p ->%list_elem_of_singleton ->%list_elem_of_singleton.
  - split; cbn; try apply NoDup_singleton; intros x ->%list_elem_of_singleton; try done.
    eexists. split; [by left|done].
Qed.

Lemma notes_insertable : insertable "p" [plan; step] notes_base.
Proof.
  split; try (intros x; vm_compute; intros H; by inversion H).
  - reflexivity.
  - intros r H. each H; repeat split.
  - apply (bool_decide_unpack _). vm_compute. exact I.
  - apply (bool_decide_unpack _). vm_compute. exact I.
  - intros r m H Hm. each H; [|by inversion Hm]. by apply list_elem_of_singleton in Hm as ->.
  - apply (bool_decide_unpack _). vm_compute. exact I.
  - intros r l H Hm. each H; [|by inversion Hm]. by apply list_elem_of_singleton in Hm as ->.
Qed.

Example rebuild_reads_back_witness :
  let s' := snd (rebuild_project (J := reference_msgpack) (D := listing) (N := reference_json) no_tags notes
    (mkStore notes_world stale_index None)) in
  cards (st_db s') ≡ₚ [rec_card plan; rec_card step] /\
  assets (resource_tables (st_db s')) ≡ₚ flat_map bundle_assets [scan].
Proof.
  pose proof (rebuild_reads_back (J := reference_msgpack) (D := listing) (N := reference_json) no_tags notes
    [plan; step] [shelf] [scan] notes_world stale_index notes_base
    reference_privacy_laws listing_laws reference_json_laws (fun n => eq_refl) eq_refl eq_refl
    ltac:(by split; [constructor|intros l Hl; inversion Hl]) eq_refl notes_files_of notes_insertable
    notes_manifests_of notes_indexable) as H.
  cbv zeta in H. destruct (rebuild_project _ _ _) as [r s']. destruct H as (_ & _ & [H|H]).
  { destruct H as (_ & _ & _ & _ & Hc & _ & _ & _ & Hr). split; [apply Hc|apply Hr]. }
  exfalso. destruct H as (_ & (x & Hx & Hn) & _). apply Hn.
  assert (resolved [plan; step] plan) as Hp by (apply resolved_root; [left|reflexivity]).
  each Hx; [exact Hp|]. apply (resolved_child _ _ plan); [right; left|reflexivity|exact Hp].
Defined.

(** A child whose parent was deleted for good cannot be rebuilt. *)
Example orphan_stops_rebuild :
  let files := delete plan_path (list_to_map (take 2 notes_list)) in
  fst (rebuild_project (J := reference_msgpack) (D := listing) (N := reference_json) no_tags notes
    (mkStore (mkWorld (mkDisk files None None None None ∅) None (fun _ => Works) 0) stale_index None)) = Err unresolved_parent.
Proof. vm_compute. reflexivity. Qed.
(** A placement whose location has no manifest. *)
Example lost_location_stops_rebuild :
  let files := list_to_map (drop 3 notes_list) in
  fst (rebuild_project (J := reference_msgpack) (D := listing) (N := reference_json) no_tags notes
    (mkStore (mkWorld (mkDisk files None None None None ∅) None (fun _ => Works) 0) stale_index None)) =
  Err (Runtime "resources/re/s1/res1.json: placement refers to unknown location loc1").
Proof. vm_compute. reflexivity. Qed.
End RebuildFilesTheorems.
