(* ===== verification/Store.v ===== *)
(** * The card store

    [src/src/card/CardStore.cpp]: the entry points, each with its guards in the order of the
    source, the files it reads and writes, the rows it changes and its commit. An operation
    works on the repository of its project; the lock on it is not modelled, since operations
    are run one at a time. The store has no full-text index. *)

From stdpp Require Import base list sets strings numbers gmap sorting pretty.
From Stdlib Require Import Ascii.
From S2P Require Import Prelude Double Model Text Tags TagLine Database CardRepo CardPages Uuid.
From S2P Require Import Hierarchy Repair CardPlacement LinkRepo TagRepo MilestoneRepo ProjectRepo.
From S2P Require Import CardFrontMatter Disk Mutation Privacy CardChanges Json RebuildResources Rebuild.
Import Disk CardMutation CardPaths CardFrontMatter ProjectPrivacy CardStoreChanges.
Import CardHierarchy HierarchyRepair CardPlacementResolver.

Module CardStore.

Inductive AddTagResult := Added | AlreadyPresent | AddInvalidTag.
Inductive RemoveTagResult := TagRemoved | NotPresent | PresentOutsideEditableTagLine | RemoveInvalidTag.

Record MilestoneUpdate := mkMilestoneUpdate {
  mu_start_at : option Z;
  has_end_at : bool;
  mu_end_at : option Z;
  mu_all_day : option bool;
  has_kind : bool;
  mu_kind : option string;
  has_description : bool;
  mu_description : option string
}.

Record BatchCardInput := mkBatchInput {
  bi_card_id : string;
  bi_title : string;
  bi_content : string;
  bi_created_at : Z;
  bi_updated_at : Z;
  bi_links : list CardLink;
  bi_milestones : list Milestone
}.

Record CompleteCardRecord := mkComplete { cr_card : Card; cr_content : string }.
Record CompleteCardPage := mkCompletePage { cp_cards : list CompleteCardRecord; cp_next_cursor : option string }.
Record CollectionCardPage := mkCollectionPage {
  ccp_cards : list CompleteCardRecord;
  ccp_next_cursor : option CardRepo.CardPageCursor
}.
Inductive TrashChildren := Promote | TrashSubtree.
Record CardMoveResult := mkMoveResult { moved : Card; into_title : option string }.

Section CardStore.
Context {E : SqlEngine} {Y : Yaml} {L : LibGit2} {J : MsgPack} {V : Privacy} {D : Directory} {N : JsonLib}.
Context (md_parse : bytes -> list TagExtractor.MdEvent).

(** The rows a query sees: those of the open transaction, if there is one. *)
Definition current_db (s : Store) : Db := match st_tx s with Some db => db | None => st_db s end.
Definition read_db {A} (f : Db -> A) : M Store A := gets (fun s => f (current_db s)).

Definition content_tags (content : string) : list string :=
  map string_of (TagExtractor.extract_tags md_parse (bytes_of content)).

(** ** Helpers *)

(** An interrupted change is settled, and the index rebuilt, before anything else. *)
Definition require_project (project_id : string) : M Store Project :=
  let* p := read_db (fun db => ProjectRepo.get db project_id) in
  match p with
  | None => throw (Runtime ("project not found: " +:+ project_id))
  | Some project =>
      let* interrupted := gets (fun s => pending (disk (st_world s))) in
      when interrupted (Rebuilder.rebuild_project md_parse project ;;; mret tt) ;;;
      mret project
  end.

Definition open_repository (project : Project) : IO unit :=
  open_or_init ;;;
  match git_remote_url project with Some url => set_remote "origin" url | None => mret tt end.

Definition require_card (id : string) : M Store Card :=
  let* c := read_db (fun db => CardRepo.get db id) in
  match c with Some c => mret c | None => throw (Runtime ("card not found: " +:+ id)) end.

Definition path_error : error := Runtime "card rel_path does not match card_id".
Definition check_live_path (card : Card) : M Store unit :=
  let* expected := lift (card_rel_path (card_id card)) in
  when (negb (String.eqb (rel_path card) expected)) (throw path_error).

Definition write_card_file (project : Project) (card : Card) (links : list CardLink)
    (ms : list Milestone) (content : string) : IO unit :=
  let* raw := encode_card_blob project (render_card_front_matter card links ms +:+ content) in
  git_write_file (rel_path card) raw.

Definition read_card_content_locked (project : Project) (card : Card) : M Store (option string) :=
  check_live_path card ;;;
  io (let* there := fs_exists (Work (rel_path card)) in
      if negb there then mret None
      else let* raw := fs_read_file (Work (rel_path card)) in
           let* plain := decode_card_blob project raw in
           mret (Some (pf_body (parse_card_file plain)))).

(** [if (!fs_->exists(path)) throw ...; parse_card_file(decode_card_blob(project, raw))] *)
Definition read_card_file (project : Project) (path : string) : IO (string * ParsedCardFile) :=
  let* there := fs_exists (Work path) in
  when (negb there) (throw (Runtime "card content missing")) ;;;
  let* raw := fs_read_file (Work path) in
  let* plain := decode_card_blob project raw in
  mret (raw, parse_card_file plain).

Definition stage_card (project : Project) (path : string) : IO unit :=
  stage_path path ;;;
  assert_project_staged_blobs_safe project [path].

(** ** Creating *)

Definition create (card : Card) (content : string) (explicit_sort_key : option double) : M Store unit :=
  let* project := require_project (card_project_id card) in
  io (open_repository project) ;;;
  let* valid := read_db (fun db => validate_card_parent db card) in
  lift valid ;;;
  let* key := match explicit_sort_key with
              | Some k => mret k
              | None => read_db (fun db => CardRepo.next_sort_key db (card_project_id card) (parent_card_id card))
              end in
  let card := set_card_sort_key key card in
  let* expected := lift (card_rel_path (card_id card)) in
  when (negb (String.eqb (rel_path card) "") && negb (String.eqb (rel_path card) expected))
    (throw path_error) ;;;
  let card := set_card_rel_path expected card in
  let* existing := read_db (fun db => CardRepo.get db (card_id card)) in
  when (bool_decide (is_Some existing)) (throw (Runtime "conflict: card_id already exists")) ;;;
  let* there := io (fs_exists (Work (rel_path card))) in
  when there (throw (Runtime "conflict: card file already exists")) ;;;
  let* links := read_db (fun db => LinkRepo.list_outgoing db (card_project_id card) (card_id card)) in
  io (write_card_file project card links [] content) ;;;
  io (stage_card project (rel_path card)) ;;;
  try_catch (in_tx (CardRepo.create card))
    (fun e => io (fs_remove (Work (rel_path card))) ;;; throw e) ;;;
  in_tx (TagRepo.set_tags_for_card (card_project_id card) (card_id card) (content_tags content)
           (created_at card)) ;;;
  io (commit ("Add card " +:+ title card)).

(** [generate_id] and the callback [uuid_v4], by the number of the call. *)
Context (generate_id : IdScheme -> nat -> result string) (uuid_v4 : nat -> string).

Fixpoint remap_ids (project : Project) (n : nat) (items : list BatchCardInput)
    (id_remap : gmap string string) : result (gmap string string) :=
  match items with
  | [] => Ok id_remap
  | item :: items =>
      let? id := generate_id (id_scheme project) n in
      remap_ids project (S n) items (<[bi_card_id item := id]> id_remap)
  end.

(** Links to anything but a card of the batch are dropped. *)
Definition batch_links (project_id : string) (id_remap : gmap string string) (card : Card)
    (links : list CardLink) : list CardLink :=
  omap (fun link =>
    if negb (String.eqb (to_type link) "card") then None
    else match id_remap !! to_card_id link with
         | None => None
         | Some to => Some (mkCardLink project_id (card_id card) to (to_type link) (link_kind link)
                              (link_label link)
                              (if Z.leb (link_created_at link) 0 then updated_at card else link_created_at link))
         end) links.

Fixpoint batch_milestones (project_id : string) (n : nat) (card : Card) (ms : list Milestone) : list Milestone :=
  match ms with
  | [] => []
  | m :: ms =>
      mkMilestone (uuid_v4 n) project_id (card_id card) (start_at m) (end_at m) (all_day m) (ms_kind m)
        (ms_description m)
        (if Z.leb (ms_created_at m) 0 then updated_at card else ms_created_at m)
        (if Z.leb (ms_updated_at m) 0 then updated_at card else ms_updated_at m)
      :: batch_milestones project_id (S n) card ms
  end.

Definition create_batch_item (project : Project) (project_id : string) (id_remap : gmap string string)
    (n : nat) (item : BatchCardInput) : M Store string :=
  let id := default "" (id_remap !! bi_card_id item) in
  let* path := lift (card_rel_path id) in
  let* key := read_db (fun db => CardRepo.next_sort_key db project_id None) in
  let card := mkCard id project_id (bi_title item) path None key (bi_created_at item) (bi_updated_at item) None in
  let links := batch_links project_id id_remap card (bi_links item) in
  let ms := batch_milestones project_id n card (bi_milestones item) in
  io (write_card_file project card links ms (bi_content item)) ;;;
  in_tx (CardRepo.create card) ;;;
  in_tx (TagRepo.set_tags_for_card project_id id (content_tags (bi_content item)) (updated_at card)) ;;;
  when (negb (bool_decide (links = []))) (in_tx (LinkRepo.upsert_links project_id id links)) ;;;
  when (negb (bool_decide (ms = []))) (in_tx (MilestoneRepo.replace_for_card project_id id ms)) ;;;
  mret path.

Fixpoint create_batch_items (project : Project) (project_id : string) (id_remap : gmap string string)
    (n : nat) (items : list BatchCardInput) : M Store (list string) :=
  match items with
  | [] => mret []
  | item :: items =>
      let* path := create_batch_item project project_id id_remap n item in
      let* paths := create_batch_items project project_id id_remap (n + length (bi_milestones item)) items in
      mret (path :: paths)
  end.

Definition create_batch (project_id : string) (items : list BatchCardInput) (commit_message : string)
    : M Store unit :=
  let* project := require_project project_id in
  io (open_repository project) ;;;
  let* id_remap := lift (remap_ids project 0 items ∅) in
  with_tx (
    let* staged := create_batch_items project project_id id_remap 0 items in
    commit_tx ;;;
    io (stage_paths staged ;;;
        assert_project_staged_blobs_safe project staged ;;;
        when (negb (bool_decide (items = []))) (commit commit_message))).

(** ** Changing one card *)

Definition update_content (card_id_ content : string) (title_ : option string) (updated_at_ : Z)
    : M Store unit :=
  let* card := require_card card_id_ in
  let* project := require_project (card_project_id card) in
  io (open_repository project) ;;;
  check_live_path card ;;;
  let* there := io (fs_exists (Work (rel_path card))) in
  let* old := (if there : bool then
      io (let* raw := fs_read_file (Work (rel_path card)) in
          let* plain := decode_card_blob project raw in
          mret (Some (parse_card_file plain)))
    else mret None) in
  let body_unchanged := match old with Some parsed => String.eqb (pf_body parsed) content | None => false end in
  let existing_milestones := match old with Some parsed => pf_milestones parsed | None => [] end in
  let title_changed := match title_ with Some t => negb (String.eqb t (title card)) | None => false end in
  let file_changed := negb body_unchanged || title_changed in
  let new_title := match title_ with Some t => t | None => title card end in
  when file_changed (
    let* links := read_db (fun db => LinkRepo.list_outgoing db (card_project_id card) (card_id card)) in
    io (write_card_file project (set_card_updated_at updated_at_ (set_card_title new_title card)) links
          existing_milestones content)) ;;;
  when file_changed (io (stage_card project (rel_path card))) ;;;
  in_tx (match title_ with
         | Some t => CardRepo.update_title card_id_ t updated_at_
         | None => CardRepo.touch_updated card_id_ updated_at_
         end) ;;;
  in_tx (TagRepo.set_tags_for_card (card_project_id card) card_id_ (content_tags content) updated_at_) ;;;
  when file_changed (io (commit ("Update card " +:+ new_title))).

(** The card's file with other front matter: written, staged, and checked unless nothing
    changes. *)
Definition rewrite_card_file (project : Project) (raw : string) (card : Card) (links : list CardLink)
    (ms : list Milestone) (body : string) (after : M Store unit) : M Store unit :=
  let* updated_raw := io (encode_card_blob project (render_card_front_matter card links ms +:+ body)) in
  if String.eqb updated_raw raw then mret tt
  else
    io (git_write_file (rel_path card) updated_raw ;;; stage_card project (rel_path card)) ;;;
    after.

Definition move (card_id_ : string) (has_parent : bool) (parent : option string) (key : option double)
    (updated_at_ : Z) : M Store unit :=
  let* card := require_card card_id_ in
  let* project := require_project (card_project_id card) in
  let* card := require_card card_id_ in
  when (card_deleted card) (throw (Runtime "card already deleted")) ;;;
  io (open_repository project) ;;;
  check_live_path card ;;;
  let next := if has_parent then parent else parent_card_id card in
  let* valid := read_db (fun db => validate_card_parent db (set_card_parent next card)) in
  lift valid ;;;
  let* next_sort := match key with
    | Some k => mret k
    | None =>
        if has_parent && negb (opt_eqb next (parent_card_id card))
        then read_db (fun db => CardRepo.next_sort_key db (card_project_id card) next)
        else mret (sort_key card)
    end in
  if opt_eqb next (parent_card_id card) && f64_eqb next_sort (sort_key card) then mret tt
  else
    let* file := io (read_card_file project (rel_path card)) in
    let* links := read_db (fun db => LinkRepo.list_outgoing db (card_project_id card) (card_id card)) in
    let card := set_card_updated_at updated_at_ (set_card_sort_key next_sort (set_card_parent next card)) in
    rewrite_card_file project file.1 card links (pf_milestones file.2) (pf_body file.2) (
      in_tx (CardRepo.move card_id_ next next_sort updated_at_) ;;;
      io (commit ("Move card " +:+ title card))).

Definition update_links (card_id_ : string) (updated_at_ : Z) : M Store unit :=
  let* card := require_card card_id_ in
  let* project := require_project (card_project_id card) in
  io (open_repository project) ;;;
  check_live_path card ;;;
  let* file := io (read_card_file project (rel_path card)) in
  let* links := read_db (fun db => LinkRepo.list_outgoing db (card_project_id card) (card_id card)) in
  rewrite_card_file project file.1 (set_card_updated_at updated_at_ card) links (pf_milestones file.2)
    (pf_body file.2) (
    in_tx (CardRepo.touch_updated card_id_ updated_at_) ;;;
    io (commit ("Update links for " +:+ title card))).

Definition update_milestones (card_id_ : string) (updated_at_ : Z) : M Store unit :=
  let* card := require_card card_id_ in
  let* project := require_project (card_project_id card) in
  io (open_repository project) ;;;
  check_live_path card ;;;
  let* file := io (read_card_file project (rel_path card)) in
  let* ms := read_db (fun db => MilestoneRepo.list_for_card db (card_project_id card) (card_id card)) in
  rewrite_card_file project file.1 (set_card_updated_at updated_at_ card) (pf_links file.2) ms
    (pf_body file.2) (
    in_tx (CardRepo.touch_updated card_id_ updated_at_) ;;;
    io (commit ("Update milestones for " +:+ title card))).

Definition apply_update (u : MilestoneUpdate) (m : Milestone) : Milestone :=
  mkMilestone (milestone_id m) (ms_project_id m) (ms_card_id m)
    (match mu_start_at u with Some t => t | None => start_at m end)
    (if has_end_at u then mu_end_at u else end_at m)
    (match mu_all_day u with Some b => b | None => all_day m end)
    (if has_kind u then mu_kind u else ms_kind m)
    (if has_description u then mu_description u else ms_description m)
    (ms_created_at m) (ms_updated_at m).
Definition set_ms_updated_at (t : Z) (m : Milestone) : Milestone :=
  mkMilestone (milestone_id m) (ms_project_id m) (ms_card_id m) (start_at m) (end_at m) (all_day m)
    (ms_kind m) (ms_description m) (ms_created_at m) t.

(** [*position = updated] at the first milestone with the id. *)
Fixpoint replace_first (id : string) (m : Milestone) (ms : list Milestone) : list Milestone :=
  match ms with
  | [] => []
  | x :: ms => if String.eqb (milestone_id x) id then m :: ms else x :: replace_first id m ms
  end.

Definition update_milestone (project_id card_id_ milestone_id_ : string) (update : MilestoneUpdate)
    (updated_at_ : Z) : M Store (option Milestone) :=
  let* found := read_db (fun db => CardRepo.get db card_id_) in
  match found with
  | None => mret None
  | Some card =>
      if negb (String.eqb (card_project_id card) project_id) || card_deleted card then mret None
      else
        let* ms := read_db (fun db => MilestoneRepo.list_for_card db project_id card_id_) in
        match List.find (fun m => String.eqb (milestone_id m) milestone_id_) ms with
        | None => mret None
        | Some old =>
            let updated := apply_update update old in
            when (match end_at updated with Some e => Z.ltb e (start_at updated) | None => false end)
              (throw (InvalidArgument "milestone end_at must not be before start_at")) ;;;
            if bool_decide (updated = old) then mret (Some old)
            else
              let updated := set_ms_updated_at updated_at_ updated in
              let ms := replace_first milestone_id_ updated ms in
              let* project := require_project project_id in
              io (open_repository project) ;;;
              check_live_path card ;;;
              let* file := io (read_card_file project (rel_path card)) in
              io (write_card_file project (set_card_updated_at updated_at_ card) (pf_links file.2) ms
                    (pf_body file.2) ;;;
                  stage_card project (rel_path card)) ;;;
              in_tx (MilestoneRepo.replace_for_card project_id card_id_ ms) ;;;
              in_tx (CardRepo.touch_updated card_id_ updated_at_) ;;;
              io (commit ("Update milestone for " +:+ title card)) ;;;
              mret (Some updated)
        end
  end.

(** ** Changing several cards *)

Definition placement_change (project : Project) (placed : Card) : M Store CardChange :=
  check_live_path placed ;;;
  let* file := io (read_card_file project (rel_path placed)) in
  let* links := read_db (fun db => LinkRepo.list_outgoing db (card_project_id placed) (card_id placed)) in
  mret (mkChange placed (mkParsed placed links (pf_milestones file.2) (pf_body file.2) (has_front_matter file.2))).

Fixpoint placement_changes (project : Project) (placements : list Card) : M Store (list CardChange) :=
  match placements with
  | [] => mret []
  | card :: placements =>
      let* change := placement_change project card in
      let* rest := placement_changes project placements in
      mret (change :: rest)
  end.

(** The overload that takes the card and the cards that make room for it. *)
Definition apply_placed (project : Project) (current : Card) (target : ParsedCardFile)
    (placements : list Card) (message : string) : M Store unit :=
  let* rest := placement_changes project placements in
  apply_card_changes md_parse project (mkChange current target :: rest) message.

Definition with_card (card : Card) (links : list CardLink) (parsed : ParsedCardFile) : ParsedCardFile :=
  mkParsed card links (pf_milestones parsed) (pf_body parsed) (has_front_matter parsed).

Definition move_to (project_id card_id_ : string) (request : CardPlacementRequest) (updated_at_ : Z)
    : M Store CardMoveResult :=
  let* found := read_db (fun db => CardRepo.get db card_id_) in
  match found with
  | None => throw (Runtime "card_not_found")
  | Some card =>
      when (card_deleted card) (throw (Runtime "card_not_found")) ;;;
      when (negb (String.eqb (card_project_id card) project_id))
        (throw (Runtime "cross_project_move_forbidden")) ;;;
      let* project := require_project project_id in
      let* resolved := read_db (fun db => CardPlacementResolver.resolve db project_id card_id_ request updated_at_) in
      let* placement := lift resolved in
      let* found := read_db (fun db => CardRepo.get db card_id_) in
      match found with
      | None => throw (Runtime "card_not_found")
      | Some card =>
          let moves := negb (opt_eqb (result_parent placement) (parent_card_id card)) ||
                       negb (f64_eqb (result_sort_key placement) (sort_key card)) in
          if negb moves && bool_decide (sibling_changes placement = [])
          then mret (mkMoveResult card (moved_into_title placement))
          else
            io (open_repository project) ;;;
            check_live_path card ;;;
            let destination := set_card_parent (result_parent placement) card in
            let* valid := read_db (fun db => validate_card_parent db destination) in
            lift valid ;;;
            let* file := io (read_card_file project (rel_path card)) in
            let* links := read_db (fun db => LinkRepo.list_outgoing db (card_project_id card) card_id_) in
            let target := set_card_updated_at updated_at_
              (set_card_sort_key (result_sort_key placement) destination) in
            apply_placed project card (with_card target links file.2) (sibling_changes placement)
              ("Move card " +:+ title card) ;;;
            let* after := require_card card_id_ in
            mret (mkMoveResult after (moved_into_title placement))
      end
  end.

Definition trashed_change (project : Project) (deleted_at_ : Z) (live : Card) : M Store CardChange :=
  let* change := placement_change project live in
  let target := cc_target change in
  mret (mkChange (cc_current change)
    (set_pf_card (set_card_updated_at deleted_at_ (set_card_deleted_at (Some deleted_at_) (pf_card target))) target)).

Fixpoint trashed_changes (project : Project) (deleted_at_ : Z) (cards_ : list Card) : M Store (list CardChange) :=
  match cards_ with
  | [] => mret []
  | card :: cards_ =>
      let* change := trashed_change project deleted_at_ card in
      let* rest := trashed_changes project deleted_at_ cards_ in
      mret (change :: rest)
  end.

(** One parent of the walk through the subtree: [visited], [pending] (its back first) and
    the live cards found so far. *)
Fixpoint visit_children (children : list Card) (visited : gset string) (pending : list string)
    (found : list Card) : gset string * list string * list Card :=
  match children with
  | [] => (visited, pending, found)
  | child :: children =>
      if bool_decide (card_id child ∈ visited) then visit_children children visited pending found
      else visit_children children ({[card_id child]} ∪ visited) (card_id child :: pending)
             (if card_deleted child then found else found ++ [child])
  end.

(** [while (!pending.empty())]: every card enters [pending] at most once. *)
Fixpoint walk_subtree (fuel : nat) (all : list Card) (visited : gset string) (pending : list string)
    (found : list Card) : option (list Card) :=
  match pending with
  | [] => Some found
  | parent :: pending =>
      match fuel with
      | O => None
      | S fuel =>
          let '(visited, pending, found) :=
            visit_children (list_filter (fun c => sql_eq_opt (parent_card_id c) parent) all) visited pending found in
          walk_subtree fuel all visited pending found
      end
  end.
Definition live_descendants (all : list Card) (id : string) : option (list Card) :=
  walk_subtree (S (length all)) all {[id]} [id] [].

Definition trash_message (card : Card) (descendants : nat) : string :=
  match descendants with
  | O => "Delete card " +:+ title card
  | n => "Delete card " +:+ title card +:+ " and " +:+ pretty (N.of_nat n) +:+
         (if Nat.eqb n 1 then " descendant" else " descendants")
  end.

Definition trash (card_id_ : string) (deleted_at_ : Z) (children : TrashChildren) : M Store unit :=
  let* card := require_card card_id_ in
  let* project := require_project (card_project_id card) in
  let* card := require_card card_id_ in
  when (card_deleted card) (throw (Runtime "card already deleted")) ;;;
  io (open_repository project) ;;;
  check_live_path card ;;;
  match children with
  | Promote =>
      let* change := trashed_change project deleted_at_ card in
      let* promoted := read_db (fun db => promoted_card_children db card deleted_at_) in
      let* placements := lift promoted in
      apply_placed project card (cc_target change) placements ("Delete card " +:+ title card)
  | TrashSubtree =>
      let* all := read_db (fun db => CardRepo.list_all db (project_id project)) in
      let* change := trashed_change project deleted_at_ card in
      match live_descendants all card_id_ with
      | None => throw (Runtime "out of fuel")
      | Some found =>
          let* changes := trashed_changes project deleted_at_ found in
          apply_card_changes md_parse project (change :: changes) (trash_message card (length found))
      end
  end.

Definition plan_hierarchy_repair (project_id : string) : M Store HierarchyRepairPlan :=
  let* project := require_project project_id in
  let* plan := read_db (fun db => HierarchyRepair.plan_hierarchy_repair db project_id 0) in
  lift plan.

Definition repair_hierarchy (project_id : string) (updated_at_ : Z) : M Store HierarchyRepairPlan :=
  let* project := require_project project_id in
  let* planned := read_db (fun db => HierarchyRepair.plan_hierarchy_repair db project_id updated_at_) in
  let* plan := lift planned in
  if bool_decide (placements plan = []) then mret plan
  else
    io (open_repository project) ;;;
    let* changes := placement_changes project (placements plan) in
    let n := length (moved_card_ids plan) in
    apply_card_changes md_parse project changes
      ("Repair card hierarchy: " +:+ pretty (N.of_nat n) +:+
       (if Nat.eqb n 1 then " hidden card made reachable" else " hidden cards made reachable")) ;;;
    mret plan.

Definition restore (card_id_ : string) (updated_at_ : Z) : M Store unit :=
  let* card := require_card card_id_ in
  let* project := require_project (card_project_id card) in
  let* card := require_card card_id_ in
  when (negb (card_deleted card)) (throw (Runtime "card is not deleted")) ;;;
  io (open_repository project) ;;;
  let* live_path := lift (card_rel_path card_id_) in
  let* trash_path := lift (card_trash_rel_path card_id_) in
  when (negb (String.eqb (rel_path card) live_path) && negb (String.eqb (rel_path card) trash_path))
    (throw path_error) ;;;
  let* file := io (read_card_file project trash_path) in
  let* links := read_db (fun db => LinkRepo.list_outgoing db (card_project_id card) card_id_) in
  let target := set_card_updated_at updated_at_ (set_card_deleted_at None card) in
  let* placed := read_db (fun db => restored_card_placement db target updated_at_) in
  let* placed := lift placed in
  apply_placed project card (with_card placed.1 links file.2) placed.2 ("Restore card " +:+ title card).

Definition own_link (project_id id : string) (l : CardLink) : CardLink :=
  mkCardLink project_id id (to_card_id l) (to_type l) (link_kind l) (link_label l) (link_created_at l).
Definition own_milestone (project_id id : string) (updated_at_ : Z) (m : Milestone) : Milestone :=
  mkMilestone (milestone_id m) project_id id (start_at m) (end_at m) (all_day m) (ms_kind m)
    (ms_description m) (ms_created_at m) updated_at_.

Definition restore_version (card_id_ historical_oid : string) (updated_at_ : Z) : M Store unit :=
  when (String.eqb historical_oid "") (throw (InvalidArgument "historical_oid is required")) ;;;
  let* current := require_card card_id_ in
  let* project := require_project (card_project_id current) in
  let* current := require_card card_id_ in
  io (open_repository project) ;;;
  let* expected := lift (card_rel_path card_id_) in
  let* trash_path := lift (card_trash_rel_path card_id_) in
  when (negb (String.eqb (rel_path current) expected) &&
        negb (card_deleted current && String.eqb (rel_path current) trash_path)) (throw path_error) ;;;
  let* live_raw := io (query (fun _ => Ok tt) ;;; read_blob_at historical_oid expected) in
  let* raw := match live_raw with
              | Some _ => mret live_raw
              | None => io (read_blob_at historical_oid trash_path)
              end in
  match raw with
  | None => throw (Runtime "historical card content is missing")
  | Some raw =>
      let historical_is_trash := bool_decide (live_raw = None) in
      let* plain := io (decode_card_blob project raw) in
      when (existsb (Ascii.eqb "000") (bytes_of plain)) (throw (Runtime "historical card content is binary")) ;;;
      let parsed := parse_card_file plain in
      when (negb (has_front_matter parsed) || negb (String.eqb (card_id (pf_card parsed)) card_id_) ||
            negb (String.eqb (card_project_id (pf_card parsed)) (card_project_id current)))
        (throw (Runtime "historical card content is malformed")) ;;;
      let h := pf_card parsed in
      let restored := mkCard (card_id current) (card_project_id current) (title h) expected (parent_card_id h)
        (sort_key h) (created_at current) updated_at_
        (if historical_is_trash then Some updated_at_ else None) in
      let* placed := read_db (fun db =>
        if historical_is_trash
        then let? children := promoted_card_children db current updated_at_ in Ok (restored, children)
        else restored_card_placement db restored updated_at_) in
      let* placed := lift placed in
      apply_placed project current
        (mkParsed placed.1
           (map (own_link (card_project_id restored) (card_id restored)) (pf_links parsed))
           (map (own_milestone (card_project_id restored) (card_id restored) updated_at_) (pf_milestones parsed))
           (pf_body parsed) (has_front_matter parsed))
        placed.2 ("Restore card " +:+ title placed.1)
  end.

Definition hard_delete (card_id_ : string) : M Store unit :=
  let* card := require_card card_id_ in
  when (negb (card_deleted card)) (throw (Runtime "card is not deleted")) ;;;
  let* project := require_project (card_project_id card) in
  io (open_repository project) ;;;
  let* trash_rel := lift (card_trash_rel_path (card_id card)) in
  io (let* there := fs_exists (Work trash_rel) in
      when there (fs_remove (Work trash_rel) ;;; remove_path trash_rel)) ;;;
  in_tx (LinkRepo.delete_links_from (card_project_id card) (card_id card)) ;;;
  in_tx (LinkRepo.delete_links_to_typed (card_project_id card) (card_id card) "card") ;;;
  in_tx (TagRepo.delete_tags_for_card (card_project_id card) (card_id card)) ;;;
  in_tx (MilestoneRepo.delete_for_card (card_project_id card) (card_id card)) ;;;
  in_tx (CardRepo.remove (card_id card)) ;;;
  io (commit ("Permanently delete card " +:+ title card)).

(** ** Reading *)

Definition get (card_id_ : string) : M Store (option Card) := read_db (fun db => CardRepo.get db card_id_).

Definition get_content (card : Card) : M Store (option string) :=
  let* project := require_project (card_project_id card) in
  io open_or_init ;;;
  read_card_content_locked project card.

Fixpoint complete_records (project : Project) (metadata : list Card) : M Store (list CompleteCardRecord) :=
  match metadata with
  | [] => mret []
  | card :: metadata =>
      let* content := read_card_content_locked project card in
      match content with
      | None => throw (Runtime ("card content missing: " +:+ card_id card))
      | Some content =>
          let* rest := complete_records project metadata in
          mret (mkComplete card content :: rest)
      end
  end.

Definition list_complete_page (project_id : string) (after_card_id : option string) (limit : Z)
    : M Store CompleteCardPage :=
  when (Z.leb limit 0) (throw (InvalidArgument "limit must be positive")) ;;;
  let* project := require_project project_id in
  io open_or_init ;;;
  let* metadata := read_db (fun db => CardRepo.list_page_by_card_id db project_id after_card_id (limit + 1)) in
  let* metadata := lift metadata in
  let more := Z.ltb limit (Z.of_nat (length metadata)) in
  let page := if more then take (Z.to_nat limit) metadata else metadata in
  let* records := complete_records project page in
  mret (mkCompletePage records (if more then card_id <$> last page else None)).

Definition list_collection_page (project_id : string) (query : CardRepo.CardPageQuery) (limit : Z)
    (include_content : bool) : M Store CollectionCardPage :=
  if negb include_content then
    let* page := read_db (fun db => CollectionPages.list_collection_page db project_id query limit) in
    let* page := lift page in
    mret (mkCollectionPage (map (fun c => mkComplete c "") (CollectionPages.page_cards page))
            (CollectionPages.next_cursor page))
  else
    when (Z.leb limit 0 || Z.ltb 1000 limit) (throw (InvalidArgument "limit must be between 1 and 1000")) ;;;
    let* project := require_project project_id in
    io open_or_init ;;;
    let* page := read_db (fun db => CollectionPages.list_collection_page db project_id query limit) in
    let* page := lift page in
    let* records := complete_records project (CollectionPages.page_cards page) in
    mret (mkCollectionPage records (CollectionPages.next_cursor page)).

(** ** Tags *)

(** [get_content(card).value_or("")] *)
Definition content_or_empty (card : Card) : M Store bytes :=
  let* _ := require_project (card_project_id card) in
  let* content := get_content card in
  mret (bytes_of (default "" content)).

Definition add_tag (card_id_ tag : string) (updated_at_ : Z) : M Store AddTagResult :=
  if negb (TagExtractor.is_valid_tag (bytes_of tag)) then mret AddInvalidTag
  else
    let normalized := TagExtractor.normalize_tag (bytes_of tag) in
    let* card := require_card card_id_ in
    let* content := content_or_empty card in
    if bool_decide (normalized ∈ TagExtractor.extract_tags md_parse content) then mret AlreadyPresent
    else
      update_content card_id_ (string_of (TagLineEditor.upsert_trailing_tag_line content normalized)) None
        updated_at_ ;;;
      mret Added.

Definition remove_tag (card_id_ tag : string) (updated_at_ : Z) : M Store RemoveTagResult :=
  if negb (TagExtractor.is_valid_tag (bytes_of tag)) then mret RemoveInvalidTag
  else
    let normalized := TagExtractor.normalize_tag (bytes_of tag) in
    let* card := require_card card_id_ in
    let* content := content_or_empty card in
    let removal := TagLineEditor.remove_from_trailing_tag_line content normalized in
    match TagLineEditor.outcome removal with
    | TagLineEditor.Removed =>
        update_content card_id_ (string_of (TagLineEditor.new_body removal)) None updated_at_ ;;;
        mret TagRemoved
    | TagLineEditor.NotOnTrailingLine =>
        mret (if bool_decide (normalized ∈ TagExtractor.extract_tags md_parse content)
              then PresentOutsideEditableTagLine else NotPresent)
    end.

Definition list_editable_tags (card_id_ : string) : M Store (list string) :=
  let* card := require_card card_id_ in
  let* content := get_content card in
  mret (map string_of (TagLineEditor.tags_on_trailing_line (bytes_of (default "" content)))).

End CardStore.
End CardStore.
