(* ===== verification/Sealed.v ===== *)
(** * Encrypted projects stay encrypted

    An invariant of every entry point of the card store ([CardStore.cpp]), of the journal
    ([CardMutation.cpp]) and of the rebuild ([Rebuilder.cpp]): what a store of encrypted
    projects leaves in the working tree, in Git's objects and in the journal is text that
    the cipher produced or that was there before, whatever the environment does. *)

From stdpp Require Import base list sets strings numbers gmap sorting.
From S2P Require Import Prelude Double Model Text Tags Database CardRepo Uuid.
From S2P Require Import CardPages CardPlacement LinkRepo TagRepo MilestoneRepo ProjectRepo CardFrontMatter Disk Runs Mutation Privacy.
From S2P Require Import CardChanges Json ReferenceJson ResourceManifest ResourceRepo LocationRepo RebuildResources Rebuild Store ReferenceGit ReferenceYaml.
Import Disk Runs CardMutation CardFrontMatter ProjectPrivacy CardStoreChanges.

Module SealedFacts.

(** [m] keeps the invariant, and what it returns is in [Q]. *)
Definition returns {S A} (I : S -> Prop) (m : M S A) (Q : A -> Prop) : Prop :=
  hoare I m (fun a s => I s /\ Q a) I.
Abbreviation keeps I m := (returns I m (fun _ => True)).

Section Rules.
Context {S : Type} (I : S -> Prop).

Lemma returns_bind {A B} (m : M S A) (f : A -> M S B) Q R :
  returns I m Q -> (forall a, Q a -> returns I (f a) R) -> returns I (bind m f) R.
Proof. intros Hm Hf. eapply hoare_bind; [exact Hm|]. intros a s [H1 H2]. by apply (Hf a H2). Qed.
Lemma keeps_bind {A B} (m : M S A) (f : A -> M S B) R :
  keeps I m -> (forall a, returns I (f a) R) -> returns I (bind m f) R.
Proof. intros Hm Hf. eapply returns_bind; [exact Hm|]. auto. Qed.
Lemma returns_weaken {A} (m : M S A) (Q R : A -> Prop) :
  returns I m Q -> (forall a, Q a -> R a) -> returns I m R.
Proof. intros H HQ. eapply hoare_conseq; [exact H|done| |done]. intros a s [? ?]. auto. Qed.
Lemma returns_keeps {A} (m : M S A) Q : returns I m Q -> keeps I m.
Proof. intros H. by eapply returns_weaken. Qed.
Lemma returns_mret {A} (a : A) (Q : A -> Prop) : Q a -> returns I (mret a) Q.
Proof. by intros H s Hs. Qed.
Lemma returns_throw {A} e (Q : A -> Prop) : returns I (throw e) Q.
Proof. by intros s Hs. Qed.
Lemma returns_gets {A} (f : S -> A) (Q : A -> Prop) : (forall s, I s -> Q (f s)) -> returns I (gets f) Q.
Proof. intros H s Hs. split; [done|by apply H]. Qed.
Lemma returns_modify f : (forall s, I s -> I (f s)) -> keeps I (modify f).
Proof. intros H s Hs. split; [by apply H|done]. Qed.
Lemma returns_lift {A} (r : result A) (Q : A -> Prop) : (forall a, r = Ok a -> Q a) -> returns I (lift r) Q.
Proof. intros H s Hs. unfold lift. destruct r; [|done]. split; [done|by apply H]. Qed.
Lemma keeps_when b m : keeps I m -> keeps I (when b m).
Proof. intros H. destruct b; [done|by apply returns_mret]. Qed.
Lemma keeps_for_each {A} (l : list A) f : (forall x, x ∈ l -> keeps I (f x)) -> keeps I (for_each l f).
Proof.
  induction l as [|x l IH]; intros H; [by apply returns_mret|]. cbn [for_each].
  apply keeps_bind; [apply H; by left|]. intros _. apply IH. intros y Hy. apply H. by right.
Qed.
Lemma returns_try {A} (m : M S A) h Q : returns I m Q -> (forall e, returns I (h e) Q) -> returns I (try_catch m h) Q.
Proof. intros Hm Hh. eapply hoare_try; [exact Hm|exact Hh]. Qed.
End Rules.

Create HintDb sealed.
#[export] Hint Resolve returns_throw keeps_when : sealed.

(** One step of a computation none of whose results matters. *)
Ltac keep1 :=
  first [ progress intros | solve [auto with sealed] | apply keeps_bind | apply keeps_when
        | apply keeps_for_each | by apply returns_mret | by apply returns_lift | by apply returns_gets | case_match ].
Ltac keep := repeat keep1.

Section Sealed.
Context {E : SqlEngine} `{!SqlEngineLaws E} {Y : Yaml} {L : LibGit2} {J : MsgPack} `{!MsgPackLaws J} {V : Privacy} {D : Directory} {N : JsonLib}.

(** The texts that are allowed: those that the cipher returns among them. *)
Context (allowed : string -> Prop) (o : nat -> Outcome).
Context (Hcipher : forall n project key plain s, encrypt_project_blob n project key plain = Ok s -> allowed s).
(** What Git's filters make of them, and what a failing write leaves behind. *)
Context (Hclean : forall s, allowed s -> allowed (clean s)).
Context (Hleft : forall n s, o n = Short s \/ o n = Throws (Some s) -> allowed s).

Definition saved_ok (saved : Saved) : Prop :=
  forall kf s, kf ∈ saved_files saved -> before kf.2 = Some s -> allowed s.
Definition journal_ok (s : string) : Prop := forall saved, from_msgpack s = Some saved -> saved_ok saved.
Definition loc_ok (l : Loc) (s : string) : Prop :=
  match l with Work _ => allowed s | IndexFile | JournalTmp | Outside _ => True | JournalFile => journal_ok s end.
Definition blobs_ok (g : Git) : Prop := forall b s, blobs g !! b = Some s -> allowed s.

Record sealed (d : Disk) : Prop := {
  sealed_files : forall l s, peek l d = Some s -> loc_ok l s;
  sealed_blobs : forall g, git d = Some g -> blobs_ok g
}.
Definition sealed_world (w : World) : Prop := sealed (disk w) /\ outcomes w = o.

Lemma sealed_poke l v d : sealed d -> (forall s, v = Some s -> loc_ok l s) -> sealed (poke l v d).
Proof.
  intros [H1 H2] Hv. split; [|by destruct l].
  intros l' s Hp. destruct (decide (l = l')) as [<-|Hne].
  - rewrite DiskFacts.peek_poke in Hp. by apply Hv.
  - rewrite peek_poke_ne in Hp by done. by apply H1.
Qed.

Lemma sealed_set_git g d : sealed d -> blobs_ok g -> sealed (set_git g d).
Proof.
  intros [H1 H2] Hg. split; [|by intros g' [= <-]].
  intros l s Hp. apply (H1 l s). by destruct l.
Qed.

Abbreviation WI := sealed_world.

Lemma returns_attempt {A} what (m : IO A) Q : returns WI m Q -> returns WI (attempt what m) Q.
Proof. intros H w Hw. unfold attempt. destruct (outcomes w (tick w)); [by apply (H (advance w))|done|by apply (H (advance w))]. Qed.
Lemma keeps_exists l : keeps WI (fs_exists l).
Proof. apply returns_attempt. by apply returns_gets. Qed.
Lemma keeps_create_directories l : keeps WI (fs_create_directories l).
Proof. apply returns_attempt. by apply returns_mret. Qed.
Lemma returns_read l : returns WI (fs_read_file l) (loc_ok l).
Proof.
  apply returns_attempt. intros w Hw. destruct (peek l (disk w)) as [s|] eqn:Hp; [|done].
  split; [done|]. by apply (sealed_files _ (proj1 Hw)).
Qed.
#[local] Hint Extern 1 (_ <> JournalFile) => discriminate : sealed.
Lemma keeps_write l s : loc_ok l s -> l <> JournalFile -> keeps WI (fs_write_file l s).
Proof.
  intros Hs Hl.
  assert (forall n s, o n = Short s \/ o n = Throws (Some s) -> loc_ok l s) as Hll
    by (intros n s' H; apply Hleft in H; by destruct l).
  intros w [Hw Ho]. unfold fs_write_file.
  assert (forall v, (forall s, v = Some s -> loc_ok l s) -> WI (on_disk (poke l v) (advance w))) as H
    by (intros v Hv; split; [by apply sealed_poke|done]).
  destruct (outcomes w (tick w)) as [|[x|]|x] eqn:Hx; rewrite Ho in Hx.
  - split; [|done]. apply H. by intros ? [= <-].
  - apply H. intros ? [= <-]. apply (Hll (tick w)). by right.
  - done.
  - split; [|done]. apply H. intros ? [= <-]. apply (Hll (tick w)). by left.
Qed.
Lemma keeps_remove l : keeps WI (fs_remove l).
Proof. apply returns_attempt, returns_modify. intros w [Hw Ho]. split; [by apply sealed_poke|done]. Qed.
Lemma keeps_rename a b : (forall s, loc_ok a s -> loc_ok b s) -> keeps WI (fs_rename a b).
Proof.
  intros H. apply returns_attempt. intros w [Hw Ho]. destruct (peek a (disk w)) as [s|] eqn:Hp; [|done].
  split; [|done]. split; [|done]. apply sealed_poke; [by apply sealed_poke|].
  intros ? [= <-]. apply H. by apply (sealed_files _ Hw).
Qed.
Lemma keeps_query {A} (f : Git -> result A) : keeps WI (query f).
Proof. apply returns_attempt. intros w Hw. destruct (git (disk w)) as [g|]; [|done]. by destruct (f g). Qed.
Lemma keeps_update_git what f : (forall g, blobs_ok g -> blobs_ok (f g)) -> keeps WI (update_git what f).
Proof.
  intros H. apply returns_attempt. intros w [Hw Ho]. destruct (git (disk w)) as [g|] eqn:Hg; [|done].
  split; [|done]. split; [|done]. apply sealed_set_git; [done|]. apply H. by apply (sealed_blobs _ Hw).
Qed.
Lemma keeps_index_load : keeps WI index_load.
Proof. apply returns_attempt. intros w Hw. by destruct (index_parse _). Qed.
Lemma keeps_index_store i : keeps WI (index_store i).
Proof. apply returns_attempt, returns_modify. intros w [Hw Ho]. split; [by apply sealed_poke|done]. Qed.
Lemma keeps_cached i : keeps WI (modify (set_cached i)).
Proof. by apply returns_modify. Qed.
#[local] Hint Resolve keeps_exists keeps_create_directories keeps_write keeps_remove keeps_query
  keeps_index_load keeps_index_store keeps_cached : sealed.

Lemma keeps_open_or_init : keeps WI open_or_init.
Proof.
  apply keeps_bind; [auto with sealed|]. intros _. apply returns_attempt, returns_modify.
  intros w [Hw Ho]. split; [|done]. cbn. destruct (git (disk w)) eqn:Hg; [done|].
  apply sealed_set_git; [done|]. intros b s H. cbn in H. by rewrite lookup_empty in H.
Qed.
Lemma keeps_git_write p s : allowed s -> keeps WI (git_write_file p s).
Proof. intros H. unfold git_write_file. keep. Qed.
Lemma keeps_repository_index : keeps WI repository_index.
Proof. unfold repository_index. keep. Qed.
#[local] Hint Resolve keeps_open_or_init keeps_git_write keeps_repository_index : sealed.
Lemma keeps_index_add p i : keeps WI (index_add_bypath p i).
Proof.
  eapply returns_bind; [apply returns_read|]. intros s Hs. apply keeps_bind; [|keep].
  apply keeps_update_git. intros g Hg b c H. unfold add_blob in H; cbn [blobs] in H.
  apply lookup_insert_Some in H as [[_ <-]|[_ H]]; [by apply Hclean|by apply (Hg b)].
Qed.
#[local] Hint Resolve keeps_index_add : sealed.
Lemma keeps_stage_path p : keeps WI (stage_path p).
Proof. unfold stage_path. keep. Qed.
Lemma keeps_remove_path p : keeps WI (remove_path p).
Proof. unfold remove_path. keep. Qed.
Lemma keeps_index_add_all ps i : keeps WI (index_add_all ps i).
Proof. revert i. induction ps as [|p ps IH]; intros i; cbn [index_add_all]; keep. Qed.
#[local] Hint Resolve keeps_index_add_all : sealed.
Lemma keeps_stage_paths ps : keeps WI (stage_paths ps).
Proof. unfold stage_paths. keep. Qed.

(** Updates of the repository that touch no blob. *)
Lemma set_ref_blobs n oid g : blobs (set_ref n oid g) = blobs g.
Proof. unfold set_ref. repeat case_match; done. Qed.
Lemma keeps_commit m : keeps WI (commit m).
Proof.
  unfold commit. keep; apply keeps_update_git; intros g Hg b c; rewrite set_ref_blobs; apply Hg.
Qed.
Lemma keeps_set_remote n u : keeps WI (set_remote n u).
Proof. unfold set_remote. keep; by apply keeps_update_git. Qed.
Lemma keeps_read_blob_at c p : keeps WI (read_blob_at c p).
Proof. apply keeps_query. Qed.
#[local] Hint Resolve keeps_stage_path keeps_remove_path keeps_stage_paths keeps_commit keeps_set_remote
  keeps_read_blob_at : sealed.

(** ** The journal *)

Lemma returns_snapshot l : returns WI (snapshot l) (fun v => forall s, v = Some s -> loc_ok l s).
Proof.
  apply keeps_bind; [auto with sealed|]. intros []; [|by apply returns_mret].
  eapply returns_bind; [apply returns_read|]. intros s Hs. apply returns_mret. by intros ? [= <-].
Qed.
Lemma keeps_snapshot l : keeps WI (snapshot l).
Proof. eapply returns_keeps, returns_snapshot. Qed.
Lemma keeps_restore l v : (forall s, v = Some s -> loc_ok l s) -> l <> JournalFile -> keeps WI (restore l v).
Proof.
  intros H Hl. destruct v as [s|]; cbn [restore]; [|keep].
  apply keeps_bind; [auto with sealed|]. intros _. apply keeps_bind; [by apply keeps_write; [apply H|]|]. intros _.
  apply keeps_bind; [eapply returns_keeps, returns_read|keep].
Qed.
Lemma keeps_restore_index v : keeps WI (restore IndexFile v).
Proof. by apply keeps_restore. Qed.
#[local] Hint Resolve keeps_snapshot keeps_restore_index : sealed.
Lemma keeps_has_repo : keeps WI has_repo.
Proof. by apply returns_gets. Qed.
#[local] Hint Resolve keeps_has_repo : sealed.

Lemma journal_loc key l : journal_file_path key = Ok l -> l = Work key.
Proof. unfold journal_file_path. destruct (_ || _ || _ || _); [done|]. by intros [= <-]. Qed.

Lemma keeps_restore_files saved : saved_ok saved -> keeps WI (restore_original_files saved).
Proof.
  intros Hs. apply keeps_for_each. intros kf Hk. eapply returns_bind; [apply (returns_lift _ _ (fun l => l = Work kf.1))|].
  { intros l. apply journal_loc. }
  intros l ->. apply keeps_restore; [|done]. intros s Hb. by apply (Hs kf).
Qed.
Lemma keeps_undo_file saved kf : saved_ok saved -> kf ∈ saved_files saved -> keeps WI (undo_file kf).
Proof.
  intros Hs Hk. unfold undo_file. case_match; [|by apply returns_mret].
  eapply returns_bind; [apply (returns_lift _ _ (fun l => l = Work kf.1)); intros l; apply journal_loc|].
  intros l ->. apply keeps_bind; [auto with sealed|]. intros now. case_match; [|keep].
  apply keeps_restore; [|done]. intros s Hb. by apply (Hs kf).
Qed.
Lemma keeps_reset_branch saved : keeps WI (reset_branch saved).
Proof.
  unfold reset_branch. keep; apply keeps_update_git; intros g Hg; try case_match; try done;
    intros b c; rewrite set_ref_blobs; apply Hg.
Qed.
#[local] Hint Resolve keeps_restore_files keeps_reset_branch : sealed.
Lemma keeps_finish : keeps WI finish.
Proof. unfold finish. keep. Qed.
#[local] Hint Resolve keeps_finish : sealed.
Lemma keeps_rollback saved : saved_ok saved -> keeps WI (rollback saved).
Proof. intros Hs. unfold rollback, roll_back. keep. Qed.
Lemma keeps_recover_journal saved : saved_ok saved -> keeps WI (recover_journal saved).
Proof.
  intros Hs. unfold recover_journal, restore_unrelated_index.
  repeat (keep1 || apply (keeps_undo_file saved)); done.
Qed.
Lemma keeps_recover_files : keeps WI recover_files.
Proof.
  apply keeps_bind; [auto with sealed|]. intros b. apply keeps_when.
  eapply returns_bind; [apply returns_read|]. intros raw Hr. destruct (from_msgpack raw) as [saved|] eqn:Hf; [|keep].
  apply keeps_recover_journal. by apply Hr.
Qed.
(** The journal appears by renaming a file that was read back. *)
Lemma returns_reread l : hoare WI (fs_read_file l) (fun s w => WI w /\ peek l (disk w) = Some s) WI.
Proof.
  intros w Hw. unfold fs_read_file, attempt. destruct (outcomes w (tick w)) as [|left|x]; [|done|].
  all: cbn [disk advance]; destruct (peek l (disk w)) as [s|] eqn:Hp; done.
Qed.
Lemma keeps_write_journal saved : saved_ok saved -> keeps WI (write_journal saved).
Proof.
  intros Hs. unfold write_journal. apply keeps_bind; [by apply keeps_write|]. intros _.
  eapply hoare_bind; [apply returns_reread|]. intros s.
  destruct (String.eqb_spec s (to_msgpack saved)) as [->|Hne]; cbn [negb when]; [|by intros w [Hw _]].
  eapply hoare_bind; [apply (hoare_mret tt (fun _ w => WI w /\ peek JournalTmp (disk w) = Some (to_msgpack saved)))|].
  intros [] w [[Hw Ho] Hp]. unfold fs_rename, attempt. rewrite Ho. destruct (o (tick w)); [|done|].
  all: cbn [disk advance]; rewrite Hp; split; [|done]; split; [|done]; apply sealed_poke; [by apply sealed_poke|].
  all: intros ? [= <-] saved'; rewrite from_to_msgpack; by intros [= <-].
Qed.
Lemma keeps_begin saved : saved_ok saved -> keeps WI (begin saved).
Proof. intros Hs. apply keeps_bind; [by apply keeps_write_journal|]. unfold reset_index. keep. Qed.
Lemma keeps_preserve saved : keeps WI (preserve_unrelated_index saved).
Proof. unfold preserve_unrelated_index. keep. Qed.

Definition files_ok (files : list (string * SavedFile)) : Prop :=
  forall kf s, kf ∈ files -> before kf.2 = Some s -> allowed s.

Lemma json_set_in {A} k (v : A) l x : x ∈ json_set k v l -> x = (k, v) \/ x ∈ l.
Proof.
  induction l as [|[k' v'] l IH]; cbn [json_set]; [set_solver|].
  destruct (String.compare k k'); rewrite !list.elem_of_cons; naive_solver.
Qed.
Lemma json_get_in {A} k (l : list (string * A)) v : json_get k l = Some v -> exists k', (k', v) ∈ l.
Proof.
  induction l as [|[k' v'] l IH]; cbn [json_get]; [done|]. case_match.
  - intros [= ->]. exists k'. by left.
  - intros [k2 H2]%IH. exists k2. by right.
Qed.
Lemma files_ok_set k f files : files_ok files -> (forall s, before f = Some s -> allowed s) ->
  files_ok (json_set k f files).
Proof. intros H Hf kf s [->|Hin]%json_set_in Hs; [by apply Hf|by eapply H]. Qed.

Lemma returns_journal_paths paths files : files_ok files -> returns WI (journal_paths paths files) files_ok.
Proof.
  revert files. induction paths as [|p paths IH]; intros files H; cbn [journal_paths]; [by apply returns_mret|].
  eapply returns_bind; [apply (returns_lift _ _ (fun l => l = Work p)); intros l; apply journal_loc|]. intros l ->. eapply returns_bind; [apply returns_snapshot|].
  intros v Hv. apply IH, files_ok_set; [done|]. apply Hv.
Qed.
Lemma journal_changes_ok changes files files' :
  files_ok files -> journal_changes changes files = Ok files' -> files_ok files'.
Proof.
  revert files. induction changes as [|[p b] changes IH]; cbn [journal_changes]; intros files H; [by intros [= <-]|].
  destruct (json_get p files) as [f|] eqn:Hf; [|done]. apply IH. apply files_ok_set; [done|].
  intros s. apply json_get_in in Hf as [k Hk]. by apply (H _ _ Hk).
Qed.
Lemma returns_prepare paths changes : returns WI (prepare paths changes) saved_ok.
Proof.
  unfold prepare. apply keeps_bind; [auto with sealed|]. intros ex. apply keeps_bind; [auto with sealed|]. intros _.
  eapply returns_bind; [apply returns_journal_paths; intros ? ? []%elem_of_nil|]. intros files H.
  eapply (returns_bind _ _ _ files_ok).
  { apply returns_lift. intros files'. by apply journal_changes_ok. }
  intros files' H'. keep; apply returns_mret; by intros kf s; apply H'.
Qed.
Lemma keeps_finish_recovery : keeps WI finish_recovery.
Proof. apply keeps_finish. Qed.
#[local] Hint Resolve keeps_rollback keeps_begin keeps_preserve keeps_recover_files
  keeps_finish_recovery : sealed.

(** ** Card files *)

Lemma returns_encode project plain : encrypted project = true ->
  returns WI (encode_card_blob project plain) allowed.
Proof.
  intros He. unfold encode_card_blob. rewrite He. apply keeps_bind; [by apply returns_lift|]. intros key.
  apply returns_attempt. intros w Hw. destruct (encrypt_project_blob _ _ _ _) as [blob|e] eqn:Hb; [|done].
  split; [done|]. by eapply Hcipher.
Qed.
Lemma keeps_decode project blob : keeps WI (decode_card_blob project blob).
Proof. unfold decode_card_blob. keep. apply returns_attempt. by apply returns_lift. Qed.
Lemma keeps_assert_staged project paths : keeps WI (assert_project_staged_blobs_safe project paths).
Proof. unfold assert_project_staged_blobs_safe, assert_encryption_index_paths_safe. keep. Qed.
Lemma keeps_plan_changes changes : keeps WI (plan_changes changes).
Proof. induction changes as [|c changes IH]; cbn [plan_changes]; unfold plan_change; keep. Qed.
Lemma returns_card_write project record : encrypted project = true ->
  returns WI (card_write project record) (fun w => allowed w.2).
Proof.
  intros He. unfold card_write. apply keeps_bind; [by apply returns_lift|]. intros durable.
  eapply returns_bind; [by apply returns_encode|]. intros s Hs. by apply returns_mret.
Qed.
Lemma returns_card_writes project changes : encrypted project = true ->
  returns WI (card_writes project changes) (Forall (fun w => allowed w.2)).
Proof.
  intros He. induction changes as [|c changes IH]; cbn [card_writes]; [by apply returns_mret|].
  eapply returns_bind; [by apply returns_card_write|]. intros w Hw.
  eapply returns_bind; [apply IH|]. intros ws Hws. apply returns_mret. by constructor.
Qed.
#[local] Hint Resolve keeps_decode keeps_assert_staged keeps_plan_changes : sealed.
Lemma keeps_rename_card r : keeps WI (rename_card r).
Proof. unfold rename_card. keep. by apply keeps_rename. Qed.
Lemma keeps_write_card w : allowed w.2 -> keeps WI (write_card w).
Proof. intros H. unfold write_card. keep. eapply returns_keeps, returns_read. Qed.
#[local] Hint Resolve keeps_rename_card keeps_write_card : sealed.
Lemma keeps_change_files project saved renames writes message :
  saved_ok saved -> Forall (fun w => allowed w.2) writes ->
  keeps WI (change_files project saved renames writes message).
Proof.
  intros Hs Hw.
  assert (forall w, w ∈ writes -> keeps WI (write_card w)).
  { intros w Hin. apply keeps_write_card. rewrite list.Forall_forall in Hw. by apply Hw. }
  unfold change_files. keep.
Qed.

(** ** The index *)

(** The projects of the index are encrypted. *)
Definition db_ok (db : Db) : Prop := forall p, p ∈ projects db -> encrypted p = true.

Record sealed_store (s : Store) : Prop := {
  sealed_st_world : sealed_world (st_world s);
  sealed_st_db : db_ok (st_db s);
  sealed_st_tx : forall db, st_tx s = Some db -> db_ok db
}.
Abbreviation SI := sealed_store.

Lemma returns_io {A} (m : IO A) Q : returns WI m Q -> returns SI (io m) Q.
Proof.
  intros H s [H1 H2 H3]. unfold io. specialize (H _ H1). destruct (m (st_world s)) as [[a|e] w].
  - by destruct H.
  - done.
Qed.
Lemma keeps_in_tx {A} (m : Repo A) : preserves db_ok m -> keeps SI (in_tx m).
Proof.
  intros H s [H1 H2 H3]. unfold in_tx. destruct (st_tx s) as [db|] eqn:Htx.
  - specialize (H db (H3 _ eq_refl)). destruct (m db) as [r db'].
    assert (SI (mkStore (st_world s) (st_db s) (Some db'))) by (split; [done|done|by intros ? [= <-]]).
    by destruct r.
  - specialize (H _ H2). destruct (m (st_db s)) as [r db'].
    assert (SI (mkStore (st_world s) db' None)) by (by split). by destruct r.
Qed.
Lemma keeps_commit_tx : keeps SI commit_tx.
Proof.
  apply keeps_bind; [apply returns_io, returns_attempt; by apply returns_mret|]. intros _.
  apply returns_modify. intros s [H1 H2 H3]. split; cbn; [done| |done].
  destruct (st_tx s); [by apply H3|done].
Qed.
Lemma returns_with_tx {A} (m : M Store A) Q : returns SI m Q -> returns SI (with_tx m) Q.
Proof.
  intros H. apply keeps_bind.
  - apply keeps_bind; [apply returns_io, returns_attempt; by apply returns_mret|]. intros _.
    apply returns_modify. intros s [H1 H2 H3]. split; cbn; [done..|]. by intros ? [= <-].
  - intros _ s Hs. specialize (H s Hs). destruct (m s) as [[a|e] s'].
    + destruct H as [[H1 H2 H3] Ha]. by split.
    + destruct H as [H1 H2 H3]. by split.
Qed.
Lemma keeps_read_db {A} (f : Db -> A) : keeps SI (CardStore.read_db f).
Proof. by apply returns_gets. Qed.


(** No statement of the store changes the projects. *)
Definition same_projects (stmt : Db -> option Db) : Prop :=
  forall db db', stmt db = Some db' -> projects db' = projects db.
Lemma keeps_exec what stmt : same_projects stmt ->
  preserves db_ok (exec what stmt).
Proof.
  intros H db Hdb. unfold exec. destruct (stmt db) as [db'|] eqn:Hs; [|done].
  intros p. cbn. rewrite (H db db' Hs). apply Hdb.
Qed.
Ltac no_project :=
  unfold same_projects; intros; repeat case_match; simplify_eq; reflexivity.
Lemma keeps_insert_card c : same_projects (insert_card c).
Proof. unfold insert_card. no_project. Qed.
Lemma keeps_update_card id f : same_projects (update_card id f).
Proof. unfold update_card. no_project. Qed.
Lemma keeps_upsert_link l : same_projects (LinkRepo.upsert_link_row l).
Proof. unfold LinkRepo.upsert_link_row. no_project. Qed.
Lemma keeps_delete_links f : same_projects (LinkRepo.delete_where f).
Proof. unfold LinkRepo.delete_where. no_project. Qed.
Lemma keeps_insert_tag x : same_projects (TagRepo.insert_tag_row x).
Proof. unfold TagRepo.insert_tag_row. no_project. Qed.
Lemma keeps_delete_tags p c : same_projects (TagRepo.delete_tag_rows p c).
Proof. unfold TagRepo.delete_tag_rows. no_project. Qed.
Lemma keeps_insert_milestone m : same_projects (MilestoneRepo.insert_milestone_row m).
Proof. unfold MilestoneRepo.insert_milestone_row. no_project. Qed.
Lemma keeps_delete_milestones p c : same_projects (MilestoneRepo.delete_milestone_rows p c).
Proof. unfold MilestoneRepo.delete_milestone_rows. no_project. Qed.
Lemma keeps_delete_row f : (forall db, projects (f db) = projects db) ->
  same_projects (fun db => Some (f db)).
Proof. by intros H db db' [= <-]. Qed.
#[local] Hint Resolve keeps_exec keeps_insert_card keeps_update_card keeps_upsert_link keeps_delete_links
  keeps_insert_tag keeps_delete_tags keeps_insert_milestone keeps_delete_milestones keeps_delete_row : preserves.

Ltac keep_db := repeat first [ progress intros | solve [auto with preserves] | apply preserves_bind
  | apply preserves_when | apply preserves_for_each | case_match ].

Lemma keeps_repo_create c : preserves db_ok (CardRepo.create c).
Proof. unfold CardRepo.create. keep_db. Qed.
Lemma keeps_repo_update_title id t u : preserves db_ok (CardRepo.update_title id t u).
Proof. unfold CardRepo.update_title. keep_db. Qed.
Lemma keeps_touch id u : preserves db_ok (CardRepo.touch_updated id u).
Proof. unfold CardRepo.touch_updated. keep_db. Qed.
Lemma keeps_repo_remove id : preserves db_ok (CardRepo.remove id).
Proof. unfold CardRepo.remove. apply keeps_exec, keeps_delete_row. intros db. unfold delete_card_row. by destruct (card_exists _ _). Qed.
Lemma keeps_repo_move id p k u : preserves db_ok (CardRepo.move id p k u).
Proof. unfold CardRepo.move. keep_db. Qed.
Lemma keeps_restore_snapshot c : preserves db_ok (CardRepo.restore_snapshot c).
Proof. unfold CardRepo.restore_snapshot. keep_db. Qed.
Lemma keeps_upsert_links p c ls : preserves db_ok (LinkRepo.upsert_links p c ls).
Proof. unfold LinkRepo.upsert_links. keep_db. Qed.
Lemma keeps_delete_from p c : preserves db_ok (LinkRepo.delete_links_from p c).
Proof. unfold LinkRepo.delete_links_from. keep_db. Qed.
Lemma keeps_delete_to p c k : preserves db_ok (LinkRepo.delete_links_to_typed p c k).
Proof. unfold LinkRepo.delete_links_to_typed. keep_db. Qed.
Lemma keeps_set_tags p c ts n : preserves db_ok (TagRepo.set_tags_for_card p c ts n).
Proof. unfold TagRepo.set_tags_for_card. keep_db. Qed.
Lemma keeps_delete_card_tags p c : preserves db_ok (TagRepo.delete_tags_for_card p c).
Proof. unfold TagRepo.delete_tags_for_card. keep_db. Qed.
Lemma keeps_replace_milestones p c ms : preserves db_ok (MilestoneRepo.replace_for_card p c ms).
Proof. unfold MilestoneRepo.replace_for_card. keep_db. Qed.
Lemma keeps_delete_card_milestones p c : preserves db_ok (MilestoneRepo.delete_for_card p c).
Proof. unfold MilestoneRepo.delete_for_card. keep_db. Qed.
#[local] Hint Resolve keeps_repo_create keeps_repo_update_title keeps_touch keeps_repo_remove keeps_repo_move
  keeps_restore_snapshot keeps_upsert_links keeps_delete_from keeps_delete_to keeps_set_tags
  keeps_delete_card_tags keeps_replace_milestones keeps_delete_card_milestones : preserves.

(** Nor do those of the tables of resources. *)
Lemma keeps_resource_row r : same_projects (ResourceRepo.insert_resource_row r).
Proof. unfold ResourceRepo.insert_resource_row. no_project. Qed.
Lemma keeps_metadata_row m : same_projects (ResourceRepo.insert_metadata_row m).
Proof. unfold ResourceRepo.insert_metadata_row. no_project. Qed.
Lemma keeps_asset_row a : same_projects (ResourceRepo.insert_asset_row a).
Proof. unfold ResourceRepo.insert_asset_row. no_project. Qed.
Lemma keeps_placement_row p : same_projects (ResourceRepo.insert_placement_row p).
Proof. unfold ResourceRepo.insert_placement_row. no_project. Qed.
Lemma keeps_location_row l : same_projects (LocationRepo.upsert_location_row l).
Proof. unfold LocationRepo.upsert_location_row. no_project. Qed.
Lemma keeps_delete_locations f : same_projects (LocationRepo.delete_locations f).
Proof. unfold LocationRepo.delete_locations. no_project. Qed.
#[local] Hint Resolve keeps_resource_row keeps_metadata_row keeps_asset_row keeps_placement_row
  keeps_location_row keeps_delete_locations : preserves.
Lemma keeps_put_values id property i vs : preserves db_ok (ResourceRepo.put_values id property i vs).
Proof. revert i. induction vs as [|v vs IH]; intros i; cbn [ResourceRepo.put_values]; keep_db. Qed.
#[local] Hint Resolve keeps_put_values : preserves.
Lemma keeps_remove_resource id : preserves db_ok (ResourceRepo.remove id).
Proof. by apply keeps_exec, keeps_delete_row. Qed.
#[local] Hint Resolve keeps_remove_resource : preserves.
Lemma keeps_put_bundle b : preserves db_ok (ResourceRepo.put_bundle b).
Proof.
  unfold ResourceRepo.put_bundle, ResourceRepo.put_property, ResourceRepo.put_asset, ResourceRepo.put_placement. keep_db.
Qed.
Lemma keeps_put_location l : preserves db_ok (LocationRepo.put l).
Proof. unfold LocationRepo.put. keep_db. Qed.
#[local] Hint Resolve keeps_put_bundle keeps_put_location : preserves.

Context (md_parse : bytes -> list TagExtractor.MdEvent).

Lemma keeps_insert_manifests m : preserves db_ok (RebuildResources.insert_manifests m).
Proof. unfold RebuildResources.insert_manifests. keep_db. Qed.
Lemma keeps_index_card record : preserves db_ok (index_card md_parse record).
Proof. unfold index_card. keep_db. Qed.
Lemma keeps_exec_delete id : preserves db_ok (Rebuilder.exec_delete_project id).
Proof.
  unfold Rebuilder.exec_delete_project, RebuildResources.exec_delete_resources.
  keep_db; apply keeps_exec, keeps_delete_row; done.
Qed.
Lemma keeps_insert_record r : preserves db_ok (Rebuilder.insert_record md_parse r).
Proof. unfold Rebuilder.insert_record. keep_db. Qed.
#[local] Hint Resolve keeps_insert_manifests keeps_index_card keeps_exec_delete keeps_insert_record : preserves.
Lemma keeps_insert_round ids rs : preserves db_ok (Rebuilder.insert_round md_parse ids rs).
Proof. revert ids. induction rs as [|r rs IH]; intros ids; cbn [Rebuilder.insert_round]; keep_db. Qed.
#[local] Hint Resolve keeps_insert_round : preserves.
Lemma keeps_insert_rounds n ids rs : preserves db_ok (Rebuilder.insert_rounds md_parse n ids rs).
Proof. revert ids rs. induction n as [|n IH]; intros ids [|r rs]; cbn [Rebuilder.insert_rounds]; keep_db. Qed.
#[local] Hint Resolve keeps_insert_rounds : preserves.
Lemma keeps_insert_records rs : preserves db_ok (Rebuilder.insert_records md_parse rs).
Proof. unfold Rebuilder.insert_records, Rebuilder.insert_record_links. keep_db. Qed.
#[local] Hint Resolve keeps_insert_records : preserves.


(** ** The entry points *)

Abbreviation require_project := (CardStore.require_project md_parse).
#[local] Hint Resolve keeps_commit_tx keeps_read_db keeps_in_tx : sealed.
#[local] Hint Extern 5 (returns _ (io _) _) => apply returns_io : sealed.

Lemma keeps_decode_blob project raw : keeps WI (RebuildFiles.decode_blob_for_project project raw).
Proof. unfold RebuildFiles.decode_blob_for_project. keep. apply returns_attempt. by apply returns_lift. Qed.
Lemma keeps_collect_files base ext : keeps WI (RebuildFiles.collect_files base ext).
Proof.
  apply keeps_bind; [by apply returns_attempt, returns_mret|]. intros _. by apply returns_attempt, returns_gets.
Qed.
#[local] Hint Resolve keeps_decode_blob keeps_collect_files : sealed.
Lemma keeps_load_card_file project trash path : keeps WI (Rebuilder.load_card_file project trash path).
Proof.
  unfold Rebuilder.load_card_file. apply keeps_bind; [by eapply returns_keeps, returns_read|].
  intros raw. apply keeps_bind; [auto with sealed|]. intros plain. keep. by apply returns_attempt, returns_gets.
Qed.
Lemma keeps_load_card_files project trash paths : keeps WI (Rebuilder.load_card_files project trash paths).
Proof.
  induction paths as [|p paths IH]; cbn [Rebuilder.load_card_files]; [keep|].
  apply keeps_bind; [apply keeps_load_card_file|keep].
Qed.
#[local] Hint Resolve keeps_load_card_files : sealed.
Lemma keeps_load_cards project : keeps WI (Rebuilder.load_cards project).
Proof. unfold Rebuilder.load_cards. keep. Qed.
Lemma keeps_read_manifest {B} project (parse : string -> result B) path :
  keeps WI (RebuildResources.read_manifest project parse path).
Proof.
  apply returns_try; [|intros e; apply returns_throw].
  apply keeps_bind; [by eapply returns_keeps, returns_read|]. intros raw. keep.
Qed.
#[local] Hint Resolve keeps_read_manifest : sealed.
Lemma keeps_load_locations project ids paths : keeps WI (RebuildResources.load_locations project ids paths).
Proof. revert ids. induction paths as [|p paths IH]; intros ids; cbn [RebuildResources.load_locations]; unfold RebuildResources.load_location; keep. Qed.
Lemma keeps_load_resources project ids seen paths : keeps WI (RebuildResources.load_resources project ids seen paths).
Proof. revert ids seen. induction paths as [|p paths IH]; intros ids seen; cbn [RebuildResources.load_resources]; unfold RebuildResources.load_resource; keep. Qed.
#[local] Hint Resolve keeps_load_locations keeps_load_resources : sealed.
Lemma keeps_load_manifests project : keeps WI (RebuildResources.load_manifests project).
Proof. unfold RebuildResources.load_manifests. keep. Qed.
Lemma keeps_rebuild project : keeps SI (Rebuilder.rebuild_project md_parse project).
Proof.
  unfold Rebuilder.rebuild_project.
  apply keeps_bind; [apply returns_io; auto with sealed|]. intros _. apply returns_with_tx.
  apply keeps_bind; [|intros stats; keep; apply returns_io; auto with sealed].
  unfold Rebuilder.rebuild_project_in_transaction.
  apply keeps_bind; [by apply returns_io, returns_attempt, returns_mret|]. intros _.
  apply keeps_bind; [apply keeps_in_tx; auto with preserves|]. intros _.
  apply keeps_bind; [apply returns_io, keeps_load_manifests|]. intros m.
  apply keeps_bind; [apply keeps_in_tx; auto with preserves|]. intros _.
  apply keeps_bind; [apply returns_io, keeps_load_cards|]. intros rs.
  apply keeps_bind; [apply keeps_in_tx; auto with preserves|keep].
Qed.

Lemma returns_project id : returns SI (require_project id) (fun p => encrypted p = true).
Proof.
  unfold CardStore.require_project.
  eapply (returns_bind _ _ _ (fun p => forall project, p = Some project -> encrypted project = true)).
  { apply returns_gets. intros s [H1 H2 H3] project Hp.
    assert (db_ok (CardStore.current_db s)) as Hdb.
    { unfold CardStore.current_db. destruct (st_tx s); [by apply H3|done]. }
    apply Hdb. unfold ProjectRepo.get in Hp. apply head_Some_elem_of in Hp. by apply sql_select_elem in Hp as []. }
  intros [project|] Hp; [|auto with sealed]. apply keeps_bind; [by apply returns_gets|]. intros b.
  apply keeps_bind; [|intros _; apply returns_mret; by apply Hp].
  apply keeps_when, keeps_bind; [apply keeps_rebuild|keep].
Qed.

#[local] Hint Resolve keeps_rebuild : sealed.

Lemma keeps_open_repository project : keeps WI (CardStore.open_repository project).
Proof. unfold CardStore.open_repository. keep. Qed.
Lemma keeps_write_card_file project card links ms content : encrypted project = true ->
  keeps WI (CardStore.write_card_file project card links ms content).
Proof.
  intros He. unfold CardStore.write_card_file. eapply returns_bind; [by apply returns_encode|].
  intros raw Hr. auto with sealed.
Qed.
Lemma keeps_read_card_file project path : keeps WI (CardStore.read_card_file project path).
Proof.
  unfold CardStore.read_card_file. apply keeps_bind; [auto with sealed|]. intros b. apply keeps_bind; [keep|]. intros _.
  apply keeps_bind; [by eapply returns_keeps, returns_read|keep].
Qed.
Lemma keeps_stage_card project path : keeps WI (CardStore.stage_card project path).
Proof. unfold CardStore.stage_card. keep. Qed.
#[local] Hint Resolve keeps_open_repository keeps_write_card_file keeps_read_card_file keeps_stage_card : sealed.

Lemma keeps_read l : keeps WI (fs_read_file l).
Proof. eapply returns_keeps, returns_read. Qed.
#[local] Hint Resolve keeps_read : sealed.

(** One step of an entry point. *)
Ltac enter1 :=
  first [ progress intros | solve [auto with sealed] | eapply returns_bind; [apply returns_project|]
        | apply keeps_bind | apply keeps_when | apply keeps_for_each | apply returns_try | apply returns_io; solve [keep]
        | apply keeps_in_tx; solve [auto with preserves] | by apply returns_mret | by apply returns_lift
        | by apply returns_gets | case_match ].
Ltac enter := repeat enter1.

Lemma keeps_require_card id : keeps SI (CardStore.require_card id).
Proof. unfold CardStore.require_card. enter. Qed.
Lemma keeps_check_live_path card : keeps SI (CardStore.check_live_path card).
Proof. unfold CardStore.check_live_path. enter. Qed.
#[local] Hint Resolve keeps_require_card keeps_check_live_path : sealed.
Lemma keeps_read_content project card : keeps SI (CardStore.read_card_content_locked project card).
Proof.
  unfold CardStore.read_card_content_locked. apply keeps_bind; [auto with sealed|]. intros _. apply returns_io.
  apply keeps_bind; [auto with sealed|]. intros b. destruct (negb b); [keep|].
  apply keeps_bind; [by eapply returns_keeps, returns_read|keep].
Qed.
#[local] Hint Resolve keeps_read_content : sealed.

Lemma keeps_create card content key : keeps SI (CardStore.create md_parse card content key).
Proof. unfold CardStore.create. enter. Qed.

Lemma keeps_rewrite project raw card links ms body after : encrypted project = true -> keeps SI after ->
  keeps SI (CardStore.rewrite_card_file project raw card links ms body after).
Proof.
  intros He Ha. unfold CardStore.rewrite_card_file. eapply returns_bind; [by apply returns_io, returns_encode|].
  intros updated Hu. enter.
Qed.

Lemma keeps_apply project changes message : encrypted project = true ->
  keeps SI (apply_card_changes md_parse project changes message).
Proof.
  intros He. unfold apply_card_changes. apply keeps_bind; [auto with sealed|]. intros p.
  eapply returns_bind; [by apply returns_io, returns_card_writes|]. intros writes Hw.
  eapply returns_bind; [apply returns_io, returns_prepare|]. intros saved Hs.
  apply returns_with_tx. apply keeps_bind; [enter|]. intros _. unfold commit_changes.
  apply keeps_bind; [|auto with sealed]. apply returns_try.
  - apply keeps_bind; [by apply returns_io, keeps_change_files|auto with sealed].
  - intros e. unfold undo_changes. apply keeps_bind; [apply returns_io; keep|auto with sealed].
Qed.
#[local] Hint Resolve keeps_apply : sealed.

Ltac enter ::= repeat first [ match goal with |- returns _ (CardStore.rewrite_card_file _ _ _ _ _ _ _) _ => apply keeps_rewrite; [assumption|] end | enter1 ].

Context (generate_id : IdScheme -> nat -> result string) (uuid_v4 : nat -> string).

Lemma keeps_batch_item project pid ids n item : encrypted project = true ->
  keeps SI (CardStore.create_batch_item md_parse uuid_v4 project pid ids n item).
Proof. intros He. unfold CardStore.create_batch_item. enter. Qed.
#[local] Hint Resolve keeps_batch_item : sealed.
Lemma keeps_batch_items project pid ids n items : encrypted project = true ->
  keeps SI (CardStore.create_batch_items md_parse uuid_v4 project pid ids n items).
Proof. intros He. revert n. induction items as [|item items IH]; intros n; cbn [CardStore.create_batch_items]; enter. Qed.
#[local] Hint Resolve keeps_batch_items : sealed.
Lemma keeps_create_batch pid items message :
  keeps SI (CardStore.create_batch md_parse generate_id uuid_v4 pid items message).
Proof.
  unfold CardStore.create_batch. eapply returns_bind; [apply returns_project|]. intros project Hp.
  apply keeps_bind; [auto with sealed|]. intros _. apply keeps_bind; [enter|]. intros ids.
  apply returns_with_tx. enter.
Qed.
Lemma keeps_update_content id content t u : keeps SI (CardStore.update_content md_parse id content t u).
Proof. unfold CardStore.update_content. enter. Qed.
Lemma keeps_move id has parent key u : keeps SI (CardStore.move md_parse id has parent key u).
Proof. unfold CardStore.move. enter. Qed.
Lemma keeps_update_links id u : keeps SI (CardStore.update_links md_parse id u).
Proof. unfold CardStore.update_links. enter. Qed.
Lemma keeps_update_milestones id u : keeps SI (CardStore.update_milestones md_parse id u).
Proof. unfold CardStore.update_milestones. enter. Qed.
Lemma keeps_update_milestone pid id mid update u : keeps SI (CardStore.update_milestone md_parse pid id mid update u).
Proof. unfold CardStore.update_milestone. enter. Qed.
Lemma keeps_placement_change project placed : keeps SI (CardStore.placement_change project placed).
Proof. unfold CardStore.placement_change. enter. Qed.
#[local] Hint Resolve keeps_placement_change : sealed.
Lemma keeps_placement_changes project placed : keeps SI (CardStore.placement_changes project placed).
Proof. induction placed as [|c placed IH]; cbn [CardStore.placement_changes]; enter. Qed.
#[local] Hint Resolve keeps_placement_changes : sealed.
Lemma keeps_apply_placed project current target placed message : encrypted project = true ->
  keeps SI (CardStore.apply_placed md_parse project current target placed message).
Proof. intros He. unfold CardStore.apply_placed. enter. Qed.
Lemma keeps_trashed_change project t card : keeps SI (CardStore.trashed_change project t card).
Proof. unfold CardStore.trashed_change. enter. Qed.
#[local] Hint Resolve keeps_apply_placed keeps_trashed_change : sealed.
Lemma keeps_trashed_changes project t cs : keeps SI (CardStore.trashed_changes project t cs).
Proof. induction cs as [|c cs IH]; cbn [CardStore.trashed_changes]; enter. Qed.
#[local] Hint Resolve keeps_trashed_changes : sealed.
Lemma keeps_move_to pid id request u : keeps SI (CardStore.move_to md_parse pid id request u).
Proof. unfold CardStore.move_to. enter. Qed.
Lemma keeps_trash id t children : keeps SI (CardStore.trash md_parse id t children).
Proof. unfold CardStore.trash. enter. Qed.
Lemma keeps_plan_repair pid : keeps SI (CardStore.plan_hierarchy_repair md_parse pid).
Proof. unfold CardStore.plan_hierarchy_repair. enter. Qed.
Lemma keeps_repair pid u : keeps SI (CardStore.repair_hierarchy md_parse pid u).
Proof. unfold CardStore.repair_hierarchy. enter. Qed.
Lemma keeps_restore_card id u : keeps SI (CardStore.restore md_parse id u).
Proof. unfold CardStore.restore. enter. Qed.
Lemma keeps_restore_version id oid u : keeps SI (CardStore.restore_version md_parse id oid u).
Proof. unfold CardStore.restore_version. enter. Qed.
Lemma keeps_hard_delete id : keeps SI (CardStore.hard_delete md_parse id).
Proof. unfold CardStore.hard_delete. enter. Qed.
Lemma keeps_get_content card : keeps SI (CardStore.get_content md_parse card).
Proof. unfold CardStore.get_content. enter. Qed.
Lemma keeps_complete_records project cs : keeps SI (CardStore.complete_records project cs).
Proof. induction cs as [|c cs IH]; cbn [CardStore.complete_records]; enter. Qed.
#[local] Hint Resolve keeps_update_content keeps_get_content keeps_complete_records : sealed.
Lemma keeps_complete_page pid after limit : keeps SI (CardStore.list_complete_page md_parse pid after limit).
Proof. unfold CardStore.list_complete_page. enter. Qed.
Lemma keeps_collection_page pid query limit content :
  keeps SI (CardStore.list_collection_page md_parse pid query limit content).
Proof. unfold CardStore.list_collection_page. enter. Qed.
Lemma keeps_content_or_empty card : keeps SI (CardStore.content_or_empty md_parse card).
Proof. unfold CardStore.content_or_empty. enter. Qed.
#[local] Hint Resolve keeps_content_or_empty : sealed.
Lemma keeps_add_tag id tag u : keeps SI (CardStore.add_tag md_parse id tag u).
Proof. unfold CardStore.add_tag. enter. Qed.
Lemma keeps_remove_tag id tag u : keeps SI (CardStore.remove_tag md_parse id tag u).
Proof. unfold CardStore.remove_tag. enter. Qed.
Lemma keeps_list_tags id : keeps SI (CardStore.list_editable_tags md_parse id).
Proof. unfold CardStore.list_editable_tags. enter. Qed.
End Sealed.
End SealedFacts.

Module EncryptedProjects.
Import SealedFacts.

(** ** Sessions: calls of the store, and restarts *)

Inductive Call :=
| Create (card : Card) (content : string) (key : option double)
| CreateBatch (project : string) (items : list CardStore.BatchCardInput) (message : string)
| UpdateContent (card content : string) (title : option string) (at_ : Z)
| Move (card : string) (has_parent : bool) (parent : option string) (key : option double) (at_ : Z)
| MoveTo (project card : string) (request : CardPlacementResolver.CardPlacementRequest) (at_ : Z)
| UpdateLinks (card : string) (at_ : Z)
| UpdateMilestones (card : string) (at_ : Z)
| UpdateMilestone (project card milestone : string) (update : CardStore.MilestoneUpdate) (at_ : Z)
| Trash (card : string) (at_ : Z) (children : CardStore.TrashChildren)
| RepairHierarchy (project : string) (at_ : Z)
| Restore (card : string) (at_ : Z)
| RestoreVersion (card oid : string) (at_ : Z)
| HardDelete (card : string)
| AddTag (card tag : string) (at_ : Z)
| RemoveTag (card tag : string) (at_ : Z)
| GetContent (card : Card)
| ListCompletePage (project : string) (after : option string) (limit : Z)
| ListCollectionPage (project : string) (query : CardRepo.CardPageQuery) (limit : Z) (include_content : bool)
| ListEditableTags (card : string).

Section EncryptedProjects.
Context {E : SqlEngine} {Y : Yaml} {L : LibGit2} {J : MsgPack} {V : Privacy} {D : Directory} {N : JsonLib}.
Context (md_parse : bytes -> list TagExtractor.MdEvent)
  (generate_id : IdScheme -> nat -> result string) (uuid_v4 : nat -> string).

Definition ignore {A} (m : M Store A) : M Store unit := m ;;; mret tt.

Definition perform (c : Call) : M Store unit :=
  match c with
  | Create card content key => CardStore.create md_parse card content key
  | CreateBatch p items message => CardStore.create_batch md_parse generate_id uuid_v4 p items message
  | UpdateContent c content title t => CardStore.update_content md_parse c content title t
  | Move c has parent key t => CardStore.move md_parse c has parent key t
  | MoveTo p c request t => ignore (CardStore.move_to md_parse p c request t)
  | UpdateLinks c t => CardStore.update_links md_parse c t
  | UpdateMilestones c t => CardStore.update_milestones md_parse c t
  | UpdateMilestone p c m update t => ignore (CardStore.update_milestone md_parse p c m update t)
  | Trash c t children => CardStore.trash md_parse c t children
  | RepairHierarchy p t => ignore (CardStore.repair_hierarchy md_parse p t)
  | Restore c t => CardStore.restore md_parse c t
  | RestoreVersion c oid t => CardStore.restore_version md_parse c oid t
  | HardDelete c => CardStore.hard_delete md_parse c
  | AddTag c tag t => ignore (CardStore.add_tag md_parse c tag t)
  | RemoveTag c tag t => ignore (CardStore.remove_tag md_parse c tag t)
  | GetContent c => ignore (CardStore.get_content md_parse c)
  | ListCompletePage p after limit => ignore (CardStore.list_complete_page md_parse p after limit)
  | ListCollectionPage p query limit content => ignore (CardStore.list_collection_page md_parse p query limit content)
  | ListEditableTags c => ignore (CardStore.list_editable_tags md_parse c)
  end.

(** A new process in the environment [o]; nothing of an open transaction is left. *)
Definition start (o : nat -> Outcome) (s : Store) : Store :=
  mkStore (mkWorld (disk (st_world s)) None o (tick (st_world s))) (st_db s) None.
Definition process (s : Store) (p : (nat -> Outcome) * list Call) : Store :=
  foldl (fun s c => snd (perform c s)) (start p.1 s) p.2.
Definition run (ps : list ((nat -> Outcome) * list Call)) (s : Store) : Store := foldl process s ps.

(** The texts of the cipher; those that were in the tree, in Git or in the journal before;
    what a write that failed left; and what Git's filters make of them. *)
Inductive sealed_text (d0 : Disk) (ps : list ((nat -> Outcome) * list Call)) : string -> Prop :=
| text_cipher n project key plain s : encrypt_project_blob n project key plain = Ok s -> sealed_text d0 ps s
| text_file path s : work d0 !! path = Some s -> sealed_text d0 ps s
| text_blob g b s : git d0 = Some g -> blobs g !! b = Some s -> sealed_text d0 ps s
| text_journal raw saved kf s : journal_file d0 = Some raw -> from_msgpack raw = Some saved ->
    kf ∈ saved_files saved -> before kf.2 = Some s -> sealed_text d0 ps s
| text_left p n s : p ∈ ps -> p.1 n = Short s \/ p.1 n = Throws (Some s) -> sealed_text d0 ps s
| text_clean s : sealed_text d0 ps s -> sealed_text d0 ps (clean s).

Definition all_encrypted (db : Db) : Prop := forall p, p ∈ projects db -> encrypted p = true.

Lemma perform_keeps `{!SqlEngineLaws E, !MsgPackLaws J} allowed o c :
  (forall n project key plain s, encrypt_project_blob n project key plain = Ok s -> allowed s) ->
  (forall s, allowed s -> allowed (clean s)) ->
  (forall n s, o n = Short s \/ o n = Throws (Some s) -> allowed s) ->
  keeps (sealed_store allowed o) (perform c).
Proof.
  intros H1 H2 H3. destruct c; cbn [perform]; try (apply keeps_bind; [|by intros; apply returns_mret]);
    eauto using keeps_create, keeps_create_batch, keeps_update_content, keeps_move, keeps_move_to,
      keeps_update_links, keeps_update_milestones, keeps_update_milestone, keeps_trash, keeps_repair,
      keeps_restore_card, keeps_restore_version, keeps_hard_delete, keeps_add_tag, keeps_remove_tag,
      keeps_get_content, keeps_complete_page, keeps_collection_page, keeps_list_tags.
Qed.

Definition at_rest (allowed : string -> Prop) (s : Store) : Prop :=
  sealed allowed (disk (st_world s)) /\ all_encrypted (st_db s).

Lemma process_at_rest `{!SqlEngineLaws E, !MsgPackLaws J} allowed p s :
  (forall n project key plain s, encrypt_project_blob n project key plain = Ok s -> allowed s) ->
  (forall s, allowed s -> allowed (clean s)) ->
  (forall n s, p.1 n = Short s \/ p.1 n = Throws (Some s) -> allowed s) ->
  at_rest allowed s -> at_rest allowed (process s p).
Proof.
  intros H1 H2 H3 [Hd Hdb]. destruct p as [o calls]. unfold process. cbn [fst snd] in *.
  assert (sealed_store allowed o (start o s)) as Hs by done. revert Hs. generalize (start o s).
  induction calls as [|c calls IH]; intros s' Hs; [by destruct Hs as [[]]|]. cbn [foldl]. apply IH.
  pose proof (perform_keeps allowed o c H1 H2 H3 s' Hs) as H. destruct (perform c s') as [[u|e] s2]; [apply H|done].
Qed.

Lemma run_at_rest `{!SqlEngineLaws E, !MsgPackLaws J} allowed ps s :
  (forall n project key plain s, encrypt_project_blob n project key plain = Ok s -> allowed s) ->
  (forall s, allowed s -> allowed (clean s)) ->
  (forall p, p ∈ ps -> forall n s, p.1 n = Short s \/ p.1 n = Throws (Some s) -> allowed s) ->
  at_rest allowed s -> at_rest allowed (run ps s).
Proof.
  intros H1 H2. revert s. induction ps as [|p ps IH]; intros s H3 Hs; [done|]. cbn [run foldl]. apply IH.
  - intros q Hq. apply H3. by right.
  - apply process_at_rest; [done|done|apply H3; by left|done].
Qed.

(** C8: Encrypted projects stay encrypted. Run any calls of the card store, in processes that
    die at any point and in an environment where any call of the system can throw or fall
    short: every text in the working tree and every blob in Git is then one the cipher
    returned, one that was there at the start, what a failing write left, or what Git's
    filters made of these. No path writes a card in the clear, the recovery of interrupted
    changes, the rollback of failed ones and the restoring of old versions included. *)
Theorem encrypted_stays_encrypted ps s :
  SqlEngineLaws E -> MsgPackLaws J -> all_encrypted (st_db s) ->
  let s' := run ps s in
  (forall path text, work (disk (st_world s')) !! path = Some text -> sealed_text (disk (st_world s)) ps text) /\
  (forall g b text, git (disk (st_world s')) = Some g -> blobs g !! b = Some text ->
     sealed_text (disk (st_world s)) ps text) /\
  all_encrypted (st_db s').
Proof.
  intros HE HJ Hdb. cbv zeta. set (allowed := sealed_text (disk (st_world s)) ps).
  assert (at_rest allowed (run ps s)) as [[Hf Hb] Hdb'].
  2: { split; [|split]; [|by intros g b text Hg; apply (Hb g Hg)|done].
       intros path text Hp. by apply (Hf (Work path)). }
  assert (forall p, p ∈ ps -> forall n x, p.1 n = Short x \/ p.1 n = Throws (Some x) -> allowed x) as Hl
    by (intros p Hp n x Hx; by eapply text_left).
  assert (at_rest allowed s) as H0.
  { split; [|done]. split.
    - intros [k| | | |k] text Hp; cbn in Hp |- *; try done; [by eapply text_file|].
      intros saved Hs kf x Hk Hx. by eapply text_journal.
    - intros g Hg b text Hx. by eapply text_blob. }
  apply run_at_rest; [intros *; apply text_cipher|apply text_clean|exact Hl|exact H0].
Qed.
End EncryptedProjects.

(** Two cards of an encrypted project are created, a process dies while it trashes them, and
    the next one settles what was interrupted. *)
Import ReferenceGit ReferenceYaml.
Definition listing : Directory := {| read_directory l := l; file_mtime_seconds _ _ := 0 |}.
Definition no_tags (_ : bytes) : list TagExtractor.MdEvent := [].
Definition any_id (_ : IdScheme) (_ : nat) : result string := Err (Runtime "no ids").
Import ReferenceJson.
Definition diary : Project := mkProject "p" "Diary" "/p" None None "encrypted_git" (Some "k") Uuid4 0 0.
Definition blank : Store :=
  mkStore (mkWorld (mkDisk ∅ None None None None ∅) None (fun _ => Works) 0) (core_db [diary] [] [] [] [] []) None.
Definition plan_id : string := "550e8400-e29b-41d4-a716-446655440000".
Definition step_id : string := "01890f3e-7b5a-7cc8-98c4-dc0c0c07398f".
Definition diary_session : list ((nat -> Outcome) * list Call) :=
  [(fun _ => Works,
    [Create (mkCard plan_id "p" "Plan" "" None f64_zero 1 1 None) "secret" None;
     Create (mkCard step_id "p" "Step" "" (Some plan_id) f64_zero 1 1 None) "more" None]);
   (fun n => if Nat.ltb n 150 then Works else Throws None, [Trash plan_id 5 CardStore.TrashSubtree]);
   (fun _ => Works, [ListEditableTags step_id])].
Definition diary_end : Store :=
  run (E := reference_engine) (D := listing) no_tags any_id (fun _ => "") diary_session blank.

Definition plain_text (d : Disk) : bool :=
  existsb (fun kv => negb (String.prefix blob_header kv.2)) (map_to_list (work d)).

Example create_is_sealed :
  let s := run (E := reference_engine) (D := listing) no_tags any_id (fun _ => "")
    [(fun _ => Works, [Create (mkCard plan_id "p" "Plan" "" None f64_zero 1 1 None) "secret" None])] blank in
  (size (work (disk (st_world s))), plain_text (disk (st_world s))) = (1%nat, false).
Proof. vm_compute. reflexivity. Qed.

Lemma encrypted_stays_encrypted_witness :
  all_encrypted (st_db diary_end) /\
  forall path text, work (disk (st_world diary_end)) !! path = Some text ->
    sealed_text (disk (st_world blank)) diary_session text.
Proof.
  assert (all_encrypted (st_db blank)) as H by (intros p Hp; by apply list_elem_of_singleton in Hp as ->).
  destruct (encrypted_stays_encrypted (E := reference_engine) (D := listing) no_tags any_id (fun _ => "")
    diary_session blank reference_engine_laws reference_msgpack_laws H) as (H1 & _ & H3).
  split; [exact H3|exact H1].
Defined.

End EncryptedProjects.
