(* ===== verification/ResourceStores.v ===== *)
(** * The stores of resources and storage locations

    [src/src/resource/ResourceStore.cpp] and [LocationStore.cpp]: a manifest is written,
    staged and committed, and then the index follows; when the index cannot, it is rebuilt
    from the files. [MetadataMapping.cpp] names the properties of a resource elsewhere. The
    lock on the repository is not modelled, since operations are run one at a time. *)

From stdpp Require Import base list sets strings numbers gmap sorting.
From S2P Require Import Prelude Double Model Text Tags Database CardRepo Uuid LinkRepo ProjectRepo.
From S2P Require Import CardFrontMatter Disk Mutation Privacy CardChanges.
From S2P Require Import Json ResourceManifest ResourceRepo LocationRepo RebuildResources Rebuild Store.
Import Disk CardMutation CardPaths CardFrontMatter ProjectPrivacy CardStoreChanges CardStore ResourceManifest.

Section Manifests.
Context {E : SqlEngine} {Y : Yaml} {L : LibGit2} {J : MsgPack} {V : Privacy} {D : Directory} {N : JsonLib}.
Context (md_parse : bytes -> list TagExtractor.MdEvent).

(** [try { Tx tx(db_); ...; tx.commit(); } catch (...) { Rebuilder(db_).rebuild_project(project); }] *)
Definition or_rebuild (project : Project) (m : M Store unit) : M Store unit :=
  try_catch m (fun _ => Rebuilder.rebuild_project md_parse project ;;; mret tt).
Definition index_with (project : Project) (m : Repo unit) : M Store unit :=
  or_rebuild project (with_tx (in_tx m ;;; commit_tx)).

(** [git_->write_file], [git_->stage_path] and the check of what was staged *)
Definition stage_manifest (project : Project) (path text : string) : IO unit :=
  let* encoded := encode_card_blob project text in
  git_write_file path encoded ;;;
  stage_path path ;;;
  assert_project_staged_blobs_safe project [path].

(** [require_project] of the two stores: what [CardStore] has, but for the recovery. *)
Definition require_known_project (project_id : string) : M Store Project :=
  let* p := read_db (fun db => ProjectRepo.get db project_id) in
  match p with
  | None => throw (Runtime ("project not found: " +:+ project_id))
  | Some project => mret project
  end.
End Manifests.

Module ResourceStore.

Section ResourceStore.
Context {E : SqlEngine} {Y : Yaml} {L : LibGit2} {J : MsgPack} {V : Privacy} {D : Directory} {N : JsonLib}.
Context (md_parse : bytes -> list TagExtractor.MdEvent) (now_epoch_seconds : nat -> Z).

Definition put (bundle : ResourceBundle) : M Store unit :=
  let r := bu_resource bundle in
  let* project := require_known_project (re_project_id r) in
  io (open_repository project) ;;;
  let* path := lift (resource_rel_path (resource_id r)) in
  let* text := lift (render_resource_manifest bundle) in
  io (stage_manifest project path text) ;;;
  io (commit ("Update resource " +:+ re_label r)) ;;;
  index_with md_parse project (ResourceRepo.put_bundle bundle).

Definition get (id : string) : M Store (option ResourceBundle) :=
  read_db (fun db => ResourceRepo.get_bundle db id).

(** [remove_if] of the links to a resource *)
Definition links_elsewhere (id : string) (l : CardLink) : bool :=
  negb (String.eqb (to_type l) "resource" && String.eqb (to_card_id l) id).

Definition unlink_card (project : Project) (id : string) (now : Z) (card : Card) : M Store string :=
  let* card_path := lift (card_rel_path (card_id card)) in
  when (negb (String.eqb (rel_path card) card_path)) (throw path_error) ;;;
  io (let* raw := fs_read_file (Work card_path) in
      let* plain := decode_card_blob project raw in
      let parsed := parse_card_file plain in
      let kept := list_filter (links_elsewhere id) (pf_links parsed) in
      let* encoded := encode_card_blob project
        (render_card_front_matter (set_card_updated_at now card) kept (pf_milestones parsed) +:+ pf_body parsed) in
      git_write_file card_path encoded ;;;
      stage_path card_path) ;;;
  mret card_path.

(** The cards that were changed, and their paths. *)
Fixpoint unlink_cards (project : Project) (id : string) (now : Z) (backlinks : list CardLink) (changed : list string)
    : M Store (list string * list string) :=
  match backlinks with
  | [] => mret (changed, [])
  | l :: backlinks =>
      if bool_decide (from_card_id l ∈ changed) then unlink_cards project id now backlinks changed
      else
        let* card := read_db (fun db => CardRepo.get db (from_card_id l)) in
        match card with
        | None => unlink_cards project id now backlinks changed
        | Some card =>
            if card_deleted card then unlink_cards project id now backlinks changed
            else
              let* path := unlink_card project id now card in
              let* rest := unlink_cards project id now backlinks (changed ++ [from_card_id l]) in
              mret (rest.1, path :: rest.2)
        end
  end.

(** The index: [changed] is a set, in the order in which its cards were met. *)
Definition drop_resource (project_id id : string) (now : Z) (changed : list string) : Repo unit :=
  LinkRepo.delete_links_to_typed project_id id "resource" ;;;
  for_each changed (fun card => CardRepo.touch_updated card now) ;;;
  ResourceRepo.remove id.

Definition remove (id : string) : M Store unit :=
  let* bundle := read_db (fun db => ResourceRepo.get_bundle db id) in
  match bundle with
  | None => throw (Runtime ("resource not found: " +:+ id))
  | Some bundle =>
      let* project := require_known_project (re_project_id (bu_resource bundle)) in
      io (open_repository project) ;;;
      let* path := lift (resource_rel_path id) in
      let* backlinks := read_db (fun db => LinkRepo.list_backlinks_typed db (project_id project) id "resource") in
      let* now := gets (fun s => now_epoch_seconds (tick (st_world s))) in
      let* changed := unlink_cards project id now backlinks [] in
      io (fs_remove (Work path)) ;;;
      io (remove_path path) ;;;
      io (assert_project_staged_blobs_safe project changed.2) ;;;
      io (commit ("Remove resource " +:+ re_label (bu_resource bundle))) ;;;
      index_with md_parse project (drop_resource (project_id project) id now changed.1)
  end.

End ResourceStore.
End ResourceStore.

Module LocationStore.

Section LocationStore.
Context {E : SqlEngine} {Y : Yaml} {L : LibGit2} {J : MsgPack} {V : Privacy} {D : Directory} {N : JsonLib}.
Context (md_parse : bytes -> list TagExtractor.MdEvent).

Definition put (location : Location) : M Store unit :=
  let* project := require_known_project (lo_project_id location) in
  io (open_repository project) ;;;
  let* path := lift (location_rel_path (location_id location)) in
  let* text := lift (render_location_manifest location) in
  io (stage_manifest project path text) ;;;
  io (commit ("Update storage location " +:+ lo_name location)) ;;;
  or_rebuild md_parse project (in_tx (LocationRepo.put location)).

Definition get (id : string) : M Store (option Location) :=
  let* r := read_db (fun db => LocationRepo.get db id) in lift r.

Definition remove (id : string) : M Store unit :=
  let* location := get id in
  match location with
  | None => throw (Runtime ("location not found: " +:+ id))
  | Some location =>
      let* used := read_db (fun db => LocationRepo.is_in_use db id) in
      when used (throw (Runtime "storage location is in use by an asset placement")) ;;;
      let* project := require_known_project (lo_project_id location) in
      io (open_repository project) ;;;
      let* path := lift (location_rel_path id) in
      io (fs_remove (Work path)) ;;;
      io (remove_path path) ;;;
      io (commit ("Remove storage location " +:+ lo_name location)) ;;;
      or_rebuild md_parse project (in_tx (LocationRepo.remove id))
  end.

End LocationStore.
End LocationStore.

Module MetadataMapping.

Definition mappings : list (string * string) :=
  map (fun property => (property, "http://purl.org/dc/terms/" +:+ property))
    ["contributor"; "coverage"; "creator"; "date"; "description"; "format"; "identifier"; "language";
     "publisher"; "relation"; "rights"; "source"; "subject"; "title"].

Definition dublin_core_term_for (holder_property : string) : option string := option_map snd (hd_error (list_filter (fun m => String.eqb m.1 holder_property) mappings)).

Definition same_term (external_term : string) (m : string * string) : bool :=
  String.eqb external_term m.2 || String.eqb external_term ("dcterms:" +:+ m.1) ||
  String.eqb external_term ("dc:" +:+ m.1).
Definition holder_property_for_dublin_core (external_term : string) : string :=
  match hd_error (list_filter (same_term external_term) mappings) with
  | Some m => m.1
  | None => external_term
  end.

End MetadataMapping.
