(* ===== verification/GitRuns.v ===== *)
(** * The repository when nothing fails

    What the adapter's calls leave when the environment lets them work: the files that are
    written, the entries that are staged, the commit; and that text is encoded and decoded
    as the project asks. *)

From stdpp Require Import base list sets strings numbers gmap.
From S2P Require Import Prelude Double Model Text Database CardFrontMatter Disk Runs Mutation Privacy.
From S2P Require Import CardChanges RebuildResources RebuildReads Store.
Import Disk DiskFacts Runs ProjectPrivacy CardStoreChanges CardStore RebuildReads.

Module GitRuns.

(** The repository [g] is open, and its index is [i]. *)
Record repo_at (g : Git) (i : Index) `{LibGit2} (w : World) : Prop := {
  ra_git : git (disk w) = Some g;
  ra_index : index_parse (index_file (disk w)) = Some i;
  ra_cached : cached w = None \/ cached w = Some i
}.
(** The files that are not Git's are as they were. *)
Definition same_files (d d' : Disk) : Prop := work d' = work d /\ elsewhere d' = elsewhere d /\ journal_file d' = journal_file d.
Lemma same_files_refl d : same_files d d.
Proof. done. Qed.
Lemma same_files_trans d1 d2 d3 : same_files d1 d2 -> same_files d2 d3 -> same_files d1 d3.
Proof. intros (H1 & H2 & H3) (K1 & K2 & K3). split; [congruence|]. split; congruence. Qed.
(** Two repositories that differ at most in their remotes. *)
Definition same_history (g g' : Git) : Prop :=
  blobs g' = blobs g /\ commits g' = commits g /\ refs g' = refs g /\ head g' = head g.

Section Calls.
Context {L : LibGit2} `{!LibGit2Laws L}.

Lemma runs_query {A} (f : Git -> result A) a g w :
  git (disk w) = Some g -> f g = Ok a -> runs (query f) w (fun b w' => b = a /\ w' = advance w).
Proof. intros Hg Hf. apply runs_attempt. intros Hc. cbn. rewrite Hg, Hf. by eexists _, _. Qed.

Lemma repo_at_disk g i w w' : repo_at g i w -> disk w' = disk w -> cached w' = cached w -> repo_at g i w'.
Proof. intros [H1 H2 H3] Hd Hc. split; rewrite ?Hd, ?Hc; done. Qed.

Lemma runs_open_or_init g i w : repo_at g i w ->
  runs open_or_init w (fun _ w' => disk w' = disk w /\ repo_at g i w').
Proof.
  intros [H1 H2 H3] Hc. unfold open_or_init, bind, modify, attempt. cbn [set_cached outcomes tick]. rewrite Hc.
  eexists _, _. split; [reflexivity|]. split; [exact Hc|]. cbn. rewrite H1.
  split; [done|]. split; cbn; rewrite ?H1; auto.
Qed.
Lemma runs_set_remote name url g i w : repo_at g i w ->
  runs (set_remote name url) w (fun _ w' => exists g', same_history g g' /\ repo_at g' i w' /\
    same_files (disk w) (disk w')).
Proof.
  intros [H1 H2 H3]. unfold set_remote. eapply runs_bind; [by apply (runs_query _ (bool_decide (is_Some (remotes g !! name))) g)|].
  intros b w1 [-> ->] Hc. change (calm w) in Hc. unfold update_git, attempt. cbn [advance disk outcomes tick]. rewrite Hc, H1.
  eexists _, _. split; [reflexivity|]. split; [exact Hc|]. exists (add_remote name url g).
  split; [done|]. split; [split; cbn; done|done].
Qed.
Lemma runs_open_repository project g i w : repo_at g i w ->
  runs (open_repository project) w (fun _ w' => exists g', same_history g g' /\ repo_at g' i w' /\
    same_files (disk w) (disk w')).
Proof.
  intros H. unfold open_repository. eapply runs_bind; [by apply runs_open_or_init|]. after w1 H1.
  destruct H1 as [Hd Hr]. destruct (git_remote_url project) as [url|].
  - eapply runs_weaken; [by apply runs_set_remote|]. intros u w2. by rewrite Hd.
  - apply runs_mret. exists g. rewrite Hd. done.
Qed.

Lemma runs_git_write_file path c g i w : repo_at g i w ->
  runs (git_write_file path c) w (fun _ w' => repo_at g i w' /\ disk w' = poke (Work path) (Some c) (disk w)).
Proof.
  intros H. unfold git_write_file. eapply runs_bind; [apply (runs_query _ tt g); [apply H|done]|]. intros u w1 [_ ->].
  eapply (runs_bind _ _ _ (fun _ w' => w' = advance (advance w))); [apply runs_attempt; by apply runs_mret|].
  intros v w2 -> Hc. unfold fs_write_file. rewrite Hc. eexists _, _. split; [reflexivity|]. split; [exact Hc|].
  destruct H as [H1 H2 H3]. by split.
Qed.

Lemma runs_repository_index g i w : repo_at g i w ->
  runs repository_index w (fun j w' => j = i /\ disk w' = disk w /\ repo_at g i w').
Proof.
  intros [H1 H2 H3]. unfold repository_index.
  eapply runs_bind; [by apply (runs_query _ tt g)|]. intros u w1 [_ ->].
  eapply runs_bind; [by apply (runs_gets _ _ (fun c w' => c = cached w /\ w' = advance w))|]. intros c ? [-> ->].
  destruct H3 as [Hn|Hs].
  - rewrite Hn. eapply (runs_bind _ _ _ (fun j w' => j = i /\ disk w' = disk w)).
    { apply runs_attempt. intros Hc. cbn. rewrite H2. by eexists _, _. }
    intros j w2 [-> H4] Hc. eexists _, _. split; [reflexivity|]. split; [exact Hc|]. cbn. rewrite H4.
    split; [done|]. split; [done|]. split; cbn; rewrite ?H4; auto.
  - rewrite Hs. apply runs_mret. split; [done|]. split; [done|]. split; cbn; auto.
Qed.

(** What staging does to the objects and to the index. *)
Definition staged_git (c : string) (g : Git) : Git := add_blob (blob_id (clean c)) (clean c) g.
Definition staged_index (path c : string) (i : Index) : Index := put_entry path (entry_of path c) i.

Lemma runs_index_store i j g w :
  repo_at g i w -> cached w = Some j ->
  runs (index_store j) w (fun _ w' => repo_at g j w' /\ same_files (disk w) (disk w')).
Proof.
  intros [H1 H2 H3] Hj. apply runs_attempt. intros Hc. eexists _, _. split; [reflexivity|]. split; [exact Hc|].
  split; [|done]. split; cbn; [done| |by right]. apply index_parse_bytes.
Qed.

Lemma runs_stage_path path c g i w :
  repo_at g i w -> work (disk w) !! path = Some c ->
  runs (stage_path path) w (fun _ w' => repo_at (staged_git c g) (staged_index path c i) w' /\ same_files (disk w) (disk w')).
Proof.
  intros H Hw. unfold stage_path. eapply runs_bind; [by apply runs_repository_index|].
  intros ? w1 (-> & Hd1 & Hr1).
  eapply (runs_bind _ _ _ (fun j w' => j = staged_index path c i /\ cached w' = Some j /\
    git (disk w') = Some (staged_git c g) /\ index_parse (index_file (disk w')) = Some i /\ same_files (disk w) (disk w'))).
  - unfold index_add_bypath.
    eapply runs_bind; [apply (runs_read_file _ c); by rewrite Hd1|]. intros ? w2 [-> H2].
    eapply (runs_bind _ _ _ (fun _ w' => disk w' = set_git (staged_git c g) (disk w2))).
    { apply runs_attempt. intros Hc. unfold advance at 1. cbn [disk].
      rewrite H2, (ra_git _ _ _ Hr1). eexists _, _. split; [reflexivity|]. split; [exact Hc|]. cbn. by rewrite H2. }
    after w3 H3. intros Hc. eexists _, _. split; [reflexivity|]. split; [exact Hc|]. cbn.
    rewrite H3. cbn. rewrite H2, Hd1. split; [done|]. split; [done|]. split; [done|]. split; [|done].
    rewrite <- Hd1. apply Hr1.
  - intros j w2 (-> & Hc & Hg & Hi & Hf). apply runs_attempt. intros Hcalm. eexists _, _. split; [reflexivity|].
    split; [exact Hcalm|]. split; [|by destruct Hf].
    split; cbn; [done| |by right]. apply index_parse_bytes.
Qed.

(** The commit that [commit] makes of an index, and the repository with it. *)
Definition next_commit (g : Git) (i : Index) : Commit :=
  mkCommit (match head_id g with Some o => [o] | None => [] end) (entries i).
Definition committed_git (message : string) (g : Git) (i : Index) : Git :=
  let o := commit_id g message (next_commit g i) in set_ref (head_name g) o (add_commit o (next_commit g i) g).

Lemma runs_commit message g i w :
  repo_at g i w -> conflicts i = ∅ ->
  runs (commit message) w (fun _ w' => repo_at (committed_git message g i) i w' /\ same_files (disk w) (disk w')).
Proof.
  intros H Hconf. unfold commit. eapply runs_bind; [by apply runs_repository_index|].
  intros ? w1 (-> & Hd1 & Hr1). rewrite bool_decide_eq_true_2 by done. cbn [negb when].
  eapply runs_bind; [by apply (runs_mret tt _ (fun _ w' => w' = w1))|]. intros _ ? ->.
  eapply (runs_bind _ _ _ (fun _ w' => git (disk w') = Some g /\ index_parse (index_file (disk w')) = Some i /\
    cached w' = cached w1 /\ same_files (disk w) (disk w'))).
  { apply runs_attempt. intros Hc. eexists _, _. split; [reflexivity|]. split; [exact Hc|]. cbn. rewrite Hd1.
    split; [rewrite <- Hd1; apply Hr1|]. split; [apply index_parse_bytes|done]. }
  after w2 H2. destruct H2 as (Hg & Hi & Hc2 & Hf).
  eapply runs_bind; [by apply (runs_query _ (head_id g) g)|]. intros ? w3 [-> ->] Hc.
  change (calm w2) in Hc. unfold update_git, attempt. cbn [advance disk outcomes tick]. rewrite Hc, Hg.
  eexists _, _. split; [reflexivity|]. split; [exact Hc|]. split; [|by destruct Hf].
  split; cbn; [done|done|]. rewrite Hc2. apply Hr1.
Qed.

(** The index is committed: HEAD's tree has its entries. *)
Definition head_tree (g : Git) : option Tree :=
  match head_id g with Some o => option_map commit_tree (commits g !! o) | None => None end.
Lemma committed_tree message g i : head g <> Branch "HEAD" -> head_tree (committed_git message g i) = Some (entries i).
Proof.
  intros Hb. unfold head_tree, committed_git, head_name. cbn zeta. set (o := commit_id g message (next_commit g i)).
  unfold head_id at 1. unfold set_ref. destruct (head g) as [b|o'] eqn:Hh.
  - destruct (String.eqb_spec b "HEAD") as [->|_]; [done|]. cbn. rewrite Hh, lookup_insert_eq. cbn. by rewrite lookup_insert_eq.
  - cbn. rewrite Hh. cbn. by rewrite lookup_insert_eq.
Qed.

(** ** Text of a project *)

Context {V : Privacy} `{!PrivacyLaws V}.

(** An encrypted project has a key that encrypts. *)
Definition can_encrypt (project : Project) : Prop :=
  encrypted project = true -> exists key, require_project_key_id project = Ok key /\
    forall n plain, exists raw, encrypt_project_blob n (project_id project) key plain = Ok raw.
(** Git's filters leave what is encrypted as it is. *)
Definition filters_keep_sealed : Prop := forall s, String.prefix blob_header s = true -> clean s = s.

Definition still (w w' : World) : Prop := disk w' = disk w /\ cached w' = cached w.
Lemma repo_at_still g i w w' : repo_at g i w -> still w w' -> repo_at g i w'.
Proof. intros H [H1 H2]. by eapply repo_at_disk. Qed.

Lemma runs_encode project text w :
  can_encrypt project -> runs (encode_card_blob project text) w (fun raw w' => written project text raw /\ still w w').
Proof.
  intros He. unfold encode_card_blob, written. destruct (encrypted project) eqn:Hp.
  - destruct (He Hp) as (key & Hk & Henc). eapply runs_bind; [by apply (runs_lift _ key _ (fun k w' => k = key /\ w' = w))|].
    intros ? ? [-> ->]. apply runs_attempt. intros Hc. destruct (Henc (tick (advance w)) text) as [raw Hraw]. rewrite Hraw.
    eexists _, _. split; [reflexivity|]. split; [exact Hc|]. split; [by exists (tick (advance w)), key|done].
  - apply runs_mret. by split.
Qed.
Lemma runs_decode project text raw w :
  written project text raw -> runs (decode_card_blob project raw) w (fun t w' => t = text /\ still w w').
Proof.
  unfold written, decode_card_blob. destruct (encrypted project).
  - intros (n & key & Hk & He). eapply runs_bind; [by apply (runs_lift _ key _ (fun k w' => k = key /\ w' = w))|].
    intros ? ? [-> ->]. apply runs_attempt. apply (runs_lift _ text); [by eapply decrypt_encrypted|done].
  - intros ->. by apply runs_mret.
Qed.

Lemma written_sealed project text raw :
  written project text raw -> encrypted project = true -> String.prefix blob_header raw = true.
Proof. unfold written. intros H He. rewrite He in H. destruct H as (n & key & _ & H). by eapply encrypted_header. Qed.

(** What is staged of an encrypted project is encrypted. *)
Definition staged_sealed (g : Git) (i : Index) (path : string) : Prop :=
  exists e c, entries i !! path = Some e /\ blobs g !! entry_id e = Some c /\ String.prefix blob_header c = true.
Lemma sealed_safe g i path : staged_sealed g i path -> unsafe_path g i path = false.
Proof. intros (e & c & He & Hc & Hh). unfold unsafe_path. rewrite He, Hc, Hh. by rewrite andb_false_r. Qed.
Lemma staged_is_sealed path c g i :
  filters_keep_sealed -> String.prefix blob_header c = true -> staged_sealed (staged_git c g) (staged_index path c i) path.
Proof.
  intros Hf Hc. eexists _, c. cbn. rewrite lookup_insert_eq. split; [done|]. cbn.
  by rewrite (Hf c Hc), lookup_insert_eq.
Qed.
(** Another file that is staged does not change that. *)
Lemma staged_stays_sealed path path' c g i :
  filters_keep_sealed -> String.prefix blob_header c = true -> staged_sealed g i path ->
  staged_sealed (staged_git c g) (staged_index path' c i) path.
Proof.
  intros Hf Hc H. destruct (decide (path = path')) as [->|Hne]; [by apply staged_is_sealed|].
  destruct H as (e & b & He & Hb & Hh). cbn. exists e. destruct (decide (entry_id e = blob_id (clean c))) as [Heq|Hn].
  - exists c. cbn. rewrite lookup_insert_ne by done. split; [done|]. rewrite Heq, (Hf c Hc), lookup_insert_eq. done.
  - exists b. cbn. rewrite !lookup_insert_ne by done. done.
Qed.

Lemma runs_assert_safe project paths g i w :
  repo_at g i w -> (encrypted project = true -> forall p, p ∈ paths -> staged_sealed g i p) ->
  runs (assert_project_staged_blobs_safe project paths) w (fun _ w' => still w w').
Proof.
  intros H Hs. unfold assert_project_staged_blobs_safe. destruct (encrypted project); [|by apply runs_mret].
  unfold assert_encryption_index_paths_safe. destruct H as [H1 H2 H3].
  eapply runs_bind; [by apply (runs_query _ tt g)|]. intros u w1 [_ ->].
  eapply (runs_bind _ _ _ (fun j w' => j = i /\ w' = advance (advance w))).
  { apply runs_attempt. intros Hc. cbn. rewrite H2. eexists _, _. split; [reflexivity|]. split; [exact Hc|done]. }
  intros ? ? [-> ->]. eapply runs_bind; [by apply (runs_query _ (existsb (unsafe_path g i) paths) g)|].
  intros b w2 [-> ->]. assert (existsb (unsafe_path g i) paths = false) as ->.
  { apply not_true_iff_false. intros (p & Hp & Hu)%existsb_exists. apply list_elem_of_In in Hp.
    by rewrite (sealed_safe g i p (Hs eq_refl p Hp)) in Hu. }
  by apply runs_mret.
Qed.

End Calls.
End GitRuns.
