(* ===== verification/ResourceStoresFacts.v ===== *)
(** * The stores of resources and locations when nothing fails

    Computations of the store that can be followed step by step, and what the entry points
    of [ResourceStore.cpp] and [LocationStore.cpp] leave in the files, in HEAD and in the
    index. *)

From stdpp Require Import base list sets strings numbers gmap sorting.
From S2P Require Import Prelude Double Model Text Tags Database CardRepo Uuid LinkRepo ProjectRepo.
From S2P Require Import CardFrontMatter Disk Runs Mutation Privacy CardChanges.
From S2P Require Import Json ResourceManifest ResourceRepo LocationRepo ResourceFacts ResourceTheorems.
From S2P Require Import RebuildResources RebuildReads Rebuild Store ResourceStores GitRuns.
Import Disk DiskFacts Runs CardMutation CardPaths CardFrontMatter ProjectPrivacy CardStoreChanges CardStore.
Import ResourceManifest RebuildReads GitRuns.

Module StoreRuns.

(** In a calm environment the computation returns, in a state such as [Q] says. *)
Definition sruns {A} (m : M Store A) (s : Store) (Q : A -> Store -> Prop) : Prop :=
  calm (st_world s) -> exists a s', m s = (Ok a, s') /\ calm (st_world s') /\ Q a s'.

Definition with_world (w : World) (s : Store) : Store := mkStore w (st_db s) (st_tx s).

Lemma sruns_bind {A B} (m : M Store A) (f : A -> M Store B) s Q R :
  sruns m s Q -> (forall a s', Q a s' -> sruns (f a) s' R) -> sruns (bind m f) s R.
Proof.
  intros Hm Hf Hc. destruct (Hm Hc) as (a & s1 & He & Hc1 & Hq).
  destruct (Hf a s1 Hq Hc1) as (b & s2 & He2 & Hc2 & Hr). exists b, s2. unfold bind. by rewrite He.
Qed.
Lemma sruns_mret {A} (a : A) s (Q : A -> Store -> Prop) : Q a s -> sruns (mret a) s Q.
Proof. intros HQ Hc. by exists a, s. Qed.
Lemma sruns_weaken {A} (m : M Store A) s (Q R : A -> Store -> Prop) :
  sruns m s Q -> (forall a s', Q a s' -> R a s') -> sruns m s R.
Proof. intros H HQ Hc. destruct (H Hc) as (a & s' & He & Hc' & Hq). exists a, s'. auto. Qed.
Lemma sruns_io {A} (m : IO A) s (Q : A -> World -> Prop) :
  runs m (st_world s) Q -> sruns (io m) s (fun a s' => exists w', s' = with_world w' s /\ Q a w').
Proof.
  intros H Hc. destruct (H Hc) as (a & w' & He & Hc' & Hq). exists a, (with_world w' s). unfold io. rewrite He.
  split; [done|]. split; [done|]. by exists w'.
Qed.
Lemma sruns_try {A} (m : M Store A) h s Q : sruns m s Q -> sruns (try_catch m h) s Q.
Proof. intros H Hc. destruct (H Hc) as (a & w' & He & ? & ?). exists a, w'. unfold try_catch. by rewrite He. Qed.

(** Steps that only compute. *)
Lemma sruns_lift {A B} (r : result A) (a : A) (f : A -> M Store B) s Q : r = Ok a -> sruns (f a) s Q -> sruns (bind (lift r) f) s Q.
Proof. intros -> H. exact H. Qed.
Lemma sruns_read {A B} (q : Db -> A) (f : A -> M Store B) s Q : sruns (f (q (current_db s))) s Q -> sruns (bind (read_db q) f) s Q.
Proof. intros H. exact H. Qed.
Lemma sruns_gets {A B} (q : Store -> A) (f : A -> M Store B) s Q : sruns (f (q s)) s Q -> sruns (bind (gets q) f) s Q.
Proof. intros H. exact H. Qed.
Lemma sruns_when {A} (b : bool) (m : M Store unit) (f : unit -> M Store A) s Q :
  b = false -> sruns (f tt) s Q -> sruns (bind (when b m) f) s Q.
Proof. intros -> H. exact H. Qed.

(** A change of the index outside of a transaction. *)
Lemma sruns_in_tx {A} (m : Repo A) a db' s :
  st_tx s = None -> m (st_db s) = (Ok a, db') ->
  sruns (in_tx m) s (fun b s' => b = a /\ s' = mkStore (st_world s) db' None).
Proof. intros Ht Hm Hc. unfold in_tx. rewrite Ht, Hm. by eexists _, _. Qed.
(** A transaction that commits: [Tx tx(db_); m; tx.commit();] *)
Lemma sruns_transaction (m : Repo unit) db' s :
  st_tx s = None -> m (st_db s) = (Ok tt, db') ->
  sruns (with_tx (in_tx m ;;; commit_tx)) s
    (fun _ s' => st_db s' = db' /\ st_tx s' = None /\ still (st_world s) (st_world s')).
Proof.
  intros Ht Hm Hc. set (w := st_world s) in *. assert (calm (advance w)) as Hc1 by exact Hc.
  assert (with_tx (in_tx m ;;; commit_tx) s = (Ok tt, mkStore (advance (advance w)) db' None)) as He.
  { unfold with_tx, begin_tx, commit_tx, bind, io, attempt, modify, in_tx, mret. cbn [st_world st_db st_tx]. fold w.
    rewrite (Hc (tick w)). cbn [st_world st_db st_tx]. rewrite Hm. cbn [st_world st_db st_tx].
    by rewrite (Hc1 (tick (advance w))). }
  exists tt, (mkStore (advance (advance w)) db' None). split; [exact He|]. split; [exact Hc|]. cbn. split; [done|].
  split; [done|]. by split.
Qed.
End StoreRuns.

(** Splits off a step of [io] whose run [H] describes: the world [w] it left and [R]. *)
Ltac io_step H w R := eapply StoreRuns.sruns_bind; [apply StoreRuns.sruns_io, H|]; intros ? ? (w & -> & R); cbv beta in R.

Module ResourceStoresFacts.
Import StoreRuns.

Section Stores.
Context {E : SqlEngine} {Y : Yaml} {L : LibGit2} `{!LibGit2Laws L} {J : MsgPack} {V : Privacy} `{!PrivacyLaws V} {D : Directory} {N : JsonLib}.
Context (md_parse : bytes -> list TagExtractor.MdEvent).

(** The repository of a project that a store can write to. *)
Record writable (project : Project) (g : Git) (i : Index) (w : World) : Prop := {
  wr_repo : repo_at g i w;
  wr_merged : conflicts i = ∅;
  wr_branch : head g <> Branch "HEAD";
  wr_key : can_encrypt project;
  wr_filters : filters_keep_sealed
}.

Lemma writable_history project g g' i w w' : writable project g i w -> same_history g g' -> repo_at g' i w' -> writable project g' i w'.
Proof. intros [H1 H2 H3 H4 H5] (_ & _ & _ & Hh) Hr. split; try done. by rewrite Hh. Qed.

Lemma runs_stage_manifest project path text g i w :
  writable project g i w ->
  runs (stage_manifest project path text) w (fun _ w' => exists raw,
    written project text raw /\ writable project (staged_git raw g) (staged_index path raw i) w' /\
    work (disk w') = <[path := raw]> (work (disk w)) /\ elsewhere (disk w') = elsewhere (disk w)).
Proof.
  intros [Hr Hm Hb Hk Hf]. unfold stage_manifest.
  eapply runs_bind; [by apply runs_encode|]. intros raw w1 [Hraw Hs1].
  eapply runs_bind; [apply (runs_git_write_file path raw g i); by eapply repo_at_still|]. after w2 H2. destruct H2 as [Hr2 Hd2].
  eapply runs_bind; [apply (runs_stage_path path raw); [exact Hr2|rewrite Hd2; apply lookup_insert_eq]|].
  after w3 H3. destruct H3 as [Hr3 (Hw3 & He3 & _)].
  eapply runs_weaken.
  { apply (runs_assert_safe _ _ _ _ _ Hr3). intros He p ->%list_elem_of_singleton. apply staged_is_sealed; [done|].
    by eapply written_sealed. }
  intros u w4 Hs4. exists raw. split; [done|]. destruct Hs1 as [Hd1 _]. split.
  - split; [by eapply repo_at_still| |done|done|done]. cbn. rewrite Hm. set_solver.
  - destruct Hs4 as [-> _]. rewrite Hw3, He3, Hd2, Hd1. done.
Qed.

Lemma require_known_ok pid project s :
  ProjectRepo.get (current_db s) pid = Some project -> require_known_project pid s = (Ok project, s).
Proof. intros Hp. unfold require_known_project, bind, read_db, gets. by rewrite Hp. Qed.
Lemma require_unknown pid s :
  ProjectRepo.get (current_db s) pid = None ->
  require_known_project pid s = (Err (Runtime ("project not found: " +:+ pid)), s).
Proof. intros Hp. unfold require_known_project, bind, read_db, gets. by rewrite Hp. Qed.
Lemma sruns_known {A} pid project s (f : Project -> M Store A) Q :
  ProjectRepo.get (current_db s) pid = Some project -> sruns (f project) s Q -> sruns (bind (require_known_project pid) f) s Q.
Proof. intros Hp H Hc. unfold bind. rewrite (require_known_ok pid project s Hp). by apply H. Qed.

(** The tree of HEAD, the file and the index after a manifest was put. *)
Definition manifest_at (project : Project) (path text : string) (w w' : World) : Prop :=
  exists raw g t, written project text raw /\ work (disk w') = <[path := raw]> (work (disk w)) /\
    git (disk w') = Some g /\ head_tree g = Some t /\ t !! path = Some (entry_of path raw) /\
    blobs g !! blob_id (clean raw) = Some (clean raw).

(** What both stores do up to the index. *)
Lemma runs_put_manifest {B} project path text message g i w db (k : M Store B) Q :
  writable project g i w ->
  (forall w', manifest_at project path text w w' -> elsewhere (disk w') = elsewhere (disk w) -> sruns k (mkStore w' db None) Q) ->
  sruns (io (stage_manifest project path text) ;;; io (commit message) ;;; k) (mkStore w db None) Q.
Proof.
  intros Hwr Hk. eapply sruns_bind; [apply sruns_io; by apply runs_stage_manifest|].
  intros u s1 (w1 & -> & raw & Hraw & [Hr Hm Hb _ _] & Hw & He).
  eapply sruns_bind; [apply sruns_io; by apply (runs_commit message _ _ w1 Hr)|].
  intros v s2 (w2 & -> & Hr2 & (Hw2 & He2 & _)). apply Hk; [|by rewrite He2].
  exists raw, (committed_git message (staged_git raw g) (staged_index path raw i)), (entries (staged_index path raw i)).
  split; [done|]. rewrite Hw2. split; [exact Hw|]. split; [apply Hr2|]. split; [by apply committed_tree|].
  split; [apply lookup_insert_eq|]. unfold committed_git. cbn zeta. unfold set_ref.
  destruct (String.eqb _ _); [destruct (head _)|]; cbn; apply lookup_insert_eq.
Qed.
(** A repository that is open stays writable when it is opened again. *)
Lemma sruns_open {B} project g i w db (k : M Store B) Q :
  writable project g i w ->
  (forall g' w', writable project g' i w' -> work (disk w') = work (disk w) -> elsewhere (disk w') = elsewhere (disk w) ->
     same_history g g' -> sruns k (mkStore w' db None) Q) ->
  sruns (io (open_repository project) ;;; k) (mkStore w db None) Q.
Proof.
  intros Hw Hk. eapply sruns_bind; [apply sruns_io; apply (runs_open_repository project g i); apply Hw|].
  intros u s1 (w1 & -> & g' & Hh & Hr & Hf & He & _). apply (Hk g'); [by eapply writable_history|done..].
Qed.

Lemma resource_put_runs bundle project path text g i w db db' :
  ProjectRepo.get db (re_project_id (bu_resource bundle)) = Some project -> writable project g i w ->
  resource_rel_path (resource_id (bu_resource bundle)) = Ok path -> render_resource_manifest bundle = Ok text ->
  ResourceRepo.put_bundle bundle db = (Ok tt, db') ->
  sruns (ResourceStore.put md_parse bundle) (mkStore w db None)
    (fun _ s' => st_db s' = db' /\ st_tx s' = None /\ manifest_at project path text w (st_world s')).
Proof.
  intros Hp Hw Hpath Htext Hput. unfold ResourceStore.put. apply (sruns_known _ project); [exact Hp|].
  eapply sruns_open; [exact Hw|]. intros g' w1 Hw1 Hwork Helse Hh.
  eapply sruns_lift; [exact Hpath|]. eapply sruns_lift; [exact Htext|].
  eapply runs_put_manifest; [exact Hw1|]. intros w2 Hm He2.
  apply sruns_try. eapply sruns_weaken; [by apply (sruns_transaction _ db')|].
  intros u s' (H1 & H2 & [Hd _]). split; [done|]. split; [done|].
  unfold manifest_at in *. rewrite Hd. cbn [st_world]. by rewrite Hwork in Hm.
Qed.
Lemma location_put_runs location project path text g i w db db' :
  ProjectRepo.get db (lo_project_id location) = Some project -> writable project g i w ->
  location_rel_path (location_id location) = Ok path -> render_location_manifest location = Ok text ->
  LocationRepo.put location db = (Ok tt, db') ->
  sruns (LocationStore.put md_parse location) (mkStore w db None)
    (fun _ s' => st_db s' = db' /\ st_tx s' = None /\ manifest_at project path text w (st_world s')).
Proof.
  intros Hp Hw Hpath Htext Hput. unfold LocationStore.put. apply (sruns_known _ project); [exact Hp|].
  eapply sruns_open; [exact Hw|]. intros g' w1 Hw1 Hwork Helse Hh.
  eapply sruns_lift; [exact Hpath|]. eapply sruns_lift; [exact Htext|].
  eapply runs_put_manifest; [exact Hw1|]. intros w2 Hm He2.
  apply sruns_try. eapply sruns_weaken; [by apply (sruns_in_tx _ tt db')|].
  intros u s' [_ ->]. split; [done|]. split; [done|]. cbn [st_world]. unfold manifest_at in *. by rewrite Hwork in Hm.
Qed.
End Stores.
End ResourceStoresFacts.
