(* ===== verification/ResourceStoresTheorems.v ===== *)
(** * What the stores of resources and locations promise *)

From stdpp Require Import base list sets strings numbers gmap sorting.
From S2P Require Import Prelude Double Model Text Tags Database CardRepo Uuid LinkRepo ProjectRepo.
From S2P Require Import CardFrontMatter Disk Runs Mutation Privacy CardChanges.
From S2P Require Import Json ResourceManifest ResourceRepo LocationRepo ResourceFacts ResourceTheorems.
From S2P Require Import ReferenceGit ReferenceYaml ReferenceJson.
From S2P Require Import RebuildResources RebuildReads RebuildManifests Rebuild Store ResourceStores GitRuns ResourceStoresFacts.
Import Disk DiskFacts Runs CardMutation CardPaths CardFrontMatter ProjectPrivacy CardStoreChanges CardStore.
Import ResourceManifest ResourceManifestFacts Json ResourceFacts BundleRows BundleReads ManifestRows RebuildReads GitRuns StoreRuns ResourceStoresFacts.

(** A plain project with a card and a place for its assets. *)
Module StoreFixtures.
Import ReferenceYaml ReferenceGit ReferenceJson.

Definition no_tags (_ : bytes) : list TagExtractor.MdEvent := [].
Definition listing : Directory := {| read_directory l := l; file_mtime_seconds _ _ := 0 |}.
Definition notes : Project := mkProject "p" "Notes" "/p" None None "plain" None Uuid4 0 0.
Definition note : Card := mkCard "card1" "p" "Trip" "cards/ca/rd/card1.md" None f64_zero 1 2 None.
Definition shelf : Location := mkLocation "loc1" "p" "Shelf" "local" [] 1 1.
Definition notes_db : Db := snd (LocationRepo.put (N := reference_json) shelf (core_db [notes] [note] [] [] [] [])).
Definition new_git : Git := mkGit ∅ ∅ ∅ (Branch "refs/heads/main") ∅.
Definition notes_world (faults : nat -> Outcome) : World :=
  mkWorld (mkDisk {["cards/ca/rd/card1.md" := "We went."]} None None None (Some new_git) {["/in/sea.jpg" := "picture"]})
    None faults 0.
Lemma notes_wf : resources_wf notes_db /\ LinkRepoFacts.links_wf notes_db /\ cards_wf notes_db.
Proof.
  split; [|split].
  - apply (location_put_wf (N := reference_json) shelf). apply no_resources_wf.
  - split; [apply NoDup_nil_2|]. intros x Hx. by inversion Hx.
  - split; try apply NoDup_singleton; by intros c ->%list_elem_of_singleton.
Qed.
Lemma notes_writable : writable (L := reference_git) notes new_git (mkIndex ∅ ∅) (notes_world (fun _ => Works)).
Proof. split; [split; [done..|by left]|done|done|done|by intros s]. Qed.

Lemma rendered (r : result string) : (match r with Ok _ => true | Err _ => false end) = true -> exists t, r = Ok t.
Proof. destruct r; [by eexists|done]. Qed.
End StoreFixtures.

Module ResourceStoresTheorems.

(** The tables beside those of the resources and locations. *)
Record same_elsewhere (db db' : Db) : Prop := {
  se_projects : projects db' = projects db;
  se_cards : cards db' = cards db;
  se_links : card_links db' = card_links db;
  se_tags : card_tags db' = card_tags db;
  se_milestones : milestones db' = milestones db;
  se_sync : project_sync_state db' = project_sync_state db
}.

(** A location whose texts hold no NUL, which a column would cut. *)
Record bound_location {N : JsonLib} (l : Location) : Prop := {
  bl_id : bind_text (location_id l) = location_id l;
  bl_project : bind_text (lo_project_id l) = lo_project_id l;
  bl_name : bind_text (lo_name l) = lo_name l;
  bl_provider : bind_text (lo_provider l) = lo_provider l;
  bl_config : forall c, location_config l = Ok c -> bind_text c = c
}.

Section NewLocation.
Context {E : SqlEngine} `{!SqlEngineLaws E} {N : JsonLib} `{!JsonLaws N}.
Context (l : Location) (db : Db).
Let db' := ResourceRepo.on_resources (add_locations [l]) db.

Lemma row_reads_back c :
  location_config l = Ok c -> bound_location l -> location_fits l ->
  LocationRepo.read_location (location_row l) = Ok l.
Proof.
  intros Hc [B1 B2 B3 B4 B5] (_ & _ & Hs). unfold location_row, LocationRepo.read_location. rewrite Hc. cbn.
  rewrite B1, B2, B3, B4, (B5 c Hc).
  rewrite (parse_dump None (of_map JString (lo_configuration l)) c); [|apply canonical_of_map; [done|constructor]|done].
  cbn [rbind]. rewrite get_of_map by done. by destruct l.
Qed.

Lemma new_location_reads c :
  resources_wf db -> bind_text (location_id l) ∉ map lr_id (storage_locations (resource_tables db)) ->
  location_config l = Ok c -> bound_location l -> location_fits l ->
  LocationRepo.get db' (location_id l) = Ok (Some l).
Proof.
  intros W Hnew Hc B F.
  assert (NoDup (map lr_id (storage_locations (resource_tables db')))) as Hn.
  { cbn. rewrite map_app. apply list.NoDup_app. split; [apply W|]. split; [|apply NoDup_singleton].
    by intros x Hx ->%list_elem_of_singleton. }
  unfold LocationRepo.get.
  assert (hd_error (sql_select (fun x => String.eqb (lr_id x) (bind_text (location_id l))) cmp_true
            (storage_locations (resource_tables db'))) = Some (location_row l)) as ->.
  { apply head_by_key_Some; [done|]. split; [apply elem_of_app; right; by left|done]. }
  by rewrite (row_reads_back c).
Qed.

Lemma other_locations_read i :
  resources_wf db -> bind_text i <> bind_text (location_id l) -> LocationRepo.get db' i = LocationRepo.get db i.
Proof.
  intros W Hi. unfold LocationRepo.get.
  rewrite (select_same _ cmp_true (storage_locations (resource_tables db)) (storage_locations (resource_tables db'))); [done| |].
  - intros x y [Hx Hxi%String.eqb_eq]%elem_of_list_filter [Hy Hyi%String.eqb_eq]%elem_of_list_filter _.
    apply (NoDup_map_inj lr_id (storage_locations (resource_tables db))); [apply W|done|done|congruence].
  - cbn. unfold list_filter. rewrite List.filter_app. cbn. destruct (String.eqb_spec (bind_text (location_id l)) (bind_text i)); [congruence|].
    by rewrite app_nil_r.
Qed.
End NewLocation.

(** C13: Without faults, [put] of a bundle commits its manifest, encrypted where the project
    is, and nothing else of the working tree: HEAD holds the text that the file holds; then
    the index reads the bundle back, every other bundle as before, and no location and no
    table of projects, cards, links, tags, milestones or synchronisation has changed. [put]
    of a new location does the same with the location's manifest: the index reads it back
    by its id and every other location as before, and no other table has changed. *)
Theorem store_put_commits (E : SqlEngine) (Y : Yaml) (L : LibGit2) (J : MsgPack) (V : Privacy) (D : Directory)
    (N : JsonLib) (md_parse : bytes -> list TagExtractor.MdEvent) (b : ResourceBundle) (l : Location)
    (project : Project) (path text lpath ltext : string) (g : Git) (i : Index) (w : World) (db : Db) :
  SqlEngineLaws E -> LibGit2Laws L -> PrivacyLaws V -> JsonLaws N -> calm w -> writable project g i w ->
  resources_wf db ->
  (ProjectRepo.get db (re_project_id (bu_resource b)) = Some project ->
   resource_rel_path (resource_id (bu_resource b)) = Ok path -> render_resource_manifest b = Ok text ->
   putable b -> resources_wf (ResourceRepo.on_resources (put_rows b) db) -> bound_bundle b -> listed b ->
   exists s', ResourceStore.put md_parse b (mkStore w db None) = (Ok tt, s') /\
     manifest_at project path text w (st_world s') /\ st_tx s' = None /\
     ResourceRepo.get_bundle (st_db s') (resource_id (bu_resource b)) = Some (indexed b) /\
     (forall i, bind_text i <> bind_text (resource_id (bu_resource b)) ->
        ResourceRepo.get_bundle (st_db s') i = ResourceRepo.get_bundle db i) /\
     storage_locations (resource_tables (st_db s')) = storage_locations (resource_tables db) /\
     same_elsewhere db (st_db s')) /\
  (ProjectRepo.get db (lo_project_id l) = Some project ->
   location_rel_path (location_id l) = Ok lpath -> render_location_manifest l = Ok ltext ->
   valid_location l -> (exists c, location_config l = Ok c) -> bound_location l -> location_fits l ->
   project_exists (bind_text (lo_project_id l)) db = true ->
   bind_text (location_id l) ∉ map lr_id (storage_locations (resource_tables db)) ->
   exists s', LocationStore.put md_parse l (mkStore w db None) = (Ok tt, s') /\
     manifest_at project lpath ltext w (st_world s') /\ st_tx s' = None /\
     LocationRepo.get (st_db s') (location_id l) = Ok (Some l) /\
     (forall i, bind_text i <> bind_text (location_id l) ->
        LocationRepo.get (st_db s') i = LocationRepo.get db i) /\
     (forall i, ResourceRepo.get_bundle (st_db s') i = ResourceRepo.get_bundle db i) /\
     st_db s' = ResourceRepo.on_resources (add_locations [l]) db /\ same_elsewhere db (st_db s')).
Proof.
  intros LE LL LV LN Hc Hw W. split.
  - intros Hp Hpath Htext Hput W' B Ls.
    assert (ResourceRepo.put_bundle b db = (Ok tt, ResourceRepo.on_resources (put_rows b) db)) as Hdb by by apply put_bundle_spec.
    destruct (resource_put_runs md_parse b project path text g i w db _ Hp Hw Hpath Htext Hdb Hc) as ([] & s' & He & _ & Hs & Ht & Hm).
    exists s'. split; [exact He|]. split; [exact Hm|]. split; [exact Ht|]. rewrite Hs.
    split; [by apply get_bundle_written|]. split; [intros j Hj; by apply get_bundle_other|]. by split.
  - intros Hp Hpath Htext Hv Hcfg B F Hex Hnew.
    pose proof (put_location_ok l db Hv Hcfg Hnew Hex) as Hdb.
    destruct (location_put_runs md_parse l project lpath ltext g i w db _ Hp Hw Hpath Htext Hdb Hc) as ([] & s' & He & _ & Hs & Ht & Hm).
    exists s'. split; [exact He|]. split; [exact Hm|]. split; [exact Ht|]. rewrite Hs. destruct Hcfg as [c Hcfg].
    split; [by apply (new_location_reads l db c)|]. split; [intros j Hj; by apply other_locations_read|].
    split; [done|]. by split.
Qed.

(** ** A record for a place, and one more place *)
Import ReferenceYaml ReferenceGit ReferenceJson StoreFixtures.

Definition scan : ResourceBundle :=
  mkBundle (mkResource "res1" "p" "document" "scan.pdf" [("title", ["Scan"])] 1 2)
    [mkAsset "as1" "res1" "scan.pdf" "application/pdf" 5 "hash" 1 1
       [mkPlacement "pl1" "as1" "loc1" "p/as1" "plain" 5 "hash" 1]].
Definition attic : Location := mkLocation "loc2" "p" "Attic" "local" [("prefix", "a")] 3 3.

Lemma attic_bound : bound_location (N := reference_json) attic.
Proof. split; try reflexivity. intros c H. vm_compute in H. by injection H as <-. Qed.
Lemma attic_fits : location_fits attic.
Proof. split; [done|]. split; [done|]. repeat constructor. Qed.

Example store_put_commits_witness :
  (exists s', @ResourceStore.put reference_engine reference_yaml reference_git reference_msgpack reference_privacy listing
      reference_json no_tags scan (mkStore (notes_world (fun _ => Works)) notes_db None) = (Ok tt, s') /\
    @ResourceRepo.get_bundle reference_engine (st_db s') "res1" = Some scan) /\
  (exists s', @LocationStore.put reference_engine reference_yaml reference_git reference_msgpack reference_privacy listing
      reference_json no_tags attic (mkStore (notes_world (fun _ => Works)) notes_db None) = (Ok tt, s') /\
    @LocationRepo.get reference_json reference_engine (st_db s') "loc2" = Ok (Some attic)).
Proof.
  assert (calm (notes_world (fun _ => Works))) as Hc by done.
  destruct (ResourceRepo.put_bundle scan notes_db) as [r db'] eqn:Hp.
  assert (r = Ok tt) as -> by (apply (f_equal fst) in Hp; vm_compute in Hp; by rewrite <- Hp).
  apply put_bundle_spec in Hp as (H1 & -> & H2); [|apply notes_wf].
  assert (exists t, render_resource_manifest scan = Ok t) as [t Ht] by (apply rendered; vm_compute; reflexivity).
  assert (exists t, render_location_manifest attic = Ok t) as [lt Hlt] by (apply rendered; vm_compute; reflexivity).
  assert (bound_bundle scan) as HB.
  { split; [done|by intros pv ->%list_elem_of_singleton| |].
    - by intros a ->%list_elem_of_singleton.
    - by intros a p ->%list_elem_of_singleton ->%list_elem_of_singleton. }
  assert (listed scan) as HL.
  { split; [by repeat constructor..|]. intros a ->%list_elem_of_singleton. by repeat constructor. }
  destruct (store_put_commits reference_engine reference_yaml reference_git reference_msgpack reference_privacy listing
    reference_json no_tags scan attic notes "resources/re/s1/res1.json" t "locations/lo/c2/loc2.json" lt new_git (mkIndex ∅ ∅)
    (notes_world (fun _ => Works)) notes_db _ _ _ _ Hc notes_writable (proj1 notes_wf)) as [HA HC].
  split.
  - destruct HA as (s' & He & _ & _ & Hg & _); [done|done|done|done|done|done|done|].
    exists s'. split; [exact He|exact Hg].
  - destruct HC as (s' & He & _ & _ & Hg & _); [done|done|done|by split| |exact attic_bound|exact attic_fits|done| |
      exists s'; split; [exact He|exact Hg]].
    { apply rendered; vm_compute; reflexivity. }
    apply (bool_decide_unpack _). vm_compute. exact I.
Defined.

End ResourceStoresTheorems.
