(* ===== verification/AssetImport.v ===== *)
(** * Importing and retrieving assets

    [src/src/resource/AssetImportService.cpp]: a file is staged, put into a storage provider,
    described by a manifest and attached to a card, all in one commit; and an asset is
    fetched from its provider and recovered. The source and the staging area are outside of
    the project. *)

From stdpp Require Import base list sets strings numbers gmap.
From Stdlib Require Import Ascii.
From S2P Require Import Prelude Double Model Text Tags Database CardRepo Uuid LinkRepo ProjectRepo.
From S2P Require Import CardFrontMatter Disk Mutation Privacy CardChanges Json CryptoService ProjectKeys.
From S2P Require Import AssetEnvelope StorageProvider ResourceManifest ResourceRepo LocationRepo.
From S2P Require Import RebuildResources Rebuild Store ResourceStores.
Import Disk CardMutation CardPaths CardFrontMatter ProjectPrivacy CardStoreChanges CardStore.
Import CryptoService ProjectKeys AssetEnvelope ResourceManifest.

Module AssetImportService.

Record AssetImportRequest := mkRequest {
  rq_project_id : string;
  rq_card_id : string;
  rq_location_id : string;
  source_file : string;
  rq_now : Z
}.
Record AssetImportResult := mkImported {
  im_resource_id : string;
  im_asset_id : string;
  duplicate_reused : bool;
  link_created : bool
}.
Inductive AssetImportStage := Staging | Storing | Committing.

(** ** Names *)

Definition lower_extension (path : string) : string :=
  string_of (map tolower (bytes_of (RebuildFiles.extension path))).
Definition classify (path : string) : string * string :=
  let extension := lower_extension path in
  let one_of names := existsb (String.eqb extension) names in
  if one_of [".jpg"; ".jpeg"] then ("image", "image/jpeg")
  else if one_of [".png"] then ("image", "image/png")
  else if one_of [".gif"] then ("image", "image/gif")
  else if one_of [".webp"] then ("image", "image/webp")
  else if one_of [".svg"] then ("image", "image/svg+xml")
  else if one_of [".pdf"] then ("document", "application/pdf")
  else if one_of [".txt"; ".md"] then ("document", "text/plain")
  else ("thing", "application/octet-stream").

Fixpoint drop_slashes (s : bytes) : bytes :=
  match s with
  | c :: s' => if Ascii.eqb c "/" then drop_slashes s' else s
  | [] => []
  end.
(** The prefix without the slashes around it. *)
Definition trim_prefix (prefix : string) : string :=
  string_of (reverse (drop_slashes (reverse (drop_slashes (bytes_of prefix))))).
Definition configured (key : string) (l : Location) : string :=
  match list_filter (fun kv => String.eqb kv.1 key) (lo_configuration l) with
  | kv :: _ => kv.2
  | [] => ""
  end.
Definition object_key_for (l : Location) (project_id asset_id : string) : string :=
  let prefix := trim_prefix (configured "prefix" l) in
  (if String.eqb prefix "" then "" else prefix +:+ "/") +:+ project_id +:+ "/" +:+ asset_id +:+ ".holderasset".

Definition is_attachment_of (resource : string) (l : CardLink) : bool :=
  String.eqb (to_type l) "resource" && String.eqb (link_kind l) "attachment" && String.eqb (to_card_id l) resource.
Definition has_resource_link (links : list CardLink) (resource : string) : bool :=
  existsb (is_attachment_of resource) links.

Definition remove_quietly (l : Loc) : IO unit := try_catch (fs_remove l) (fun _ => mret tt).
Definition is_regular_file (l : Loc) : IO bool := fs_exists l.

(** ** What is written *)

Definition attachment (rq : AssetImportRequest) (resource : string) : CardLink :=
  mkCardLink (rq_project_id rq) (rq_card_id rq) resource "resource" "attachment"
    (Some (RebuildFiles.filename (source_file rq))) (rq_now rq).

Definition new_placement (rq : AssetImportRequest) (l : Location) (staged : StagedAsset) (asset placement : string) : Placement :=
  mkPlacement placement asset (rq_location_id rq) (object_key_for l (rq_project_id rq) asset) (sa_encoding staged)
    (dg_byte_size (sa_stored staged)) (dg_sha256 (sa_stored staged)) (rq_now rq).
Definition new_bundle (rq : AssetImportRequest) (staged : StagedAsset) (resource asset : string) (p : Placement) : ResourceBundle :=
  let name := RebuildFiles.filename (source_file rq) in
  let '(type, media) := classify (source_file rq) in
  mkBundle (mkResource resource (rq_project_id rq) type name [] (rq_now rq) (rq_now rq))
    [mkAsset asset resource name media (dg_byte_size (sa_plaintext staged)) (dg_sha256 (sa_plaintext staged))
       (rq_now rq) (rq_now rq) [p]].

Section Service.
Context {E : SqlEngine} {Y : Yaml} {L : LibGit2} {J : MsgPack} {V : Privacy} {D : Directory} {N : JsonLib}.
Context {S : Sodium} {A : AssetCrypto}.
Context (md_parse : bytes -> list TagExtractor.MdEvent) (keyring : Keyring).
(** The directory of the service, its source of identifiers (by the number of the call in an
    import) and its callback. *)
Context (staging_root : string) (uuid_v4 : nat -> string) (on_stage : AssetImportStage -> IO unit).

Definition staging_file (name extension : string) : Loc := Outside (staging_root +:+ "/" +:+ name +:+ extension).

Section Provider.
Context (provider : StorageProvider).

(** The link, and the card's file with it, if the card does not have it yet. *)
Definition plan_link (rq : AssetImportRequest) (project : Project) (card : Card) (resource : string) (staging : Loc)
    : M Store (list CardLink * bool * string * string) :=
  let* links := read_db (fun db => LinkRepo.list_outgoing db (rq_project_id rq) (rq_card_id rq)) in
  let link_exists := has_resource_link links resource in
  let links := if link_exists then links else links ++ [attachment rq resource] in
  let* card_path := lift (card_rel_path (card_id card)) in
  when (negb (String.eqb (rel_path card) card_path)) (io (remove_quietly staging) ;;; throw path_error) ;;;
  io (let* raw := fs_read_file (Work card_path) in
      let* plain := decode_card_blob project raw in
      let parsed := parse_card_file plain in
      let* blob := encode_card_blob project
        (render_card_front_matter (set_card_updated_at (rq_now rq) card) links (pf_milestones parsed) +:+ pf_body parsed) in
      mret (links, link_exists, card_path, blob)).

(** The [try] block up to the object: [put], and a look that it is there. *)
Definition store_object (key : string) (staging : Loc) (staged : StagedAsset) : IO unit :=
  on_stage Storing ;;;
  StorageProvider.put key staging (dg_byte_size (sa_stored staged)) (dg_sha256 (sa_stored staged)) ;;;
  let* there := StorageProvider.exists_ key in
  when (negb there) (throw (StorageError Integrity "stored object did not become available")).

(** The [try] block from there to the commit. *)
Definition commit_import (rq : AssetImportRequest) (project : Project) (bundle : option ResourceBundle)
    (link : option (string * string)) : IO unit :=
  let* manifest := match bundle with
    | None => mret []
    | Some bundle =>
        let* path := lift (resource_rel_path (resource_id (bu_resource bundle))) in
        let* text := lift (render_resource_manifest bundle) in
        let* encoded := encode_card_blob project text in
        git_write_file path encoded ;;;
        stage_path path ;;;
        mret [path]
    end in
  on_stage Committing ;;;
  match link with
  | None => mret tt
  | Some (card_path, blob) => git_write_file card_path blob ;;; stage_path card_path
  end ;;;
  assert_project_staged_blobs_safe project (manifest ++ match link with None => [] | Some (card_path, _) => [card_path] end) ;;;
  when (bool_decide (is_Some bundle) || bool_decide (is_Some link))
    (commit ("Attach " +:+ RebuildFiles.filename (source_file rq))).

(** The index, which is rebuilt when it cannot follow a commit. *)
Definition index_import (rq : AssetImportRequest) (project : Project) (bundle : option ResourceBundle)
    (links : option (list CardLink)) : M Store unit :=
  try_catch
    (with_tx (
      in_tx (match bundle with None => mret tt | Some bundle => ResourceRepo.put_bundle bundle end) ;;;
      in_tx (match links with
             | None => mret tt
             | Some links =>
                 LinkRepo.upsert_links (rq_project_id rq) (rq_card_id rq) links ;;;
                 CardRepo.touch_updated (rq_card_id rq) (rq_now rq)
             end) ;;;
      commit_tx))
    (fun e =>
      when (bool_decide (bundle = None) && bool_decide (links = None)) (throw e) ;;;
      Rebuilder.rebuild_project md_parse project ;;; mret tt).

(** [catch (...)]: the staging file goes, and an object that nothing names. *)
Definition clean_up {B} (staging : Loc) (object : option string) (e : error) : M Store B :=
  io (remove_quietly staging) ;;;
  match object with
  | None => mret tt
  | Some key => io (try_catch (StorageProvider.remove key) (fun _ => mret tt))
  end ;;;
  throw e.

Definition live_card (rq : AssetImportRequest) : M Store Card :=
  let* card := read_db (fun db => CardRepo.get db (rq_card_id rq)) in
  match card with
  | Some card =>
      if negb (String.eqb (card_project_id card) (rq_project_id rq)) || card_deleted card
      then throw (Runtime "live card not found in project") else mret card
  | None => throw (Runtime "live card not found in project")
  end.
Definition known_location (rq : AssetImportRequest) : M Store Location :=
  let* found := read_db (fun db => LocationRepo.get db (rq_location_id rq)) in
  let* location := lift found in
  match location with
  | Some location =>
      if negb (String.eqb (lo_project_id location) (rq_project_id rq))
      then throw (Runtime "storage location not found in project") else mret location
  | None => throw (Runtime "storage location not found in project")
  end.

(** From the staged file on. *)
Definition import_staged (rq : AssetImportRequest) (project : Project) (card : Card) (location : Location)
    (staging : Loc) (staged : StagedAsset) (provisional_resource provisional_asset : string) : M Store AssetImportResult :=
  let* duplicate := read_db (fun db =>
    ResourceRepo.find_by_asset_hash db (rq_project_id rq) (dg_sha256 (sa_plaintext staged))) in
  let resource := match duplicate with Some b => resource_id (bu_resource b) | None => provisional_resource end in
  let asset := match duplicate with
               | Some b => match bu_assets b with a :: _ => asset_id a | [] => "" end
               | None => provisional_asset
               end in
  let is_new := bool_decide (duplicate = None) in
  let* plan := plan_link rq project card resource staging in
  let '(links, link_exists, card_path, blob) := plan in
  let* bundle := if is_new
    then try_catch
      (let p := new_placement rq location staged asset (uuid_v4 2) in
       io (store_object (object_key p) staging staged) ;;;
       mret (Some (new_bundle rq staged resource asset p)))
      (clean_up staging None)
    else mret None in
  let stored := match bundle with
                | Some _ => Some (object_key_for location (rq_project_id rq) asset)
                | None => None
                end in
  try_catch (io (commit_import rq project bundle (if link_exists : bool then None else Some (card_path, blob))))
    (clean_up staging stored) ;;;
  try_catch (index_import rq project bundle (if link_exists : bool then None else Some links))
    (clean_up staging None) ;;;
  io (remove_quietly staging) ;;;
  mret (mkImported resource asset (negb is_new) (negb link_exists)).

Definition import_file (rq : AssetImportRequest) : M Store AssetImportResult :=
  let source := Outside (source_file rq) in
  let* readable := io (is_regular_file source) in
  when (negb readable) (throw (InvalidArgument "asset source must be a readable regular file")) ;;;
  let* project := require_known_project (rq_project_id rq) in
  let* card := live_card rq in
  let* location := known_location rq in
  io (open_repository project) ;;;
  io (fs_create_directories (Outside staging_root)) ;;;
  let resource := uuid_v4 0 in
  let asset := uuid_v4 1 in
  let staging := staging_file asset ".staged" in
  io (on_stage Staging) ;;;
  let* staged := io (stage_asset_file keyring source staging project resource asset) in
  import_staged rq project card location staging staged resource asset.

(** ** Retrieving *)

Definition find_by {B} (key : B -> string) (id : string) (l : list B) : option B :=
  match list_filter (fun x => String.eqb (key x) id) l with x :: _ => Some x | [] => None end.
Definition or_throw {B} (what : string) (o : option B) : M Store B :=
  match o with Some x => mret x | None => throw (Runtime what) end.

Definition retrieve (resource asset placement : string) (destination : Loc) : M Store unit :=
  let* found := read_db (fun db => ResourceRepo.get_bundle db resource) in
  let* bundle := or_throw "resource not found" found in
  let* a := or_throw "asset not found in resource" (find_by asset_id asset (bu_assets bundle)) in
  let* p := or_throw "placement not found in asset" (find_by placement_id placement (as_placements a)) in
  let* known := read_db (fun db => ProjectRepo.get db (re_project_id (bu_resource bundle))) in
  let* project := or_throw "project not found" known in
  io (fs_create_directories (Outside staging_root)) ;;;
  let download := staging_file (placement_id p) ".download" in
  io (try_catch
    (StorageProvider.get (object_key p) download ;;;
     recover_asset_file keyring download destination project resource asset (pl_encoding p)
       (mkDigest (stored_byte_size p) (stored_sha256 p)) (mkDigest (byte_size a) (plaintext_sha256 a)) ;;;
     remove_quietly download)
    (fun e => remove_quietly download ;;; remove_quietly destination ;;; throw e)).

End Provider.
End Service.
End AssetImportService.
