(* ===== verification/AssetImportFacts.v ===== *)
(** * An imported asset can be retrieved

    What [import_file] of [AssetImportService.cpp] does when nothing fails, step by step,
    for any storage provider that keeps the promises of the interface. *)

From stdpp Require Import base list sets strings numbers gmap sorting.
From S2P Require Import Prelude Double Model Text Tags Database CardRepo Uuid LinkRepo ProjectRepo.
From S2P Require Import CardFrontMatter Disk Runs Mutation Privacy CardChanges Json CryptoService ProjectKeys.
From S2P Require Import AssetEnvelope AssetEnvelopeFacts StorageProvider LocalProvider ResourceManifest ResourceRepo LocationRepo.
From S2P Require Import ResourceFacts ResourceTheorems RebuildResources RebuildReads Rebuild Store ResourceStores GitRuns.
From S2P Require Import ResourceStoresFacts AssetImport.
Import Disk DiskFacts Runs CardMutation CardPaths CardFrontMatter ProjectPrivacy CardStoreChanges CardStore.
Import CryptoService ProjectKeys AssetEnvelope AssetFiles LocalProviderFacts ResourceManifest ResourceFacts BundleRows BundleReads.
Import RebuildReads GitRuns StoreRuns ResourceStoresFacts AssetImportService.

Module AssetImportFacts.

(** ** Files elsewhere *)

Definition elsewhere_only (P : Loc -> Prop) : Prop := forall l, P l -> exists path, l = Outside path.

Lemma touches_refl P w : touches P w w.
Proof. by repeat split. Qed.
Lemma touches_trans P w1 w2 w3 : touches P w1 w2 -> touches P w2 w3 -> touches P w1 w3.
Proof. intros [D1 C1] [D2 C2]. split; [by eapply differs_trans|congruence]. Qed.
Lemma touches_weaken (P Q : Loc -> Prop) w w' : touches P w w' -> (forall l, P l -> Q l) -> touches Q w w'.
Proof. intros [D C] H. split; [by eapply differs_weaken|done]. Qed.
Lemma still_touches P w w' : still w w' -> touches P w w'.
Proof. intros [Hd Hc]. split; [rewrite Hd; apply differs_refl|done]. Qed.

Lemma touches_work P w w' : elsewhere_only P -> touches P w w' -> work (disk w') = work (disk w).
Proof.
  intros HP [[_ H] _]. apply map_eq. intros k. apply (H (Work k)). intros Hk. by destruct (HP _ Hk).
Qed.
Lemma touches_repo P g i `{L : LibGit2} w w' : elsewhere_only P -> touches P w w' -> repo_at g i w -> repo_at g i w'.
Proof.
  intros HP [[Hg H] Hc] [H1 H2 H3]. split; [congruence| |by rewrite Hc].
  assert (index_file (disk w') = index_file (disk w)) as ->; [|done].
  apply (H IndexFile). intros Hk. by destruct (HP _ Hk).
Qed.

(** A run, with what holds of every run. *)
Lemma runs_with {A} (m : IO A) w Q (T : World -> Prop) :
  runs m w Q -> (forall r w', m w = (r, w') -> T w') -> runs m w (fun a w' => Q a w' /\ T w').
Proof. intros H HT Hc. destruct (H Hc) as (a & w' & He & Hc' & HQ). exists a, w'. split; [done|]. split; [done|]. split; [done|]. by eapply HT. Qed.
Lemma preserves_run {S A} (P : S -> Prop) (m : M S A) s r s' : preserves P m -> P s -> m s = (r, s') -> P s'.
Proof. intros H Hs He. specialize (H s Hs). by rewrite He in H. Qed.

Lemma caches_stream c l : preserves (caches c) (read_stream l).
Proof. intros w Hw. unfold read_stream. by destruct (outcomes w (tick w)) as [|[s|]|s]. Qed.

#[local] Hint Resolve caches_exists caches_create caches_read caches_stream caches_open caches_output caches_private caches_remove
  caches_rename caches_write caches_unchecked caches_digest : preserves.

Section Envelope.
Context {A : AssetCrypto} {S : Sodium} {N : JsonLib}.
Lemma caches_stage c k source destination project resource asset :
  preserves (caches c) (stage_asset_file k source destination project resource asset).
Proof. unfold stage_asset_file. keeps_cache. Qed.
Lemma caches_recover c k stored destination project resource asset encoding e1 e2 :
  preserves (caches c) (recover_asset_file k stored destination project resource asset encoding e1 e2).
Proof. unfold recover_asset_file. keeps_cache. Qed.
End Envelope.

Lemma runs_remove_quietly l w :
  runs (remove_quietly l) w (fun _ w' => disk w' = poke l None (disk w) /\ cached w' = cached w).
Proof. apply runs_try, runs_attempt. intros Hc. by eexists _, _. Qed.

Section Import.
Context {E : SqlEngine} `{!SqlEngineLaws E} {Y : Yaml} {L : LibGit2} `{!LibGit2Laws L} {J : MsgPack} {V : Privacy} `{!PrivacyLaws V}.
Context {D : Directory} {N : JsonLib} `{!JsonLaws N} {S : Sodium} {A : AssetCrypto} `{!AssetCryptoLaws A}.
Context (md_parse : bytes -> list TagExtractor.MdEvent) (keyring : Keyring).
Context (staging_root : string) (uuid_v4 : nat -> string) (on_stage : AssetImportStage -> IO unit).
Context (provider : StorageProvider) `{PL : !ProviderLaws provider}.

(** A callback that only looks. *)
Definition quiet_callback : Prop := forall st w, runs (on_stage st) w (fun _ w' => still w w').

(** ** Steps *)

Lemma runs_store_object key staging staged stored w :
  quiet_callback -> valid_key key -> ~ owns staging -> peek staging (disk w) = Some stored ->
  objects (disk w) key = None -> sa_stored staged = digest (bytes_of stored) ->
  runs (store_object on_stage provider key staging staged) w
    (fun _ w' => objects (disk w') key = Some stored /\ touches owns w w').
Proof.
  intros Hq Hk Hown Hp Hn Hst. unfold store_object. rewrite Hst.
  eapply runs_bind; [apply Hq|]. after w1 H1. pose proof (still_touches owns _ _ H1) as T1. destruct H1 as [Hd1 _].
  eapply runs_bind.
  { eapply runs_with; [apply (put_runs key staging stored); rewrite ?Hd1; done|].
    intros r w' He. by apply (put_any _ _ _ _ _ _ _ Hk) in He as [HT _]. }
  after w2 H2. destruct H2 as [Ho T2].
  eapply runs_bind; [eapply runs_with; [by apply (exists_runs key)|intros r w' He; by apply exists_any in He as [HT _]]|].
  intros b w3 [-> T3]. rewrite Ho, bool_decide_eq_true_2 by done. apply runs_mret. split.
  - rewrite (objects_elsewhere (disk w2)); [done|done|]. intros l _. apply T3. tauto.
  - eapply touches_trans; [exact T1|]. eapply touches_trans; [exact T2|]. by eapply touches_weaken; [exact T3|].
Qed.

Lemma sruns_plan_link rq project card resource staging raw text w db :
  card_rel_path (card_id card) = Ok (rel_path card) -> work (disk w) !! rel_path card = Some raw ->
  written project text raw -> can_encrypt project ->
  has_resource_link (LinkRepo.list_outgoing db (rq_project_id rq) (rq_card_id rq)) resource = false ->
  let links := LinkRepo.list_outgoing db (rq_project_id rq) (rq_card_id rq) ++ [attachment rq resource] in
  sruns (plan_link rq project card resource staging) (mkStore w db None) (fun r s' => exists w' blob,
    s' = mkStore w' db None /\ still w w' /\ r = (links, false, rel_path card, blob) /\
    written project (render_card_front_matter (set_card_updated_at (rq_now rq) card) links
      (pf_milestones (parse_card_file text)) +:+ pf_body (parse_card_file text)) blob).
Proof.
  intros Hpath Hraw Hwr Hk Hno links. unfold plan_link. apply sruns_read. cbn [current_db st_tx st_db].
  rewrite Hno. fold links. apply (sruns_lift _ (rel_path card)); [done|].
  apply sruns_when; [by rewrite String.eqb_refl|]. eapply sruns_weaken.
  - apply (sruns_io _ _ (fun r w' => still w w' /\ exists blob, r = (links, false, rel_path card, blob) /\
      written project (render_card_front_matter (set_card_updated_at (rq_now rq) card) links
        (pf_milestones (parse_card_file text)) +:+ pf_body (parse_card_file text)) blob)). cbn [st_world].
    eapply (runs_bind _ _ _ (fun t w' => t = raw /\ still w w')).
    { apply runs_attempt. intros Hc. cbn. rewrite Hraw. by eexists _, _. }
    intros ? w1 [-> S1]. eapply runs_bind; [by apply (runs_decode project text)|]. intros ? w2 [-> S2].
    eapply runs_bind; [by apply runs_encode|]. intros blob w3 [Hb S3]. apply runs_mret.
    split; [|by exists blob]. destruct S1, S2, S3. split; congruence.
  - intros r s' (w' & -> & Hs & blob & -> & Hb). by exists w', blob.
Qed.

Lemma runs_commit_import rq project bundle card_path blob path text g i w :
  quiet_callback -> writable project g i w -> (encrypted project = true -> String.prefix blob_header blob = true) ->
  resource_rel_path (resource_id (bu_resource bundle)) = Ok path -> render_resource_manifest bundle = Ok text ->
  runs (commit_import on_stage rq project (Some bundle) (Some (card_path, blob))) w (fun _ w' => exists raw g' t,
    written project text raw /\ work (disk w') = <[card_path := blob]> (<[path := raw]> (work (disk w))) /\
    elsewhere (disk w') = elsewhere (disk w) /\ git (disk w') = Some g' /\ head_tree g' = Some t /\
    t !! card_path = Some (entry_of card_path blob) /\ (path <> card_path -> t !! path = Some (entry_of path raw))).
Proof.
  intros Hq [Hr Hm Hb Hk Hf] Hblob Hpath Htext. unfold commit_import.
  eapply (runs_bind _ _ _ (fun ps w1 => ps = [path] /\ exists raw, written project text raw /\
    repo_at (staged_git raw g) (staged_index path raw i) w1 /\
    work (disk w1) = <[path := raw]> (work (disk w)) /\ elsewhere (disk w1) = elsewhere (disk w))).
  { eapply runs_bind; [by apply (runs_lift _ path _ (fun p w' => p = path /\ w' = w))|]. intros ? ? [-> ->].
    eapply runs_bind; [by apply (runs_lift _ text _ (fun p w' => p = text /\ w' = w))|]. intros ? ? [-> ->].
    eapply runs_bind; [by apply runs_encode|]. intros raw w1 [Hraw S1].
    eapply runs_bind; [apply (runs_git_write_file path raw g i); by eapply repo_at_still|]. after w2 H2. destruct H2 as [Hr2 Hd2].
    eapply runs_bind; [apply (runs_stage_path path raw); [exact Hr2|rewrite Hd2; apply lookup_insert_eq]|].
    after w3 H3. destruct H3 as [Hr3 (Hw3 & He3 & _)]. apply runs_mret. split; [done|]. exists raw.
    destruct S1 as [Hd1 _]. rewrite Hw3, He3, Hd2, Hd1. done. }
  intros ? w1 (-> & raw & Hraw & Hr1 & Hw1 & He1).
  eapply runs_bind; [apply Hq|]. after w2 H2. pose proof (repo_at_still _ _ _ _ Hr1 H2) as Hr2. destruct H2 as [Hd2 _].
  set (g1 := staged_git raw g) in *. set (i1 := staged_index path raw i) in *.
  eapply (runs_bind _ _ _ (fun _ w3 => repo_at (staged_git blob g1) (staged_index card_path blob i1) w3 /\
    work (disk w3) = <[card_path := blob]> (work (disk w2)) /\ elsewhere (disk w3) = elsewhere (disk w2))).
  { eapply runs_bind; [apply (runs_git_write_file card_path blob g1 i1 w2 Hr2)|]. after w3 H3. destruct H3 as [Hr3 Hd3].
    eapply runs_weaken; [apply (runs_stage_path card_path blob); [exact Hr3|rewrite Hd3; apply lookup_insert_eq]|].
    intros u w4 [Hr4 (Hw4 & He4 & _)]. rewrite Hw4, He4, Hd3. done. }
  after w3 H3. destruct H3 as (Hr3 & Hw3 & He3).
  eapply runs_bind.
  { apply (runs_assert_safe _ _ _ _ _ Hr3). intros He p Hp. cbn [app] in Hp.
    apply elem_of_cons in Hp as [->|Hp]; [|apply list_elem_of_singleton in Hp as ->].
    - apply staged_stays_sealed; [done|by apply Hblob|]. apply staged_is_sealed; [done|by eapply written_sealed].
    - apply staged_is_sealed; [done|by apply Hblob]. }
  after w4 S4. pose proof (repo_at_still _ _ _ _ Hr3 S4) as Hr4. destruct S4 as [Hd4 _].
  rewrite bool_decide_eq_true_2 by done. cbn [orb when].
  set (i2 := staged_index card_path blob i1) in *. set (g2 := staged_git blob g1) in *.
  eapply runs_weaken; [apply (runs_commit _ g2 i2 _ Hr4)|].
  { cbn. rewrite Hm. set_solver. }
  intros u w5 [Hr5 (Hw5 & He5 & _)].
  exists raw, (committed_git ("Attach " +:+ RebuildFiles.filename (source_file rq)) g2 i2), (entries i2).
  split; [done|]. split; [by rewrite Hw5, Hd4, Hw3, Hd2, Hw1|]. split; [by rewrite He5, Hd4, He3, Hd2, He1|].
  split; [apply Hr5|]. split; [by apply committed_tree|]. split; [apply lookup_insert_eq|].
  intros Hne. cbn. rewrite lookup_insert_ne by congruence. apply lookup_insert_eq.
Qed.

(** ** The index *)

(** Two statements of one transaction. *)
Lemma sruns_transaction2 (m1 m2 : Repo unit) db1 db2 s :
  st_tx s = None -> m1 (st_db s) = (Ok tt, db1) -> m2 db1 = (Ok tt, db2) ->
  sruns (with_tx (in_tx m1 ;;; in_tx m2 ;;; commit_tx)) s
    (fun _ s' => st_db s' = db2 /\ st_tx s' = None /\ still (st_world s) (st_world s')).
Proof.
  intros Ht H1 H2 Hc. set (w := st_world s) in *. assert (calm (advance w)) as Hc1 by exact Hc.
  assert (with_tx (in_tx m1 ;;; in_tx m2 ;;; commit_tx) s = (Ok tt, mkStore (advance (advance w)) db2 None)) as He.
  { unfold with_tx, begin_tx, commit_tx, bind, io, attempt, modify, in_tx, mret. cbn [st_world st_db st_tx]. fold w.
    rewrite (Hc (tick w)). cbn [st_world st_db st_tx]. rewrite H1. cbn [st_world st_db st_tx]. rewrite H2.
    cbn [st_world st_db st_tx]. by rewrite (Hc1 (tick (advance w))). }
  exists tt, (mkStore (advance (advance w)) db2 None). split; [exact He|]. split; [exact Hc|]. by repeat split.
Qed.

(** A card can be touched. *)
Lemma touch_ok id t db : cards_wf db -> exists cs, CardRepo.touch_updated id t db = (Ok tt, set_cards cs db).
Proof.
  intros W. unfold CardRepo.touch_updated, exec.
  exists (CardRepoFacts.updated_rows (bind_text id) (set_card_updated_at t) db).
  rewrite (proj2 (CardRepoFacts.update_card_spec (bind_text id) (set_card_updated_at t) db
    (set_cards (CardRepoFacts.updated_rows (bind_text id) (set_card_updated_at t) db) db))); [done|].
  split; [reflexivity|]. intros c Hc Hid. cbn. split; [by apply (wf_keys _ W)|]. split.
  - pose proof (wf_parents _ W c Hc) as Hp. revert Hp. unfold cards_parent_ok. cbn. destruct (parent_card_id c) as [p|]; [|done].
    rewrite !CardRepoFacts.card_exists_spec, CardRepoFacts.updated_rows_ids; [done|].
    intros d. do 2 (split; [done|]).
    rewrite !CardRepoFacts.bind_card_id. cbn. naive_solver.
  - intros e He Hne Heq. pose proof (wf_rel_paths _ W) as Hn.
    assert (e = c) as ->; [|done]. by apply (NoDup_map_inj _ _ e c Hn).
Qed.

Lemma link_ok rq links db :
  LinkRepoFacts.links_wf db -> cards_wf db -> project_exists (bind_text (rq_project_id rq)) db = true ->
  Forall (LinkRepoFacts.belongs (rq_project_id rq) (rq_card_id rq)) links ->
  exists ls cs,
    (LinkRepo.upsert_links (rq_project_id rq) (rq_card_id rq) links ;;;
     CardRepo.touch_updated (rq_card_id rq) (rq_now rq)) db = (Ok tt, set_cards cs (set_card_links ls db)) /\
    LinkRepoFacts.link_map ls = LinkRepoFacts.upsert_all links (LinkRepoFacts.link_map (card_links db)).
Proof.
  intros LW CW Hp Hall. destruct (LinkRepoFacts.upsert_links_good _ _ links db LW Hp Hall) as (db1 & H1 & _ & He & Hm).
  destruct (touch_ok (rq_card_id rq) (rq_now rq) db1) as [cs Ht]; [rewrite He; by destruct CW|].
  exists (card_links db1), cs. split; [|done]. rewrite (bind_seq _ _ _ db1 H1), Ht. by rewrite He at 1.
Qed.

Lemma sruns_index_import rq project bundle links w db db1 db2 :
  ResourceRepo.put_bundle bundle db = (Ok tt, db1) ->
  (LinkRepo.upsert_links (rq_project_id rq) (rq_card_id rq) links ;;;
   CardRepo.touch_updated (rq_card_id rq) (rq_now rq)) db1 = (Ok tt, db2) ->
  sruns (index_import md_parse rq project (Some bundle) (Some links)) (mkStore w db None)
    (fun _ s' => exists w', s' = mkStore w' db2 None /\ still w w').
Proof.
  intros H1 H2. apply sruns_try. eapply sruns_weaken; [by apply (sruns_transaction2 _ _ db1 db2)|].
  intros u [w' d t] (Hd & Ht & Hs). cbn in Hd, Ht, Hs. subst. by exists w'.
Qed.

(** ** The import of an asset that the project does not have *)

Definition resource := uuid_v4 0.
Definition asset := uuid_v4 1.
Definition placement := uuid_v4 2.
Definition staging := staging_file staging_root asset ".staged".
Definition download := staging_file staging_root placement ".download".
Definition imported_bundle (rq : AssetImportRequest) (l : Location) (st : StagedAsset) : ResourceBundle :=
  new_bundle rq st resource asset (new_placement rq l st asset placement).
Definition links_after (rq : AssetImportRequest) (db : Db) : list CardLink :=
  LinkRepo.list_outgoing db (rq_project_id rq) (rq_card_id rq) ++ [attachment rq resource].

(** What the index and the environment hold for such an import. *)
Record importable (rq : AssetImportRequest) (project : Project) (card : Card) (l : Location) (text content : string) (w : World) (db : Db) : Prop := {
  ip_source : peek (Outside (source_file rq)) (disk w) = Some content;
  ip_project : ProjectRepo.get db (rq_project_id rq) = Some project;
  ip_card : CardRepo.get db (rq_card_id rq) = Some card;
  ip_live : card_project_id card = rq_project_id rq /\ deleted_at card = None;
  ip_path : card_rel_path (card_id card) = Ok (rel_path card);
  ip_file : exists raw, work (disk w) !! rel_path card = Some raw /\ written project text raw;
  ip_location : LocationRepo.get db (rq_location_id rq) = Ok (Some l);
  ip_owner : lo_project_id l = rq_project_id rq;
  ip_staging : Outside (source_file rq) <> staging /\ ~ owns staging /\ ~ owns download;
  ip_key : valid_key (object_key_for l (rq_project_id rq) asset) /\
    objects (disk w) (object_key_for l (rq_project_id rq) asset) = None;
  ip_storable : storable_asset keyring project resource asset;
  ip_new : forall sha, sha = dg_sha256 (digest (bytes_of content)) ->
    ResourceRepo.find_by_asset_hash db (rq_project_id rq) sha = None;
  ip_unlinked : has_resource_link (LinkRepo.list_outgoing db (rq_project_id rq) (rq_card_id rq)) resource = false;
  ip_bundle : forall st stored, staged_as keyring project resource asset (bytes_of content) st stored ->
    (exists manifest, render_resource_manifest (imported_bundle rq l st) = Ok manifest) /\
    putable (imported_bundle rq l st) /\ bound_bundle (imported_bundle rq l st) /\
    resources_wf (ResourceRepo.on_resources (put_rows (imported_bundle rq l st)) db);
  ip_manifest : exists path, resource_rel_path resource = Ok path /\ path <> rel_path card;
  ip_wf : resources_wf db /\ LinkRepoFacts.links_wf db /\ cards_wf db;
  ip_bound : bind_text (rq_project_id rq) = rq_project_id rq /\ bind_text (rq_card_id rq) = rq_card_id rq
}.

(** What holds after it: [st] and [stored] are what was staged, [t] the tree of HEAD. *)
Record imported (rq : AssetImportRequest) (project : Project) (card : Card) (l : Location) (text content : string)
    (st : StagedAsset) (stored : bytes) (db : Db) (w' : World) (db' : Db) : Prop := {
  im_staged : staged_as keyring project resource asset (bytes_of content) st stored;
  im_object : objects (disk w') (object_key_for l (rq_project_id rq) asset) = Some (string_of stored);
  im_clean : peek staging (disk w') = None;
  im_bundle : ResourceRepo.get_bundle db' resource = Some (imported_bundle rq l st);
  im_project : ProjectRepo.get db' (rq_project_id rq) = Some project;
  im_links : LinkRepoFacts.link_map (card_links db') =
    LinkRepoFacts.upsert_all (links_after rq db) (LinkRepoFacts.link_map (card_links db));
  im_head : exists g t path manifest raw blob,
    git (disk w') = Some g /\ head_tree g = Some t /\
    resource_rel_path resource = Ok path /\ render_resource_manifest (imported_bundle rq l st) = Ok manifest /\
    written project manifest raw /\ t !! path = Some (entry_of path raw) /\ work (disk w') !! path = Some raw /\
    written project (render_card_front_matter (set_card_updated_at (rq_now rq) card) (links_after rq db)
      (pf_milestones (parse_card_file text)) +:+ pf_body (parse_card_file text)) blob /\
    t !! rel_path card = Some (entry_of (rel_path card) blob) /\ work (disk w') !! rel_path card = Some blob
}.

Lemma objects_same k d d' : valid_key k -> elsewhere d' = elsewhere d -> objects d' k = objects d k.
Proof.
  intros Hk He. apply objects_elsewhere; [done|]. intros l Hl. destruct (owns_outside l Hl) as [path ->]. cbn. by rewrite He.
Qed.
Lemma owns_elsewhere : elsewhere_only owns.
Proof. exact owns_outside. Qed.

Lemma links_belong rq db :
  bind_text (rq_project_id rq) = rq_project_id rq -> bind_text (rq_card_id rq) = rq_card_id rq ->
  Forall (LinkRepoFacts.belongs (rq_project_id rq) (rq_card_id rq)) (links_after rq db).
Proof.
  intros Hp Hc. unfold links_after. apply list.Forall_app. split; [|by repeat constructor].
  apply list.Forall_forall. intros x Hx. unfold LinkRepo.list_outgoing in Hx. apply sql_select_elem in Hx as [_ Hx].
  unfold LinkRepo.outgoing_of in Hx. rewrite Hp, Hc in Hx. apply andb_true_iff in Hx as [H1%String.eqb_eq H2%String.eqb_eq]. by split.
Qed.

Lemma new_bundle_listed rq l st : listed (imported_bundle rq l st).
Proof.
  unfold imported_bundle, new_bundle. destruct (classify _). split; cbn; [constructor|repeat constructor|].
  intros a ->%list_elem_of_singleton. repeat constructor.
Qed.
Lemma new_bundle_indexed rq l st : indexed (imported_bundle rq l st) = imported_bundle rq l st.
Proof. unfold imported_bundle, new_bundle. by destruct (classify _). Qed.
Lemma new_bundle_id rq l st : resource_id (bu_resource (imported_bundle rq l st)) = resource.
Proof. unfold imported_bundle, new_bundle. by destruct (classify _). Qed.

Lemma new_bundle_project rq l st : re_project_id (bu_resource (imported_bundle rq l st)) = rq_project_id rq.
Proof. unfold imported_bundle, new_bundle. by destruct (classify _). Qed.

(** From the staged file on, in a repository that can be written to. *)
Lemma sruns_import_staged rq project card l text content st stored g i w0 w db :
  quiet_callback -> importable rq project card l text content w0 db ->
  staged_as keyring project resource asset (bytes_of content) st stored ->
  writable project g i w -> work (disk w) = work (disk w0) ->
  objects (disk w) (object_key_for l (rq_project_id rq) asset) = None ->
  peek staging (disk w) = Some (string_of stored) ->
  sruns (import_staged md_parse uuid_v4 on_stage provider rq project card l staging st resource asset) (mkStore w db None)
    (fun r s' => exists w' db', r = mkImported resource asset false true /\ s' = mkStore w' db' None /\
       imported rq project card l text content st stored db w' db').
Proof.
  intros Hq [Hsrc Hp Hcard Hlive Hcp (raw & Hraw & Hwr) Hl Hlo (Hne & Hown & Hdown) (Hk & Hno) Hst Hnew Hun Hb
             (path & Hpath & Hpne) (RW & LW & CW) (Bp & Bc)] Hsa Hw Hwork Hnone Hpeek.
  destruct (Hb st stored Hsa) as ((manifest & Hman) & Hput & Hbound & W'). set (bundle := imported_bundle rq l st) in *.
  pose proof Hsa as (Hdp & Hds & Henc). set (key := object_key_for l (rq_project_id rq) asset) in *.
  unfold import_staged. apply sruns_read. cbn [current_db st_tx st_db].
  rewrite (Hnew (dg_sha256 (sa_plaintext st))) by (by rewrite Hdp). rewrite bool_decide_eq_true_2 by done. cbn [negb].
  eapply sruns_bind.
  { apply (sruns_plan_link rq project card resource staging raw text); [done|by rewrite Hwork|done|apply Hw|done]. }
  intros ? ? (w1 & blob & -> & S1 & -> & Hblob). cbn [fst snd].
  assert (writable project g i w1) as Hw1 by (destruct Hw; split; [by eapply repo_at_still|done..]).
  assert (disk w1 = disk w) as Hd1 by apply S1.
  eapply (sruns_bind _ _ _ (fun b s' => b = Some bundle /\ exists w2, s' = mkStore w2 db None /\
    objects (disk w2) key = Some (string_of stored) /\ touches owns w1 w2)).
  { apply sruns_try. io_step (runs_store_object key staging st (string_of stored) w1 Hq Hk Hown ltac:(by rewrite Hd1)
      ltac:(by rewrite Hd1) ltac:(by rewrite bytes_of_string_of)) w2 H2. apply sruns_mret. split; [done|]. by exists w2. }
  intros ? ? (-> & w2 & -> & Hobj & T2).
  assert (writable project g i w2) as Hw2.
  { destruct Hw1. split; [by eapply (touches_repo _ _ _ _ _ owns_elsewhere T2)|done..]. }
  assert (work (disk w2) = work (disk w0)) as Hwork2 by (rewrite (touches_work _ _ _ owns_elsewhere T2), Hd1; done).
  eapply (sruns_bind _ _ _ (fun _ s' => exists w3, s' = mkStore w3 db None /\ exists mraw g' t,
    written project manifest mraw /\ work (disk w3) = <[rel_path card := blob]> (<[path := mraw]> (work (disk w2))) /\
    elsewhere (disk w3) = elsewhere (disk w2) /\ git (disk w3) = Some g' /\ head_tree g' = Some t /\
    t !! rel_path card = Some (entry_of (rel_path card) blob) /\ (path <> rel_path card -> t !! path = Some (entry_of path mraw)))).
  { apply sruns_try. eapply sruns_weaken.
    - apply sruns_io. cbn [st_world]. eapply runs_commit_import; [done|exact Hw2| |by unfold bundle; rewrite new_bundle_id|exact Hman].
      intros He. by eapply written_sealed.
    - intros u s' (w3 & -> & H3). by exists w3. }
  intros [] ? (w3 & -> & mraw & g' & t & Hmw & Hwk & Hel & Hg & Ht & Htc & Htm).
  destruct (link_ok rq (links_after rq db) (ResourceRepo.on_resources (put_rows bundle) db)) as (ls & cs & Hlinks & Hlm).
  { destruct LW. by split. }
  { destruct CW. by split. }
  { destruct (put_rows_asked bundle db W') as [He _]. unfold bundle in He. by rewrite new_bundle_project in He. }
  { by apply links_belong. }
  eapply sruns_bind.
  { apply sruns_try. eapply sruns_index_import; [|exact Hlinks]. by apply put_bundle_spec. }
  intros u ? (w4 & -> & S4). io_step (runs_remove_quietly staging w4) w5 H5. destruct H5 as [Hd5 _].
  apply sruns_mret. eexists w5, _. split; [done|]. split; [done|].
  assert (disk w4 = disk w3) as Hd4 by apply S4.
  split.
  - exact Hsa.
  - rewrite <- Hobj. rewrite (objects_elsewhere (disk w3)); [by apply objects_same|done|].
    intros x Hx. rewrite Hd5, Hd4, peek_poke_ne; [done|]. by intros <-.
  - rewrite Hd5. apply peek_poke.
  - transitivity (ResourceRepo.get_bundle (ResourceRepo.on_resources (put_rows bundle) db) resource); [done|].
    rewrite <- (new_bundle_id rq l st), (get_bundle_written bundle db RW W'); [by unfold bundle; rewrite new_bundle_indexed|done|apply new_bundle_listed].
  - exact Hp.
  - exact Hlm.
  - exists g', t, path, manifest, mraw, blob.
    assert (git (disk w5) = Some g') as -> by (rewrite Hd5, Hd4; exact Hg).
    assert (work (disk w5) = work (disk w3)) as -> by (rewrite Hd5, Hd4; done).
    do 5 (split; [done|]). split; [by apply Htm|]. rewrite Hwk. split; [by rewrite lookup_insert_ne, lookup_insert_eq by congruence|].
    split; [done|]. split; [done|]. apply lookup_insert_eq.
Qed.

Lemma runs_regular_file x c w :
  peek x (disk w) = Some c -> runs (is_regular_file x) w (fun b w' => b = true /\ still w w').
Proof.
  intros H. apply runs_attempt. intros Hc. eexists _, _. split; [reflexivity|]. split; [exact Hc|].
  change (disk (advance w)) with (disk w). by rewrite H, bool_decide_eq_true_2.
Qed.
Lemma runs_make_directories x w : runs (fs_create_directories x) w (fun _ w' => still w w').
Proof. apply runs_attempt. by apply runs_mret. Qed.

Lemma sruns_live_card rq card s :
  CardRepo.get (current_db s) (rq_card_id rq) = Some card -> card_project_id card = rq_project_id rq -> deleted_at card = None ->
  live_card rq s = (Ok card, s).
Proof.
  intros Hc Hp Hd. unfold live_card, bind, read_db, gets. rewrite Hc, Hp, String.eqb_refl. unfold card_deleted. by rewrite Hd.
Qed.
Lemma sruns_known_location rq l s :
  LocationRepo.get (current_db s) (rq_location_id rq) = Ok (Some l) -> lo_project_id l = rq_project_id rq ->
  known_location rq s = (Ok l, s).
Proof. intros Hl Hp. unfold known_location, bind, read_db, gets, lift. by rewrite Hl, Hp, String.eqb_refl. Qed.
Lemma sruns_step {B C} (m : M Store B) b (f : B -> M Store C) s Q :
  m s = (Ok b, s) -> sruns (f b) s Q -> sruns (bind m f) s Q.
Proof. intros Hm H Hc. unfold bind. rewrite Hm. by apply H. Qed.

Lemma sruns_import rq project card l text content g i w db :
  quiet_callback -> importable rq project card l text content w db -> writable project g i w ->
  sruns (import_file md_parse keyring staging_root uuid_v4 on_stage provider rq) (mkStore w db None)
    (fun r s' => exists w' db' st stored, r = mkImported resource asset false true /\ s' = mkStore w' db' None /\
       imported rq project card l text content st stored db w' db').
Proof.
  intros Hq Hi Hw. pose proof Hi as [Hsrc Hp Hcard [Hlive Hdel] Hcp Hfile Hl Hlo (Hne & Hown & Hdown) (Hk & Hno) Hst _ _ _ _ _ _].
  unfold import_file. cbv zeta. io_step (runs_regular_file _ _ _ Hsrc) w1 H1. destruct H1 as [-> S1]. apply sruns_when; [done|].
  apply (sruns_known _ project); [exact Hp|]. apply (sruns_step _ card); [by apply sruns_live_card|].
  apply (sruns_step _ l); [by apply sruns_known_location|].
  assert (writable project g i w1) as Hw1 by (destruct Hw; split; [by eapply repo_at_still|done..]).
  eapply sruns_open; [exact Hw1|]. intros g' w2 Hw2 Hwk2 He2 _.
  io_step (runs_make_directories (Outside staging_root) w2) w3 S3. io_step (Hq Staging w3) w4 S4.
  assert (elsewhere (disk w4) = elsewhere (disk w)) as He4.
  { destruct S1 as [E1 _], S3 as [E3 _], S4 as [E4 _]. by rewrite E4, E3, He2, E1. }
  assert (peek (Outside (source_file rq)) (disk w4) = Some content) as Hs4 by (cbn; rewrite He4; exact Hsrc).
  eapply sruns_bind.
  { apply sruns_io. eapply runs_with; [eapply (runs_stage keyring _ staging project resource asset content w4 Hs4 Hne Hst)|].
    intros r w' Hr. by apply (preserves_run (caches (cached w4)) _ _ _ _ (caches_stage _ _ _ _ _ _ _) eq_refl Hr). }
  intros st ? (w5 & -> & (stored & Hd5 & Hsa) & C5).
  assert (touches (fun x => x = staging) w4 w5) as T5.
  { split; [|done]. rewrite Hd5. split; [done|]. intros x Hx. rewrite peek_poke_ne; [done|]. by intros <-. }
  assert (elsewhere_only (fun x => x = staging)) as Honly by (intros x ->; by eexists).
  eapply sruns_weaken; [eapply (sruns_import_staged rq project card l text content st stored g' i w _ db Hq Hi Hsa)|].
  - cbn [st_world]. destruct Hw2. split; [|done..]. eapply touches_repo; [exact Honly|exact T5|].
    eapply repo_at_still; [eapply repo_at_still; [done|exact S3]|exact S4].
  - rewrite (touches_work _ _ _ Honly T5). destruct S1 as [E1 _], S3 as [E3 _], S4 as [E4 _]. by rewrite E4, E3, Hwk2, E1.
  - rewrite <- Hno, <- (objects_same _ (disk w) (disk w4)) by done. apply objects_elsewhere; [done|]. intros x Hx.
    apply T5. by intros ->.
  - rewrite Hd5. apply peek_poke.
  - intros r s' (w' & db' & -> & -> & H). by exists w', db', st, stored.
Qed.

(** ** Retrieving what was imported *)

Lemma found_single {B} what (key : B -> string) id x (s : Store) :
  key x = id -> or_throw what (find_by key id [x]) s = (Ok x, s).
Proof. intros <-. unfold find_by. cbn. by rewrite String.eqb_refl. Qed.

Lemma sruns_retrieve rq project card l text content st stored db w' db' destination :
  imported rq project card l text content st stored db w' db' ->
  valid_key (object_key_for l (rq_project_id rq) asset) -> ~ owns download -> ~ owns destination -> download <> destination ->
  sruns (retrieve keyring staging_root provider resource asset placement destination) (mkStore w' db' None)
    (fun _ s' => exists w2, s' = mkStore w2 db' None /\ peek destination (disk w2) = Some content /\ peek download (disk w2) = None /\
       forall x, ~ owns x -> x <> download -> x <> destination -> peek x (disk w2) = peek x (disk w')).
Proof.
  intros [(Hdp & Hds & Henc) Hobj _ Hb Hp _ _] Hk Hd Hdd Hne. unfold retrieve.
  apply sruns_read. cbn [current_db st_tx st_db]. rewrite Hb. unfold imported_bundle, new_bundle.
  destruct (classify (source_file rq)) as [type media] eqn:Hcl. unfold new_placement. cbn [bu_assets bu_resource].
  eapply sruns_step; [reflexivity|]. cbn [bu_assets].
  eapply sruns_step; [by apply (found_single _ asset_id)|]. cbn [as_placements].
  eapply sruns_step; [by apply (found_single _ placement_id)|]. cbn [re_project_id bu_resource].
  apply sruns_read. cbn [current_db st_tx st_db]. rewrite Hp. eapply sruns_step; [reflexivity|].
  io_step (runs_make_directories (Outside staging_root) w') w1 S1. cbn [object_key placement_id pl_encoding stored_byte_size stored_sha256 byte_size plaintext_sha256].
  fold download. set (key := object_key_for l (rq_project_id rq) asset) in *.
  assert (objects (disk w1) key = Some (string_of stored)) as Hobj1 by (destruct S1 as [-> _]; exact Hobj).
  eapply sruns_weaken.
  - apply (sruns_io _ _ (fun _ w2 => peek destination (disk w2) = Some content /\ peek download (disk w2) = None /\
      forall x, ~ owns x -> x <> download -> x <> destination -> peek x (disk w2) = peek x (disk w'))).
    cbn [st_world]. apply runs_try.
    eapply runs_bind; [eapply runs_with; [by apply (get_runs key download (string_of stored))|]|].
    { intros r w2 Hr. by apply get_any in Hr as [HT _]. }
    intros u w2 [Hp2 [[_ T2] _]]. cbn beta in Hp2.
    eapply runs_bind.
    { assert (mkDigest (dg_byte_size (sa_stored st)) (dg_sha256 (sa_stored st)) = digest (bytes_of (string_of stored))) as ->
        by (rewrite Hds, bytes_of_string_of; by destruct (digest stored)).
      apply (runs_recover keyring download destination project resource asset (sa_encoding st) (string_of stored) (bytes_of content)); [done|done| |].
      - rewrite Hdp. by destruct (digest _).
      - rewrite bytes_of_string_of. destruct (encrypted project); [by destruct Henc as (-> & ? & _)|].
        destruct Henc as [-> ->]. done. }
    after w3 H3. eapply runs_weaken; [apply runs_remove_quietly|]. intros v w4 [H4 _].
    rewrite H4, H3. split; [|split; [apply peek_poke|]].
    + by rewrite peek_poke_ne, peek_poke, string_of_bytes_of.
    + intros x Hx1 Hx2 Hx3. rewrite !peek_poke_ne by congruence. destruct S1 as [<- _]. apply T2. tauto.
  - intros u s' (w2 & -> & H). by exists w2.
Qed.

End Import.
End AssetImportFacts.
