(* ===== verification/AssetImportTheorems.v ===== *)
(** * Importing and retrieving an asset, end to end *)

From stdpp Require Import base list sets strings numbers gmap sorting.
From S2P Require Import Prelude Double Model Text Tags Database CardRepo Uuid LinkRepo ProjectRepo.
From S2P Require Import CardFrontMatter Disk Runs Mutation Privacy CardChanges Json CryptoService ProjectKeys.
From S2P Require Import AssetEnvelope AssetEnvelopeFacts StorageProvider LocalProvider ResourceManifest ResourceRepo LocationRepo.
From S2P Require Import ReferenceGit ReferenceYaml ReferenceJson ReferenceCrypto.
From S2P Require Import ResourceFacts ResourceTheorems RebuildResources RebuildReads Rebuild Store ResourceStores GitRuns.
From S2P Require Import ResourceStoresFacts ResourceStoresTheorems AssetImport AssetImportFacts.
Import Disk DiskFacts Runs CardMutation CardPaths CardFrontMatter ProjectPrivacy CardStoreChanges CardStore.
Import CryptoService ProjectKeys AssetEnvelope AssetFiles LocalProviderFacts ResourceManifest ResourceFacts BundleRows BundleReads.
Import RebuildReads GitRuns StoreRuns ResourceStoresFacts AssetImportService AssetImportFacts.

Module AssetImportTheorems.

(** C10: An imported asset can be retrieved, whatever storage provider keeps the promises of
    the interface. Without faults, importing a file that the project does not have puts the
    staged bytes into the provider, commits a manifest that describes them together with
    the card's file and its link to the asset, enters both into the index and removes the
    staging file; and retrieving the asset by the ids that the index now holds writes the
    bytes of the source to the destination. *)
Theorem asset_import_round_trip (E : SqlEngine) (Y : Yaml) (L : LibGit2) (J : MsgPack) (V : Privacy) (D : Directory)
    (N : JsonLib) (S : Sodium) (A : AssetCrypto) (provider : StorageProvider) (PL : ProviderLaws provider)
    (md_parse : bytes -> list TagExtractor.MdEvent) (keyring : Keyring) (staging_root : string)
    (uuid_v4 : nat -> string) (on_stage : AssetImportStage -> IO unit)
    (rq : AssetImportRequest) (project : Project) (card : Card) (l : Location) (text content : string)
    (g : Git) (i : Index) (w : World) (db : Db) (destination : Loc) :
  SqlEngineLaws E -> LibGit2Laws L -> PrivacyLaws V -> JsonLaws N -> AssetCryptoLaws A ->
  calm w -> quiet_callback on_stage -> writable project g i w ->
  importable keyring staging_root uuid_v4 provider rq project card l text content w db ->
  ~ owns destination -> download staging_root uuid_v4 <> destination ->
  exists w1 db1 st stored w2,
    import_file md_parse keyring staging_root uuid_v4 on_stage provider rq (mkStore w db None) =
      (Ok (mkImported (resource uuid_v4) (asset uuid_v4) false true), mkStore w1 db1 None) /\
    imported keyring staging_root uuid_v4 provider rq project card l text content st stored db w1 db1 /\
    retrieve keyring staging_root provider (resource uuid_v4) (asset uuid_v4) (placement uuid_v4) destination (mkStore w1 db1 None) =
      (Ok tt, mkStore w2 db1 None) /\
    peek destination (disk w2) = Some content /\
    peek (download staging_root uuid_v4) (disk w2) = None.
Proof.
  intros LE LL LV LN LA Hc Hq Hw Hi Hown Hne.
  destruct (sruns_import md_parse keyring staging_root uuid_v4 on_stage provider rq project card l text content g i w db Hq Hi Hw Hc)
    as (r & s1 & He & Hc1 & w1 & db1 & st & stored & -> & -> & Him).
  destruct (sruns_retrieve md_parse keyring staging_root uuid_v4 provider rq project card l text content st stored db w1 db1 destination
    Him) as (u & s2 & Hr & _ & w2 & -> & Hd & Hdl & _); [apply Hi..|done|done|done|].
  exists w1, db1, st, stored, w2. destruct u. done.
Qed.

(** ** A photograph for a card

    A directory is the provider; the project is plain, its card has no link yet and its
    index knows the directory as a location. *)
Import ReferenceYaml ReferenceGit ReferenceJson ReferenceCrypto StoreFixtures.

Definition names (n : nat) : string := nth n ["res1"; "asset1"; "place1"] "".
Definition silent (_ : AssetImportStage) : IO unit := mret tt.
Definition shed : StorageProvider := LocalDirectoryProvider.local_provider "/store" (fun _ => "0").
Definition shed_laws : ProviderLaws (A := reference_assets) shed := local_laws "/store" (fun _ => "0").
Definition no_keys : Keyring := mkKeyring ∅ true.
Definition photo_request : AssetImportRequest := mkRequest "p" "card1" "loc1" "/in/sea.jpg" 9.

Lemma photo_staged st stored :
  staged_as (N := reference_json) (A := reference_assets) no_keys notes "res1" "asset1" (bytes_of "picture") st stored ->
  st = mkStaged "plain" (digest (bytes_of "picture")) (digest (bytes_of "picture")).
Proof. destruct st as [e p s]. intros (Hp & Hs & He & Hst). cbn in Hp, Hs, He, Hst. by rewrite Hp, Hs, He, Hst. Qed.
Definition photo_bundle : ResourceBundle :=
  imported_bundle names photo_request shelf (mkStaged "plain" (digest (bytes_of "picture")) (digest (bytes_of "picture"))).
Lemma sea_photo_bound : bound_bundle photo_bundle.
Proof.
  split; [done|by intros pv Hp; inversion Hp| |].
  - by intros a ->%list_elem_of_singleton.
  - by intros a p ->%list_elem_of_singleton ->%list_elem_of_singleton.
Qed.
Lemma photo_writes : putable photo_bundle /\ resources_wf (ResourceRepo.on_resources (put_rows photo_bundle) notes_db).
Proof.
  destruct (ResourceRepo.put_bundle photo_bundle notes_db) as [r db'] eqn:Hp.
  assert (r = Ok tt) as -> by (apply (f_equal fst) in Hp; vm_compute in Hp; by rewrite <- Hp).
  apply put_bundle_spec in Hp as (H1 & -> & H2); [done|apply notes_wf].
Qed.
Lemma photo_importable :
  importable (E := reference_engine) (V := reference_privacy) (N := reference_json) (A := reference_assets) (PL := shed_laws)
    no_keys "/staging" names shed photo_request notes note shelf "We went." "picture" (notes_world (fun _ => Works)) notes_db.
Proof.
  split.
  - reflexivity.
  - reflexivity.
  - reflexivity.
  - done.
  - reflexivity.
  - by exists "We went.".
  - vm_compute. reflexivity.
  - done.
  - split; [done|]. split; intros [H|H]; vm_compute in H; discriminate H.
  - split; [|reflexivity]. eexists. split; [reflexivity|]. intros H. vm_compute in H. discriminate H.
  - done.
  - by intros sha _.
  - reflexivity.
  - intros st stored ->%photo_staged. fold photo_bundle. split; [apply rendered; vm_compute; reflexivity|].
    destruct photo_writes. split; [done|]. split; [apply sea_photo_bound|done].
  - eexists. by split.
  - apply notes_wf.
  - done.
Qed.

Definition import_photo (on_stage : AssetImportStage -> IO unit) (s : Store) : result AssetImportResult * Store :=
  @import_file reference_engine reference_yaml reference_git reference_msgpack reference_privacy listing reference_json
    reference_sodium reference_assets no_tags no_keys "/staging" names on_stage shed photo_request s.
Definition retrieve_photo (s : Store) : result unit * Store :=
  @retrieve reference_engine reference_json reference_sodium reference_assets no_keys "/staging" shed
    "res1" "asset1" "place1" (Outside "/out/sea.jpg") s.

Example asset_import_round_trip_witness :
  exists w1 db1 w2,
    import_photo silent (mkStore (notes_world (fun _ => Works)) notes_db None) =
      (Ok (mkImported "res1" "asset1" false true), mkStore w1 db1 None) /\
    @ResourceRepo.get_bundle reference_engine db1 "res1" = Some photo_bundle /\
    retrieve_photo (mkStore w1 db1 None) = (Ok tt, mkStore w2 db1 None) /\
    peek (Outside "/out/sea.jpg") (disk w2) = Some "picture".
Proof.
  assert (calm (notes_world (fun _ => Works))) as Hc by done.
  assert (quiet_callback silent) as Hq by (intros st w; by apply runs_mret).
  assert (~ @owns _ _ shed_laws (Outside "/out/sea.jpg")) as Hown
    by (intros [H|H]; vm_compute in H; discriminate H).
  destruct (asset_import_round_trip reference_engine reference_yaml reference_git reference_msgpack reference_privacy listing
    reference_json reference_sodium reference_assets shed shed_laws no_tags no_keys "/staging" names silent photo_request
    notes note shelf "We went." "picture" new_git (mkIndex ∅ ∅) (notes_world (fun _ => Works)) notes_db (Outside "/out/sea.jpg")
    _ _ _ _ _ Hc Hq notes_writable photo_importable Hown ltac:(done))
    as (w1 & db1 & st & stored & w2 & H1 & H2 & H3 & H4 & _).
  exists w1, db1, w2. split; [exact H1|]. split; [|split; [exact H3|exact H4]].
  destruct H2 as [Hst _ _ Hb _ _ _]. apply photo_staged in Hst as ->. exact Hb.
Defined.

(** ** What a failing import leaves

    The callback throws before the commit. The object is removed, but the manifest stays in
    the working tree and in Git's index. *)
Definition cancels (st : AssetImportStage) : IO unit :=
  match st with Committing => throw (Runtime "cancelled") | _ => mret tt end.
Definition cancelled : result AssetImportResult * Store :=
  import_photo cancels (mkStore (notes_world (fun _ => Works)) notes_db None).
Definition has_entry (path : string) (d : Disk) : bool :=
  match @index_parse reference_git (index_file d) with
  | Some i => bool_decide (is_Some (entries i !! path))
  | None => false
  end.
Example cancelled_import_leaves_manifest :
  fst cancelled = Err (Runtime "cancelled") /\
  let d := disk (st_world (snd cancelled)) in
  elsewhere d !! "/store/p/asset1.holderasset" = None /\
  bool_decide (is_Some (work d !! "resources/re/s1/res1.json")) = true /\
  has_entry "resources/re/s1/res1.json" d = true.
Proof. split; [by vm_compute|]. cbv zeta. split; [by vm_compute|]. split; by vm_compute. Qed.

(** A retrieval that finds no object removes the file that was at its destination. *)
Definition put_scan (s : Store) : Store :=
  snd (@ResourceStore.put reference_engine reference_yaml reference_git reference_msgpack reference_privacy listing
    reference_json no_tags photo_bundle s).
Definition with_destination : World :=
  on_disk (poke (Outside "/out/sea.jpg") (Some "mine")) (notes_world (fun _ => Works)).
Example failed_retrieval_removes_destination :
  let r := retrieve_photo (put_scan (mkStore with_destination notes_db None)) in
  fst r = Err (StorageError Unavailable "storage object not found") /\
  elsewhere (disk (st_world (snd r))) !! "/out/sea.jpg" = None.
Proof. cbv zeta. split; by vm_compute. Qed.

End AssetImportTheorems.
