(* ===== verification/IndexSafety.v ===== *)
(** * The index follows the commits

    Whatever fails, the stores of resources and locations and the import of an asset change
    the index only after HEAD has moved. *)

From stdpp Require Import base list sets strings numbers gmap.
From S2P Require Import Prelude Double Model Text Tags Database CardRepo Uuid LinkRepo ProjectRepo.
From S2P Require Import CardFrontMatter Disk Runs Mutation Privacy CardChanges Json CryptoService ProjectKeys.
From S2P Require Import AssetEnvelope AssetEnvelopeFacts StorageProvider ResourceManifest ResourceRepo LocationRepo.
From S2P Require Import LocalProvider ReferenceGit ReferenceYaml ReferenceJson ReferenceCrypto.
From S2P Require Import RebuildResources Rebuild Store ResourceStores ResourceStoresTheorems AssetImport AssetImportTheorems.
Import Disk DiskFacts Runs CardMutation CardMutationFacts CardPaths CardFrontMatter ProjectPrivacy CardStoreChanges CardStore.
Import CryptoService ProjectKeys AssetEnvelope AssetFiles ResourceManifest AssetImportService RebuildFiles.

Module HeadFacts.

(** The commit that HEAD names. *)
Definition tip (d : Disk) : option Oid := match git d with Some g => head_id g | None => None end.

Section Calls.
Context {L : LibGit2} {J : MsgPack} {V : Privacy} (t : option Oid).
Let I (d : Disk) : Prop := tip d = t.

Lemma tip_stable l : stable l I.
Proof. intros v d. by destruct l. Qed.
#[local] Hint Resolve tip_stable : preserves.
#[local] Hint Resolve kept_cached kept_fs_exists kept_create_directories kept_read kept_write kept_remove kept_rename
  kept_query kept_index_load kept_index_store restore_kept snapshot_kept : preserves.

Lemma tip_update what f : (forall g, head_id (f g) = head_id g) -> preserves (on I) (update_git what f).
Proof. intros H. apply kept_update_git. intros d g. unfold I, tip. cbn. intros Hd Hg. rewrite Hg in Hd. by rewrite H. Qed.

Ltac keep_tip := repeat first [ progress intros | solve [auto 8 with preserves] | apply preserves_bind
  | apply preserves_try | apply preserves_when | apply preserves_for_each | case_match ].

Lemma tip_attempt {A} what (r : World -> result A * World) :
  (forall w, disk (snd (r w)) = disk w) -> preserves (on I) (attempt what r).
Proof. intros H. apply kept_attempt. intros w Hw. unfold on. by rewrite H. Qed.

Lemma tip_open project : preserves (on I) (open_repository project).
Proof.
  assert (preserves (on I) open_or_init) as Hi.
  { apply preserves_bind; [auto with preserves|]. intros _. apply kept_attempt, preserves_modify.
    intros w Hw. unfold on, I, tip in *. cbn. destruct (git (disk w)) eqn:Hg; cbn; rewrite ?Hg; done. }
  unfold open_repository, set_remote. keep_tip; by apply tip_update.
Qed.
Lemma tip_write path c : preserves (on I) (git_write_file path c).
Proof. unfold git_write_file. keep_tip. Qed.
Lemma tip_index : preserves (on I) repository_index.
Proof. unfold repository_index. keep_tip. Qed.
#[local] Hint Resolve tip_open tip_write tip_index : preserves.
Lemma tip_stage path : preserves (on I) (stage_path path).
Proof. unfold stage_path, index_add_bypath. keep_tip; by apply tip_update. Qed.
Lemma tip_unstage path : preserves (on I) (remove_path path).
Proof. unfold remove_path. keep_tip. Qed.
Lemma tip_encode project text : preserves (on I) (encode_card_blob project text).
Proof. unfold encode_card_blob. keep_tip; by apply tip_attempt. Qed.
Lemma tip_decode project text : preserves (on I) (decode_card_blob project text).
Proof. unfold decode_card_blob. keep_tip; by apply tip_attempt. Qed.
Lemma tip_safe project paths : preserves (on I) (assert_project_staged_blobs_safe project paths).
Proof. unfold assert_project_staged_blobs_safe, assert_encryption_index_paths_safe. keep_tip. Qed.
#[local] Hint Resolve tip_stage tip_unstage tip_encode tip_decode tip_safe : preserves.
Lemma tip_manifest project path text : preserves (on I) (stage_manifest project path text).
Proof. unfold stage_manifest. keep_tip. Qed.

(** ** A rebuild *)

Context {Y : Yaml} {D : Directory} {N : JsonLib}.

Lemma tip_decode_for project raw : preserves (on I) (decode_blob_for_project project raw).
Proof. unfold decode_blob_for_project. keep_tip; by apply tip_attempt. Qed.
Lemma tip_collect base ext : preserves (on I) (collect_files base ext).
Proof. unfold collect_files. keep_tip; by apply tip_attempt. Qed.
#[local] Hint Resolve tip_manifest tip_decode_for tip_collect : preserves.
Lemma tip_location project ids path : preserves (on I) (RebuildResources.load_location project ids path).
Proof. unfold RebuildResources.load_location, RebuildResources.read_manifest. keep_tip. Qed.
Lemma tip_locations project ids paths : preserves (on I) (RebuildResources.load_locations project ids paths).
Proof.
  revert ids. induction paths as [|path paths IH]; intros ids; cbn; [auto with preserves|].
  apply preserves_bind; [apply tip_location|]. intros x. apply preserves_bind; [apply IH|auto with preserves].
Qed.
Lemma tip_resource project ids path : preserves (on I) (RebuildResources.load_resource project ids path).
Proof. unfold RebuildResources.load_resource, RebuildResources.read_manifest. keep_tip. Qed.
Lemma tip_resources project ids seen paths : preserves (on I) (RebuildResources.load_resources project ids seen paths).
Proof.
  revert ids seen. induction paths as [|path paths IH]; intros ids seen; cbn; [auto with preserves|].
  apply preserves_bind; [apply tip_resource|]. intros x. apply preserves_bind; [auto with preserves|]. intros seen'.
  apply preserves_bind; [apply IH|auto with preserves].
Qed.
Lemma tip_manifests project : preserves (on I) (RebuildResources.load_manifests project).
Proof. unfold RebuildResources.load_manifests. pose proof tip_locations. pose proof tip_resources. keep_tip. Qed.
Lemma tip_cards project trash paths : preserves (on I) (Rebuilder.load_card_files project trash paths).
Proof.
  induction paths as [|path paths IH]; cbn; [auto with preserves|]. unfold Rebuilder.load_card_file. keep_tip; by apply tip_attempt.
Qed.
Lemma tip_load project : preserves (on I) (Rebuilder.load_cards project).
Proof. unfold Rebuilder.load_cards. pose proof tip_cards. keep_tip. Qed.
Lemma tip_recover : preserves (on I) recover_files.
Proof. 
  apply preserves_bind; [auto with preserves|]. intros b. apply preserves_when. apply preserves_bind; [auto with preserves|].
  intros raw. destruct (from_msgpack raw); [apply recover_journal_keeps; intros; apply tip_stable|auto with preserves].
Qed.
Lemma tip_finish : preserves (on I) finish_recovery.
Proof. unfold finish_recovery, finish. keep_tip. Qed.
End Calls.

(** ** Files of assets *)

Section Assets.
Context {A : AssetCrypto} (t : option Oid).
Let I (d : Disk) : Prop := tip d = t.
Lemma tip_open_input what l : preserves (on I) (open_input what l).
Proof. apply tip_attempt. intros w. by destruct (peek l (disk w)). Qed.
Lemma tip_read_input what l : preserves (on I) (read_input what l).
Proof. apply tip_attempt. intros w. by destruct (peek l (disk w)). Qed.
Lemma tip_open_output what l : preserves (on I) (open_output what l).
Proof. apply kept_attempt, preserves_modify. intros w. apply tip_stable. Qed.
Lemma tip_private : preserves (on I) make_private.
Proof. by apply tip_attempt. Qed.
Lemma tip_write_output l b : preserves (on I) (write_output l b).
Proof. apply preserves_when, kept_write, tip_stable. Qed.
Lemma tip_digest l : preserves (on I) (digest_file l).
Proof.
  apply preserves_bind; [apply tip_open_input|]. intros _. apply preserves_bind; [apply tip_read_input|auto with preserves].
Qed.
End Assets.

(** ** Computations of a store *)

Definition store_tip (t : option Oid) (s : Store) : Prop := tip (disk (st_world s)) = t.

Lemma tip_io {A} t (m : IO A) : preserves (on (fun d => tip d = t)) m -> preserves (store_tip t) (io m).
Proof. intros H s Hs. specialize (H (st_world s) Hs). unfold io. by destruct (m (st_world s)). Qed.
Lemma tip_in_tx {A} t (m : Repo A) : preserves (store_tip t) (in_tx m).
Proof. intros s Hs. unfold in_tx. destruct (st_tx s) as [db|]; [by destruct (m db)|by destruct (m (st_db s))]. Qed.
Lemma tip_commit_tx t : preserves (store_tip t) commit_tx.
Proof. unfold commit_tx. apply preserves_bind; [by apply tip_io, tip_attempt|]. intros _. by apply preserves_modify. Qed.
Lemma tip_with_tx {A} t (m : M Store A) : preserves (store_tip t) m -> preserves (store_tip t) (with_tx m).
Proof.
  intros H. unfold with_tx, begin_tx. apply preserves_bind.
  - apply preserves_bind; [by apply tip_io, tip_attempt|]. intros _. by apply preserves_modify.
  - intros _ s Hs. specialize (H s Hs). by destruct (m s).
Qed.


Ltac keep_store := repeat first [ progress intros | solve [auto 8 with preserves] | apply preserves_bind
  | apply preserves_try | apply preserves_when | apply preserves_for_each | case_match ].

Section Store.
Context {E : SqlEngine} {Y : Yaml} {L : LibGit2} `{!LibGit2Laws L} {J : MsgPack} {V : Privacy} {D : Directory} {N : JsonLib}.
Context (md_parse : bytes -> list TagExtractor.MdEvent).

#[local] Hint Resolve tip_in_tx tip_commit_tx : preserves.
Lemma tip_rebuild t project : preserves (store_tip t) (Rebuilder.rebuild_project md_parse project).
Proof.
  unfold Rebuilder.rebuild_project, Rebuilder.rebuild_project_in_transaction.
  apply preserves_bind; [apply tip_io, tip_recover|]. intros _. apply tip_with_tx.
  apply preserves_bind.
  - apply preserves_bind; [by apply tip_io, tip_attempt|]. intros _. apply preserves_bind; [apply tip_in_tx|]. intros _.
    apply preserves_bind; [apply tip_io, tip_manifests|]. intros m. apply preserves_bind; [apply tip_in_tx|]. intros _.
    apply preserves_bind; [apply tip_io, tip_load|]. intros r. apply preserves_bind; [apply tip_in_tx|auto with preserves].
  - intros st. apply preserves_bind; [apply tip_commit_tx|]. intros _. apply preserves_bind; [apply tip_io, tip_finish|auto with preserves].
Qed.
Lemma tip_or_rebuild t project m : preserves (store_tip t) m -> preserves (store_tip t) (or_rebuild md_parse project m).
Proof.
  intros H. apply preserves_try; [done|]. intros e. apply preserves_bind; [apply tip_rebuild|auto with preserves].
Qed.

(** ** Before and after the commit *)

Context (db : Db) (t : option Oid).
Definition untouched (s : Store) : Prop := st_db s = db /\ st_tx s = None /\ store_tip t s.
Definition moved (s : Store) : Prop := ~ store_tip t s.
Definition follows (s : Store) : Prop := store_tip t s -> st_db s = db.

Lemma untouched_io {A} (m : IO A) : (preserves (on (fun d => tip d = t)) m) -> preserves untouched (io m).
Proof.
  intros H s (H1 & H2 & H3). pose proof (tip_io t m H s H3). unfold io in *. by destruct (m (st_world s)).
Qed.
Lemma follows_io {A} (m : IO A) : (forall t, preserves (on (fun d => tip d = t)) m) -> preserves follows (io m).
Proof.
  intros H s Hs Ht. pose proof (tip_io _ m (H (tip (disk (st_world s)))) s eq_refl) as Hk. unfold io in *.
  destruct (m (st_world s)) as [r w]. cbn in *. apply Hs. unfold store_tip in *. cbn in *. congruence.
Qed.
Lemma moved_keeps {A} (m : M Store A) : (forall t, preserves (store_tip t) m) -> preserves moved m.
Proof. intros H s Hs Ht. apply Hs. rewrite <- Ht. symmetry. by apply (H (tip (disk (st_world s)))). Qed.
Lemma untouched_follows s : untouched s -> follows s.
Proof. by intros (H & _) _. Qed.
Lemma moved_follows s : moved s -> follows s.
Proof. intros H Ht. by destruct H. Qed.

(** A step before the commit, and what comes after it. *)
Lemma step_before {A B} (m : M Store A) (f : A -> M Store B) Q :
  preserves untouched m -> (forall a, hoare untouched (f a) Q follows) -> hoare untouched (bind m f) Q follows.
Proof.
  intros Hm Hf. eapply hoare_bind; [|exact Hf].
  eapply hoare_conseq; [by apply hoare_preserves|done|done|apply untouched_follows].
Qed.
Lemma step_after {A} (m : M Store A) : (forall t, preserves (store_tip t) m) -> hoare moved m (fun _ => moved) follows.
Proof. intros H. eapply hoare_conseq; [apply hoare_preserves, moved_keeps, H|done|done|apply moved_follows]. Qed.
Lemma step_throw {A} e (Q : A -> Store -> Prop) : hoare untouched (throw e) Q follows.
Proof. intros s. apply untouched_follows. Qed.

Lemma set_head o c g : head_id (set_ref (head_name g) o (add_commit o c g)) = Some o.
Proof.
  unfold set_ref, head_name, head_id, add_commit. cbn. destruct (head g) as [b|b]; cbn; [|done].
  destruct (String.eqb b "HEAD"); cbn; by rewrite lookup_insert_eq.
Qed.
Lemma commit_moves message :
  hoare (on (fun d => tip d = t)) (commit message) (fun _ w => tip (disk w) <> t) (fun _ => True).
Proof.
  assert (forall A (m : IO A), preserves (on (fun d => tip d = t)) m ->
    hoare (on (fun d => tip d = t)) m (fun _ => on (fun d => tip d = t)) (fun _ => True)) as Hk.
  { intros A m H. eapply hoare_conseq; [by apply hoare_preserves|done..]. }
  unfold commit. eapply hoare_bind; [apply Hk, tip_index|]. intros i. eapply hoare_bind; [apply Hk; auto with preserves|].
  intros ?. eapply hoare_bind; [apply Hk, kept_index_store, tip_stable|]. intros ?.
  eapply (hoare_bind _ _ _ (fun b w => b = t /\ on (fun d => tip d = t) w)).
  { intros w Hw. assert (on (fun d => tip d = t) (advance w)) as Hw' by exact Hw. unfold on, tip in Hw' |- *.
    unfold query, attempt. destruct (outcomes w (tick w)); [|done|]; destruct (git (disk (advance w))) eqn:Hg; rewrite ?Hg in Hw'; by rewrite ?Hg. }
  intros b w [Hb Hw]. rewrite Hb. clear b Hb. unfold on, tip in Hw. set (c := mkCommit _ _).
  assert (forall p, t = Some p -> p ∈ commit_parents c) as Hp by (intros p ->; by left). clearbody c.
  cbv zeta. set (f := fun g : Git => set_ref _ _ _).
  assert (forall w', disk w' = disk w -> match git (disk w') with
    | None => True | Some g => tip (disk (on_disk (set_git (f g)) w')) <> t end) as H.
  { intros w' ->. destruct (git (disk w)) as [g|]; [|done]. unfold tip. cbn. unfold f. rewrite set_head. intros Ht.
    apply (commit_id_fresh g message c (commit_id g message c)); [by apply Hp|apply ancestor_refl]. }
  specialize (H (advance w) eq_refl). unfold update_git, attempt. destruct (outcomes w (tick w)); [|done|];
    by destruct (git (disk (advance w))).
Qed.
Lemma commit_step message : hoare untouched (io (commit message)) (fun _ => moved) follows.
Proof.
  intros s (H1 & H2 & H3). pose proof (commit_moves message (st_world s) H3) as H. unfold io.
  destruct (commit message (st_world s)) as [[u|e] w]; [exact H|]. intros _. exact H1.
Qed.

(** ** The two stores *)

#[local] Hint Resolve untouched_io tip_open tip_manifest tip_write tip_stage tip_unstage tip_encode tip_decode tip_safe
  tip_in_tx tip_rebuild tip_or_rebuild tip_with_tx tip_commit_tx kept_read tip_stable kept_remove : preserves.
Lemma untouched_project pid : preserves untouched (require_known_project pid).
Proof. unfold require_known_project, read_db. keep_store. Qed.
Lemma index_after project m : hoare moved (index_with md_parse project m) (fun _ => moved) follows.
Proof. apply step_after. intros t'. apply tip_or_rebuild, tip_with_tx. keep_store. Qed.

Ltac before := eapply step_before; [solve [keep_store]|intros ?].
Lemma resource_put_follows b : hoare untouched (ResourceStore.put md_parse b) (fun _ => moved) follows.
Proof.
  unfold ResourceStore.put. eapply step_before; [apply untouched_project|]. intros project. do 4 before.
  eapply hoare_bind; [apply commit_step|]. intros ?. apply index_after.
Qed.
Lemma location_put_follows l : hoare untouched (LocationStore.put md_parse l) (fun _ => moved) follows.
Proof.
  unfold LocationStore.put. eapply step_before; [apply untouched_project|]. intros project. do 4 before.
  eapply hoare_bind; [apply commit_step|]. intros ?. apply step_after. intros t'. apply tip_or_rebuild. keep_store.
Qed.
Lemma location_remove_follows id : hoare untouched (LocationStore.remove md_parse id) (fun _ => moved) follows.
Proof.
  unfold LocationStore.remove. eapply step_before; [unfold LocationStore.get, read_db; keep_store|]. intros [l|]; [|apply step_throw].
  unfold read_db. do 2 before. eapply step_before; [apply untouched_project|]. intros project. do 4 before.
  eapply hoare_bind; [apply commit_step|]. intros ?. apply step_after. intros t'. apply tip_or_rebuild. keep_store.
Qed.

Lemma untouched_unlink project id now card : preserves untouched (ResourceStore.unlink_card project id now card).
Proof. unfold ResourceStore.unlink_card. keep_store. Qed.
Lemma untouched_unlinks project id now backlinks changed :
  preserves untouched (ResourceStore.unlink_cards project id now backlinks changed).
Proof.
  revert changed. induction backlinks as [|l backlinks IH]; intros changed; cbn; [auto with preserves|].
  destruct (bool_decide _); [apply IH|]. apply preserves_bind; [unfold read_db; auto with preserves|]. intros [card|]; [|apply IH].
  destruct (card_deleted card); [apply IH|]. apply preserves_bind; [apply untouched_unlink|]. intros path.
  apply preserves_bind; [apply IH|auto with preserves].
Qed.
Lemma resource_remove_follows now id : hoare untouched (ResourceStore.remove md_parse now id) (fun _ => moved) follows.
Proof.
  unfold ResourceStore.remove, read_db. before. destruct a as [b|]; [|apply step_throw].
  eapply step_before; [apply untouched_project|]. intros project. do 4 before.
  eapply step_before; [apply untouched_unlinks|]. intros changed. do 3 before.
  eapply hoare_bind; [apply commit_step|]. intros ?. apply index_after.
Qed.


(** ** The import *)

Context {S : Sodium} {A : AssetCrypto}.
Context (keyring : Keyring) (staging_root : string) (uuid_v4 : nat -> string) (on_stage : AssetImportStage -> IO unit).
Context (provider : StorageProvider).

(** The provider and the callback do not move HEAD. *)
Record leaves_head : Prop := {
  lh_put : forall key staged size sha t, preserves (on (fun d => tip d = t)) (StorageProvider.put key staged size sha);
  lh_exists : forall key t, preserves (on (fun d => tip d = t)) (StorageProvider.exists_ key);
  lh_remove : forall key t, preserves (on (fun d => tip d = t)) (StorageProvider.remove key);
  lh_stage : forall st t, preserves (on (fun d => tip d = t)) (on_stage st)
}.
Hypothesis Hleaves : leaves_head.
#[local] Hint Resolve lh_put lh_exists lh_remove lh_stage : preserves.

#[local] Hint Resolve tip_open_input tip_read_input tip_open_output tip_private tip_write_output kept_fs_exists kept_create_directories
  kept_remove tip_stable : preserves.
Lemma tip_stage_asset t' source destination project resource asset :
  preserves (on (fun d => tip d = t')) (stage_asset_file keyring source destination project resource asset).
Proof. unfold stage_asset_file. keep_store. Qed.
Lemma tip_quietly t' l : preserves (on (fun d => tip d = t')) (remove_quietly l).
Proof. unfold remove_quietly. auto 6 with preserves. Qed.
#[local] Hint Resolve tip_stage_asset tip_quietly : preserves.
Lemma tip_store_object t' key staging staged : preserves (on (fun d => tip d = t')) (store_object on_stage provider key staging staged).
Proof. unfold store_object. keep_store. Qed.
#[local] Hint Resolve tip_store_object : preserves.

Lemma untouched_plan rq project card resource staging : preserves untouched (plan_link rq project card resource staging).
Proof. unfold plan_link, read_db. keep_store; apply untouched_io; keep_store. Qed.

(** What a handler leaves: it only touches files. *)
Lemma clean_up_follows {B} (P : Store -> Prop) staging object e (Q : B -> Store -> Prop) :
  (forall s, P s -> follows s) -> hoare P (clean_up provider staging object e) Q follows.
Proof.
  intros HP. apply (hoare_conseq follows P _ Q Q follows follows); [|exact HP|done|done]. unfold clean_up.
  eapply (hoare_bind _ _ _ (fun _ => follows)); [apply hoare_preserves, follows_io; auto with preserves|]. intros u.
  eapply (hoare_bind _ _ _ (fun _ => follows)); [|by intros v s Hs]. apply hoare_preserves. destruct object; [|auto with preserves].
  apply follows_io. intros t'. apply preserves_try; auto with preserves.
Qed.

(** The part that commits: nothing is committed when there is nothing to attach. *)
Definition nothing_new (bundle : option ResourceBundle) {B} (link : option B) : Prop := bundle = None /\ link = None.
Lemma commit_import_follows rq project bundle link :
  hoare untouched (io (commit_import on_stage rq project bundle link))
    (fun _ s => (nothing_new bundle link /\ untouched s) \/ moved s) follows.
Proof.
  intros s (H1 & H2 & H3).
  assert (hoare (on (fun d => tip d = t)) (commit_import on_stage rq project bundle link)
    (fun _ w => (nothing_new bundle link /\ on (fun d => tip d = t) w) \/ tip (disk w) <> t) (fun _ => True)) as H.
  { unfold commit_import.
    assert (forall B (m : IO B), preserves (on (fun d => tip d = t)) m ->
      hoare (on (fun d => tip d = t)) m (fun _ => on (fun d => tip d = t)) (fun _ => True)) as Hk.
    { intros B m H. eapply hoare_conseq; [by apply hoare_preserves|done..]. }
    eapply hoare_bind; [apply Hk; destruct bundle; keep_store|]. intros ps.
    eapply hoare_bind; [apply Hk; auto with preserves|]. intros u1.
    eapply hoare_bind; [apply Hk; destruct link as [[path blob]|]; keep_store|]. intros u2.
    eapply hoare_bind; [apply Hk; auto with preserves|]. intros u3.
    destruct bundle; [|destruct link]; cbn [orb bool_decide]; rewrite ?bool_decide_eq_true_2, ?orb_true_r by done; cbn [orb when].
    1,2: eapply hoare_conseq; [apply commit_moves|done|by right|done].
    rewrite !bool_decide_eq_false_2 by (by intros [? ?]). intros w Hw. left. by split. }
  specialize (H (st_world s) H3). unfold io. destruct (commit_import _ _ _ _ _ (st_world s)) as [[u|e] w].
  - destruct H as [[Hn Hw]|H]; [left|by right]. split; [done|]. by split.
  - intros _. exact H1.
Qed.

(** An index that has nothing to follow. *)
Definition unchanged (s : Store) : Prop := st_db s = db /\ (st_tx s = None \/ st_tx s = Some db).
Lemma unchanged_io {B} (m : IO B) : preserves unchanged (io m).
Proof. intros s Hs. unfold io. by destruct (m (st_world s)). Qed.
Lemma unchanged_mret : preserves unchanged (in_tx (mret tt)).
Proof. intros s [H1 [H2|H2]]; unfold in_tx; rewrite H2; cbn; split; cbn; auto. Qed.
Lemma index_nothing rq project : hoare untouched (index_import md_parse rq project None None) (fun _ => follows) follows.
Proof.
  eapply hoare_conseq; [apply (hoare_preserves unchanged)| |by intros a s [H _] _|by intros s [H _] _].
  2: { intros s (H1 & H2 & _). split; auto. }
  unfold index_import. apply preserves_try; [|intros e s Hs; by rewrite !bool_decide_eq_true_2 by done].
  unfold with_tx, begin_tx, commit_tx. apply preserves_bind.
  - apply preserves_bind; [apply unchanged_io|]. intros _. apply preserves_modify. intros s [H _]. split; cbn; [done|]. right. by rewrite H.
  - intros _. match goal with |- preserves _ (fun s => let '(r, s') := ?m s in _) => assert (preserves unchanged m) as Hm end.
    { apply preserves_bind; [apply unchanged_mret|]. intros _. apply preserves_bind; [apply unchanged_mret|]. intros _.
      apply preserves_bind; [apply unchanged_io|]. intros _. apply preserves_modify. intros s [H [Ht|Ht]]; rewrite Ht; split; cbn; auto. }
    intros s Hs. specialize (Hm s Hs). match goal with |- context [let '(r, s') := ?x in _] => destruct x as [r s'] end.
    cbn in *. destruct Hm as [H _]. split; auto.
Qed.
Lemma index_moved rq project bundle links : hoare moved (index_import md_parse rq project bundle links) (fun _ => moved) follows.
Proof.
  apply step_after. intros t'. unfold index_import. apply preserves_try.
  - apply tip_with_tx. keep_store.
  - intros e. keep_store.
Qed.

Lemma untouched_clean {B} staging object e : preserves untouched (clean_up (B := B) provider staging object e).
Proof.
  unfold clean_up. apply preserves_bind; [apply untouched_io, tip_quietly|]. intros _.
  apply preserves_bind; [|auto with preserves]. destruct object; [|auto with preserves].
  apply untouched_io, preserves_try; auto with preserves.
Qed.
Lemma import_staged_follows rq project card location staging staged resource asset :
  hoare untouched (import_staged md_parse uuid_v4 on_stage provider rq project card location staging staged resource asset)
    (fun _ => follows) follows.
Proof.
  unfold import_staged, read_db. before. cbv zeta. rename a into duplicate.
  eapply step_before; [apply untouched_plan|]. intros [[[links link_exists] card_path] blob].
  eapply step_before.
  { destruct (bool_decide _); [|auto with preserves]. apply preserves_try; [|intros e; apply untouched_clean].
    apply preserves_bind; [apply untouched_io; auto with preserves|auto with preserves]. }
  intros bundle.
  eapply hoare_bind; [eapply hoare_try; [apply commit_import_follows|intros e; by apply clean_up_follows]|]. intros u1.
  eapply (hoare_bind _ _ _ (fun _ => follows)).
  { eapply hoare_try; [|intros e; by apply clean_up_follows]. apply hoare_or.
    - apply hoare_pure. intros [-> Hl]. destruct link_exists; [|done]. apply index_nothing.
    - eapply hoare_conseq; [apply index_moved|done|intros a s; apply moved_follows|done]. }
  intros u2. eapply (hoare_bind _ _ _ (fun _ => follows)); [apply hoare_preserves, follows_io; auto with preserves|].
  intros u3 s Hs. exact Hs.
Qed.
Lemma import_follows rq :
  hoare untouched (import_file md_parse keyring staging_root uuid_v4 on_stage provider rq) (fun _ => follows) follows.
Proof.
  unfold import_file. eapply step_before; [apply untouched_io, kept_fs_exists|]. intros readable. before.
  eapply step_before; [apply untouched_project|]. intros project.
  eapply step_before; [unfold live_card, read_db; keep_store|]. intros card.
  eapply step_before; [unfold known_location, read_db; keep_store|]. intros location. cbv zeta. do 4 before.
  apply import_staged_follows.
Qed.
End Store.
End HeadFacts.

Module IndexSafetyTheorems.
Import HeadFacts.

(** The writing entry points of the two stores and of the import. *)
Inductive Operation :=
| PutResource (b : ResourceBundle)
| RemoveResource (id : string)
| PutLocation (l : Location)
| RemoveLocation (id : string)
| ImportFile (rq : AssetImportRequest).

Section Perform.
Context {E : SqlEngine} {Y : Yaml} {L : LibGit2} {J : MsgPack} {V : Privacy} {D : Directory} {N : JsonLib}.
Context {S : Sodium} {A : AssetCrypto}.
Context (md_parse : bytes -> list TagExtractor.MdEvent) (now_epoch_seconds : nat -> Z) (keyring : Keyring)
  (staging_root : string) (uuid_v4 : nat -> string) (on_stage : AssetImportStage -> IO unit) (provider : StorageProvider).
Definition perform (op : Operation) : M Store unit :=
  match op with
  | PutResource b => ResourceStore.put md_parse b
  | RemoveResource id => ResourceStore.remove md_parse now_epoch_seconds id
  | PutLocation l => LocationStore.put md_parse l
  | RemoveLocation id => LocationStore.remove md_parse id
  | ImportFile rq => import_file md_parse keyring staging_root uuid_v4 on_stage provider rq ;;; mret tt
  end.
Definition always_commits (op : Operation) : Prop := match op with ImportFile _ => False | _ => True end.
End Perform.

(** C11: The index follows the commits. Whatever fails, and wherever, a call of the stores of
    resources and locations or an import that leaves HEAD where it was leaves the index as
    it was; and a call of the stores that returns has moved HEAD. *)
Theorem index_follows_head (E : SqlEngine) (Y : Yaml) (L : LibGit2) (J : MsgPack) (V : Privacy) (D : Directory)
    (N : JsonLib) (S : Sodium) (A : AssetCrypto) (md_parse : bytes -> list TagExtractor.MdEvent)
    (now_epoch_seconds : nat -> Z) (keyring : Keyring) (staging_root : string) (uuid_v4 : nat -> string)
    (on_stage : AssetImportStage -> IO unit) (provider : StorageProvider) (op : Operation) (s : Store) :
  LibGit2Laws L -> leaves_head on_stage provider -> st_tx s = None ->
  let res := perform md_parse now_epoch_seconds keyring staging_root uuid_v4 on_stage provider op s in
  let before := tip (disk (st_world s)) in
  let after := tip (disk (st_world (snd res))) in
  (after = before -> st_db (snd res) = st_db s) /\
  (fst res = Ok tt -> always_commits op -> after <> before).
Proof.
  intros LL Hl Ht res before after. assert (untouched (st_db s) before s) as Hs by by split.
  assert (hoare (untouched (st_db s) before) (perform md_parse now_epoch_seconds keyring staging_root uuid_v4 on_stage provider op)
    (fun _ s' => follows (st_db s) before s' /\ (always_commits op -> moved before s')) (follows (st_db s) before)) as H.
  { destruct op as [b|id|l|id|rq]; cbn [perform always_commits].
    1-4: apply (hoare_conseq (untouched (st_db s) before) _ _ (fun _ => moved before) _ (follows (st_db s) before)); [|done|intros a x Hx; split; [by apply moved_follows|intros _; exact Hx]|done].
    - apply resource_put_follows.
    - apply resource_remove_follows.
    - apply location_put_follows.
    - apply location_remove_follows.
    - eapply hoare_bind; [by apply import_follows|]. intros a x Hx. by split. }
  specialize (H s Hs). unfold after, res. destruct (perform _ _ _ _ _ _ _ op s) as [[u|e] s']; cbn [fst snd].
  - destruct H as [H1 H2]. split; [exact H1|]. intros _ Ha. by apply H2.
  - by split.
Qed.

(** A directory on the same machine leaves HEAD alone. *)
Lemma local_leaves_head (A : AssetCrypto) root clock :
  leaves_head (fun _ => mret tt) (LocalDirectoryProvider.local_provider root clock).
Proof.
  assert (forall t l, stable l (fun d => tip d = t)) as Hst by (intros; apply tip_stable).
  assert (forall t a b, preserves (on (fun d => tip d = t)) (LocalDirectoryProvider.copy_file_streaming a b)) as Hcopy.
  { intros t a b. unfold LocalDirectoryProvider.copy_file_streaming, LocalDirectoryProvider.or_storage_error.
    pose proof (tip_open_input t). pose proof (tip_open_output t). pose proof (tip_read_input t).
    pose proof (tip_write_output t). pose proof (tip_private t). keep_store. }
  split; intros.
  - pose proof (tip_digest t). pose proof (kept_fs_exists (fun d => tip d = t)). pose proof (kept_create_directories (fun d => tip d = t)).
    pose proof (kept_remove (fun d => tip d = t)). pose proof (kept_rename (fun d => tip d = t)). cbn.
    unfold LocalDirectoryProvider.put, LocalDirectoryProvider.or_clean, LocalDirectoryProvider.remove_quietly, LocalDirectoryProvider.temporary_sibling.
    keep_store.
  - cbn. unfold LocalDirectoryProvider.exists_. pose proof (kept_fs_exists (fun d => tip d = t)). keep_store.
  - cbn. unfold LocalDirectoryProvider.remove, LocalDirectoryProvider.or_storage_error.
    pose proof (kept_remove (fun d => tip d = t)). keep_store.
  - auto with preserves.
Qed.

(** The disk fails from the fortieth call on, before the import commits. *)
Import ReferenceYaml ReferenceGit ReferenceJson ReferenceCrypto StoreFixtures AssetImportTheorems.
Definition full_later (n : nat) : Outcome := if Nat.ltb n 40 then Works else Throws None.

Example index_follows_head_witness :
  let res := @perform reference_engine reference_yaml reference_git reference_msgpack reference_privacy listing reference_json
    reference_sodium reference_assets no_tags (fun _ => 9) no_keys "/staging" names silent shed (ImportFile photo_request)
    (mkStore (notes_world full_later) notes_db None) in
  fst res <> Ok tt /\ st_db (snd res) = notes_db.
Proof.
  split; [vm_compute; discriminate|].
  apply (index_follows_head reference_engine reference_yaml reference_git reference_msgpack reference_privacy listing
    reference_json reference_sodium reference_assets no_tags (fun _ => 9) no_keys "/staging" names silent shed
    (ImportFile photo_request) (mkStore (notes_world full_later) notes_db None)
    _ (local_leaves_head reference_assets "/store" (fun _ => "0")) eq_refl).
  vm_compute. reflexivity.
Defined.

End IndexSafetyTheorems.
