(* ===== verification/LineDiff.v ===== *)
(** * Differences between two versions of a text

    The line differences of [src/src/history/CardHistory.cpp]: a text is cut into lines, a
    table of longest common subsequences is filled from its end, and a walk through it emits
    the unchanged, added and removed lines. What is shown is bounded: the number of lines,
    the bytes of a line, and the size of the table. *)

From Stdlib Require Import Ascii.
From stdpp Require Import base list strings numbers.
From S2P Require Import Prelude Text.

Module LineDiff.

Definition kMaxDiffLines : Z := 5000.
Definition kMaxDiffLineBytes : Z := 16 * 1024.
Definition kShortenedLineSuffix : bytes := bytes_of "... [line shortened]".

Record CardDiffLine := mkDiffLine {
  origin : ascii;
  dl_text : bytes;
  old_line : Z;
  new_line : Z
}.

Definition size {A} (l : list A) : Z := Z.of_nat (length l).

(** ** Lines *)

Definition in_line (c : ascii) : bool := negb (Ascii.eqb c newline).

(** The loop of [lines_of]: every round consumes a byte. *)
Fixpoint cut_lines (fuel : nat) (text : bytes) : list bytes :=
  match fuel, text with
  | O, _ => []
  | _, [] => []
  | S fuel, _ =>
      take_while in_line text ::
      match drop_while in_line text with
      | [] => []
      | _ :: rest => cut_lines fuel rest
      end
  end.
Definition lines_of (text : bytes) : list bytes :=
  cut_lines (length text) text ++
  (if bool_decide (list.last text = Some newline) then [[]] else []).

(** ** Bounds on a line *)

Definition is_continuation (c : ascii) : bool := N.eqb (N.land (code c) 192) 128.

(** [while (end > 0 && (text[end] & 0xc0) == 0x80) --end] *)
Fixpoint back_to_boundary (text : bytes) (end_ : nat) : nat :=
  match end_ with
  | O => O
  | S before => if is_continuation (nth end_ text zero) then back_to_boundary text before else end_
  end.

Definition bounded_diff_text (text : bytes) (truncated : bool) : bytes * bool :=
  if Z.leb (size text) kMaxDiffLineBytes then (text, truncated)
  else
    let prefix_limit := Z.to_nat (kMaxDiffLineBytes - size kShortenedLineSuffix) in
    let end_ := back_to_boundary text prefix_limit in
    (take end_ text ++ kShortenedLineSuffix, true).

(** What the loops thread: [out] and [truncated]. *)
Abbreviation Diff := (list CardDiffLine * bool)%type.

Definition append_diff_line (d : Diff) (o : ascii) (text : bytes) (old_no new_no : Z) : Diff :=
  let '(text, truncated) := bounded_diff_text text (snd d) in
  (fst d ++ [mkDiffLine o text old_no new_no], truncated).

Definition full (d : Diff) : bool := Z.eqb (size (fst d)) kMaxDiffLines.
Definition cut_short (d : Diff) : Diff := (fst d, true).

(** ** The differences *)

(** [lcs[i]] from [lcs[i + 1]]. *)
Fixpoint lcs_row (line : bytes) (new_lines : list bytes) (below : list nat) : list nat :=
  match new_lines with
  | [] => [0%nat]
  | other :: new_lines =>
      let row := lcs_row line new_lines (tail below) in
      (if bool_decide (line = other) then S (nth 1 below 0%nat)
       else Nat.max (nth 0 below 0%nat) (nth 0 row 0%nat)) :: row
  end.
Fixpoint lcs_table (old_lines new_lines : list bytes) : list (list nat) :=
  match old_lines with
  | [] => [repeat 0%nat (S (length new_lines))]
  | line :: old_lines =>
      let table := lcs_table old_lines new_lines in
      lcs_row line new_lines (nth 0 table []) :: table
  end.
Definition cell (table : list (list nat)) (i j : nat) : nat := nth j (nth i table []) 0%nat.

Definition line_number (i : nat) : Z := Z.of_nat i + 1.

(** The walk: every round takes a line of one side or of both. *)
Fixpoint walk (fuel : nat) (old_lines new_lines : list bytes) (table : list (list nat))
    (i j : nat) (d : Diff) : Diff :=
  match fuel with
  | O => d
  | S fuel =>
      match old_lines !! i, new_lines !! j with
      | None, None => d
      | here, there =>
          if full d then cut_short d else
          match here, there with
          | Some x, Some y =>
              if bool_decide (x = y) then
                walk fuel old_lines new_lines table (S i) (S j)
                  (append_diff_line d " " x (line_number i) (line_number j))
              else if Nat.leb (cell table (S i) j) (cell table i (S j)) then
                walk fuel old_lines new_lines table i (S j)
                  (append_diff_line d "+" y (-1) (line_number j))
              else
                walk fuel old_lines new_lines table (S i) j
                  (append_diff_line d "-" x (line_number i) (-1))
          | None, Some y =>
              walk fuel old_lines new_lines table i (S j)
                (append_diff_line d "+" y (-1) (line_number j))
          | Some x, None =>
              walk fuel old_lines new_lines table (S i) j
                (append_diff_line d "-" x (line_number i) (-1))
          | None, None => d
          end
      end
  end.

(** The loops of the fallback; [true] when one of them has returned. *)
Fixpoint all_removed (lines : list bytes) (old_no : Z) (d : Diff) : Diff * bool :=
  match lines with
  | [] => (d, false)
  | line :: lines =>
      if full d then (cut_short d, true)
      else all_removed lines (old_no + 1) (append_diff_line d "-" line old_no (-1))
  end.
Fixpoint all_added (lines : list bytes) (new_no : Z) (d : Diff) : Diff :=
  match lines with
  | [] => d
  | line :: lines =>
      if full d then cut_short d
      else all_added lines (new_no + 1) (append_diff_line d "+" line (-1) new_no)
  end.

Definition too_big (old_lines new_lines : list bytes) : bool :=
  negb (bool_decide (old_lines = [])) && Z.ltb (1000000 / size old_lines) (size new_lines).

Definition line_diff (old_text new_text : bytes) : Diff :=
  let old_lines := lines_of old_text in
  let new_lines := lines_of new_text in
  if too_big old_lines new_lines then
    match all_removed old_lines 1 ([], false) with
    | (d, true) => d
    | (d, false) => all_added new_lines 1 d
    end
  else
    walk (length old_lines + length new_lines) old_lines new_lines
      (lcs_table old_lines new_lines) 0 0 ([], false).

End LineDiff.

Module LineDiffFacts.
Import LineDiff.

(** ** Lines *)

Definition join_lines (lines : list bytes) : bytes :=
  match lines with
  | [] => []
  | line :: lines => line ++ concat (map (cons newline) lines)
  end.

Lemma join_lines_cons line lines :
  lines <> [] -> join_lines (line :: lines) = line ++ newline :: join_lines lines.
Proof. by destruct lines. Qed.

Lemma drop_while_stops {A} (p : A -> bool) l x k : drop_while p l = x :: k -> p x = false.
Proof. induction l as [|y l IH]; cbn; [done|]. destruct (p y) eqn:Hy; [done|congruence]. Qed.

Lemma no_newline_last l : forallb in_line l = true -> list.last l <> Some newline.
Proof.
  intros H (k & ->)%last_Some. rewrite forallb_app in H. by destruct (forallb in_line k).
Qed.

Lemma cut_lines_step fuel text :
  text <> [] ->
  cut_lines (S fuel) text =
    take_while in_line text ::
    match drop_while in_line text with [] => [] | _ :: rest => cut_lines fuel rest end.
Proof. by destruct text. Qed.

Lemma cut_lines_join fuel text :
  (length text <= fuel)%nat ->
  join_lines (cut_lines fuel text ++
    (if bool_decide (list.last text = Some newline) then [[]] else [])) = text.
Proof.
  revert text. induction fuel as [|fuel IH]; intros [|c text] Hl; try done; [cbn in Hl; lia|].
  rewrite cut_lines_step by done. set (t := c :: text) in *.
  pose proof (take_while_app in_line t) as Ht. pose proof (take_while_all in_line t) as Ha.
  destruct (drop_while in_line t) as [|n rest] eqn:Hd.
  - rewrite app_nil_r in Ht. rewrite bool_decide_eq_false_2.
    + cbn. by rewrite app_nil_r.
    + rewrite <- Ht. by apply no_newline_last.
  - pose proof (drop_while_stops _ _ _ _ Hd) as Hn. unfold in_line in Hn.
    apply negb_false_iff, Ascii.eqb_eq in Hn. subst n.
    assert (length rest <= fuel)%nat as Hr.
    { rewrite <- Ht in Hl. rewrite length_app in Hl. cbn in Hl. lia. }
    transitivity (take_while in_line t ++ newline :: rest); [|done].
    assert (list.last t = list.last (newline :: rest)) as ->.
    { rewrite <- Ht. apply last_app_cons. }
    destruct rest as [|r rest]; [by destruct fuel|].
    cbn [app list.last]. rewrite join_lines_cons.
    + f_equal. f_equal. by apply IH.
    + destruct fuel; cbn in *; [lia|done].
Qed.

Lemma cut_lines_whole fuel text : Forall (fun line => forallb in_line line = true) (cut_lines fuel text).
Proof.
  revert text. induction fuel as [|fuel IH]; intros text; [constructor|].
  destruct text as [|c text]; [constructor|]. cbn [cut_lines].
  constructor; [apply take_while_all|]. by destruct (drop_while in_line (c :: text)).
Qed.

Lemma in_line_newline line : forallb in_line line = true -> newline ∉ line.
Proof. intros H Hn. apply list_elem_of_In in Hn. by rewrite forallb_forall in H; apply H in Hn. Qed.

Lemma lines_whole text : Forall (fun line => newline ∉ line) (lines_of text).
Proof.
  apply Forall_app. split.
  - eapply Forall_impl; [|apply cut_lines_whole]. intros line. apply in_line_newline.
  - destruct (bool_decide _); repeat constructor. by apply not_elem_of_nil.
Qed.

(** ** Longest common subsequences *)

Record lcs_length (n : nat) (l k : list bytes) : Prop := {
  lcs_reached : exists c, c `sublist_of` l /\ c `sublist_of` k /\ length c = n;
  lcs_bound : forall c, c `sublist_of` l -> c `sublist_of` k -> (length c <= n)%nat
}.

Lemma lcs_nil_l k : lcs_length 0 [] k.
Proof.
  split; [exists []; repeat split; [done|apply sublist_nil_l]|].
  intros c Hc _. by apply sublist_nil_r in Hc as ->.
Qed.
Lemma lcs_nil_r l : lcs_length 0 l [].
Proof.
  split; [exists []; repeat split; [apply sublist_nil_l|done]|].
  intros c _ Hc. by apply sublist_nil_r in Hc as ->.
Qed.

Lemma sublist_tail (c l : list bytes) x : c `sublist_of` x :: l -> tail c `sublist_of` l.
Proof.
  intros [H|(c' & -> & H)]%sublist_cons_r; [|done].
  trans c; [destruct c; [done|by apply sublist_cons]|done].
Qed.

Lemma lcs_same n l k x : lcs_length n l k -> lcs_length (S n) (x :: l) (x :: k).
Proof.
  intros [(c & Hl & Hk & Hn) Hb]. split.
  - exists (x :: c). repeat split; [by apply sublist_skip..|]. cbn. by rewrite Hn.
  - intros c' Hl' Hk'. pose proof (Hb (tail c') (sublist_tail _ _ _ Hl') (sublist_tail _ _ _ Hk')).
    destruct c'; cbn in *; lia.
Qed.

Lemma lcs_other n m l k x y :
  x <> y -> lcs_length n l (y :: k) -> lcs_length m (x :: l) k ->
  lcs_length (Nat.max n m) (x :: l) (y :: k).
Proof.
  intros Hxy [(c1 & Hl1 & Hk1 & Hn1) Hb1] [(c2 & Hl2 & Hk2 & Hn2) Hb2]. split.
  - destruct (Nat.max_spec n m) as [[_ ->]|[_ ->]].
    + exists c2. repeat split; [done|by apply sublist_cons|done].
    + exists c1. repeat split; [by apply sublist_cons|done..].
  - intros c Hl Hk. destruct c as [|z c]; [cbn; lia|].
    apply sublist_cons_r in Hl as [Hl|(c' & [= -> ->] & Hl)].
    + pose proof (Hb1 _ Hl Hk). lia.
    + apply sublist_cons_r in Hk as [Hk|(c'' & [= -> ->] & Hk)]; [|done].
      pose proof (Hb2 (x :: c') (sublist_skip _ _ _ Hl) Hk). lia.
Qed.

Lemma lcs_unique n m l k : lcs_length n l k -> lcs_length m l k -> n = m.
Proof.
  intros [(c1 & ? & ? & <-) Hb1] [(c2 & ? & ? & <-) Hb2].
  pose proof (Hb1 c2 ltac:(done) ltac:(done)). pose proof (Hb2 c1 ltac:(done) ltac:(done)). lia.
Qed.

Definition row_for (l news : list bytes) (row : list nat) : Prop :=
  forall j, (j <= length news)%nat -> lcs_length (nth j row 0%nat) l (drop j news).

Lemma row_for_tail l y news row : row_for l (y :: news) row -> row_for l news (tail row).
Proof.
  intros H j Hj. pose proof (H (S j) ltac:(cbn; lia)) as HS. by destruct row, j.
Qed.

Lemma lcs_row_spec x l news below :
  row_for l news below -> row_for (x :: l) news (lcs_row x news below).
Proof.
  revert below. induction news as [|y news IH]; intros below Hb j Hj.
  - cbn in Hj. replace j with 0%nat by lia. apply lcs_nil_r.
  - specialize (IH (tail below) (row_for_tail _ _ _ _ Hb)). cbn [lcs_row].
    destruct j as [|j]; [|apply IH; cbn in Hj; lia]. cbn [nth drop].
    destruct (decide (x = y)) as [->|Hxy].
    + rewrite bool_decide_eq_true_2 by done. apply lcs_same. apply (Hb 1%nat). cbn. lia.
    + rewrite bool_decide_eq_false_2 by done.
      apply lcs_other; [done|apply (Hb 0%nat); lia|apply (IH 0%nat); lia].
Qed.

Lemma nth_repeat_0 n j : nth j (repeat 0%nat n) 0%nat = 0%nat.
Proof. revert j. induction n as [|n IH]; intros [|j]; cbn; auto. Qed.

(** Every cell of the table is the length of a longest common subsequence. *)
Lemma lcs_table_spec olds news i j :
  (i <= length olds)%nat -> (j <= length news)%nat ->
  lcs_length (cell (lcs_table olds news) i j) (drop i olds) (drop j news).
Proof.
  revert i j. induction olds as [|x olds IH]; intros i j Hi Hj; unfold cell.
  - cbn in Hi. replace i with 0%nat by lia. cbn [lcs_table nth drop]. rewrite nth_repeat_0. apply lcs_nil_l.
  - cbn [lcs_table]. destruct i as [|i]; [|apply IH; cbn in Hi; lia].
    cbn [nth]. apply (lcs_row_spec x olds); [|done].
    intros k Hk. apply (IH 0%nat); [lia|done].
Qed.

(** ** Edit scripts

    [describes i j script olds news]: [script] turns the lines [olds], numbered from [i],
    into [news], numbered from [j]. *)
Inductive describes : Z -> Z -> list CardDiffLine -> list bytes -> list bytes -> Prop :=
| describes_done i j : describes i j [] [] []
| describes_kept i j script x olds news :
    describes (i + 1) (j + 1) script olds news ->
    describes i j (mkDiffLine " " x i j :: script) (x :: olds) (x :: news)
| describes_removed i j script x olds news :
    describes (i + 1) j script olds news ->
    describes i j (mkDiffLine "-" x i (-1) :: script) (x :: olds) news
| describes_added i j script y olds news :
    describes i (j + 1) script olds news ->
    describes i j (mkDiffLine "+" y (-1) j :: script) olds (y :: news).

Definition unchanged (l : CardDiffLine) : bool := Ascii.eqb (origin l) " ".

(** What is shown of a script. *)
Definition shorten (text : bytes) : bytes := fst (bounded_diff_text text false).
Definition is_long (text : bytes) : bool := Z.ltb kMaxDiffLineBytes (size text).
Definition shown_line (l : CardDiffLine) : CardDiffLine :=
  mkDiffLine (origin l) (shorten (dl_text l)) (old_line l) (new_line l).
Definition shown (script : list CardDiffLine) : list CardDiffLine := take (Z.to_nat kMaxDiffLines) script.

Fixpoint emit (script : list CardDiffLine) (d : Diff) : Diff :=
  match script with
  | [] => d
  | l :: script =>
      if full d then cut_short d
      else emit script (append_diff_line d (origin l) (dl_text l) (old_line l) (new_line l))
  end.

Lemma bounded_diff_text_flag text t :
  bounded_diff_text text t = (shorten text, t || is_long text).
Proof.
  unfold shorten, bounded_diff_text, is_long. rewrite Z.leb_antisym.
  destruct (Z.ltb _ _); cbn; by destruct t.
Qed.

Lemma append_diff_line_shown d l :
  append_diff_line d (origin l) (dl_text l) (old_line l) (new_line l) =
    (fst d ++ [shown_line l], snd d || is_long (dl_text l)).
Proof. unfold append_diff_line. by rewrite bounded_diff_text_flag. Qed.

Lemma emit_shown script out t :
  size out <= kMaxDiffLines ->
  let room := Z.to_nat (kMaxDiffLines - size out) in
  emit script (out, t) =
    (out ++ map shown_line (take room script),
     t || (existsb (fun l => is_long (dl_text l)) (take room script) || Nat.ltb room (length script))).
Proof.
  revert out t. induction script as [|l script IH]; intros out t Ho; cbn zeta.
  - rewrite take_nil. cbn. by rewrite app_nil_r, orb_false_r.
  - cbn [emit]. unfold full. cbn [fst]. destruct (Z.eqb_spec (size out) kMaxDiffLines) as [He|He].
    + rewrite He, Z.sub_diag. cbn. by rewrite app_nil_r, orb_true_r.
    + rewrite append_diff_line_shown. cbn [fst snd].
      assert (size (out ++ [shown_line l]) = size out + 1) as Hs.
      { unfold size. rewrite length_app. cbn. lia. }
      rewrite IH by lia. cbn zeta. rewrite Hs.
      replace (Z.to_nat (kMaxDiffLines - size out)) with (S (Z.to_nat (kMaxDiffLines - (size out + 1)))) by lia.
      cbn [take map existsb length]. rewrite <- app_assoc. cbn [app].
      f_equal. by rewrite <- !orb_assoc.
Qed.

Lemma emit_app s1 s2 d : full (emit s1 d) = false -> emit (s1 ++ s2) d = emit s2 (emit s1 d).
Proof.
  revert d. induction s1 as [|l s1 IH]; intros d Hf; [done|]. cbn [emit app] in *.
  destruct (full d) eqn:Hd; [|by apply IH]. exfalso. unfold cut_short, full in *. cbn in Hf. congruence.
Qed.

(** ** The fallback *)

Fixpoint removed_from (i : Z) (lines : list bytes) : list CardDiffLine :=
  match lines with [] => [] | x :: lines => mkDiffLine "-" x i (-1) :: removed_from (i + 1) lines end.
Fixpoint added_from (j : Z) (lines : list bytes) : list CardDiffLine :=
  match lines with [] => [] | y :: lines => mkDiffLine "+" y (-1) j :: added_from (j + 1) lines end.

Lemma describes_added_all i j news : describes i j (added_from j news) [] news.
Proof. revert j. induction news as [|y news IH]; intros j; cbn; by constructor. Qed.
Lemma describes_fallback i j olds news :
  describes i j (removed_from i olds ++ added_from j news) olds news.
Proof. revert i. induction olds as [|x olds IH]; intros i; cbn; [apply describes_added_all|by constructor]. Qed.

Lemma all_added_emit news j d : all_added news j d = emit (added_from j news) d.
Proof.
  revert j d. induction news as [|y news IH]; intros j d; [done|]. cbn [all_added added_from emit].
  destruct (full d); [done|]. apply IH.
Qed.
(** The first loop either returns, or leaves what the rest continues from. *)
Lemma fallback_emit olds i d rest :
  match all_removed olds i d with (d', true) => d' | (d', false) => emit rest d' end =
    emit (removed_from i olds ++ rest) d.
Proof.
  revert i d. induction olds as [|x olds IH]; intros i d; [done|].
  cbn [all_removed removed_from emit app]. destruct (full d); [done|]. apply IH.
Qed.

(** ** The walk *)

Section Walk.
Context (olds news : list bytes).
Let table := lcs_table olds news.

(** What the walk does from [(i, j)] on, however much has been emitted before. *)
Definition walks (fuel i j : nat) : Prop := exists script,
  (forall d, walk fuel olds news table i j d = emit script d) /\
  describes (line_number i) (line_number j) script (drop i olds) (drop j news) /\
  length (list_filter unchanged script) = cell table i j.

Lemma line_number_S i : line_number (S i) = line_number i + 1.
Proof. unfold line_number. lia. Qed.

Lemma cell_spec i j :
  (i <= length olds)%nat -> (j <= length news)%nat ->
  lcs_length (cell table i j) (drop i olds) (drop j news).
Proof. apply lcs_table_spec. Qed.

Lemma walks_keep fuel i j x :
  olds !! i = Some x -> news !! j = Some x -> walks fuel (S i) (S j) -> walks (S fuel) i j.
Proof.
  intros Hx Hy (script & Hw & Hd & Hn).
  pose proof (lookup_lt_Some _ _ _ Hx). pose proof (lookup_lt_Some _ _ _ Hy).
  exists (mkDiffLine " " x (line_number i) (line_number j) :: script). split; [|split].
  - intros d. cbn [walk emit origin dl_text old_line new_line]. rewrite Hx, Hy.
    destruct (full d); [done|]. by rewrite bool_decide_eq_true_2, Hw.
  - rewrite (drop_S _ _ _ Hx), (drop_S _ _ _ Hy). rewrite !line_number_S in Hd. by constructor.
  - change (S (length (list_filter unchanged script)) = cell table i j). rewrite Hn.
    apply (lcs_unique _ _ (drop i olds) (drop j news)); [|apply cell_spec; lia].
    rewrite (drop_S _ _ _ Hx), (drop_S _ _ _ Hy). apply lcs_same, cell_spec; lia.
Qed.

Lemma walks_remove fuel i j x :
  olds !! i = Some x -> walks fuel (S i) j -> cell table i j = cell table (S i) j ->
  (forall d, full d = false -> walk (S fuel) olds news table i j d =
     walk fuel olds news table (S i) j (append_diff_line d "-" x (line_number i) (-1))) ->
  walks (S fuel) i j.
Proof.
  intros Hx (script & Hw & Hd & Hn) Hc Hstep.
  exists (mkDiffLine "-" x (line_number i) (-1) :: script). split; [|split].
  - intros d. cbn [emit origin dl_text old_line new_line]. destruct (full d) eqn:Hf.
    + cbn [walk]. rewrite Hx, Hf. by destruct (news !! j).
    + by rewrite Hstep, Hw.
  - rewrite (drop_S _ _ _ Hx). rewrite line_number_S in Hd. by constructor.
  - change (length (list_filter unchanged script) = cell table i j). by rewrite Hn.
Qed.

Lemma walks_add fuel i j y :
  news !! j = Some y -> walks fuel i (S j) -> cell table i j = cell table i (S j) ->
  (forall d, full d = false -> walk (S fuel) olds news table i j d =
     walk fuel olds news table i (S j) (append_diff_line d "+" y (-1) (line_number j))) ->
  walks (S fuel) i j.
Proof.
  intros Hy (script & Hw & Hd & Hn) Hc Hstep.
  exists (mkDiffLine "+" y (-1) (line_number j) :: script). split; [|split].
  - intros d. cbn [emit origin dl_text old_line new_line]. destruct (full d) eqn:Hf.
    + cbn [walk]. rewrite Hy, Hf. by destruct (olds !! i).
    + by rewrite Hstep, Hw.
  - rewrite (drop_S _ _ _ Hy). rewrite line_number_S in Hd. by constructor.
  - change (length (list_filter unchanged script) = cell table i j). by rewrite Hn.
Qed.

(** A side that is used up has no line in common with the other. *)
Lemma cell_exhausted i j :
  (i <= length olds)%nat -> (j <= length news)%nat -> drop i olds = [] \/ drop j news = [] ->
  cell table i j = 0%nat.
Proof.
  intros Hi Hj He. apply (lcs_unique _ _ (drop i olds) (drop j news)); [by apply cell_spec|].
  destruct He as [-> | ->]; [apply lcs_nil_l|apply lcs_nil_r].
Qed.

Lemma cell_other i j x y :
  olds !! i = Some x -> news !! j = Some y -> x <> y ->
  cell table i j = Nat.max (cell table (S i) j) (cell table i (S j)).
Proof.
  intros Hx Hy Hxy. pose proof (lookup_lt_Some _ _ _ Hx). pose proof (lookup_lt_Some _ _ _ Hy).
  apply (lcs_unique _ _ (drop i olds) (drop j news)); [apply cell_spec; lia|].
  pose proof (cell_spec (S i) j ltac:(lia) ltac:(lia)) as H1.
  pose proof (cell_spec i (S j) ltac:(lia) ltac:(lia)) as H2.
  rewrite (drop_S _ _ _ Hx), (drop_S _ _ _ Hy) in *. by apply lcs_other.
Qed.

Lemma walk_script fuel i j :
  (length olds - i + (length news - j) <= fuel)%nat ->
  (i <= length olds)%nat -> (j <= length news)%nat -> walks fuel i j.
Proof.
  revert i j. induction fuel as [|fuel IH]; intros i j Hf Hi Hj;
    destruct (olds !! i) as [x|] eqn:Hx, (news !! j) as [y|] eqn:Hy;
    try (apply lookup_lt_Some in Hx as Hix); try (apply lookup_lt_Some in Hy as Hjy);
    try (apply lookup_ge_None in Hx as Hix); try (apply lookup_ge_None in Hy as Hjy); try lia.
  2: destruct (decide (x = y)) as [<-|Hxy]; [apply (walks_keep _ _ _ x); [done..|apply IH; lia]|].
  2: pose proof (cell_other _ _ _ _ Hx Hy Hxy) as Hm;
     destruct (Nat.leb (cell table (S i) j) (cell table i (S j))) eqn:Hle.
  2: apply (walks_add _ _ _ y); [done|apply IH; lia|apply Nat.leb_le in Hle; lia|].
  3: apply (walks_remove _ _ _ x); [done|apply IH; lia|apply Nat.leb_gt in Hle; lia|].
  2,3: intros d Hd; cbn [walk]; fold table; by rewrite Hx, Hy, Hd, bool_decide_eq_false_2, Hle.
  2: apply (walks_remove _ _ _ x); [done|apply IH; lia| |intros d Hd; cbn [walk]; by rewrite Hx, Hy, Hd].
  3: apply (walks_add _ _ _ y); [done|apply IH; lia| |intros d Hd; cbn [walk]; by rewrite Hx, Hy, Hd].
  2: by rewrite !cell_exhausted by (lia || (right; apply drop_ge; lia)).
  2: by rewrite !cell_exhausted by (lia || (left; apply drop_ge; lia)).
  all: exists []; split; [intros d; cbn [walk emit]; by rewrite ?Hx, ?Hy|];
    rewrite (drop_ge olds), (drop_ge news) by lia; split; [constructor|];
    by rewrite cell_exhausted by (lia || (left; apply drop_ge; lia)).
Qed.
End Walk.

(** ** A shortened line *)

Lemma back_to_boundary_le text n : (back_to_boundary text n <= n)%nat.
Proof.
  induction n as [|n IH]; [done|]. cbn [back_to_boundary]. destruct (is_continuation _); lia.
Qed.

Lemma shorten_bounded text : size (shorten text) <= kMaxDiffLineBytes.
Proof.
  unfold shorten, bounded_diff_text. destruct (Z.leb_spec (size text) kMaxDiffLineBytes) as [H|H]; [done|].
  cbn [fst]. unfold size in *. rewrite length_app, length_take.
  pose proof (back_to_boundary_le text (Z.to_nat (kMaxDiffLineBytes - size kShortenedLineSuffix))).
  assert (size kShortenedLineSuffix = 20) as Hs by reflexivity. unfold size in *.
  unfold kMaxDiffLineBytes in *. lia.
Qed.

Lemma shorten_short text : size text <= kMaxDiffLineBytes -> shorten text = text.
Proof. intros H. unfold shorten, bounded_diff_text. by rewrite (proj2 (Z.leb_le _ _) H). Qed.

Lemma boundary_stops text n :
  back_to_boundary text n = 0%nat \/ is_continuation (nth (back_to_boundary text n) text zero) = false.
Proof.
  induction n as [|n IH]; [by left|]. cbn [back_to_boundary].
  destruct (is_continuation (nth (S n) text zero)) eqn:He; [done|by right].
Qed.

End LineDiffFacts.

Module LineDiffTheorems.
Import LineDiff LineDiffFacts.

Definition text_of (lines : list string) : bytes := join_lines (map bytes_of lines).

(** How a line of a script is shown: as it is, or, if it is longer than 16 KiB, as its bytes
    up to the last start of a character before the limit. *)
Record shown_as (l s : CardDiffLine) : Prop := {
  sa_place : origin s = origin l /\ old_line s = old_line l /\ new_line s = new_line l;
  sa_short : size (dl_text l) <= 16384 -> dl_text s = dl_text l;
  sa_long : 16384 < size (dl_text l) -> exists n,
    dl_text s = take n (dl_text l) ++ bytes_of "... [line shortened]" /\ Z.of_nat n <= 16384 - 20 /\
    (n = 0%nat \/ N.land (code (nth n (dl_text l) zero)) 192 <> 128%N) /\
    forall m, (n < m)%nat -> Z.of_nat m <= 16384 - 20 -> N.land (code (nth m (dl_text l) zero)) 192 = 128%N
}.

Lemma boundary_last text n m :
  (back_to_boundary text n < m)%nat -> (m <= n)%nat -> is_continuation (nth m text zero) = true.
Proof.
  induction n as [|n IH]; [cbn; lia|]. cbn [back_to_boundary].
  destruct (is_continuation (nth (S n) text zero)) eqn:He; [|lia]. intros H1 H2.
  destruct (decide (m = S n)) as [->|]; [done|]. apply IH; [done|lia].
Qed.
Lemma shown_line_as l : shown_as l (shown_line l).
Proof.
  split; [done|apply shorten_short|]. intros Hl. cbn [dl_text shown_line]. unfold shorten, bounded_diff_text.
  change kMaxDiffLineBytes with 16384 at 1. rewrite (proj2 (Z.leb_gt _ _) Hl). cbn [fst]. change (Z.to_nat (kMaxDiffLineBytes - size kShortenedLineSuffix)) with (Z.to_nat 16364).
  set (n := back_to_boundary (dl_text l) (Z.to_nat 16364)). exists n. split; [done|].
  pose proof (back_to_boundary_le (dl_text l) (Z.to_nat 16364)) as Hn. split; [fold n in Hn; lia|]. split.
  - destruct (boundary_stops (dl_text l) (Z.to_nat 16364)) as [H|H]; [by left|right]. by apply N.eqb_neq in H.
  - intros m Hm Hle. apply N.eqb_eq. apply (boundary_last (dl_text l) (Z.to_nat 16364)); [done|lia].
Qed.

(** A script has a line for each line of both sides, and one for two that it keeps. *)
Lemma describes_length i j script olds news : describes i j script olds news ->
  (length script + length (list_filter unchanged script) = length olds + length news)%nat /\
  map dl_text (list_filter unchanged script) `sublist_of` olds /\
  map dl_text (list_filter unchanged script) `sublist_of` news.
Proof.
  unfold list_filter. induction 1 as [|i j s x o n _ (H1 & H2 & H3)|i j s x o n _ (H1 & H2 & H3)|i j s x o n _ (H1 & H2 & H3)];
    cbn in *; (split; [lia|]); split; try done; try by apply sublist_skip. 1,2: by apply sublist_cons.
Qed.

(** C15: The difference of two versions of a card is an edit script between their lines,
    which are the texts cut at their newlines, with the line numbers of both sides. Its
    first 5000 lines are shown: as they are up to 16 KiB, and else cut at the start of a
    character; and the result is marked as truncated exactly when there are more lines or
    one of these is longer. Up to a million pairs of lines the unchanged ones are a longest
    common subsequence, and no shorter script exists. *)
Theorem line_diff_correct (old_text new_text : bytes) :
  let olds := lines_of old_text in
  let news := lines_of new_text in
  join_lines olds = old_text /\ join_lines news = new_text /\
  Forall (fun line => newline ∉ line) (olds ++ news) /\
  exists script,
    describes 1 1 script olds news /\
    Forall2 shown_as (take (Z.to_nat 5000) script) (fst (line_diff old_text new_text)) /\
    (snd (line_diff old_text new_text) = true <->
       5000 < size script \/ exists l, l ∈ take (Z.to_nat 5000) script /\ 16384 < size (dl_text l)) /\
    Forall (fun l => size (dl_text l) <= 16384) (fst (line_diff old_text new_text)) /\
    (size olds * size news <= 1000000 ->
       lcs_length (length (list_filter unchanged script)) olds news /\
       forall other, describes 1 1 other olds news -> (length script <= length other)%nat).
Proof.
  intros olds news. split; [by apply cut_lines_join|]. split; [by apply cut_lines_join|].
  split; [apply Forall_app; split; apply lines_whole|].
  assert (exists script, describes 1 1 script olds news /\ line_diff old_text new_text = emit script ([], false) /\
    (too_big olds news = false -> lcs_length (length (list_filter unchanged script)) olds news)) as (script & Hd & -> & Hlcs).
  { unfold line_diff. fold olds news. destruct (too_big olds news) eqn:Hbig.
    - exists (removed_from 1 olds ++ added_from 1 news). split; [apply describes_fallback|]. split; [|done].
      rewrite <- fallback_emit. destruct (all_removed olds 1 ([], false)) as [d []]; [done|]. apply all_added_emit.
    - destruct (walk_script olds news (length olds + length news) 0 0) as (script & Hw & Hd & Hn); [lia..|].
      exists script. split; [exact Hd|]. split; [done|]. intros _. rewrite Hn. apply (cell_spec olds news 0 0); lia. }
  exists script. split; [exact Hd|]. rewrite emit_shown by done. cbn [fst snd app].
  change (kMaxDiffLines - size []) with 5000. rewrite orb_false_l. split; [|split; [|split]].
  - induction (take (Z.to_nat 5000) script); constructor; [apply shown_line_as|done].
  - rewrite orb_true_iff, existsb_exists, Nat.ltb_lt. unfold is_long. change kMaxDiffLineBytes with 16384.
    assert (5000 < size script <-> (Z.to_nat 5000 < length script)%nat) as -> by (unfold size; lia). split.
    + intros [(l & Hl & Hs)|H]; [right; exists l; by rewrite list_elem_of_In, <- Z.ltb_lt|by left].
    + intros [H|(l & Hl & Hs)]; [by right|left; exists l; by rewrite <- list_elem_of_In, Z.ltb_lt].
  - apply Forall_map, list.Forall_forall. intros l _. apply shorten_bounded.
  - intros Hsmall. assert (lcs_length (length (list_filter unchanged script)) olds news) as Hl.
    { apply Hlcs. unfold too_big. destruct (bool_decide_reflect (olds = [])) as [->|Hne]; [done|]. apply Z.ltb_ge.
      apply Z.div_le_lower_bound; [destruct olds; [done|unfold size; cbn; lia]|lia]. }
    split; [exact Hl|]. intros other Ho. destruct (describes_length _ _ _ _ _ Hd) as (E1 & _).
    destruct (describes_length _ _ _ _ _ Ho) as (E2 & S1 & S2). pose proof (lcs_bound _ _ _ Hl _ S1 S2) as Hb.
    rewrite length_map in Hb. lia.
Qed.

Lemma line_diff_correct_witness :
  line_diff (text_of ["# Plan"; "one"; "two"]) (text_of ["# Plan"; "two"; "three"]) =
    ([mkDiffLine " " (bytes_of "# Plan") 1 1; mkDiffLine "-" (bytes_of "one") 2 (-1);
      mkDiffLine " " (bytes_of "two") 3 2; mkDiffLine "+" (bytes_of "three") (-1) 3], false) /\
  exists n, lcs_length n (map bytes_of ["# Plan"; "one"; "two"]) (map bytes_of ["# Plan"; "two"; "three"]).
Proof.
  split; [vm_compute; reflexivity|].
  destruct (line_diff_correct (text_of ["# Plan"; "one"; "two"]) (text_of ["# Plan"; "two"; "three"]))
    as (_ & _ & _ & script & _ & _ & _ & _ & H).
  exists (length (list_filter unchanged script)). apply H. vm_compute. discriminate.
Defined.

(** A shortened line ends before a character of UTF-8, never inside one. *)
Example shortened_at_a_character (text : bytes) :
  is_long text = true ->
  exists n, shorten text = take n text ++ kShortenedLineSuffix /\
    (n = 0%nat \/ is_continuation (nth n text zero) = false).
Proof.
  intros H. unfold shorten, bounded_diff_text. unfold is_long in H.
  rewrite Z.leb_antisym, H. eexists. split; [reflexivity|]. apply boundary_stops.
Qed.

(** A final newline ends the last line and opens an empty one; an empty text has no lines. *)
Example lines_of_newlines :
  lines_of (text_of ["a"; ""]) = map bytes_of ["a"; ""] /\ lines_of [] = [].
Proof. by split. Qed.

End LineDiffTheorems.
