(* ===== verification/GitHistory.v ===== *)
(** * Reading the history of a repository

    The part of [src/src/git/GitRepo.cpp] that reads old commits: the walk from HEAD in pages
    with a cursor and a bound on the commits that are examined, which of them change a path,
    and the resolution of abbreviated object ids ([git/RevisionReferenceResolver.cpp]).
    Nothing here changes the repository, so a read is a function of it. *)

From stdpp Require Import base list sets strings numbers gmap.
From Stdlib Require Import Ascii.
From S2P Require Import Prelude Text Disk.
Import Disk.

Module GitHistory.

(** What [git_commit_author], [git_commit_time] and [git_commit_message] return for an
    object, and the order of [git_revwalk_next] after [git_revwalk_push_head] with
    [GIT_SORT_TOPOLOGICAL | GIT_SORT_TIME]. *)
Record Signature := mkSignature { sig_name : option string; sig_email : option string; sig_when : Z }.

(** [git_object_lookup_prefix] for a commit: the id found, [GIT_ENOTFOUND],
    [GIT_EAMBIGUOUS], or another code. *)
Inductive PrefixLookup := Found (o : Oid) | ENotFound | EAmbiguous | EOther (rc : Z).

Class GitLog := {
  history_walk : Git -> Oid -> list Oid;
  object_lookup_prefix : Git -> string -> PrefixLookup;
  commit_author : Oid -> option Signature;
  commit_time : Oid -> Z;
  commit_message : Oid -> option string
}.

(** The walk visits every commit that can be reached once; an id that is found is that of a
    commit and starts with the digits asked for, which are written in lower case. *)
Class GitLogLaws (G : GitLog) : Prop := {
  history_walk_reaches : forall g tip o, o ∈ history_walk g tip <-> ancestor g tip o;
  history_walk_once : forall g tip, NoDup (history_walk g tip);
  lookup_prefix_found : forall g reference o,
    object_lookup_prefix g reference = Found o ->
    is_Some (commits g !! o) /\ String.prefix (string_of (map tolower (bytes_of reference))) o = true
}.

Record GitHistoryCommit := mkHistoryCommit {
  hc_oid : Oid;
  hc_parent_oids : list Oid;
  hc_author_name : string;
  hc_author_email : string;
  hc_authored_at : Z;
  hc_committed_at : Z;
  hc_message : string;
  hc_changed_paths : list string
}.

Record GitHistoryPage := mkHistoryPage {
  hp_commits : list GitHistoryCommit;
  has_more : bool;
  scan_limited : bool;
  scan_cursor : option Oid
}.
Definition empty_page : GitHistoryPage := mkHistoryPage [] false false None.

(** ** Objects *)

Definition commit_lookup (g : Git) (o : Oid) : result Commit :=
  match commits g !! o with Some c => Ok c | None => Err (Runtime "git_commit_lookup failed") end.

(** [git_commit_parent(&parent, commit, 0)] and its tree; no tree for a root. *)
Definition first_parent_tree (g : Git) (c : Commit) : result (option Tree) :=
  match commit_parents c with
  | [] => Ok None
  | p :: _ =>
      match commits g !! p with
      | Some parent => Ok (Some (commit_tree parent))
      | None => Err (Runtime "git_commit parent tree lookup failed")
      end
  end.

Definition tree_entry_oid_or_null (tree : option Tree) (path : string) : option Oid :=
  match tree with None => None | Some t => entry_id <$> t !! path end.

Definition commit_changes_path (g : Git) (c : Commit) (path : string) : result bool :=
  let? parent_tree := first_parent_tree g c in
  let oid := tree_entry_oid_or_null (Some (commit_tree c)) path in
  let parent_oid := tree_entry_oid_or_null parent_tree path in
  Ok (match oid, parent_oid with
      | None, None => false
      | Some o, Some p => negb (String.eqb o p)
      | _, _ => true
      end).

(** [git_diff_tree_to_tree] without rename detection: a delta for each path whose entries
    differ. *)
Definition tree_delta (parent tree : Tree) : list string :=
  list_filter (fun path => negb (bool_decide (parent !! path = tree !! path)))
    (elements (dom parent ∪ dom tree)).
Definition commit_changed_paths (g : Git) (c : Commit) : result (list string) :=
  let? parent_tree := first_parent_tree g c in
  Ok (sort_by str_ltb (tree_delta (default ∅ parent_tree) (commit_tree c))).

(** The content of a path at a commit, which [read_blob_at] reads. *)
Definition blob_at (g : Git) (commit_oid path : string) : result (option string) :=
  match commits g !! commit_oid with
  | None => Err (Runtime "git_commit_lookup failed")
  | Some c =>
      match commit_tree c !! path with
      | None => Ok None
      | Some e => match blobs g !! entry_id e with
                  | None => Err (Runtime "git_blob_lookup failed")
                  | Some content => Ok (Some content)
                  end
      end
  end.

Section History.
Context {G : GitLog}.

(** The item of a commit, without its paths. *)
Definition history_item (oid : Oid) (c : Commit) (paths : list string) : GitHistoryCommit :=
  mkHistoryCommit oid (commit_parents c)
    (default "" (commit_author oid ≫= sig_name)) (default "" (commit_author oid ≫= sig_email))
    (default 0 (sig_when <$> commit_author oid)) (commit_time oid)
    (default "" (commit_message oid)) paths.

Definition history_commit_from (g : Git) (oid : Oid) (c : Commit) : result GitHistoryCommit :=
  let? paths := commit_changed_paths g c in
  Ok (history_item oid c paths).

(** [touches]: some of the paths is changed; the rest is not looked at. *)
Fixpoint touches (g : Git) (c : Commit) (paths : list string) : result bool :=
  match paths with
  | [] => Ok false
  | path :: paths =>
      let? changed := commit_changes_path g c path in
      if changed : bool then Ok true else touches g c paths
  end.

Definition count {A} (l : list A) : Z := Z.of_nat (length l).
Definition add_commit_item (item : GitHistoryCommit) (p : GitHistoryPage) : GitHistoryPage :=
  mkHistoryPage (hp_commits p ++ [item]) (has_more p) (scan_limited p) (scan_cursor p).
Definition set_scan_cursor (o : Oid) (p : GitHistoryPage) : GitHistoryPage :=
  mkHistoryPage (hp_commits p) (has_more p) (scan_limited p) (Some o).
Definition set_scan_limited (p : GitHistoryPage) : GitHistoryPage :=
  mkHistoryPage (hp_commits p) (has_more p) true (scan_cursor p).
Definition set_has_more (p : GitHistoryPage) : GitHistoryPage :=
  mkHistoryPage (hp_commits p) true (scan_limited p) (scan_cursor p).

(** The loop over [git_revwalk_next], which both kinds of history have: [relevant] says
    which commits are reported and [item] what of them. The first component of the result is
    [cursor_seen]. *)
Fixpoint scan (g : Git) (relevant : Commit -> result bool)
    (item : Oid -> Commit -> result GitHistoryCommit) (limit : Z) (cursor : option Oid)
    (max_scanned : Z) (oids : list Oid) (cursor_seen : bool) (scanned : Z) (page : GitHistoryPage)
    : result (bool * GitHistoryPage) :=
  match oids with
  | [] => Ok (cursor_seen, page)
  | oid :: oids =>
      if negb cursor_seen then
        scan g relevant item limit cursor max_scanned oids (bool_decide (cursor = Some oid)) scanned page
      else if Z.eqb scanned max_scanned then Ok (cursor_seen, set_scan_limited page)
      else
        let page := set_scan_cursor oid page in
        let? c := commit_lookup g oid in
        let? relevant_here := relevant c in
        if negb relevant_here then
          scan g relevant item limit cursor max_scanned oids cursor_seen (scanned + 1) page
        else if Z.eqb (count (hp_commits page)) limit then Ok (cursor_seen, set_has_more page)
        else
          let? i := item oid c in
          scan g relevant item limit cursor max_scanned oids cursor_seen (scanned + 1)
            (add_commit_item i page)
  end.

(** From [git_revwalk_push_head] on: an unborn branch has no history. *)
Definition history (g : Git) (relevant : Commit -> result bool)
    (item : Oid -> Commit -> result GitHistoryCommit) (limit : Z) (cursor_oid : option Oid)
    (max_scanned_commits : Z) : result GitHistoryPage :=
  match head_id g with
  | None => Ok empty_page
  | Some tip =>
      let cursor_seen := bool_decide (cursor_oid = None) in
      let? r := scan g relevant item limit cursor_oid max_scanned_commits (history_walk g tip)
                  cursor_seen 0 empty_page in
      if negb (bool_decide (cursor_oid = None)) && negb (fst r)
      then Err (InvalidArgument "history cursor is not reachable from HEAD")
      else Ok (snd r)
  end.

Definition history_for_paths (g : Git) (relative_paths : list string) (limit : Z)
    (cursor_oid : option Oid) (max_scanned_commits : Z) : result GitHistoryPage :=
  if bool_decide (relative_paths = []) || Z.eqb limit 0 || Z.eqb max_scanned_commits 0
  then Ok empty_page
  else history g (fun c => touches g c relative_paths) (fun oid c => Ok (history_item oid c []))
         limit cursor_oid max_scanned_commits.

Definition history_all (g : Git) (limit : Z) (cursor_oid : option Oid) (max_scanned_commits : Z)
    : result GitHistoryPage :=
  if Z.eqb limit 0 || Z.eqb max_scanned_commits 0 then Ok empty_page
  else history g (fun _ => Ok true) (history_commit_from g) limit cursor_oid max_scanned_commits.

(** ** Abbreviated object ids *)

Inductive RevisionReferenceStatus := NotFound | Ambiguous | Resolved.
Record RevisionReferenceResult := mkRevision {
  rr_status : RevisionReferenceStatus;
  rr_oid : option Oid
}.

Definition kMinimumPrefixLength : Z := 8.
Definition GIT_OID_HEXSZ : Z := 40.

Definition hex_digit (c : ascii) : bool :=
  is_digit c || in_range "a" "f" c || in_range "A" "F" c.

Definition resolved (oid : Oid) : RevisionReferenceResult := mkRevision Resolved (Some oid).
Definition git_lookup_error (rc : Z) : error := Runtime "git_object_lookup_prefix failed".

(** [RevisionReferenceResolver::resolve]; [git_oid_fromstrn] refuses what is no number. *)
Definition resolve (g : Git) (reference : string) : result RevisionReferenceResult :=
  let size := Z.of_nat (String.length reference) in
  if Z.ltb size kMinimumPrefixLength || Z.ltb GIT_OID_HEXSZ size then Ok (mkRevision NotFound None)
  else if negb (forallb hex_digit (bytes_of reference)) then Ok (mkRevision NotFound None)
  else
    match object_lookup_prefix g reference with
    | ENotFound => Ok (mkRevision NotFound None)
    | EAmbiguous => Ok (mkRevision Ambiguous None)
    | EOther rc => Err (git_lookup_error rc)
    | Found oid => Ok (resolved oid)
    end.

End History.
End GitHistory.

Module GitHistoryFacts.
Import GitHistory.

(** ** Cursors *)

(** What follows the cursor in a walk. *)
Fixpoint suffix_after (o : Oid) (walk : list Oid) : option (list Oid) :=
  match walk with
  | [] => None
  | x :: walk => if bool_decide (Some o = Some x) then Some walk else suffix_after o walk
  end.
Definition after_cursor (cursor : option Oid) (walk : list Oid) : option (list Oid) :=
  match cursor with None => Some walk | Some o => suffix_after o walk end.

Lemma suffix_after_split o walk todo :
  suffix_after o walk = Some todo -> exists before, walk = before ++ o :: todo.
Proof.
  induction walk as [|x walk IH]; cbn; [done|]. case_bool_decide as He.
  - intros [= ->]. exists []. cbn. congruence.
  - intros (before & ->)%IH. by exists (x :: before).
Qed.

Lemma after_cursor_suffix cursor walk todo :
  after_cursor cursor walk = Some todo -> exists before, walk = before ++ todo.
Proof.
  destruct cursor as [o|]; cbn.
  - intros (before & ->)%suffix_after_split. exists (before ++ [o]). by rewrite <- app_assoc.
  - intros [= ->]. by exists [].
Qed.

Lemma suffix_after_app o before todo :
  o ∉ before -> suffix_after o (before ++ o :: todo) = Some todo.
Proof.
  induction before as [|x before IH]; cbn.
  - intros _. by rewrite bool_decide_eq_true_2.
  - intros [Hx Hb]%not_elem_of_cons. rewrite bool_decide_eq_false_2 by congruence. by apply IH.
Qed.

(** A cursor that the walk has once stands for the rest of the walk. *)
Lemma suffix_after_nodup walk before o todo :
  NoDup walk -> walk = before ++ o :: todo -> suffix_after o walk = Some todo.
Proof.
  intros Hn ->. apply suffix_after_app. intros Ho.
  apply list.NoDup_app in Hn as (_ & Hd & _). apply (Hd o Ho). left.
Qed.

Section Scan.
Context {G : GitLog} (g : Git) (relevant : Commit -> result bool)
  (item : Oid -> Commit -> result GitHistoryCommit)
  (rel : Oid -> bool) (it : Oid -> GitHistoryCommit).

(** Every commit of [todo] is there, and reading it gives what [rel] and [it] say. *)
Definition readable (todo : list Oid) : Prop := forall o, o ∈ todo ->
  exists c, commits g !! o = Some c /\ relevant c = Ok (rel o) /\ (rel o = true -> item o c = Ok (it o)).

Definition last_of (o : option Oid) (l : list Oid) : option Oid :=
  match list.last l with Some x => Some x | None => o end.
Lemma last_of_cons o x l : last_of o (x :: l) = last_of (Some x) l.
Proof.
  unfold last_of. destruct l as [|y l]; [done|].
  change (list.last (x :: y :: l)) with (list.last (y :: l)).
  destruct (list.last (y :: l)) eqn:H; [done|]. by apply last_None in H.
Qed.

(** Why a scan ends after [consumed] with [rest] left. *)
Inductive scan_end (limit : Z) (cursor0 : option Oid) (consumed rest : list Oid) (p : GitHistoryPage) : Prop :=
| scan_exhausted :
    rest = [] -> has_more p = false -> scan_limited p = false -> scan_end limit cursor0 consumed rest p
| scan_stopped :
    rest <> [] -> has_more p = false -> scan_limited p = true ->
    scan_cursor p = last_of cursor0 consumed -> scan_end limit cursor0 consumed rest p
| scan_page_full o rest' :
    rest = o :: rest' -> rel o = true -> has_more p = true -> scan_limited p = false ->
    count (hp_commits p) = limit -> scan_end limit cursor0 consumed rest p.

Lemma scan_cons limit cursor max o todo c scanned page :
  commits g !! o = Some c -> relevant c = Ok (rel o) -> (rel o = true -> item o c = Ok (it o)) ->
  scan g relevant item limit cursor max (o :: todo) true scanned page =
    if Z.eqb scanned max then Ok (true, set_scan_limited page) else
    let page := set_scan_cursor o page in
    if negb (rel o) then scan g relevant item limit cursor max todo true (scanned + 1) page
    else if Z.eqb (count (hp_commits page)) limit then Ok (true, set_has_more page)
    else scan g relevant item limit cursor max todo true (scanned + 1) (add_commit_item (it o) page).
Proof.
  intros Hc Hr Hi. cbn [scan negb]. destruct (Z.eqb scanned max); [done|].
  unfold commit_lookup. rewrite Hc. cbn [rbind]. rewrite Hr. cbn [rbind].
  destruct (rel o) eqn:Hrel; [|done]. cbn [negb]. destruct (Z.eqb _ limit); [done|]. by rewrite Hi.
Qed.

Lemma scan_spec limit cursor max todo scanned page :
  readable todo -> scanned <= max -> count (hp_commits page) <= limit ->
  has_more page = false -> scan_limited page = false ->
  exists consumed rest p,
    scan g relevant item limit cursor max todo true scanned page = Ok (true, p) /\
    todo = consumed ++ rest /\
    hp_commits p = hp_commits page ++ map it (list_filter rel consumed) /\
    count (hp_commits p) <= limit /\
    scan_end limit (scan_cursor page) consumed rest p /\
    (scanned < max -> todo <> [] -> 0 < limit - count (hp_commits page) -> consumed <> []).
Proof.
  revert scanned page. induction todo as [|o todo IH]; intros scanned page Hr Hm Hl Hmore Hlim.
  - exists [], [], page. cbn [app map list_filter List.filter]. rewrite ?(app_nil_r (hp_commits page)). do 4 (split; [done|]). split; [by apply scan_exhausted|done].
  - destruct (Hr o) as (c & Hc & Hrc & Hi); [left|].
    assert (readable todo) as Hr' by (intros x Hx; apply Hr; by right).
    rewrite (scan_cons _ _ _ _ _ _ _ _ Hc Hrc Hi). cbn zeta.
    destruct (Z.eqb_spec scanned max) as [He|He].
    { exists [], (o :: todo), (set_scan_limited page).
      split; [done|]. split; [done|]. split; [cbn; by rewrite app_nil_r|].
      split; [done|].
      split; [by apply scan_stopped|lia]. }
    destruct (rel o) eqn:Hrel; cbn [negb]; [destruct (Z.eqb_spec (count (hp_commits (set_scan_cursor o page))) limit) as [Hf|Hf]|].
    + exists [], (o :: todo), (set_has_more (set_scan_cursor o page)).
      split; [done|]. split; [done|]. split; [cbn; by rewrite app_nil_r|].
      split; [cbn in *; lia|]. split; [by apply (scan_page_full _ _ _ _ _ o todo)|].
      cbn in Hf. lia.
    + destruct (IH (scanned + 1) (add_commit_item (it o) (set_scan_cursor o page)))
        as (consumed & rest & p & Hs & -> & Hp & Hcount & Hend & _); [done|lia| |done..|].
      { cbn in *. unfold count in *. rewrite length_app. cbn. lia. }
      exists (o :: consumed), rest, p. split; [done|]. split; [done|]. split; [|split; [done|]].
      * rewrite Hp. cbn. rewrite Hrel, <- app_assoc. done.
      * split; [|done]. destruct Hend; [by apply scan_exhausted|apply scan_stopped|by eapply scan_page_full]; try done.
        by rewrite last_of_cons.
    + destruct (IH (scanned + 1) (set_scan_cursor o page))
        as (consumed & rest & p & Hs & -> & Hp & Hcount & Hend & _); [done|lia|done..|].
      exists (o :: consumed), rest, p. split; [done|]. split; [done|]. split; [|split; [done|]].
      * rewrite Hp. cbn. by rewrite Hrel.
      * split; [|done]. destruct Hend; [by apply scan_exhausted|apply scan_stopped|by eapply scan_page_full]; try done.
        by rewrite last_of_cons.
Qed.

(** ** Pages *)

Lemma scan_skips limit o max before todo scanned page :
  o ∉ before ->
  scan g relevant item limit (Some o) max (before ++ o :: todo) false scanned page =
    scan g relevant item limit (Some o) max todo true scanned page.
Proof.
  induction before as [|x before IH]; cbn [app scan negb].
  - intros _. by rewrite bool_decide_eq_true_2.
  - intros [Hx Hb]%not_elem_of_cons. rewrite bool_decide_eq_false_2 by congruence. by apply IH.
Qed.

Lemma scan_misses limit o max walk scanned page :
  o ∉ walk -> scan g relevant item limit (Some o) max walk false scanned page = Ok (false, page).
Proof.
  induction walk as [|x walk IH]; cbn [scan negb]; [done|].
  intros [Hx Hw]%not_elem_of_cons. rewrite bool_decide_eq_false_2 by congruence. by apply IH.
Qed.

(** A page starts after its cursor. *)
Lemma history_at limit cursor max tip todo :
  head_id g = Some tip -> NoDup (history_walk g tip) ->
  after_cursor cursor (history_walk g tip) = Some todo -> readable todo -> 0 < max -> 0 < limit ->
  exists consumed rest p,
    history g relevant item limit cursor max = Ok p /\
    todo = consumed ++ rest /\
    hp_commits p = map it (list_filter rel consumed) /\
    count (hp_commits p) <= limit /\
    scan_end limit None consumed rest p /\
    (todo <> [] -> consumed <> []).
Proof.
  intros Ht Hn Ha Hr Hm Hl. unfold history. rewrite Ht.
  destruct (scan_spec limit cursor max todo 0 empty_page) as (consumed & rest & p & Hs & Hsplit & Hp & Hc & He & Hne);
    [done|lia|change (0 <= limit); lia|done..|].
  exists consumed, rest, p.
  assert (scan g relevant item limit cursor max (history_walk g tip) (bool_decide (cursor = None)) 0 empty_page = Ok (true, p)) as ->.
  { destruct cursor as [o|]; cbn in Ha.
    - apply suffix_after_split in Ha as (before & Hw). rewrite Hw in *.
      rewrite bool_decide_eq_false_2, scan_skips; [done| |done]. intros Ho.
      apply list.NoDup_app in Hn as (_ & Hd & _). apply (Hd o Ho). left.
    - injection Ha as ->. by rewrite bool_decide_eq_true_2. }
  cbn. rewrite andb_false_r. do 5 (split; [done|]). intros Hne'. apply Hne; [lia|done|].
  change (0 < limit - 0). lia.
Qed.

Lemma history_unknown_cursor limit o max tip :
  head_id g = Some tip -> o ∉ history_walk g tip ->
  history g relevant item limit (Some o) max = Err (InvalidArgument "history cursor is not reachable from HEAD").
Proof.
  intros Ht Ho. unfold history. rewrite Ht, bool_decide_eq_false_2 by done. by rewrite scan_misses.
Qed.

End Scan.
End GitHistoryFacts.
