(* ===== verification/CardHistory.v ===== *)
(** * The history of a card

    [src/src/history/CardHistory.cpp]: the commits that changed the file of a card, in pages,
    with the saves of one editing session joined into one entry; and the comparison of two
    versions of a card. A listing reads the repository only, so it is a function of it. *)

From stdpp Require Import base list sets strings numbers gmap.
From Stdlib Require Import Ascii.
From S2P Require Import Prelude Model Text CardFrontMatter Uuid Disk Privacy LineDiff GitHistory.
Import Disk CardFrontMatter GitHistory LineDiff CardPaths.

Module CardHistory.

Definition kSessionGapSeconds : Z := 10 * 60.
Definition kSessionMaxSeconds : Z := 30 * 60.
Definition kHistoryBatchSize : Z := 64.

Record CardHistorySave := mkSave {
  sv_oid : Oid;
  sv_parent_oids : list Oid;
  sv_authored_at : Z;
  sv_committed_at : Z;
  sv_message : string
}.

Record CardHistoryEntry := mkEntry {
  first_oid : Oid;
  last_oid : Oid;
  parent_oids : list Oid;
  visible_parent_oids : list Oid;
  author_name : string;
  author_email : string;
  started_at : Z;
  ended_at : Z;
  kind : string;
  summary : string;
  commit_count : Z;
  is_merge : bool;
  saves : list CardHistorySave
}.

Record CardHistoryPage := mkPage {
  head_oid_of : option Oid;
  page_entries : list CardHistoryEntry;
  next_cursor : option Oid;
  page_scan_limited : bool
}.

Record CardVersion := mkVersion {
  ver_exists : bool;
  ver_oid : string;
  ver_title : string;
  ver_body : string
}.

Record CardHistoryComparison := mkComparison {
  cmp_from : CardVersion;
  cmp_to : CardVersion;
  cmp_summary : string;
  cmp_lines : list CardDiffLine;
  cmp_truncated : bool
}.

Record CardHistoryChangeResult := mkChange {
  revision : RevisionReferenceResult;
  comparison : option CardHistoryComparison
}.

(** [Snapshot]; the content is only there if [exists]. *)
Abbreviation Snapshot := (option ParsedCardFile).
Definition snap_exists (s : Snapshot) : bool := bool_decide (is_Some s).

(** ** What a commit did *)

Definition starts (prefix text : string) : bool := String.prefix prefix text.

Definition kind_for (commit : GitHistoryCommit) : string :=
  let message := hc_message commit in
  if Nat.ltb 1 (length (hc_parent_oids commit)) || starts "Merge " message then "merged"
  else if starts "Add card " message then "created"
  else if starts "Move card " message then "moved"
  else if starts "Update links for " message || starts "Attach " message then "links"
  else if starts "Update milestones for " message then "milestones"
  else if starts "Delete card " message then "deleted"
  else if starts "Restore card " message then "restored"
  else if starts "Permanently delete card " message then "permanently_deleted"
  else "updated".

Definition may_group (newer : CardHistoryEntry) (older : GitHistoryCommit) : bool :=
  if negb (String.eqb (kind newer) "updated") || negb (String.eqb (kind_for older) "updated") then false
  else if is_merge newer || Nat.ltb 1 (length (hc_parent_oids older)) then false
  else if negb (String.eqb (author_name newer) (hc_author_name older))
          || negb (String.eqb (author_email newer) (hc_author_email older)) then false
  else if negb (bool_decide (parent_oids newer = [hc_oid older])) then false
  else
    let gap := started_at newer - hc_committed_at older in
    let span := ended_at newer - hc_committed_at older in
    Z.leb 0 gap && Z.leb gap kSessionGapSeconds && Z.leb span kSessionMaxSeconds.

Definition trim (line : bytes) : bytes := rev (drop_while is_space (rev (drop_while is_space line))).

(** The loop of [first_meaningful_line]; every round consumes a line and its newline. *)
Fixpoint meaningful_line (fuel : nat) (text : bytes) : bytes :=
  match fuel with
  | O => []
  | S fuel =>
      let line := trim (take_while in_line text) in
      if negb (bool_decide (line = [])) then
        (if Z.ltb 72 (size line) then take 69 line ++ bytes_of "..." else line)
      else match drop_while in_line text with
           | [] => []
           | _ :: rest => meaningful_line fuel rest
           end
  end.
Definition first_meaningful_line (text : string) : string :=
  string_of (meaningful_line (S (length (bytes_of text))) (bytes_of text)).

Definition describe_change (before after : Snapshot) (kind : string) : string :=
  if String.eqb kind "created" || negb (snap_exists before) && snap_exists after then "Card created"
  else if String.eqb kind "deleted" then "Moved card to Trash"
  else if String.eqb kind "permanently_deleted" || snap_exists before && negb (snap_exists after)
  then "Permanently deleted card"
  else if String.eqb kind "restored" then "Restored card from Trash"
  else if String.eqb kind "moved" then "Moved card"
  else if String.eqb kind "milestones" then "Changed milestones"
  else if String.eqb kind "links" then "Changed links or attachments"
  else if String.eqb kind "merged" then "Combined changes"
  else
    match before, after with
    | Some b, Some a =>
        if negb (String.eqb (title (pf_card b)) (title (pf_card a)))
        then "Changed title to “" +:+ title (pf_card a) +:+ "”"
        else if negb (Nat.eqb (length (pf_links b)) (length (pf_links a))) then "Changed links"
        else if negb (Nat.eqb (length (pf_milestones b)) (length (pf_milestones a))) then "Changed milestones"
        else
          let line := first_meaningful_line (pf_body a) in
          if String.eqb line "" then "Edited card" else "Edited “" +:+ line +:+ "”"
    | _, _ => "Changed card"
    end.

(** ** Sessions *)

Definition save_of (commit : GitHistoryCommit) : CardHistorySave :=
  mkSave (hc_oid commit) (hc_parent_oids commit) (hc_authored_at commit) (hc_committed_at commit)
    (hc_message commit).

(** A commit joins the entry of the save after it. *)
Definition join_session (e : CardHistoryEntry) (commit : GitHistoryCommit) : CardHistoryEntry :=
  mkEntry (hc_oid commit) (last_oid e) (hc_parent_oids commit) (visible_parent_oids e) (author_name e)
    (author_email e) (hc_committed_at commit) (ended_at e) (kind e) (summary e) (commit_count e + 1)
    (is_merge e) (save_of commit :: saves e).

Definition new_entry (commit : GitHistoryCommit) : CardHistoryEntry :=
  mkEntry (hc_oid commit) (hc_oid commit) (hc_parent_oids commit) []
    (if String.eqb (hc_author_name commit) "" then "Holder" else hc_author_name commit)
    (hc_author_email commit) (hc_committed_at commit) (hc_committed_at commit) (kind_for commit) "" 1
    (Nat.ltb 1 (length (hc_parent_oids commit))) [save_of commit].

(** [page.entries.back()] takes the commit in, if it may. *)
Fixpoint extend_back (entries : list CardHistoryEntry) (commit : GitHistoryCommit)
    : option (list CardHistoryEntry) :=
  match entries with
  | [] => None
  | [e] => if may_group e commit then Some [join_session e commit] else None
  | e :: entries => (fun rest => e :: rest) <$> extend_back entries commit
  end.

(** The loop over a batch: the entries, [last_consumed_oid], and whether it was left because
    the page is full. *)
Fixpoint consume (limit : Z) (commits : list GitHistoryCommit) (entries : list CardHistoryEntry)
    (last_consumed_oid : option Oid) : list CardHistoryEntry * option Oid * bool :=
  match commits with
  | [] => (entries, last_consumed_oid, false)
  | commit :: commits =>
      match extend_back entries commit with
      | Some entries => consume limit commits entries (Some (hc_oid commit))
      | None =>
          if Z.eqb (count entries) limit then (entries, last_consumed_oid, true)
          else consume limit commits (entries ++ [new_entry commit]) (Some (hc_oid commit))
      end
  end.

Section Service.
Context {Y : Yaml} {V : Privacy} {G : GitLog}.
(** [max_scanned_commits_] *)
Variable max_scanned_commits : Z.

Definition decode (project : Project) (raw : string) : result string :=
  if negb (String.eqb (privacy_mode project) "encrypted_git") then Ok raw
  else match project_key_id project with
       | Some key =>
           if String.eqb key "" then Err (PrivacyError KeyMaterialMissing "Encrypted project is missing its project key id")
           else decrypt_project_blob (project_id project) key raw
       | None => Err (PrivacyError KeyMaterialMissing "Encrypted project is missing its project key id")
       end.

Definition has_nul (text : string) : bool := existsb (Ascii.eqb zero) (bytes_of text).

Definition snapshot_at (g : Git) (project : Project) (card : string) (oid : option Oid) : result Snapshot :=
  match oid with
  | None | Some "" => Ok None
  | Some oid =>
      let? live_path := card_rel_path card in
      let? raw := blob_at g oid live_path in
      let? raw := match raw with
                  | Some text => Ok (Some text)
                  | None => let? trash_path := card_trash_rel_path card in blob_at g oid trash_path
                  end in
      match raw with
      | None => Ok None
      | Some raw =>
          let? decoded := decode project raw in
          if has_nul decoded then Err (Runtime "Historical card content is binary") else
          let parsed := parse_card_file decoded in
          if negb (has_front_matter parsed) || negb (String.eqb (card_id (pf_card parsed)) card)
          then Err (Runtime "Historical card content is malformed")
          else Ok (Some parsed)
      end
  end.

(** The loop over the batches. *)
Fixpoint collect (fuel : nat) (g : Git) (paths : list string) (limit : Z) (raw_cursor : option Oid)
    (entries : list CardHistoryEntry) (last_consumed_oid : option Oid)
    : result (list CardHistoryEntry * option Oid * bool) :=
  match fuel with
  | O => Ok (entries, None, false)
  | S fuel =>
      let? batch := history_for_paths g paths (Z.max kHistoryBatchSize limit) raw_cursor max_scanned_commits in
      if bool_decide (hp_commits batch = []) then
        (if scan_limited batch then Ok (entries, scan_cursor batch, true) else Ok (entries, None, false))
      else
        match consume limit (hp_commits batch) entries last_consumed_oid with
        | (entries, last, true) => Ok (entries, last, false)
        | (entries, last, false) =>
            if scan_limited batch then Ok (entries, scan_cursor batch, true)
            else if negb (has_more batch) then Ok (entries, None, false)
            else collect fuel g paths limit last entries last
        end
  end.

(** The second loop over the entries of the page. *)
Definition finish_entry (g : Git) (project : Project) (card : string) (visible : list Oid)
    (e : CardHistoryEntry) : result CardHistoryEntry :=
  let visible_parents := list_filter (fun p => bool_decide (p ∈ visible)) (parent_oids e) in
  let? before := snapshot_at g project card (hd_error (parent_oids e)) in
  let? after := snapshot_at g project card (Some (last_oid e)) in
  Ok (mkEntry (first_oid e) (last_oid e) (parent_oids e) visible_parents (author_name e) (author_email e)
        (started_at e) (ended_at e) (kind e) (describe_change before after (kind e)) (commit_count e)
        (is_merge e) (saves e)).

Fixpoint finish_entries (g : Git) (project : Project) (card : string) (visible : list Oid)
    (entries : list CardHistoryEntry) : result (list CardHistoryEntry) :=
  match entries with
  | [] => Ok []
  | e :: entries =>
      let? e := finish_entry g project card visible e in
      let? entries := finish_entries g project card visible entries in
      Ok (e :: entries)
  end.

Definition check_card_id (card : string) : result unit :=
  if Nat.ltb (String.length card) 4 then Err (InvalidArgument "card_id is invalid") else Ok tt.

(** As many rounds as the walk has commits, and one. *)
Definition rounds (g : Git) : nat :=
  match head_id g with None => 1 | Some tip => S (length (history_walk g tip)) end.

Definition list_history (g : Git) (project : Project) (card : string) (limit : Z) (cursor : option Oid)
    : result CardHistoryPage :=
  let? _ := check_card_id card in
  if Z.eqb limit 0 || Z.ltb 200 limit
  then Err (InvalidArgument "history limit must be between 1 and 200") else
  let? live_path := card_rel_path card in
  let? trash_path := card_trash_rel_path card in
  let? r := collect (rounds g) g [live_path; trash_path] limit cursor [] None in
  let '(entries, next, limited) := r in
  let? entries := finish_entries g project card (map last_oid entries) entries in
  Ok (mkPage (head_id g) entries next limited).

(** ** Comparing *)

Definition version_from (s : Snapshot) (oid : option Oid) : CardVersion :=
  match s with
  | Some p => mkVersion true (default "" oid) (title (pf_card p)) (pf_body p)
  | None => mkVersion false (default "" oid) "" ""
  end.

Definition comparison_text (v : CardVersion) : string :=
  if negb (ver_exists v) then ""
  else "# " +:+ ver_title v +:+ (if String.eqb (ver_body v) "" then "" else lf +:+ ver_body v).

Definition compare_snapshots (g : Git) (project : Project) (card : string) (from_oid to_oid : option Oid)
    : result CardHistoryComparison :=
  let? before := snapshot_at g project card from_oid in
  let? after := snapshot_at g project card to_oid in
  let from := version_from before from_oid in
  let to := version_from after to_oid in
  let '(lines, truncated) :=
    line_diff (bytes_of (comparison_text from)) (bytes_of (comparison_text to)) in
  Ok (mkComparison from to (describe_change before after "updated") lines truncated).

Definition compare (g : Git) (project : Project) (card : string) (from_oid to_oid : option Oid)
    : result CardHistoryComparison :=
  let? _ := check_card_id card in
  let resolved_to := match to_oid with Some o => Some o | None => head_id g end in
  compare_snapshots g project card from_oid resolved_to.

(** [commit_parent_oids], as a function of the repository. *)
Definition parents_of (g : Git) (oid : Oid) : result (list Oid) :=
  match commits g !! oid with
  | None => Err (Runtime "git_commit_lookup failed")
  | Some c => Ok (commit_parents c)
  end.

Definition compare_change (g : Git) (project : Project) (card : string) (revision_reference : string)
    : result CardHistoryChangeResult :=
  let? _ := check_card_id card in
  let? revision := resolve g revision_reference in
  match revision with
  | mkRevision Resolved (Some selected_oid) =>
      let? parent_oids := parents_of g selected_oid in
      let? c := compare_snapshots g project card (hd_error parent_oids) (Some selected_oid) in
      Ok (mkChange revision (Some c))
  | _ => Ok (mkChange revision None)
  end.

End Service.
End CardHistory.
