(* ===== verification/CardHistoryFacts.v ===== *)
(** * Pages of a card's history, and what they add up to

    The sessions of a card are a function of the commits that changed it; the loop of
    [CardHistoryService::list] computes as many of them as a page holds, and the cursor it
    returns is where the next page goes on. *)

From stdpp Require Import base list sets strings numbers gmap sorting.
From S2P Require Import Prelude Model Text CardFrontMatter Uuid Disk Privacy LineDiff GitHistory CardHistory.
Import Disk CardFrontMatter GitHistory GitHistoryFacts CardHistory CardPaths.

Module CardHistoryFacts.

(** ** Sessions *)

Definition take_in (entries : list CardHistoryEntry) (commit : GitHistoryCommit) : list CardHistoryEntry :=
  match extend_back entries commit with
  | Some entries => entries
  | None => entries ++ [new_entry commit]
  end.
(** The entries of all the commits, newest first, as if one page held them. *)
Definition sessions (commits : list GitHistoryCommit) : list CardHistoryEntry := foldl take_in [] commits.

Lemma extend_back_app entries e commit :
  extend_back (entries ++ [e]) commit =
    if may_group e commit then Some (entries ++ [join_session e commit]) else None.
Proof.
  induction entries as [|x entries IH]; cbn [app extend_back]; [done|].
  rewrite IH. destruct entries; cbn [app]; by destruct (may_group e commit).
Qed.

Lemma extend_back_prefix entries more commit :
  more <> [] -> extend_back (entries ++ more) commit = (fun l => entries ++ l) <$> extend_back more commit.
Proof.
  intros Hm. destruct (exists_last Hm) as (m & e & ->).
  rewrite app_assoc, !extend_back_app. destruct (may_group e commit); [|done]. cbn. by rewrite app_assoc.
Qed.

Lemma take_in_prefix entries more commit :
  more <> [] -> take_in (entries ++ more) commit = entries ++ take_in more commit.
Proof.
  intros Hm. unfold take_in. rewrite extend_back_prefix by done.
  destruct (extend_back more commit); cbn; [done|]. by rewrite app_assoc.
Qed.

Lemma take_in_nonempty entries commit : take_in entries commit <> [].
Proof.
  unfold take_in. destruct (extend_back entries commit) as [l|] eqn:He; [|by destruct entries].
  intros ->. destruct entries as [|e es _] using rev_ind; [done|].
  rewrite extend_back_app in He. destruct (may_group e commit); [|done]. by destruct es.
Qed.

Lemma foldl_take_in_prefix entries more commits :
  more <> [] -> foldl take_in (entries ++ more) commits = entries ++ foldl take_in more commits.
Proof.
  revert more. induction commits as [|c commits IH]; intros more Hm; [done|].
  cbn [foldl]. rewrite take_in_prefix by done. apply IH, take_in_nonempty.
Qed.

Lemma sessions_app commits more : sessions (commits ++ more) = foldl take_in (sessions commits) more.
Proof. apply foldl_app. Qed.

(** Where a commit opens a new entry the history falls into two. *)
Lemma sessions_split before commit after :
  extend_back (sessions before) commit = None ->
  sessions (before ++ commit :: after) = sessions before ++ sessions (commit :: after).
Proof.
  intros H. rewrite sessions_app. cbn [foldl]. unfold take_in at 2. rewrite H.
  by rewrite foldl_take_in_prefix.
Qed.

(** ** The loop over a batch *)

Lemma consume_spec limit commits entries last :
  count entries <= limit ->
  let '(entries', last', stopped) := consume limit commits entries last in
  count entries' <= limit /\
  if stopped : bool then
    exists c1 c c2, commits = c1 ++ c :: c2 /\ entries' = foldl take_in entries c1 /\
      count entries' = limit /\ extend_back entries' c = None /\ last' = last_of last (map hc_oid c1)
  else entries' = foldl take_in entries commits /\ last' = last_of last (map hc_oid commits).
Proof.
  revert entries last. induction commits as [|c commits IH]; intros entries last Hc; cbn [consume]; [done|].
  assert (forall entries' last', take_in entries c = entries' -> count entries' <= limit -> last' = Some (hc_oid c) ->
    let '(e, l, stopped) := consume limit commits entries' last' in
    count e <= limit /\
    if stopped : bool then
      exists c1 x c2, c :: commits = c1 ++ x :: c2 /\ e = foldl take_in entries c1 /\
        count e = limit /\ extend_back e x = None /\ l = last_of last (map hc_oid c1)
    else e = foldl take_in entries (c :: commits) /\ l = last_of last (map hc_oid (c :: commits))) as Hstep.
  { intros entries' last' He Hcount ->. specialize (IH entries' (Some (hc_oid c)) Hcount).
    destruct (consume limit commits entries' (Some (hc_oid c))) as [[e l] []]; destruct IH as [Hle IH]; (split; [done|]).
    - destruct IH as (c1 & x & c2 & -> & -> & Hcl & Hx & ->). exists (c :: c1), x, c2.
      cbn [app foldl map]. rewrite He, last_of_cons. done.
    - destruct IH as [-> ->]. cbn [foldl map]. by rewrite He, last_of_cons. }
  destruct (extend_back entries c) as [entries'|] eqn:He.
  - apply Hstep; [unfold take_in; by rewrite He| |done].
    destruct entries as [|x es _] using rev_ind; [done|]. rewrite extend_back_app in He.
    destruct (may_group x c); [|done]. injection He as <-.
    unfold count in *. rewrite !length_app in *. cbn in *. lia.
  - destruct (Z.eqb_spec (count entries) limit) as [Hl|Hl].
    + split; [done|]. by exists [], c, commits.
    + apply Hstep; [unfold take_in; by rewrite He| |done].
      unfold count in *. rewrite length_app. cbn. lia.
Qed.

(** Where the commits that matter are cut, the walk is cut after the last of the first part. *)
Lemma filter_split (rel : Oid -> bool) l a b :
  list_filter rel l = a ++ b ->
  exists l1 l2, l = l1 ++ l2 /\ list_filter rel l1 = a /\ list_filter rel l2 = b /\
    (a = [] /\ l1 = [] \/ exists l' x, l1 = l' ++ [x] /\ list.last a = Some x).
Proof.
  revert a. induction l as [|y l IH]; intros a Ha.
  - cbn in Ha. apply eq_sym, app_eq_nil in Ha as [-> ->]. exists [], []. repeat split. by left.
  - unfold list_filter in Ha. cbn [List.filter] in Ha. fold (list_filter rel l) in Ha.
    destruct a as [|x a].
    { exists [], (y :: l). repeat split; [done|]. by left. }
    destruct (rel y) eqn:Hy.
    + injection Ha as <- Ha. destruct (IH _ Ha) as (l1 & l2 & -> & <- & <- & Hlast).
      exists (y :: l1), l2. unfold list_filter. cbn [List.filter]. rewrite Hy. repeat split. right.
      destruct Hlast as [[He ->]|(l' & x & -> & Hx)].
      * exists [], y. by cbn.
      * exists (y :: l'), x. split; [done|]. unfold list_filter in Hx. rewrite last_cons, Hx. done.
    + destruct (IH _ Ha) as (l1 & l2 & -> & Hf & <- & Hlast).
      exists (y :: l1), l2. split; [done|]. unfold list_filter in *. cbn [List.filter]. rewrite Hy.
      split; [done|]. split; [done|]. right.
      destruct Hlast as [[He _]|(l' & z & -> & Hz)]; [done|]. by exists (y :: l'), z.
Qed.

(** ** The commits that changed a card *)

(** The object a commit has at a path. *)
Definition version_at (g : Git) (o : Oid) (path : string) : option Oid :=
  commits g !! o ≫= fun c => entry_id <$> commit_tree c !! path.
Definition parent_version_at (g : Git) (o : Oid) (path : string) : option Oid :=
  (commits g !! o ≫= fun c => hd_error (commit_parents c)) ≫= fun p => version_at g p path.
Definition touched (g : Git) (paths : list string) (o : Oid) : bool :=
  existsb (fun path => negb (bool_decide (version_at g o path = parent_version_at g o path))) paths.

Section Pages.
Context {Y : Yaml} {V : Privacy} {G : GitLog} `{!GitLogLaws G}.
Context (g : Git) (tip : Oid) (paths : list string) (max limit : Z).
Hypothesis Htip : head_id g = Some tip.
(** The objects of the history are there. *)
Hypothesis Hcomplete : forall o, ancestor g tip o -> is_Some (commits g !! o).
Hypothesis Hpaths : paths <> [].
Hypothesis Hmax : 0 < max.
Hypothesis Hlimit : 0 < limit.

Definition item_of (o : Oid) : GitHistoryCommit :=
  history_item o (default (mkCommit [] ∅) (commits g !! o)) [].
(** What a part of the walk says of the card. *)
Definition touching (walk : list Oid) : list GitHistoryCommit :=
  map item_of (list_filter (touched g paths) walk).

Lemma touching_app l1 l2 : touching (l1 ++ l2) = touching l1 ++ touching l2.
Proof. unfold touching, list_filter. by rewrite List.filter_app, map_app. Qed.

Lemma ancestor_parent o c p q :
  ancestor g o q -> commits g !! q = Some c -> p ∈ commit_parents c -> ancestor g o p.
Proof. induction 1; intros; [econstructor; eauto; constructor|econstructor; eauto]. Qed.

Lemma commit_changes_path_spec o c path :
  ancestor g tip o -> commits g !! o = Some c ->
  commit_changes_path g c path = Ok (negb (bool_decide (version_at g o path = parent_version_at g o path))).
Proof.
  intros Ho Hc. unfold commit_changes_path, first_parent_tree, version_at, parent_version_at.
  rewrite Hc. cbn [mbind option_bind]. destruct (commit_parents c) as [|p ps] eqn:Hp; cbn [hd_error mbind option_bind rbind].
  - cbn. destruct (commit_tree c !! path); cbn; case_bool_decide; naive_solver.
  - destruct (Hcomplete p) as [pc Hpc]; [eapply ancestor_parent; [done..|rewrite Hp; left]|].
    assert (version_at g p path = entry_id <$> commit_tree pc !! path) as Hv by (unfold version_at; by rewrite Hpc).
    rewrite Hpc. cbn. fold (version_at g p path). rewrite Hv.
    destruct (commit_tree c !! path) as [e|], (commit_tree pc !! path) as [e'|]; cbn;
      try (case_bool_decide; naive_solver).
    f_equal. destruct (String.eqb_spec (entry_id e) (entry_id e')) as [He|Hn];
      [rewrite bool_decide_eq_true_2 by congruence|rewrite bool_decide_eq_false_2 by congruence]; done.
Qed.

Lemma touches_spec o c ps :
  ancestor g tip o -> commits g !! o = Some c -> touches g c ps = Ok (touched g ps o).
Proof.
  intros Ho Hc. induction ps as [|path ps IH]; [done|].
  cbn [touches touched existsb]. rewrite (commit_changes_path_spec o) by done. cbn [rbind].
  destruct (negb _); cbn [orb]; [done|]. by rewrite IH.
Qed.

Lemma walk_readable walk :
  (forall o, o ∈ walk -> ancestor g tip o) ->
  readable g (fun c => touches g c paths) (fun oid c => Ok (history_item oid c [])) (touched g paths) item_of walk.
Proof.
  intros Hw o Ho. destruct (Hcomplete o (Hw o Ho)) as [c Hc]. exists c. split; [done|].
  split; [by apply touches_spec, Hc; apply Hw|]. intros _. unfold item_of. by rewrite Hc.
Qed.

(** ** Collecting a page *)

(** [done_] has been taken in; the walk goes on with [todo]. *)
Record at_round (start done_ todo : list Oid) (raw : option Oid) (entries : list CardHistoryEntry)
    (last : option Oid) : Prop := {
  ar_walk : after_cursor raw (history_walk g tip) = Some todo;
  ar_start : start = done_ ++ todo;
  ar_entries : entries = sessions (touching done_);
  ar_count : count entries <= limit;
  ar_last : done_ = [] /\ entries = [] \/ exists d o, done_ = d ++ [o] /\ last = Some o
}.

(** How a page ends: with the history, at the bound of a scan, or because it is full. *)
Inductive page_end (start consumed rest : list Oid) : list CardHistoryEntry -> option Oid -> bool -> Prop :=
| page_exhausted entries : rest = [] -> page_end start consumed rest entries None false
| page_stopped entries d o :
    consumed = d ++ [o] -> page_end start consumed rest entries (Some o) true
| page_is_full entries d o :
    consumed = d ++ [o] -> count entries = limit ->
    sessions (touching start) = sessions (touching consumed) ++ sessions (touching rest) ->
    page_end start consumed rest entries (Some o) false.

Lemma last_of_map_oid o cs : last_of o (map hc_oid (map item_of cs)) = last_of o cs.
Proof. assert (map hc_oid (map item_of cs) = cs) as -> by (rewrite map_map; apply map_id). done. Qed.

Lemma touching_split walk c1 c2 :
  touching walk = c1 ++ c2 ->
  exists l1 l2, walk = l1 ++ l2 /\ touching l1 = c1 /\ touching l2 = c2 /\
    (c1 = [] /\ l1 = [] \/ exists l x, l1 = l ++ [x] /\ forall o, last_of o (map hc_oid c1) = Some x).
Proof.
  intros H. unfold touching in H. apply map_eq_app in H as (a & b & Hf & Ha & Hb).
  destruct (filter_split _ _ _ _ Hf) as (l1 & l2 & -> & H1 & H2 & Hl).
  exists l1, l2. split; [done|]. unfold touching. rewrite H1, H2. split; [done|]. split; [done|].
  destruct Hl as [[-> ->]|(l & x & -> & Hx)]; [left; by cbn in Ha|right].
  exists l, x. split; [done|]. intros o. rewrite <- Ha, last_of_map_oid. unfold last_of. by rewrite Hx.
Qed.

Lemma suffix_ancestors raw todo :
  after_cursor raw (history_walk g tip) = Some todo -> forall o, o ∈ todo -> ancestor g tip o.
Proof.
  intros (before & Hw)%after_cursor_suffix o Ho. apply history_walk_reaches. rewrite Hw.
  apply elem_of_app. by right.
Qed.

(** A batch after the cursor. *)
Lemma batch_spec raw todo :
  after_cursor raw (history_walk g tip) = Some todo ->
  exists consumed rest p,
    history_for_paths g paths (Z.max kHistoryBatchSize limit) raw max = Ok p /\
    todo = consumed ++ rest /\ hp_commits p = touching consumed /\
    scan_end (touched g paths) (Z.max kHistoryBatchSize limit) None consumed rest p /\
    (todo <> [] -> consumed <> []).
Proof.
  intros Ha. unfold history_for_paths. rewrite bool_decide_eq_false_2 by done.
  unfold kHistoryBatchSize.
  rewrite (proj2 (Z.eqb_neq _ 0)) by lia. rewrite (proj2 (Z.eqb_neq max 0)) by lia. cbn [orb].
  destruct (history_at g (fun c => touches g c paths) (fun oid c => Ok (history_item oid c []))
              (touched g paths) item_of (Z.max 64 limit) raw max tip todo)
    as (consumed & rest & p & Hp & Hs & Hc & _ & He & Hne); try done; try lia.
  - apply history_walk_once.
  - apply walk_readable. by apply suffix_ancestors with raw.
  - by exists consumed, rest, p.
Qed.

(** Rounds go on where the last commit that was taken in lies. *)
Lemma round_goes_on start done_ k x rest raw entries last :
  at_round start done_ ((k ++ [x]) ++ rest) raw entries last ->
  forall entries', entries' = sessions (touching (done_ ++ k ++ [x])) -> count entries' <= limit ->
  at_round start (done_ ++ k ++ [x]) rest (Some x) entries' (Some x).
Proof.
  intros [Hw Hs _ _ _] entries' He Hc. split; [|by rewrite Hs, <- !app_assoc|done|done|].
  - apply after_cursor_suffix in Hw as (before & Hw).
    apply (suffix_after_nodup _ (before ++ k)); [apply history_walk_once|].
    rewrite Hw, <- !app_assoc. done.
  - right. exists (done_ ++ k), x. by rewrite app_assoc.
Qed.

Lemma last_of_snoc (o : option Oid) (d : list Oid) (x : Oid) : last_of o (d ++ [x]) = Some x.
Proof. unfold last_of. by rewrite last_snoc. Qed.

Lemma collect_spec fuel : forall start done_ todo raw entries last,
  at_round start done_ todo raw entries last -> (length todo < fuel)%nat ->
  exists consumed rest entries' next limited,
    collect max fuel g paths limit raw entries last = Ok (entries', next, limited) /\
    start = consumed ++ rest /\ entries' = sessions (touching consumed) /\
    count entries' <= limit /\ page_end start consumed rest entries' next limited.
Proof.
  induction fuel as [|fuel IH]; intros start done_ todo raw entries last Hr Hf; [lia|].
  pose proof Hr as [Hw Hs He Hc Hl].
  destruct (batch_spec raw todo Hw) as (k & rest & p & Hp & -> & Hcommits & Hend & Hne).
  cbn [collect]. rewrite Hp. cbn [rbind].
  assert (forall e, e = sessions (touching (done_ ++ k)) <-> e = foldl take_in entries (touching k)) as Hfold.
  { intros e. by rewrite touching_app, sessions_app, He. }
  case_bool_decide as Hnil.
  - rewrite Hnil in Hcommits.
    assert (entries = sessions (touching (done_ ++ k))) as He'.
    { by rewrite touching_app, <- Hcommits, app_nil_r. }
    destruct Hend as [Hrest _ Hlim|Hrest _ Hlim Hcur|o rest' _ _ _ _ Hcount].
    + rewrite Hlim. exists (done_ ++ k), rest, entries, None, false.
      rewrite Hs, <- app_assoc. repeat split; try done. by apply page_exhausted.
    + rewrite Hlim. destruct k as [|x k _] using rev_ind.
      { exfalso. apply Hne; [by destruct rest|done]. }
      rewrite last_of_snoc in Hcur.
      exists (done_ ++ k ++ [x]), rest, entries, (Some x), true.
      rewrite Hs, Hcur, <- !app_assoc. repeat split; try done.
      apply (page_stopped _ _ _ _ (done_ ++ k)). by rewrite app_assoc.
    + rewrite Hnil in Hcount. unfold count, kHistoryBatchSize in Hcount. cbn in Hcount. lia.
  - pose proof (consume_spec limit (hp_commits p) entries last Hc) as Hcs.
    destruct (consume limit (hp_commits p) entries last) as [[entries' last'] []]; destruct Hcs as [Hc' Hcs].
    + destruct Hcs as (c1 & c & c2 & Hsplit & He' & Hfull & Hext & Hl').
      rewrite Hcommits in Hsplit. destruct (touching_split _ _ _ Hsplit) as (k1 & k2 & -> & H1 & H2 & Hlast).
      assert (entries' = sessions (touching (done_ ++ k1))) as Hentries.
      { by rewrite touching_app, sessions_app, <- He, H1. }
      exists (done_ ++ k1), (k2 ++ rest), entries', last', false.
      rewrite Hs, <- !app_assoc. split; [done|]. split; [done|]. split; [done|]. split; [done|].
      assert (exists d o, done_ ++ k1 = d ++ [o] /\ last' = Some o) as (d & o & Hd & ->).
      { destruct Hlast as [[-> ->]|(k' & x & -> & Hx)].
        - rewrite app_nil_r in *. destruct Hl as [[-> ->]|(d & o & -> & ->)].
          + cbn in He'. rewrite He' in Hfull. cbn in Hfull. unfold count in Hfull. cbn in Hfull. lia.
          + exists d, o. by rewrite Hl'.
        - exists (done_ ++ k'), x. rewrite app_assoc. split; [done|]. by rewrite Hl', Hx. }
      apply (page_is_full _ _ _ _ d o); [done|done|].
      rewrite app_assoc, touching_app. rewrite (touching_app k2), H2. cbn [app].
      rewrite Hentries in Hext. by apply sessions_split.
    + destruct Hcs as [He' Hl']. rewrite <- Hcommits in Hfold.
      apply Hfold in He'.
      destruct Hend as [Hrest Hmore Hlim|Hrest Hmore Hlim Hcur|o rest' Hrest Hrel Hmore Hlim Hcount].
      * rewrite Hlim, Hmore. exists (done_ ++ k), rest, entries', None, false.
        rewrite Hs, <- app_assoc. repeat split; try done. by apply page_exhausted.
      * rewrite Hlim. destruct k as [|x k _] using rev_ind.
        { exfalso. apply Hne; [by destruct rest|done]. }
        rewrite last_of_snoc in Hcur.
        exists (done_ ++ k ++ [x]), rest, entries', (Some x), true.
        rewrite Hs, Hcur, <- !app_assoc. repeat split; try done.
        apply (page_stopped _ _ _ _ (done_ ++ k)). by rewrite app_assoc.
      * rewrite Hlim, Hmore. cbn [negb].
        rewrite Hcommits in Hnil, Hl'. pose proof (app_nil_r (touching k)) as Hk. symmetry in Hk.
        destruct (touching_split _ _ _ Hk) as (k1 & k2 & -> & H1 & H2 & Hlast).
        destruct Hlast as [[Hbad _]|(k' & x & -> & Hx)]; [congruence|].
        rewrite Hx in Hl'. subst last'. rewrite <- app_assoc in Hr.
        apply IH with (done_ ++ k' ++ [x]) (k2 ++ rest).
        -- apply (round_goes_on _ _ _ _ _ _ _ _ Hr); [|done].
           by rewrite He', !touching_app, H2, ?app_nil_r, ?app_assoc.
        -- rewrite !length_app in Hf. cbn in Hf. rewrite length_app. lia.
Qed.
End Pages.

End CardHistoryFacts.
