(* ===== verification/CardHistoryTheorems.v ===== *)
(** * What the history of a card shows

    Following the cursors from page to page shows every commit that changed the card, once,
    with consecutive saves of one author joined to sessions; and the comparison of two
    versions is the difference of their texts. *)

From stdpp Require Import base list sets strings numbers gmap sorting.
From S2P Require Import Prelude Model Text CardFrontMatter Uuid Disk Privacy LineDiff ReferenceGit GitHistory CardHistory CardHistoryFacts.
Import Disk CardFrontMatter GitHistory GitHistoryFacts CardHistory CardPaths CardHistoryFacts.

Module SessionFacts.

(** ** What a session is *)

Definition display_name (c : GitHistoryCommit) : string :=
  if String.eqb (hc_author_name c) "" then "Holder" else hc_author_name c.

(** [older] is the save before [newer] in one session. *)
Record joined (newer older : GitHistoryCommit) : Prop := {
  jn_kinds : kind_for newer = "updated" /\ kind_for older = "updated";
  jn_parent : hc_parent_oids newer = [hc_oid older];
  jn_author : display_name newer = hc_author_name older /\ hc_author_email newer = hc_author_email older;
  jn_gap : 0 <= hc_committed_at newer - hc_committed_at older <= 600
}.

(** [e] is the entry of the commits [cs], newest first. *)
Record session (cs : list GitHistoryCommit) (e : CardHistoryEntry) : Prop := {
  se_saves : saves e = rev (map save_of cs);
  se_count : commit_count e = count cs;
  se_newest : exists c, hd_error cs = Some c /\ last_oid e = hc_oid c /\ ended_at e = hc_committed_at c /\
    kind e = kind_for c /\ author_name e = display_name c /\ author_email e = hc_author_email c /\
    is_merge e = Nat.ltb 1 (length (hc_parent_oids c));
  se_oldest : exists c, list.last cs = Some c /\ first_oid e = hc_oid c /\ started_at e = hc_committed_at c /\
    parent_oids e = hc_parent_oids c;
  se_joined : Sorted joined cs;
  se_kind : forall c, list.last cs = Some c -> kind_for c = kind e /\ display_name c = author_name e /\
    hc_author_email c = author_email e;
  se_span : (1 < length cs)%nat -> ended_at e - started_at e <= 1800
}.

(** [c] belongs to the session of [cs]: it is the save before the oldest of them, by the same
    author within ten minutes, and at most half an hour before the newest. *)
Definition continues (cs : list GitHistoryCommit) (c : GitHistoryCommit) : Prop :=
  exists newest oldest, hd_error cs = Some newest /\ list.last cs = Some oldest /\
    joined oldest c /\ hc_committed_at newest - hc_committed_at c <= 1800.

(** The entries of a history: each is a session, and no session continues in the next. *)
Inductive grouped : list (list GitHistoryCommit) -> list CardHistoryEntry -> Prop :=
| grouped_done : grouped [] []
| grouped_more cs e chunks entries :
    session cs e ->
    (forall c, hd_error chunks ≫= hd_error = Some c -> ~ continues cs c) ->
    grouped chunks entries -> grouped (cs :: chunks) (e :: entries).

Lemma may_group_spec e c :
  may_group e c = true ->
  kind e = "updated" /\ kind_for c = "updated" /\ author_name e = hc_author_name c /\
  author_email e = hc_author_email c /\ parent_oids e = [hc_oid c] /\
  0 <= started_at e - hc_committed_at c <= kSessionGapSeconds /\
  ended_at e - hc_committed_at c <= kSessionMaxSeconds.
Proof.
  unfold may_group. destruct (String.eqb_spec (kind e) "updated"); [|done].
  destruct (String.eqb_spec (kind_for c) "updated"); [|done]. cbn [negb orb].
  destruct (is_merge e || _); [done|].
  destruct (String.eqb_spec (author_name e) (hc_author_name c)); [|done].
  destruct (String.eqb_spec (author_email e) (hc_author_email c)); [|done]. cbn [negb orb].
  case_bool_decide; [|done]. cbn [negb]. rewrite !andb_true_iff, !Z.leb_le. naive_solver.
Qed.

(** The code joins exactly what belongs together. *)
Lemma may_group_continues cs e c : session cs e -> may_group e c = true <-> continues cs c.
Proof.
  intros [_ _ (n & Hn & Hn1 & Hn2 & Hn3 & Hn4 & Hn5 & Hn6) (o & Ho & Ho1 & Ho2 & Ho3) _ Hk _].
  destruct (Hk o Ho) as (Hk1 & Hk2 & Hk3). split.
  - intros (M1 & M2 & M3 & M4 & M5 & M6 & M7)%may_group_spec. exists n, o. do 2 (split; [done|]).
    split; [|by rewrite <- Hn2]. split; [by rewrite Hk1|by rewrite <- Ho3|by rewrite Hk2, Hk3|by rewrite <- Ho2].
  - intros (n' & o' & Hn' & Ho' & [[J1 J2] J3 [J4 J5] J6] & Hspan). rewrite Hn in Hn'. rewrite Ho in Ho'.
    injection Hn' as <-. injection Ho' as <-. unfold may_group.
    rewrite <- Hk1, <- Hk2, <- Hk3, J1, J2, J4, J5, !String.eqb_refl, Ho3, J3, bool_decide_eq_true_2 by done.
    assert (forall x, kind_for x = "updated" -> Nat.ltb 1 (length (hc_parent_oids x)) = false) as Hone.
    { intros x Hx. apply not_true_iff_false. intros E. unfold kind_for in Hx. rewrite E in Hx. discriminate Hx. }
    rewrite Hn6, (Hone n (eq_trans (eq_sym Hn3) (eq_trans (eq_sym Hk1) J1))), (Hone c J2). cbn. rewrite Ho2, Hn2.
    unfold kSessionGapSeconds, kSessionMaxSeconds. rewrite !andb_true_iff, !Z.leb_le. lia.
Qed.

Lemma session_new c : session [c] (new_entry c).
Proof.
  split; cbn; try done.
  - by exists c.
  - by exists c.
  - repeat constructor.
  - intros x [= <-]. done.
  - lia.
Qed.

Lemma sorted_snoc {A} (R : relation A) l y :
  Sorted R l -> (forall x, list.last l = Some x -> R x y) -> Sorted R (l ++ [y]).
Proof.
  induction l as [|a l IH]; intros Hs Hl; cbn; [repeat constructor|].
  apply Sorted_inv in Hs as [Hs Hh]. constructor.
  - apply IH; [done|]. intros x Hx. apply Hl. destruct l; [done|exact Hx].
  - destruct l as [|b l]; cbn; constructor; [by apply Hl|by inversion Hh].
Qed.

Lemma session_join cs e c : session cs e -> may_group e c = true -> session (cs ++ [c]) (join_session e c).
Proof.
  intros [Hs Hc (n & Hn & Hn1 & Hn2 & Hn3 & Hn4 & Hn5 & Hn6) (o & Ho & Ho1 & Ho2 & Ho3) Hj Hk Hsp] Hm.
  apply may_group_spec in Hm as (M1 & M2 & M3 & M4 & M5 & M6 & M7).
  destruct (Hk o Ho) as (Hk1 & Hk2 & Hk3).
  split; cbn [saves commit_count last_oid ended_at kind author_name author_email is_merge first_oid started_at parent_oids join_session].
  - by rewrite Hs, map_app, rev_app_distr.
  - rewrite Hc. unfold count. rewrite length_app. cbn. lia.
  - exists n. split; [by destruct cs|]. done.
  - exists c. by rewrite last_snoc.
  - apply sorted_snoc; [done|]. intros x Hx. rewrite Ho in Hx. injection Hx as <-. split.
    + by rewrite Hk1.
    + by rewrite <- Ho3.
    + by rewrite Hk2, Hk3.
    + by rewrite <- Ho2.
  - intros x. rewrite last_snoc. intros [= <-]. split; [by rewrite M2, M1|]. split; [|done].
    unfold display_name. rewrite <- M3. destruct (String.eqb_spec (author_name e) ""); [|done].
    rewrite Hn4 in e0. unfold display_name in e0. by destruct (String.eqb_spec (hc_author_name n) "").
  - done.
Qed.

Lemma grouped_from cs : forall chunk c0 e,
  session chunk e -> hd_error chunk = Some c0 ->
  exists chunks, grouped chunks (foldl take_in [e] cs) /\ concat chunks = chunk ++ cs /\
    hd_error chunks ≫= hd_error = Some c0.
Proof.
  induction cs as [|c cs IH]; intros chunk c0 e He Hc0; cbn [foldl].
  - exists [chunk]. split; [|by cbn]. constructor; [done|done|constructor].
  - unfold take_in at 2. cbn [extend_back]. destruct (may_group e c) eqn:Hm.
    + destruct (IH (chunk ++ [c]) c0 (join_session e c)) as (chunks & Hg & Hcat & Hhd).
      { by apply session_join. } { by destruct chunk. }
      exists chunks. by rewrite <- app_assoc in Hcat.
    + destruct (IH [c] c (new_entry c) (session_new c) eq_refl) as (chunks & Hg & Hcat & Hhd).
      cbn [app]. rewrite (foldl_take_in_prefix [e] [new_entry c]) by done.
      exists (chunk :: chunks). cbn. rewrite Hcat. split; [|done].
      constructor; [done| |done]. intros x. rewrite Hhd. intros [= <-].
      rewrite <- (may_group_continues chunk e) by done. by rewrite Hm.
Qed.

Lemma sessions_grouped cs : exists chunks, grouped chunks (sessions cs) /\ concat chunks = cs.
Proof.
  destruct cs as [|c cs]; [exists []; split; [constructor|done]|].
  destruct (grouped_from cs [c] c (new_entry c) (session_new c) eq_refl) as (chunks & Hg & Hc & _).
  by exists chunks.
Qed.

End SessionFacts.

Module CardHistoryTheorems.
Import SessionFacts.

Section Listing.
Context {Y : Yaml} {V : Privacy} {G : GitLog}.
Context (max : Z) (g : Git) (project : Project) (card : string) (limit : Z).

(** A client that follows [next_cursor] until there is none. *)
Fixpoint all_pages (fuel : nat) (cursor : option Oid) : result (list CardHistoryPage) :=
  match fuel with
  | O => Ok []
  | S fuel =>
      let? page := list_history max g project card limit cursor in
      match next_cursor page with
      | None => Ok [page]
      | Some o => let? pages := all_pages fuel (Some o) in Ok (page :: pages)
      end
  end.

(** How an entry is shown: with its summary, and the parents that are on its page. *)
Definition shown_entry (visible : list Oid) (e shown : CardHistoryEntry) : Prop :=
  exists before after,
    snapshot_at g project card (hd_error (parent_oids e)) = Ok before /\
    snapshot_at g project card (Some (last_oid e)) = Ok after /\
    shown = mkEntry (first_oid e) (last_oid e) (parent_oids e)
      (list_filter (fun p => bool_decide (p ∈ visible)) (parent_oids e)) (author_name e) (author_email e)
      (started_at e) (ended_at e) (kind e) (describe_change before after (kind e)) (commit_count e)
      (is_merge e) (saves e).

(** A page shows the sessions of a part of the walk. *)
Record page_shows (paths : list string) (tip : Oid) (chunk : list Oid) (page : CardHistoryPage) : Prop := {
  ps_head : head_oid_of page = Some tip;
  ps_entries : Forall2 (shown_entry (map last_oid (sessions (touching g paths chunk))))
                 (sessions (touching g paths chunk)) (page_entries page);
  ps_count : count (page_entries page) <= limit
}.

Context `{!GitLogLaws G} (tip : Oid) (live trash : string).
Hypothesis Htip : head_id g = Some tip.
Hypothesis Hcomplete : forall o, ancestor g tip o -> is_Some (commits g !! o).
Hypothesis Hlive : card_rel_path card = Ok live.
Hypothesis Htrash : card_trash_rel_path card = Ok trash.
(** Every version of the card can be read. *)
Hypothesis Hsnap : forall o, ancestor g tip o -> exists s, snapshot_at g project card (Some o) = Ok s.
Hypothesis Hmax : 0 < max.
Hypothesis Hlimit : 1 <= limit <= 200.
Let paths := [live; trash].

Lemma finish_entries_shows visible entries :
  (forall e, e ∈ entries -> ancestor g tip (last_oid e) /\ forall p, hd_error (parent_oids e) = Some p -> ancestor g tip p) ->
  exists shown, finish_entries g project card visible entries = Ok shown /\
    Forall2 (shown_entry visible) entries shown.
Proof.
  induction entries as [|e entries IH]; intros He; [by exists []|].
  destruct IH as (shown & Hf & Hs); [intros x Hx; apply He; by right|].
  destruct (He e) as [Hl Hp]; [left|].
  destruct (Hsnap _ Hl) as [after Hafter].
  assert (exists before, snapshot_at g project card (hd_error (parent_oids e)) = Ok before) as [before Hbefore].
  { destruct (hd_error (parent_oids e)) as [p|]; [by apply Hsnap, Hp|by exists None]. }
  cbn [finish_entries]. unfold finish_entry. rewrite Hbefore, Hafter. cbn [rbind]. rewrite Hf. cbn [rbind].
  eexists. split; [done|]. constructor; [|done]. by exists before, after.
Qed.

Lemma item_parents o : ancestor g tip o -> forall p, hd_error (hc_parent_oids (item_of g o)) = Some p -> ancestor g tip p.
Proof.
  intros Ho p Hp. destruct (Hcomplete o Ho) as [c Hc]. unfold item_of in Hp. rewrite Hc in Hp. cbn in Hp.
  apply (ancestor_parent g tip c p o); [done..|]. destruct (commit_parents c); [done|]. injection Hp as ->. left.
Qed.

(** The commits an entry names are in the history. *)
Lemma sessions_in_history chunk :
  (forall o, o ∈ chunk -> ancestor g tip o) ->
  forall e, e ∈ sessions (touching g paths chunk) ->
    ancestor g tip (last_oid e) /\ forall p, hd_error (parent_oids e) = Some p -> ancestor g tip p.
Proof.
  intros Hin e He. destruct (sessions_grouped (touching g paths chunk)) as (chunks & Hg & Hc).
  assert (forall x, x ∈ concat chunks -> exists o, x = item_of g o /\ ancestor g tip o) as Hitems.
  { intros x. rewrite Hc. unfold touching. rewrite elem_of_map_id. intros (o & Ho & ->).
    exists o. split; [done|]. apply Hin. by apply elem_of_list_filter in Ho as [Ho _]. }
  clear Hc. induction Hg as [|cs e' chunks entries Hse _ _ IH]; [by apply not_elem_of_nil in He|].
  apply elem_of_cons in He as [->|He]; [|apply IH; [done|]; intros x Hx; apply Hitems; cbn; apply elem_of_app; by right].
  destruct Hse as [_ _ (n & Hn & Hl & _) (o & Ho & _ & _ & Hp) _ _ _]. split.
  - destruct (Hitems n) as (x & -> & Hx).
    { cbn. apply elem_of_app. left. destruct cs; [done|]. injection Hn as ->. left. }
    by rewrite Hl.
  - destruct (Hitems o) as (x & -> & Hx).
    { cbn. apply elem_of_app. left. apply last_Some in Ho as (k & ->). apply elem_of_app. right. left. }
    rewrite Hp. by apply item_parents.
Qed.

Lemma list_page cursor todo :
  after_cursor cursor (history_walk g tip) = Some todo ->
  exists page consumed rest,
    list_history max g project card limit cursor = Ok page /\ todo = consumed ++ rest /\
    page_shows paths tip consumed page /\
    page_end g paths limit todo consumed rest (sessions (touching g paths consumed)) (next_cursor page)
      (page_scan_limited page).
Proof.
  intros Hw.
  destruct (collect_spec g tip paths max limit Htip Hcomplete ltac:(done) Hmax ltac:(lia) (rounds g) todo [] todo
              cursor [] None) as (consumed & rest & entries & next & limited & Hc & Hs & He & Hcount & Hend).
  { split; [done|done|done|unfold count; cbn; lia|by left]. }
  { unfold rounds. rewrite Htip. apply after_cursor_suffix in Hw as (before & ->). rewrite length_app. lia. }
  assert (forall o, o ∈ consumed -> ancestor g tip o) as Hin.
  { intros o Ho. apply (suffix_ancestors g tip cursor todo Hw). rewrite Hs. apply elem_of_app. by left. }
  subst entries.
  destruct (finish_entries_shows (map last_oid (sessions (touching g paths consumed)))
              (sessions (touching g paths consumed))) as (shown & Hf & Hshown); [by apply sessions_in_history|].
  exists (mkPage (Some tip) shown next limited), consumed, rest. split; [|split; [done|split; [split|]]]; try done.
  - unfold list_history, check_card_id.
    assert (Nat.ltb (String.length card) 4 = false) as ->.
    { unfold card_rel_path in Hlive. by destruct (Nat.ltb _ 4). }
    cbn [rbind]. rewrite (proj2 (Z.eqb_neq limit 0)), (proj2 (Z.ltb_ge 200 limit)) by lia. cbn [orb].
    rewrite Hlive, Htrash. cbn [rbind]. fold paths. rewrite Hc. cbn [rbind]. rewrite Hf. cbn [rbind]. by rewrite Htip.
  - cbn. unfold count in *. by rewrite <- (Forall2_length _ _ _ Hshown).
Qed.

(** Where a page ends the next one starts. *)
Lemma next_page start consumed rest entries o limited cursor :
  after_cursor cursor (history_walk g tip) = Some start -> start = consumed ++ rest ->
  page_end g paths limit start consumed rest entries (Some o) limited ->
  after_cursor (Some o) (history_walk g tip) = Some rest /\ consumed <> [].
Proof.
  intros Hw -> He.
  assert (exists d, consumed = d ++ [o]) as [d ->] by (inversion He; by eexists).
  split; [|by destruct d]. apply after_cursor_suffix in Hw as (before & Hw).
  apply (suffix_after_nodup _ (before ++ d)); [apply history_walk_once|]. by rewrite Hw, <- !app_assoc.
Qed.

Lemma history_pages_from fuel : forall cursor todo,
  after_cursor cursor (history_walk g tip) = Some todo -> (length todo < fuel)%nat ->
  exists pages chunks,
    all_pages fuel cursor = Ok pages /\ todo = concat chunks /\
    Forall2 (page_shows paths tip) chunks pages /\
    (Forall (fun page => page_scan_limited page = false) pages ->
       concat (map (fun chunk => sessions (touching g paths chunk)) chunks) = sessions (touching g paths todo)).
Proof.
  induction fuel as [|fuel IH]; intros cursor todo Hw Hf; [lia|].
  destruct (list_page cursor todo Hw) as (page & consumed & rest & Hp & Hs & Hshow & Hend).
  cbn [all_pages]. rewrite Hp. cbn [rbind]. destruct (next_cursor page) as [o|] eqn:Hn.
  - destruct (next_page _ _ _ _ _ _ _ Hw Hs Hend) as [Hw' Hne].
    destruct (IH (Some o) rest Hw') as (pages & chunks & Ha & Hc & Hall & Hsess).
    { rewrite Hs, length_app in Hf. destruct consumed; [done|]. cbn in Hf. lia. }
    rewrite Ha. exists (page :: pages), (consumed :: chunks). cbn [rbind concat map].
    split; [done|]. split; [by rewrite <- Hc|]. split; [by constructor|].
    intros [Hlim Hlims]%list.Forall_cons. rewrite (Hsess Hlims).
    inversion Hend as [| |? d o' Hd Hfull Hsplit]; [congruence|by rewrite Hsplit].
  - exists [page], [consumed]. cbn [concat map]. rewrite !app_nil_r.
    inversion Hend as [? Hr| |]. rewrite Hs, Hr, app_nil_r.
    split; [done|]. split; [done|]. split; [|done]. constructor; [done|constructor].
Qed.

End Listing.

(** C14: Following the cursors from the newest commit on ends, and the pages show every commit
    that changed the card's live or trashed file exactly once, newest first, whatever the
    size of the pages and the bound on a scan. The commits of a page fall into sessions: of
    several saves of one author in a row, each at most ten minutes after the one before and
    all within half an hour, or of one commit; each entry describes one of them, and none
    goes on in the next. As long as no scan was cut short the sessions are those of the
    whole history, wherever the pages end; a scan that is cut short may cut a session. *)
Theorem card_history_complete {Y : Yaml} {V : Privacy} {G : GitLog} `{!GitLogLaws G} (max : Z) (g : Git)
    (project : Project) (card : string) (limit : Z) (tip : Oid) (live trash : string) :
  head_id g = Some tip ->
  (forall o, ancestor g tip o -> is_Some (commits g !! o)) ->
  card_rel_path card = Ok live -> card_trash_rel_path card = Ok trash ->
  (forall o, ancestor g tip o -> exists s, snapshot_at g project card (Some o) = Ok s) ->
  0 < max -> 1 <= limit <= 200 ->
  let walk := history_walk g tip in
  let changes := touching g [live; trash] in
  exists pages chunks,
    all_pages max g project card limit (S (length walk)) None = Ok pages /\
    walk = concat chunks /\
    Forall2 (page_shows g project card limit [live; trash] tip) chunks pages /\
    (forall chunk, exists groups, grouped groups (sessions (changes chunk)) /\ concat groups = changes chunk) /\
    (Forall (fun page => page_scan_limited page = false) pages ->
       concat (map (fun chunk => sessions (changes chunk)) chunks) = sessions (changes walk)).
Proof.
  intros Htip Hcomplete Hlive Htrash Hsnap Hmax Hlimit walk changes.
  destruct (history_pages_from max g project card limit tip live trash Htip Hcomplete Hlive Htrash Hsnap Hmax Hlimit
              (S (length walk)) None walk) as (pages & chunks & Hp & Hw & Hs & Hc); [done|lia|].
  exists pages, chunks. split; [done|]. split; [done|]. split; [done|]. split; [|done].
  intros chunk. apply sessions_grouped.
Qed.

(** *** A repository with three commits of a card *)

Definition by_digits (g : Git) (prefix : string) : PrefixLookup :=
  match list_filter (String.prefix (string_of (map tolower (bytes_of prefix)))) (map fst (map_to_list (commits g))) with
  | [] => ENotFound
  | [o] => Found o
  | _ => EAmbiguous
  end.
(** Ids that sort by age, an author, and a minute between commits. *)
Definition sample_log : GitLog := {|
  history_walk := fun g tip =>
    sort_by (fun a b => str_ltb b a) (remove_dups (@revwalk ReferenceGit.reference_git g tip None));
  object_lookup_prefix := by_digits;
  commit_author := fun o => Some (mkSignature (Some "Ann") (Some "ann@example.org") 7);
  commit_time := fun o => 60 * Z.of_nat (String.length o);
  commit_message := fun o => Some (if String.eqb o "c" then "Add card abcd" else "Update card abcd")
|}.

Lemma sample_log_laws : GitLogLaws sample_log.
Proof.
  split; cbn [history_walk object_lookup_prefix sample_log].
  - intros g tip o. rewrite sort_by_perm, elem_of_remove_dups.
    rewrite (@revwalk_spec ReferenceGit.reference_git ReferenceGit.reference_git_laws). naive_solver.
  - intros g tip. rewrite sort_by_perm. apply NoDup_remove_dups.
  - intros g reference o. unfold by_digits. destruct (list_filter _ _) as [|x [|y l]] eqn:Hl; [done| |done].
    intros [= ->]. assert (o ∈ [o]) as Ho by left. rewrite <- Hl in Ho.
    apply elem_of_list_filter in Ho as [Ho Hp]. split; [|done]. apply elem_of_map_id in Ho as ([o' c] & Ho & ->).
    apply elem_of_map_to_list in Ho. by eexists.
Qed.

Definition note_yaml : Yaml := {|
  yaml_load s := Some (YMap [("card_id", YScalar "abcd"); ("title", YScalar s)]);
  as_string n := match n with YScalar s => Some s | _ => None end;
  as_int64 _ := None;
  as_double _ := None;
  as_bool _ := None;
  yaml_emit _ := "doc"
|}.
Definition note (title body : string) : string :=
  kLfOpeningDelimiter +:+ title +:+ kLfClosingDelimiter +:+ body.
Definition note_tree (blob : Oid) : Tree := {["cards/ab/cd/abcd.md" := Disk.mkEntry 33188 blob]}.
Definition note_git : Git :=
  mkGit {["b1" := note "Plan" "one"; "b2" := note "Plan" "two"; "b3" := note "Plan" "three"]}
    {["c" := Disk.mkCommit [] (note_tree "b1"); "cc" := mkCommit ["c"] (note_tree "b2");
      "ccc" := mkCommit ["cc"] (note_tree "b3")]}
    {["refs/heads/main" := "ccc"]} (Branch "refs/heads/main") ∅.
Definition note_project : Project := mkProject "p" "Notes" "/p" None None "plain" None Uuid4 0 0.

Lemma note_ancestors o : ancestor note_git "ccc" o -> o = "ccc" \/ o = "cc" \/ o = "c".
Proof.
  intros H. inversion H as [|? c1 p1 ? Hc1 Hp1 H1]; subst; [by left|].
  injection Hc1 as <-. apply list_elem_of_singleton in Hp1 as ->.
  inversion H1 as [|? c2 p2 ? Hc2 Hp2 H2]; subst; [by right; left|].
  injection Hc2 as <-. apply list_elem_of_singleton in Hp2 as ->.
  inversion H2 as [|? c3 p3 ? Hc3 Hp3 H3]; subst; [by right; right|].
  injection Hc3 as <-. by apply not_elem_of_nil in Hp3.
Qed.

Lemma card_history_complete_witness :
  exists pages chunks,
    @all_pages note_yaml ProjectPrivacy.reference_privacy sample_log 10 note_git note_project "abcd" 1 4 None = Ok pages /\
    @history_walk sample_log note_git "ccc" = concat chunks.
Proof.
  assert (forall o, ancestor note_git "ccc" o -> is_Some (commits note_git !! o)) as Hc.
  { intros o Ho. destruct (note_ancestors o Ho) as [->|[->| ->]]; by eexists. }
  assert (forall o, ancestor note_git "ccc" o ->
    exists s, @snapshot_at note_yaml ProjectPrivacy.reference_privacy note_git note_project "abcd" (Some o) = Ok s) as Hs.
  { intros o Ho. destruct (note_ancestors o Ho) as [->|[->| ->]]; eexists; vm_compute; reflexivity. }
  destruct (@card_history_complete note_yaml ProjectPrivacy.reference_privacy sample_log sample_log_laws 10 note_git
              note_project "abcd" 1 "ccc" "cards/ab/cd/abcd.md" "trash/cards/ab/cd/abcd.md" eq_refl Hc eq_refl eq_refl
              Hs ltac:(done) ltac:(done)) as (pages & chunks & Hp & Hw & _).
  exists pages, chunks. split; [exact Hp|exact Hw].
Defined.

(** Two saves within a minute are one entry, and a page of one entry holds both. *)
Example two_saves_one_entry :
  @list_history note_yaml ProjectPrivacy.reference_privacy sample_log 10 note_git note_project "abcd" 1 None =
    Ok (mkPage (Some "ccc")
          [mkEntry "cc" "ccc" ["c"] [] "Ann" "ann@example.org" 120 180 "updated" "Edited “three”" 2 false
             [mkSave "cc" ["c"] 7 120 "Update card abcd"; mkSave "ccc" ["cc"] 7 180 "Update card abcd"]]
          (Some "cc") false).
Proof. vm_compute. reflexivity. Qed.

(** Saves whose author has no name are never joined: the entry has been given the name that
    is shown for them. *)
Example anonymous_saves_stay_apart newer older :
  hc_author_name newer = "" -> hc_author_name older = "" -> may_group (new_entry newer) older = false.
Proof.
  intros Hn Ho. apply not_true_iff_false. intros (_ & _ & H & _)%may_group_spec.
  cbn in H. by rewrite Hn, Ho in H.
Qed.

(** The first line of a body is cut after 69 bytes, even inside a character. *)
Example first_line_cut_inside_character :
  list.last (take 69 (bytes_of (first_meaningful_line (String.concat "" (repeat "é" 40))))) =
    Some (Ascii.ascii_of_N 195).
Proof. vm_compute. reflexivity. Qed.

(** A change is compared with the first parent of its commit. *)
Theorem change_is_compared_with_first_parent {Y : Yaml} {V : Privacy} {G : GitLog} `{!GitLogLaws G}
    (g : Git) (project : Project) (card reference : string) (o : Oid) (c : Commit) (before after : Snapshot) :
  (4 <= String.length card)%nat ->
  resolve g reference = Ok (resolved o) -> commits g !! o = Some c ->
  snapshot_at g project card (hd_error (commit_parents c)) = Ok before ->
  snapshot_at g project card (Some o) = Ok after ->
  exists comparison,
    compare_change g project card reference = Ok (mkChange (resolved o) (Some comparison)) /\
    ver_exists (cmp_to comparison) = snap_exists after /\ ver_oid (cmp_to comparison) = o /\
    (cmp_lines comparison, cmp_truncated comparison) =
      LineDiff.line_diff (bytes_of (comparison_text (version_from before (hd_error (commit_parents c)))))
        (bytes_of (comparison_text (version_from after (Some o)))).
Proof.
  intros Hl Hr Hc Hb Ha. unfold compare_change, check_card_id.
  rewrite (proj2 (Nat.ltb_ge _ _) Hl). cbn [rbind]. rewrite Hr. cbn [rbind resolved].
  unfold parents_of. rewrite Hc. cbn [rbind]. unfold compare_snapshots. rewrite Hb, Ha. cbn [rbind].
  destruct (LineDiff.line_diff _ _) as [lines truncated] eqn:Hd.
  eexists. split; [done|]. cbn [cmp_to cmp_lines cmp_truncated]. split; [by destruct after|].
  split; [by destruct after|done].
Qed.

End CardHistoryTheorems.
