(* ===== verification/GitMerge.v ===== *)
(** * Pulling from a remote

    The part of [src/src/git/GitRepo.cpp] that brings the commits of a remote into the
    working tree: a fast-forward pull, and the merge of a diverged branch file by file. *)

From stdpp Require Import base list sets strings numbers gmap pretty.
From S2P Require Import Prelude Text CardFrontMatter Disk GitHistory.
Import Disk GitHistory.

(** What libgit2 does over the network and to the working tree. A fetch gives the repository
    with the objects and tracking references of the remote; [checkout_tree] is
    [git_checkout_tree] with [GIT_CHECKOUT_SAFE | GIT_CHECKOUT_RECREATE_MISSING], from the
    index and the files there are to those there will be; [smudge] is what it makes of the
    content of a blob. [configured_default_branch] is the environment's or the
    configuration's, empty when there is none. *)
Class GitRemoteSide := {
  git_fetch : string -> Git -> result Git;
  remote_default_branch : string -> Git -> option string;
  configured_default_branch : string;
  descendant_of : Git -> Oid -> Oid -> bool;
  merge_base : Git -> Oid -> Oid -> option Oid;
  smudge : string -> string;
  checkout_tree : Git -> Index -> gmap string string -> Tree -> option (Index * gmap string string)
}.

Module GitMerge.

Inductive ChangeType := AddedOrModified | Deleted.
Record ChangedPath := mkChanged { cp_path : string; cp_type : ChangeType }.

(** A path in the way of another: the same, or one is a directory of the other. *)
Definition in_the_way (p q : string) : bool :=
  String.eqb p q || String.prefix (p +:+ "/") q || String.prefix (q +:+ "/") p.

(** The files of [base] are checked out and have not been changed since. *)
Record checked_out `{LibGit2} (i : Index) (base : Tree) (files : gmap string string) : Prop := {
  co_index : i = mkIndex base ∅;
  co_files : forall p e, base !! p = Some e -> exists c, files !! p = Some c /\ blob_id (clean c) = entry_id e
}.

(** What is relied on. A checkout from an unchanged tree puts the files of the target in
    place of those of the base, and leaves files that belong to neither alone. *)
Class GitRemoteLaws (L : LibGit2) (R : GitRemoteSide) : Prop := {
  fetch_extends : forall name g g', git_fetch name g = Ok g' ->
    blobs g ⊆ blobs g' /\ commits g ⊆ commits g' /\ head g' = head g /\
    (forall b, refs g' !! ("refs/heads/" +:+ b) = refs g !! ("refs/heads/" +:+ b));
  descendant_of_spec : forall g o a, descendant_of g o a = true <-> o <> a /\ ancestor g o a;
  merge_base_common : forall g a b m, merge_base g a b = Some m -> ancestor g a m /\ ancestor g b m;
  checkout_unchanged : forall g i files base target,
    checked_out i base files ->
    (forall p e, target !! p = Some e -> is_Some (blobs g !! entry_id e)) ->
    (forall p q, is_Some (target !! p) -> is_Some (files !! q) -> base !! q = None -> in_the_way p q = false) ->
    exists files',
      checkout_tree g i files target = Some (mkIndex target ∅, files') /\
      (forall p e, target !! p = Some e ->
         base !! p = Some e /\ files' !! p = files !! p \/
         exists b, blobs g !! entry_id e = Some b /\ files' !! p = Some (smudge b)) /\
      (forall p, target !! p = None ->
         files' !! p = match base !! p with Some _ => None | None => files !! p end)
}.

Section Git.
Context {L : LibGit2} {R : GitRemoteSide}.

Definition remote_ref (name branch : string) : string := "refs/remotes/" +:+ name +:+ "/" +:+ branch.
Definition kHeads : string := "refs/heads/".

Definition trim_ref_prefix (refname prefix : string) : string :=
  match CardFrontMatter.drop_prefix prefix refname with Some rest => rest | None => refname end.

Definition reference_exists (g : Git) (refname : string) : bool := bool_decide (is_Some (refs g !! refname)).

Definition remote_branch_target_oid_or_throw (g : Git) (name branch : string) : result Oid :=
  match refs g !! remote_ref name branch with
  | Some o => Ok o
  | None => Err (Runtime ("git_reference_lookup failed for " +:+ remote_ref name branch))
  end.

(** The remote's default branch, or the first of the usual names that it has. *)
Definition find_remote_branch (name : string) (g : Git) : result string :=
  let remote_branch := match remote_default_branch name g with
                       | Some r => trim_ref_prefix r kHeads
                       | None => ""
                       end in
  if negb (String.eqb remote_branch "") then Ok remote_branch
  else
    let configured := configured_default_branch in
    if negb (String.eqb configured "") && reference_exists g (remote_ref name configured) then Ok configured
    else if reference_exists g (remote_ref name "cards") then Ok "cards"
    else if reference_exists g (remote_ref name "main") then Ok "main"
    else if reference_exists g (remote_ref name "master") then Ok "master"
    else Err (Runtime ("Unable to determine remote default branch for " +:+ name)).

(** [git_checkout_tree] writes the files and the index. *)
Definition checkout_commit_oid (oid : Oid) : IO unit :=
  let* c := query (fun g => match commits g !! oid with
                            | Some c => Ok c | None => Err (Runtime "git_object_lookup failed") end) in
  let* i := repository_index in
  attempt "git_checkout_tree failed" (fun w =>
    match git (disk w) with
    | None => (Err (Runtime "GitRepo not opened"), w)
    | Some g =>
        match checkout_tree g i (work (disk w)) (commit_tree c) with
        | None => (Err (Runtime "git_checkout_tree failed"), w)
        | Some (i', files) =>
            (Ok tt, set_cached (Some i') (on_disk (fun d =>
               mkDisk files (Some (index_bytes i')) (journal_file d) (journal_tmp d) (git d) (elsewhere d)) w))
        end
    end).

(** The paths that differ between two commits' trees, in the order of the diff. *)
Definition changes_between (from to : Tree) : list ChangedPath :=
  map (fun p => mkChanged p (match to !! p with None => Deleted | Some _ => AddedOrModified end))
    (sort_by str_ltb (tree_delta from to)).
Definition diff_changed_paths (g : Git) (from_oid to_oid : Oid) : result (list ChangedPath) :=
  match commits g !! from_oid, commits g !! to_oid with
  | Some from, Some to => Ok (changes_between (commit_tree from) (commit_tree to))
  | None, _ => Err (Runtime "git_commit_lookup (diff from) failed")
  | _, None => Err (Runtime "git_commit_lookup (diff to) failed")
  end.

(** [git_repository_set_head] with the name of a branch. *)
Definition set_head (name : string) (g : Git) : Git :=
  mkGit (blobs g) (commits g) (refs g) (if String.eqb name "HEAD" then head g else Branch name) (remotes g).

(** [None] when HEAD is at or ahead of the remote afterwards; the two commits of a
    [NonFastForwardPullError] otherwise. *)
Definition pull_remote_ff_only (name : string) : IO (option (Oid * Oid)) :=
  query (fun g => match remotes g !! name with
                  | Some _ => Ok tt | None => Err (Runtime "git_remote_lookup failed") end) ;;;
  attempt "git_remote_fetch failed" (fun w =>
    match git (disk w) with
    | None => (Err (Runtime "GitRepo not opened"), w)
    | Some g => match git_fetch name g with
                | Err e => (Err e, w)
                | Ok g' => (Ok tt, on_disk (set_git g') w)
                end
    end) ;;;
  let* remote_branch := query (find_remote_branch name) in
  let* remote_oid := query (fun g => remote_branch_target_oid_or_throw g name remote_branch) in
  let* local := query (fun g => Ok (head_id g)) in
  match local with
  | None =>
      let local_ref := kHeads +:+ remote_branch in
      update_git "git_reference_create failed" (set_ref local_ref remote_oid) ;;;
      update_git "git_repository_set_head failed" (set_head local_ref) ;;;
      checkout_commit_oid remote_oid ;;;
      mret None
  | Some local_oid =>
      if String.eqb local_oid remote_oid then mret None
      else
        let* ff_ok := query (fun g => Ok (descendant_of g remote_oid local_oid)) in
        if negb ff_ok then
          let* ahead := query (fun g => Ok (descendant_of g local_oid remote_oid)) in
          if ahead : bool then mret None else mret (Some (local_oid, remote_oid))
        else
          checkout_commit_oid remote_oid ;;;
          update_git "git_reference_set_target failed" (fun g => set_ref (head_name g) remote_oid g) ;;;
          update_git "git_repository_set_head failed" (fun g => set_head (head_name g) g) ;;;
          mret None
  end.

(** The body of the loop over [local_only]. *)
Definition keep_local (local_oid_hex : Oid) (c : ChangedPath) : IO unit :=
  match cp_type c with
  | Deleted =>
      try_catch (fs_remove (Work (cp_path c))) (fun _ => mret tt) ;;;
      remove_path (cp_path c)
  | AddedOrModified =>
      let* content := read_blob_at local_oid_hex (cp_path c) in
      match content with
      | Some content => git_write_file (cp_path c) content ;;; stage_path (cp_path c)
      | None => mret tt
      end
  end.

Definition changed_in (paths : list ChangedPath) (c : ChangedPath) : bool :=
  existsb (fun r => String.eqb (cp_path r) (cp_path c)) paths.

Definition merge_message (name : string) (conflicted : list string) : string :=
  "Merge " +:+ name +:+ ": keep remote for " +:+ pretty (length conflicted) +:+ " conflicting card(s)".

(** The commit that ends the merge; libgit2 refuses one whose first parent is not HEAD. *)
Definition commit_merge (message : string) (local_oid remote_oid : Oid) : IO unit :=
  query (fun g => match commits g !! local_oid, commits g !! remote_oid with
                  | None, _ => Err (Runtime "git_commit_lookup (local parent) failed")
                  | _, None => Err (Runtime "git_commit_lookup (remote parent) failed")
                  | _, _ => Ok tt
                  end) ;;;
  let* i := repository_index in
  when (negb (bool_decide (conflicts i = ∅))) (throw (Runtime "git_index_write_tree failed")) ;;;
  index_store i ;;;
  let* tip := query (fun g => Ok (head_id g)) in
  when (negb (bool_decide (tip = Some local_oid))) (throw (Runtime "git_commit_create_v (merge) failed")) ;;;
  let c := mkCommit [local_oid; remote_oid] (entries i) in
  update_git "git_commit_create_v (merge) failed"
    (fun g => let o := commit_id g message c in set_ref (head_name g) o (add_commit o c g)).

(** The conflicted paths. *)
Definition merge_remote_taking_theirs_for_conflicts (name local_oid_hex remote_oid_hex : string)
    : IO (list string) :=
  let* base := query (fun g => match merge_base g local_oid_hex remote_oid_hex with
                               | Some b => Ok b | None => Err (Runtime "git_merge_base failed") end) in
  let* local_changes := query (fun g => diff_changed_paths g base local_oid_hex) in
  let* remote_changes := query (fun g => diff_changed_paths g base remote_oid_hex) in
  let conflicted := map cp_path (list_filter (changed_in remote_changes) local_changes) in
  let local_only := list_filter (fun c => negb (changed_in remote_changes c)) local_changes in
  checkout_commit_oid remote_oid_hex ;;;
  for_each local_only (keep_local local_oid_hex) ;;;
  commit_merge (merge_message name conflicted) local_oid_hex remote_oid_hex ;;;
  mret conflicted.

End Git.
End GitMerge.
