(* ===== verification/GitMergeFacts.v ===== *)
(** * A merge keeps what either side did

    When nothing fails, pulling fast-forwards or says that the branches have diverged, and a
    merge takes the remote's files with the changes that only the local branch has. *)

From stdpp Require Import base list sets strings numbers gmap.
From S2P Require Import Prelude Text CardFrontMatter Disk Runs GitHistory LocalProvider GitMerge GitRuns.
Import Disk DiskFacts Runs GitHistory GitMerge GitRuns.

Module GitMergeFacts.

(** ** The differences of two trees *)

Lemma tree_delta_spec from to p : p ∈ tree_delta from to <-> from !! p <> to !! p.
Proof.
  unfold tree_delta. rewrite elem_of_list_filter, negb_true_iff, bool_decide_eq_false.
  split; [by intros [_ H]|]. intros H. split; [|done]. apply elem_of_elements, elem_of_union.
  rewrite !elem_of_dom. destruct (from !! p), (to !! p); eauto. done.
Qed.
Lemma tree_delta_nodup from to : NoDup (tree_delta from to).
Proof. unfold tree_delta, list_filter. apply NoDup_ListNoDup, List.NoDup_filter, NoDup_ListNoDup, NoDup_elements. Qed.

Lemma changes_between_paths from to :
  map cp_path (changes_between from to) ≡ₚ tree_delta from to.
Proof.
  unfold changes_between. rewrite map_map. cbn [cp_path].
  rewrite map_id. apply sort_by_perm.
Qed.
Lemma changes_between_spec from to c :
  c ∈ changes_between from to ->
  from !! cp_path c <> to !! cp_path c /\
  cp_type c = match to !! cp_path c with None => Deleted | Some _ => AddedOrModified end.
Proof.
  unfold changes_between. rewrite elem_of_map_id. intros (p & Hp & ->). cbn.
  rewrite sort_by_perm, tree_delta_spec in Hp. done.
Qed.
Lemma changed_in_spec from to c :
  changed_in (changes_between from to) c = bool_decide (from !! cp_path c <> to !! cp_path c).
Proof.
  unfold changed_in. apply eq_true_iff_eq. rewrite bool_decide_eq_true, existsb_exists.
  rewrite <- tree_delta_spec, <- changes_between_paths, elem_of_map_id.
  setoid_rewrite String.eqb_eq. split.
  - intros (r & Hr & He). exists r. split; [by apply list_elem_of_In|done].
  - intros (r & Hr & He). exists r. split; [by apply list_elem_of_In|done].
Qed.

(** ** Calls that a merge makes *)

Lemma none_left (p : string) : (∅ : gset string) ∖ {[p]} = ∅.
Proof. set_solver. Qed.

Section Calls.
Context {L : LibGit2} `{!LibGit2Laws L} {R : GitRemoteSide} `{!GitRemoteLaws L R}.

(** The objects of the repository: ids name contents, and trees name blobs that are there. *)
Record objects_ok (g : Git) : Prop := {
  oo_ids : forall o c, blobs g !! o = Some c -> blob_id c = o;
  oo_trees : forall o c p e, commits g !! o = Some c -> commit_tree c !! p = Some e -> is_Some (blobs g !! entry_id e)
}.
(** No file that Git does not know is in the way of the tree. *)
Definition free_for (target base : Tree) (files : gmap string string) : Prop :=
  forall p q, is_Some (target !! p) -> is_Some (files !! q) -> base !! q = None -> in_the_way p q = false.

(** The files of the target in place of those of the base. *)
Definition replaced (g : Git) (base target : Tree) (files files' : gmap string string) : Prop :=
  (forall p e, target !! p = Some e ->
     base !! p = Some e /\ files' !! p = files !! p \/
     exists b, blobs g !! entry_id e = Some b /\ files' !! p = Some (smudge b)) /\
  (forall p, target !! p = None -> files' !! p = match base !! p with Some _ => None | None => files !! p end).

Lemma runs_checkout oid c g i base w :
  repo_at g i w -> objects_ok g -> commits g !! oid = Some c -> checked_out i base (work (disk w)) ->
  free_for (commit_tree c) base (work (disk w)) ->
  runs (checkout_commit_oid oid) w (fun _ w' =>
    repo_at g (mkIndex (commit_tree c) ∅) w' /\ replaced g base (commit_tree c) (work (disk w)) (work (disk w')) /\
    elsewhere (disk w') = elsewhere (disk w) /\ journal_file (disk w') = journal_file (disk w)).
Proof.
  intros Hr Ho Hc Hco Hfree. unfold checkout_commit_oid.
  eapply runs_bind; [apply (runs_query _ c g); [apply Hr|by rewrite Hc]|]. intros ? w1 [-> ->].
  assert (repo_at g i (advance w)) as Hr1 by (by apply (repo_at_disk g i w)).
  eapply runs_bind; [by apply runs_repository_index|]. intros ? w2 (-> & Hd & Hr2). cbn in Hd.
  apply runs_attempt. intros Hcalm. cbn [advance disk]. rewrite Hd. rewrite (ra_git _ _ _ Hr).
  destruct (checkout_unchanged g i (work (disk w)) base (commit_tree c)) as (files & -> & Hf1 & Hf2); [done| |done|].
  { intros p e. by apply (oo_trees g Ho oid). }
  eexists _, _. split; [reflexivity|]. split; [exact Hcalm|]. cbn. rewrite Hd. split.
  - split; cbn; [rewrite Hd; apply Hr|apply index_parse_bytes|by right].
  - done.
Qed.

Lemma runs_remove_path path g i w :
  repo_at g i w ->
  runs (remove_path path) w (fun _ w' => repo_at g (drop_entry path i) w' /\ same_files (disk w) (disk w')).
Proof.
  intros H. unfold remove_path. eapply runs_bind; [by apply runs_repository_index|]. intros ? w1 (-> & Hd & Hr).
  intros Hc. unfold index_store, bind, modify, attempt. cbn [set_cached outcomes tick]. rewrite Hc.
  eexists _, _. split; [reflexivity|]. split; [exact Hc|]. cbn. rewrite Hd. split; [|done].
  split; cbn; [apply Hr|apply index_parse_bytes|by right].
Qed.

Lemma replaced_checked_out g base target files files' :
  objects_ok g -> (forall o b, blobs g !! o = Some b -> clean b = b /\ clean (smudge b) = b) ->
  (forall p e, base !! p = Some e -> exists c, files !! p = Some c /\ blob_id (clean c) = entry_id e) ->
  replaced g base target files files' -> checked_out (mkIndex target ∅) target files'.
Proof.
  intros Ho Hfilters Hfiles [Ht _]. split; [done|]. intros p e He.
  destruct (Ht p e He) as [[Hl ->]|(b & Hb & ->)]; [by apply Hfiles|].
  exists (smudge b). split; [done|]. destruct (Hfilters _ _ Hb) as [_ ->]. by apply (oo_ids g Ho).
Qed.

(** ** The changes that only the local branch has *)

Context (g : Git) (local : Oid) (c : Commit).
Hypothesis Hobjects : objects_ok g.
Hypothesis Hlocal : commits g !! local = Some c.
(** Git's filters do not change the files of the branch. *)
Hypothesis Hfilters : forall p e b, commit_tree c !! p = Some e -> blobs g !! entry_id e = Some b -> clean b = b.

Definition local_content (p : string) : option string :=
  commit_tree c !! p ≫= fun e => blobs g !! entry_id e.

Lemma local_content_some p e : commit_tree c !! p = Some e ->
  exists b, local_content p = Some b /\ blobs g !! entry_id e = Some b /\ clean b = b /\ blob_id b = entry_id e.
Proof.
  intros He. destruct (oo_trees g Hobjects _ _ _ _ Hlocal He) as [b Hb]. exists b. unfold local_content.
  rewrite He. cbn. split; [done|]. split; [done|]. split; [by eapply Hfilters|by apply (oo_ids g Hobjects)].
Qed.

(** The index and the files with the local version of a path. *)
Definition with_local (p : string) (i : Index) : Index :=
  match local_content p with
  | Some b => put_entry p (entry_of p b) i
  | None => drop_entry p i
  end.

Lemma runs_keep_local x i w :
  repo_at g i w ->
  cp_type x = match commit_tree c !! cp_path x with None => Deleted | Some _ => AddedOrModified end ->
  runs (keep_local local x) w (fun _ w' => repo_at g (with_local (cp_path x) i) w' /\
    work (disk w') = partial_alter (fun _ => local_content (cp_path x)) (cp_path x) (work (disk w)) /\
    elsewhere (disk w') = elsewhere (disk w) /\ journal_file (disk w') = journal_file (disk w)).
Proof.
  intros Hr Ht. unfold keep_local. destruct (commit_tree c !! cp_path x) as [e|] eqn:He; rewrite Ht.
  - destruct (local_content_some _ _ He) as (b & Hb & Hblob & Hclean & Hid).
    eapply runs_bind; [apply (runs_query _ (Some b) g); [apply Hr|by rewrite Hlocal, He, Hblob]|].
    intros ? w1 [-> ->].
    assert (repo_at g i (advance w)) as Hr1 by (by apply (repo_at_disk g i w)).
    eapply runs_bind; [by apply runs_git_write_file|]. after w2 H2. destruct H2 as [Hr2 Hd2].
    eapply runs_weaken.
    { apply (runs_stage_path _ b g i); [done|]. rewrite Hd2. cbn. by rewrite lookup_partial_alter_eq. }
    intros u w3 [Hr3 (Hw & Hels & Hj)]. unfold with_local. rewrite Hb.
    assert (staged_git b g = g) as Hsame.
    { unfold staged_git, add_blob. rewrite Hclean, Hid, insert_id by done. by destruct g. }
    rewrite Hsame in Hr3. split; [exact Hr3|]. rewrite Hw, Hels, Hj, Hd2. done.
  - assert (local_content (cp_path x) = None) as Hn by (unfold local_content; by rewrite He).
    eapply (runs_bind _ _ _ (fun _ w' => disk w' = poke (Work (cp_path x)) None (disk w) /\ repo_at g i w')).
    { apply LocalProvider.LocalProviderFacts.runs_try. intros Hc. unfold fs_remove, attempt. rewrite Hc.
      eexists _, _. split; [reflexivity|]. split; [exact Hc|]. split; [done|]. destruct Hr. by split. }
    intros u w1 [Hd1 Hr1]. eapply runs_weaken; [by apply runs_remove_path|].
    intros v w2 [Hr2 (Hw & Hels & Hj)]. unfold with_local. rewrite Hn. split; [done|].
    rewrite Hw, Hels, Hj, Hd1. done.
Qed.

(** Index and files after the loop: the local version of the paths in [l]. *)
Definition with_locals (l : list ChangedPath) (i : Index) : Index :=
  foldl (fun i x => with_local (cp_path x) i) i l.
Definition files_with_locals (l : list ChangedPath) (files : gmap string string) : gmap string string :=
  foldl (fun files x => partial_alter (fun _ => local_content (cp_path x)) (cp_path x) files) files l.

Lemma runs_keep_locals l i w :
  repo_at g i w ->
  Forall (fun x => cp_type x = match commit_tree c !! cp_path x with None => Deleted | Some _ => AddedOrModified end) l ->
  runs (for_each l (keep_local local)) w (fun _ w' => repo_at g (with_locals l i) w' /\
    work (disk w') = files_with_locals l (work (disk w)) /\
    elsewhere (disk w') = elsewhere (disk w) /\ journal_file (disk w') = journal_file (disk w)).
Proof.
  intros Hr Hl. revert i w Hr. induction Hl as [|x l Hx _ IH]; intros i w Hr; cbn [for_each]; [by apply runs_mret|].
  eapply runs_bind; [by apply runs_keep_local|]. after w1 H1. destruct H1 as (Hr1 & Hw & Hels & Hj).
  eapply runs_weaken; [by apply IH|]. intros u w2 (Hr2 & Hw2 & Hels2 & Hj2).
  split; [exact Hr2|]. rewrite Hw2, Hels2, Hj2, Hw. done.
Qed.

Lemma with_locals_conflicts l i : conflicts i = ∅ -> conflicts (with_locals l i) = ∅.
Proof using Type.
  revert i. induction l as [|x l IH]; intros i Hi; [done|]. cbn. apply IH.
  unfold with_local, put_entry, drop_entry. destruct (local_content _); cbn; by rewrite Hi, none_left.
Qed.

Lemma with_local_lookup p q i :
  entries (with_local p i) !! q =
    if decide (p = q) then (fun b => entry_of p b) <$> local_content p else entries i !! q.
Proof using Type.
  unfold with_local. destruct (local_content p) as [b|] eqn:Hb; cbn; case_decide as Hp; subst.
  - by rewrite lookup_insert_eq.
  - by rewrite lookup_insert_ne.
  - by rewrite lookup_delete_eq.
  - by rewrite lookup_delete_ne.
Qed.

Lemma with_locals_lookup l i q :
  entries (with_locals l i) !! q =
    if decide (q ∈ map cp_path l) then (fun b => entry_of q b) <$> local_content q else entries i !! q.
Proof using Type.
  revert i. induction l as [|x l IH]; intros i; cbn [with_locals foldl map]; [by rewrite decide_False by apply not_elem_of_nil|].
  unfold with_locals in IH. rewrite IH, with_local_lookup. destruct (decide (q ∈ map cp_path l)) as [Hin|Hin].
  - rewrite decide_True; [done|]. by right.
  - destruct (decide (cp_path x = q)) as [<-|Hne]; [rewrite decide_True by left; done|].
    rewrite decide_False; [done|]. intros [->|]%elem_of_cons; done.
Qed.
Lemma files_with_locals_lookup l files q :
  files_with_locals l files !! q = if decide (q ∈ map cp_path l) then local_content q else files !! q.
Proof using Type.
  revert files. induction l as [|x l IH]; intros files; cbn [files_with_locals foldl map]; [by rewrite decide_False by apply not_elem_of_nil|].
  unfold files_with_locals in IH. rewrite IH. destruct (decide (q ∈ map cp_path l)) as [Hin|Hin].
  - rewrite decide_True; [done|]. by right.
  - destruct (decide (cp_path x = q)) as [<-|Hne].
    + rewrite decide_True by left. by rewrite lookup_partial_alter_eq.
    + rewrite lookup_partial_alter_ne by done. rewrite decide_False; [done|]. intros [->|]%elem_of_cons; done.
Qed.

(** The commit of the merge. *)
Definition merged_git (message : string) (remote : Oid) (i : Index) : Git :=
  let m := mkCommit [local; remote] (entries i) in
  set_ref (head_name g) (commit_id g message m) (add_commit (commit_id g message m) m g).

Lemma runs_commit_merge message remote rc i w :
  repo_at g i w -> conflicts i = ∅ -> head_id g = Some local -> commits g !! remote = Some rc ->
  runs (commit_merge message local remote) w (fun _ w' =>
    repo_at (merged_git message remote i) i w' /\ same_files (disk w) (disk w')).
Proof.
  intros Hr Hc Hh Hrem. unfold commit_merge.
  eapply runs_bind; [apply (runs_query _ tt g); [apply Hr|by rewrite Hlocal, Hrem]|]. intros ? w1 [-> ->].
  assert (repo_at g i (advance w)) as Hr1 by (by apply (repo_at_disk g i w)).
  eapply runs_bind; [by apply runs_repository_index|]. intros ? w2 (-> & Hd2 & Hr2). cbn in Hd2.
  rewrite bool_decide_eq_true_2 by done. cbn [negb when].
  eapply runs_bind; [by apply (runs_mret tt _ (fun _ w' => w' = w2))|]. intros _ ? ->.
  eapply (runs_bind _ _ _ (fun _ w' => git (disk w') = Some g /\ index_parse (index_file (disk w')) = Some i /\
    cached w' = cached w2 /\ same_files (disk w) (disk w'))).
  { apply runs_attempt. intros Hcalm. eexists _, _. split; [reflexivity|]. split; [exact Hcalm|]. cbn. rewrite Hd2.
    split; [apply Hr|]. split; [apply index_parse_bytes|done]. }
  after w3 H3. destruct H3 as (Hg & Hi & Hc3 & Hf).
  eapply runs_bind; [by apply (runs_query _ (Some local) g); [|by rewrite Hh]|]. intros ? ? [-> ->].
  rewrite bool_decide_eq_true_2 by done. cbn [negb when].
  eapply runs_bind; [by apply (runs_mret tt _ (fun _ w' => w' = advance w3))|]. intros _ ? -> Hcalm.
  unfold update_git, attempt. cbn [advance disk outcomes tick]. rewrite (Hcalm : forall n, outcomes w3 n = Works).
  rewrite Hg. eexists _, _. split; [reflexivity|]. split; [exact Hcalm|]. split; [|by destruct Hf].
  split; cbn; [done|done|]. rewrite Hc3. apply Hr2.
Qed.
End Calls.

(** ** Three trees *)

(** What the merge makes of a path: the local version where only the local branch changed
    it, else the remote's. *)
Definition merged_entry (base local remote : Tree) (p : string) : option Entry :=
  if decide (base !! p <> local !! p /\ base !! p = remote !! p) then local !! p else remote !! p.

Lemma local_only_paths base local remote p :
  p ∈ map cp_path (list_filter (fun c => negb (changed_in (changes_between base remote) c)) (changes_between base local)) <->
  base !! p <> local !! p /\ base !! p = remote !! p.
Proof.
  rewrite elem_of_map_id. split.
  - intros (c & (Hc & Hn)%elem_of_list_filter & ->). apply changes_between_spec in Hc as [Hc _].
    rewrite changed_in_spec in Hn. split; [done|]. apply negb_true_iff, bool_decide_eq_false in Hn.
    destruct (decide (base !! cp_path c = remote !! cp_path c)); [done|]. by destruct Hn.
  - intros [Hl Hr]. assert (p ∈ map cp_path (changes_between base local)) as Hp.
    { by rewrite changes_between_paths, tree_delta_spec. }
    apply elem_of_map_id in Hp as (c & Hc & ->). exists c. split; [|done]. apply elem_of_list_filter.
    split; [done|]. rewrite changed_in_spec. apply negb_true_iff, bool_decide_eq_false. by intros [].
Qed.
Lemma conflicted_paths base local remote p :
  p ∈ map cp_path (list_filter (changed_in (changes_between base remote)) (changes_between base local)) <->
  base !! p <> local !! p /\ base !! p <> remote !! p.
Proof.
  rewrite elem_of_map_id. split.
  - intros (c & (Hc & Hn)%elem_of_list_filter & ->). apply changes_between_spec in Hc as [Hc _].
    rewrite changed_in_spec in Hn. by apply bool_decide_eq_true in Hn.
  - intros [Hl Hr]. assert (p ∈ map cp_path (changes_between base local)) as Hp.
    { by rewrite changes_between_paths, tree_delta_spec. }
    apply elem_of_map_id in Hp as (c & Hc & ->). exists c. split; [|done]. apply elem_of_list_filter.
    split; [done|]. rewrite changed_in_spec. by apply bool_decide_eq_true.
Qed.

Section Merge.
Context {L : LibGit2} `{!LibGit2Laws L} {R : GitRemoteSide} `{!GitRemoteLaws L R}.
Context (g : Git) (local remote base : Oid) (lc rc bc : Commit).
Hypothesis Hobjects : objects_ok g.
Hypothesis Hlocal : commits g !! local = Some lc.
Hypothesis Hremote : commits g !! remote = Some rc.
Hypothesis Hbase : commits g !! base = Some bc.
Hypothesis Hmerge_base : merge_base g local remote = Some base.
(** Git's filters leave what is in the repository as it is. *)
Hypothesis Hfilters : forall o b, blobs g !! o = Some b -> clean b = b /\ clean (smudge b) = b.
Hypothesis Hhead : head_id g = Some local.

Let tl := commit_tree lc.
Let tr := commit_tree rc.
Let tb := commit_tree bc.
Let local_only := list_filter (fun c => negb (changed_in (changes_between tb tr) c)) (changes_between tb tl).
Let merged := with_locals g lc local_only (mkIndex tr ∅).

Lemma local_filters p e b : commit_tree lc !! p = Some e -> blobs g !! entry_id e = Some b -> clean b = b.
Proof. intros _ Hb. by apply (Hfilters (entry_id e)). Qed.

Lemma merged_lookup p : entry_id <$> entries merged !! p = entry_id <$> merged_entry tb tl tr p.
Proof.
  unfold merged, merged_entry. rewrite with_locals_lookup.
  destruct (decide (p ∈ map cp_path local_only)) as [Hin|Hin].
  - pose proof Hin as Hin'. unfold local_only in Hin'. apply local_only_paths in Hin'. rewrite decide_True by done.
    destruct (tl !! p) as [e|] eqn:He.
    + destruct (local_content_some g local lc Hobjects Hlocal local_filters p e He) as (b & -> & _ & Hc & Hid).
      cbn. by rewrite Hc, Hid.
    + unfold local_content. fold tl. by rewrite He.
  - rewrite decide_False; [done|]. intros H. apply Hin. unfold local_only. by apply local_only_paths.
Qed.

Lemma merged_index : merged = mkIndex (entries merged) ∅.
Proof.
  assert (conflicts merged = ∅) as Hc by (by apply with_locals_conflicts). destruct merged as [en co]. cbn in *. by rewrite Hc.
Qed.

(** The files after the merge are those of its tree, and the other files are as they were. *)
Lemma merged_files files files' :
  (forall p e, tl !! p = Some e -> exists c, files !! p = Some c /\ blob_id (clean c) = entry_id e) ->
  replaced g tl tr files files' ->
  checked_out merged (entries merged) (files_with_locals g lc local_only files') /\
  forall p, tl !! p = None -> tr !! p = None -> files_with_locals g lc local_only files' !! p = files !! p.
Proof.
  intros Hfiles Hrep. pose proof Hrep as [_ Hn]. split; [split; [apply merged_index|]|].
  - intros p e. rewrite files_with_locals_lookup. unfold merged. rewrite with_locals_lookup.
    destruct (decide (p ∈ map cp_path local_only)) as [Hin|Hin].
    + destruct (local_content g lc p) as [b|]; [|done]. cbn. intros [= <-]. by exists b.
    + cbn [entries]. apply (co_files _ _ _ (replaced_checked_out g tl tr files files' Hobjects Hfilters Hfiles Hrep)).
  - intros p Hl Hr. rewrite files_with_locals_lookup. rewrite decide_False.
    + rewrite (Hn p Hr). by rewrite Hl.
    + unfold local_only. rewrite local_only_paths, Hl, Hr. intros [H1 H2]. congruence.
Qed.

Lemma runs_merge name i w :
  repo_at g i w -> checked_out i tl (work (disk w)) -> free_for tr tl (work (disk w)) ->
  runs (merge_remote_taking_theirs_for_conflicts name local remote) w (fun conflicted w' =>
    (forall p, p ∈ conflicted <-> tb !! p <> tl !! p /\ tb !! p <> tr !! p) /\
    repo_at (merged_git g local (merge_message name conflicted) remote merged) merged w' /\
    checked_out merged (entries merged) (work (disk w')) /\
    (forall p, tl !! p = None -> tr !! p = None -> work (disk w') !! p = work (disk w) !! p) /\
    elsewhere (disk w') = elsewhere (disk w)).
Proof.
  intros Hr Hco Hfree. unfold merge_remote_taking_theirs_for_conflicts.
  eapply runs_bind; [apply (runs_query _ base g); [apply Hr|by rewrite Hmerge_base]|]. intros ? ? [-> ->].
  assert (forall w', disk w' = disk w -> cached w' = cached w -> repo_at g i w') as Hat by (intros; by apply (repo_at_disk g i w)).
  eapply runs_bind.
  { apply (runs_query _ (changes_between tb tl) g); [by apply Hat|]. unfold diff_changed_paths. by rewrite Hbase, Hlocal. }
  intros ? ? [-> ->]. eapply runs_bind.
  { apply (runs_query _ (changes_between tb tr) g); [by apply Hat|]. unfold diff_changed_paths. by rewrite Hbase, Hremote. }
  intros ? ? [-> ->]. cbn zeta. fold local_only.
  set (conflicted := map cp_path _).
  eapply runs_bind; [apply (runs_checkout remote rc g i tl); [by apply Hat|done..]|].
  after w1 H1. destruct H1 as (Hr1 & Hrep & Hels1 & Hj1). cbn [advance disk] in *.
  eapply runs_bind.
  { apply (runs_keep_locals g local lc Hobjects Hlocal local_filters); [exact Hr1|].
    apply list.Forall_forall. intros x [Hx _]%elem_of_list_filter. by apply changes_between_spec in Hx as [_ ->]. }
  after w2 H2. destruct H2 as (Hr2 & Hw2 & Hels2 & Hj2). fold tr in Hr2. fold merged in Hr2.
  eapply runs_bind.
  { apply (runs_commit_merge g local lc Hlocal _ remote rc); [exact Hr2|by apply with_locals_conflicts|done..]. }
  after w3 H3. destruct H3 as (Hr3 & (Hw3 & Hels3 & _)). apply runs_mret.
  destruct (merged_files (work (disk w)) (work (disk w1))) as [Hout Hrest]; [apply Hco|done|].
  split; [apply conflicted_paths|]. split; [exact Hr3|]. rewrite Hw3, Hw2. split; [done|]. split; [done|]. congruence.
Qed.
End Merge.

End GitMergeFacts.
