(* ===== verification/GitMergeTheorems.v ===== *)
(** * Pulling loses nothing of either side

    The pull and the merge that follows when the branches have diverged, as the sync runs
    them, in a repository whose files are checked out and where no call fails. *)

From stdpp Require Import base list sets strings numbers gmap.
From S2P Require Import Prelude Text CardFrontMatter Disk Runs GitHistory GitMerge GitRuns GitMergeFacts ReferenceGit.
Import Disk DiskFacts Runs GitHistory GitMerge GitRuns GitMergeFacts ReferenceGit.

Module GitMergeTheorems.

(** [run_project_sync] pulls, and merges the two commits that a refused pull names. *)
Definition pull_and_merge `{LibGit2, GitRemoteSide} (name : string) : IO (option (list string)) :=
  let* diverged := pull_remote_ff_only name in
  match diverged with
  | None => mret None
  | Some (local, remote) =>
      let* conflicted := merge_remote_taking_theirs_for_conflicts name local remote in
      mret (Some conflicted)
  end.

(** A repository that is ready to be pulled into: HEAD is a branch whose files are checked
    out, the fetch succeeds and finds a branch, and the objects are there. *)
Record pullable `{LibGit2, GitRemoteSide} (name : string) (g g1 : Git) (i : Index) (local remote : Oid)
    (lc rc : Commit) (w : World) : Prop := {
  pl_repo : repo_at g i w;
  pl_branch : exists b, head g = Branch (kHeads +:+ b);
  pl_local : head_id g = Some local;
  pl_known : is_Some (remotes g !! name);
  pl_fetch : git_fetch name g = Ok g1;
  pl_remote : exists branch, find_remote_branch name g1 = Ok branch /\ refs g1 !! remote_ref name branch = Some remote;
  pl_objects : objects_ok g1;
  pl_local_commit : commits g1 !! local = Some lc;
  pl_remote_commit : commits g1 !! remote = Some rc;
  pl_files : checked_out i (commit_tree lc) (work (disk w));
  pl_free : free_for (commit_tree rc) (commit_tree lc) (work (disk w))
}.

Section Pull.
Context {L : LibGit2} `{!LibGit2Laws L} {R : GitRemoteSide} `{!GitRemoteLaws L R}.
Context (name : string) (g g1 : Git) (i : Index) (local remote : Oid) (lc rc : Commit) (w : World).
Hypothesis Hp : pullable name g g1 i local remote lc rc w.

Lemma fetched_head : head g1 = head g /\ head_id g1 = Some local /\ exists b, head_name g1 = kHeads +:+ b /\ head g1 = Branch (kHeads +:+ b).
Proof.
  destruct (pl_branch _ _ _ _ _ _ _ _ _ Hp) as [b Hb]. destruct (fetch_extends _ _ _ (pl_fetch _ _ _ _ _ _ _ _ _ Hp)) as (_ & _ & Hh & Hr).
  split; [done|]. split.
  - pose proof (pl_local _ _ _ _ _ _ _ _ _ Hp) as Hl. unfold head_id in *. rewrite Hh, Hb in *. by rewrite Hr.
  - exists b. unfold head_name. by rewrite Hh, Hb.
Qed.

(** HEAD's branch at the remote's commit. *)
Definition forwarded (g' : Git) : Prop :=
  commits g' = commits g1 /\ blobs g' = blobs g1 /\ head g' = head g /\ head_id g' = Some remote.

Lemma forwarded_by_pull :
  let g2 := set_ref (head_name g1) remote g1 in forwarded (set_head (head_name g2) g2).
Proof.
  destruct fetched_head as (Hh & _ & b & Hn & Hb). cbn zeta. unfold set_ref. rewrite Hn.
  assert (String.eqb (kHeads +:+ b) "HEAD" = false) as Hne by reflexivity. rewrite Hne.
  unfold head_name. cbn [head]. rewrite Hb. unfold set_head. rewrite Hne. split; [done|]. split; [done|]. cbn [head].
  split; [by rewrite <- Hh, Hb|]. unfold head_id. cbn. by rewrite lookup_insert_eq.
Qed.

(** The three ways a pull ends. *)
Inductive pull_end (r : option (Oid * Oid)) (w' : World) : Prop :=
| pull_nothing :
    ancestor g1 local remote -> r = None -> repo_at g1 i w' -> work (disk w') = work (disk w) -> pull_end r w'
| pull_forward g2 :
    remote <> local -> ancestor g1 remote local -> r = None -> forwarded g2 ->
    repo_at g2 (mkIndex (commit_tree rc) ∅) w' ->
    replaced g1 (commit_tree lc) (commit_tree rc) (work (disk w)) (work (disk w')) -> pull_end r w'
| pull_diverged :
    ~ ancestor g1 local remote -> ~ ancestor g1 remote local -> r = Some (local, remote) ->
    repo_at g1 i w' -> work (disk w') = work (disk w) -> pull_end r w'.

Lemma runs_pull : runs (pull_remote_ff_only name) w (fun r w' => pull_end r w' /\ elsewhere (disk w') = elsewhere (disk w)).
Proof.
  pose proof Hp as [Hr _ Hl [url Hk] Hf (branch & Hb & Href) Ho Hlc Hrc Hfiles Hfree].
  destruct fetched_head as (Hh & Hid & b & Hn & Hbr). unfold pull_remote_ff_only.
  eapply runs_bind; [apply (runs_query _ tt g); [apply Hr|by rewrite Hk]|]. intros ? ? [-> ->].
  eapply (runs_bind _ _ _ (fun _ w' => repo_at g1 i w' /\ work (disk w') = work (disk w) /\ elsewhere (disk w') = elsewhere (disk w))).
  { apply runs_attempt. intros Hc. cbn [advance disk]. rewrite (ra_git _ _ _ Hr), Hf.
    eexists _, _. split; [reflexivity|]. split; [exact Hc|]. destruct Hr. by split. }
  after w1 H1. destruct H1 as (Hr1 & Hw1 & He1).
  eapply runs_bind; [by apply (runs_query _ branch g1); [apply Hr1|]|]. intros ? ? [-> ->].
  eapply runs_bind.
  { apply (runs_query _ remote g1); [apply Hr1|]. unfold remote_branch_target_oid_or_throw. by rewrite Href. }
  intros ? ? [-> ->]. eapply runs_bind; [by apply (runs_query _ (Some local) g1); [apply Hr1|rewrite Hid]|].
  intros ? ? [-> ->].
  assert (forall w', disk w' = disk w1 -> cached w' = cached w1 -> repo_at g1 i w') as Hat by (intros; by apply (repo_at_disk g1 i w1)).
  destruct (String.eqb_spec local remote) as [He|He].
  { apply runs_mret. split; [|done]. apply pull_nothing; [rewrite He; constructor|done|by apply Hat|done]. }
  eapply runs_bind; [by apply (runs_query _ (descendant_of g1 remote local) g1); [apply Hr1|]|]. intros ? ? [-> ->].
  destruct (descendant_of g1 remote local) eqn:Hd; cbn [negb].
  - apply descendant_of_spec in Hd as [Hne Hanc].
    eapply runs_bind.
    { apply (runs_checkout remote rc g1 i (commit_tree lc)); [by apply Hat|done|done|by cbn; rewrite Hw1|by cbn; rewrite Hw1]. }
    after w2 H2. destruct H2 as (Hr2 & Hrep & Hels2 & _). cbn [advance disk] in *.
    set (g2 := set_ref (head_name g1) remote g1).
    assert (forall f h w', repo_at h (mkIndex (commit_tree rc) ∅) w' -> forall what,
      runs (update_git what f) w' (fun _ w'' => repo_at (f h) (mkIndex (commit_tree rc) ∅) w'' /\
        work (disk w'') = work (disk w') /\ elsewhere (disk w'') = elsewhere (disk w'))) as Hupd.
    { intros f h w' [Hg Hi Hca] what. apply runs_attempt. intros Hc. cbn [advance disk]. rewrite Hg.
      eexists _, _. split; [reflexivity|]. split; [exact Hc|]. split; [by split|done]. }
    eapply runs_bind; [by apply Hupd|]. after w3 H3. destruct H3 as (Hr3 & Hw3 & Hels3).
    eapply runs_bind; [by apply Hupd|]. after w4 H4. destruct H4 as (Hr4 & Hw4 & Hels4).
    apply runs_mret. split; [|congruence].
    eapply pull_forward; [done|done|done|apply forwarded_by_pull|exact Hr4|]. by rewrite Hw4, Hw3, <- Hw1.
  - eapply runs_bind; [by apply (runs_query _ (descendant_of g1 local remote) g1); [apply Hr1|]|]. intros ? ? [-> ->].
    destruct (descendant_of g1 local remote) eqn:Ha.
    + apply descendant_of_spec in Ha as [_ Ha]. apply runs_mret. split; [|done].
      apply pull_nothing; [done|done|by apply Hat|done].
    + apply runs_mret. split; [|done]. apply pull_diverged; [| |done|by apply Hat|done].
      * intros H. by rewrite (proj2 (descendant_of_spec g1 local remote) (conj He H)) in Ha.
      * intros H. by rewrite (proj2 (descendant_of_spec g1 remote local) (conj (not_eq_sym He) H)) in Hd.
Qed.
End Pull.

Lemma ancestor_commits (g h : Git) o a : (forall p c, commits g !! p = Some c -> commits h !! p = Some c) -> ancestor g o a -> ancestor h o a.
Proof. intros Hc. induction 1; [constructor|econstructor; eauto]. Qed.

(** The files of a commit can be read in the repository, as the objects that were there. *)
Definition readable_at (objects : Git) (oid : Oid) (c : Commit) (w : World) : Prop :=
  forall p e, commit_tree c !! p = Some e -> exists b, blobs objects !! entry_id e = Some b /\
    runs (read_blob_at oid p) w (fun content _ => content = Some b).

Lemma still_readable {L : LibGit2} g1 g2 i oid c w :
  objects_ok g1 -> commits g1 !! oid = Some c -> repo_at g2 i w ->
  commits g1 ⊆ commits g2 -> blobs g1 ⊆ blobs g2 -> readable_at g1 oid c w.
Proof.
  intros Ho Hc Hr Hcs Hbs p e He. destruct (oo_trees g1 Ho oid c p e Hc He) as [b Hb]. exists b. split; [done|].
  unfold read_blob_at. eapply runs_weaken; [eapply (runs_query _ (Some b) g2); [apply Hr|]|by intros a w' [-> _]].
  by rewrite (lookup_weaken _ _ _ _ Hc Hcs), He, (lookup_weaken _ _ _ _ Hb Hbs).
Qed.

(** C7: Without faults, pulling from a remote whose history is related loses nothing of either
    side. No object of the repository goes: every file of the local commit, which is what
    the working tree held, and every file of the remote one can be read at that commit
    afterwards. The tip that HEAD has then descends from both commits, its tree is checked
    out, and files that Git does not know are untouched. When neither side is ahead the
    merge commit takes each path from the only side that changed it, and from the remote
    where both did; exactly these paths are reported. An interrupted merge can lose what the
    working tree held ([interrupted_merge_drops_local_files]). *)
Theorem pull_loses_nothing {L : LibGit2} `{!LibGit2Laws L} {R : GitRemoteSide} `{!GitRemoteLaws L R}
    (name : string) (g g1 : Git) (i : Index) (local remote base : Oid) (lc rc bc : Commit) (w : World) :
  pullable name g g1 i local remote lc rc w ->
  (forall o b, blobs g1 !! o = Some b -> clean b = b /\ clean (smudge b) = b) ->
  merge_base g1 local remote = Some base -> commits g1 !! base = Some bc ->
  runs (pull_and_merge name) w (fun r w' =>
    (forall p, commit_tree lc !! p = None -> commit_tree rc !! p = None -> work (disk w') !! p = work (disk w) !! p) /\
    elsewhere (disk w') = elsewhere (disk w) /\
    exists g2 tip c,
      repo_at g2 (mkIndex (commit_tree c) ∅) w' /\ head_id g2 = Some tip /\ commits g2 !! tip = Some c /\
      checked_out (mkIndex (commit_tree c) ∅) (commit_tree c) (work (disk w')) /\
      ancestor g2 tip local /\ ancestor g2 tip remote /\
      commits g ⊆ commits g2 /\ blobs g ⊆ blobs g2 /\
      readable_at g1 local lc w' /\ readable_at g1 remote rc w' /\
      (forall p e, commit_tree lc !! p = Some e ->
         exists content, work (disk w) !! p = Some content /\ blob_id (clean content) = entry_id e) /\
      match r with
      | None => tip = local \/ tip = remote
      | Some conflicted =>
          commit_parents c = [local; remote] /\
          (forall p, p ∈ conflicted <-> commit_tree bc !! p <> commit_tree lc !! p /\ commit_tree bc !! p <> commit_tree rc !! p) /\
          (forall p, entry_id <$> commit_tree c !! p =
             entry_id <$> merged_entry (commit_tree bc) (commit_tree lc) (commit_tree rc) p)
      end).
Proof.
  intros Hp Hfilters Hmb Hbase. pose proof Hp as [Hr _ _ _ _ _ Ho Hlc Hrc Hfiles Hfree].
  destruct (fetched_head name g g1 i local remote lc rc w Hp) as (_ & Hid & b & Hn & Hbr).
  pose proof (co_index _ _ _ Hfiles) as Hi. pose proof (co_files _ _ _ Hfiles) as Hheld.
  destruct (fetch_extends _ _ _ (pl_fetch _ _ _ _ _ _ _ _ _ Hp)) as (Hfb & Hfc & _).
  assert (forall g2 i2 w2, repo_at g2 i2 w2 -> commits g1 ⊆ commits g2 -> blobs g1 = blobs g2 ->
    commits g ⊆ commits g2 /\ blobs g ⊆ blobs g2 /\ readable_at g1 local lc w2 /\ readable_at g1 remote rc w2)
    as Hkept.
  { intros g2 i2 w2 Hr2 Hcs Hbs. split; [by transitivity (commits g1)|]. split; [by rewrite <- Hbs|].
    split; (eapply still_readable; [done|done|exact Hr2|done|by rewrite Hbs]). }
  unfold pull_and_merge.
  eapply runs_bind; [by apply (runs_pull name g g1 i local remote lc rc w)|].
  intros r w1 [[Ha -> Hr1 Hw1|g2 Hne Ha -> (Hc2 & Hb2 & Hh2 & Hid2) Hr2 Hrep|Hn1 Hn2 -> Hr1 Hw1] Hels].
  - apply runs_mret. rewrite Hw1. split; [done|]. split; [done|]. exists g1, local, lc.
    split; [by rewrite <- Hi|]. split; [done|]. split; [done|]. split; [by rewrite <- Hi|].
    split; [constructor|]. split; [done|].
    destruct (Hkept g1 i w1 Hr1) as (K1 & K2 & K3 & K4); [done|done|].
    do 5 (split; [done|]). by left.
  - apply runs_mret. split; [|split; [done|]].
    { intros p Hl Hrn. destruct Hrep as [_ Hrest]. by rewrite (Hrest p Hrn), Hl. }
    exists g2, remote, rc. split; [done|]. split; [done|]. split; [by rewrite Hc2|].
    split; [by apply (replaced_checked_out g1 (commit_tree lc) (commit_tree rc) (work (disk w)) _ Ho Hfilters (co_files _ _ _ Hfiles))|].
    split; [apply (ancestor_commits g1); [by rewrite Hc2|done]|]. split; [constructor|].
    destruct (Hkept g2 _ w1 Hr2) as (K1 & K2 & K3 & K4); [by rewrite Hc2|done|].
    do 5 (split; [done|]). by right.
  - eapply runs_bind.
    { apply (runs_merge g1 local remote base lc rc bc Ho Hlc Hrc Hbase Hmb Hfilters Hid name i w1 Hr1); by rewrite Hw1. }
    intros conflicted w2 (Hconf & Hr2 & Hco & Hrest & Hels2). apply runs_mret.
    set (m := with_locals _ _ _ _) in *.
    split; [intros p Hl Hrn; rewrite (Hrest p Hl Hrn); by rewrite Hw1|]. split; [congruence|].
    set (c := mkCommit [local; remote] (entries m)).
    exists (merged_git g1 local (merge_message name conflicted) remote m), (commit_id g1 (merge_message name conflicted) c), c.
    assert (String.eqb (kHeads +:+ b) "HEAD" = false) as Hne by reflexivity.
    assert (mkIndex (commit_tree c) ∅ = m) as Hm.
    { cbn. symmetry. by apply (merged_index g1 lc rc bc). }
    assert (commits (merged_git g1 local (merge_message name conflicted) remote m) !!
              commit_id g1 (merge_message name conflicted) c = Some c) as Hcm.
    { unfold merged_git, set_ref. rewrite Hn, Hne. cbn. by rewrite lookup_insert_eq. }
    rewrite Hm. split; [exact Hr2|]. split.
    { unfold merged_git, set_ref. rewrite Hn, Hne. unfold head_id. cbn. rewrite Hbr. by rewrite lookup_insert_eq. }
    split; [exact Hcm|]. split; [exact Hco|].
    split; [apply (ancestor_step _ _ c local); [done|left|constructor]|].
    split; [apply (ancestor_step _ _ c remote); [done|right; left|constructor]|].
    destruct (Hkept _ _ w2 Hr2) as (K1 & K2 & K3 & K4).
    { unfold merged_git, set_ref. rewrite Hn, Hne. apply map_subseteq_spec. intros o x Hx. cbn.
      destruct (decide (commit_id g1 (merge_message name conflicted) c = o)) as [<-|]; [|by rewrite lookup_insert_ne].
      rewrite lookup_insert_eq. f_equal. symmetry. by eapply commit_id_stable. }
    { unfold merged_git, set_ref. by rewrite Hn, Hne. }
    do 5 (split; [done|]).
    split; [done|]. split; [done|]. intros p. cbn [commit_tree c].
    by apply (merged_lookup g1 local lc rc bc).
Qed.

(** ** A remote that can be computed with *)

Section Desk.
(** What the remote has: its objects, and the commit of its branch. *)
Context (new_blobs : gmap Oid string) (new_commits : gmap Oid Commit) (tip : Oid).

Definition desk_checkout (g : Git) (i : Index) (files : gmap string string) (target : Tree)
    : option (Index * gmap string string) :=
  Some (mkIndex target ∅,
        omap (fun e => blobs g !! entry_id e) target ∪
        filter (fun kv => entries i !! kv.1 = None) files).

Definition desk_remote : GitRemoteSide := {|
  git_fetch := fun name g =>
    Ok (mkGit (blobs g ∪ new_blobs) (commits g ∪ new_commits) (<[remote_ref name "main" := tip]> (refs g)) (head g) (remotes g));
  remote_default_branch := fun _ _ => Some "refs/heads/main";
  configured_default_branch := "";
  descendant_of := fun g o a => negb (String.eqb o a) && reach (size (commits g)) g o a;
  merge_base := fun g a b =>
    hd_error (list_filter (fun o => reach (size (commits g)) g a o && reach (size (commits g)) g b o) (a :: mentioned g));
  smudge := fun s => s;
  checkout_tree := desk_checkout
|}.

Lemma desk_remote_laws : GitRemoteLaws reference_git desk_remote.
Proof.
  split; cbn [git_fetch descendant_of merge_base checkout_tree smudge desk_remote].
  - intros name g g' [= <-]. cbn. split; [apply map_union_subseteq_l|]. split; [apply map_union_subseteq_l|].
    split; [done|]. intros b. by rewrite lookup_insert_ne.
  - intros g o a. rewrite andb_true_iff, negb_true_iff, String.eqb_neq, reach_spec by done. done.
  - intros g a b m Hm. assert (m ∈ list_filter (fun o => reach (size (commits g)) g a o && reach (size (commits g)) g b o) (a :: mentioned g)) as Hin.
    { destruct (list_filter _ _); [done|]. injection Hm as ->. left. }
    apply elem_of_list_filter in Hin as [_ Hin]. apply andb_true_iff in Hin as [H1 H2].
    by apply reach_spec in H1, H2.
  - intros g i files base target [-> Hf] Hb _. eexists. split; [reflexivity|]. split.
    + intros p e He. right. destruct (Hb p e He) as [b Hbl]. exists b. split; [done|].
      apply lookup_union_Some_l. by rewrite lookup_omap, He.
    + intros p Hp. rewrite lookup_union_r by (by rewrite lookup_omap, Hp).
      cbn [entries]. destruct (base !! p) as [e|] eqn:He.
      * apply map_lookup_filter_None_2. right. intros x _. cbn. by rewrite He.
      * destruct (files !! p) as [x|] eqn:Hx.
        -- apply map_lookup_filter_Some_2; [done|]. by cbn.
        -- apply map_lookup_filter_None_2. by left.
Qed.
End Desk.

(** One file changed on both sides, one added here, one removed there. *)
Definition file (content : string) : Entry := mkEntry 33188 content.
Definition base_commit : Commit := mkCommit [] {["a" := file "1"; "b" := file "1"]}.
Definition our_commit : Commit := mkCommit ["c"] {["a" := file "2"; "b" := file "1"; "n" := file "new"]}.
Definition their_commit : Commit := mkCommit ["c"] {["a" := file "3"]}.
Definition our_blobs : gmap Oid string := {["1" := "1"; "2" := "2"; "new" := "new"]}.
Definition our_git : Git :=
  mkGit our_blobs {["c" := base_commit; "cl" := our_commit]} {["refs/heads/main" := "cl"]}
    (Branch "refs/heads/main") {["origin" := "url"]}.
Definition our_index : Index := mkIndex (commit_tree our_commit) ∅.
Definition our_remote : GitRemoteSide := desk_remote {["3" := "3"]} {["cr" := their_commit]} "cr".
Definition our_world (outcomes : nat -> Outcome) : World :=
  mkWorld (mkDisk {["a" := "2"; "b" := "1"; "n" := "new"; "notes.tmp" := "mine"]}
             (Some (@index_bytes reference_git our_index)) None None (Some our_git) ∅) None outcomes 0.
Definition fetched_git : Git :=
  mkGit (our_blobs ∪ {["3" := "3"]}) (commits our_git ∪ {["cr" := their_commit]})
    (<[remote_ref "origin" "main" := "cr"]> (refs our_git)) (head our_git) (remotes our_git).

Lemma our_objects : @objects_ok reference_git fetched_git.
Proof.
  assert (map_Forall (fun o c => c = o) (blobs fetched_git)) as Hids.
  { apply (bool_decide_unpack _). vm_compute. exact I. }
  assert (map_Forall (fun o c => map_Forall (fun p e => is_Some (blobs fetched_git !! entry_id e)) (commit_tree c))
            (commits fetched_git)) as Htrees.
  { apply (bool_decide_unpack _). vm_compute. exact I. }
  split; [exact Hids|]. intros o c p e Hc. exact (Htrees o c Hc p e).
Qed.

Lemma our_pullable : @pullable reference_git our_remote "origin" our_git fetched_git our_index "cl" "cr" our_commit their_commit
    (our_world (fun _ => Works)).
Proof.
  split.
  - split; [done|apply index_parse_bytes|by left].
  - by exists "main".
  - done.
  - by eexists.
  - done.
  - exists "main". by split.
  - apply our_objects.
  - done.
  - done.
  - split; [done|]. intros p e He.
    assert (map_Forall (fun p e => work (disk (our_world (fun _ => Works))) !! p = Some (entry_id e))
              (commit_tree our_commit)) as Hf by (apply (bool_decide_unpack _); vm_compute; exact I).
    exists (entry_id e). split; [by apply Hf|done].
  - intros p q [e He] [x Hx] Hb.
    assert (map_Forall (fun p _ => map_Forall (fun q _ => commit_tree our_commit !! q <> None \/ in_the_way p q = false)
                (work (disk (our_world (fun _ => Works))))) (commit_tree their_commit)) as Hf
      by (apply (bool_decide_unpack _); vm_compute; exact I).
    by destruct (Hf p e He q x Hx).
Qed.

Lemma pull_loses_nothing_witness :
  @runs (option (list string)) (@pull_and_merge reference_git our_remote "origin") (our_world (fun _ => Works)) (fun r w' =>
    work (disk w') !! "notes.tmp" = Some "mine" /\
    runs (read_blob_at "cl" "a") w' (fun content _ => content = Some "2")).
Proof.
  eapply runs_weaken.
  { apply (@pull_loses_nothing reference_git _ our_remote (desk_remote_laws _ _ _) "origin" our_git fetched_git our_index
             "cl" "cr" "c" our_commit their_commit base_commit (our_world (fun _ => Works)) our_pullable); [|reflexivity..].
    intros o b _. by split. }
  intros r w' (H & _ & _ & _ & _ & _ & _ & _ & _ & _ & _ & _ & _ & Hlocal & _). rewrite H by done. split; [done|].
  destruct (Hlocal "a" (file "2") eq_refl) as (b & [= <-] & Hb). exact Hb.
Defined.

(** The local file, the remote's version of what both changed, and what the remote removed. *)
Example merged_by_computation :
  match @pull_and_merge reference_git our_remote "origin" (our_world (fun _ => Works)) with
  | (Ok (Some conflicted), w') =>
      conflicted = ["a"] /\ work (disk w') = {["a" := "3"; "n" := "new"; "notes.tmp" := "mine"]}
  | _ => False
  end.
Proof. vm_compute. by split. Qed.

(** A merge that is interrupted after its checkout leaves HEAD at the local commit and the
    remote's tree in the index; nothing undoes it, and the next commit, whatever it is for,
    removes what only the local branch had. *)
Definition interrupted (n : nat) : Outcome := if Nat.ltb n 14 then Works else Throws None.
Example interrupted_merge_drops_local_files :
  let (r, w) := @pull_and_merge reference_git our_remote "origin" (our_world interrupted) in
  r = Err (Runtime "git") /\
  match @commit reference_git "Update card" (mkWorld (disk w) (cached w) (fun _ => Works) 0) with
  | (Ok _, w') =>
      (o ← git (disk w') ≫= head_id; c ← (git (disk w') ≫= fun g => commits g !! o);
       Some (commit_parents c, commit_tree c !! "n")) = Some (["cl"], None)
  | _ => False
  end.
Proof. vm_compute. by split. Qed.

End GitMergeTheorems.
