(* ===== verification/ProjectManifest.v ===== *)
(** * The manifest of a project

    [src/src/project/ProjectManifest.cpp]: what makes a directory a project again when the
    database is lost. [.holder/privacy.json] says in the clear which project it is and how it
    is encrypted; [.holder/project.json] holds the rest, encrypted if the project is. *)

From stdpp Require Import base list sets strings numbers gmap.
From S2P Require Import Prelude Double Model Text CardFrontMatter Json ReferenceJson Disk Runs Privacy RebuildResources.
From S2P Require Import RebuildReads GitRuns ReferenceGit.
Import Disk DiskFacts Runs CardFrontMatter Json RebuildReads GitRuns ProjectPrivacy.

Module ProjectManifest.

Definition kProjectBootstrapPath : string := ".holder/privacy.json".
Definition kProjectManifestPath : string := ".holder/project.json".

Definition is_string (v : Json) : bool := match v with JString _ => true | _ => false end.
Definition is_number_integer (v : Json) : bool := match v with JInt _ => true | _ => false end.

(** The member if it is there and a string. *)
Definition string_member (key : string) (v : Json) : option string :=
  match v with
  | JObject l => match find_member key l with Some (JString s) => Some s | _ => None end
  | _ => None
  end.
Definition opt_member (key : string) (o : option string) : list (string * Json) :=
  match o with Some s => [(key, JString s)] | None => [] end.

(** [project_key_id.has_value() && !project_key_id->empty()] *)
Definition key_of (project : Project) : option string :=
  match project_key_id project with
  | Some key => if String.eqb key "" then None else Some key
  | None => None
  end.

Section Manifest.
Context {N : JsonLib}.

Definition read_file (path : string) : IO string :=
  attempt "failed to open project metadata" (fun w =>
    match work (disk w) !! path with
    | Some text => (Ok text, w)
    | None => (Err (Runtime ("failed to open project metadata: " +:+ path)), w)
    end).

Definition required_nonempty_string (body : Json) (field path : string) : result string :=
  match string_member field body with
  | None => Err (Runtime ("project metadata field '" +:+ field +:+ "' is missing: " +:+ path))
  | Some value =>
      if String.eqb value ""
      then Err (Runtime ("project metadata field '" +:+ field +:+ "' is empty: " +:+ path))
      else Ok value
  end.

Definition require_version_one (body : Json) (path : string) : result unit :=
  let unsupported := Err (Runtime ("unsupported project metadata version: " +:+ path)) in
  match at_key "version" body with
  | Ok v =>
      if negb (is_number_integer v) then unsupported
      else let? version := get_int v in if Z.eqb version 1 then Ok tt else unsupported
  | Err _ => unsupported
  end.

Definition render_project_bootstrap (project : Project) : result string :=
  if String.eqb (project_id project) "" then Err (InvalidArgument "project_id must not be empty")
  else if negb (String.eqb (privacy_mode project) "plain") && negb (encrypted project)
  then Err (InvalidArgument ("unsupported project privacy mode: " +:+ privacy_mode project))
  else if encrypted project && bool_decide (key_of project = None)
  then Err (InvalidArgument "encrypted project must have project_key_id")
  else
    let? text := json_dump (Some 2%nat)
      (object ([("version", JInt 1); ("project_id", JString (project_id project));
                ("mode", JString (privacy_mode project))] ++ opt_member "key_id" (key_of project))) in
    Ok (text +:+ lf).

Definition manifest_json (project : Project) : Json :=
  object ([("version", JInt 1); ("project_id", JString (project_id project));
           ("name", JString (project_name project));
           ("id_scheme", JString (id_scheme_to_string (id_scheme project)));
           ("created_at", JInt (project_created_at project));
           ("updated_at", JInt (project_updated_at project))] ++
          opt_member "git_provider" (git_provider project) ++
          opt_member "git_remote_url" (git_remote_url project)).

Section Files.
Context {L : LibGit2} {V : Privacy}.

Definition render_project_manifest (project : Project) : IO string :=
  when (String.eqb (project_id project) "" || String.eqb (project_name project) "")
    (throw (InvalidArgument "project manifest requires project_id and name")) ;;;
  let* text := lift (json_dump (Some 2%nat) (manifest_json project)) in
  let plain := text +:+ lf in
  if negb (encrypted project) then mret plain
  else match key_of project with
       | None => throw (InvalidArgument "encrypted project must have project_key_id")
       | Some key =>
           attempt "privacy_crypto_failed" (fun w =>
             (encrypt_project_blob (tick w) (project_id project) key plain, w))
       end.

Definition write_project_manifest (project : Project) : IO unit :=
  open_or_init ;;;
  let* bootstrap := lift (render_project_bootstrap project) in
  git_write_file kProjectBootstrapPath bootstrap ;;;
  let* manifest := render_project_manifest project in
  git_write_file kProjectManifestPath manifest ;;;
  stage_path kProjectBootstrapPath ;;;
  stage_path kProjectManifestPath.

(** [read_project_manifest], from the parsed bootstrap on. *)
Definition read_bootstrap (root : string) (bootstrap : Json) : result Project :=
  let? _ := require_version_one bootstrap kProjectBootstrapPath in
  let? id := required_nonempty_string bootstrap "project_id" kProjectBootstrapPath in
  let? mode := required_nonempty_string bootstrap "mode" kProjectBootstrapPath in
  if negb (String.eqb mode "plain") && negb (String.eqb mode "encrypted_git")
  then Err (Runtime ("unsupported project privacy mode '" +:+ mode +:+ "': " +:+ kProjectBootstrapPath))
  else
    let key := match string_member "key_id" bootstrap with
               | Some key => if String.eqb key "" then None else Some key
               | None => None
               end in
    if String.eqb mode "encrypted_git" && bool_decide (key = None)
    then Err (PrivacyError KeyMaterialMissing ("encrypted project bootstrap has no key_id: " +:+ kProjectBootstrapPath))
    else Ok (mkProject id "" root None None mode key Uuid4 0 0).

(** The scheme of a manifest that names one. *)
Definition read_id_scheme (manifest : Json) (default_scheme : IdScheme) : result IdScheme :=
  match at_key "id_scheme" manifest with
  | Err _ => Ok default_scheme
  | Ok v =>
      if negb (is_string v)
      then Err (Runtime ("project metadata field 'id_scheme' is not a string: " +:+ kProjectManifestPath))
      else
        let? text := get_string v in
        match id_scheme_from_string text with
        | Some scheme => Ok scheme
        | None => Err (Runtime ("unsupported project id scheme '" +:+ text +:+ "': " +:+ kProjectManifestPath))
        end
  end.

Definition read_manifest_body (project : Project) (manifest : Json) : result Project :=
  let? _ := require_version_one manifest kProjectManifestPath in
  let? id := required_nonempty_string manifest "project_id" kProjectManifestPath in
  if negb (String.eqb id (project_id project))
  then Err (Runtime ("project manifest id does not match bootstrap: " +:+ kProjectManifestPath))
  else
    let? name := required_nonempty_string manifest "name" kProjectManifestPath in
    let? scheme := read_id_scheme manifest (id_scheme project) in
    let? created := rbind (at_key "created_at" manifest) get_int64 in
    let? updated := rbind (at_key "updated_at" manifest) get_int64 in
    Ok (mkProject (project_id project) name (root_path project) (string_member "git_remote_url" manifest)
          (string_member "git_provider" manifest) (privacy_mode project) (project_key_id project) scheme
          created updated).

Definition read_project_manifest (root : string) : IO Project :=
  let* bootstrap_text := read_file kProjectBootstrapPath in
  let* bootstrap := lift (json_parse bootstrap_text) in
  let* project := lift (read_bootstrap root bootstrap) in
  let* manifest_text := read_file kProjectManifestPath in
  let* manifest_text :=
    (if encrypted project then
       match project_key_id project with
       | Some key => attempt "privacy_crypto_failed" (lift (decrypt_project_blob (project_id project) key manifest_text))
       | None => mret manifest_text
       end
     else mret manifest_text) in
  let* manifest := lift (json_parse manifest_text) in
  lift (read_manifest_body project manifest).

Definition has_project_manifest : IO bool :=
  attempt "is_regular_file" (gets (fun w =>
    bool_decide (is_Some (work (disk w) !! kProjectBootstrapPath)) &&
    bool_decide (is_Some (work (disk w) !! kProjectManifestPath)))).

End Files.
End Manifest.
End ProjectManifest.

Module ProjectManifestFacts.
Import ProjectManifest JsonFacts.

Section Manifest.
Context {N : JsonLib} `{!JsonLaws N} {L : LibGit2} `{!LibGit2Laws L} {V : Privacy} `{!PrivacyLaws V}.

(** A project that a manifest can describe. *)
Record describable (project : Project) : Prop := {
  ds_id : project_id project <> "";
  ds_name : project_name project <> "";
  ds_mode : privacy_mode project = "plain" \/ privacy_mode project = "encrypted_git";
  ds_key : project_key_id project <> Some "";
  ds_keyed : encrypted project = true -> project_key_id project <> None;
  ds_created : int64 (project_created_at project);
  ds_updated : int64 (project_updated_at project)
}.

(** What the bootstrap says of the project. *)
Definition bootstrapped (project : Project) : Project :=
  mkProject (project_id project) "" (root_path project) None None (privacy_mode project)
          (project_key_id project) Uuid4 0 0.

Lemma key_of_describable project : describable project -> key_of project = project_key_id project.
Proof.
  intros [_ _ _ Hk _ _ _]. unfold key_of. destruct (project_key_id project) as [key|]; [|done].
  by destruct (String.eqb_spec key "") as [->|].
Qed.

Lemma required_ok body field path value :
  string_member field body = Some value -> value <> "" -> required_nonempty_string body field path = Ok value.
Proof. intros H Hn. unfold required_nonempty_string. rewrite H. by rewrite (proj2 (String.eqb_neq _ _) Hn). Qed.

Lemma bootstrap_reads project text :
  describable project -> render_project_bootstrap project = Ok text ->
  rbind (json_parse text) (read_bootstrap (root_path project)) =
    Ok (bootstrapped project).
Proof.
  intros D. pose proof (key_of_describable _ D) as Hk. destruct D as [Hid _ Hmode _ Hkeyed _ _].
  unfold render_project_bootstrap. rewrite (proj2 (String.eqb_neq _ _) Hid).
  assert (negb (String.eqb (privacy_mode project) "plain") && negb (encrypted project) = false) as ->.
  { unfold encrypted. by destruct Hmode as [-> | ->]. }
  destruct (encrypted project && bool_decide (key_of project = None)) eqn:He; [done|].
  set (l := [("version", JInt 1); ("project_id", JString (project_id project)); ("mode", JString (privacy_mode project))]
             ++ opt_member "key_id" (key_of project)).
  destruct (json_dump _ _) as [s|] eqn:Hs; [|done]. cbn [rbind]. intros [= <-].
  assert (canonical (object l)) as Hcan.
  { apply object_canonical; unfold l; destruct (key_of project); cbn; try done; repeat constructor; cbn; lia. }
  rewrite (parse_dump_line _ _ _ Hcan Hs). cbn [rbind].
  unfold read_bootstrap, require_version_one.
  assert (at_key "version" (object l) = Ok (JInt 1)) as -> by (unfold l; by destruct (key_of project)).
  cbn [is_number_integer negb]. rewrite get_int_int by done. cbn [rbind].
  rewrite (required_ok _ _ _ (project_id project)); [|unfold l; by destruct (key_of project)|done].
  rewrite (required_ok _ _ _ (privacy_mode project)); [|unfold l; by destruct (key_of project)|by destruct Hmode as [-> | ->]].
  cbn [rbind].
  assert (negb (String.eqb (privacy_mode project) "plain") && negb (String.eqb (privacy_mode project) "encrypted_git") = false) as ->
    by (by destruct Hmode as [-> | ->]).
  assert (match string_member "key_id" (object l) with
          | Some key => if String.eqb key "" then None else Some key | None => None end = project_key_id project) as ->.
  { rewrite <- Hk. unfold l. unfold key_of. destruct (project_key_id project) as [key|]; [|done].
    by destruct key. }
  rewrite Hk in He. fold (encrypted project). by rewrite He.
Qed.

Lemma manifest_reads project : describable project -> forall text b,
  json_dump (Some 2%nat) (manifest_json project) = Ok text ->
  b = bootstrapped project ->
  rbind (json_parse (text +:+ lf)) (read_manifest_body b) = Ok project.
Proof.
  intros [Hid Hname _ _ _ Hc Hu] text b Ht ->.
  assert (canonical (manifest_json project)) as Hcan.
  { destruct Hc, Hu. apply object_canonical; destruct (git_provider project), (git_remote_url project);
      cbn; try done; repeat constructor; cbn; lia. }
  rewrite (parse_dump_line _ _ _ Hcan Ht). cbn [rbind].
  unfold read_manifest_body, require_version_one. cbn [Model.project_id root_path privacy_mode project_key_id id_scheme].
  assert (forall key v, find_member key [("version", JInt 1); ("project_id", JString (project_id project));
           ("name", JString (project_name project)); ("id_scheme", JString (id_scheme_to_string (id_scheme project)));
           ("created_at", JInt (project_created_at project)); ("updated_at", JInt (project_updated_at project))] = Some v ->
         at_key key (manifest_json project) = Ok v) as Hat.
  { intros key v. unfold manifest_json. cbn [find_member].
    repeat match goal with |- context [String.eqb ?k key] =>
      destruct (String.eqb_spec k key) as [<-|_];
        [intros [= <-]; destruct (git_provider project), (git_remote_url project); reflexivity|]
    end. done. }
  rewrite (Hat "version" (JInt 1) eq_refl). cbn [is_number_integer negb]. rewrite get_int_int by done. cbn [rbind].
  assert (forall key s, at_key key (manifest_json project) = Ok (JString s) -> string_member key (manifest_json project) = Some s) as Hstr.
  { intros key s. unfold at_key, string_member. destruct (manifest_json project) as [| | | | | |l]; try done.
    destruct (find_member key l); [|done]. by intros [= ->]. }
  rewrite (required_ok _ _ _ (project_id project)); [|apply Hstr; by apply Hat|done].
  rewrite (required_ok _ _ _ (project_name project)); [|apply Hstr; by apply Hat|done].
  cbn [rbind]. rewrite String.eqb_refl. cbn [negb].
  unfold read_id_scheme. rewrite (Hat "id_scheme" _ eq_refl). cbn [is_string negb get_string rbind].
  assert (id_scheme_from_string (id_scheme_to_string (id_scheme project)) = Some (id_scheme project)) as ->
    by (by destruct (id_scheme project)).
  cbn [rbind]. rewrite (Hat "created_at" _ eq_refl), (Hat "updated_at" _ eq_refl). cbn [rbind].
  rewrite !get_int64_int by done. cbn [rbind].
  assert (string_member "git_remote_url" (manifest_json project) = git_remote_url project) as ->
    by (unfold manifest_json; by destruct (git_provider project), (git_remote_url project)).
  assert (string_member "git_provider" (manifest_json project) = git_provider project) as ->
    by (unfold manifest_json; by destruct (git_provider project), (git_remote_url project)).
  by destruct project.
Qed.

Lemma manifest_paths_differ : kProjectBootstrapPath <> kProjectManifestPath.
Proof. done. Qed.

Lemma runs_render project text w : describable project -> can_encrypt project ->
  json_dump (Some 2%nat) (manifest_json project) = Ok text ->
  runs (render_project_manifest project) w (fun raw w' => written project (text +:+ lf) raw /\ still w w').
Proof.
  intros D He Ht. pose proof (key_of_describable _ D) as Hk. destruct D as [Hid Hname _ Hkey Hkeyed _ _].
  unfold render_project_manifest. rewrite (proj2 (String.eqb_neq _ _) Hid), (proj2 (String.eqb_neq _ _) Hname). cbn [orb].
  eapply runs_bind; [by apply (runs_mret _ _ (fun _ w' => w' = w))|]. intros [] w1 ->.
  eapply runs_bind; [by apply (runs_lift _ text _ (fun t w' => t = text /\ w' = w))|]. intros t w1 [-> ->].
  cbn zeta. unfold written. destruct (encrypted project) eqn:Hp; cbn [negb]; [|by apply runs_mret].
  rewrite Hk. destruct (project_key_id project) as [key|] eqn:Hkk; [|by destruct (Hkeyed eq_refl)].
  destruct (He Hp) as (key' & Hreq & Henc). pose proof Hreq as Hreq'. unfold require_project_key_id in Hreq'. rewrite Hkk in Hreq'.
  destruct (String.eqb key ""); [done|]. injection Hreq' as <-.
  apply runs_attempt. intros Hc. destruct (Henc (tick (advance w)) (text +:+ lf)) as [raw Hraw]. rewrite Hraw.
  exists raw, (advance w). split; [done|]. split; [exact Hc|]. split; [by exists (tick (advance w)), key|done].
Qed.

Lemma runs_read path text w : work (disk w) !! path = Some text ->
  runs (read_file path) w (fun s w' => s = text /\ disk w' = disk w).
Proof. intros H. apply runs_attempt. intros Hc. cbn. rewrite H. by eexists _, _. Qed.

(** What a reader that got both files makes of them. *)
Lemma runs_read_manifest project text boot raw w : describable project ->
  json_dump (Some 2%nat) (manifest_json project) = Ok text -> render_project_bootstrap project = Ok boot ->
  written project (text +:+ lf) raw ->
  work (disk w) !! kProjectBootstrapPath = Some boot -> work (disk w) !! kProjectManifestPath = Some raw ->
  runs (read_project_manifest (root_path project)) w (fun p w' => p = project /\ disk w' = disk w).
Proof.
  intros D Ht Hb Hw Hfb Hfm. unfold read_project_manifest.
  eapply runs_bind; [by apply runs_read|]. intros s w1 [-> H1].
  pose proof (bootstrap_reads _ _ D Hb) as Hboot. destruct (json_parse boot) as [bj|] eqn:Hbj; [|done]. cbn [rbind] in Hboot.
  eapply runs_bind; [by apply (runs_lift _ bj _ (fun t w' => t = bj /\ w' = w1))|]. intros t w2 [-> ->].
  eapply runs_bind; [by apply (runs_lift _ _ _ (fun t w' => t = bootstrapped project /\ w' = w1) Hboot)|]. intros t w2 [-> ->].
  eapply runs_bind; [by apply (runs_read _ raw); rewrite H1|]. intros s w2 [-> H2].
  eapply (runs_bind _ _ _ (fun t w' => t = text +:+ lf /\ disk w' = disk w)).
  { unfold written in Hw. unfold bootstrapped, encrypted in *. cbn [project_key_id project_id privacy_mode]. destruct (String.eqb (privacy_mode project) "encrypted_git").
    - destruct Hw as (n & key & Hk & He). unfold require_project_key_id in Hk.
      destruct (project_key_id project) as [key'|]; [|done]. destruct (String.eqb key' ""); [done|]. injection Hk as ->.
      apply runs_attempt. eapply runs_lift; [by eapply decrypt_encrypted|]. cbn. by rewrite H2, H1.
    - subst raw. apply runs_mret. by rewrite H2, H1. }
  intros t w3 [-> H3]. pose proof (manifest_reads _ D text _ Ht eq_refl) as Hm.
  destruct (json_parse (text +:+ lf)) as [mj|] eqn:Hmj; [|done]. cbn [rbind] in Hm.
  eapply runs_bind; [by apply (runs_lift _ mj _ (fun t w' => t = mj /\ w' = w3))|]. intros t w4 [-> ->].
  by eapply runs_lift.
Qed.

(** Both files are written and staged. *)
Definition manifest_written (project : Project) (text boot : string) (g : Git) (i : Index) (w w' : World) : Prop :=
  exists raw, written project (text +:+ lf) raw /\
    repo_at (staged_git raw (staged_git boot g))
      (staged_index kProjectManifestPath raw (staged_index kProjectBootstrapPath boot i)) w' /\
    work (disk w') = <[kProjectManifestPath := raw]> (<[kProjectBootstrapPath := boot]> (work (disk w))).

Lemma runs_write_manifest project text boot g i w : describable project -> can_encrypt project ->
  json_dump (Some 2%nat) (manifest_json project) = Ok text -> render_project_bootstrap project = Ok boot ->
  repo_at g i w -> runs (write_project_manifest project) w (fun _ w' => manifest_written project text boot g i w w').
Proof.
  intros D He Ht Hb H. unfold write_project_manifest.
  eapply runs_bind; [by apply runs_open_or_init|]. after w1 H1. destruct H1 as [Hd1 Hr1].
  eapply runs_bind; [by apply (runs_lift _ boot _ (fun t w' => t = boot /\ w' = w1))|]. intros t w2 [-> ->].
  eapply runs_bind; [by apply runs_git_write_file|]. after w2 H2. destruct H2 as [Hr2 Hd2].
  eapply runs_bind; [by apply runs_render|]. intros raw w3 [Hraw [Hd3 Hc3]].
  assert (repo_at g i w3) as Hr3 by (by eapply repo_at_still).
  eapply runs_bind; [by apply runs_git_write_file|]. after w4 H4. destruct H4 as [Hr4 Hd4].
  assert (work (disk w4) = <[kProjectManifestPath := raw]> (<[kProjectBootstrapPath := boot]> (work (disk w)))) as Hw4.
  { rewrite Hd4, Hd3, Hd2, Hd1. done. }
  eapply runs_bind; [apply (runs_stage_path _ boot g i); [done|]|].
  { rewrite Hw4, lookup_insert_ne by (intros Hx; by apply manifest_paths_differ). apply lookup_insert_eq. }
  after w5 H5. destruct H5 as [Hr5 (Hw5 & _)].
  eapply runs_weaken; [apply (runs_stage_path _ raw _ _ _ Hr5)|].
  { rewrite Hw5, Hw4. apply lookup_insert_eq. }
  intros _ w6 [Hr6 (Hw6 & _)]. exists raw. split; [done|]. split; [done|]. congruence.
Qed.

Lemma manifest_reads_back project text boot g i w w' : describable project ->
  json_dump (Some 2%nat) (manifest_json project) = Ok text -> render_project_bootstrap project = Ok boot ->
  manifest_written project text boot g i w w' ->
  runs (read_project_manifest (root_path project)) w' (fun p w2 => p = project /\ disk w2 = disk w').
Proof.
  intros D Ht Hb (raw & Hraw & _ & Hw). eapply runs_read_manifest; try done; rewrite Hw.
  - rewrite lookup_insert_ne by (intros Hx; by apply manifest_paths_differ). apply lookup_insert_eq.
  - apply lookup_insert_eq.
Qed.

(** ** Whatever is read *)

Lemma required_some body field path value : required_nonempty_string body field path = Ok value -> value <> "".
Proof.
  unfold required_nonempty_string. destruct (string_member field body) as [v|]; [|done].
  destruct (String.eqb_spec v ""); [done|]. by intros [= <-].
Qed.

(** What a reader may count on. *)
Record readable (root : string) (p : Project) : Prop := {
  rd_id : project_id p <> "";
  rd_root : root_path p = root;
  rd_mode : privacy_mode p = "plain" \/ privacy_mode p = "encrypted_git";
  rd_key : project_key_id p <> Some "";
  rd_keyed : encrypted p = true -> project_key_id p <> None
}.

Lemma read_bootstrap_sound root body p : read_bootstrap root body = Ok p -> readable root p.
Proof.
  unfold read_bootstrap. destruct (require_version_one _ _); [|done]. cbn [rbind].
  destruct (required_nonempty_string body "project_id" _) as [id|] eqn:Hid; [|done]. cbn [rbind].
  destruct (required_nonempty_string body "mode" _) as [mode|] eqn:Hm; [|done]. cbn [rbind].
  destruct (negb (String.eqb mode "plain") && negb (String.eqb mode "encrypted_git")) eqn:Hmode; [done|].
  set (key := match string_member "key_id" body with Some _ => _ | None => None end).
  assert (key <> Some "") as Hkey.
  { unfold key. destruct (string_member "key_id" body) as [k|]; [|done].
    destruct (String.eqb_spec k ""); [done|]. by intros [=]. }
  generalize dependent key. intros key Hkey.
  destruct (String.eqb mode "encrypted_git" && bool_decide (key = None)) eqn:Hk; [done|]. intros [= <-].
  apply required_some in Hid. split; cbn; [done|done| |done|].
  - apply andb_false_iff in Hmode as [H|H]; apply negb_false_iff, String.eqb_eq in H; auto.
  - unfold encrypted. cbn. intros He ->. by rewrite He in Hk.
Qed.

Lemma read_manifest_sound b m p : read_manifest_body b m = Ok p ->
  project_name p <> "" /\ project_id p = project_id b /\ root_path p = root_path b /\
  privacy_mode p = privacy_mode b /\ project_key_id p = project_key_id b.
Proof.
  unfold read_manifest_body. destruct (require_version_one _ _); [|done]. cbn [rbind].
  destruct (required_nonempty_string m "project_id" _); [|done]. cbn [rbind]. destruct (negb _); [done|].
  destruct (required_nonempty_string m "name" _) as [name|] eqn:Hn; [|done]. cbn [rbind].
  destruct (read_id_scheme _ _); [|done]. cbn [rbind].
  destruct (rbind (at_key "created_at" m) get_int64); [|done]. cbn [rbind].
  destruct (rbind (at_key "updated_at" m) get_int64); [|done]. cbn [rbind]. intros [= <-].
  by apply required_some in Hn.
Qed.

Lemma read_sound root w p w' : read_project_manifest root w = (Ok p, w') -> readable root p /\ project_name p <> "".
Proof.
  unfold read_project_manifest. intros H.
  apply bind_ok in H as (t1 & w1 & _ & H). apply bind_ok in H as (j1 & w2 & _ & H).
  apply bind_ok in H as (b & w3 & Hb & H). apply bind_ok in H as (t2 & w4 & _ & H).
  apply bind_ok in H as (t3 & w5 & _ & H). apply bind_ok in H as (j2 & w6 & _ & H).
  injection Hb as Hb _. injection H as H _. apply read_bootstrap_sound in Hb as [H1 H2 H3 H4 H5].
  apply read_manifest_sound in H as (Hn & Hi & Hr & Hm & Hk). split; [|done].
  split; rewrite ?Hi, ?Hr, ?Hm, ?Hk; try done. unfold encrypted. by rewrite Hm.
Qed.

End Manifest.
End ProjectManifestFacts.

Module ProjectManifestTheorems.
Import ProjectManifest ProjectManifestFacts.

(** C6: A project survives the loss of the database. What [write_project_manifest] leaves in
    the directory, staged for the next commit, [read_project_manifest] reads back as the same
    project, whether it is encrypted or not; of an encrypted project nothing but its id, mode
    and key id is in the clear. Whatever files are read, what is accepted has an id, a name,
    the directory it was read from and a known privacy mode, and a key if it is encrypted. *)
Theorem manifest_round_trip (N : JsonLib) (L : LibGit2) (V : Privacy) (project : Project) (text boot : string)
    (g : Git) (i : Index) (w : World) :
  JsonLaws N -> LibGit2Laws L -> PrivacyLaws V -> describable project -> can_encrypt project -> filters_keep_sealed ->
  json_dump (Some 2%nat) (manifest_json project) = Ok text -> render_project_bootstrap project = Ok boot ->
  repo_at g i w ->
  runs (write_project_manifest project) w (fun _ w1 =>
    (exists raw g' i', repo_at g' i' w1 /\
       work (disk w1) = <[kProjectManifestPath := raw]> (<[kProjectBootstrapPath := boot]> (work (disk w))) /\
       entries i' = <[kProjectManifestPath := entry_of kProjectManifestPath raw]>
                      (<[kProjectBootstrapPath := entry_of kProjectBootstrapPath boot]> (entries i)) /\
       (encrypted project = true -> String.prefix blob_header raw = true /\ staged_sealed g' i' kProjectManifestPath)) /\
    runs has_project_manifest w1 (fun found w2 => found = true /\ disk w2 = disk w1) /\
    runs (read_project_manifest (root_path project)) w1 (fun p w2 => p = project /\ disk w2 = disk w1)) /\
  forall root w' p w2, read_project_manifest root w' = (Ok p, w2) -> readable root p /\ project_name p <> "".
Proof.
  intros HN HL HV D He Hf Ht Hb H. split; [|intros root w' p w2; apply read_sound].
  eapply runs_weaken; [by apply (runs_write_manifest project text boot g i)|]. intros [] w1 Hm. cbn beta in Hm. pose proof Hm as (raw & Hraw & Hr & Hw1).
  split; [|split; [|by eapply manifest_reads_back]].
  - exists raw, (staged_git raw (staged_git boot g)), (staged_index kProjectManifestPath raw (staged_index kProjectBootstrapPath boot i)). split; [exact Hr|]. split; [done|]. split; [done|]. intros Hp.
    pose proof (written_sealed _ _ _ Hraw Hp) as Hs. split; [done|]. by apply staged_is_sealed.
  - apply runs_attempt, runs_gets. cbn. rewrite Hw1. split; [|done].
    rewrite lookup_insert_eq, lookup_insert_ne, lookup_insert_eq by (intros Hx; by apply manifest_paths_differ). done.
Qed.

(** ** An encrypted project in a new repository *)
Import ReferenceGit ReferenceJson.

Definition sealed_notes : Project :=
  mkProject "p" "Notes" "/p" (Some "git@host:notes.git") None "encrypted_git" (Some "k") Uuid7 5 6.
Definition empty_git : Git := mkGit ∅ ∅ ∅ (Branch "refs/heads/main") ∅.
Definition empty_world : World := mkWorld (mkDisk ∅ None None None (Some empty_git) ∅) None (fun _ => Works) 0.
Lemma sealed_notes_describable : describable sealed_notes.
Proof. split; try done. by right. Qed.
Lemma reference_encrypts : @can_encrypt reference_privacy sealed_notes.
Proof. intros _. exists "k". split; [done|]. intros n plain. by eexists. Qed.

Example manifest_round_trip_witness :
  exists w1 w2, write_project_manifest sealed_notes empty_world = (Ok tt, w1) /\
    read_project_manifest "/p" w1 = (Ok sealed_notes, w2).
Proof.
  assert (exists text, json_dump (Some 2%nat) (manifest_json sealed_notes) = Ok text) as [text Ht] by by eexists.
  assert (exists boot, render_project_bootstrap sealed_notes = Ok boot) as [boot Hb] by by eexists.
  assert (repo_at empty_git (mkIndex ∅ ∅) empty_world) as Hr by (split; auto).
  assert (calm empty_world) as Hc by done.
  destruct (manifest_round_trip reference_json reference_git reference_privacy sealed_notes text boot empty_git (mkIndex ∅ ∅)
    empty_world _ _ _ sealed_notes_describable reference_encrypts (fun s _ => eq_refl) Ht Hb Hr) as [Hrun _].
  destruct (Hrun Hc) as ([] & w1 & H1 & Hc1 & _ & _ & Hread).
  destruct (Hread Hc1) as (p & w2 & H2 & _ & [-> _]). by exists w1, w2.
Defined.

(** A manifest that was moved to another project is refused. *)
Example foreign_manifest :
  read_manifest_body (bootstrapped (mkProject "q" "" "/q" None None "plain" None Uuid4 0 0)) (manifest_json sealed_notes) =
  Err (Runtime "project manifest id does not match bootstrap: .holder/project.json").
Proof. reflexivity. Qed.

End ProjectManifestTheorems.
