(* ===== verification/ProjectPaths.v ===== *)
(** * Where a project lives

    [src/src/project/ProjectPaths.cpp]: the directory name made of a project's name, and the
    choice of a directory that neither a project nor a file has. *)

From stdpp Require Import base list sets strings numbers pretty.
From Stdlib Require Import Ascii.
From S2P Require Import Prelude Double Model Text.

Module ProjectPaths.

Definition dash : ascii := "-".

(** One character of the name; [prev_dash] says that the last thing written was a dash. *)
Definition slug_step (st : bytes * bool) (ch : ascii) : bytes * bool :=
  let '(out, prev_dash) := st in
  let separator := if negb (bool_decide (out = [])) && negb prev_dash then (out ++ [dash], true) else st in
  if negb (is_ascii ch) then st
  else if is_space ch then separator
  else if is_alnum ch || Ascii.eqb ch "_" || Ascii.eqb ch dash then
    if Ascii.eqb (tolower ch) dash then separator else (out ++ [tolower ch], false)
  else st.

(** [while (!out.empty() && out.back() == '-') out.pop_back();] on the reversed text *)
Fixpoint drop_dashes (l : bytes) : bytes :=
  match l with
  | c :: l' => if Ascii.eqb c dash then drop_dashes l' else l
  | [] => []
  end.
Definition slugify (input : string) : string :=
  let out := rev (drop_dashes (rev (foldl slug_step ([], false) (bytes_of input)).1)) in
  if bool_decide (out = []) then "project" else string_of out.

(** [base / name] of a name that has no slash *)
Definition child_path (base name : string) : string :=
  if String.eqb base "" then name
  else if bool_decide (list.last (bytes_of base) = Some "/"%char) then base +:+ name
  else base +:+ "/" +:+ name.

Definition candidate (base_root slug : string) (attempt : nat) : string :=
  child_path base_root (slug +:+ (if Nat.ltb 1 attempt then "-" +:+ pretty (N.of_nat attempt) else "")).

Definition kMaxAttempts : nat := 1000.

Fixpoint first_free (base_root slug : string) (taken : string -> bool) (attempts attempt : nat) : result string :=
  match attempts with
  | O => Err (Runtime "Unable to generate unique project root path.")
  | S attempts =>
      if taken (candidate base_root slug attempt) then first_free base_root slug taken attempts (S attempt)
      else Ok (candidate base_root slug attempt)
  end.
(** [exists] is [std::filesystem::exists] *)
Definition unique_project_root (exists_ : string -> bool) (base_root slug : string) (existing : list Project)
  : result string :=
  first_free base_root slug
    (fun path => bool_decide (path ∈ map root_path existing) || exists_ path) kMaxAttempts 1.

End ProjectPaths.

Module ProjectPathsFacts.
Import ProjectPaths.

(** What a slug is made of, and no two dashes in a row. *)
Definition slug_char (c : ascii) : Prop := is_lower c = true \/ is_digit c = true \/ c = "_"%char \/ c = dash.
Definition no_double (l : bytes) : Prop := forall i, l !! i = Some dash -> l !! S i = Some dash -> False.
Record is_slug (l : bytes) : Prop := {
  sl_some : l <> [];
  sl_chars : Forall slug_char l;
  sl_single : no_double l;
  sl_head : hd_error l <> Some dash;
  sl_last : list.last l <> Some dash
}.

Lemma lowered c : is_alnum c = true -> is_lower (tolower c) = true \/ is_digit (tolower c) = true.
Proof. destruct c as [[] [] [] [] [] [] [] []]; vm_compute; intros H; try discriminate H; auto. Qed.
Lemma slug_char_plain c : slug_char c ->
  is_ascii c = true /\ is_space c = false /\ tolower c = c /\
  is_alnum c || Ascii.eqb c "_" || Ascii.eqb c dash = true.
Proof.
  intros [H|[H|[->| ->]]]; [| |vm_compute; auto..];
    destruct c as [[] [] [] [] [] [] [] []]; vm_compute in H |- *; try discriminate H; auto.
Qed.

Lemma no_double_snoc l c : no_double l -> (c = dash -> list.last l <> Some dash) -> no_double (l ++ [c]).
Proof.
  intros Hn Hc i H1 H2. apply lookup_snoc_Some in H2 as [[Hi H2]|[Hi H2]].
  - apply lookup_snoc_Some in H1 as [[_ H1]|[-> _]]; [by apply (Hn i)|lia].
  - apply lookup_snoc_Some in H1 as [[_ H1]|[-> _]]; [|lia]. apply (Hc H2).
    rewrite last_lookup. by rewrite <- Hi.
Qed.
Lemma no_double_prefix l k : no_double (l ++ k) -> no_double l.
Proof. intros H i H1 H2. apply (H i); by apply lookup_app_l_Some. Qed.
Lemma no_double_cons c l : no_double (c :: l) -> no_double l /\ (c = dash -> hd_error l <> Some dash).
Proof.
  intros H. split; [intros i H1 H2; by apply (H (S i))|].
  intros -> Hd. apply (H 0%nat); [done|]. by destruct l.
Qed.

(** What the loop maintains. *)
Record written_so_far (st : bytes * bool) : Prop := {
  ws_chars : Forall slug_char st.1;
  ws_single : no_double st.1;
  ws_head : hd_error st.1 <> Some dash;
  ws_dash : st.2 = bool_decide (list.last st.1 = Some dash)
}.
Lemma head_snoc (l : bytes) c : hd_error l <> Some dash -> (l = [] -> c <> dash) -> hd_error (l ++ [c]) <> Some dash.
Proof. destruct l; cbn; [|done]. intros _ H [= ->]. by apply H. Qed.

Lemma step_written st ch : written_so_far st -> written_so_far (slug_step st ch).
Proof.
  destruct st as [out pd]. intros W. pose proof W as [Hc Hs Hh Hd]. cbn in Hc, Hs, Hh, Hd. unfold slug_step.
  assert (written_so_far (if negb (bool_decide (out = [])) && negb pd then (out ++ [dash], true) else (out, pd))) as Hsep.
  { destruct (bool_decide_reflect (out = [])) as [Ho|Ho]; [exact W|]. destruct pd; [exact W|]. symmetry in Hd. apply bool_decide_eq_false in Hd. cbn.
    split; cbn.
    - apply Forall_app. split; [done|]. by apply list.Forall_singleton; unfold slug_char; auto.
    - by apply no_double_snoc.
    - by apply head_snoc.
    - rewrite last_snoc. by rewrite bool_decide_eq_true_2. }
  destruct (is_ascii ch); [|done]. destruct (is_space ch); [exact Hsep|]. cbn [negb].
  destruct (is_alnum ch || Ascii.eqb ch "_" || Ascii.eqb ch dash) eqn:Hch; [|done].
  destruct (Ascii.eqb_spec (tolower ch) dash) as [|Hne]; [exact Hsep|].
  assert (slug_char (tolower ch)) as Hsc.
  { apply orb_true_iff in Hch as [[Hch|Hch]%orb_true_iff|Hch].
    - destruct (lowered _ Hch); unfold slug_char; auto.
    - apply Ascii.eqb_eq in Hch as ->. unfold slug_char. vm_compute. auto.
    - by apply Ascii.eqb_eq in Hch as ->. }
  split; cbn.
  - apply Forall_app. split; [done|]. by apply list.Forall_singleton.
  - by apply no_double_snoc.
  - by apply head_snoc.
  - rewrite last_snoc. rewrite bool_decide_eq_false_2; [done|]. intros [=]. by apply Hne.
Qed.
Lemma steps_written input st : written_so_far st -> written_so_far (foldl slug_step st input).
Proof. revert st. induction input as [|c input IH]; cbn; intros st H; [done|]. by apply IH, step_written. Qed.

Lemma drop_dashes_spec l : exists k, l = k ++ drop_dashes l /\ hd_error (drop_dashes l) <> Some dash.
Proof.
  induction l as [|c l (k & Hl & Hh)]; [by exists []|]. cbn. destruct (Ascii.eqb_spec c dash) as [->|Hn].
  - exists (dash :: k). cbn. by rewrite <- Hl.
  - exists []. split; [done|]. by intros [= ->].
Qed.
Lemma stripped l : exists k, l = rev (drop_dashes (rev l)) ++ k /\ list.last (rev (drop_dashes (rev l))) <> Some dash.
Proof.
  destruct (drop_dashes_spec (rev l)) as (k & Hk & Hh). exists (rev k). split.
  - rewrite <- rev_app_distr, <- Hk. by rewrite rev_involutive.
  - destruct (drop_dashes (rev l)); cbn; [done|]. by rewrite last_snoc.
Qed.

Lemma slugify_is_slug input : is_slug (bytes_of (slugify input)).
Proof.
  unfold slugify. set (out := (foldl slug_step ([], false) (bytes_of input)).1).
  assert (written_so_far (foldl slug_step ([], false) (bytes_of input))) as [Hc Hs Hh _].
  { apply steps_written. split; cbn; [constructor| |done|done]. intros i. by rewrite lookup_nil. }
  fold out in Hc, Hs, Hh. destruct (stripped out) as (k & Hk & Hl). cbn zeta.
  case_bool_decide as He.
  - split; cbn; [done| | |done|done].
    + repeat constructor; by left.
    + intros i. do 8 (destruct i; [done|]). done.
  - rewrite bytes_of_string_of. revert He Hk Hl. generalize (rev (drop_dashes (rev out))). intros s He Hk Hl.
    rewrite Hk in Hc, Hs, Hh. apply Forall_app in Hc as [Hc _]. split; [done|done|by eapply no_double_prefix| |done].
    by destruct s.
Qed.

Lemma slug_kept s out pd :
  Forall slug_char s -> no_double s -> (out = [] \/ pd = true -> hd_error s <> Some dash) ->
  (foldl slug_step (out, pd) s).1 = out ++ s.
Proof.
  revert out pd. induction s as [|c s IH]; intros out pd Hf Hn Hh; [cbn; by rewrite app_nil_r|].
  apply list.Forall_cons in Hf as [Hc Hf]. apply no_double_cons in Hn as [Hn Hd].
  destruct (slug_char_plain c Hc) as (H1 & H2 & H3 & H4).
  change (foldl slug_step (out, pd) (c :: s)) with (foldl slug_step (slug_step (out, pd) c) s).
  assert (slug_step (out, pd) c = if Ascii.eqb c dash
    then (if negb (bool_decide (out = [])) && negb pd then (out ++ [dash], true) else (out, pd))
    else (out ++ [c], false)) as -> by (unfold slug_step; by rewrite H1, H2, H3, H4).
  replace (out ++ c :: s) with ((out ++ [c]) ++ s) by (by rewrite <- app_assoc).
  destruct (Ascii.eqb_spec c dash) as [->|Hne].
  - assert (out <> [] /\ pd = false) as [Ho ->].
    { split; [intros ->; by apply Hh; [left|]|]. destruct pd; [|done]. exfalso. by apply Hh; [right|]. }
    rewrite bool_decide_eq_false_2 by done. cbn. apply IH; [done|done|]. intros _. by apply Hd.
  - apply IH; [done|done|]. intros [Hx|]; [|done]. by destruct out.
Qed.

Lemma slugify_slug s : is_slug s -> slugify (string_of s) = string_of s.
Proof.
  intros [H1 H2 H3 H4 H5]. unfold slugify. rewrite bytes_of_string_of. cbn zeta.
  rewrite (slug_kept s [] false) by (done || by intros [_|]). cbn [app].
  assert (drop_dashes (rev s) = rev s) as ->.
  { destruct (rev s) as [|c l] eqn:Hr; [done|]. cbn. destruct (Ascii.eqb_spec c dash) as [->|]; [|done].
    exfalso. apply H5. rewrite <- (rev_involutive s), Hr. cbn. by rewrite last_snoc. }
  rewrite rev_involutive. by rewrite bool_decide_eq_false_2.
Qed.

Lemma first_free_spec base slug taken attempts attempt :
  match first_free base slug taken attempts attempt with
  | Ok root => exists n, (attempt <= n < attempt + attempts)%nat /\ root = candidate base slug n /\ taken root = false /\
      forall m, (attempt <= m < n)%nat -> taken (candidate base slug m) = true
  | Err _ => forall m, (attempt <= m < attempt + attempts)%nat -> taken (candidate base slug m) = true
  end.
Proof.
  revert attempt. induction attempts as [|k IH]; intros attempt; cbn [first_free]; [intros m ?; lia|].
  destruct (taken (candidate base slug attempt)) eqn:Ht.
  - specialize (IH (S attempt)). destruct (first_free _ _ _ k _).
    + destruct IH as (n & Hn & Hr & Hf & Hm). exists n. split; [lia|]. split; [done|]. split; [done|].
      intros m Hm'. destruct (decide (m = attempt)) as [->|]; [done|]. apply Hm. lia.
    + intros m Hm. destruct (decide (m = attempt)) as [->|]; [done|]. apply IH. lia.
  - exists attempt. split; [lia|]. split; [done|]. split; [done|]. intros m ?. lia.
Qed.

End ProjectPathsFacts.

Module ProjectPathsTheorems.
Import ProjectPaths ProjectPathsFacts.

(** A new project gets a directory of its own. The directory's name comes from the
    project's name: never empty, lower-case letters, digits, [_] and single dashes between
    them, so it has no slash and no dot and stays under the projects' directory; a name that
    is such a slug already is kept. The directory is the first of the thousand candidates
    that no project has and that does not exist, and there is none exactly when all of them
    are taken. *)
Theorem project_root_is_its_own (exists_ : string -> bool) (base name : string) (existing : list Project) :
  let taken n := candidate base (slugify name) n ∈ map root_path existing \/
                 exists_ (candidate base (slugify name) n) = true in
  is_slug (bytes_of (slugify name)) /\
  (is_slug (bytes_of name) -> slugify name = name) /\
  match unique_project_root exists_ base (slugify name) existing with
  | Ok root => exists n, (1 <= n <= 1000)%nat /\ root = candidate base (slugify name) n /\ ~ taken n /\
      forall m, (1 <= m < n)%nat -> taken m
  | Err _ => forall m, (1 <= m <= 1000)%nat -> taken m
  end.
Proof.
  intros taken. split; [apply slugify_is_slug|]. split.
  { intros H. apply slugify_slug in H. by rewrite string_of_bytes_of in H. }
  unfold unique_project_root.
  set (t := fun path => bool_decide (path ∈ map root_path existing) || exists_ path).
  assert (forall n, t (candidate base (slugify name) n) = true <-> taken n) as Ht.
  { intros n. unfold t, taken. by rewrite orb_true_iff, bool_decide_eq_true. }
  pose proof (first_free_spec base (slugify name) t kMaxAttempts 1) as H. change kMaxAttempts with 1000%nat in *.
  destruct (first_free base (slugify name) t 1000 1) as [root|e].
  - destruct H as (n & Hn & Hr & Hf & Hm). exists n. split; [lia|]. split; [done|]. split.
    + intros Hx. apply Ht in Hx. rewrite <- Hr in Hx. congruence.
    + intros m Hm'. by apply Ht, Hm.
  - intros m Hm. apply Ht, H. lia.
Qed.

Example slugs :
  slugify "My  Notes -- 2024!" = "my-notes-2024" /\ slugify " .. / .. " = "project" /\ slugify "-a_B-" = "a_b".
Proof. vm_compute. auto. Qed.

Example second_notes :
  unique_project_root (fun p => String.eqb p "/home/p/notes-2") "/home/p" (slugify "Notes")
    [mkProject "p" "Notes" "/home/p/notes" None None "plain" None Uuid4 0 0] = Ok "/home/p/notes-3".
Proof. vm_compute. reflexivity. Qed.

End ProjectPathsTheorems.
