(* ===== verification/ProjectStore.v ===== *)
(** * Creating a project

    [src/src/project/ProjectStore.cpp], with [ensure_encrypted_project_ready] of
    [src/src/privacy/ProjectPrivacy.cpp]: the row, the repository, the key of an encrypted
    project and the manifest; if anything fails the row goes again. *)

From stdpp Require Import base list sets strings numbers gmap.
From S2P Require Import Prelude Double Model Text Database ProjectRepo Uuid CardFrontMatter Json ReferenceJson.
From S2P Require Import Disk Privacy CryptoService ProjectKeys ProjectManifest ProjectPaths.
Import Disk CardFrontMatter Json ProjectKeys ProjectManifest ProjectPaths.

Module ProjectStore.

(** What [create] works on: the keyring and the database, and the directory the project
    gets. *)
Record Creation := mkCreation { cr_keys : KeyState; cr_world : World }.
Definition with_keys {A} (m : M KeyState A) : M Creation A :=
  fun s => let '(r, k) := m (cr_keys s) in (r, mkCreation k (cr_world s)).
Definition in_repository {A} (m : IO A) : M Creation A :=
  fun s => let '(r, w) := m (cr_world s) in (r, mkCreation (cr_keys s) w).

(** What [create] draws from outside: random bytes and the time for an id, the clock, the
    id of a new key, and the number of the keyring's call. *)
Record Drawn := mkDrawn {
  dr_random : list Z;
  dr_now_ms : Z;
  dr_now : Z;
  dr_uuid : string;
  dr_call : nat
}.

Section Store.
Context {E : SqlEngine} {S : Sodium} {N : JsonLib} {L : LibGit2}.

Definition privacy_meta (project key : string) : Json :=
  object [("version", JInt 1); ("project_id", JString project); ("key_id", JString key);
          ("mode", JString "encrypted_git")].
Definition write_privacy_meta (project key : string) : IO unit :=
  fs_create_directories (Work kProjectBootstrapPath) ;;;
  let* text := lift (json_dump (Some 2%nat) (privacy_meta project key)) in
  fs_write_file (Work kProjectBootstrapPath) (text +:+ lf).

Definition ensure_encrypted_git_setup (project key : string) : IO unit :=
  open_or_init ;;;
  write_privacy_meta project key.

Definition ensure_encrypted_project_ready (d : Drawn) (project : string) (key_id : option string) (updated_at : Z)
  : M Creation unit :=
  let* key := with_keys (ensure_project_key_material (dr_call d) (dr_uuid d) project key_id updated_at) in
  in_repository (ensure_encrypted_git_setup project key).

(** [repo_.get(project_id).value()] *)
Definition stored_project (id : string) : M Creation Project :=
  fun s => match ProjectRepo.get (key_db (cr_keys s)) id with
           | Some p => (Ok p, s)
           | None => (Err (Runtime "bad optional access"), s)
           end.

(** The manifest is written with the keys the keyring has by then. *)
Definition write_manifest (project : Project) : M Creation unit :=
  fun s => in_repository (write_project_manifest (V := keyring_privacy (keyring (cr_keys s))) project) s.

(** The steps between the row and the first commit. *)
Definition set_up (d : Drawn) (project : Project) : M Creation unit :=
  in_repository open_or_init ;;;
  match git_remote_url project with
  | Some url => in_repository (set_remote "origin" url)
  | None => mret tt
  end ;;;
  when (ProjectPrivacy.encrypted project)
    (ensure_encrypted_project_ready d (project_id project) (project_key_id project) (project_updated_at project)) ;;;
  let* project := stored_project (project_id project) in
  write_manifest project ;;;
  in_repository (commit "Create project metadata").

(** The row with what the caller left out. *)
Definition fill_in (d : Drawn) (projects_root : option string) (exists_ : string -> bool) (project : Project)
  : M Creation Project :=
  let* id := (if String.eqb (project_id project) ""
              then let* b := lift (Uuid.generate_id (id_scheme project) (dr_random d) (dr_now_ms d)) in mret (string_of b)
              else mret (project_id project)) in
  let created := if Z.leb (project_created_at project) 0 then dr_now d else project_created_at project in
  let updated := if Z.leb (project_updated_at project) 0 then created else project_updated_at project in
  let* root := (if String.eqb (root_path project) "" then
                  match projects_root with
                  | None => throw (InvalidArgument "root_path or projects_root must be provided")
                  | Some base =>
                      let* existing := gets (fun s => ProjectRepo.list_projects (key_db (cr_keys s))) in
                      lift (unique_project_root exists_ base (slugify (project_name project)) existing)
                  end
                else mret (root_path project)) in
  mret (mkProject id (project_name project) root (git_remote_url project) (git_provider project)
          (privacy_mode project) (project_key_id project) (id_scheme project) created updated).

Definition create (d : Drawn) (projects_root : option string) (exists_ : string -> bool) (project : Project)
  : M Creation Project :=
  let* project := fill_in d projects_root exists_ project in
  with_keys (in_db (ProjectRepo.create project)) ;;;
  try_catch (set_up d project)
    (fun e => with_keys (in_db (ProjectRepo.remove (project_id project))) ;;; throw e) ;;;
  stored_project (project_id project).

End Store.
End ProjectStore.
