(* ===== verification/ProjectStoreFacts.v ===== *)
(** * Lemmas on the creation of a project *)

From stdpp Require Import base list sets strings numbers gmap.
From S2P Require Import Prelude Double Model Text Database CardRepo LinkRepo ProjectRepo ResourceFacts Uuid.
From S2P Require Import CardFrontMatter Json Disk Runs Privacy CryptoService ProjectKeys ProjectKeysTheorems.
From S2P Require Import RebuildReads GitRuns ProjectManifest ProjectPaths ProjectStore.
Import Disk DiskFacts Runs CardFrontMatter Json ProjectRepo ProjectRepoFacts ProjectKeys ProjectManifest ProjectManifestFacts.
Import ProjectStore RebuildReads GitRuns ProjectPrivacy.

Module ProjectStoreFacts.

(** ** A row that is added and removed again *)

Lemma filter_nobody {A} (f : A -> bool) l : (forall x, x ∈ l -> f x = false) -> list_filter (fun x => negb (f x)) l = l.
Proof. intros H. apply list_filter_all. intros x Hx. by rewrite H. Qed.
Lemma existsb_none {A} (f : A -> bool) l : (forall x, x ∈ l -> f x = false) -> existsb f l = false.
Proof. intros H. by apply existsb_false. Qed.

Lemma no_assets_deleted f t : (forall a, a ∈ assets t -> f a = false) -> delete_asset_rows f t = t.
Proof.
  intros H. destruct t. unfold delete_asset_rows. cbn in *. rewrite filter_nobody by done. f_equal. apply filter_nobody.
  intros x _. apply existsb_none. intros a Ha. by rewrite H.
Qed.
Lemma no_resources_deleted f t : (forall r, r ∈ resources t -> f r = false) -> delete_resource_rows f t = t.
Proof.
  intros H. assert (forall id, existsb (fun r => f r && String.eqb (rr_id r) id) (resources t) = false) as Hg.
  { intros id. apply existsb_none. intros r Hr. by rewrite H. }
  unfold delete_resource_rows. rewrite no_assets_deleted by (intros; apply Hg).
  rewrite !filter_nobody by (done || (intros; apply Hg)). by destruct t.
Qed.
Lemma no_locations_deleted f t : (forall l, l ∈ storage_locations t -> f l = false) -> delete_location_rows f t = Some t.
Proof.
  intros H. assert (forall id, existsb (fun l => f l && String.eqb (lr_id l) id) (storage_locations t) = false) as Hg.
  { intros id. apply existsb_none. intros r Hr. by rewrite H. }
  unfold delete_location_rows. rewrite existsb_none by (intros; apply Hg). rewrite filter_nobody by done. by destruct t.
Qed.

(** A database without rows. *)
Lemma empty_wf : db_wf (core_db [] [] [] [] [] []).
Proof.
  split; [apply NoDup_nil_2| |split|split|apply NoDup_nil_2| |apply NoDup_nil_2| |apply NoDup_nil_2|];
    try apply NoDup_nil_2; intros x Hx; inversion Hx.
Qed.
Section Rows.
Context (db : Db) (W : db_wf db) (R : ResourceFacts.resources_wf db).

Definition with_row (p : Project) : Db := set_projects (projects db ++ [p]) db.

Lemma not_project i j : project_exists i db = false -> project_exists j db = true -> String.eqb j i = false.
Proof. intros Hi Hj. destruct (String.eqb_spec j i) as [->|]; congruence. Qed.
Lemma not_own_row i p : project_exists i db = false -> p ∈ projects db -> String.eqb (project_id p) i = false.
Proof. intros Hi Hp. apply not_project; [done|]. apply project_exists_spec, elem_of_map_id. by exists p. Qed.

Lemma resources_untouched i : project_exists i db = false ->
  delete_project_resources i (resource_tables db) = Some (resource_tables db).
Proof.
  intros Hi. destruct R as [_ R2 _ _ _ R6 _ _ _ _ _ _ _ _ R15].
  unfold delete_project_resources. rewrite no_assets_deleted.
  2: { intros a Ha. apply not_project; [done|]. destruct (R6 a Ha) as (r & Hr & _ & <-). by apply R2. }
  rewrite no_locations_deleted by (intros l Hl; apply not_project; [done|by apply R15]).
  by rewrite no_resources_deleted by (intros r Hr; apply not_project; [done|by apply R2]).
Qed.

Lemma orphan_nobody i l : project_exists i db = false -> (forall c, c ∈ l -> c ∈ cards db) ->
  map (fun c => match parent_card_id c with
                | Some p => if existsb (fun c => String.eqb (card_project_id c) i && String.eqb (card_id c) p) (cards db)
                            then set_card_parent None c else c
                | None => c end) l = l.
Proof.
  intros Hi. induction l as [|c l IH]; cbn; intros Hl; [done|]. rewrite IH by set_solver. f_equal.
  destruct (parent_card_id c) as [p|]; [|done]. pose proof (nothing_gone i db p) as Hg. unfold gone_card in Hg.
  by rewrite Hg by (apply W || done).
Qed.

(** A row that nothing refers to yet goes without a trace. *)
Lemma row_removed p : project_exists (project_id p) db = false ->
  delete_project (project_id p) (with_row p) = Some db.
Proof.
  intros Hi. set (i := project_id p) in *. pose proof W as [_ _ C [_ L2] _ W6 _ W8 _ W10].
  assert (project_exists i (with_row p) = true) as He.
  { apply project_exists_spec. cbn. rewrite map_app. apply elem_of_app. right. by apply list_elem_of_singleton. }
  unfold delete_project. rewrite He. cbn [negb]. change (resource_tables (with_row p)) with (resource_tables db).
  rewrite resources_untouched by done. unfold delete_project_row. rewrite He. cbn [negb].
  cbn [with_row projects cards card_links card_tags milestones project_sync_state resource_tables set_projects].
  pose proof (nothing_gone i db) as Hg. unfold gone_card in Hg.
  assert (list_filter (fun q => negb (String.eqb (project_id q) i)) (projects db ++ [p]) = projects db) as ->.
  { unfold list_filter. rewrite List.filter_app. cbn. unfold i at 2. rewrite String.eqb_refl. cbn. rewrite app_nil_r.
    apply filter_nobody. intros q Hq. by apply not_own_row. }
  rewrite (filter_nobody _ (cards db)) by (intros c Hc; apply not_project; [done|by apply C]).
  rewrite orphan_nobody by done.
  rewrite filter_nobody by (intros l Hl; apply not_project; [done|by apply L2]).
  rewrite (list_filter_all _ (card_tags db)).
  2: { intros t Ht. rewrite Hg, andb_true_r by (apply W || done). rewrite (not_project i) by (done || by apply W6). done. }
  rewrite (list_filter_all _ (milestones db)).
  2: { intros t Ht. rewrite Hg, andb_true_r by (apply W || done). rewrite (not_project i) by (done || by apply W8). done. }
  rewrite filter_nobody by (intros t Ht; apply not_project; [done|by apply W10]).
  by destruct db.
Qed.

Lemma row_updated i f p : project_exists i db = false -> project_id p = i -> privacy_mode_ok (privacy_mode (f p)) = true ->
  update_project i f (with_row p) = Some (with_row (f p)).
Proof.
  intros Hi Hp Hf. apply update_project_spec. split.
  - unfold with_row. cbn [projects set_projects]. unfold set_projects. cbn. f_equal. rewrite map_app. cbn.
    rewrite Hp, String.eqb_refl. f_equal. symmetry. rewrite <- (map_id (projects db)) at 2. apply map_ext_in.
    intros q Hq%list_elem_of_In. by rewrite not_own_row.
  - intros q [Hq| ->%list_elem_of_singleton]%elem_of_app Hqi; [|done].
    pose proof (not_own_row i q Hi Hq) as Hx. by rewrite Hqi, String.eqb_refl in Hx.
Qed.
End Rows.

(** ** What holds of the tables whatever happens *)

Section Failing.
Context {E : SqlEngine} `{!SqlEngineLaws E} {S : Sodium} {N : JsonLib} {L : LibGit2}.
Context (db : Db) (W : db_wf db) (R : ResourceFacts.resources_wf db) (keys : Keyring) (d : Drawn) (id : string).
Hypothesis Hnew : project_exists (bind_text id) db = false.

(** The project's row stands last; a key at most was added to the keyring. *)
Record creating (s : Creation) : Prop := {
  cg_row : exists p, key_db (cr_keys s) = with_row db p /\ project_id p = bind_text id /\
             privacy_mode_ok (privacy_mode p) = true;
  cg_keys : forall k, k <> (id, dr_uuid d) -> secrets (keyring (cr_keys s)) !! k = secrets keys !! k
}.

Lemma creating_repository {A} (m : IO A) : preserves creating (in_repository m).
Proof. intros s [H1 H2]. unfold in_repository. destruct (m (cr_world s)) as [r w]. by split. Qed.

Lemma creating_key key_id at_ :
  preserves creating (with_keys (ensure_project_key_material (dr_call d) (dr_uuid d) id key_id at_)).
Proof.
  intros s C. pose proof C as [(p & Hp & Hid & Hm) Hk].
  assert (creating (snd (with_keys (store_key_material id (dr_uuid d) (CryptoService.key_to_base64 (CryptoService.generate_random_key (dr_call d))) ;;;
    in_db (ProjectRepo.update_project_key_id id (Some (dr_uuid d)) at_) ;;; mret (dr_uuid d)) s))) as Hnk.
  { unfold with_keys, bind, store_key_material. destruct (negb (keyring_supported (keyring (cr_keys s)))) eqn:Hs; [by split; [exists p|]|].
    cbn. unfold in_db, update_project_key_id, exec. cbn [key_db]. rewrite Hp. 
    rewrite row_updated by done. cbn. split; cbn.
    - eexists. split; [done|]. done.
    - intros k Hne. rewrite lookup_insert_ne by congruence. by apply Hk. }
  unfold ensure_project_key_material. destruct key_id as [key|]; [|exact Hnk].
  destruct (negb (String.eqb key "")); [|exact Hnk]. by destruct s as [[? ?] ?].
Qed.

Lemma creating_set_up project : project_id project = id -> preserves creating (set_up d project).
Proof.
  intros Hid. unfold set_up. apply preserves_bind; [apply creating_repository|]. intros _.
  apply preserves_bind; [destruct (git_remote_url project); [apply creating_repository|apply preserves_mret]|]. intros _.
  apply preserves_bind.
  { apply preserves_when. unfold ensure_encrypted_project_ready. rewrite Hid.
    apply preserves_bind; [apply creating_key|]. intros key. apply creating_repository. }
  intros _. apply preserves_bind.
  { intros s C. unfold stored_project. by destruct (ProjectRepo.get _ _). }
  intros p. apply preserves_bind; [|intros _; apply creating_repository].
  intros s C. by apply creating_repository.
Qed.

Lemma creating_removed s : creating s ->
  with_keys (in_db (ProjectRepo.remove id)) s = (Ok tt, mkCreation (mkKeyState (keyring (cr_keys s)) db) (cr_world s)).
Proof.
  intros [(p & Hp & Hid & Hm) _]. unfold with_keys, in_db, ProjectRepo.remove, exec. rewrite Hp, <- Hid.
  by rewrite row_removed by (done || by rewrite Hid).
Qed.

Lemma creating_stored s : creating s -> exists p, stored_project id s = (Ok p, s) /\ key_db (cr_keys s) = with_row db p.
Proof.
  intros [(p & Hp & Hid & Hm) _]. exists p. split; [|done]. unfold stored_project. rewrite Hp.
  assert (ProjectRepo.get (with_row db p) id = Some p) as ->; [|done].
  apply get_project_Some.
  - cbn. rewrite map_app. apply list.NoDup_app. split; [apply W|]. split; [|apply NoDup_singleton].
    intros x Hx ->%list_elem_of_singleton. rewrite Hid in Hx. apply project_exists_spec in Hx. congruence.
  - cbn. split; [|done]. apply elem_of_app. right. by apply list_elem_of_singleton.
Qed.
End Failing.


(** ** When nothing fails *)

Definition completes {A} (m : M Creation A) (s : Creation) (Q : A -> Creation -> Prop) : Prop :=
  calm (cr_world s) -> exists a s', m s = (Ok a, s') /\ calm (cr_world s') /\ Q a s'.

Lemma completes_bind {A B} (m : M Creation A) (f : A -> M Creation B) s Q R :
  completes m s Q -> (forall a s', Q a s' -> completes (f a) s' R) -> completes (bind m f) s R.
Proof.
  intros Hm Hf Hc. destruct (Hm Hc) as (a & s1 & He & Hc1 & Hq).
  destruct (Hf a s1 Hq Hc1) as (b & s2 & He2 & Hc2 & Hr). exists b, s2. unfold bind. by rewrite He.
Qed.
Lemma completes_here {A} (m : M Creation A) s a (Q : A -> Creation -> Prop) : m s = (Ok a, s) -> Q a s -> completes m s Q.
Proof. intros He HQ Hc. by exists a, s. Qed.
Lemma completes_keys {A} (m : M KeyState A) s a k (Q : A -> Creation -> Prop) :
  m (cr_keys s) = (Ok a, k) -> Q a (mkCreation k (cr_world s)) -> completes (with_keys m) s Q.
Proof. intros He HQ Hc. exists a, (mkCreation k (cr_world s)). unfold with_keys. by rewrite He. Qed.
Lemma completes_repository {A} (m : IO A) s (Q : A -> World -> Prop) :
  runs m (cr_world s) Q -> completes (in_repository m) s (fun a s' => cr_keys s' = cr_keys s /\ Q a (cr_world s')).
Proof.
  intros H Hc. destruct (H Hc) as (a & w & He & Hc' & HQ). exists a, (mkCreation (cr_keys s) w).
  unfold in_repository. by rewrite He.
Qed.

Section Working.
Context {E : SqlEngine} `{!SqlEngineLaws E} {S : Sodium} {N : JsonLib} `{!JsonLaws N} {L : LibGit2} `{!LibGit2Laws L}.
Context (db : Db) (W : db_wf db) (R : ResourceFacts.resources_wf db) (d : Drawn).

(** The repository that [open_or_init] leaves. *)
Definition opened (dk : Disk) : Git :=
  match git dk with Some g => g | None => mkGit ∅ ∅ ∅ (Branch initial_branch) ∅ end.
Lemma runs_open i w : index_parse (index_file (disk w)) = Some i ->
  runs open_or_init w (fun _ w' => repo_at (opened (disk w)) i w' /\ work (disk w') = work (disk w)).
Proof.
  intros Hi Hc. unfold open_or_init, bind, modify, attempt. cbn [set_cached outcomes tick]. rewrite Hc.
  eexists _, _. split; [reflexivity|]. split; [exact Hc|]. unfold opened. cbn. destruct (git (disk w)) eqn:Hg; (split; [|done]); split; cbn; rewrite ?Hg; auto.
Qed.

(** An encrypted project that names no key gets one. *)
Definition needs_key (p : Project) : bool := encrypted p && bool_decide (key_of p = None).
Definition ready (p : Project) : Project :=
  if needs_key p then with_key_id (Some (dr_uuid d)) (project_updated_at p) p else p.
Definition ready_keys (p : Project) (k : Keyring) : Keyring :=
  if needs_key p
  then mkKeyring (<[(project_id p, dr_uuid d) := CryptoService.key_to_base64 (CryptoService.generate_random_key (dr_call d))]>
         (secrets k)) true
  else k.

Lemma privacy_meta_bootstrap p boot : project_id p <> "" -> encrypted p = true ->
  render_project_bootstrap p = Ok boot -> forall key, key_of p = Some key ->
  exists text, json_dump (Some 2%nat) (privacy_meta (project_id p) key) = Ok text.
Proof.
  intros Hid He. unfold render_project_bootstrap. rewrite (proj2 (String.eqb_neq _ _) Hid), He. cbn [negb].
  rewrite andb_false_r. intros H key Hk. revert H. rewrite Hk. cbn [bool_decide andb].
  rewrite bool_decide_eq_false_2 by done. apply String.eqb_eq in He as Hm. rewrite Hm.
  change (object _) with (privacy_meta (project_id p) key). destruct (json_dump _ _) as [text|]; [|done]. by eexists.
Qed.

Lemma runs_encrypted_setup project key text g i w :
  json_dump (Some 2%nat) (privacy_meta project key) = Ok text -> repo_at g i w ->
  runs (ensure_encrypted_git_setup project key) w (fun _ w' => repo_at g i w' /\
    exists c, work (disk w') = <[kProjectBootstrapPath := c]> (work (disk w))).
Proof.
  intros Ht H. unfold ensure_encrypted_git_setup, write_privacy_meta.
  eapply runs_bind; [by apply runs_open_or_init|]. after w1 H1. destruct H1 as [Hd1 Hr1].
  eapply (runs_bind _ _ _ (fun _ w' => still w1 w')).
  { apply runs_attempt. by apply runs_mret. }
  after w2 H2. eapply runs_bind; [by apply (runs_lift _ text _ (fun t w' => t = text /\ w' = w2))|]. intros t w3 [-> ->].
  intros Hc. unfold fs_write_file. rewrite Hc. eexists _, _. split; [reflexivity|]. split; [exact Hc|].
  assert (repo_at g i w2) as [G1 G2 G3] by (by eapply repo_at_still). destruct H2 as [Hd2 _]. split.
  - split; cbn; done.
  - exists (text +:+ lf). cbn. by rewrite Hd2, Hd1.
Qed.

(** What [create] asks of the project and of the directory it gets. *)
Record creatable (p : Project) (text boot : string) (i : Index) (s : Creation) : Prop := {
  ct_new : project_exists (project_id p) db = false;
  ct_bound : bind_project p = p;
  ct_uuid : bind_text (dr_uuid d) = dr_uuid d;
  ct_keyring : needs_key p = true -> keyring_supported (keyring (cr_keys s)) = true;
  ct_ready : describable (ready p);
  ct_encrypts : can_encrypt (V := keyring_privacy (ready_keys p (keyring (cr_keys s)))) (ready p);
  ct_manifest : json_dump (Some 2%nat) (manifest_json (ready p)) = Ok text;
  ct_bootstrap : render_project_bootstrap (ready p) = Ok boot;
  ct_index : index_parse (index_file (disk (cr_world s))) = Some i;
  ct_conflicts : conflicts i = ∅;
  ct_head : head (opened (disk (cr_world s))) <> Branch "HEAD"
}.

Lemma ready_same p : project_id (ready p) = project_id p /\ privacy_mode (ready p) = privacy_mode p /\
  git_remote_url (ready p) = git_remote_url p.
Proof. unfold ready. by destruct (needs_key p). Qed.
Lemma creatable_mode p text boot i s : creatable p text boot i s -> privacy_mode_ok (privacy_mode p) = true.
Proof.
  intros C. destruct (ct_ready _ _ _ _ _ C) as [_ _ Hm _ _ _ _]. destruct (ready_same p) as (_ & Hr & _).
  rewrite Hr in Hm. by destruct Hm as [-> | ->].
Qed.
Lemma ready_key p text boot i s : creatable p text boot i s -> encrypted p = true -> exists key, key_of (ready p) = Some key.
Proof.
  intros C He. pose proof (ct_ready _ _ _ _ _ C) as D. destruct (ready_same p) as (_ & Hm & _).
  rewrite (key_of_describable _ D). destruct (project_key_id (ready p)) as [key|] eqn:Hk; [by exists key|].
  exfalso. apply (ds_keyed _ D); [|done]. unfold encrypted in *. by rewrite Hm.
Qed.

Lemma key_ready p text boot i s ks key : creatable p text boot i s -> keyring ks = keyring (cr_keys s) ->
  key_db ks = with_row db p -> encrypted p = true -> key_of (ready p) = Some key ->
  ensure_project_key_material (dr_call d) (dr_uuid d) (project_id p) (project_key_id p) (project_updated_at p) ks =
    (Ok key, mkKeyState (ready_keys p (keyring (cr_keys s))) (with_row db (ready p))).
Proof.
  intros C Hks Hdb He Hkey. pose proof (creatable_mode _ _ _ _ _ C) as Hm. destruct C as [Hnew Hb Hu Hs _ _ _ _ _ _ _].
  assert (needs_key p = true -> (store_key_material (project_id p) (dr_uuid d)
      (CryptoService.key_to_base64 (CryptoService.generate_random_key (dr_call d))) ;;;
    in_db (ProjectRepo.update_project_key_id (project_id p) (Some (dr_uuid d)) (project_updated_at p)) ;;; mret (dr_uuid d)) ks =
    (Ok key, mkKeyState (ready_keys p (keyring (cr_keys s))) (with_row db (ready p)))) as Hgen.
  { intros Hn. specialize (Hs Hn). unfold ready, ready_keys in *. rewrite Hn in *.
    assert (key = dr_uuid d) as ->.
    { unfold key_of in Hkey. cbn in Hkey. rewrite Hu in Hkey. destruct (String.eqb (dr_uuid d) ""); congruence. }
    unfold bind, store_key_material. rewrite Hks, Hs. cbn [negb]. unfold in_db, update_project_key_id, exec. cbn [key_db].
    assert (bind_text (project_id p) = project_id p) as -> by (apply (f_equal project_id) in Hb; exact Hb).
    rewrite Hdb, row_updated by done. done. }
  unfold ready, ready_keys, needs_key, key_of in *. rewrite He in *. cbn [andb] in *.
  unfold ensure_project_key_material. destruct (project_key_id p) as [k|] eqn:Hk; [|by apply Hgen].
  destruct (String.eqb k "") eqn:Hke; cbn [negb]; [by apply Hgen|].
  rewrite bool_decide_eq_false_2 in * by done. rewrite Hk, Hke in Hkey. injection Hkey as ->.
  rewrite <- Hks, <- Hdb. by destruct ks.
Qed.

Lemma stored_row p s : key_db (cr_keys s) = with_row db p -> project_exists (project_id p) db = false ->
  bind_text (project_id p) = project_id p -> stored_project (project_id p) s = (Ok p, s).
Proof.
  intros Hdb Hnew Hb. unfold stored_project. rewrite Hdb.
  assert (ProjectRepo.get (with_row db p) (project_id p) = Some p) as ->; [|done].
  apply get_project_Some.
  - cbn. rewrite map_app. apply list.NoDup_app. split; [apply W|]. split; [|apply NoDup_singleton].
    intros x Hx ->%list_elem_of_singleton. apply project_exists_spec in Hx. congruence.
  - cbn. rewrite Hb. split; [|done]. apply elem_of_app. right. by apply list_elem_of_singleton.
Qed.

(** The keyring and the row once the key is there, and the repository as it was opened. *)
Definition prepared (p : Project) (i : Index) (s0 s : Creation) : Prop :=
  key_db (cr_keys s) = with_row db (ready p) /\ keyring (cr_keys s) = ready_keys p (keyring (cr_keys s0)) /\
  (exists g, head g = head (opened (disk (cr_world s0))) /\ repo_at g i (cr_world s)) /\
  forall c, <[kProjectBootstrapPath := c]> (work (disk (cr_world s))) =
            <[kProjectBootstrapPath := c]> (work (disk (cr_world s0))).

Lemma prepare_completes p text boot i s0 s g :
  creatable p text boot i s0 -> key_db (cr_keys s) = with_row db p -> keyring (cr_keys s) = keyring (cr_keys s0) ->
  head g = head (opened (disk (cr_world s0))) -> repo_at g i (cr_world s) ->
  work (disk (cr_world s)) = work (disk (cr_world s0)) ->
  completes (when (encrypted p)
    (ensure_encrypted_project_ready d (project_id p) (project_key_id p) (project_updated_at p))) s
    (fun _ s' => prepared p i s0 s').
Proof.
  intros C Hdb Hk Hg Hr Hw. destruct (encrypted p) eqn:He; cbn [when].
  2: { apply (completes_here _ _ tt); [done|]. unfold prepared, ready, ready_keys, needs_key. rewrite He. cbn [andb].
       split; [done|]. split; [done|]. split; [by exists g|]. intros c. by rewrite Hw. }
  destruct (ready_key _ _ _ _ _ C He) as [key Hkey]. pose proof (ct_ready _ _ _ _ _ C) as D.
  destruct (ready_same p) as (Hid & Hm & _).
  assert (encrypted (ready p) = true) as He' by (unfold encrypted in *; by rewrite Hm).
  destruct (privacy_meta_bootstrap _ _ (ds_id _ D) He' (ct_bootstrap _ _ _ _ _ C) _ Hkey) as [meta Hmeta]. rewrite Hid in Hmeta.
  unfold ensure_encrypted_project_ready. eapply completes_bind.
  { eapply (completes_keys _ _ key _ (fun k s' => k = key /\ s' = mkCreation (mkKeyState (ready_keys p (keyring (cr_keys s0)))
      (with_row db (ready p))) (cr_world s))); [by eapply key_ready|done]. }
  intros ? s1 [-> ->]. intros Hc.
  destruct (completes_repository _ (mkCreation (mkKeyState (ready_keys p (keyring (cr_keys s0))) (with_row db (ready p)))
    (cr_world s)) _ (runs_encrypted_setup (project_id p) key meta g i _ Hmeta Hr) Hc)
    as (u & s2 & H1 & Hc2 & Hk2 & Hr2 & c & Hw2).
  exists u, s2. split; [exact H1|]. split; [exact Hc2|]. unfold prepared. rewrite Hk2. cbn [key_db keyring].
  split; [done|]. split; [done|]. split; [by exists g|]. intros c'. cbn in Hw2. by rewrite Hw2, insert_insert_eq, Hw.
Qed.

(** The directory and the repository of a project that was created. *)
Definition set_up_done (p : Project) (text boot : string) (i : Index) (s0 s : Creation) : Prop :=
  key_db (cr_keys s) = with_row db (ready p) /\ keyring (cr_keys s) = ready_keys p (keyring (cr_keys s0)) /\
  exists raw g, written (V := keyring_privacy (keyring (cr_keys s))) (ready p) (text +:+ lf) raw /\
    work (disk (cr_world s)) =
      <[kProjectManifestPath := raw]> (<[kProjectBootstrapPath := boot]> (work (disk (cr_world s0)))) /\
    git (disk (cr_world s)) = Some g /\
    head_tree g = Some (<[kProjectManifestPath := entry_of kProjectManifestPath raw]>
                          (<[kProjectBootstrapPath := entry_of kProjectBootstrapPath boot]> (entries i))) /\
    blobs g !! blob_id (clean raw) = Some (clean raw).

Lemma set_up_completes p text boot i s0 s `{!SodiumLaws S} `{!JsonLines N} :
  creatable p text boot i s0 -> key_db (cr_keys s) = with_row db p -> keyring (cr_keys s) = keyring (cr_keys s0) ->
  cr_world s = cr_world s0 ->
  completes (set_up d p) s (fun _ s' => set_up_done p text boot i s0 s').
Proof.
  intros C Hdb Hk Hw. unfold set_up.
  pose proof (runs_open i (cr_world s)) as Hopen. rewrite Hw in Hopen. specialize (Hopen (ct_index _ _ _ _ _ C)). rewrite <- Hw in Hopen.
  eapply completes_bind; [by apply completes_repository|]. intros [] s1 (Hk1 & Hr1 & Hw1).
  eapply (completes_bind _ _ _ (fun _ s' => cr_keys s' = cr_keys s1 /\ (exists g, head g = head (opened (disk (cr_world s0))) /\
    repo_at g i (cr_world s')) /\ work (disk (cr_world s')) = work (disk (cr_world s0)))).
  { rewrite <- Hw. destruct (git_remote_url p) as [url|].
    - intros Hc. destruct (completes_repository _ _ _ (runs_set_remote "origin" url _ i _ Hr1) Hc)
        as (u & s2 & H1 & Hc2 & Hk2 & g' & (_ & _ & _ & Hh) & Hr2 & (Hw2 & _)).
      exists u, s2. split; [exact H1|]. split; [exact Hc2|]. split; [done|]. split; [by exists g'|congruence].
    - apply (completes_here _ _ tt); [done|]. split; [done|]. split; [by eexists|done]. }
  intros [] s2 (Hk2 & (g & Hg & Hr2) & Hw2). eapply completes_bind.
  { eapply (prepare_completes p text boot i s0 s2 g C); congruence || done. }
  intros [] s3 (Hdb3 & Hk3 & (g3 & Hg3 & Hr3) & Hw3).
  destruct (ready_same p) as (Hid & _ & _). pose proof (ct_bound _ _ _ _ _ C) as Hb. apply (f_equal project_id) in Hb. cbn in Hb.
  eapply completes_bind.
  { rewrite <- Hid. apply (completes_here _ _ (ready p) (fun q s' => q = ready p /\ s' = s3)); [|done].
    apply stored_row; rewrite ?Hid; [done|apply C|done]. }
  intros ? ? [-> ->].
  assert (PrivacyLaws (keyring_privacy (keyring (cr_keys s3)))) as HP.
  { split; intros n project key plain blob; [apply ProjectKeysFacts.decrypt_own|apply ProjectKeysFacts.encrypt_own_header]. }
  eapply completes_bind.
  { apply completes_repository. eapply (runs_write_manifest (V := keyring_privacy (keyring (cr_keys s3))) (ready p) text boot g3 i);
      [apply C|rewrite Hk3; apply C|apply C|apply C|done]. }
  intros [] s4 (Hk4 & raw & Hraw & Hr4 & Hw4). intros Hc.
  assert (conflicts (staged_index kProjectManifestPath raw (staged_index kProjectBootstrapPath boot i)) = ∅) as Hconf.
  { cbn. rewrite (ct_conflicts _ _ _ _ _ C). set_solver. }
  destruct (completes_repository _ _ _ (runs_commit "Create project metadata" _ _ _ Hr4 Hconf) Hc)
    as (u & s5 & H5 & Hc5 & Hk5 & Hr5 & (Hw5 & _)).
  exists u, s5. split; [exact H5|]. split; [exact Hc5|]. unfold set_up_done. rewrite Hk5, Hk4. split; [done|]. split; [done|].
  eexists raw, _. split; [exact Hraw|]. split; [by rewrite Hw5, Hw4, Hw3|]. split; [apply Hr5|]. split.
  - rewrite committed_tree; [done|]. cbn. rewrite Hg3. apply C.
  - assert (forall m g j, blobs (committed_git m g j) = blobs g) as ->.
    { intros m h j. unfold committed_git, set_ref. cbn zeta.
      destruct (String.eqb _ _); [cbn; by destruct (head h)|done]. }
    cbn. apply lookup_insert_eq.
Qed.
End Working.


(** ** The whole of [create] *)

Section Whole.
Context {E : SqlEngine} {S : Sodium} {N : JsonLib} {L : LibGit2}.

Lemma preserves_fill_in (P : Creation -> Prop) d base exists_ project : preserves P (fill_in d base exists_ project).
Proof.
  unfold fill_in. apply preserves_bind.
  { destruct (String.eqb (project_id project) ""); [|apply preserves_mret].
    apply preserves_bind; [apply preserves_lift|]. intros b. apply preserves_mret. }
  intros id. apply preserves_bind; [|intros r; apply preserves_mret].
  destruct (String.eqb (root_path project) ""); [|apply preserves_mret].
  destruct base; [|apply preserves_throw].
  apply preserves_bind; [apply preserves_gets|]. intros l. apply preserves_lift.
Qed.

Lemma row_created p s : project_exists (bind_text (project_id p)) (key_db (cr_keys s)) = false ->
  privacy_mode_ok (bind_text (privacy_mode p)) = true ->
  with_keys (in_db (ProjectRepo.create p)) s =
    (Ok tt, mkCreation (mkKeyState (keyring (cr_keys s)) (with_row (key_db (cr_keys s)) (bind_project p))) (cr_world s)).
Proof.
  intros Hn Hm. unfold with_keys, in_db, ProjectRepo.create, exec, insert_project. cbn [bind_project project_id privacy_mode].
  by rewrite Hn, Hm.
Qed.
Lemma row_refused p s e s' : with_keys (in_db (ProjectRepo.create p)) s = (Err e, s') -> s' = s.
Proof.
  unfold with_keys, in_db, ProjectRepo.create, exec. destruct s as [[k db] w]. cbn.
  destruct (insert_project _ db); [done|]. by intros [= _ <-].
Qed.
Lemma row_accepted p s u s' : with_keys (in_db (ProjectRepo.create p)) s = (Ok u, s') ->
  project_exists (bind_text (project_id p)) (key_db (cr_keys s)) = false /\ privacy_mode_ok (bind_text (privacy_mode p)) = true.
Proof.
  unfold with_keys, in_db, ProjectRepo.create, exec, insert_project. cbn [bind_project project_id privacy_mode].
  destruct (project_exists _ _); [done|]. by destruct (privacy_mode_ok _).
Qed.
End Whole.

End ProjectStoreFacts.
