(* ===== verification/ProjectStoreTheorems.v ===== *)
(** * A project is created as a whole *)

From stdpp Require Import base list sets strings numbers gmap.
From S2P Require Import Prelude Double Model Text Database ProjectRepo ResourceFacts Uuid CardFrontMatter Json ReferenceJson.
From S2P Require Import Disk Runs Privacy CryptoService ProjectKeys ProjectKeysTheorems ReferenceCrypto ReferenceGit.
From S2P Require Import RebuildReads GitRuns ProjectManifest ProjectPaths ProjectStore ProjectStoreFacts.
Import Disk DiskFacts Runs CardFrontMatter Json ProjectRepo ProjectRepoFacts ProjectKeys ProjectManifest ProjectManifestFacts.
Import ProjectStore ProjectStoreFacts RebuildReads GitRuns ProjectPrivacy.

Module ProjectStoreTheorems.

(** C5: A project is created as a whole or not at all. Whatever call fails, an error leaves
    every table as it was, and at most a key of the new project in the keyring; a result is
    one new row and nothing else. In a directory whose calls work, for a new project that a
    manifest can describe, the result is returned: the project with a key if it needed one,
    the key in the keyring, and HEAD with both files of the manifest, which read back as the
    project that was returned. *)
Theorem project_create_correct (E : SqlEngine) (S : Sodium) (N : JsonLib) (L : LibGit2)
    (d : Drawn) (base : option string) (exists_ : string -> bool) (project : Project) (s : Creation) :
  SqlEngineLaws E -> SodiumLaws S -> JsonLaws N -> JsonLines N -> LibGit2Laws L ->
  db_wf (key_db (cr_keys s)) -> ResourceFacts.resources_wf (key_db (cr_keys s)) ->
  let db := key_db (cr_keys s) in
  (forall e s', create d base exists_ project s = (Err e, s') ->
     key_db (cr_keys s') = db /\ exists id, forall k, k <> (id, dr_uuid d) ->
       secrets (keyring (cr_keys s')) !! k = secrets (keyring (cr_keys s)) !! k) /\
  (forall q s', create d base exists_ project s = (Ok q, s') ->
     key_db (cr_keys s') = with_row db q /\ project_exists (project_id q) db = false) /\
  (forall p text boot i, fill_in d base exists_ project s = (Ok p, s) -> calm (cr_world s) ->
     creatable db d p text boot i s ->
     exists s', create d base exists_ project s = (Ok (ready d p), s') /\
       set_up_done db d p text boot i s s' /\
       runs (read_project_manifest (V := keyring_privacy (keyring (cr_keys s'))) (root_path p)) (cr_world s')
         (fun q _ => q = ready d p)).
Proof.
  intros HE HS HN HJ HL W R db.
  assert (forall p s1, fill_in d base exists_ project s = (Ok p, s1) -> s1 = s) as Hfill.
  { intros p s1 H. pose proof (preserves_fill_in (fun x => x = s) d base exists_ project s eq_refl) as Hp. by rewrite H in Hp. }
  assert (forall p, project_exists (bind_text (project_id p)) db = false -> privacy_mode_ok (bind_text (privacy_mode p)) = true ->
    creating db (keyring (cr_keys s)) d (project_id p)
      (mkCreation (mkKeyState (keyring (cr_keys s)) (with_row db (bind_project p))) (cr_world s))) as Hstart.
  { intros p Hn Hm. split; [|done]. by exists (bind_project p). }
  unfold create. split; [|split].
  - intros e s' H. unfold bind at 1 in H.
    destruct (fill_in d base exists_ project s) as [[p|e1] s1] eqn:Hf.
    2: { injection H as _ <-. pose proof (preserves_fill_in (fun x => x = s) d base exists_ project s eq_refl) as Hp.
         rewrite Hf in Hp. cbn in Hp. subst s1. split; [done|]. by exists "". }
    pose proof (Hfill _ _ eq_refl) as Hs1. subst s1. unfold bind at 1 in H.
    destruct (with_keys (in_db (ProjectRepo.create p)) s) as [[u|e1] s1] eqn:Hrow.
    2: { injection H as _ <-. apply row_refused in Hrow as ->. split; [done|]. by exists "". }
    destruct (row_accepted _ _ _ _ Hrow) as [Hn Hm]. fold db in Hn. rewrite row_created in Hrow by done.
    injection Hrow as _ <-. pose proof (Hstart p Hn Hm) as Hc. set (s1 := mkCreation _ _) in *.
    pose proof (creating_set_up db (keyring (cr_keys s)) d (project_id p) Hn p eq_refl s1 Hc) as Hc2.
    unfold bind at 1, try_catch in H. destruct (set_up d p s1) as [[v|e2] s2]; cbn [snd] in Hc2.
    + destruct (creating_stored db W (keyring (cr_keys s)) d (project_id p) Hn s2 Hc2) as (q & Hq & _). by rewrite Hq in H.
    + unfold bind in H. rewrite (creating_removed db W R (keyring (cr_keys s)) d (project_id p) Hn s2 Hc2) in H.
      injection H as _ <-. split; [done|]. exists (project_id p). apply Hc2.
  - intros q s' H. apply bind_ok in H as (p & s1 & Hf & H). apply Hfill in Hf as ->.
    apply bind_ok in H as (u & s1 & Hrow & H). destruct (row_accepted _ _ _ _ Hrow) as [Hn Hm]. fold db in Hn.
    rewrite row_created in Hrow by done. injection Hrow as _ <-. pose proof (Hstart p Hn Hm) as Hc. set (s1 := mkCreation _ _) in *.
    pose proof (creating_set_up db (keyring (cr_keys s)) d (project_id p) Hn p eq_refl s1 Hc) as Hc2.
    unfold bind at 1, try_catch in H. destruct (set_up d p s1) as [[v|e2] s2]; cbn [snd] in Hc2.
    + destruct (creating_stored db W (keyring (cr_keys s)) d (project_id p) Hn s2 Hc2) as (q' & Hq & Hdb). rewrite Hq in H.
      injection H as <- <-. split; [done|]. destruct Hc2 as [(p' & Hp' & Hid & _) _].
      unfold with_row in *. assert (p' = q') as -> by (rewrite Hp' in Hdb; injection Hdb; intros Ha; by apply app_inj_2 in Ha as [_ [= ->]]).
      by rewrite Hid.
    + unfold bind in H. by rewrite (creating_removed db W R (keyring (cr_keys s)) d (project_id p) Hn s2 Hc2) in H.
  - intros p text boot i Hf Hcalm C. destruct (ready_same d p) as (Hid & _ & _).
    pose proof (ct_bound _ _ _ _ _ _ _ C) as Hb. pose proof (f_equal project_id Hb) as Hbi. cbn in Hbi.
    pose proof (creatable_mode _ _ _ _ _ _ _ C) as Hm. pose proof (f_equal privacy_mode Hb) as Hbm. cbn in Hbm.
    set (s1 := mkCreation (mkKeyState (keyring (cr_keys s)) (with_row db p)) (cr_world s)).
    destruct (set_up_completes db W d p text boot i s s1 C eq_refl eq_refl eq_refl Hcalm) as ([] & s' & Hset & Hc' & Hdone).
    exists s'. split; [|split; [exact Hdone|]].
    + unfold bind at 1. rewrite Hf. unfold bind at 1.
      rewrite row_created by (rewrite ?Hbi, ?Hbm; done || apply C). rewrite Hb. fold db s1.
      unfold bind at 1, try_catch. rewrite Hset. rewrite <- Hid.
      apply (stored_row db W); [apply Hdone|rewrite Hid; apply C|by rewrite Hid].
    + destruct Hdone as (_ & _ & raw & g & Hraw & Hw & _).
      assert (PrivacyLaws (keyring_privacy (keyring (cr_keys s')))) as HP.
      { split; intros n pr key plain blob; [apply ProjectKeysFacts.decrypt_own|apply ProjectKeysFacts.encrypt_own_header]. }
      assert (root_path p = root_path (ready d p)) as -> by (unfold ready; by destruct (needs_key p)).
      eapply runs_weaken; [eapply (runs_read_manifest (ready d p) text boot raw); try apply C; try done; rewrite Hw|].
      * rewrite lookup_insert_ne by done. apply lookup_insert_eq.
      * apply lookup_insert_eq.
      * by intros q w [-> _].
Qed.

(** ** A new encrypted project *)
Import ReferenceGit ReferenceJson ReferenceCrypto.

Definition wanted : Project := mkProject "" "My Notes" "" None None "encrypted_git" None Uuid4 0 0.
Definition drawn : Drawn := mkDrawn (replicate 16 7%Z) 0 42 "key1" 3.
Definition new_directory (faults : nat -> Outcome) : Creation :=
  mkCreation (mkKeyState (mkKeyring ∅ true) (core_db [] [] [] [] [] []))
    (mkWorld (mkDisk ∅ None None None None ∅) None faults 0).
Definition nothing_there (_ : string) : bool := false.
Definition my_notes : Project :=
  mkProject "07070707-0707-4707-8707-070707070707" "My Notes" "/projects/my-notes" None None "encrypted_git" None Uuid4 42 42.

Lemma wanted_filled s : key_db (cr_keys s) = core_db [] [] [] [] [] [] ->
  @fill_in reference_engine drawn (Some "/projects") nothing_there wanted s = (Ok my_notes, s).
Proof. destruct s as [[k db] w]. cbn. intros ->. vm_compute. reflexivity. Qed.

Lemma my_notes_encrypts :
  can_encrypt (V := @keyring_privacy reference_sodium reference_json (ready_keys (S := reference_sodium) drawn my_notes (mkKeyring ∅ true)))
    (ready drawn my_notes).
Proof.
  intros _. exists "key1". split; [reflexivity|]. intros n plain. cbn [encrypt_project_blob keyring_privacy].
  unfold encrypt_with_keyring, load_project_key_bytes.
  assert (load_key_material (ready_keys (S := reference_sodium) drawn my_notes (mkKeyring ∅ true)) (project_id (ready drawn my_notes)) "key1" =
    Ok (CryptoService.key_to_base64 (CryptoService.generate_random_key 3))) as -> by reflexivity.
  cbn [rbind]. rewrite CryptoFacts.key_round_trip by (apply randombytes_length). cbn [rbind].
  unfold CryptoService.encrypt_envelope_v1. cbn [rbind json_dump reference_json]. eexists. reflexivity.
Qed.

Example project_create_correct_witness :
  exists s', @create reference_engine reference_sodium reference_json reference_git drawn (Some "/projects") nothing_there wanted
      (new_directory (fun _ => Works)) = (Ok (ready drawn my_notes), s') /\
    key_db (cr_keys s') = core_db [ready drawn my_notes] [] [] [] [] [].
Proof.
  assert (exists text, json_dump (Some 2%nat) (manifest_json (ready drawn my_notes)) = Ok text) as [text Ht] by by eexists.
  assert (exists boot, render_project_bootstrap (ready drawn my_notes) = Ok boot) as [boot Hb] by by eexists.
  assert (db_wf (core_db [] [] [] [] [] [])) as W.
  { exact empty_wf. }
  assert (ResourceFacts.resources_wf (core_db [] [] [] [] [] [])) as R by apply ResourceFacts.no_resources_wf.
  destruct (project_create_correct reference_engine reference_sodium reference_json reference_git drawn (Some "/projects")
    nothing_there wanted (new_directory (fun _ => Works)) _ _ _ _ _ W R) as (_ & _ & Hok).
  destruct (Hok my_notes text boot (mkIndex ∅ ∅) (wanted_filled (new_directory (fun _ => Works)) eq_refl) (fun _ => eq_refl)) as (s' & H1 & [H2 _] & _).
  - split; try done.
    + split; try done. by right.
    + exact my_notes_encrypts.
  - by exists s'.
Defined.

(** The first commit fails: the row is gone again. *)
Example row_goes_when_the_commit_fails :
  let plain := mkProject "p" "Notes" "/p" None None "plain" None Uuid4 1 1 in
  match @create reference_engine reference_sodium reference_json reference_git drawn None nothing_there plain
      (new_directory (fun k => if Nat.eqb k 20 then Throws None else Works)) with
  | (Err (Runtime "git_commit_create_v failed"), s') => key_db (cr_keys s') = core_db [] [] [] [] [] []
  | _ => False
  end.
Proof. vm_compute. reflexivity. Qed.

End ProjectStoreTheorems.
