(* ===== verification/StartupRecovery.v ===== *)
(** * Finding projects again

    [src/src/project/StartupRecovery.cpp]: the projects below a directory whose rows are lost
    get them back, from the manifest if there is one, and their index is rebuilt. The roots
    are given; listing the directories below [projects_root] is not modelled. *)

From stdpp Require Import base list sets strings numbers gmap.
From Stdlib Require Import Ascii.
From S2P Require Import Prelude Double Model Text Tags Database CardRepo ProjectRepo Uuid CardFrontMatter Json ReferenceJson Disk.
From S2P Require Import Mutation Privacy CardChanges RebuildResources Rebuild ProjectManifest.
Import Disk CardMutation CardFrontMatter Json ProjectManifest CardStoreChanges RebuildFiles.

Module StartupRecovery.

(** ** [std::filesystem::path] *)

(** The elements after the root directory; a slash at the end counts as an empty one. *)
Definition path_elements (path : string) : list string :=
  let parts := CardMutation.components "" path in
  let named := list_filter (fun c => negb (String.eqb c "")) parts in
  if negb (bool_decide (named = [])) && bool_decide (list.last parts = Some "") then named ++ [""] else named.
Definition has_root_directory (path : string) : bool := String.prefix "/" path.

Fixpoint elements_less (a b : list string) : bool :=
  match a, b with
  | _, [] => false
  | [], _ :: _ => true
  | x :: a, y :: b => str_ltb x y || (String.eqb x y && elements_less a b)
  end.
Definition path_less (a b : string) : bool :=
  match has_root_directory a, has_root_directory b with
  | false, true => true
  | true, false => false
  | _, _ => elements_less (path_elements a) (path_elements b)
  end.
Definition path_eqb (a b : string) : bool :=
  Bool.eqb (has_root_directory a) (has_root_directory b) && bool_decide (path_elements a = path_elements b).
(** [std::unique] *)
Fixpoint drop_repeats (l : list string) : list string :=
  match l with
  | a :: l' => match drop_repeats l' with
               | b :: k => if path_eqb a b then a :: k else a :: b :: k
               | [] => [a]
               end
  | [] => []
  end.

(** [lexically_normal]: the elements kept so far, the last one first, and whether the path
    would end in a slash. *)
Fixpoint normalize (absolute : bool) (kept : list string) (slash : bool) (l : list string) : list string * bool :=
  match l with
  | [] => (kept, slash)
  | e :: l =>
      if String.eqb e "" || String.eqb e "." then normalize absolute kept true l
      else if String.eqb e ".." then
        match kept with
        | k :: kept' => if String.eqb k ".." then normalize absolute (e :: kept) false l
                        else normalize absolute kept' true l
        | [] => if absolute then normalize absolute [] true l else normalize absolute [e] false l
        end
      else normalize absolute (e :: kept) false l
  end.
Definition lexically_normal (path : string) : bool * list string :=
  let absolute := has_root_directory path in
  let '(kept, slash) := normalize absolute [] false (path_elements path) in
  (absolute,
   match kept with
   | [] => if absolute || String.eqb path "" then [] else ["."]
   | k :: _ => rev kept ++ (if slash && negb (String.eqb k "..") then [""] else [])
   end).

(** ** What a root without a manifest says *)

Definition toupper (c : ascii) : ascii := if is_lower c then ascii_of_N (code c - 32) else c.
Fixpoint capitalize_words (capitalize : bool) (l : bytes) : bytes :=
  match l with
  | [] => []
  | c :: l =>
      if is_space c then c :: capitalize_words true l
      else (if capitalize then toupper c else tolower c) :: capitalize_words false l
  end.
Definition derive_project_name_from_root (root : string) : string :=
  if String.eqb (filename root) "" then "Project"
  else string_of (capitalize_words true
         (map (fun c => if Ascii.eqb c "-" || Ascii.eqb c "_" then " "%char else c) (bytes_of (filename root)))).

(** The database and the directories by their path. *)
Record Recovery := mkRecovery { rv_db : Db; rv_root : string -> World }.
Definition at_root {A} (root : string) (m : IO A) : M Recovery A :=
  fun s => let '(r, w) := m (rv_root s root) in
           (r, mkRecovery (rv_db s) (fun p => if String.eqb p root then w else rv_root s p)).
Definition in_rows {A} (m : Repo A) : M Recovery A :=
  fun s => let '(r, db) := m (rv_db s) in (r, mkRecovery db (rv_root s)).
(** An operation of the card store in the directory of a project. *)
Definition at_store {A} (root : string) (m : M Store A) : M Recovery A :=
  fun s => let '(r, t) := m (mkStore (rv_root s root) (rv_db s) None) in
           (r, mkRecovery (st_db t) (fun p => if String.eqb p root then st_world t else rv_root s p)).

Section Recovery.
Context {E : SqlEngine} {Y : Yaml} {L : LibGit2} {J : MsgPack} {V : Privacy} {D : Directory} {N : JsonLib}.
Context (md_parse : bytes -> list TagExtractor.MdEvent).
(** The clock and the bytes of a new id. *)
Context (now : Z) (new_id : result string).

Definition plain_without_key (p : Project) : Project :=
  mkProject (project_id p) (project_name p) (root_path p) (git_remote_url p) (git_provider p) "plain" None
    (id_scheme p) (project_created_at p) (project_updated_at p).
Definition privacy_type_error : error := Runtime "[json.exception.type_error]".
(** [body.value("mode", std::string("plain"))] *)
Definition mode_of (body : Json) : result string :=
  match body with
  | JObject l => match find_member "mode" l with
                 | Some v => get_string v
                 | None => Ok "plain"
                 end
  | _ => Err privacy_type_error
  end.
Definition load_privacy_metadata (root : string) (project : Project) : M Recovery Project :=
  let* found := at_root root (fs_exists (Work kProjectBootstrapPath)) in
  if negb found then mret (plain_without_key project)
  else
    let* text := at_root root (read_file kProjectBootstrapPath) in
    let* body := lift (json_parse text) in
    let* mode := lift (mode_of body) in
    let id := match string_member "project_id" body with
              | Some id => if String.eqb id "" then project_id project else id
              | None => project_id project
              end in
    mret (mkProject id (project_name project) (root_path project) (git_remote_url project) (git_provider project)
            mode (string_member "key_id" body) (id_scheme project) (project_created_at project)
            (project_updated_at project)).

(** A project that was made before there were manifests. *)
Definition legacy_project (root : string) : M Recovery Project :=
  let* project := load_privacy_metadata root
    (mkProject "" (derive_project_name_from_root root) root None None "encrypted_git" None Uuid4 now now) in
  if String.eqb (project_id project) "" then
    let* id := lift new_id in
    mret (mkProject id (project_name project) (root_path project) (git_remote_url project) (git_provider project)
            (privacy_mode project) (project_key_id project) (id_scheme project) (project_created_at project)
            (project_updated_at project))
  else mret project.

(** Which project a root holds; [None] if it has its row already. *)
Definition identify (require_durable_manifest : bool) (root : string) : M Recovery (option Project) :=
  let* found := at_root root has_project_manifest in
  let* project :=
    (if found then at_root root (read_project_manifest root)
     else if require_durable_manifest then throw (Runtime ("project has no durable manifest: " +:+ root))
     else legacy_project root) in
  let* existing := gets (fun s => ProjectRepo.get (rv_db s) (project_id project)) in
  match existing with
  | Some existing =>
      if bool_decide (lexically_normal (root_path existing) = lexically_normal root) then mret None
      else throw (Runtime ("duplicate project_id discovered at different roots: " +:+ project_id project))
  | None => mret (Some project)
  end.

(** [catch (const std::exception& ex)]; [created] is the project whose row this round made. *)
Definition guarded (require_durable_manifest : bool) (created : option Project) (m : M Recovery (option Project))
  : M Recovery (option Project) :=
  try_catch m (fun e =>
    match created with
    | Some project => in_rows (ProjectRepo.remove (project_id project))
    | None => mret tt
    end ;;;
    if require_durable_manifest then throw e else mret None).

(** One round of the loop: the project that was recovered, if any. *)
Definition recover_root (require_durable_manifest : bool) (root : string) : M Recovery (option Project) :=
  let* found := guarded require_durable_manifest None (
    let* found := identify require_durable_manifest root in
    match found with
    | Some project => in_rows (ProjectRepo.create project) ;;; mret (Some project)
    | None => mret None
    end) in
  match found with
  | None => mret None
  | Some project => guarded require_durable_manifest (Some project)
      (at_store root (Rebuilder.rebuild_project md_parse project) ;;; mret (Some project))
  end.

Fixpoint recover_all (require_durable_manifest : bool) (roots : list string) : M Recovery (list Project) :=
  match roots with
  | [] => mret []
  | root :: roots =>
      let* p := recover_root require_durable_manifest root in
      let* ps := recover_all require_durable_manifest roots in
      mret (match p with Some p => p :: ps | None => ps end)
  end.
Definition recover_project_roots (require_durable_manifest : bool) (roots : list string) : M Recovery (list Project) :=
  recover_all require_durable_manifest (drop_repeats (sort_by path_less roots)).

End Recovery.
End StartupRecovery.
