(* ===== verification/StartupRecoveryTheorems.v ===== *)
(** * A project whose row was lost is found again *)

From stdpp Require Import base list sets strings numbers gmap.
From Stdlib Require Import Ascii.
From S2P Require Import Prelude Double Model Text Tags Database CardRepo LinkRepo ProjectRepo ResourceFacts Uuid CardFrontMatter Json ReferenceJson.
From S2P Require Import Disk Runs Mutation Privacy CardChanges ResourceManifest ResourceRepo LocationRepo RebuildResources RebuildReads RebuildManifests.
From S2P Require Import Rebuild RebuildFacts RebuildFiles GitRuns ReferenceGit ReferenceYaml ProjectManifest ProjectStoreFacts StartupRecovery.
Import Disk DiskFacts Runs CardMutation CardFrontMatter Json ProjectManifest ProjectManifestFacts ProjectStoreFacts CardStoreChanges.
Import ProjectRepoFacts Rebuilder RebuildFacts RebuildFiles RebuildReads RebuildResources RebuildFilesTheorems RebuildFilesFacts.
Import ManifestRows ManifestFiles ProjectPrivacy StartupRecovery RebuildResources.RebuildFiles.

Module StartupRecoveryFacts.

(** Nothing of a new project is in the index. *)
Lemma nothing_to_empty db project : db_wf db -> ResourceFacts.resources_wf db ->
  project_exists (project_id project) db = false ->
  emptied project (with_row db project) = Some (with_row db project).
Proof.
  intros W R Hi. set (i := project_id project) in *. pose proof W as [_ _ C [_ L2] _ W6 _ W8 _ W10].
  unfold emptied. fold i.
  assert (delete_cards_row i (delete_links_row i (with_row db project)) = with_row db project) as ->.
  { assert (forall c, gone_card i db c = false) as Hg by (intros c; apply nothing_gone; [apply W|done]). unfold gone_card in Hg.
    unfold delete_cards_row, delete_links_row.
    cbn [with_row set_card_links set_projects projects cards card_links card_tags milestones project_sync_state resource_tables].
    rewrite (filter_nobody _ (cards db)) by (intros c Hc; apply (not_project db); [done|by apply C]).
    rewrite (orphan_nobody db W) by done.
    rewrite filter_nobody by (intros l Hl; apply (not_project db); [done|by apply L2]).
    rewrite !filter_nobody by (intros t Ht; apply Hg). by destruct db. }
  unfold ResourceRepo.on_resources. change (resource_tables (with_row db project)) with (resource_tables db).
  destruct R as [_ R2 _ _ _ _ _ _ _ _ _ _ _ _ R15].
  rewrite no_resources_deleted by (intros r Hr; apply (not_project db); [done|by apply R2]).
  unfold LocationRepo.delete_locations. cbn [set_resource_tables resource_tables].
  rewrite no_locations_deleted by (intros r Hr; apply (not_project db); [done|by apply R15]).
  done.
Qed.

(** ** One call in one directory *)

Lemma at_root_runs {A} root (m : IO A) s a : calm (rv_root s root) ->
  runs m (rv_root s root) (fun b w => b = a /\ disk w = disk (rv_root s root)) ->
  exists s', at_root root m s = (Ok a, s') /\ rv_db s' = rv_db s /\ calm (rv_root s' root) /\
    disk (rv_root s' root) = disk (rv_root s root) /\ forall q, q <> root -> rv_root s' q = rv_root s q.
Proof.
  intros Hc H. destruct (H Hc) as (b & w & He & Hc' & -> & Hd). unfold at_root. rewrite He. eexists. split; [done|]. cbn.
  rewrite String.eqb_refl. do 3 (split; [done|]). intros q Hq. by rewrite (proj2 (String.eqb_neq _ _) Hq).
Qed.

Section Round.
Context {E : SqlEngine} `{!SqlEngineLaws E} {Y : Yaml} {L : LibGit2} {J : MsgPack} {V : Privacy} `{!PrivacyLaws V}.
Context {D : Directory} `{!DirectoryLaws D} {N : JsonLib} `{!JsonLaws N} (md_parse : bytes -> list TagExtractor.MdEvent).
Context (now : Z) (new_id : result string).

(** What a directory holds of a project: its manifest, its cards and its resources. *)
Record holds_project (p : Project) (rs : list CardRecord) (ls : list Location) (bs : list ResourceBundle) (w : World) : Prop := {
  hp_calm : calm w;
  hp_settled : journal_file (disk w) = None;
  hp_describable : describable p;
  hp_manifest : exists text boot raw, json_dump (Some 2%nat) (manifest_json p) = Ok text /\
    render_project_bootstrap p = Ok boot /\ written p (text +:+ lf) raw /\
    work (disk w) !! kProjectBootstrapPath = Some boot /\ work (disk w) !! kProjectManifestPath = Some raw;
  hp_cards : files_of p rs (disk w);
  hp_resources : manifests_of p ls bs (disk w)
}.

(** Same directories, one of them perhaps read. *)
Definition only_read (root : string) (s s' : Recovery) : Prop :=
  disk (rv_root s' root) = disk (rv_root s root) /\ forall q, q <> root -> rv_root s' q = rv_root s q.
Lemma only_read_trans root s1 s2 s3 : only_read root s1 s2 -> only_read root s2 s3 -> only_read root s1 s3.
Proof. intros [H1 H2] [H3 H4]. split; [congruence|]. intros q Hq. rewrite H4, H2; done. Qed.

Lemma identified require root p rs ls bs s :
  holds_project p rs ls bs (rv_root s root) -> root_path p = root ->
  exists s', rv_db s' = rv_db s /\ calm (rv_root s' root) /\ only_read root s s' /\
    identify now new_id require root s =
    match ProjectRepo.get (rv_db s) (project_id p) with
    | Some old => if bool_decide (lexically_normal (root_path old) = lexically_normal root) then (Ok None, s')
                  else (Err (Runtime ("duplicate project_id discovered at different roots: " +:+ project_id p)), s')
    | None => (Ok (Some p), s')
    end.
Proof.
  intros [Hc _ Hd (text & boot & raw & Ht & Hb & Hw & H1 & H2) _ _] Hroot. unfold identify.
  destruct (at_root_runs root has_project_manifest s true Hc) as (s1 & He1 & Hdb1 & Hc1 & Hd1 & Ho1).
  { apply runs_attempt, runs_gets. cbn. by rewrite H1, H2. }
  destruct (at_root_runs root (read_project_manifest root) s1 p Hc1) as (s2 & He2 & Hdb2 & Hc2 & Hd2 & Ho2).
  { rewrite <- Hroot at 1. eapply (runs_read_manifest p text boot raw); try done; by rewrite Hd1. }
  exists s2. split; [congruence|]. split; [done|]. split; [by apply (only_read_trans root s s1 s2)|].
  unfold bind at 1. rewrite He1. unfold bind at 1. rewrite He2. unfold bind, gets. rewrite Hdb2, Hdb1.
  destruct (ProjectRepo.get (rv_db s) (project_id p)) as [old|]; [|done]. by destruct (bool_decide _).
Qed.

(** What is left of an exception when the loop may go on. *)
Definition refused (require : bool) (e : error) : result (option Project) := if require then Err e else Ok None.

Lemma removed_again p db s : db_wf db -> ResourceFacts.resources_wf db -> project_exists (project_id p) db = false ->
  bind_text (project_id p) = project_id p -> rv_db s = with_row db p ->
  in_rows (ProjectRepo.remove (project_id p)) s = (Ok tt, mkRecovery db (rv_root s)).
Proof.
  intros W R Hn Hb Hdb. unfold in_rows, ProjectRepo.remove, exec. rewrite Hdb, Hb. by rewrite row_removed.
Qed.
End Round.
(** Files outside of the directories of cards and manifests do not matter. *)
Definition no_record (path : string) : Prop :=
  in_directory "cards" ".md" path = false /\ in_directory "trash/cards" ".md" path = false /\
  in_directory "locations" ".json" path = false /\ in_directory "resources" ".json" path = false.
Section Beside.
Context {Y : Yaml} {V : Privacy} {N : JsonLib}.
Lemma files_beside project rs d d' k v : work d' = <[k := v]> (work d) -> work d !! k = None -> no_record k ->
  files_of project rs d -> files_of project rs d'.
Proof.
  intros Hw Hk (Hn1 & Hn2 & _) [H1 H2 H3]. split; [done| |].
  - intros r Hr. destruct (H2 r Hr) as (path & raw & Hp & Hf & Ht). exists path, raw. split; [done|]. split; [|done].
    rewrite Hw, lookup_insert_ne; [done|]. by intros ->; rewrite Hk in Hf.
  - intros path Hf Hd. apply H3; [|done]. rewrite Hw in Hf. destruct (decide (path = k)) as [->|Hne].
    + by rewrite Hn1, Hn2 in Hd.
    + by rewrite lookup_insert_ne in Hf.
Qed.
Lemma manifests_beside project ls bs d d' k v : work d' = <[k := v]> (work d) -> work d !! k = None -> no_record k ->
  manifests_of project ls bs d -> manifests_of project ls bs d'.
Proof.
  intros Hw Hk (_ & _ & Hn1 & Hn2) [H1 H2 H3 H4 H5 H6 H7 H8 H9 H10].
  assert (forall path, path <> k -> work d' !! path = work d !! path) as Hl by (intros; rewrite Hw; by apply lookup_insert_ne).
  assert (forall rel text, file_holds project d rel text -> file_holds project d' rel text) as Hfile.
  { intros rel text (path & t & raw & Hp & Ht & Hf & Hwr). exists path, t, raw. do 2 (split; [done|]). split; [|done].
    rewrite Hl; [done|]. by intros ->; rewrite Hk in Hf. }
  split; try done.
  - intros l Hin. destruct (H1 l Hin) as (? & ? & ? & ?). auto.
  - intros b Hin. destruct (H2 b Hin) as (? & ? & ? & ? & ?). auto 6.
  - intros path Hf Hd. apply H3; [|done]. rewrite <- Hl; [done|]. intros ->. by rewrite Hn1 in Hd.
  - intros path Hf Hd. apply H4; [|done]. rewrite <- Hl; [done|]. intros ->. by rewrite Hn2 in Hd.
Qed.
End Beside.

End StartupRecoveryFacts.

Module StartupRecoveryTheorems.
Import StartupRecoveryFacts.

(** C4: A project whose row was lost comes back from its directory. Of a directory that holds
    the manifest, the cards and the resources of a project, a round of the recovery makes the
    project's row as the manifest says, and rows for exactly its cards, tags, milestones,
    links and resources; rows of other projects stay. If the project has its row already, at
    this root, nothing happens; at another root, or when some parents do not lead to a root,
    the round is refused, which ends the recovery only if manifests are required, and the
    tables are as before. No file is changed. *)
Theorem lost_project_comes_back (E : SqlEngine) (Y : Yaml) (L : LibGit2) (J : MsgPack) (V : Privacy) (D : Directory)
    (N : JsonLib) (md_parse : bytes -> list TagExtractor.MdEvent) (now : Z) (new_id : result string) (require : bool)
    (root : string) (p : Project) (rs : list CardRecord) (ls : list Location) (bs : list ResourceBundle) (s : Recovery) :
  SqlEngineLaws E -> PrivacyLaws V -> DirectoryLaws D -> JsonLaws N ->
  holds_project p rs ls bs (rv_root s root) -> root_path p = root -> ProjectRepo.bind_project p = p ->
  db_wf (rv_db s) -> ResourceFacts.resources_wf (rv_db s) ->
  insertable (project_id p) rs (with_row (rv_db s) p) -> indexable ls bs (with_row (rv_db s) p) ->
  let '(r, s') := recover_root md_parse now new_id require root s in
  only_read root s s' /\
  match ProjectRepo.get (rv_db s) (project_id p) with
  | Some old => rv_db s' = rv_db s /\
      r = (if bool_decide (lexically_normal (root_path old) = lexically_normal root) then Ok None
           else refused require (Runtime ("duplicate project_id discovered at different roots: " +:+ project_id p)))
  | None => (r = Ok (Some p) /\ rebuilt md_parse rs ls bs (with_row (rv_db s) p) (rv_db s')) \/
      ((exists x, x ∈ rs /\ ~ resolved rs x) /\ rv_db s' = rv_db s /\ r = refused require unresolved_parent)
  end.
Proof.
  intros HE HP HD HN Hh Hroot Hb W R I Im. unfold recover_root. unfold bind at 1.
  pose proof (f_equal project_id Hb) as Hbi. cbn in Hbi. pose proof (f_equal privacy_mode Hb) as Hbm. cbn in Hbm.
  destruct (identified now new_id require root p rs ls bs s Hh Hroot) as (s1 & Hdb1 & Hc1 & Ho1 & He).
  unfold guarded at 1, try_catch at 1. unfold bind at 1. rewrite He.
  destruct (ProjectRepo.get (rv_db s) (project_id p)) as [old|] eqn:Hg.
  - destruct (bool_decide _); [by split|]. unfold bind at 1. cbn [mret]. unfold refused. by destruct require.
  - assert (project_exists (project_id p) (rv_db s) = false) as Hn.
    { apply not_true_iff_false. rewrite project_exists_spec, elem_of_map_id. intros (q & Hq & Hi).
      pose proof (proj1 (get_project_None (rv_db s) (project_id p)) Hg q Hq). congruence. }
    assert (privacy_mode_ok_p : ProjectRepo.privacy_mode_ok (privacy_mode p) = true)
      by (by destruct (ds_mode _ (hp_describable _ _ _ _ _ Hh)) as [-> | ->]).
    assert (in_rows (ProjectRepo.create p) s1 = (Ok tt, mkRecovery (with_row (rv_db s) p) (rv_root s1))) as Hcreate.
    { unfold in_rows, ProjectRepo.create, exec, ProjectRepo.insert_project. rewrite Hb, Hdb1, Hn, privacy_mode_ok_p. done. }
    unfold bind at 1. rewrite Hcreate. unfold mret at 1. unfold guarded, try_catch, bind at 1, at_store. cbn [rv_db rv_root].
    destruct Ho1 as [Hd1 Hq1]. destruct Hh as [_ Hj _ _ Hf Hm].
    destruct (rebuild_run md_parse p rs ls bs (rv_root s1 root) (with_row (rv_db s) p) (with_row (rv_db s) p))
      as (w' & Hd & [(db' & -> & Hr)|[-> Hx]]); rewrite ?Hd1; try done.
    + apply (db_wf_insert_project p (rv_db s)); [|done]. unfold ProjectRepo.insert_project. by rewrite Hn, privacy_mode_ok_p.
    + by apply nothing_to_empty.
    + cbn [st_db st_world rv_db rv_root]. split; [|by left]. split; cbn.
      * rewrite String.eqb_refl. congruence.
      * intros q Hq. rewrite (proj2 (String.eqb_neq _ _) Hq). by apply Hq1.
    + unfold bind. cbn [st_db st_world]. rewrite (removed_again p (rv_db s)) by done. unfold refused.
      assert (only_read root s (mkRecovery (rv_db s) (fun q => if String.eqb q root then w' else rv_root s1 q))) as Hor.
      { split; cbn; [rewrite String.eqb_refl; congruence|]. intros q Hq.
        rewrite (proj2 (String.eqb_neq _ _) Hq). by apply Hq1. }
      destruct require; cbn; (split; [exact Hor|]); right; auto.
Qed.

(** ** The database of the notes is lost *)
Import ReferenceYaml ReferenceGit ReferenceJson.


Definition notes_text : string := text_of (json_dump (JsonLib := reference_json) (Some 2%nat) (manifest_json notes)).
Definition notes_bootstrap : string := text_of (render_project_bootstrap (N := reference_json) notes).
Definition with_file (k v : string) (d : Disk) : Disk := poke (Work k) (Some v) d.
Definition notes_disk : Disk :=
  with_file kProjectManifestPath (blob_header +:+ (notes_text +:+ lf))
    (with_file kProjectBootstrapPath notes_bootstrap (disk notes_world)).
Definition lost : Recovery :=
  mkRecovery (core_db [] [] [] [] [] []) (fun _ => mkWorld notes_disk None (fun _ => Works) 0).

Lemma notes_held : holds_project (N := reference_json) (V := reference_privacy) notes [plan; step] [shelf] [scan] (rv_root lost "/p").
Proof.
  assert (no_record kProjectBootstrapPath /\ no_record kProjectManifestPath) as [Hn1 Hn2] by done.
  split; [done|done| | | |].
  - split; try done. by right.
  - exists notes_text, notes_bootstrap, (blob_header +:+ (notes_text +:+ lf)).
    split; [apply renders; by vm_compute|]. split; [apply renders; by vm_compute|]. split; [by exists 0%nat, "k"|]. split; reflexivity.
  - apply (files_beside _ _ (with_file kProjectBootstrapPath notes_bootstrap (disk notes_world)) _ kProjectManifestPath
      (blob_header +:+ (notes_text +:+ lf))); [reflexivity|reflexivity|done|].
    apply (files_beside _ _ (disk notes_world) _ kProjectBootstrapPath notes_bootstrap); [reflexivity|reflexivity|done|].
    exact notes_files_of.
  - apply (manifests_beside _ _ _ (with_file kProjectBootstrapPath notes_bootstrap (disk notes_world)) _ kProjectManifestPath
      (blob_header +:+ (notes_text +:+ lf))); [reflexivity|reflexivity|done|].
    apply (manifests_beside _ _ _ (disk notes_world) _ kProjectBootstrapPath notes_bootstrap); [reflexivity|reflexivity|done|].
    exact notes_manifests_of.
Qed.

Example lost_project_comes_back_witness :
  exists s', @recover_root reference_engine reference_yaml reference_git reference_msgpack reference_privacy listing reference_json
      no_tags 9 (Ok "new") true "/p" lost = (Ok (Some notes), s') /\
    projects (rv_db s') = [notes] /\ cards (rv_db s') ≡ₚ [rec_card plan; rec_card step].
Proof.
  pose proof (lost_project_comes_back reference_engine reference_yaml reference_git reference_msgpack reference_privacy listing
    reference_json no_tags 9 (Ok "new") true "/p" notes [plan; step] [shelf] [scan] lost
    _ _ listing_laws _ notes_held eq_refl eq_refl empty_wf (ResourceFacts.no_resources_wf _) notes_insertable notes_indexable) as H.
  destruct (recover_root _ _ _ _ _ _) as [r s']. exists s'. destruct H as [_ [[-> H]|[(x & Hx & Hn) _]]].
  - destruct H as (_ & Hp & _ & Hc & _). split; [done|]. split; [exact Hp|exact Hc].
  - exfalso. apply Hn.
    assert (resolved [plan; step] plan) as Hp by (apply resolved_root; [left|reflexivity]).
    each Hx; [exact Hp|]. apply (resolved_child _ _ plan); [right; left|reflexivity|exact Hp].
Defined.

Example names_of_roots :
  derive_project_name_from_root "/home/me/my-reading_LIST" = "My Reading List" /\
  bool_decide (lexically_normal "/a/./b/../c" = lexically_normal "/a//c") = true /\
  bool_decide (lexically_normal "/a/c/" = lexically_normal "/a/c") = false.
Proof. vm_compute. auto. Qed.

End StartupRecoveryTheorems.
