(* ===== verification/DatabaseRebuild.v ===== *)
(** * Replacing the database by one made from the files

    [src/src/platform/DatabaseRebuild.cpp]: the health of a database file, the audit that
    everything in a database has its file, and the reconstruction: a new database is made
    beside the old one by the recovery of all projects, checked, and put in its place, the
    old one kept as a backup. The tables are those of this library: conversations and the
    full-text index, and what the audit asks of them, are left out. *)

From stdpp Require Import base list sets strings numbers gmap pretty.
From Stdlib Require Import Ascii.
From S2P Require Import Prelude Double Model Text Tags Database CardRepo ProjectRepo Uuid CardFrontMatter Json ReferenceJson Disk.
From S2P Require Import Mutation Privacy CardChanges ResourceManifest RebuildResources ProjectManifest ProjectPaths StartupRecovery.
Import Disk CardMutation CardPaths CardFrontMatter Json ResourceManifest ProjectManifest ProjectPaths StartupRecovery.

(** What opening a file and [PRAGMA quick_check] answer of bytes that need not be a database:
    the codes and texts that [inspect_database_health] looks at. *)
Inductive CheckAnswer :=
  | OpenFails (code : Z) (message : string)
  | PrepareFails (code : Z) (message : string)
  | Stepped (row : bool) (text : string) (step_rc code : Z) (message : string).
(** SQLite, beyond the tables: its checks of a database, the schema's version in it, and what
    running the text of a schema makes. *)
Class Sqlite := {
  quick_check : string -> CheckAnswer;
  integrity_check : Db -> string;
  foreign_key_violation : Db -> bool;
  read_schema_version : Db -> Z;
  run_schema : string -> Db -> result Db
}.

Module DatabaseRebuild.

(** ** The server's directory

    A file is a database, given by its tables, or other bytes. *)
Inductive File := Database (db : Db) | Bytes (s : string).
Record Area := mkArea {
  files : gmap string File;
  dirs : gset string;
  events : nat -> Outcome;
  clock : nat
}.
Definition with_files (f : gmap string File -> gmap string File) (a : Area) : Area :=
  mkArea (f (files a)) (dirs a) (events a) (clock a).
Definition pass (a : Area) : Area := mkArea (files a) (dirs a) (events a) (S (clock a)).
(** A call that has its effect or throws without it. *)
Definition call {A} (what : string) (op : M Area A) : M Area A :=
  fun a => match events a (clock a) with
           | Throws _ => (Err (Runtime what), pass a)
           | _ => op (pass a)
           end.

Definition exists_file (path : string) : M Area bool :=
  call "exists" (gets (fun a => bool_decide (is_Some (files a !! path)) || bool_decide (path ∈ dirs a))).
Definition is_regular (path : string) : M Area bool :=
  call "is_regular_file" (gets (fun a => bool_decide (is_Some (files a !! path)))).
Definition rename_file (from to : string) : M Area unit :=
  call "rename" (fun a =>
    match files a !! from with
    | None => (Err (Runtime "rename"), a)
    | Some c => (Ok tt, with_files (fun m => <[to := c]> (delete from m)) a)
    end).
Definition remove_file (path : string) : M Area unit := call "remove" (modify (with_files (delete path))).
Definition put_file (path : string) (c : File) : M Area unit := call "write" (modify (with_files <[path := c]>)).
Definition make_dirs (dir : string) : M Area unit :=
  call "create_directories" (modify (fun a => mkArea (files a) (dirs a ∪ {[dir]}) (events a) (clock a))).
(** A stream that is flushed and whose state is looked at. *)
Definition write_text (what path text : string) : M Area unit :=
  fun a => match events a (clock a) with
           | Works => (Ok tt, with_files <[path := Bytes text]> (pass a))
           | Short s | Throws (Some s) => (Err (Runtime what), with_files <[path := Bytes s]> (pass a))
           | Throws None => (Err (Runtime what), pass a)
           end.
(** A database is not the text of a JSON value. *)
Definition read_text (path : string) : M Area string :=
  call "read" (fun a => match files a !! path with
                        | Some (Bytes s) => (Ok s, a)
                        | _ => (Err (Runtime "[json.exception.parse_error]"), a)
                        end).
(** [remove(path, ignored)] *)
Definition remove_ignoring (path : string) : M Area unit := try_catch (remove_file path) (fun _ => mret tt).

(** ** Health *)

Inductive DatabaseHealth := Missing | Healthy | Corrupt | IoError.
#[export] Instance database_health_eq_dec : EqDecision DatabaseHealth.
Proof. solve_decision. Defined.
Record DatabaseHealthResult := mkHealth { health : DatabaseHealth; detail : string }.

(** [SQLITE_ERROR], [SQLITE_CORRUPT], [SQLITE_FORMAT], [SQLITE_NOTADB] *)
Definition is_sqlite_corruption_failure (code : Z) : bool :=
  existsb (Z.eqb (Z.land code 255)) [1; 11; 24; 26].
Definition health_name (h : DatabaseHealth) : string :=
  match h with Missing => "missing" | Healthy => "healthy" | Corrupt => "corrupt" | IoError => "io_error" end.
Definition or_text (a b : string) : string := if String.eqb a "" then b else a.

Definition judge (answer : CheckAnswer) : DatabaseHealthResult :=
  match answer with
  | OpenFails code message => mkHealth (if Z.eqb code 11 || Z.eqb code 26 then Corrupt else IoError) message
  | PrepareFails code message => mkHealth (if is_sqlite_corruption_failure code then Corrupt else IoError) message
  | Stepped row text step_rc code message =>
      if row && String.eqb text "ok" then mkHealth Healthy "ok"
      else if negb (String.eqb text "") || is_sqlite_corruption_failure code || is_sqlite_corruption_failure step_rc
      then mkHealth Corrupt (or_text text (or_text message "quick_check failed"))
      else mkHealth IoError (or_text message "quick_check could not complete")
  end.

(** ** The request and the report *)

Record DatabaseRebuildHooks := mkHooks {
  audit_existing : option (Repo unit);
  restore_before_projects : option (Repo unit);
  restore_after_projects : option (Repo unit);
  validate_rebuilt : option (Repo unit)
}.
Record DatabaseRebuildRequest := mkRebuildRequest {
  database_path : string;
  backup_root : string;
  schema_sql : string;
  expected_schema_version : Z;
  project_roots : list string;
  required_authorities : list (string * string);
  durable_ownership_ready : bool;
  dry_run : bool;
  hooks : DatabaseRebuildHooks
}.
Record DatabaseRebuildReport := mkReport {
  rp_dry_run : bool;
  rp_previous_health : string;
  rp_counts : list (string * Z);
  rp_quarantined_cards : nat;
  rp_backup_path : option string
}.

(** The counted tables; those of conversations are not in the model. *)
Definition durable_counts (db : Db) : list (string * Z) :=
  let rt := resource_tables db in
  [("asset_placements", Z.of_nat (length (asset_placements rt)));
   ("assets", Z.of_nat (length (assets rt)));
   ("card_links", Z.of_nat (length (card_links db)));
   ("cards", Z.of_nat (length (cards db)));
   ("milestones", Z.of_nat (length (milestones db)));
   ("projects", Z.of_nat (length (projects db)));
   ("resource_metadata", Z.of_nat (length (resource_metadata rt)));
   ("resources", Z.of_nat (length (resources rt)));
   ("storage_locations", Z.of_nat (length (storage_locations rt)))].

(** ** Paths *)

Definition join_with (sep : string) (l : list string) : string :=
  match l with [] => "" | x :: l => foldl (fun s y => s +:+ sep +:+ y) x l end.
(** [path.parent_path()] of a path without repeated slashes *)
Definition parent_path (path : string) : string :=
  let up := join_with "/" (take (pred (length (components "" path))) (components "" path)) in
  if String.eqb up "" && has_root_directory path then "/" else up.
Definition temporary_path (r : DatabaseRebuildRequest) : string := database_path r +:+ ".rebuild.tmp".
Definition quarantine_log_path (r : DatabaseRebuildRequest) : string :=
  child_path (parent_path (database_path r)) "quarantined-cards.json".
Definition backup_name (corrupt : bool) (timestamp : Z) (suffix : nat) : string :=
  (if corrupt then "quarantine-" else "backup-") +:+ pretty timestamp +:+
  (if Nat.eqb suffix 0 then "" else "-" +:+ pretty (N.of_nat suffix)).

(** The server's directory, the projects' directories, and the tables of the open
    connection; a file that is no database opens without tables. *)
Record Rebuilding := mkRebuilding { area : Area; roots : string -> World; connection : option Db }.
Definition in_area {A} (m : M Area A) : M Rebuilding A :=
  fun s => let '(r, a) := m (area s) in (r, mkRebuilding a (roots s) (connection s)).
Definition in_root {A} (root : string) (m : IO A) : M Rebuilding A :=
  fun s => let '(r, w) := m (roots s root) in
           (r, mkRebuilding (area s) (fun p => if String.eqb p root then w else roots s p) (connection s)).
Definition connect (db : option Db) : M Rebuilding unit := modify (fun s => mkRebuilding (area s) (roots s) db).
Definition tables (what : string) : M Rebuilding Db :=
  fun s => match connection s with Some db => (Ok db, s) | None => (Err (Runtime what), s) end.
(** Statements on the connection. *)
Definition on_connection {A} (m : Repo A) : M Rebuilding A :=
  fun s => match connection s with
           | Some db => let '(r, db') := m db in (r, mkRebuilding (area s) (roots s) (Some db'))
           | None => (Err (Runtime "sqlite exec failed"), s)
           end.
Definition recovering {A} (m : M Recovery A) : M Rebuilding A :=
  fun s => match connection s with
           | Some db => let '(r, t) := m (mkRecovery db (roots s)) in
                        (r, mkRebuilding (area s) (rv_root t) (Some (rv_db t)))
           | None => (Err (Runtime "sqlite exec failed"), s)
           end.
Definition run_hook (hook : option (Repo unit)) : M Rebuilding unit :=
  match hook with Some m => on_connection m | None => mret tt end.

Section Rebuild.
Context {E : SqlEngine} {Q : Sqlite} {Y : Yaml} {L : LibGit2} {J : MsgPack} {V : Privacy} {D : Directory} {N : JsonLib}.
Context (md_parse : bytes -> list TagExtractor.MdEvent).
(** The clock, the suffix of a temporary file's name, [weakly_canonical] (which may fail) and
    [is_directory]. *)
Context (now : Z) (unique_temp_suffix : string) (weakly_canonical : string -> option string) (is_directory : string -> bool).

Definition inspect_database_health (path : string) : M Area DatabaseHealthResult :=
  let* found := exists_file path in
  if negb found then mret (mkHealth Missing "database file is absent")
  else fun a =>
    let answer :=
      match events a (clock a), files a !! path with
      | Throws _, _ => OpenFails 10 "disk I/O error"
      | _, Some (Database _) => Stepped true "ok" 100 0 "not an error"
      | _, Some (Bytes s) => quick_check s
      | _, None => OpenFails 14 "unable to open database file"
      end in
    (Ok (judge answer), pass a).

Definition normalized_roots (l : list string) : list string :=
  drop_repeats (sort_by path_less (map (fun root => default root (weakly_canonical root)) l)).

(** [Db::open] *)
Definition open_database (path : string) : M Rebuilding unit :=
  let* file := in_area (call "sqlite open failed" (gets (fun a => files a !! path))) in
  match file with
  | Some (Database db) => connect (Some db)
  | Some (Bytes _) => connect None
  | None => in_area (put_file path (Database (core_db [] [] [] [] [] []))) ;;; connect (Some (core_db [] [] [] [] [] []))
  end.
(** What the open connection has done is in its file. *)
Definition save (path : string) : M Rebuilding unit :=
  fun s => match connection s with
           | Some db => in_area (put_file path (Database db)) s
           | None => (Ok tt, s)
           end.

(** ** The audit *)

Definition regular_in_root (root rel : string) : M Rebuilding bool :=
  in_root root (attempt "is_regular_file" (gets (fun w => bool_decide (is_Some (work (disk w) !! rel))))).
(** [require_file_rows], and the loops like it *)
Fixpoint require_files (what : string) (l : list (string * result string)) : M Rebuilding unit :=
  match l with
  | [] => mret tt
  | (root, rel) :: l =>
      let* rel := lift rel in
      let* found := regular_in_root root rel in
      when (negb found) (throw (Runtime what)) ;;;
      require_files what l
  end.

(** [SELECT ... FROM t JOIN projects p USING(project_id)] *)
Definition with_roots {A} (project_of : A -> string) (db : Db) (l : list A) : list (string * A) :=
  flat_map (fun x => map (fun p => (root_path p, x))
                       (list_filter (fun p => String.eqb (project_id p) (project_of x)) (projects db)))
    (sql_select (fun _ => true) cmp_true l).

Definition expected_path (c : Card) : result string :=
  if card_deleted c then card_trash_rel_path (card_id c) else card_rel_path (card_id c).
Fixpoint missing_cards (l : list (string * Card)) : M Rebuilding (list Card) :=
  match l with
  | [] => mret []
  | (root, c) :: l =>
      let* rel := lift (expected_path c) in
      let* found := regular_in_root root rel in
      let* rest := missing_cards l in
      mret (if found : bool then rest else c :: rest)
  end.
Definition log_entry (c : Card) : Json :=
  object [("card_id", JString (card_id c)); ("project_id", JString (card_project_id c));
          ("title", JString (title c)); ("was_trashed", JBool (card_deleted c)); ("quarantined_at", JInt now)].

Definition append_quarantine_log (path : string) (new_entries : list Json) : M Area unit :=
  if bool_decide (new_entries = []) then mret tt
  else
    let* there := is_regular path in
    let* existing :=
      (if there : bool then
         try_catch (let* text := read_text path in
                    let* parsed := lift (json_parse text) in
                    mret (match parsed with JArray l => l | _ => [] end)) (fun _ => mret [])
       else mret []) in
    make_dirs (parent_path path) ;;;
    let temporary := path +:+ ".tmp" +:+ unique_temp_suffix in
    write_text "failed to write quarantine log" temporary "" ;;;
    let* text := lift (json_dump (Some 2%nat) (JArray (existing ++ new_entries))) in
    write_text "failed to flush quarantine log" temporary (text +:+ lf) ;;;
    try_catch (rename_file temporary path)
      (fun _ => remove_file temporary ;;; throw (Runtime "failed to replace quarantine log")).

(** ** Readiness

    The marker says that everything durable has left the database. *)

(** [body.value(key, 0)] *)
Definition value_of (key : string) (body : Json) : result Z :=
  match body with
  | JObject l => match find_member key l with Some v => get_int v | None => Ok 0 end
  | _ => Err type_error
  end.
Definition kReadinessVersion : Z := 1.
Definition database_rebuild_is_ready (readiness_path : string) : M Area bool :=
  let* there := is_regular readiness_path in
  if negb there then mret false
  else try_catch (
    let* text := read_text readiness_path in
    let* body := lift (json_parse text) in
    let* version := lift (value_of "version" body) in
    if Z.eqb version kReadinessVersion
    then let* generation := lift (value_of "durable_owner_generation" body) in mret (Z.eqb generation 1)
    else mret false) (fun _ => mret false).
Definition readiness : Json := object [("version", JInt kReadinessVersion); ("durable_owner_generation", JInt 1)].
Definition mark_database_rebuild_ready (readiness_path : string) : M Area unit :=
  make_dirs (parent_path readiness_path) ;;;
  let temporary := readiness_path +:+ ".tmp" +:+ unique_temp_suffix in
  write_text "failed to write database rebuild readiness marker" temporary "" ;;;
  let* text := lift (json_dump (Some 2%nat) readiness) in
  write_text "failed to flush database rebuild readiness marker" temporary (text +:+ lf) ;;;
  call "failed to restrict database rebuild readiness marker" (mret tt) ;;;
  try_catch (rename_file temporary readiness_path)
    (fun _ => remove_file temporary ;;; throw (Runtime "failed to replace database rebuild readiness marker")).

(** One [DELETE FROM cards WHERE card_id = ?], which SQLite commits by itself. *)
Definition quarantine_card (path : string) (c : Card) : M Rebuilding unit :=
  let* db := tables "prepare card quarantine delete failed" in
  in_area (put_file path (Database (delete_card_row (bind_text (card_id c)) db))) ;;;
  connect (Some (delete_card_row (bind_text (card_id c)) db)).

Definition quarantine_cards_with_missing_files (path log_path : string) : M Rebuilding nat :=
  let* db := tables "prepare durable ownership audit failed for card" in
  let* missing := missing_cards (with_roots card_project_id db (cards db)) in
  for_each missing (quarantine_card path) ;;;
  in_area (append_quarantine_log log_path (map log_entry missing)) ;;;
  mret (length missing).

(** The audit of the database at [path], which is open. *)
Definition audit_core_durable_ownership (path log_path : string) : M Rebuilding nat :=
  let* db := tables "prepare durable ownership audit failed for project metadata" in
  require_files "project metadata exists only in SQLite or has a missing durable file"
    (map (fun p => (root_path p, Ok kProjectBootstrapPath)) (projects db) ++
     map (fun p => (root_path p, Ok kProjectManifestPath)) (projects db)) ;;;
  let* quarantined := quarantine_cards_with_missing_files path log_path in
  require_files "Resource exists only in SQLite"
    (map (fun x => (x.1, resource_rel_path (rr_id x.2))) (with_roots rr_project_id db (resources (resource_tables db)))) ;;;
  require_files "storage Location exists only in SQLite"
    (map (fun x => (x.1, location_rel_path (lr_id x.2)))
       (with_roots lr_project_id db (storage_locations (resource_tables db)))) ;;;
  mret quarantined.

(** ** The replacement *)

Definition validate_database (expected_schema_version : Z) : M Rebuilding unit :=
  let* db := tables "database validation prepare failed" in
  when (negb (String.eqb (integrity_check db) "ok"))
    (throw (Runtime "database validation failed: PRAGMA integrity_check;")) ;;;
  when (foreign_key_violation db) (throw (Runtime "foreign key validation failed")) ;;;
  when (Z.ltb 0 expected_schema_version && negb (Z.eqb (read_schema_version db) expected_schema_version))
    (throw (Runtime ("Schema version mismatch. Expected " +:+ pretty expected_schema_version +:+ ", got " +:+
                     pretty (read_schema_version db)))).

Fixpoint check_authorities (l : list (string * string)) : M Area unit :=
  match l with
  | [] => mret tt
  | (label, path) :: l =>
      let* found := is_regular path in
      when (negb found) (throw (Runtime ("database recovery authority is missing its " +:+ label +:+ ": " +:+ path))) ;;;
      check_authorities l
  end.
Fixpoint check_roots (seen : list string) (l : list string) : M Rebuilding unit :=
  match l with
  | [] => mret tt
  | root :: l =>
      when (negb (is_directory root)) (throw (Runtime ("registered project root is unavailable: " +:+ root))) ;;;
      let* project := in_root root (read_project_manifest root) in
      when (bool_decide (project_id project ∈ seen))
        (throw (Runtime ("duplicate project_id in discovered roots: " +:+ project_id project))) ;;;
      check_roots (project_id project :: seen) l
  end.
Fixpoint check_stale (l : list string) : M Area unit :=
  match l with
  | [] => mret tt
  | path :: l =>
      let* found := exists_file path in
      when found (throw (Runtime ("stale rebuild temporary database exists: " +:+ path))) ;;;
      check_stale l
  end.
Definition with_sidecars (path : string) : list string := [path; path +:+ "-wal"; path +:+ "-shm"].
Definition discard (temporary : string) : M Rebuilding unit := in_area (for_each (with_sidecars temporary) remove_ignoring).

(** One round of [remove_rebuild_sidecars] *)
Definition remove_sidecar (path : string) : M Area unit :=
  try_catch (remove_file path) (fun _ => throw (Runtime ("failed to remove rebuild database sidecar " +:+ path))).

(** The connection of the new database, from its opening to its closing; its counts. Its
    journal mode leaves no trace in the tables. *)
Definition build (r : DatabaseRebuildRequest) (old_counts : option (list (string * Z))) : M Rebuilding (list (string * Z)) :=
  open_database (temporary_path r) ;;;
  let* db := tables "sqlite exec failed" in
  let* db := lift (run_schema (schema_sql r) db) in
  connect (Some db) ;;;
  run_hook (restore_before_projects (hooks r)) ;;;
  recovering (recover_project_roots md_parse now (Err (Runtime "unused-in-strict-recovery")) true (project_roots r)) ;;;
  run_hook (restore_after_projects (hooks r)) ;;;
  validate_database (expected_schema_version r) ;;;
  run_hook (validate_rebuilt (hooks r)) ;;;
  let* db := tables "failed to count projects" in
  let new_counts := durable_counts db in
  when (match old_counts with Some old => negb (bool_decide (old = new_counts)) | None => false end)
    (throw (Runtime "rebuilt database durable object counts do not match source database")) ;;;
  save (temporary_path r) ;;;
  in_area (remove_sidecar (temporary_path r +:+ "-wal") ;;; remove_sidecar (temporary_path r +:+ "-shm")) ;;;
  mret new_counts.

Fixpoint free_dir (r : DatabaseRebuildRequest) (corrupt : bool) (attempts suffix : nat) : M Area string :=
  match attempts with
  | O => throw (Runtime "unable to allocate database backup directory")
  | S attempts =>
      let candidate := child_path (backup_root r) (backup_name corrupt now suffix) in
      let* there := exists_file candidate in
      if there : bool then free_dir r corrupt attempts (S suffix) else mret candidate
  end.
Definition unique_backup_dir (r : DatabaseRebuildRequest) (corrupt : bool) : M Area string := free_dir r corrupt 1000 0.
Definition move_if_exists (from to : string) : M Area unit :=
  let* there := exists_file from in when there (rename_file from to).
Definition back_up (path dir : string) : M Area unit :=
  make_dirs dir ;;;
  move_if_exists path (child_path dir "holder.db") ;;;
  move_if_exists (path +:+ "-wal") (child_path dir "holder.db-wal") ;;;
  move_if_exists (path +:+ "-shm") (child_path dir "holder.db-shm").
Definition sync_directory : M Area unit := call "failed to fsync database directory" (mret tt).

(** [catch (...)] around the swap *)
Definition put_back (path : string) (dir : option string) (h : DatabaseHealth) : M Area unit :=
  remove_ignoring path ;;;
  match dir with
  | Some dir =>
      when (bool_decide (h = Healthy)) (
        move_if_exists (child_path dir "holder.db") path ;;;
        move_if_exists (child_path dir "holder.db-wal") (path +:+ "-wal") ;;;
        move_if_exists (child_path dir "holder.db-shm") (path +:+ "-shm"))
  | None => mret tt
  end.
Definition swap (r : DatabaseRebuildRequest) (h : DatabaseHealth) : M Area (option string) :=
  let path := database_path r in
  let* dir := (if bool_decide (h = Missing) then mret None
               else let* dir := unique_backup_dir r (bool_decide (h = Corrupt)) in
                    back_up path dir ;;; mret (Some dir)) in
  try_catch
    (rename_file (temporary_path r) path ;;;
     sync_directory ;;;
     let* final_health := inspect_database_health path in
     when (negb (bool_decide (health final_health = Healthy)))
       (throw (Runtime ("replacement database failed final health check: " +:+ detail final_health))))
    (fun e => put_back path dir h ;;; throw e) ;;;
  mret dir.

(** What may not be rebuilt. *)
Definition refuse_unsafe (r : DatabaseRebuildRequest) (h : DatabaseHealthResult) : M Area unit :=
  let reconstruct := bool_decide (health h = Corrupt) ||
    (bool_decide (health h = Missing) && negb (bool_decide (project_roots r = []))) in
  when (bool_decide (health h = IoError))
    (throw (Runtime ("database I/O failure is not safe to rebuild: " +:+ detail h))) ;;;
  when (reconstruct && negb (durable_ownership_ready r))
    (throw (Runtime "database was preserved because durable ownership is not ready")) ;;;
  when reconstruct (check_authorities (required_authorities r)).

(** The audit of a healthy database: the number of cards it lost and the counts it has then. *)
Definition audit_old (r : DatabaseRebuildRequest) : M Rebuilding (nat * list (string * Z)) :=
  open_database (database_path r) ;;;
  let* quarantined := audit_core_durable_ownership (database_path r) (quarantine_log_path r) in
  match audit_existing (hooks r) with
  | Some hook => on_connection hook ;;; save (database_path r)
  | None => mret tt
  end ;;;
  let* db := tables "failed to count projects" in
  mret (quarantined, durable_counts db).

Definition rebuild_database_projection (input : DatabaseRebuildRequest) : M Rebuilding DatabaseRebuildReport :=
  let r := mkRebuildRequest (database_path input) (backup_root input) (schema_sql input) (expected_schema_version input)
    (normalized_roots (project_roots input)) (required_authorities input) (durable_ownership_ready input)
    (dry_run input) (hooks input) in
  when (String.eqb (database_path r) "" || String.eqb (schema_sql r) "")
    (throw (InvalidArgument "database path and schema SQL are required")) ;;;
  let* h := in_area (inspect_database_health (database_path r)) in
  in_area (refuse_unsafe r h) ;;;
  check_roots [] (project_roots r) ;;;
  let* audited := (if bool_decide (health h = Healthy) then let* a := audit_old r in mret (Some a) else mret None) in
  in_area (check_stale (with_sidecars (temporary_path r))) ;;;
  let* new_counts := try_catch (build r (snd <$> audited)) (fun e => discard (temporary_path r) ;;; throw e) in
  let report dir := mkReport (dry_run r) (health_name (health h)) new_counts
                      (match audited with Some a => fst a | None => 0%nat end) dir in
  if dry_run r then discard (temporary_path r) ;;; mret (report None)
  else
    let* dir := in_area (swap r (health h)) in
    mret (report dir).

End Rebuild.
End DatabaseRebuild.
