(* ===== verification/DatabaseRebuildFacts.v ===== *)
(** * What the reconstruction of the database does to the files of its directory *)

From stdpp Require Import base list sets strings numbers gmap pretty.
From Stdlib Require Import Ascii.
From S2P Require Import Prelude Double Model Text Tags Database CardRepo ProjectRepo Uuid CardFrontMatter Json ReferenceJson Disk.
From S2P Require Import Mutation Privacy CardChanges ResourceManifest RebuildResources ProjectManifest ProjectPaths StartupRecovery DatabaseRebuild.
Import Disk DiskFacts CardMutation CardPaths CardFrontMatter Json ResourceManifest ProjectManifest ProjectPaths StartupRecovery DatabaseRebuild.

Module DatabaseRebuildFacts.

(** ** Paths that differ *)

Lemma longer p s : s <> "" -> p +:+ s <> p.
Proof.
  intros Hs H. apply (f_equal (fun s => length (bytes_of s))) in H. rewrite bytes_of_append, length_app in H.
  destruct s; [done|]. simpl in H. lia.
Qed.
Lemma longer_still p s t : s <> "" -> (p +:+ s) +:+ t <> p.
Proof.
  intros Hs H. apply (f_equal (fun s => length (bytes_of s))) in H. rewrite !bytes_of_append, !length_app in H.
  destruct s; [done|]. simpl in H. lia.
Qed.
Definition ends (c : ascii) (s : string) : Prop := list.last (bytes_of s) = Some c.
Lemma ends_append c p s : ends c s -> ends c (p +:+ s).
Proof. unfold ends. intros H. rewrite bytes_of_append, last_app. by rewrite H. Qed.
Lemma ends_child c dir name : ends c name -> ends c (child_path dir name).
Proof.
  intros H. unfold child_path. destruct (String.eqb dir ""); [done|].
  destruct (bool_decide _); by repeat apply ends_append.
Qed.
Lemma ends_ne c d s t : ends c s -> ends d t -> c <> d -> s <> t.
Proof. unfold ends. intros Hs Ht Hc ->. congruence. Qed.

(** ** One file of the directory *)

Definition keeps (k : string) (x : option File) (a : Area) : Prop := files a !! k = x.
Section Keeps.
Context (k : string) (x : option File).

Lemma leaves_call {A} what (op : M Area A) : preserves (keeps k x) op -> preserves (keeps k x) (call what op).
Proof. intros H a Ha. unfold call. destruct (events a (clock a)); [by apply H|done|by apply H]. Qed.
Lemma leaves_exists p : preserves (keeps k x) (exists_file p).
Proof. apply leaves_call. by intros a Ha. Qed.
Lemma leaves_is_regular p : preserves (keeps k x) (is_regular p).
Proof. apply leaves_call. by intros a Ha. Qed.
Lemma leaves_dirs p : preserves (keeps k x) (make_dirs p).
Proof. apply leaves_call. by intros a Ha. Qed.
Lemma leaves_read p : preserves (keeps k x) (read_text p).
Proof. apply leaves_call. intros a Ha. by destruct (files a !! p) as [[]|]. Qed.
Lemma leaves_sync : preserves (keeps k x) sync_directory.
Proof. apply leaves_call. by intros a Ha. Qed.
Lemma leaves_remove p : k <> p -> preserves (keeps k x) (remove_file p).
Proof. intros H. apply leaves_call. intros a Ha. unfold keeps in *. cbn [modify snd with_files files]. by rewrite lookup_delete_ne. Qed.
Lemma leaves_put p c : k <> p -> preserves (keeps k x) (put_file p c).
Proof. intros H. apply leaves_call. intros a Ha. unfold keeps in *. cbn [modify snd with_files files]. by rewrite lookup_insert_ne. Qed.
Lemma leaves_rename p q : k <> p -> k <> q -> preserves (keeps k x) (rename_file p q).
Proof.
  intros Hp Hq. apply leaves_call. intros a Ha. unfold keeps in *. destruct (files a !! p); [|done].
  cbn [snd with_files files]. by rewrite lookup_insert_ne, lookup_delete_ne.
Qed.
Lemma leaves_write what p s : k <> p -> preserves (keeps k x) (write_text what p s).
Proof.
  intros H a Ha. unfold write_text, keeps in *. destruct (events a (clock a)) as [|[s'|]|s']; cbn [snd with_files files pass];
    by rewrite ?lookup_insert_ne.
Qed.
Lemma leaves_inspect {Q : Sqlite} p : preserves (keeps k x) (inspect_database_health p).
Proof. apply preserves_bind; [apply leaves_exists|]. intros []; [|apply preserves_mret]. by intros a Ha. Qed.
#[local] Hint Resolve leaves_exists leaves_is_regular leaves_dirs leaves_read leaves_remove leaves_rename leaves_write : preserves.
Lemma leaves_remove_ignoring p : k <> p -> preserves (keeps k x) (remove_ignoring p).
Proof. unfold remove_ignoring. auto with preserves. Qed.
Lemma leaves_remove_sidecar p : k <> p -> preserves (keeps k x) (remove_sidecar p).
Proof. unfold remove_sidecar. auto with preserves. Qed.
Lemma leaves_move p q : k <> p -> k <> q -> preserves (keeps k x) (move_if_exists p q).
Proof. unfold move_if_exists. auto with preserves. Qed.
Lemma leaves_authorities l : preserves (keeps k x) (check_authorities l).
Proof. induction l as [|[label p] l IH]; cbn; auto with preserves. Qed.
Lemma leaves_refuse r h : preserves (keeps k x) (refuse_unsafe r h).
Proof. pose proof leaves_authorities. unfold refuse_unsafe. auto 10 with preserves. Qed.
Lemma leaves_stale l : preserves (keeps k x) (check_stale l).
Proof. induction l as [|p l IH]; cbn; auto with preserves. Qed.
Lemma leaves_log {N : JsonLib} suffix p entries : k <> p -> k <> p +:+ ".tmp" +:+ suffix ->
  preserves (keeps k x) (append_quarantine_log suffix p entries).
Proof.
  intros H1 H2. unfold append_quarantine_log. destruct (bool_decide _); [auto with preserves|].
  apply preserves_bind; [auto with preserves|]. intros there. apply preserves_bind; [destruct there; auto 10 with preserves|].
  auto 12 with preserves.
Qed.
Lemma leaves_free_dir r corrupt now attempts suffix : preserves (keeps k x) (free_dir now r corrupt attempts suffix).
Proof.
  revert suffix. induction attempts as [|n IH]; intros suffix; cbn; [auto with preserves|].
  apply preserves_bind; [auto with preserves|]. intros []; auto with preserves.
Qed.
End Keeps.
#[export] Hint Resolve leaves_exists leaves_is_regular leaves_dirs leaves_read leaves_remove leaves_rename leaves_write
  leaves_sync leaves_put leaves_inspect leaves_remove_ignoring leaves_remove_sidecar leaves_move leaves_authorities
  leaves_refuse leaves_stale leaves_log leaves_free_dir : preserves.

(** ** The swap *)

Section Swap.
Context {Q : Sqlite} (r : DatabaseRebuildRequest) (now : Z).
Let path := database_path r.
Let temporary := temporary_path r.
(** The backups are elsewhere. *)
Hypothesis (Hfar : forall name file, path <> child_path (child_path (backup_root r) name) file).

Definition kept_at (dir : string) : string := child_path dir "holder.db".
(** The file is where it was, or kept as a backup. *)
Definition at_home_or_kept (dir : string) (c : File) (a : Area) : Prop :=
  keeps path (Some c) a \/ keeps (kept_at dir) (Some c) a.

Lemma rename_moves from to c :
  hoare (keeps from (Some c)) (rename_file from to) (fun _ => keeps to (Some c)) (keeps from (Some c)).
Proof.
  intros a H. unfold rename_file, call, keeps in *. destruct (events a (clock a)); cbn [files pass]; [|done|];
    rewrite H; cbn [with_files files]; by rewrite lookup_insert_eq.
Qed.

(** A file that is there moves or stays; one other file stays. *)
Lemma move_moves from to c : 
  hoare (keeps from (Some c)) (move_if_exists from to) (fun _ => keeps to (Some c)) (keeps from (Some c)).
Proof.
  unfold move_if_exists. eapply (hoare_bind _ _ _ (fun found a => found = true /\ keeps from (Some c) a)).
  - intros a H. unfold exists_file, call, keeps in *. destruct (events a (clock a)); [|done|];
      unfold gets; cbn [files pass dirs]; by rewrite H.
  - intros found. apply hoare_pure. intros ->. apply rename_moves.
Qed.
Lemma move_beside from to c k x : k <> from -> k <> to ->
  hoare (fun a => keeps from (Some c) a /\ keeps k x a) (move_if_exists from to)
    (fun _ a => keeps to (Some c) a /\ keeps k x a) (fun a => keeps from (Some c) a /\ keeps k x a).
Proof. intros H1 H2. apply hoare_and; [apply move_moves|by apply hoare_preserves, leaves_move]. Qed.

Lemma temporary_facts : temporary <> path /\ ends "p" temporary.
Proof. split; [by apply longer|]. by apply ends_append. Qed.
Lemma sidecar_facts p : ends "l" (p +:+ "-wal") /\ ends "m" (p +:+ "-shm").
Proof. split; by apply ends_append. Qed.

Section Into.
Context (dir : string) (Hdir : exists name, dir = child_path (backup_root r) name).
Lemma kept_ends : ends "b" (kept_at dir).
Proof. by apply ends_child. Qed.
Lemma far_from file : path <> child_path dir file.
Proof. destruct Hdir as [name H]. rewrite H. apply Hfar. Qed.
Lemma sidecars_into : ends "l" (child_path dir "holder.db-wal") /\ ends "m" (child_path dir "holder.db-shm").
Proof. split; by apply ends_child. Qed.

(** What never is where the moves of the sidecars go. *)
Lemma kept_safe c : preserves (keeps (kept_at dir) c) (
  move_if_exists (path +:+ "-wal") (child_path dir "holder.db-wal") ;;;
  move_if_exists (path +:+ "-shm") (child_path dir "holder.db-shm")).
Proof.
  pose proof kept_ends. destruct sidecars_into. destruct (sidecar_facts path).
  apply preserves_bind; [|intros _]; apply leaves_move; by eapply ends_ne.
Qed.
Lemma temporary_safe c : preserves (keeps temporary c) (
  move_if_exists (path +:+ "-wal") (child_path dir "holder.db-wal") ;;;
  move_if_exists (path +:+ "-shm") (child_path dir "holder.db-shm")).
Proof.
  pose proof temporary_facts as [? ?]. destruct sidecars_into. destruct (sidecar_facts path).
  apply preserves_bind; [|intros _]; apply leaves_move; by eapply ends_ne.
Qed.

Lemma back_up_safe c x :
  hoare (fun a => keeps path (Some c) a /\ keeps temporary x a) (back_up path dir)
    (fun _ a => keeps (kept_at dir) (Some c) a /\ keeps temporary x a) (at_home_or_kept dir c).
Proof.
  destruct temporary_facts as [Ht1 Ht2]. unfold back_up.
  eapply (hoare_bind _ _ _ (fun _ a => keeps path (Some c) a /\ keeps temporary x a)).
  { apply (hoare_conseq (fun a => keeps path (Some c) a /\ keeps temporary x a) _ _ (fun _ a => keeps path (Some c) a /\ keeps temporary x a) _
      (fun a => keeps path (Some c) a /\ keeps temporary x a)); [|done|done|intros a [Ha _]; by left].
    apply hoare_and; apply hoare_preserves; auto with preserves. }
  intros []. eapply hoare_bind.
  { eapply (hoare_conseq _ _ _ _ (fun _ a => keeps (kept_at dir) (Some c) a /\ keeps temporary x a)); [apply (move_beside path (kept_at dir) c temporary x)|done|done|intros a [Ha _]; by left];
      [done|]. eapply ends_ne; [done|apply kept_ends|done]. }
  intros []. eapply hoare_conseq; [apply hoare_and; apply hoare_preserves; [apply (kept_safe (Some c))|apply (temporary_safe x)]|done|done|].
  intros a [H _]. by right.
Qed.

Lemma put_back_safe c h e :
  hoare (keeps (kept_at dir) (Some c)) (put_back path (Some dir) h ;;; throw e) (fun (_ : unit) _ => False) (at_home_or_kept dir c).
Proof.
  pose proof (far_from "holder.db") as Hk. destruct (sidecar_facts path). pose proof kept_ends. destruct sidecars_into.
  assert (preserves (at_home_or_kept dir c) (
    move_if_exists (child_path dir "holder.db-wal") (path +:+ "-wal") ;;;
    move_if_exists (child_path dir "holder.db-shm") (path +:+ "-shm"))) as Hrest.
  { assert (forall p q, path <> p -> kept_at dir <> p -> path <> q -> kept_at dir <> q ->
      preserves (at_home_or_kept dir c) (move_if_exists p q)) as Hmove.
    { intros p q Hp1 Hp2 Hq1 Hq2 a [Ha|Ha]; [left|right]; by apply leaves_move. }
    apply preserves_bind; [|intros _]; apply Hmove; try apply far_from; try (by eapply ends_ne);
      apply not_eq_sym; by apply longer. }
  eapply (hoare_bind _ _ _ (fun _ => at_home_or_kept dir c)); [|by intros _ a Ha].
  unfold put_back. eapply (hoare_bind _ _ _ (fun _ => keeps (kept_at dir) (Some c))).
  { eapply hoare_conseq; [apply hoare_preserves, (leaves_remove_ignoring (kept_at dir) (Some c) path)|done|done|by right].
    by apply not_eq_sym. }
  intros []. apply hoare_when; [|by right]. intros _. eapply hoare_bind.
  - eapply (hoare_conseq _ _ _ _ (fun _ => at_home_or_kept dir c)); [apply (move_moves (kept_at dir) path c)|done| |by right]. intros ? a Ha. left. exact Ha.
  - intros []. by apply hoare_preserves.
Qed.

Lemma put_in_place c t h :
  hoare (fun a => keeps (kept_at dir) (Some c) a /\ keeps temporary (Some t) a)
    (try_catch
      (rename_file temporary path ;;;
       sync_directory ;;;
       let* final_health := inspect_database_health path in
       when (negb (bool_decide (health final_health = Healthy)))
         (throw (Runtime ("replacement database failed final health check: " +:+ detail final_health))))
      (fun e => put_back path (Some dir) h ;;; throw e))
    (fun _ a => keeps (kept_at dir) (Some c) a /\ keeps path (Some t) a) (at_home_or_kept dir c).
Proof.
  pose proof (far_from "holder.db") as Hk. pose proof kept_ends. pose proof temporary_facts as [? ?].
  assert (kept_at dir <> temporary) as Hne by (eapply ends_ne; [done|done|done]).
  apply (hoare_try _ _ _ _ (keeps (kept_at dir) (Some c))).
  - eapply (hoare_bind _ _ _ (fun _ a => keeps (kept_at dir) (Some c) a /\ keeps path (Some t) a)).
    + eapply (hoare_conseq _ _ _ _ _ (fun a => keeps (kept_at dir) (Some c) a /\ keeps temporary (Some t) a)).
      { apply hoare_and; [apply hoare_preserves, leaves_rename|apply rename_moves]; [done|by apply not_eq_sym]. }
      all: firstorder.
    + intros []. apply (hoare_conseq (fun a => keeps (kept_at dir) (Some c) a /\ keeps path (Some t) a) _ _
        (fun _ a => keeps (kept_at dir) (Some c) a /\ keeps path (Some t) a) _
        (fun a => keeps (kept_at dir) (Some c) a /\ keeps path (Some t) a)); [|done|done|by intros a [Ha _]].
      apply hoare_and; apply hoare_preserves; auto with preserves.
  - intros e. eapply hoare_conseq; [apply put_back_safe|done|by intros ? ? []|done].
Qed.
End Into.

Lemma free_dir_names corrupt P attempts suffix :
  (forall p, preserves P (exists_file p)) ->
  hoare P (free_dir now r corrupt attempts suffix) (fun d a => (exists name, d = child_path (backup_root r) name) /\ P a) P.
Proof.
  intros HP. revert suffix. induction attempts as [|n IH]; intros suffix; cbn; [by intros a Ha|].
  eapply hoare_bind; [apply hoare_preserves, HP|]. intros []; [apply IH|]. intros a Ha. split; [by eexists|done].
Qed.

(** The old file is kept as a backup and the new one is in its place; or the old one is in one
    of the two places. *)
Lemma swap_safe c t h : h <> Missing ->
  hoare (fun a => keeps path (Some c) a /\ keeps temporary (Some t) a) (swap now r h)
    (fun dir a => exists name, dir = Some (child_path (backup_root r) name) /\
       keeps (kept_at (child_path (backup_root r) name)) (Some c) a /\ keeps path (Some t) a)
    (fun a => exists name, at_home_or_kept (child_path (backup_root r) name) c a).
Proof.
  intros Hh. unfold swap. rewrite bool_decide_eq_false_2 by done.
  eapply (hoare_bind _ _ _ (fun dir a => exists name, dir = Some (child_path (backup_root r) name) /\
       keeps (kept_at (child_path (backup_root r) name)) (Some c) a /\ keeps temporary (Some t) a)).
  - eapply hoare_bind.
    + eapply (hoare_conseq _ _ _ _ _ (fun a => keeps path (Some c) a /\ keeps temporary (Some t) a)).
      * apply free_dir_names. intros p a [H1 H2]. split; by apply leaves_exists.
      * done.
      * intros d a H. exact H.
      * intros a [Ha _]. exists "". by left.
    + intros d. apply hoare_pure. intros [name ->]. eapply hoare_bind.
      * eapply hoare_conseq; [apply (back_up_safe _ c (Some t))|done|intros ? a H; exact H|].
        intros a H. by exists name.
      * intros [] a H. by exists name.
  - intros dir a (name & -> & H).
    pose proof (put_in_place _ (ex_intro _ name eq_refl) c t h a H) as Hp. unfold bind at 1. fold path. fold temporary.
    destruct (try_catch _ _ a) as [[[]|e] a']; cbn; by exists name.
Qed.

End Swap.

(** ** The audit

    The files of the projects are as at the start. *)
Definition same_files (rts : string -> World) (s : Rebuilding) : Prop :=
  forall root, work (disk (roots s root)) = work (disk (rts root)).
(** A card of the database whose file is not where it must be. *)
Definition lost (rts : string -> World) (db : Db) (c : Card) : Prop :=
  c ∈ cards db /\ exists p rel, p ∈ projects db /\ project_id p = card_project_id c /\ expected_path c = Ok rel /\
    work (disk (rts (root_path p))) !! rel = None.
Definition without (cs : list Card) (db : Db) : Db := foldl (fun db c => delete_card_row (bind_text (card_id c)) db) db cs.
(** The file of the database before and after: cards without files may have lost their rows. *)
Definition audited (rts : string -> World) (old new : File) : Prop :=
  new = old \/ exists db cs, old = Database db /\ Forall (lost rts db) cs /\ new = Database (without cs db).
Definition only_looks (hook : option (Repo unit)) : Prop :=
  match hook with Some m => forall db, snd (m db) = db | None => True end.

Section Audit.
Context {E : SqlEngine} `{!SqlEngineLaws E} {N : JsonLib} (now : Z) (suffix : string).
Context (rts : string -> World) (path : string) (db : Db).

Definition idle (x : Area) (y : option Db) (s : Rebuilding) : Prop := same_files rts s /\ area s = x /\ connection s = y.

Lemma reads_root {A} root (m : IO A) x y :
  (forall W, preserves (on (fun d => work d = W)) m) -> preserves (idle x y) (in_root root m).
Proof.
  intros H s (H1 & H2 & H3). unfold in_root. specialize (H _ (roots s root) eq_refl).
  destruct (m (roots s root)) as [r w]. split; [|done]. intros q. cbn. destruct (String.eqb_spec q root) as [->|]; [|apply H1].
  rewrite <- H1. exact H.
Qed.
Lemma looks_regular root rel x y :
  hoare (idle x y) (regular_in_root root rel)
    (fun found s => idle x y s /\ found = bool_decide (is_Some (work (disk (rts root)) !! rel))) (idle x y).
Proof.
  intros s Hs. pose proof (reads_root root (attempt "is_regular_file" (gets (fun w => bool_decide (is_Some (work (disk w) !! rel))))) x y) as Hp.
  assert (idle x y (snd (regular_in_root root rel s))) as Hi.
  { apply Hp; [|done]. intros W. apply kept_attempt. by intros w Hw. }
  revert Hi. unfold regular_in_root, in_root, attempt. destruct Hs as (H1 & _).
  destruct (outcomes (roots s root) _); cbn; intros Hi; try done; by rewrite H1.
Qed.

Lemma require_files_idle what l x y : preserves (idle x y) (require_files what l).
Proof.
  induction l as [|[root rel] l IH]; cbn; [apply preserves_mret|]. apply preserves_bind; [apply preserves_lift|]. intros rel'.
  apply preserves_bind; [|intros found; apply preserves_bind; [apply preserves_when, preserves_throw|done]].
  apply reads_root. intros W. apply kept_attempt. by intros w Hw.
Qed.

Lemma missing_cards_lost l x y :
  hoare (idle x y) (missing_cards l)
    (fun cs s => idle x y s /\ Forall (fun c => exists root rel, (root, c) ∈ l /\ expected_path c = Ok rel /\
       work (disk (rts root)) !! rel = None) cs) (idle x y).
Proof.
  induction l as [|[root c] l IH]; cbn; [by intros s Hs|].
  destruct (expected_path c) as [rel|e] eqn:He; [|by intros s Hs]. eapply hoare_lift; [done|].
  eapply hoare_bind; [apply looks_regular|]. intros found.
  apply (hoare_conseq (fun s => found = bool_decide (is_Some (work (disk (rts root)) !! rel)) /\ idle x y s)
    _ _ (fun cs s => idle x y s /\ Forall (fun c0 => exists root0 rel0, (root0, c0) ∈ (root, c) :: l /\
       expected_path c0 = Ok rel0 /\ work (disk (rts root0)) !! rel0 = None) cs) _ (idle x y)); [|firstorder|done|done].
  apply hoare_pure. intros ->. eapply hoare_bind; [exact IH|]. intros cs s [Hs Hcs]. split; [done|].
  assert (Forall (fun c0 => exists root0 rel0, (root0, c0) ∈ (root, c) :: l /\
       expected_path c0 = Ok rel0 /\ work (disk (rts root0)) !! rel0 = None) cs) as Hrest.
  { eapply Forall_impl; [exact Hcs|]. intros c0 (r0 & rel0 & Hin & H). exists r0, rel0. split; [by right|done]. }
  destruct (work (disk (rts root)) !! rel) eqn:Hf; [done|]. constructor; [|done]. exists root, rel. split; [left|done].
Qed.

Lemma with_roots_lost cs :
  Forall (fun c => exists root rel, (root, c) ∈ with_roots card_project_id db (cards db) /\ expected_path c = Ok rel /\
    work (disk (rts root)) !! rel = None) cs -> Forall (lost rts db) cs.
Proof.
  intros H. eapply Forall_impl; [exact H|]. intros c (root & rel & Hin & He & Hf).
  unfold with_roots in Hin. rewrite list_elem_of_In, in_flat_map in Hin. destruct Hin as (c' & Hc & Hin).
  rewrite <- list_elem_of_In in Hc. rewrite <- list_elem_of_In, elem_of_map_id in Hin. destruct Hin as (p & Hp & [= -> ->]).
  rewrite sql_select_perm in Hc. apply elem_of_list_filter in Hc as [Hc _]. apply elem_of_list_filter in Hp as [Hp Hi].
  split; [done|]. exists p, rel. by apply String.eqb_eq in Hi.
Qed.

(** *** The rows that are removed *)

Definition audit_state (cs : list Card) (s : Rebuilding) : Prop :=
  same_files rts s /\ keeps path (Some (Database (without cs db))) (area s) /\ connection s = Some (without cs db).
Definition under_audit (s : Rebuilding) : Prop := exists cs, Forall (lost rts db) cs /\ audit_state cs s.

Lemma under_audit_idle {A} (m : M Rebuilding A) : (forall x y, preserves (idle x y) m) -> preserves under_audit m.
Proof.
  intros H s (cs & Hc & H1 & H2 & H3). destruct (H _ _ s (conj H1 (conj eq_refl eq_refl))) as (G1 & G2 & G3).
  exists cs. split; [done|]. split; [done|]. by rewrite G2, G3.
Qed.
Lemma under_audit_area {A} (m : M Area A) : (forall x, preserves (keeps path x) m) -> preserves under_audit (in_area m).
Proof.
  intros H s (cs & Hc & H1 & H2 & H3). unfold in_area. specialize (H _ (area s) H2). destruct (m (area s)) as [r a].
  by exists cs.
Qed.

Lemma quarantine_card_row cs c :
  hoare (audit_state cs) (quarantine_card path c) (fun _ => audit_state (cs ++ [c])) (audit_state cs).
Proof.
  intros s (H1 & H2 & H3). unfold quarantine_card, tables, bind. rewrite H3. unfold in_area, put_file, call.
  destruct (events (area s) (clock (area s))); cbn; [|done|];
    (split; [done|]); unfold keeps, without; cbn; rewrite lookup_insert_eq, foldl_app; done.
Qed.

Lemma quarantine_under_audit log : path <> log -> path <> log +:+ ".tmp" +:+ suffix ->
  hoare (audit_state []) (quarantine_cards_with_missing_files now suffix path log) (fun _ => under_audit) under_audit.
Proof.
  intros Hl Ht s Hs. unfold quarantine_cards_with_missing_files. pose proof Hs as (H1 & H2 & H3).
  unfold bind at 1, tables. rewrite H3. cbn [without foldl]. revert s Hs H1 H2 H3.
  assert (forall x, keeps path (Some (Database db)) x -> hoare (idle x (Some db))
    (let* missing := missing_cards (with_roots card_project_id db (cards db)) in
     for_each missing (quarantine_card path) ;;;
     in_area (append_quarantine_log suffix log (map (log_entry now) missing)) ;;; mret (length missing))
    (fun _ => under_audit) under_audit) as H.
  { intros x Hx. eapply hoare_bind.
    - eapply hoare_conseq; [apply missing_cards_lost|done|intros cs s H; exact H|].
      intros s (H1 & H2 & H3). exists []. split; [done|]. split; [done|]. by rewrite H2.
    - intros missing. apply (hoare_conseq (fun s => Forall (lost rts db) missing /\ audit_state [] s) _ _
        (fun _ => under_audit) _ under_audit); [|intros s [(H1 & H2 & H3) Hm]|done|done].
      2: { split; [by apply with_roots_lost|]. split; [done|]. by rewrite H2. }
      apply hoare_pure. intros Hm. eapply (hoare_bind _ _ _ (fun _ => audit_state missing)).
      + apply (hoare_for_each missing (quarantine_card path) audit_state). intros pre c rest Heq.
        eapply hoare_conseq; [apply quarantine_card_row|done|done|]. intros s Hs. exists pre. split; [|done].
        rewrite Heq in Hm. by apply Forall_app in Hm as [? _].
      + intros []. apply (hoare_conseq under_audit _ _ (fun _ => under_audit) _ under_audit); [|by exists missing|done|done].
        apply hoare_preserves, preserves_bind; [|intros; apply preserves_mret].
        apply under_audit_area. auto with preserves. }
  intros s Hs H1 H2 H3. apply (H (area s) H2 s). done.
Qed.

Lemma audit_core_keeps log : path <> log -> path <> log +:+ ".tmp" +:+ suffix ->
  hoare (audit_state []) (audit_core_durable_ownership now suffix path log) (fun _ => under_audit) under_audit.
Proof.
  intros Hl Ht. unfold audit_core_durable_ownership.
  assert (hoare (audit_state []) (tables "prepare durable ownership audit failed for project metadata")
    (fun db' s => db' = db /\ audit_state [] s) under_audit) as Htab.
  { intros s Hs. pose proof Hs as (_ & _ & H3). unfold tables. by rewrite H3. }
  eapply hoare_bind; [exact Htab|]. intros db'. apply hoare_pure. intros ->.
  eapply (hoare_bind _ _ _ (fun _ => audit_state [])).
  { intros s (H1 & H2 & H3).
    pose proof (require_files_idle "project metadata exists only in SQLite or has a missing durable file"
      (map (fun p => (root_path p, Ok kProjectBootstrapPath)) (projects db) ++
       map (fun p => (root_path p, Ok kProjectManifestPath)) (projects db)) _ _ s (conj H1 (conj eq_refl eq_refl))) as (G1 & G2 & G3).
    assert (audit_state [] (snd (require_files "project metadata exists only in SQLite or has a missing durable file"
      (map (fun p => (root_path p, Ok kProjectBootstrapPath)) (projects db) ++
       map (fun p => (root_path p, Ok kProjectManifestPath)) (projects db)) s))) as Hs'.
    { split; [done|]. by rewrite G2, G3. }
    destruct (require_files _ _ s) as [[]  s']; [done|by exists []]. }
  intros []. eapply hoare_bind; [by apply quarantine_under_audit|]. intros n. apply hoare_preserves.
  repeat (apply preserves_bind; [apply under_audit_idle; intros; apply require_files_idle|intros _]). apply preserves_mret.
Qed.
End Audit.

End DatabaseRebuildFacts.
