(* ===== verification/DatabaseRebuildTheorems.v ===== *)
(** * The database survives its reconstruction *)

From stdpp Require Import base list sets strings numbers gmap pretty.
From Stdlib Require Import Ascii.
From S2P Require Import Prelude Double Model Text Tags Database CardRepo ProjectRepo Uuid CardFrontMatter Json ReferenceJson Disk.
From S2P Require Import Mutation Privacy CardChanges ResourceManifest RebuildResources ProjectManifest ProjectPaths StartupRecovery.
From S2P Require Import RebuildFiles ReferenceYaml ReferenceGit StartupRecoveryTheorems DatabaseRebuild DatabaseRebuildFacts.
Import Disk DiskFacts CardMutation CardPaths CardFrontMatter Json ResourceManifest ProjectManifest ProjectPaths StartupRecovery.
Import DatabaseRebuild DatabaseRebuildFacts.

Module DatabaseRebuildTheorems.

Section Whole.
Context {E : SqlEngine} `{!SqlEngineLaws E} {Q : Sqlite} {Y : Yaml} {L : LibGit2} {J : MsgPack} {V : Privacy} {D : Directory}
  {N : JsonLib}.
Context (md_parse : bytes -> list TagExtractor.MdEvent) (now : Z) (suffix : string)
  (weakly_canonical : string -> option string) (is_directory : string -> bool).
Context (r : DatabaseRebuildRequest) (rts : string -> World) (old : File).
Let path := database_path r.
Let temporary := temporary_path r.

(** ** Calls that leave the files of the directory alone *)

Definition home (x : option File) (s : Rebuilding) : Prop := keeps path x (area s).

Lemma home_area_at {A} k x (m : M Area A) :
  preserves (keeps k x) m -> preserves (fun s => keeps k x (area s)) (in_area m).
Proof. intros H s Hs. unfold in_area. specialize (H (area s) Hs). by destruct (m (area s)). Qed.
Lemma home_area {A} x (m : M Area A) : preserves (keeps path x) m -> preserves (home x) (in_area m).
Proof. apply home_area_at. Qed.
Lemma home_root {A} x root (m : IO A) : preserves (home x) (in_root root m).
Proof. intros s Hs. unfold in_root. by destruct (m (roots s root)). Qed.
Lemma home_connect x db : preserves (home x) (connect db).
Proof. by intros s Hs. Qed.
Lemma home_tables x what : preserves (home x) (tables what).
Proof. intros s Hs. unfold tables. by destruct (connection s). Qed.
Lemma home_on {A} x (m : Repo A) : preserves (home x) (on_connection m).
Proof. intros s Hs. unfold on_connection. destruct (connection s) as [db|]; [|done]. by destruct (m db). Qed.
Lemma home_recovering {A} x (m : M Recovery A) : preserves (home x) (recovering m).
Proof. intros s Hs. unfold recovering. destruct (connection s) as [db|]; [|done]. by destruct (m _). Qed.
Lemma home_hook x hook : preserves (home x) (run_hook hook).
Proof. destruct hook; [apply home_on|apply preserves_mret]. Qed.
Lemma home_save x p : path <> p -> preserves (home x) (save p).
Proof.
  intros Hp s Hs. unfold save. destruct (connection s); [|done]. apply home_area; [|done]. by apply leaves_put.
Qed.
Lemma home_open x p : path <> p -> preserves (home x) (open_database p).
Proof.
  intros Hp. apply preserves_bind.
  - apply home_area, leaves_call, preserves_gets.
  - intros [[db|s]|]; [apply home_connect..|]. apply preserves_bind; [by apply home_area, leaves_put|intros; apply home_connect].
Qed.
#[local] Hint Resolve home_area home_root home_connect home_tables home_on home_recovering home_hook home_save home_open : preserves.

Lemma home_validate x v : preserves (home x) (validate_database v).
Proof. unfold validate_database. auto 10 with preserves. Qed.
Lemma away : path <> temporary /\ path <> temporary +:+ "-wal" /\ path <> temporary +:+ "-shm".
Proof.
  repeat split; apply not_eq_sym; [by apply longer|by apply longer_still..].
Qed.
Lemma home_discard x : preserves (home x) (discard temporary).
Proof.
  destruct away as (H1 & H2 & H3). unfold discard. apply home_area. cbn. auto 10 with preserves.
Qed.
Lemma home_build x counts : preserves (home x) (build md_parse now r counts).
Proof.
  destruct away as (H1 & H2 & H3). pose proof home_validate. unfold build.
  repeat (apply preserves_bind; [auto with preserves|intros ?]); auto with preserves.
Qed.

(** ** What was built *)

Definition sound (db : Db) : Prop :=
  integrity_check db = "ok" /\ foreign_key_violation db = false /\
  (0 < expected_schema_version r -> read_schema_version db = expected_schema_version r).

Lemma anything {S A} (m : M S A) : hoare (fun _ => True) m (fun _ _ => True) (fun _ => True).
Proof. intros s _. by destruct (m s) as [[a|e] s']. Qed.
Lemma validated :
  hoare (fun _ => True) (validate_database (expected_schema_version r))
    (fun _ s => exists db, connection s = Some db /\ sound db) (fun _ => True).
Proof.
  intros s _. unfold validate_database, tables, bind, sound. destruct (connection s) as [db|] eqn:Hc; [|done].
  destruct (String.eqb_spec (integrity_check db) "ok"); cbn; [|done]. destruct (foreign_key_violation db) eqn:Hf; cbn; [done|].
  destruct (Z.ltb_spec 0 (expected_schema_version r)), (Z.eqb_spec (read_schema_version db) (expected_schema_version r)); cbn;
    try done; exists db; split; try done; split; try done; split; try done; lia.
Qed.

Definition built (counts : list (string * Z)) (s : Rebuilding) : Prop :=
  exists db, keeps temporary (Some (Database db)) (area s) /\ sound db /\ durable_counts db = counts.

Lemma saved p db :
  hoare (fun s => connection s = Some db) (save p) (fun _ s => keeps p (Some (Database db)) (area s)) (fun _ => True).
Proof.
  intros s Hs. unfold save, in_area, put_file, call. rewrite Hs.
  destruct (events (area s) (clock (area s))); cbn; [|done|]; unfold keeps; cbn; by rewrite lookup_insert_eq.
Qed.
Lemma hook_looks hook db : only_looks hook -> preserves (fun s => connection s = Some db) (run_hook hook).
Proof.
  intros Hlook s Hs. unfold run_hook, on_connection. destruct hook as [m|]; [|done]. rewrite Hs. cbn in Hlook. specialize (Hlook db).
  destruct (m db) as [res db']. cbn in *. by subst.
Qed.
Lemma connected what db (P : Rebuilding -> Prop) : (forall s, P s -> connection s = Some db) ->
  hoare P (tables what) (fun db' s => db' = db /\ P s) P.
Proof. intros H s Hs. unfold tables. by rewrite (H s Hs). Qed.

Lemma build_builds old_counts : only_looks (validate_rebuilt (hooks r)) ->
  hoare (fun _ => True) (build md_parse now r old_counts)
    (fun counts s => built counts s /\ forall o, old_counts = Some o -> o = counts) (fun _ => True).
Proof.
  intros Hlook. unfold build. do 7 (eapply hoare_bind; [apply anything|intros ?]).
  eapply hoare_bind; [apply validated|intros ?].
  intros s (db & Hc & Hs). revert s Hc. change (hoare (fun s => connection s = Some db) (
    run_hook (validate_rebuilt (hooks r)) ;;;
    let* db := tables "failed to count projects" in
    when (match old_counts with Some old => negb (bool_decide (old = durable_counts db)) | None => false end)
      (throw (Runtime "rebuilt database durable object counts do not match source database")) ;;;
    save temporary ;;;
    in_area (remove_sidecar (temporary +:+ "-wal") ;;; remove_sidecar (temporary +:+ "-shm")) ;;;
    mret (durable_counts db))
    (fun counts s => built counts s /\ forall o, old_counts = Some o -> o = counts) (fun _ => True)).
  eapply hoare_bind; [eapply hoare_conseq; [by apply hoare_preserves, (hook_looks _ db)|done|intros ? s H; exact H|done]|intros []].
  eapply hoare_bind; [eapply hoare_conseq; [by apply (connected _ db (fun s => connection s = Some db))|done|intros ? s H; exact H|done]|intros db'].
  apply hoare_pure. intros ->.
  eapply (hoare_bind _ _ _ (fun _ s => (forall o, old_counts = Some o -> o = durable_counts db) /\ connection s = Some db)).
  { apply hoare_when; [by intros _ s|]. intros Ho s Hc. split; [|done]. intros o ->.
    by destruct (bool_decide_reflect (o = durable_counts db)). }
  intros []. apply hoare_pure. intros Hcount.
  eapply hoare_bind; [apply saved|intros []]. eapply hoare_bind.
  - eapply hoare_conseq; [apply hoare_preserves, (home_area_at temporary (Some (Database db)))|done|intros ? s H; exact H|done].
    apply preserves_bind; [|intros _]; apply leaves_remove_sidecar, not_eq_sym; by apply longer.
  - intros [] s H. split; [|done]. by exists db.
Qed.

(** ** The old database *)

Definition kept_home (s : Rebuilding) : Prop := exists c, audited rts old c /\ home (Some c) s.
Definition at_start (s : Rebuilding) : Prop := same_files rts s /\ home (Some old) s.

Lemma kept_start s : at_start s -> kept_home s.
Proof. intros [_ H]. exists old. split; [by left|done]. Qed.
Lemma kept_audit db s : old = Database db -> under_audit rts path db s -> kept_home s.
Proof.
  intros Ho (cs & Hc & _ & H & _). exists (Database (without cs db)). split; [|exact H]. right. by exists db, cs.
Qed.

Lemma opened db : old = Database db ->
  hoare at_start (open_database path) (fun _ => audit_state rts path db []) at_start.
Proof.
  intros Ho s [H1 H2]. unfold open_database, bind, in_area, call. pose proof H2 as H. unfold home, keeps in H.
  destruct (events (area s) (clock (area s))); [|done|]; unfold gets; cbn [files pass]; rewrite H, Ho; cbn;
    (split; [done|]); unfold keeps; cbn [area files pass]; by rewrite H, Ho.
Qed.
Lemma opened_bytes b : old = Bytes b ->
  hoare at_start (open_database path) (fun _ s => connection s = None /\ at_start s) at_start.
Proof.
  intros Ho s [H1 H2]. unfold open_database, bind, in_area, call. pose proof H2 as H. unfold home, keeps in H.
  destruct (events (area s) (clock (area s))); [|done|]; unfold gets; cbn [files pass]; rewrite H, Ho; cbn;
    by repeat split.
Qed.

Lemma hook_under_audit db hook : only_looks hook -> preserves (under_audit rts path db) (
  match hook with Some hook => on_connection hook ;;; save path | None => mret tt end).
Proof.
  intros Hlook. destruct hook as [m|]; [|apply preserves_mret]. intros s (cs & Hc & H1 & H2 & H3). cbn in Hlook.
  specialize (Hlook (without cs db)). unfold bind, on_connection. rewrite H3. destruct (m (without cs db)) as [[[]|e] db']; cbn in Hlook; subst db'.
  2: by exists cs.
  unfold save. cbn [connection]. unfold in_area, put_file, call. exists cs. split; [done|].
  destruct (events _ _); cbn; (split; [done|]); (split; [|done]); unfold keeps; cbn; by rewrite ?lookup_insert_eq.
Qed.

Lemma audit_old_keeps : only_looks (audit_existing (hooks r)) ->
  path <> quarantine_log_path r -> path <> quarantine_log_path r +:+ ".tmp" +:+ suffix ->
  hoare at_start (audit_old now suffix r)
    (fun a s => exists db, audited rts old (Database db) /\ home (Some (Database db)) s /\ snd a = durable_counts db) kept_home.
Proof.
  intros Hlook Hl Ht. unfold audit_old. destruct old as [db|b] eqn:Ho.
  - eapply hoare_bind; [eapply hoare_conseq; [by apply (opened db)|done|intros ? s H; exact H|apply kept_start]|intros []].
    eapply hoare_bind.
    { eapply hoare_conseq; [by apply audit_core_keeps|done|intros n s H; exact H|]. intros s. by apply kept_audit. }
    intros n. eapply hoare_bind.
    { eapply hoare_conseq; [apply hoare_preserves, (hook_under_audit db)|intros s H; exact H|intros ? s H; exact H|]; [done|].
      intros s. by apply kept_audit. }
    intros [] s Hs. pose proof (kept_audit db s Ho Hs) as Hk. destruct Hs as (cs & Hc & H1 & H2 & H3).
    unfold bind, tables. rewrite H3. cbn. exists (without cs db). split; [|done]. right. by exists db, cs.
  - eapply hoare_bind; [eapply hoare_conseq; [by apply (opened_bytes b)|done|intros ? s H; exact H|apply kept_start]|intros []].
    intros s [Hc Hs]. unfold audit_core_durable_ownership, bind, tables. rewrite Hc. by apply kept_start.
Qed.

(** ** The steps *)

Lemma start_area {A} (m : M Area A) : (forall x, preserves (keeps path x) m) -> preserves at_start (in_area m).
Proof. intros H s [H1 H2]. pose proof (home_area _ m (H _) s H2) as H3. split; [|done]. unfold in_area in *. by destruct (m (area s)). Qed.

Lemma read_manifest_kept root W : preserves (on (fun d => work d = W)) (read_project_manifest root).
Proof.
  assert (forall p, preserves (on (fun d => work d = W)) (ProjectManifest.read_file p)) as Hread.
  { intros p. apply kept_attempt. intros w Hw. by destruct (work (disk w) !! p). }
  unfold read_project_manifest. repeat (apply preserves_bind; [auto with preserves|intros ?]); [|apply preserves_lift].
  case_match; [|apply preserves_mret]. case_match; [|apply preserves_mret].
  apply kept_attempt, preserves_lift.
Qed.
Lemma start_roots seen l : preserves at_start (check_roots is_directory seen l).
Proof.
  assert (forall x y, preserves (idle rts x y) (check_roots is_directory seen l)) as H.
  { intros x y. revert seen. induction l as [|root l IH]; intros seen; cbn; [apply preserves_mret|].
    apply preserves_bind; [auto with preserves|intros _]. apply preserves_bind; [|intros p; auto with preserves].
    apply reads_root. apply read_manifest_kept. }
  intros s [H1 H2]. destruct (H _ _ s (conj H1 (conj eq_refl eq_refl))) as (G1 & G2 & _). split; [done|]. unfold home. by rewrite G2.
Qed.

Definition seen_health (h : DatabaseHealthResult) : Prop :=
  health h <> Missing /\ forall db, old = Database db -> health h = Healthy \/ health h = IoError.
Lemma inspected :
  hoare at_start (in_area (inspect_database_health path)) (fun h s => seen_health h /\ at_start s) at_start.
Proof.
  intros s Hs. assert (at_start (snd (in_area (inspect_database_health path) s))) as Hs'.
  { apply start_area; [|done]. intros x. apply leaves_inspect. }
  revert Hs'. pose proof Hs as [_ H]. unfold home, keeps in H. unfold in_area, inspect_database_health, bind, exists_file, call, gets.
  assert (forall o, seen_health (judge (match o, old with
    | Throws _, _ => OpenFails 10 "disk I/O error" | _, Database _ => Stepped true "ok" 100 0 "not an error"
    | _, Bytes s => quick_check s end))) as Hj.
  { intros o. split; [|intros db ->; destruct o; cbn; auto].
    assert (forall a, health (judge a) <> Missing) as Hm; [|by destruct o, old].
    intros []; cbn; repeat (match goal with |- context [if ?b then _ else _] => destruct b end); done. }
  destruct (events (area s) (clock (area s))); cbn [files pass dirs]; [|done|];
    rewrite H, (bool_decide_eq_true_2 (is_Some (Some old))) by done; cbn [orb negb]; cbn [files pass events clock]; rewrite H;
    intros Hs'; (split; [|exact Hs']);
    match goal with |- seen_health (judge (match ?o with _ => _ end)) => specialize (Hj o); destruct o, old; exact Hj end.
Qed.

Definition may_rebuild (h : DatabaseHealthResult) : Prop :=
  health h <> IoError /\ (health h = Corrupt -> durable_ownership_ready r = true).
Lemma refused h : hoare at_start (in_area (refuse_unsafe r h)) (fun _ s => may_rebuild h /\ at_start s) at_start.
Proof.
  intros s Hs. assert (at_start (snd (in_area (refuse_unsafe r h) s))) as Hs'.
  { apply start_area; [|done]. intros x. apply leaves_refuse. }
  assert (forall a, match fst (refuse_unsafe r h a) with Ok _ => may_rebuild h | Err _ => True end) as Hm.
  { intros a. unfold refuse_unsafe, bind. destruct (bool_decide_reflect (health h = IoError)) as [|Hi]; [done|]. cbn [when mret].
    match goal with |- context [when (?b && negb ?c)] => destruct (b && negb c) eqn:Hr; [done|] end. cbn [when mret].
    assert (may_rebuild h); [|by destruct (when _ _ a) as [[]]]. split; [done|]. intros Hc. rewrite Hc in Hr. cbn in Hr.
    by destruct (durable_ownership_ready r). }
  specialize (Hm (area s)). unfold in_area in *. by destruct (refuse_unsafe r h (area s)) as [[]].
Qed.

(** Where the old file is, whatever happened. *)
Definition ended_badly (s : Rebuilding) : Prop :=
  (exists c, audited rts old c /\ exists name, at_home_or_kept r (child_path (backup_root r) name) c (area s)) /\
  (forall b, old = Bytes b -> durable_ownership_ready r = false -> home (Some old) s).
Lemma ended_home s : kept_home s -> ended_badly s.
Proof.
  intros (c & Hc & Hs). split; [exists c; split; [done|]; exists ""; by left|].
  intros b Hb _. destruct Hc as [->|(db & cs & Ho & _)]; [done|congruence].
Qed.

(** The old database, before it is replaced, and its counts. *)
Definition before_swap (a : option (nat * list (string * Z))) (s : Rebuilding) : Prop :=
  exists c, audited rts old c /\ home (Some c) s /\
    (forall db, c = Database db -> snd <$> a = Some (durable_counts db)) /\
    (forall b, old = Bytes b -> durable_ownership_ready r = true).
Lemma before_swap_home a s : before_swap a s -> kept_home s.
Proof. intros (c & Hc & Hs & _). by exists c. Qed.
Lemma before_swap_moves {A} a (m : M Rebuilding A) : (forall x, preserves (home x) m) -> preserves (before_swap a) m.
Proof. intros H s (c & Hc & Hs & G). exists c. split; [done|]. split; [by apply H|done]. Qed.

Lemma old_audited h : seen_health h -> may_rebuild h -> only_looks (audit_existing (hooks r)) ->
  path <> quarantine_log_path r -> path <> quarantine_log_path r +:+ ".tmp" +:+ suffix ->
  hoare at_start (if bool_decide (health h = Healthy) then let* a := audit_old now suffix r in mret (Some a) else mret None)
    before_swap kept_home.
Proof.
  intros [Hm Hd] [Hi Hr] Hlook Hl Ht. destruct (bool_decide_reflect (health h = Healthy)) as [He|He].
  - eapply hoare_bind; [by apply audit_old_keeps|]. intros a s (db & Hc & Hs & Hn). exists (Database db). split; [done|].
    split; [done|]. split; [intros db' [= <-]; cbn; by f_equal|]. intros b ->. by destruct Hc as [|(? & ? & ? & _)].
  - intros s [_ Hs]. exists old. split; [by left|]. split; [done|]. split.
    + intros db Ho. by destruct (Hd db Ho).
    + intros b Ho. apply Hr. by destruct (health h).
Qed.

(** What a report says is so: the old file is at its place after a dry run, else in a backup
    and the new database, which passed the checks and has the same counts, is at its place. *)
Definition ended_well (rep : DatabaseRebuildReport) (s : Rebuilding) : Prop :=
  exists c, audited rts old c /\
    (forall db, c = Database db -> durable_counts db = rp_counts rep) /\
    (forall b, old = Bytes b -> durable_ownership_ready r = true) /\
    if dry_run r then home (Some c) s
    else exists name db,
      rp_backup_path rep = Some (child_path (backup_root r) name) /\
      keeps (kept_at (child_path (backup_root r) name)) (Some c) (area s) /\
      home (Some (Database db)) s /\ sound db /\ durable_counts db = rp_counts rep.

Lemma built_beside a : only_looks (validate_rebuilt (hooks r)) ->
  hoare (before_swap a)
    (try_catch (build md_parse now r (snd <$> a)) (fun e => discard temporary ;;; throw e))
    (fun counts s => (forall o, snd <$> a = Some o -> o = counts) /\ built counts s /\ before_swap a s) kept_home.
Proof.
  intros Hlook. apply (hoare_try _ _ _ _ (before_swap a)).
  - eapply (hoare_conseq _ _ _ _ _ (fun s => True /\ before_swap a s)).
    { apply hoare_and; [by apply build_builds|]. apply hoare_preserves, before_swap_moves. intros x. apply home_build. }
    + by split.
    + by intros counts s [[H1 H2] H3].
    + by intros s [_ H].
  - intros e. eapply (hoare_bind _ _ _ (fun _ => before_swap a)); [|intros [] s; apply before_swap_home].
    eapply hoare_conseq; [apply hoare_preserves, (before_swap_moves a)|done|by intros ? s|apply before_swap_home].
    intros x. apply home_discard.
Qed.

Lemma swapped h counts a dry :
  health h <> Missing -> (forall name file, path <> child_path (child_path (backup_root r) name) file) -> dry = dry_run r ->
  (forall o, snd <$> a = Some o -> o = counts) ->
  hoare (fun s => built counts s /\ before_swap a s)
    (if dry then discard temporary ;;;
       mret (mkReport dry (health_name (health h)) counts (match a with Some a => fst a | None => 0%nat end) None)
     else let* dir := in_area (swap now r (health h)) in
       mret (mkReport dry (health_name (health h)) counts (match a with Some a => fst a | None => 0%nat end) dir))
    ended_well ended_badly.
Proof.
  intros Hh Hfar Hdry Hcounts s [Hb (c & Hc & Hs & Hd & Hr)].
  assert (forall db, c = Database db -> durable_counts db = counts) as Hsame by (intros db Hdb; by apply Hcounts, Hd).
  assert (forall rep s', rp_counts rep = counts -> (if dry_run r then home (Some c) s'
    else exists name db, rp_backup_path rep = Some (child_path (backup_root r) name) /\
      keeps (kept_at (child_path (backup_root r) name)) (Some c) (area s') /\
      home (Some (Database db)) s' /\ sound db /\ durable_counts db = rp_counts rep) -> ended_well rep s') as Hwell.
  { intros rep s' Hrep H. exists c. split; [done|]. rewrite Hrep in *. by split. }
  destruct dry; unfold bind.
  - pose proof (home_discard (Some c) s Hs) as H. destruct (discard temporary s) as [[[]|e] s']; cbn in H.
    + apply Hwell; [done|]. by rewrite <- Hdry.
    + apply ended_home. by exists c.
  - destruct Hb as (db & Ht & Hsound & Hn). pose proof (swap_safe r now Hfar c (Database db) (health h) Hh (area s) (conj Hs Ht)) as H.
    unfold in_area. destruct (swap now r (health h) (area s)) as [[dir|e] x].
    + destruct H as (name & -> & H1 & H2). apply Hwell; [done|]. rewrite <- Hdry. by exists name, db.
    + split; [by exists c|]. intros b Hob Hnot. specialize (Hr b Hob). congruence.
Qed.

Lemma survives : only_looks (audit_existing (hooks r)) -> only_looks (validate_rebuilt (hooks r)) ->
  path <> quarantine_log_path r -> path <> quarantine_log_path r +:+ ".tmp" +:+ suffix ->
  (forall name file, path <> child_path (child_path (backup_root r) name) file) ->
  hoare at_start
    (when (String.eqb path "" || String.eqb (schema_sql r) "") (throw (InvalidArgument "database path and schema SQL are required")) ;;;
     let* h := in_area (inspect_database_health path) in
     in_area (refuse_unsafe r h) ;;;
     check_roots is_directory [] (project_roots r) ;;;
     let* audited := (if bool_decide (health h = Healthy) then let* a := audit_old now suffix r in mret (Some a) else mret None) in
     in_area (check_stale (with_sidecars temporary)) ;;;
     let* new_counts := try_catch (build md_parse now r (snd <$> audited)) (fun e => discard temporary ;;; throw e) in
     let report dir := mkReport (dry_run r) (health_name (health h)) new_counts
                         (match audited with Some a => fst a | None => 0%nat end) dir in
     if dry_run r then discard temporary ;;; mret (report None)
     else let* dir := in_area (swap now r (health h)) in mret (report dir))
    ended_well ended_badly.
Proof.
  intros Hl1 Hl2 Hlog1 Hlog2 Hfar.
  assert (forall s, at_start s -> ended_badly s) as Hbad by (intros s Hs; by apply ended_home, kept_start).
  eapply (hoare_bind _ _ _ (fun _ => at_start)); [eapply hoare_conseq; [apply hoare_preserves, (preserves_when at_start), preserves_throw|done|done|done]|intros []].
  eapply hoare_bind; [eapply hoare_conseq; [apply inspected|done|intros h s H; exact H|done]|intros h].
  apply hoare_pure. intros Hseen.
  eapply hoare_bind; [eapply hoare_conseq; [apply refused|done|intros ? s H; exact H|done]|intros []].
  apply hoare_pure. intros Hmay.
  eapply (hoare_bind _ _ _ (fun _ => at_start)); [eapply hoare_conseq; [apply hoare_preserves, start_roots|done|done|done]|intros []].
  eapply hoare_bind; [eapply hoare_conseq; [by apply old_audited|done|intros a s H; exact H|apply ended_home]|intros a].
  eapply (hoare_bind _ _ _ (fun _ => before_swap a)).
  { eapply hoare_conseq; [apply hoare_preserves, (before_swap_moves a)|done|done|].
    - intros x. apply home_area, leaves_stale.
    - intros s H. by eapply ended_home, before_swap_home. }
  intros [].
  eapply hoare_bind; [eapply hoare_conseq; [by apply built_beside|done|intros counts s H; exact H|apply ended_home]|intros counts].
  apply hoare_pure. intros Hcounts. apply swapped; try done. apply Hseen.
Qed.

End Whole.

(** C3: The database survives its reconstruction, whatever fails on the way. The file that was
    at the database's path, or that file less the rows of cards whose own files are missing,
    is at its path or in a directory of backups when [rebuild_database_projection] is over. If
    it returns, the old file is in the backup that the report names, and at the path is a
    database that has passed its checks and has the counts of the report, which are those of
    the old database; after a dry run the old file is at its path. A file that is no database
    is replaced only when everything durable is elsewhere: else it stays, and the call throws. *)
Theorem database_survives (E : SqlEngine) (Q : Sqlite) (Y : Yaml) (L : LibGit2) (J : MsgPack) (V : Privacy) (D : Directory)
    (N : JsonLib) (md_parse : bytes -> list TagExtractor.MdEvent) (now : Z) (suffix : string)
    (weakly_canonical : string -> option string) (is_directory : string -> bool)
    (r : DatabaseRebuildRequest) (old : File) (s : Rebuilding) :
  SqlEngineLaws E ->
  only_looks (audit_existing (hooks r)) -> only_looks (validate_rebuilt (hooks r)) ->
  database_path r <> quarantine_log_path r -> database_path r <> quarantine_log_path r +:+ ".tmp" +:+ suffix ->
  (forall name file, database_path r <> child_path (child_path (backup_root r) name) file) ->
  files (area s) !! database_path r = Some old ->
  match rebuild_database_projection md_parse now suffix weakly_canonical is_directory r s with
  | (Ok report, s') => exists c, audited (roots s) old c /\
      (forall db, c = Database db -> durable_counts db = rp_counts report) /\
      (forall b, old = Bytes b -> durable_ownership_ready r = true) /\
      if dry_run r then files (area s') !! database_path r = Some c
      else exists name db,
        rp_backup_path report = Some (child_path (backup_root r) name) /\
        files (area s') !! kept_at (child_path (backup_root r) name) = Some c /\
        files (area s') !! database_path r = Some (Database db) /\ sound r db /\ durable_counts db = rp_counts report
  | (Err _, s') =>
      (exists c, audited (roots s) old c /\ exists name,
         files (area s') !! database_path r = Some c \/
         files (area s') !! kept_at (child_path (backup_root r) name) = Some c) /\
      (forall b, old = Bytes b -> durable_ownership_ready r = false -> files (area s') !! database_path r = Some old)
  end.
Proof.
  intros HE Hl1 Hl2 Hlog1 Hlog2 Hfar Hs.
  set (r' := mkRebuildRequest (database_path r) (backup_root r) (schema_sql r) (expected_schema_version r)
    (normalized_roots weakly_canonical (project_roots r)) (required_authorities r) (durable_ownership_ready r) (dry_run r) (hooks r)).
  exact (survives md_parse now suffix is_directory r' (roots s) old Hl1 Hl2 Hlog1 Hlog2 Hfar s (conj (fun _ => eq_refl) Hs)).
Qed.

(** ** Readiness *)

(** Marking readiness works, and is read back, or leaves the marker as it was. *)
Theorem readiness_round_trip {N : JsonLib} `{!JsonLaws N} (suffix path : string) (a : Area) :
  match mark_database_rebuild_ready suffix path a with
  | (Ok _, a') => (forall n, (clock a' <= n)%nat -> events a' n = Works) -> fst (database_rebuild_is_ready path a') = Ok true
  | (Err _, a') => files a' !! path = files a !! path
  end.
Proof.
  assert (path <> path +:+ ".tmp" +:+ suffix) as Hne by (by apply not_eq_sym, longer).
  assert (hoare (keeps path (files a !! path)) (mark_database_rebuild_ready suffix path)
    (fun _ a' => exists text, json_parse text = Ok readiness /\ keeps path (Some (Bytes text)) a') (keeps path (files a !! path))) as H.
  { unfold mark_database_rebuild_ready.
    do 2 (eapply hoare_bind; [apply hoare_preserves; auto with preserves|intros []]).
    destruct (json_dump (Some 2%nat) readiness) as [text|e] eqn:Hd; [|by intros a']. eapply hoare_lift; [done|].
    assert (json_parse (text +:+ lf) = Ok readiness) as Hp.
    { eapply parse_dump_line; [|exact Hd]. apply JsonFacts.object_canonical; [done|].
      apply List.Forall_cons; [|apply List.Forall_cons; [|constructor]]; constructor; unfold int64, kReadinessVersion; lia. }
    eapply (hoare_bind _ _ _ (fun _ a' => keeps path (files a !! path) a' /\ keeps (path +:+ ".tmp" +:+ suffix) (Some (Bytes (text +:+ lf))) a')).
    { intros a' Ha. pose proof (leaves_write _ _ "failed to flush database rebuild readiness marker" _ (text +:+ lf) Hne a' Ha) as Hk.
      revert Hk. unfold write_text. destruct (events a' (clock a')) as [|[s|]|s]; cbn [snd]; try done.
      intros Hk. split; [done|]. unfold keeps. cbn. apply lookup_insert_eq. }
    intros []. eapply (hoare_bind _ _ _ (fun _ a' => keeps path (files a !! path) a' /\ keeps (path +:+ ".tmp" +:+ suffix) (Some (Bytes (text +:+ lf))) a')).
    { eapply hoare_conseq; [apply hoare_and; apply hoare_preserves, leaves_call, preserves_mret|intros a' Ha; exact Ha|done|by intros a' [Ha _]]. }
    intros []. apply (hoare_try _ _ _ _ (keeps path (files a !! path))).
    - intros a' [H1 H2]. unfold rename_file, call. unfold keeps in H2.
      destruct (events a' (clock a')); cbn [files pass]; [|done|]; rewrite H2; exists (text +:+ lf); (split; [done|]);
        unfold keeps; cbn; by rewrite lookup_insert_eq.
    - intros e. eapply hoare_bind; [by apply hoare_preserves, leaves_remove|]. by intros [] a'. }
  specialize (H a eq_refl). destruct (mark_database_rebuild_ready suffix path a) as [[[]|e] a']; [|exact H].
  intros Hw. destruct H as (text & Hp & Hk). unfold keeps in Hk.
  unfold database_rebuild_is_ready, is_regular, read_text, bind, try_catch, call, gets. rewrite (Hw _ (le_n _)).
  cbn [files pass]. rewrite Hk, bool_decide_eq_true_2 by done. cbn [negb events pass clock].
  rewrite (Hw (S (clock a'))) by lia. cbn [files pass]. rewrite Hk. unfold lift. rewrite Hp.
  change (value_of "version" readiness) with (get_int (JInt 1)).
  change (value_of "durable_owner_generation" readiness) with (get_int (JInt 1)).
  by rewrite !(get_int_int 1) by (unfold int32; lia).
Qed.

(** ** The database of the notes is rebuilt *)
Import ReferenceYaml ReferenceGit ReferenceJson RebuildFilesTheorems ProjectPrivacy StartupRecoveryTheorems.

(** The schema's tables, and a file that starts with anything else than a database's header. *)
Definition reference_sqlite : Sqlite := {|
  quick_check s := Stepped false "" 26 26 "file is not a database";
  integrity_check _ := "ok";
  foreign_key_violation _ := false;
  read_schema_version _ := 1;
  run_schema _ db := Ok db
|}.
Definition notes_db : Db :=
  rv_db (snd (recover_project_roots (E := reference_engine) (Y := reference_yaml) (L := reference_git) (J := reference_msgpack)
    (V := reference_privacy) (D := listing) (N := reference_json) no_tags 9 (Ok "new") true ["/p"] lost)).
Definition ghost_id : string := "0190b0a0-0000-7000-8000-00000000000f".
Definition haunted_db : Db :=
  set_cards (mkCard ghost_id "p" "Ghost" "" None f64_zero 1 2 None :: cards notes_db) notes_db.
Definition server (holder : File) (weather : nat -> Outcome) : Rebuilding :=
  mkRebuilding (mkArea {[ "/data/holder.db" := holder ]} ∅ weather 0) (rv_root lost) None.
Definition request (dry ready : bool) : DatabaseRebuildRequest :=
  mkRebuildRequest "/data/holder.db" "/data/backups" "CREATE TABLE" 1 ["/p"; "/p"] [] ready dry (mkHooks None None None None).
Definition rebuild_notes (r : DatabaseRebuildRequest) (s : Rebuilding) : result DatabaseRebuildReport * Rebuilding :=
  rebuild_database_projection (E := reference_engine) (Q := reference_sqlite) (Y := reference_yaml) (L := reference_git)
    (J := reference_msgpack) (V := reference_privacy) (D := listing) (N := reference_json) no_tags 9 ".1.0" Some (fun _ => true) r s.
(** The [n]th call fails. *)
Definition fails_at (n i : nat) : Outcome := if Nat.eqb i n then Throws None else Works.

Lemma data_far name file : "/data/holder.db" <> child_path (child_path "/data/backups" name) file.
Proof.
  change (child_path "/data/backups" name) with ("/data/backups/" +:+ name). unfold child_path.
  destruct (String.eqb _ "") eqn:He; [discriminate He|]. destruct (bool_decide _); discriminate.
Qed.

(** A card whose file is gone loses its row; the others are in the new database. *)
Lemma notes_rebuilt :
  match rebuild_notes (request false false) (server (Database haunted_db) (fun _ => Works)) with
  | (Ok report, s') => rp_quarantined_cards report = 1%nat /\
      files (area s') !! "/data/holder.db" = Some (Database notes_db) /\ rp_counts report = durable_counts notes_db
  | (Err _, _) => False
  end.
Proof. vm_compute. auto. Qed.

Example database_survives_witness :
  match rebuild_notes (request false false) (server (Database haunted_db) (fun _ => Works)) with
  | (Ok report, s') => rp_quarantined_cards report = 1%nat /\
      files (area s') !! "/data/holder.db" = Some (Database notes_db) /\
      exists c name, audited (rv_root lost) (Database haunted_db) c /\
        files (area s') !! kept_at (child_path "/data/backups" name) = Some c
  | (Err _, _) => False
  end.
Proof.
  pose proof (database_survives reference_engine reference_sqlite reference_yaml reference_git reference_msgpack reference_privacy
    listing reference_json no_tags 9 ".1.0" Some (fun _ => true) (request false false) (Database haunted_db)
    (server (Database haunted_db) (fun _ => Works)) _ I I ltac:(discriminate) ltac:(discriminate) data_far eq_refl) as H.
  pose proof notes_rebuilt as G. fold (rebuild_notes (request false false) (server (Database haunted_db) (fun _ => Works))) in H.
  destruct (rebuild_notes (request false false) (server (Database haunted_db) (fun _ => Works))) as [[report|e] s']; [|exact G].
  destruct H as (c & Hc & _ & _ & name & db & _ & Hk & _). destruct G as (H1 & H2 & _).
  split; [exact H1|]. split; [exact H2|]. exists c, name. split; [exact Hc|exact Hk].
Defined.

(** A dry run is not without effects: the row of the card is gone from the old database. *)
Example dry_run_removes_rows :
  map_to_list (files (area (snd (rebuild_notes (request true false) (server (Database haunted_db) (fun _ => Works))))))
    !! 1%nat = Some ("/data/holder.db", Database notes_db) /\ length (cards haunted_db) = 3%nat /\ length (cards notes_db) = 2%nat.
Proof. vm_compute. auto. Qed.

(** What fails after the database was moved to the backup, and before the swap, leaves no
    database at its path. *)
Example failed_backup_leaves_no_database :
  let '(r, s') := rebuild_notes (request false false) (server (Database notes_db) (fails_at 15)) in
  r = Err (Runtime "exists") /\ files (area s') !! "/data/holder.db" = None /\
  files (area s') !! "/data/backups/backup-9/holder.db" = Some (Database notes_db).
Proof. vm_compute. auto. Qed.

(** A swap that fails puts the old database back, and leaves the new one beside it, which
    refuses every later reconstruction. *)
Example failed_swap_blocks_the_next :
  let '(r, s') := rebuild_notes (request false false) (server (Database notes_db) (fails_at 17)) in
  r = Err (Runtime "rename") /\ files (area s') !! "/data/holder.db" = Some (Database notes_db) /\
  fst (rebuild_notes (request false false) s') =
    Err (Runtime "stale rebuild temporary database exists: /data/holder.db.rebuild.tmp").
Proof. vm_compute. auto. Qed.

End DatabaseRebuildTheorems.
